(* ===== verification/_CoqProject ===== *)
-Q . S2P
Prelude.v
MBuf.v
WBufInfo.v
NfsProt.v
NfsSupp.v
Nfs.v
NfsServer.v
NfsRead.v
Global.v
WBuf.v
WBufRep.v
WBufFlush.v
WBufGet.v
WBufSeek.v
WBufSpec.v
WBufThm.v
RBuf.v
RBufSpec.v
FileHandle.v
FileSpec.v
FileThm.v
Xdr.v
XdrSpec.v
NfsXdr.v
NfsXdrSpec.v
NfsXdrThm.v
XdrMem.v
FtHash.v
FtHashSpec.v
FtHashOps.v
FtHashThm.v
DCache.v
DCacheThm.v
Fn.v
FnThm.v
NfsLookup.v
Dirs.v
HState.v
Walk.v
CacheSafe.v
WalkSpec.v
WalkThm.v
TreeServer.v
LockThm.v
Find.v
Fib.v
Examine.v
ExAll.v
Object.v
Cred.v
Volume.v
IoCtl.v
Rexx.v
Actions.v
Main.v
FibThm.v
CredThm.v
ActionsThm.v
ExAllThm.v
Keeps.v
LockMgr.v
LockMgrThm.v
ListThm.v
Udp.v
UdpSpec.v
UdpRun.v
UdpThm.v
Stubs.v
Wire.v
NfsNet.v
UdpCalls.v
UdpServer.v
SimNet.v
UdpFile.v
Start.v
Run.v
StartSpec.v
StartThm.v
LoopThm.v
MainThm.v
