(* ===== verification/Prelude.v ===== *)
(** * aNFS (ch_nfs), an Amiga NFS client: verification library

    aNFS is a file system handler: AmigaDOS sends it packets (open, read,
    write, seek, lock, examine, ...), and it serves them with calls of the NFS
    version 2 protocol over ONC RPC and UDP.  The C sources are in src/src/ and
    common/; this library models their core and proves what makes it correct.
    A data structure or function has the name it has in C.

    ** How the program is put together

    main() (nfs_handler.c) gets what the handler needs (G_Init, G_Mount), waits for
    packets and ARexx commands, hands each packet through a table of actions
    (actions.c), replies, and gives everything back at the end: Start.v, Run.v,
    Main.v and Actions.v; the commands are answered in IoCtl.v, through the ARexx
    port of Rexx.v.

    A packet that reads or writes goes down through five layers:

    - the action (read.c, write.c, seek.c) looks its file up in the handler's list
      (fh.c) and checks mode and pending errors - FileHandle.v;
    - the caches of one file: the read buffer (rbuf.c) - RBuf.v - and the write
      cache (wbuf.c), a list of 8192-byte buffers, each with a table of its
      dirty ranges - WBufInfo.v for the table, WBuf.v for the rest;
    - the pool of memory buffers that both share (mbuf.c) - MBuf.v;
    - the operations of the client (nfs.c), which cut a transfer into calls,
      keep a window of calls under way and turn errors into AmigaDOS codes
      (nfssupp.c) - Nfs.v, NfsRead.v, NfsLookup.v and NfsSupp.v;
    - the calls: their stubs (ch_nfs_prot_clnt.c) - Stubs.v -, their transport over
      UDP with repetitions (rpc/clnt_audp.c) - Udp.v - and their representation
      (nfs_prot.h, ch_nfs_prot_xdr.c) - NfsProt.v, Xdr.v and NfsXdr.v.

    A packet that works on names follows a path (fn.c - Fn.v, lock.c - Walk.v)
    through two caches, hash tables whose entries expire (common/fthash.c -
    FtHash.v): attributes by file id (attrs.c) and directories by file id with the
    names found in them (dcache.c) - DCache.v.  It makes or removes locks (locks.c -
    Walk.v), opens files (find.c - Find.v), examines and lists (dirs.c - Dirs.v,
    examine.c - Fib.v, Examine.v, ExAll.v), changes objects, links and attributes
    (object.c, link.c, attr.c - Object.v) or the volume (filesys.c, info.c, timer.c -
    Volume.v).  Who asks the server is decided in cred.c - Cred.v.

    ** How C is modelled

    - A pointer is an [option addr]; objects are records in finite maps from
      addresses.  A function that follows NULL or a pointer to a freed object,
      indexes outside an array or reads an uninitialised result gives [None]:
      undefined behaviour is an outcome, and the theorems say it cannot happen.
      [None] is also what a loop without fuel gives, so they show termination.
    - Integers are [Z] with the conversions [u8], [u16], [u32], [s16], [s32]
      written where the C types wrap.
    - The state of files is [Global_T] (Global.v) and [Handler] (FileHandle.v); the
      packets on names work on [HState] (HState.v) in a monad [M] with errors, which
      set the packet's results.  What is behind [g_NFSClnt] is a type [S] with the
      call stubs of class [NfsRpc] (Nfs.v).
    - Whether an allocation succeeds, what the clock says and what the user, the
      network and the system answer are parameters, and theorems hold for all
      answers.
    - Code that is not part of the program is a class or an argument with named
      laws, and each has an instance that keeps them, on which the witnesses run:
      [NfsFileServer] for writes and [NfsFileReader] for reads (instance
      [MemServer], NfsServer.v) and [NfsReadServer] ([ReadBox], NfsRead.v) for the
      server's files, [DosNames] and the laws of the server of names
      (TreeServer.v), [NfsObjects] for a server that objects are made at
      ([dirserver], LockMgrThm.v), [Net] and [RpcLib] for sockets and the RPC
      library (UdpThm.v, SimNet.v), [NfsNetwork] for a network with a server behind
      it (NfsNet.v, SimNet.v).

    ** The interfaces between the components

    The write cache is proved against [NfsFileServer]: a write call that succeeds
    replaces the bytes it was given, other files do not change, and a failed write
    may have changed any of the bytes it covers.  The read buffer and the packets of
    open files need [NfsFileReader] besides: a read changes nothing and gives bytes
    that are there.  Over a network that loses, delays, reorders and doubles
    requests and replies the server's files do not keep such laws, as a request to
    write may be carried out again at any later time.  UdpServer.v proves that the
    laws of writing are kept by what the client knows of the files, the requests it
    sent and those reported as done, and UdpFile.v and MainThm.v draw from it which
    bytes the server's files have after a session ([session_served]); the laws of
    reading are not discharged over such a network: there a read gives, byte by
    byte, the file's or that of a late request ([nfsproc_read_buf_reads]).  The
    representation is proved by the class [Codec] (XdrSpec.v), one instance for
    every type.  The walk and the locks are proved against what WalkSpec.v relies
    on, with CacheSafe.v for pointers into the caches.

    ** The files

    Prelude.v: machine integers, lists indexed by [Z], the tactics [zlia],
    [zbool] and the rewriting database [zlen].

    MBuf.v (mbuf.c): [MBufPool]; [mb_ObtainMBuf], [mb_ReleaseMBuf] and the
    growing of the pool, whose free list is threaded through the buffers.

    WBufInfo.v (the table of dirty ranges of wbuf.c): [WBufDoMelt] and
    [WBufUpdateInfo] in place on the array, equal to a reference insertion
    into a list of ordered disjoint ranges.

    NfsProt.v, NfsSupp.v, Nfs.v, NfsServer.v, NfsRead.v: the protocol's types, the
    codes of errors and ids, the operations, and the transfer loops [nfs_MRead],
    [nfs_MWrite], [nfs_MAWrite] and [nfs_MARead] against a file server.

    Global.v, WBuf.v (wbuf.c): the records and the functions of the write
    cache.  Its proofs are in layers: WBufRep.v says what a list of headers
    holds (with the headers and buffers of other files as a frame that does
    not change); WBufFlush.v what the user sees, the server's bytes with the
    dirty ones over them, and flushing; WBufGet.v, WBufSeek.v and WBufSpec.v
    obtaining a buffer, positioning and writing; WBufThm.v has the theorems.

    RBuf.v, RBufSpec.v (rbuf.c): the read buffer and that it is faithful.

    FileHandle.v (fh.c, read.c, write.c, seek.c): [act_READ], [act_WRITE],
    [act_SEEK] and the list of open files.  FileSpec.v has the invariant of an
    open file, its abstract counterpart, a function from offsets to bytes, a length
    and a position, and the handler's list; FileThm.v has the refinement for
    sequences of packets.

    Xdr.v, XdrSpec.v, NfsXdr.v, NfsXdrSpec.v, NfsXdrThm.v: the routines as
    encoders and decoders, the laws [enc_ok], [dec_ok], [dec_safe], the class
    [Codec] and its instances for all types.  XdrMem.v: the memory of decoded lists
    and strings, and freeing it.

    FtHash.v, FtHashSpec.v, FtHashOps.v, FtHashThm.v: the hash table with
    expiry; [ft_ok] accounts for every value in it.  DCache.v, DCacheThm.v:
    the two caches on top of it.

    Fn.v, FnThm.v, NfsLookup.v: names and paths, BSTRs (supp.c), looking a name up.

    Dirs.v, HState.v, Walk.v, CacheSafe.v, WalkSpec.v, WalkThm.v, TreeServer.v,
    LockThm.v: handles of directories, the state and monad of the packets on names,
    the walk and the locks, what they keep, and a server of names to run them on.

    Find.v, Fib.v, Examine.v, ExAll.v, Object.v, Cred.v, Volume.v, IoCtl.v, Rexx.v,
    Actions.v, Main.v: the packets and commands, and one turn of the loop; FibThm.v,
    CredThm.v, ActionsThm.v, ExAllThm.v: what each of them does.  Keeps.v,
    LockMgr.v, LockMgrThm.v: all packets as a manager of locks; ListThm.v: listing a
    directory from the first entry to the last.

    Udp.v, UdpSpec.v, UdpRun.v, UdpThm.v: the transport and its runs; Stubs.v, Wire.v,
    NfsNet.v, UdpCalls.v, UdpServer.v, SimNet.v, UdpFile.v: the stubs, the datagrams
    as a history that explains the server's files, and the composition.

    Start.v, Run.v, StartSpec.v, StartThm.v, LoopThm.v, MainThm.v: main().

    ** What is shown

    - From the command line to the server: a start-up that succeeds leaves the
      client as the packets need it.  Writes, each inside one block, and a flush then
      come to an end, and when none failed the requests sent are the session on plain
      files; the server's files have its bytes where the requests agree and one
      request's byte elsewhere, whatever the network lost, delayed, doubled or
      reordered ([start_up_serves], [write_session_over_udp]).  main() gives back
      what it got, once, with the exceptions that [main_gives_back] lists; the loop
      serves what comes once and in order, with a reply to each, and ends only when
      nothing is in use.
    - A file is a file.  Reads, writes inside one block, seeks and flushes of an
      open file, as long as none fails, are a run of the abstract file, and leave
      the other files of the handler and of the server alone
      ([packets_refine_file]); each packet does its transition or reports an error
      of the server or of AmigaDOS, and what is refused changes nothing
      ([packets_report_errors]).
    - The parts of the write cache: tables, positioning, writing, flushing,
      pools, and their use of memory when it runs out.  The bounds are real: a write
      may extend over two blocks, with room in the table of the first;
      [long_write_loses_data] and [full_table_breaks_list] run the code outside these
      bounds to a loss of data.
    - Transfers of any length are complete and in order, whatever the sizes of
      requests, the window and the order of the replies; the asynchronous read may fail
      without need ([overtaking_reply_fails]).
    - Calls come to an end, get the reply to their own request, and what is sent and
      received is the representation of the protocol, within the buffer.  The stub of
      READDIR holds the memory of one list ([readdir_memory]); that of READLINK loses
      its string at every call ([readlink_leaks]).
    - Locks of all packets together are those of a lock manager with shared and
      exclusive locks, and an exclusive lock stays the only one if the server is
      consistent about new objects ([locks_exclusive]); paths lead where their names
      say; listings are complete unless a call fails, and fit into their buffers;
      credentials are those of the task, as far as the code looks.
    - The hash table frees every value exactly once and never one that a client
      may still use; its lookups and those of the caches give what was stored.
    - Commands are answered once; the ARexx port has a name of its own and is closed
      down without losing a message.

    ** Fuel

    Recursion that is not on the structure of a list has fuel.  The loops over
    the headers of a cluster get the number of its headers and one more, as a
    list of distinct headers cannot be longer; the write loop gets one step per
    byte, and [WBufWrite_progress] shows that each step takes a byte or fails;
    the transfer loops get one step per byte, and the asynchronous ones two, as
    every call moves at least one byte and is sent once and waited for once; the
    loops over the chains of the hash table get the number of entries
    or of chains and one more; the decoder of directory lists gets the room of
    its stream, of which every entry takes up a part, and the loop that frees a list the
    number of blocks of the heap; a walk gets the length of its
    path; the waits of the transport get the datagrams still to come and the
    repetitions that fit into the timeout ([turns_call], [turns_wait]), and the
    questions to the user what [Requester] says it will still answer; the loops of the
    ARexx port get the messages still to come, the search for its name the number of
    ports.  The theorems show that a result is reached.

    ** What is not modelled

    The operating system (Exec messages and memory, DOS, the timer device), sockets,
    the RPC library's message headers and authentication, and the functions of the
    compiler's library that are not part of C: parameters with laws where something
    relies on them.  The log (log.c, Debug.c), which is compiled for debugging only,
    and dummy.c, which stands in for functions the RPC library links.  clntaudp_destroy,
    which only gives memory back.  The text of requesters and of
    printed numbers.  Code between #if 0 and #endif.  Time passes between calls only
    as the clock parameter says, and other programs act only through packets, messages
    and the server: there is no preemption inside a packet, as the handler is one
    task. *)
From Stdlib Require Export ZArith Lia Strings.Byte.
From stdpp Require Export base gmap option list.

(** Addresses of C objects; a C pointer is an [option addr], [None] is NULL. *)
Abbreviation addr := positive.

Open Scope Z_scope.

(** ** Machine integers *)

Definition u8 (z : Z) : Z := z mod 2 ^ 8.
Definition u16 (z : Z) : Z := z mod 2 ^ 16.
Definition u32 (z : Z) : Z := z mod 2 ^ 32.
Definition s16 (z : Z) : Z := (z + 2 ^ 15) mod 2 ^ 16 - 2 ^ 15.
Definition s32 (z : Z) : Z := (z + 2 ^ 31) mod 2 ^ 32 - 2 ^ 31.

Lemma u8_id z : 0 <= z < 2 ^ 8 -> u8 z = z.
Proof. intros. by apply Z.mod_small. Qed.
Lemma u16_id z : 0 <= z < 2 ^ 16 -> u16 z = z.
Proof. intros. by apply Z.mod_small. Qed.
Lemma u32_id z : 0 <= z < 2 ^ 32 -> u32 z = z.
Proof. intros. by apply Z.mod_small. Qed.
Lemma s16_id z : - 2 ^ 15 <= z < 2 ^ 15 -> s16 z = z.
Proof. intros. unfold s16. rewrite Z.mod_small; lia. Qed.
Lemma s32_id z : - 2 ^ 31 <= z < 2 ^ 31 -> s32 z = z.
Proof. intros. unfold s32. rewrite Z.mod_small; lia. Qed.
Lemma u32_range z : 0 <= u32 z < 2 ^ 32.
Proof. by apply Z.mod_pos_bound. Qed.
Lemma s32_range z : - 2 ^ 31 <= s32 z < 2 ^ 31.
Proof. unfold s32. pose proof (Z.mod_pos_bound (z + 2 ^ 31) (2 ^ 32)). lia. Qed.

(** Boolean comparisons in the context become propositions. *)
Ltac zbool :=
  repeat match goal with
  | H : (_ <? _) = true |- _ => apply Z.ltb_lt in H
  | H : (_ <? _) = false |- _ => apply Z.ltb_ge in H
  | H : (_ <=? _) = true |- _ => apply Z.leb_le in H
  | H : (_ <=? _) = false |- _ => apply Z.leb_gt in H
  | H : (_ >? _) = true |- _ => rewrite Z.gtb_ltb in H; apply Z.ltb_lt in H
  | H : (_ >? _) = false |- _ => rewrite Z.gtb_ltb in H; apply Z.ltb_ge in H
  | H : (_ >=? _) = true |- _ => rewrite Z.geb_leb in H; apply Z.leb_le in H
  | H : (_ >=? _) = false |- _ => rewrite Z.geb_leb in H; apply Z.leb_gt in H
  | H : (_ =? _) = true |- _ => apply Z.eqb_eq in H
  | H : (_ =? _) = false |- _ => apply Z.eqb_neq in H
  end.

(** ** Bytes *)

Definition byte_of_Z (z : Z) : byte :=
  default x00 (Byte.of_N (Z.to_N (u8 z))).
Definition Z_of_byte (b : byte) : Z := Z.of_N (Byte.to_N b).

#[export] Instance byte_eq_dec : EqDecision byte := Byte.byte_eq_dec.

Lemma Z_of_byte_range b : 0 <= Z_of_byte b < 2 ^ 8.
Proof. unfold Z_of_byte. pose proof (Byte.to_N_bounded b). lia. Qed.

Lemma Z_of_byte_of_Z z : Z_of_byte (byte_of_Z z) = u8 z.
Proof.
  unfold Z_of_byte, byte_of_Z.
  assert (0 <= u8 z < 2 ^ 8) by by apply Z.mod_pos_bound.
  destruct (Byte.of_N (Z.to_N (u8 z))) as [b|] eqn:E; simpl.
  - apply Byte.to_of_N in E. rewrite E. lia.
  - apply Byte.of_N_None_iff in E. lia.
Qed.

Lemma byte_of_Z_of_byte b : byte_of_Z (Z_of_byte b) = b.
Proof.
  unfold byte_of_Z. rewrite u8_id by apply Z_of_byte_range.
  unfold Z_of_byte. by rewrite N2Z.id, Byte.of_to_N.
Qed.

(** ** Arrays: a C array of fixed length is a list; [None] is an access out of bounds *)

Definition arr_get {A} (arr : list A) (i : Z) : option A :=
  if 0 <=? i then arr !! Z.to_nat i else None.
Definition arr_set {A} (arr : list A) (i : Z) (x : A) : option (list A) :=
  if (0 <=? i) && (i <? Z.of_nat (length arr))
  then Some (<[Z.to_nat i := x]> arr) else None.

(** [memmove(arr + dst, arr + src, n * sizeof(elem))] inside one array. *)
Definition memmove {A} (arr : list A) (dst src n : Z) : option (list A) :=
  if (0 <=? n) && (0 <=? dst) && (0 <=? src)
     && (dst + n <=? Z.of_nat (length arr)) && (src + n <=? Z.of_nat (length arr))
  then let d := Z.to_nat dst in let s := Z.to_nat src in let k := Z.to_nat n in
       Some (take d arr ++ take k (drop s arr) ++ drop (d + k) arr)
  else None.

(** [CopyMem(src, dst + off, length src)] into a byte buffer. *)
Definition copy_at {A} (dst : list A) (off : Z) (src : list A) : option (list A) :=
  if (0 <=? off) && (off + Z.of_nat (length src) <=? Z.of_nat (length dst))
  then Some (take (Z.to_nat off) dst ++ src
             ++ drop (Z.to_nat off + length src) dst)
  else None.

Definition sub_list {A} (l : list A) (off n : Z) : list A :=
  take (Z.to_nat n) (drop (Z.to_nat off) l).

Definition zlen {A} (l : list A) : Z := Z.of_nat (length l).

Lemma arr_get_app_r {A} (l1 l2 : list A) x :
  arr_get (l1 ++ x :: l2) (zlen l1) = Some x.
Proof.
  unfold arr_get, zlen. rewrite (proj2 (Z.leb_le _ _)) by lia.
  by rewrite Nat2Z.id, list_lookup_middle.
Qed.

Lemma arr_set_app_r {A} (l1 l2 : list A) x y :
  arr_set (l1 ++ x :: l2) (zlen l1) y = Some (l1 ++ y :: l2).
Proof.
  unfold arr_set, zlen. rewrite length_app; simpl.
  rewrite (proj2 (Z.leb_le _ _)), (proj2 (Z.ltb_lt _ _)) by lia. simpl.
  rewrite Nat2Z.id, insert_app_r_alt by lia. by rewrite Nat.sub_diag.
Qed.

Lemma zlen_app {A} (l1 l2 : list A) : zlen (l1 ++ l2) = zlen l1 + zlen l2.
Proof. unfold zlen. rewrite length_app. lia. Qed.
Lemma zlen_cons {A} (x : A) l : zlen (x :: l) = 1 + zlen l.
Proof. unfold zlen. simpl. lia. Qed.
Lemma zlen_nonneg {A} (l : list A) : 0 <= zlen l.
Proof. unfold zlen. lia. Qed.

Lemma zlen_nil {A} : zlen (@nil A) = 0.
Proof. done. Qed.
Create Rewrite HintDb zlen.
#[export] Hint Rewrite @zlen_app @zlen_cons @zlen_nil : zlen.

(** Linear arithmetic over lengths of concrete lists. *)
Ltac zlia :=
  autorewrite with zlen in *;
  repeat match goal with
  | l : list _ |- _ => lazymatch goal with
                       | _ : 0 <= zlen l |- _ => fail
                       | _ => pose proof (zlen_nonneg l)
                       end
  end; lia.

Lemma memmove_in_range {A} (arr : list A) dst src n :
  0 <= n -> 0 <= dst -> 0 <= src -> dst + n <= zlen arr -> src + n <= zlen arr ->
  memmove arr dst src n =
    Some (take (Z.to_nat dst) arr ++ take (Z.to_nat n) (drop (Z.to_nat src) arr)
          ++ drop (Z.to_nat dst + Z.to_nat n) arr).
Proof.
  unfold zlen. intros. unfold memmove.
  by rewrite !(proj2 (Z.leb_le _ _)) by lia.
Qed.

Lemma memmove_left {A} (l1 l2 l3 l4 : list A) :
  exists r, memmove (l1 ++ l2 ++ l3 ++ l4) (zlen l1) (zlen l1 + zlen l2) (zlen l3)
    = Some (l1 ++ l3 ++ r) /\ length r = (length l2 + length l4)%nat.
Proof.
  rewrite memmove_in_range by (rewrite ?zlen_app; unfold zlen; lia).
  unfold zlen. rewrite !Nat2Z.id.
  replace (Z.to_nat (Z.of_nat (length l1) + Z.of_nat (length l2)))
    with (length (l1 ++ l2)) by (rewrite length_app; lia).
  rewrite take_app_length. rewrite (app_assoc l1 l2), drop_app_length, take_app_length.
  eexists. split; [done|].
  rewrite length_drop, !length_app. lia.
Qed.

Lemma memmove_right {A} (l1 l2 : list A) x l3 :
  exists y, memmove (l1 ++ l2 ++ x :: l3) (zlen l1 + 1) (zlen l1) (zlen l2)
    = Some (l1 ++ y :: l2 ++ l3).
Proof.
  rewrite memmove_in_range by (rewrite ?zlen_app, ?zlen_cons; unfold zlen; lia).
  unfold zlen. rewrite !Nat2Z.id.
  replace (Z.to_nat (Z.of_nat (length l1) + 1)) with (length l1 + 1)%nat by lia.
  rewrite drop_app_length, take_app_length.
  replace (length l1 + 1 + length l2)%nat with (length (l1 ++ l2 ++ [x]))
    by (rewrite !length_app; simpl; lia).
  replace (l1 ++ l2 ++ x :: l3) with ((l1 ++ l2 ++ [x]) ++ l3)
    by (rewrite <-!app_assoc; done).
  rewrite drop_app_length.
  destruct l2 as [|y l2]; simpl.
  - exists x. rewrite <-app_assoc; simpl. rewrite take_app_add. simpl. by rewrite <-app_assoc.
  - exists y. rewrite <-!app_assoc; simpl. rewrite take_app_add. simpl. by rewrite <-app_assoc.
Qed.

Lemma copy_at_Some {A} (dst : list A) off src :
  0 <= off -> off + zlen src <= zlen dst ->
  exists d', copy_at dst off src = Some d' /\ length d' = length dst /\
    (forall i, (Z.of_nat i < off \/ off + zlen src <= Z.of_nat i) -> d' !! i = dst !! i) /\
    (forall i, d' !! (Z.to_nat off + i)%nat =
               if decide (i < length src)%nat then src !! i
               else dst !! (Z.to_nat off + i)%nat).
Proof.
  unfold zlen. intros H0 H1. unfold copy_at.
  rewrite (proj2 (Z.leb_le 0 off)), (proj2 (Z.leb_le _ _)) by lia. simpl.
  eexists. split; [done|].
  set (o := Z.to_nat off).
  assert (Ho : length (take o dst) = o) by (rewrite length_take; lia).
  split_and!.
  - rewrite !length_app, Ho, length_drop. lia.
  - intros i [Hi|Hi].
    + rewrite lookup_app_l by lia. apply lookup_take_lt. lia.
    + rewrite lookup_app_r, Ho, lookup_app_r, lookup_drop by lia. f_equal. lia.
  - intros i. rewrite lookup_app_r, Ho by lia.
    replace (o + i - o)%nat with i by lia. case_decide.
    + by apply lookup_app_l.
    + rewrite lookup_app_r, lookup_drop by lia. f_equal. lia.
Qed.

(** ** Singly linked lists in memory *)

Section Chain.
Context {N : Type} (next : N -> option addr).
Implicit Types (m : gmap addr N) (l : list addr).

(** [chain m p l q]: following [next] from [p] visits exactly [l] and then
    reaches the pointer [q]. *)
Fixpoint chain m (p : option addr) l (q : option addr) : Prop :=
  match l with
  | [] => p = q
  | a :: l' => p = Some a /\ exists n, m !! a = Some n /\ chain m (next n) l' q
  end.

Lemma chain_app m p l1 l2 q :
  chain m p (l1 ++ l2) q <-> exists r, chain m p l1 r /\ chain m r l2 q.
Proof.
  revert p. induction l1 as [|a l1 IH]; intros p; simpl.
  - split; [eauto|]. by intros (r & -> & ?).
  - setoid_rewrite IH. split.
    + intros (-> & n & Hn & r & H1 & H2). eauto 10.
    + intros (r & (-> & n & Hn & H1) & H2). eauto 10.
Qed.

Lemma chain_frame m m' p l q :
  (forall a, a ∈ l -> m' !! a = m !! a) -> chain m p l q -> chain m' p l q.
Proof.
  revert p. induction l as [|a l IH]; intros p Hm; simpl; [done|].
  intros (-> & n & Hn & Hc). split; [done|]. exists n. split.
  - rewrite Hm by set_solver. done.
  - apply IH; [|done]. set_solver.
Qed.

Lemma chain_insert_ne m p l q a n :
  a ∉ l -> chain m p l q -> chain (<[a := n]> m) p l q.
Proof.
  intros Ha. apply chain_frame. intros b Hb.
  apply lookup_insert_ne. set_solver.
Qed.

(** Updating a node without moving its link. *)
Lemma chain_insert_same m p l q a n n' :
  m !! a = Some n -> next n' = next n -> chain m p l q -> chain (<[a := n']> m) p l q.
Proof.
  intros Ha Hn. revert p. induction l as [|b l IH]; intros p; simpl; [done|].
  intros (-> & nb & Hb & Hc). split; [done|]. destruct (decide (a = b)) as [->|Hab].
  - exists n'. rewrite lookup_insert_eq. split; [done|]. rewrite Hn. simplify_eq. by apply IH.
  - exists nb. rewrite lookup_insert_ne by done. split; [done|]. by apply IH.
Qed.

Lemma chain_nonnull m p a l q : chain m p (a :: l) q -> p = Some a.
Proof. by intros [? _]. Qed.

Lemma chain_null m l : chain m None l None -> l = [].
Proof. destruct l; [done|]. by intros [? _]. Qed.

Lemma chain_mem m p l q a : chain m p l q -> a ∈ l -> is_Some (m !! a).
Proof.
  revert p. induction l as [|b l IH]; intros p; simpl; [set_solver|].
  intros (_ & n & Hn & Hc) [->|]%elem_of_cons; eauto.
Qed.

Lemma chain_det m p l1 l2 : chain m p l1 None -> chain m p l2 None -> l1 = l2.
Proof.
  revert p l2. induction l1 as [|a l1 IH]; intros p l2; simpl.
  - intros ->. intros H. symmetry. eapply chain_null, H.
  - intros (-> & n & Hn & Hc) H2. destruct l2 as [|b l2]; [done|].
    destruct H2 as ([= <-] & n' & Hn' & Hc'). simplify_eq.
    f_equal. eauto.
Qed.
End Chain.
