(* ===== verification/MBuf.v ===== *)
(** * Memory buffers (mbuf.c, mbuf.h)

    The pool of MBUFSIZE-byte buffers shared by the write cache and the read
    buffers.  The free list is threaded through the buffers themselves; the
    pool is the part of [Global_T] that mbuf.c owns ([g_NumMBufs],
    [g_NumFreeMBufs], [g_FreeMBufs]) together with the memory of the buffers.
    A result of [None] is undefined behaviour (a NULL or dangling access, or
    an uninitialised result). *)
From S2P Require Import Prelude.

Definition MBUFSIZE : Z := 8192.

(** [mbn_Next] overlays the first bytes of the buffer in C; those bytes are
    dead while the buffer is on the free list, so the two are kept apart. *)
Record mbufnode := MBufNode { mbn_Next : option addr; mbn_Data : list byte }.

Record mbpool := MBPool {
  g_NumMBufs : Z;
  g_NumFreeMBufs : Z;
  g_FreeMBufs : option addr;
  mb_mem : gmap addr mbufnode
}.

(** mbuf.c: remove [n] buffers from the head of the free list, FreeMem each. *)
Fixpoint free_heads (n : nat) (p : option addr) (mem : gmap addr mbufnode)
  : option (option addr * gmap addr mbufnode) :=
  match n with
  | O => Some (p, mem)
  | S n => a ← p; (mbn ← mem !! a; free_heads n (mbn_Next mbn) (delete a mem))
  end.

Definition mb_FreeSomeMBufs (g : mbpool) (NumBufs : Z) : option mbpool :=
  '(p, mem) ← free_heads (Z.to_nat NumBufs) (g_FreeMBufs g) (mb_mem g);
  Some (MBPool (g_NumMBufs g - NumBufs) (g_NumFreeMBufs g - NumBufs) p mem).

Definition mb_FreeMBufs (g : mbpool) : option mbpool :=
  if g_NumMBufs g =? 0 then Some g else mb_FreeSomeMBufs g (g_NumMBufs g).

(** [while(i--)]: allocate in front of [mbn_head].  [rs k] is what the [k]-th
    AllocMem() of this call returns, [junk] the contents of fresh memory.
    The result tells how many allocations were still to do when one failed. *)
Fixpoint alloc_heads (rs : nat -> option addr) (junk : list byte) (k i : nat)
  (head : option addr) (mem : gmap addr mbufnode)
  : nat * option addr * gmap addr mbufnode :=
  match i with
  | O => (O, head, mem)
  | S i' => match rs k with
            | None => (i, head, mem)
            | Some a => alloc_heads rs junk (S k) i' (Some a)
                          (<[a := MBufNode head junk]> mem)
            end
  end.

Definition mb_AllocMoreMBufs (rs : nat -> option addr) (junk : list byte)
  (g : mbpool) (NumBufs : Z) : option (bool * mbpool) :=
  match alloc_heads rs junk O (Z.to_nat NumBufs) (g_FreeMBufs g) (mb_mem g) with
  | (O, head, mem) =>
      Some (true, MBPool (g_NumMBufs g + NumBufs) (g_NumFreeMBufs g + NumBufs) head mem)
  | (lft, head, mem) =>
      let NumNew := NumBufs - Z.of_nat lft in
      g' ← mb_FreeSomeMBufs
             (MBPool (g_NumMBufs g + NumNew) (g_NumFreeMBufs g + NumNew) head mem) NumNew;
      Some (false, g')
  end.

Definition mb_AllocMBufs (rs : nat -> option addr) (junk : list byte)
  (g : mbpool) (NumBufs : Z) : option (bool * mbpool) :=
  mb_AllocMoreMBufs rs junk (MBPool 0 0 None (mb_mem g)) NumBufs.

(** The result is uninitialised when no buffer is free. *)
Definition mb_ObtainMBuf (g : mbpool) : option (addr * mbpool) :=
  if g_NumFreeMBufs g =? 0 then None
  else (a ← g_FreeMBufs g; (mbn ← mb_mem g !! a;
        Some (a, MBPool (g_NumMBufs g) (g_NumFreeMBufs g - 1) (mbn_Next mbn) (mb_mem g)))).

Definition mb_ReleaseMBuf (g : mbpool) (mbn : option addr) : option mbpool :=
  match mbn with
  | None => Some g
  | Some a =>
      n ← mb_mem g !! a;
      Some (MBPool (g_NumMBufs g) (g_NumFreeMBufs g + 1) (Some a)
              (<[a := MBufNode (g_FreeMBufs g) (mbn_Data n)]> (mb_mem g)))
  end.

(** A store of the bytes [src] at offset [off] of buffer [a]. *)
Definition mb_store (g : mbpool) (a : addr) (off : Z) (src : list byte) : option mbpool :=
  n ← mb_mem g !! a;
  (d ← copy_at (mbn_Data n) off src;
   Some (MBPool (g_NumMBufs g) (g_NumFreeMBufs g) (g_FreeMBufs g)
           (<[a := MBufNode (mbn_Next n) d]> (mb_mem g)))).

(** ** Well-formed pools *)

(** The free list is exactly [free]; every buffer has its full size. *)
Record mb_ok (g : mbpool) (free : list addr) : Prop := {
  mb_ok_chain : chain mbn_Next (mb_mem g) (g_FreeMBufs g) free None;
  mb_ok_num : g_NumFreeMBufs g = zlen free;
  mb_ok_nodup : NoDup free;
  mb_ok_size : forall a n, mb_mem g !! a = Some n -> zlen (mbn_Data n) = MBUFSIZE
}.

(** The data bytes of a buffer. *)
Definition mb_data (g : mbpool) (a : addr) : option (list byte) :=
  mbn_Data <$> (mb_mem g !! a).

Lemma mb_Obtain_ok g a free :
  mb_ok g (a :: free) ->
  exists g', mb_ObtainMBuf g = Some (a, g') /\ mb_ok g' free /\
    (a ∉ free) /\ mb_mem g' = mb_mem g /\ g_NumMBufs g' = g_NumMBufs g.
Proof.
  intros [(Hp & n & Hn & Hc) Hnum Hnd Hsz]. unfold mb_ObtainMBuf, zlen in *.
  rewrite Hnum, Hp. simpl. rewrite Hn. simpl.
  apply NoDup_cons in Hnd as [Hni Hnd].
  eexists. split; [done|]. split_and!; [|done..].
  constructor; simpl; [done| |done|done]. unfold zlen. lia.
Qed.

Lemma mb_Release_ok g a free :
  mb_ok g free -> a ∉ free -> is_Some (mb_mem g !! a) ->
  exists g', mb_ReleaseMBuf g (Some a) = Some g' /\ mb_ok g' (a :: free) /\
    (forall b, mb_data g' b = mb_data g b) /\ g_NumMBufs g' = g_NumMBufs g.
Proof.
  intros [Hc Hnum Hnd Hsz] Hni [n Hn]. unfold mb_ReleaseMBuf. rewrite Hn. simpl.
  eexists. split; [done|]. split_and!; [|intros b|done].
  - constructor; simpl.
    + split; [done|]. eexists. rewrite lookup_insert_eq. split; [done|]. simpl.
      by apply chain_insert_ne.
    + unfold zlen in *. simpl. lia.
    + by apply NoDup_cons.
    + intros b n' [[<- <-]|[? Hb]]%lookup_insert_Some; simpl; eauto.
  - unfold mb_data; simpl. destruct (decide (a = b)) as [<-|].
    + by rewrite lookup_insert_eq, Hn.
    + by rewrite lookup_insert_ne.
Qed.

Lemma mb_store_ok g a free off src n :
  mb_ok g free -> a ∉ free -> mb_mem g !! a = Some n ->
  0 <= off -> off + zlen src <= MBUFSIZE ->
  exists g' d', mb_store g a off src = Some g' /\ mb_ok g' free /\
    copy_at (mbn_Data n) off src = Some d' /\ mb_data g' a = Some d' /\
    (forall b, b <> a -> mb_data g' b = mb_data g b) /\
    g_NumMBufs g' = g_NumMBufs g /\ g_NumFreeMBufs g' = g_NumFreeMBufs g.
Proof.
  intros [Hc Hnum Hnd Hsz] Hni Hn H0 H1. unfold mb_store. rewrite Hn. simpl.
  pose proof (Hsz _ _ Hn) as Hs.
  destruct (copy_at_Some (mbn_Data n) off src) as (d' & Hd & Hlen & _); [done|lia|].
  rewrite Hd. simpl. exists (MBPool (g_NumMBufs g) (g_NumFreeMBufs g) (g_FreeMBufs g)
          (<[a := MBufNode (mbn_Next n) d']> (mb_mem g))), d'.
  split; [done|]. split_and!; try done.
  - constructor; simpl; [by apply chain_insert_ne|done|done|].
    intros b n' [[<- <-]|[? Hb]]%lookup_insert_Some; simpl; eauto.
    unfold zlen in *. lia.
  - unfold mb_data; simpl. by rewrite lookup_insert_eq.
  - intros b Hb. unfold mb_data; simpl. by rewrite lookup_insert_ne.
Qed.

(** ** Allocation and release of whole pools *)

(** The results of AllocMem(): distinct blocks that are not in use. *)
Definition fresh_allocs (rs : nat -> option addr) (mem : gmap addr mbufnode) : Prop :=
  (forall k a, rs k = Some a -> mem !! a = None) /\
  (forall j k a, rs j = Some a -> rs k = Some a -> j = k).


Lemma free_heads_app n m p mem :
  free_heads (n + m) p mem =
    ('(p', mem') ← free_heads n p mem; free_heads m p' mem').
Proof.
  revert p mem. induction n as [|n IH]; intros p mem; simpl; [done|].
  destruct p as [a|]; simpl; [|done]. destruct (mem !! a); simpl; [apply IH|done].
Qed.

(** What [alloc_heads] put in front, [free_heads] takes away again; it stops
    early only at a failed allocation. *)
Lemma alloc_heads_free rs junk i : forall k head mem lft head' mem',
  (forall j a, (k <= j)%nat -> rs j = Some a -> mem !! a = None) ->
  (forall j1 j2 a, rs j1 = Some a -> rs j2 = Some a -> j1 = j2) ->
  alloc_heads rs junk k i head mem = (lft, head', mem') ->
  (lft <= i)%nat /\ free_heads (i - lft) head' mem' = Some (head, mem) /\
  (lft <> O -> rs (k + (i - lft))%nat = None) /\
  (forall j, (j < i - lft)%nat -> is_Some (rs (k + j)%nat)).
Proof.
  induction i as [|i IH]; intros k head mem lft head' mem' Hfr Hinj; simpl.
  - intros [= <- <- <-]. split_and!; done || lia.
  - destruct (rs k) as [a|] eqn:Hk.
    2:{ intros [= <- <- <-]. rewrite Nat.sub_diag, Nat.add_0_r. split_and!; done || lia. }
    intros H. apply IH in H as (Hle & Hfree & Hnone & Hsome); [| |done].
    2:{ intros j b Hj Hb. rewrite lookup_insert_ne; [apply (Hfr j b); [lia|done]|].
        intros <-. specialize (Hinj _ _ _ Hk Hb). lia. }
    split; [lia|]. replace (S i - lft)%nat with (i - lft + 1)%nat by lia.
    rewrite free_heads_app, Hfree. simpl. rewrite lookup_insert_eq. simpl.
    rewrite delete_insert_id by eauto. split_and!; [done| |].
    + intros Hl. rewrite <-(Hnone Hl). f_equal. lia.
    + intros [|j] Hj; [rewrite Nat.add_0_r; eauto|].
      replace (k + S j)%nat with (S k + j)%nat by lia. apply Hsome. lia.
Qed.

Lemma alloc_heads_chain rs junk i : forall k head mem head' mem',
  (forall j a, (k <= j)%nat -> rs j = Some a -> mem !! a = None) ->
  (forall j1 j2 a, rs j1 = Some a -> rs j2 = Some a -> j1 = j2) ->
  alloc_heads rs junk k i head mem = (O, head', mem') ->
  exists new, length new = i /\ chain mbn_Next mem' head' new head /\
    NoDup new /\ (forall a, a ∈ new -> mem !! a = None) /\
    (forall a n, mem !! a = Some n -> mem' !! a = Some n) /\
    (forall a n, mem' !! a = Some n -> mem !! a = Some n \/ mbn_Data n = junk).
Proof.
  induction i as [|i IH]; intros k head mem head' mem' Hfr Hinj; simpl.
  - intros [= <- <-]. exists []. split_and!; try done; [constructor| |eauto].
    by intros ? ?%elem_of_nil.
  - destruct (rs k) as [a|] eqn:Hk; [|done].
    assert (Hka : mem !! a = None) by eauto.
    intros (new & Hlen & Hch & Hnd & Hnew & Hkeep & Hjunk)%IH; [| |done].
    2:{ intros j b Hj Hb. rewrite lookup_insert_ne; [apply (Hfr j b); [lia|done]|].
        intros <-. specialize (Hinj _ _ _ Hk Hb). lia. }
    exists (new ++ [a]). split_and!.
    + rewrite length_app. simpl. lia.
    + apply chain_app. exists (Some a). split; [done|]. simpl. split; [done|].
      eexists. split; [apply Hkeep, lookup_insert_eq|done].
    + apply NoDup_app. split_and!; [done| |apply NoDup_singleton].
      intros b Hb%Hnew ->%list_elem_of_singleton. by rewrite lookup_insert_eq in Hb.
    + intros b [Hb%Hnew| ->%list_elem_of_singleton]%elem_of_app; [|done].
      by apply lookup_insert_None in Hb as [? _].
    + intros b n Hb. apply Hkeep. rewrite lookup_insert_ne; [done|]. intros ->. congruence.
    + intros b n [Hb|?]%Hjunk; [|by right].
      apply lookup_insert_Some in Hb as [[<- <-]|[? ?]]; eauto.
Qed.

Lemma mb_AllocMoreMBufs_ok rs junk g free NumBufs :
  mb_ok g free -> fresh_allocs rs (mb_mem g) -> zlen junk = MBUFSIZE ->
  0 <= NumBufs -> (forall k, Z.of_nat k < NumBufs -> is_Some (rs k)) ->
  exists g' new, mb_AllocMoreMBufs rs junk g NumBufs = Some (true, g') /\
    zlen new = NumBufs /\ mb_ok g' (new ++ free) /\
    g_NumMBufs g' = g_NumMBufs g + NumBufs /\
    g_NumFreeMBufs g' = g_NumFreeMBufs g + NumBufs /\
    (forall a n, mb_mem g !! a = Some n -> mb_mem g' !! a = Some n).
Proof.
  intros [Hc Hnum Hnd Hsz] [Hfr Hinj] Hj HN Hall. unfold mb_AllocMoreMBufs.
  destruct (alloc_heads rs junk 0 (Z.to_nat NumBufs) (g_FreeMBufs g) (mb_mem g))
    as [[lft head'] mem'] eqn:E.
  destruct (alloc_heads_free _ _ _ _ _ _ _ _ _ (fun j a _ => Hfr j a) Hinj E)
    as (Hle & _ & Hnone & _).
  destruct lft as [|lft].
  2:{ destruct (Hall (0 + (Z.to_nat NumBufs - S lft))%nat) as [a Ha]; [lia|].
      by rewrite Hnone in Ha. }
  destruct (alloc_heads_chain _ _ _ _ _ _ _ _ (fun j a _ => Hfr j a) Hinj E)
    as (new & Hlen & Hch & Hnd' & Hnew & Hkeep & Hjunk).
  eexists _, new. split; [done|]. unfold zlen in *. split_and!; [lia| |done..].
  constructor; simpl.
  - apply chain_app. exists (g_FreeMBufs g). split; [done|].
    eapply chain_frame; [|done]. intros a Ha.
    destruct (chain_mem _ _ _ _ _ _ Hc Ha) as [n Hn]. rewrite Hn. by apply Hkeep.
  - unfold zlen. rewrite length_app. lia.
  - apply NoDup_app. split_and!; [done| |done]. intros a Ha%Hnew Hf.
    destruct (chain_mem _ _ _ _ _ _ Hc Hf). congruence.
  - intros a n [Ha| ->]%Hjunk; eauto.
Qed.

(** growing the pool succeeds with exactly [NumBufs] new buffers in front
    of the old free list when every AllocMem() succeeds; the old buffers are
    untouched, and the pool stays well-formed. *)
Theorem mb_AllocMoreMBufs_succeeds rs junk g free NumBufs :
  mb_ok g free -> fresh_allocs rs (mb_mem g) -> zlen junk = MBUFSIZE ->
  0 <= NumBufs -> (forall k, Z.of_nat k < NumBufs -> is_Some (rs k)) ->
  exists g' new, mb_AllocMoreMBufs rs junk g NumBufs = Some (true, g') /\
    zlen new = NumBufs /\ mb_ok g' (new ++ free) /\
    g_NumMBufs g' = g_NumMBufs g + NumBufs /\
    g_NumFreeMBufs g' = g_NumFreeMBufs g + NumBufs /\
    (forall a n, mb_mem g !! a = Some n -> mb_mem g' !! a = Some n).
Proof. apply mb_AllocMoreMBufs_ok. Qed.

(** when an AllocMem() fails, growing the pool reports failure and gives
    back every buffer it had already obtained: the pool is left as it was. *)
Theorem mb_AllocMoreMBufs_fails rs junk g NumBufs k :
  fresh_allocs rs (mb_mem g) -> Z.of_nat k < NumBufs -> rs k = None ->
  mb_AllocMoreMBufs rs junk g NumBufs = Some (false, g).
Proof.
  intros [Hfr Hinj] Hk Hnk. unfold mb_AllocMoreMBufs.
  destruct (alloc_heads rs junk 0 (Z.to_nat NumBufs) (g_FreeMBufs g) (mb_mem g))
    as [[lft head'] mem'] eqn:E.
  destruct (alloc_heads_free _ _ _ _ _ _ _ _ _ (fun j a _ => Hfr j a) Hinj E)
    as (Hle & Hfree & _ & Hsome).
  destruct lft as [|lft].
  { destruct (Hsome k) as [a Ha]; [lia|]. simpl in Ha. congruence. }
  unfold mb_FreeSomeMBufs; cbn [g_FreeMBufs mb_mem g_NumMBufs g_NumFreeMBufs].
  replace (Z.to_nat (NumBufs - Z.of_nat (S lft)))
    with (Z.to_nat NumBufs - S lft)%nat by lia.
  rewrite Hfree. cbn [mbind option_bind]. do 2 f_equal. destruct g; simpl in *. f_equal; lia.
Qed.

(** ** Witnesses *)

Definition no_mbufs : mbpool := MBPool 0 0 None ∅.
Definition zero_buf : list byte := replicate (Z.to_nat MBUFSIZE) x00.
(** AllocMem() giving addresses 1, 2, ... *)
Definition rs_ok (k : nat) : option addr := Some (Pos.of_succ_nat k).
(** ... and failing at the third call. *)
Definition rs_fail (k : nat) : option addr := if (k =? 2)%nat then None else rs_ok k.

Lemma no_mbufs_ok : mb_ok no_mbufs [].
Proof. constructor; [done|done|constructor|done]. Qed.

Lemma rs_ok_fresh : fresh_allocs rs_ok (mb_mem no_mbufs).
Proof. split; [done|]. unfold rs_ok. intros j k a [= <-] [= E]. lia. Qed.

Lemma rs_fail_fresh : fresh_allocs rs_fail (mb_mem no_mbufs).
Proof.
  split; [done|]. unfold rs_fail, rs_ok. intros j k a.
  destruct (j =? 2)%nat, (k =? 2)%nat; try done. intros [= <-] [= E]. lia.
Qed.

Lemma mb_AllocMoreMBufs_succeeds_witness :
  exists g' new, mb_AllocMoreMBufs rs_ok zero_buf no_mbufs 16 = Some (true, g') /\
    zlen new = 16 /\ mb_ok g' (new ++ []).
Proof.
  destruct (mb_AllocMoreMBufs_succeeds rs_ok zero_buf no_mbufs [] 16 no_mbufs_ok rs_ok_fresh)
    as (g' & new & H1 & H2 & H3 & _); [reflexivity|lia|intros k _; by eexists|].
  exists g', new. split; [exact H1|]. split; [exact H2|exact H3].
Defined.

Lemma mb_AllocMoreMBufs_fails_witness :
  mb_AllocMoreMBufs rs_fail zero_buf no_mbufs 16 = Some (false, no_mbufs).
Proof. apply (mb_AllocMoreMBufs_fails rs_fail zero_buf no_mbufs 16 2 rs_fail_fresh); [lia|reflexivity]. Defined.
