(* ===== verification/WBufInfo.v ===== *)
(** * The dirty-fragment table of a write buffer (wbuf.c, wbuf.h)

    Each write-buffer header keeps an array of [WBUFHDRINFOSIZE] inclusive
    ranges of dirty bytes.  This file models [WBufDoMelt] and
    [WBufUpdateInfo], which insert a range into the array and melt it with its
    neighbours in place, and proves them equal to a reference insertion on
    lists of ranges. *)
From S2P Require Import Prelude MBuf.

Definition WBUFHDRINFOSIZE : Z := 59.

(** WBUFHDRINFO is the pair ([wbi_From], [wbi_To]) of WORDs, both inclusive. *)
Record wbufhdr := WBufHdr {
  wbh_Next : option addr;
  wbh_FileOffs : Z;
  wbh_NumInfo : Z;
  wbh_Data : option addr;
  wbh_Info : list (Z * Z)
}.

Definition IsInclBetween (n low high : Z) : bool := (low <=? n) && (n <=? high).

(** [while((i < (Num-1)) && (To > nwbi->wbi_To)) { nwbi++; i++; }] *)
Fixpoint melt_scan (fuel : nat) (info : list (Z * Z)) (Num To i : Z) : option Z :=
  match fuel with
  | O => None
  | S fuel =>
      if i <? Num - 1
      then (n ← arr_get info i;
            if To >? snd n then melt_scan fuel info Num To (i + 1) else Some i)
      else Some i
  end.

(** Entries [wbi..i] become one entry and the entries after [i] move down. *)
Definition melt_finish (wbh : wbufhdr) (wbi i Offs To : Z) : option wbufhdr :=
  let Num := wbh_NumInfo wbh in
  let info := wbh_Info wbh in
  (cur ← arr_get info wbi;
   let From := s16 (Z.min (fst cur) Offs) in
   (info ← arr_set info wbi (From, snd cur);
    (n ← arr_get info i;
     (info ← arr_set info wbi (From, s16 (Z.max To (snd n)));
      (info ← (if i + 1 <? Num then memmove info (wbi + 1) (i + 1) (Num - i - 1)
               else Some info);
       Some (WBufHdr (wbh_Next wbh) (wbh_FileOffs wbh) (Num - (i - wbi))
               (wbh_Data wbh) info)))))).

(** [wbi] is the index of the entry to melt with its successors. *)
Definition WBufDoMelt (wbh : wbufhdr) (wbi Offs To : Z) : option wbufhdr :=
  (i ← melt_scan (S (Z.to_nat (wbh_NumInfo wbh))) (wbh_Info wbh) (wbh_NumInfo wbh)
         To (wbi + 1);
   (n ← arr_get (wbh_Info wbh) i;
    melt_finish wbh wbi (if To + 1 <? fst n then i - 1 else i) Offs To)).

(** [while((i < Num) && !(Offs <= wbi->wbi_To+1)) { wbi++; i++; }] *)
Fixpoint find_place (fuel : nat) (info : list (Z * Z)) (Num Offs i : Z) : option Z :=
  match fuel with
  | O => None
  | S fuel =>
      if i <? Num
      then (w ← arr_get info i;
            if Offs <=? snd w + 1 then Some i
            else find_place fuel info Num Offs (i + 1))
      else Some i
  end.

Definition WBufUpdateInfo (wbh : wbufhdr) (Offs Len : Z) : option wbufhdr :=
  let set num info := WBufHdr (wbh_Next wbh) (wbh_FileOffs wbh) num (wbh_Data wbh) info in
  let Num := wbh_NumInfo wbh in
  let To := Offs + Len - 1 in
  if Num =? 0
  then (info ← arr_set (wbh_Info wbh) 0 (s16 Offs, s16 To); Some (set (Num + 1) info))
  else
   (i ← find_place (S (Z.to_nat Num)) (wbh_Info wbh) Num Offs 0;
    if i <? Num
    then (w ← arr_get (wbh_Info wbh) i;
          if To + 1 <? fst w
          then (info ← memmove (wbh_Info wbh) (i + 1) i (Num - i);
                (info ← arr_set info i (s16 Offs, s16 To); Some (set (Num + 1) info)))
          else
            let nextFrom := if Num >? i + 1 then fst <$> arr_get (wbh_Info wbh) (i + 1)
                            else None in
            match nextFrom with
            | Some f =>
                if To + 1 >=? f then WBufDoMelt wbh i Offs To
                else (info ← arr_set (wbh_Info wbh) i
                               (s16 (Z.min (fst w) Offs), s16 (Z.max (snd w) To));
                      Some (set Num info))
            | None =>
                (info ← arr_set (wbh_Info wbh) i
                          (s16 (Z.min (fst w) Offs), s16 (Z.max (snd w) To));
                 Some (set Num info))
            end)
    else (info ← arr_set (wbh_Info wbh) i (s16 Offs, s16 To); Some (set (Num + 1) info))).

(** ** Reference: inserting a range into an ordered list of separate ranges *)

Fixpoint add_range (l : list (Z * Z)) (o t : Z) : list (Z * Z) :=
  match l with
  | [] => [(o, t)]
  | (a, b) :: l' =>
      if b + 1 <? o then (a, b) :: add_range l' o t
      else if t + 1 <? a then (o, t) :: l
      else add_range l' (Z.min a o) (Z.max b t)
  end.

(** Ranges of [l] are non-empty, start at or after [lo], end before
    [hi], and are separated by at least one clean byte. *)
Fixpoint ranges_ok (lo hi : Z) (l : list (Z * Z)) : Prop :=
  match l with
  | [] => True
  | (a, b) :: l' => lo <= a /\ a <= b /\ b < hi /\ ranges_ok (b + 2) hi l'
  end.

Definition covered (l : list (Z * Z)) (x : Z) : Prop :=
  Exists (fun r => fst r <= x <= snd r) l.

(** The ranges a header records. *)
Definition frags (h : wbufhdr) : list (Z * Z) := take (Z.to_nat (wbh_NumInfo h)) (wbh_Info h).

Lemma ranges_ok_weaken lo lo' hi l : lo' <= lo -> ranges_ok lo hi l -> ranges_ok lo' hi l.
Proof. destruct l as [|[a b] l]; simpl; [done|]. intros ? (?&?&?&?). split_and!; lia || done. Qed.

Lemma ranges_ok_app lo hi l1 l2 :
  ranges_ok lo hi (l1 ++ l2) -> ranges_ok lo hi l1 /\ ranges_ok lo hi l2.
Proof.
  revert lo. induction l1 as [|[a b] l1 IH]; intros lo; simpl; [done|].
  intros (?&?&?&[H1 H2]%IH). split_and!; try done. eapply ranges_ok_weaken; [|done]. lia.
Qed.

Lemma ranges_ok_in lo hi l r : ranges_ok lo hi l -> r ∈ l -> lo <= fst r <= snd r /\ snd r < hi.
Proof.
  revert lo. induction l as [|[a b] l IH]; intros lo; simpl; [by intros _ ?%elem_of_nil|].
  intros (?&?&?&Hl) [->|Hr]%elem_of_cons; [simpl; lia|]. destruct (IH _ Hl Hr). lia.
Qed.

Lemma add_range_ok l : forall lo hi o t,
  ranges_ok lo hi l -> lo <= o -> o <= t -> t < hi -> ranges_ok lo hi (add_range l o t).
Proof.
  induction l as [|[a b] l IH]; intros lo hi o t Hl Ho Ht Hh; cbn [add_range].
  - simpl. split_and!; done || lia.
  - destruct Hl as (H1 & H2 & H3 & H4).
    destruct (b + 1 <? o) eqn:E1; [|destruct (t + 1 <? a) eqn:E2]; zbool; simpl.
    + split_and!; [lia..|]. apply IH; done || lia.
    + split_and!; done || lia.
    + apply IH; [|lia..]. eapply ranges_ok_weaken; [|done]. lia.
Qed.

Lemma covered_cons r l x : covered (r :: l) x <-> fst r <= x <= snd r \/ covered l x.
Proof. unfold covered. by rewrite Exists_cons. Qed.

Lemma add_range_covered l : forall lo hi o t x,
  ranges_ok lo hi l -> o <= t ->
  covered (add_range l o t) x <-> covered l x \/ o <= x <= t.
Proof.
  induction l as [|[a b] l IH]; intros lo hi o t x Hl Ht; cbn [add_range].
  - rewrite covered_cons. simpl. tauto.
  - destruct Hl as (H1 & H2 & H3 & H4).
    destruct (b + 1 <? o) eqn:E1; [|destruct (t + 1 <? a) eqn:E2]; zbool.
    + rewrite !covered_cons, IH by (done || lia). simpl. tauto.
    + rewrite !covered_cons. simpl. tauto.
    + rewrite covered_cons, IH by (done || lia). simpl.
      assert (Z.min a o <= x <= Z.max b t <-> a <= x <= b \/ o <= x <= t) by lia. tauto.
Qed.

(** ** The in-place routines implement the reference *)

Lemma add_range_skip l1 l2 o t :
  Forall (fun r => snd r + 1 < o) l1 -> add_range (l1 ++ l2) o t = l1 ++ add_range l2 o t.
Proof.
  induction 1 as [|[a b] l1 Hb _ IH]; simpl in *; [done|].
  rewrite (proj2 (Z.ltb_lt _ _)) by done. by rewrite IH.
Qed.

(** A range that reaches past all of [l1] absorbs it. *)
Lemma add_range_absorb l1 l2 lo hi o t :
  ranges_ok lo hi (l1 ++ l2) -> o < lo -> Forall (fun r => snd r < t) l1 ->
  add_range (l1 ++ l2) o t = add_range l2 o t.
Proof.
  intros Hok Ho Hl. revert lo Hok Ho.
  induction Hl as [|[a b] l1 Hb _ IH]; intros lo Hok Ho; simpl in *; [done|].
  destruct Hok as (H1 & H2 & H3 & H4).
  rewrite !(proj2 (Z.ltb_ge _ _)) by lia.
  rewrite Z.min_r, Z.max_r by lia. apply (IH (b + 2)); [done|lia].
Qed.

(** A range that ends before the rest of the list is put in front of it. *)
Lemma add_range_stop l lo hi o t :
  ranges_ok lo hi l -> o < lo -> t + 1 < lo -> add_range l o t = (o, t) :: l.
Proof.
  destruct l as [|[a b] l]; simpl; [done|]. intros (?&?&?&?) ??.
  rewrite (proj2 (Z.ltb_ge _ _)) by lia. by rewrite (proj2 (Z.ltb_lt _ _)) by lia.
Qed.

Lemma find_place_spec Offs tl : forall l2 l1 fuel,
  (length l2 < fuel)%nat ->
  exists m1 m2, l2 = m1 ++ m2 /\
    find_place fuel (l1 ++ l2 ++ tl) (zlen (l1 ++ l2)) Offs (zlen l1) = Some (zlen (l1 ++ m1)) /\
    Forall (fun r => snd r + 1 < Offs) m1 /\
    (forall r m3, m2 = r :: m3 -> Offs <= snd r + 1).
Proof.
  induction l2 as [|[a b] l2 IH]; intros l1 [|fuel] Hf; simpl in Hf; try lia; cbn [find_place].
  - rewrite (proj2 (Z.ltb_ge _ _)) by zlia. exists [], []. rewrite !app_nil_r.
    split_and!; [done|done|constructor|by intros].
  - rewrite (proj2 (Z.ltb_lt _ _)) by zlia.
    simpl app. rewrite arr_get_app_r. cbn [mbind option_bind snd].
    destruct (Offs <=? b + 1) eqn:E; zbool.
    + exists [], ((a, b) :: l2). rewrite app_nil_r.
      split_and!; [done|done|constructor|]. by intros r m3 [= <- <-].
    + destruct (IH (l1 ++ [(a, b)]) fuel) as (m1 & m2 & -> & Hfp & Hall & Hhd); [lia|].
      exists ((a, b) :: m1), m2.
      replace (zlen l1 + 1) with (zlen (l1 ++ [(a, b)])) by zlia.
      split_and!; [done| |by constructor|done].
      by rewrite <-!app_assoc in *.
Qed.

Lemma melt_scan_spec To tl : forall l2 l1 x fuel,
  (length l2 < fuel)%nat ->
  exists p1 y p2, x :: l2 = p1 ++ y :: p2 /\
    melt_scan fuel (l1 ++ (x :: l2) ++ tl) (zlen (l1 ++ x :: l2)) To (zlen l1)
      = Some (zlen (l1 ++ p1)) /\
    Forall (fun r => snd r < To) p1 /\ (p2 <> [] -> To <= snd y).
Proof.
  induction l2 as [|z l2 IH]; intros l1 x [|fuel] Hf; simpl in Hf; try lia; cbn [melt_scan].
  - rewrite (proj2 (Z.ltb_ge _ _)) by zlia. exists [], x, []. rewrite app_nil_r.
    split_and!; [done|done|constructor|done].
  - rewrite (proj2 (Z.ltb_lt _ _)) by zlia.
    cbn [app]. rewrite arr_get_app_r. cbn [mbind option_bind].
    destruct (To >? snd x) eqn:E; zbool.
    + destruct (IH (l1 ++ [x]) z fuel) as (p1 & y & p2 & Hl & Hs & Hall & Hy); [lia|].
      exists (x :: p1), y, p2.
      replace (zlen l1 + 1) with (zlen (l1 ++ [x])) by zlia.
      split_and!; [by rewrite Hl| |by constructor|done].
      by rewrite <-!app_assoc in *.
    + exists [], x, (z :: l2). rewrite app_nil_r.
      split_and!; [done|done|constructor|lia].
Qed.

(** Well-formed header tables. *)
Record info_ok (h : wbufhdr) : Prop := {
  info_ok_len : zlen (wbh_Info h) = WBUFHDRINFOSIZE;
  info_ok_num : 0 <= wbh_NumInfo h <= WBUFHDRINFOSIZE;
  info_ok_ranges : ranges_ok 0 MBUFSIZE (frags h)
}.

(** [h'] is [h] with another table. *)
Definition same_hdr (h h' : wbufhdr) : Prop :=
  wbh_Next h' = wbh_Next h /\ wbh_FileOffs h' = wbh_FileOffs h /\ wbh_Data h' = wbh_Data h.

(** [h'] is [h] with exactly the ranges [l] recorded. *)
Definition has_frags (h' h : wbufhdr) (l : list (Z * Z)) : Prop :=
  same_hdr h h' /\ wbh_NumInfo h' = zlen l /\ zlen (wbh_Info h') = zlen (wbh_Info h) /\
  frags h' = l.

Lemma frags_of info num nxt offs dat l r :
  num = zlen l -> info = l ++ r -> frags (WBufHdr nxt offs num dat info) = l.
Proof. intros -> ->. unfold frags; simpl. unfold zlen. by rewrite Nat2Z.id, take_app_length. Qed.

Lemma info_split h :
  info_ok h -> exists tl, wbh_Info h = frags h ++ tl /\ wbh_NumInfo h = zlen (frags h).
Proof.
  intros [Hl Hn _]. exists (drop (Z.to_nat (wbh_NumInfo h)) (wbh_Info h)).
  unfold frags, zlen in *. rewrite take_drop. split; [done|].
  rewrite length_take. lia.
Qed.

Lemma melt_finish_spec h l1 a b B w C tl Offs To :
  wbh_Info h = l1 ++ (a, b) :: (B ++ [w]) ++ C ++ tl ->
  wbh_NumInfo h = zlen l1 + 1 + (zlen B + 1) + zlen C ->
  exists h', melt_finish h (zlen l1) (zlen l1 + 1 + zlen B) Offs To = Some h' /\
    has_frags h' h (l1 ++ (s16 (Z.min a Offs), s16 (Z.max To (snd w))) :: C).
Proof.
  intros Hi Hn. unfold melt_finish. rewrite Hi, Hn.
  rewrite arr_get_app_r. cbn [mbind option_bind fst].
  rewrite arr_set_app_r. cbn [mbind option_bind].
  assert (Hg : forall p, arr_get (l1 ++ p :: (B ++ [w]) ++ C ++ tl) (zlen l1 + 1 + zlen B) = Some w).
  { intros p. replace (zlen l1 + 1 + zlen B) with (zlen (l1 ++ p :: B)) by zlia.
    replace (l1 ++ p :: (B ++ [w]) ++ C ++ tl) with ((l1 ++ p :: B) ++ w :: C ++ tl)
      by (by rewrite <-!app_assoc).
    apply arr_get_app_r. }
  rewrite Hg. cbn [mbind option_bind]. rewrite arr_set_app_r. cbn [mbind option_bind].
  set (X := (s16 (Z.min a Offs), s16 (Z.max To (snd w)))).
  assert (Hm : exists info r,
    (if zlen l1 + 1 + zlen B + 1 <? zlen l1 + 1 + (zlen B + 1) + zlen C
     then memmove (l1 ++ X :: (B ++ [w]) ++ C ++ tl) (zlen l1 + 1)
            (zlen l1 + 1 + zlen B + 1)
            (zlen l1 + 1 + (zlen B + 1) + zlen C - (zlen l1 + 1 + zlen B) - 1)
     else Some (l1 ++ X :: (B ++ [w]) ++ C ++ tl)) = Some info /\
    info = (l1 ++ X :: C) ++ r /\
    zlen info = zlen (l1 ++ X :: (B ++ [w]) ++ C ++ tl)).
  { destruct C as [|c C].
    - rewrite (proj2 (Z.ltb_ge _ _)) by zlia. eexists _, ((B ++ [w]) ++ tl).
      split_and!; [done| |done]. by rewrite <-!app_assoc.
    - rewrite (proj2 (Z.ltb_lt _ _)) by zlia.
      destruct (memmove_left (l1 ++ [X]) (B ++ [w]) (c :: C) tl) as (r & Hr & Hlen).
      exists ((l1 ++ [X]) ++ (c :: C) ++ r), r. split_and!.
      + rewrite <-Hr.
        replace (l1 ++ X :: (B ++ [w]) ++ (c :: C) ++ tl)
          with ((l1 ++ [X]) ++ (B ++ [w]) ++ (c :: C) ++ tl) by (by rewrite <-app_assoc).
        f_equal; zlia.
      + by rewrite <-!app_assoc.
      + assert (zlen r = zlen (B ++ [w]) + zlen tl) by (unfold zlen; lia). zlia. }
  destruct Hm as (info & r & -> & -> & Hlen). cbn [mbind option_bind].
  eexists. split; [done|]. unfold has_frags, same_hdr; cbn.
  split_and!; [done..|zlia|rewrite Hi; zlia|].
  eapply frags_of; [zlia|done].
Qed.

(** Melting the entry [(a, b)], whose successors are [x :: l2], with [Offs..To]. *)
Lemma WBufDoMelt_spec h l1 a b x l2 tl Offs To :
  wbh_Info h = l1 ++ (a, b) :: (x :: l2) ++ tl ->
  wbh_NumInfo h = zlen (l1 ++ (a, b) :: x :: l2) ->
  ranges_ok (b + 2) MBUFSIZE (x :: l2) ->
  0 <= a -> a <= b -> 0 <= Offs -> Offs <= b + 1 -> fst x <= To + 1 -> To < MBUFSIZE ->
  exists h', WBufDoMelt h (zlen l1) Offs To = Some h' /\
    has_frags h' h (l1 ++ add_range (x :: l2) (Z.min a Offs) (Z.max b To)).
Proof.
  intros Hi Hn Hok Ha Hab HO Ho Hx HT. unfold WBufDoMelt.
  assert (Hb : b + 2 < MBUFSIZE) by (destruct x; simpl in Hok; lia).
  destruct (melt_scan_spec To tl l2 (l1 ++ [(a, b)]) x (S (Z.to_nat (wbh_NumInfo h))))
    as (p1 & y & p2 & Hl & Hs & Hall & Hy).
  { rewrite Hn. unfold zlen. rewrite !length_app. simpl. lia. }
  replace ((l1 ++ [(a, b)]) ++ (x :: l2) ++ tl) with (wbh_Info h) in Hs
    by (rewrite Hi; by rewrite <-app_assoc).
  replace (zlen ((l1 ++ [(a, b)]) ++ x :: l2)) with (wbh_NumInfo h) in Hs
    by (rewrite Hn; by rewrite <-app_assoc).
  replace (zlen (l1 ++ [(a, b)])) with (zlen l1 + 1) in Hs by zlia.
  rewrite Hs. cbn [mbind option_bind]. clear Hs.
  assert (Hi2 : wbh_Info h = (l1 ++ (a, b) :: p1) ++ y :: p2 ++ tl).
  { rewrite Hi, Hl. by rewrite <-!app_assoc. }
  assert (Hnum : wbh_NumInfo h = zlen l1 + 1 + (zlen p1 + 1) + zlen p2).
  { rewrite Hn, Hl. zlia. }
  rewrite Hl in Hok |- *.
  replace (arr_get (wbh_Info h) _) with (Some y).
  2:{ rewrite Hi2. symmetry. rewrite <-(arr_get_app_r (l1 ++ (a, b) :: p1) (p2 ++ tl) y).
      f_equal. zlia. }
  cbn [mbind option_bind].
  destruct (ranges_ok_app _ _ _ _ Hok) as [_ Hoky].
  assert (Hst : s16 (Z.min a Offs) = Z.min a Offs) by (apply s16_id; unfold MBUFSIZE in *; lia).
  destruct (To + 1 <? fst y) eqn:E; zbool.
  - destruct p1 as [|z p1 _] using rev_ind.
    { simpl in Hl. injection Hl as <- <-. lia. }
    pose proof Hall as [_ Hz]%Forall_app. rewrite Forall_singleton in Hz.
    destruct (ranges_ok_in _ _ _ z Hok) as [Hz1 Hz2];
      [rewrite !elem_of_app, elem_of_cons; auto|].
    destruct (melt_finish_spec h l1 a b p1 z (y :: p2) tl Offs To) as (h' & Hh & Hf).
    { rewrite Hi2, <-!app_assoc. cbn [app]. by rewrite <-?app_assoc. }
    { rewrite Hnum. zlia. }
    exists h'. replace (_ - 1) with (zlen l1 + 1 + zlen p1) by zlia. split; [done|].
    rewrite Hst, Z.max_l, s16_id in Hf by (unfold MBUFSIZE in *; lia).
    rewrite (add_range_absorb _ _ (b + 2) MBUFSIZE), Z.max_r by (try rewrite Z.max_r; done || lia).
    rewrite (add_range_stop _ (To + 2) MBUFSIZE); [done| |lia..].
    destruct y; simpl in *. destruct Hoky as (?&?&?&?). split_and!; done || lia.
  - destruct y as [c d]. simpl in E.
    destruct (ranges_ok_in _ _ _ (c, d) Hok) as [Hc Hd];
      [rewrite elem_of_app, elem_of_cons; auto|]. simpl in Hc, Hd.
    destruct (melt_finish_spec h l1 a b p1 (c, d) p2 tl Offs To) as (h' & Hh & Hf).
    { rewrite Hi2, <-!app_assoc. cbn [app]. by rewrite <-?app_assoc. }
    { rewrite Hnum. zlia. }
    exists h'. replace (zlen ((l1 ++ [(a, b)]) ++ p1)) with (zlen l1 + 1 + zlen p1) by zlia.
    split; [done|]. simpl in Hf.
    rewrite Hst, (s16_id (Z.max To d)) in Hf by (unfold MBUFSIZE in *; lia).
    rewrite (add_range_absorb _ _ (b + 2) MBUFSIZE); [|done|lia|].
    2:{ eapply Forall_impl; [done|]. simpl. lia. }
    simpl. rewrite !(proj2 (Z.ltb_ge _ _)) by lia.
    replace (Z.min c (Z.min a Offs)) with (Z.min a Offs) by lia.
    replace (Z.max d (Z.max b To)) with (Z.max To d) by lia.
    destruct p2 as [|q p2]; [done|].
    rewrite (add_range_stop _ (d + 2) MBUFSIZE); [done| |lia|].
    + apply Hoky.
    + simpl in Hy. specialize (Hy ltac:(done)). lia.
Qed.

(** Replacing the whole table. *)
Lemma table_has_frags h l r num :
  num = zlen l -> zlen (l ++ r) = zlen (wbh_Info h) ->
  has_frags (WBufHdr (wbh_Next h) (wbh_FileOffs h) num (wbh_Data h) (l ++ r)) h l.
Proof.
  intros -> Hl. unfold has_frags, same_hdr; cbn. split_and!; [done..|].
  by eapply frags_of.
Qed.

(** Widening the entry [(a, b)] in place, when no melting is needed. *)
Lemma widen_spec h m1 a b m3 r o t :
  wbh_Info h = m1 ++ (a, b) :: m3 ++ r ->
  exists h', (info ← arr_set (wbh_Info h) (zlen m1) (o, t);
              Some (WBufHdr (wbh_Next h) (wbh_FileOffs h) (zlen (m1 ++ (a, b) :: m3))
                      (wbh_Data h) info)) = Some h' /\
    has_frags h' h (m1 ++ (o, t) :: m3).
Proof.
  intros Hi. rewrite Hi, arr_set_app_r. cbn [mbind option_bind].
  eexists. split; [done|].
  replace (m1 ++ (o, t) :: m3 ++ r) with ((m1 ++ (o, t) :: m3) ++ r)
    by (by rewrite <-app_assoc).
  apply table_has_frags; [zlia|rewrite Hi; zlia].
Qed.

(** Inserting in front of the entries [m2] (case H). *)
Lemma insert_spec h m1 m2 x r o t :
  wbh_Info h = m1 ++ m2 ++ x :: r ->
  exists h', (info ← memmove (wbh_Info h) (zlen m1 + 1) (zlen m1) (zlen m2);
              (info ← arr_set info (zlen m1) (o, t);
               Some (WBufHdr (wbh_Next h) (wbh_FileOffs h) (zlen (m1 ++ m2) + 1)
                       (wbh_Data h) info))) = Some h' /\
    has_frags h' h (m1 ++ (o, t) :: m2).
Proof.
  intros Hi. rewrite Hi. destruct (memmove_right m1 m2 x r) as (y & ->).
  cbn [mbind option_bind]. rewrite arr_set_app_r. cbn [mbind option_bind].
  eexists. split; [done|].
  replace (m1 ++ (o, t) :: m2 ++ r) with ((m1 ++ (o, t) :: m2) ++ r)
    by (by rewrite <-app_assoc).
  apply table_has_frags; [zlia|rewrite Hi; zlia].
Qed.

(** Appending after all entries (case I). *)
Lemma append_spec h l x r o t :
  wbh_Info h = l ++ x :: r ->
  exists h', (info ← arr_set (wbh_Info h) (zlen l) (o, t);
              Some (WBufHdr (wbh_Next h) (wbh_FileOffs h) (zlen l + 1) (wbh_Data h) info))
             = Some h' /\ has_frags h' h (l ++ [(o, t)]).
Proof.
  intros Hi. rewrite Hi, arr_set_app_r. cbn [mbind option_bind].
  eexists. split; [done|].
  replace (l ++ (o, t) :: r) with ((l ++ [(o, t)]) ++ r) by (by rewrite <-app_assoc).
  apply table_has_frags; [zlia|rewrite Hi; zlia].
Qed.

(** Cases A to G: the new range touches the entry [(a, b)]. *)
Lemma touch_spec h m1 a b m3 r Offs To :
  wbh_Info h = m1 ++ (a, b) :: m3 ++ r -> wbh_NumInfo h = zlen (m1 ++ (a, b) :: m3) ->
  ranges_ok 0 MBUFSIZE ((a, b) :: m3) ->
  0 <= Offs -> Offs <= To -> To < MBUFSIZE -> Offs <= b + 1 -> a <= To + 1 ->
  exists h',
    match (if wbh_NumInfo h >? zlen m1 + 1 then fst <$> arr_get (wbh_Info h) (zlen m1 + 1)
           else None) with
    | Some f =>
        if To + 1 >=? f then WBufDoMelt h (zlen m1) Offs To
        else (info ← arr_set (wbh_Info h) (zlen m1) (s16 (Z.min a Offs), s16 (Z.max b To));
              Some (WBufHdr (wbh_Next h) (wbh_FileOffs h) (wbh_NumInfo h) (wbh_Data h) info))
    | None =>
        (info ← arr_set (wbh_Info h) (zlen m1) (s16 (Z.min a Offs), s16 (Z.max b To));
         Some (WBufHdr (wbh_Next h) (wbh_FileOffs h) (wbh_NumInfo h) (wbh_Data h) info))
    end = Some h' /\
    has_frags h' h (m1 ++ add_range ((a, b) :: m3) Offs To).
Proof.
  intros Hi Hn (Ha & Hab & Hb & Hr3) HO HOT HT Ho HaT. cbn [add_range].
  rewrite !(proj2 (Z.ltb_ge _ _)) by lia.
  rewrite !s16_id by (unfold MBUFSIZE in *; lia).
  destruct m3 as [|[c d] m3].
  - replace (wbh_NumInfo h >? zlen m1 + 1) with false
      by (rewrite Hn, Z.gtb_ltb; symmetry; apply Z.ltb_ge; zlia).
    rewrite Hn. by apply (widen_spec h m1 a b [] r).
  - replace (wbh_NumInfo h >? zlen m1 + 1) with true
      by (rewrite Hn, Z.gtb_ltb; symmetry; apply Z.ltb_lt; zlia).
    replace (arr_get (wbh_Info h) (zlen m1 + 1)) with (Some (c, d)).
    2:{ rewrite Hi. symmetry. rewrite <-(arr_get_app_r (m1 ++ [(a, b)]) (m3 ++ r) (c, d)).
        rewrite <-app_assoc. f_equal. zlia. }
    cbn [fmap option_fmap option_map fst]. destruct Hr3 as (Hc & Hcd & Hd & Hr3).
    destruct (To + 1 >=? c) eqn:E2; zbool.
    + by apply (WBufDoMelt_spec h m1 a b (c, d) m3 r).
    + rewrite Hn. rewrite (add_range_stop _ c MBUFSIZE) by (done || lia).
      by apply (widen_spec h m1 a b ((c, d) :: m3) r).
Qed.

Lemma WBufUpdateInfo_add_range h Offs Len :
  info_ok h -> wbh_NumInfo h < WBUFHDRINFOSIZE ->
  0 <= Offs -> 1 <= Len -> Offs + Len <= MBUFSIZE ->
  exists h', WBufUpdateInfo h Offs Len = Some h' /\
    has_frags h' h (add_range (frags h) Offs (Offs + Len - 1)).
Proof.
  intros Hok Hnum HO HL HM.
  destruct (info_split h Hok) as ([|x r] & Hi & Hn).
  { pose proof (info_ok_len h Hok) as Hlen. rewrite Hi, app_nil_r in Hlen. lia. }
  pose proof (info_ok_ranges h Hok) as Hr.
  unfold WBufUpdateInfo. set (To := Offs + Len - 1).
  rewrite (s16_id Offs), (s16_id To) by (unfold To, MBUFSIZE in *; lia).
  destruct (wbh_NumInfo h =? 0) eqn:E0; zbool.
  { rewrite E0 in Hn |- *. destruct (frags h) as [|? ?]; [|exfalso; zlia].
    by apply (append_spec h [] x r). }
  destruct (find_place_spec Offs (x :: r) (frags h) [] (S (Z.to_nat (wbh_NumInfo h))))
    as (m1 & m2 & Hl & Hfp & Hm1 & Hm2); [unfold zlen in Hn; lia|].
  cbn [app] in Hfp. rewrite zlen_nil, <-Hn, <-Hi in Hfp. rewrite Hfp.
  cbn [mbind option_bind]. rewrite Hl, add_range_skip by done.
  rewrite Hl in Hi, Hn, Hr. clear Hl Hfp E0.
  destruct m2 as [|[a b] m3].
  - rewrite app_nil_r in Hi, Hn. rewrite Hn, Z.ltb_irrefl. by apply (append_spec h m1 x r).
  - rewrite (proj2 (Z.ltb_lt _ _)) by (rewrite Hn; zlia).
    specialize (Hm2 _ _ eq_refl). cbn [snd] in Hm2.
    destruct (ranges_ok_app _ _ _ _ Hr) as [_ Hr2].
    rewrite <-app_assoc in Hi. cbn [app] in Hi.
    replace (arr_get (wbh_Info h) (zlen m1)) with (Some (a, b))
      by (by rewrite Hi, arr_get_app_r).
    cbn [mbind option_bind fst snd].
    destruct (To + 1 <? a) eqn:E1; zbool.
    + replace (wbh_NumInfo h - zlen m1) with (zlen ((a, b) :: m3)) by (rewrite Hn; zlia).
      rewrite Hn. cbn [add_range]. rewrite (proj2 (Z.ltb_ge (b + 1) Offs)) by lia.
      rewrite (proj2 (Z.ltb_lt _ _)) by lia. by apply (insert_spec h m1 ((a, b) :: m3) x r).
    + apply (touch_spec h m1 a b m3 (x :: r)); done || (unfold To; lia).
Qed.

Lemma add_range_length l o t : (length (add_range l o t) <= S (length l))%nat.
Proof.
  revert o t. induction l as [|[a b] l IH]; intros o t; cbn [add_range]; [done|].
  repeat case_match; simpl; [specialize (IH o t); lia|lia|].
  etrans; [apply IH|]. lia.
Qed.

Lemma add_range_nonempty l o t : add_range l o t <> [].
Proof.
  revert o t. induction l as [|[a b] l IH]; intros o t; cbn [add_range]; [done|].
  repeat case_match; done.
Qed.

(** What a client of the table needs: the call succeeds, keeps the header
    well-formed, records exactly the old bytes and the new ones, and uses at
    most one more entry. *)
Lemma WBufUpdateInfo_ok h Offs Len :
  info_ok h -> wbh_NumInfo h < WBUFHDRINFOSIZE ->
  0 <= Offs -> 1 <= Len -> Offs + Len <= MBUFSIZE ->
  exists h', WBufUpdateInfo h Offs Len = Some h' /\
    frags h' = add_range (frags h) Offs (Offs + Len - 1) /\
    info_ok h' /\ same_hdr h h' /\ 0 < wbh_NumInfo h' <= wbh_NumInfo h + 1 /\
    (forall x, covered (frags h') x <-> covered (frags h) x \/ Offs <= x < Offs + Len).
Proof.
  intros Hok Hnum HO HL HM.
  destruct (WBufUpdateInfo_add_range h Offs Len) as (h' & Hu & Hs & Hn & Hlen & Hf); try done.
  destruct (info_split h Hok) as (tl & _ & Hn0).
  pose proof (info_ok_ranges h Hok) as Hr. pose proof (info_ok_num h Hok) as Hb.
  pose proof (add_range_length (frags h) Offs (Offs + Len - 1)) as Hle.
  assert (0 < zlen (frags h')).
  { rewrite Hf. pose proof (add_range_nonempty (frags h) Offs (Offs + Len - 1)).
    destruct (add_range _ _ _); [done|zlia]. }
  rewrite Hf in *. unfold zlen in Hle, Hn0, Hn.
  exists h'. split; [done|]. split; [done|]. split_and!; [|done|unfold zlen in *; lia..|].
  - constructor; [rewrite Hlen; apply Hok|unfold zlen in *; lia|].
    rewrite Hf. apply add_range_ok; done || lia.
  - intros y. rewrite Hf, (add_range_covered _ 0 MBUFSIZE) by (done || lia).
    assert (Offs <= y <= Offs + Len - 1 <-> Offs <= y < Offs + Len) by lia. tauto.
Qed.

(** C14: [WBufUpdateInfo], which melts ranges in place inside a fixed array, is
    the reference insertion of the range [Offs .. Offs+Len-1]: while a slot is
    free it never leaves the array, it keeps the ranges ordered, separate and
    inside the buffer, it records exactly the old bytes and the new ones, and
    it changes nothing else of the header. *)
Theorem WBufUpdateInfo_correct h Offs Len :
  info_ok h -> wbh_NumInfo h < WBUFHDRINFOSIZE ->
  0 <= Offs -> 1 <= Len -> Offs + Len <= MBUFSIZE ->
  exists h', WBufUpdateInfo h Offs Len = Some h' /\
    frags h' = add_range (frags h) Offs (Offs + Len - 1) /\
    info_ok h' /\ same_hdr h h' /\ 0 < wbh_NumInfo h' <= wbh_NumInfo h + 1 /\
    (forall x, covered (frags h') x <-> covered (frags h) x \/ Offs <= x < Offs + Len).
Proof. apply WBufUpdateInfo_ok. Qed.

(** Three ranges, the last of which melts the first two. *)
Definition hdr3 : wbufhdr :=
  WBufHdr None 0 3 None ([(0, 9); (20, 29); (40, 49)] ++ replicate 56 (0, 0)).

Lemma hdr3_ok : info_ok hdr3.
Proof. constructor; [done|vm_compute; done|]. vm_compute. repeat split; discriminate. Qed.

Lemma WBufUpdateInfo_correct_witness :
  exists h', WBufUpdateInfo hdr3 5 20 = Some h' /\ frags h' = [(0, 29); (40, 49)].
Proof.
  destruct (WBufUpdateInfo_correct hdr3 5 20 hdr3_ok) as (h' & Hu & Hf & _);
    [reflexivity|discriminate|discriminate|discriminate|].
  exists h'. split; [exact Hu|exact Hf].
Defined.
