(* ===== verification/NfsProt.v ===== *)
(** * The NFS version 2 protocol types (nfs_prot.h)

    The structures are records with the source's fields (prefixed to keep them
    apart), the result unions are [nfsres]: the arm of NFS_OK, or the bare
    status of every other arm. *)
From S2P Require Import Prelude.

Definition NFS_MAXDATA : Z := 8192.
Definition NFS_MAXPATHLEN : Z := 1024.
Definition NFS_MAXNAMLEN : Z := 255.
Definition NFS_FHSIZE : Z := 32.
Definition NFS_COOKIESIZE : Z := 4.

(** nfsstat *)
Definition NFS_OK := 0.
Definition NFSERR_PERM := 1.
Definition NFSERR_NOENT := 2.
Definition NFSERR_IO := 5.
Definition NFSERR_NXIO := 6.
Definition NFSERR_ACCES := 13.
Definition NFSERR_EXIST := 17.
Definition NFSERR_NODEV := 19.
Definition NFSERR_NOTDIR := 20.
Definition NFSERR_ISDIR := 21.
Definition NFSERR_FBIG := 27.
Definition NFSERR_NOSPC := 28.
Definition NFSERR_ROFS := 30.
Definition NFSERR_NAMETOOLONG := 63.
Definition NFSERR_NOTEMPTY := 66.
Definition NFSERR_DQUOT := 69.
Definition NFSERR_STALE := 70.
Definition NFSERR_WFLUSH := 99.

(** ftype *)
Definition NFNON := 0.
Definition NFREG := 1.
Definition NFDIR := 2.
Definition NFBLK := 3.
Definition NFCHR := 4.
Definition NFLNK := 5.
Definition NFSOCK := 6.
Definition NFBAD := 7.
Definition NFFIFO := 8.

(** A file handle is NFS_FHSIZE opaque bytes, a cookie NFS_COOKIESIZE. *)
Abbreviation nfs_fh := (list byte).
Abbreviation nfscookie := (list byte).
(** A C string without its terminator. *)
Abbreviation filename := (list byte).
Abbreviation nfspath := (list byte).

Record nfstime := NfsTime { nt_seconds : Z; nt_useconds : Z }.

Record fattr := FAttr {
  fa_type : Z; fa_mode : Z; fa_nlink : Z; fa_uid : Z; fa_gid : Z; fa_size : Z;
  fa_blocksize : Z; fa_rdev : Z; fa_blocks : Z; fa_fsid : Z; fa_fileid : Z;
  fa_atime : nfstime; fa_mtime : nfstime; fa_ctime : nfstime
}.

Record sattr := SAttr {
  sa_mode : Z; sa_uid : Z; sa_gid : Z; sa_size : Z;
  sa_atime : nfstime; sa_mtime : nfstime
}.

(** Result unions: [status == NFS_OK] with its data, or another status. *)
Inductive nfsres (A : Type) :=
| NfsOk (a : A)
| NfsErr (status : Z).
Arguments NfsOk {A} a.
Arguments NfsErr {A} status.

Abbreviation attrstat := (nfsres fattr).
Record sattrargs := SAttrArgs { sga_file : nfs_fh; sga_attributes : sattr }.
Record diropargs := DirOpArgs { da_dir : nfs_fh; da_name : filename }.
Record diropokres := DirOpOkRes { do_file : nfs_fh; do_attributes : fattr }.
Abbreviation diropres := (nfsres diropokres).
Abbreviation readlinkres := (nfsres nfspath).
Record readargs := ReadArgs {
  ra_file : nfs_fh; ra_offset : Z; ra_count : Z; ra_totalcount : Z }.
Record readokres := ReadOkRes { ro_attributes : fattr; ro_data : list byte }.
Abbreviation readres := (nfsres readokres).
Record writeargs := WriteArgs {
  wa_file : nfs_fh; wa_beginoffset : Z; wa_offset : Z; wa_totalcount : Z;
  wa_data : list byte }.
Record createargs := CreateArgs { ca_where : diropargs; ca_attributes : sattr }.
Record renameargs := RenameArgs { rna_from : diropargs; rna_to : diropargs }.
Record linkargs := LinkArgs { la_from : nfs_fh; la_to : diropargs }.
Record symlinkargs := SymLinkArgs {
  sla_from : diropargs; sla_to : nfspath; sla_attributes : sattr }.
Record readdirargs := ReadDirArgs {
  rda_dir : nfs_fh; rda_cookie : nfscookie; rda_count : Z }.
(** The [nextentry] chain is a list. *)
Record entry := Entry { e_fileid : Z; e_name : filename; e_cookie : nfscookie }.
Record dirlist := DirList { dl_entries : list entry; dl_eof : bool }.
Abbreviation readdirres := (nfsres dirlist).
Record statfsokres := StatFsOkRes {
  sf_tsize : Z; sf_bsize : Z; sf_blocks : Z; sf_bfree : Z; sf_bavail : Z }.
Abbreviation statfsres := (nfsres statfsokres).
