(* ===== verification/NfsSupp.v ===== *)
(** * Error codes and identities (nfssupp.c)

    The conversion of NFS statuses and RPC client errors to AmigaDOS error
    codes, and of user and group ids.  The AmigaDOS codes are those documented
    in the system's dos/dos.h, which is not part of the repository. *)
From Stdlib Require Import Ascii Strings.String.
From S2P Require Import Prelude NfsProt.

Definition DOSFALSE := 0.
Definition DOSTRUE := -1.
Definition ERROR_NO_FREE_STORE := 103.
Definition ERROR_BAD_NUMBER := 115.
Definition ERROR_REQUIRED_ARG_MISSING := 116.
Definition ERROR_FILE_NOT_OBJECT := 121.
Definition ERROR_OBJECT_IN_USE := 202.
Definition ERROR_OBJECT_EXISTS := 203.
Definition ERROR_OBJECT_NOT_FOUND := 205.
Definition ERROR_BAD_STREAM_NAME := 206.
Definition ERROR_OBJECT_TOO_LARGE := 207.
Definition ERROR_INVALID_COMPONENT_NAME := 210.
Definition ERROR_INVALID_LOCK := 211.
Definition ERROR_OBJECT_WRONG_TYPE := 212.
Definition ERROR_DISK_WRITE_PROTECTED := 214.
Definition ERROR_DIRECTORY_NOT_EMPTY := 216.
Definition ERROR_SEEK_ERROR := 219.
Definition ERROR_DISK_FULL := 221.
Definition ERROR_WRITE_PROTECTED := 223.
Definition ERROR_READ_PROTECTED := 224.
Definition ERROR_IS_SOFT_LINK := 233.

(** The [switch] over the status, in the order of its cases. *)
Fixpoint switch {A} (cases : list (Z * A)) (dflt : A) (i : Z) : A :=
  match cases with
  | [] => dflt
  | (c, v) :: rest => if i =? c then v else switch rest dflt i
  end.

(** The texts of statuses and types of objects. *)
Definition nfs_errors : list (Z * string) :=
  [(NFS_OK, "no error");
   (NFSERR_PERM, "not owner");
   (NFSERR_NOENT, "no such file or directory");
   (NFSERR_IO, "I/O error");
   (NFSERR_NXIO, "no such device or address");
   (NFSERR_ACCES, "permission denied");
   (NFSERR_EXIST, "file exists");
   (NFSERR_NODEV, "no such device");
   (NFSERR_NOTDIR, "not a directory");
   (NFSERR_ISDIR, "is a directory");
   (NFSERR_FBIG, "file too large");
   (NFSERR_NOSPC, "no space left on device");
   (NFSERR_ROFS, "read-only file system");
   (NFSERR_NAMETOOLONG, "file name too long");
   (NFSERR_NOTEMPTY, "directory not empty");
   (NFSERR_DQUOT, "disc quota exceeded");
   (NFSERR_STALE, "stale NFS file handle");
   (NFSERR_WFLUSH, "write cache flushed")]%string.
Definition StrNFSErr (i : Z) : string := switch nfs_errors "unknown nfs error"%string i.

Definition nfs_types : list (Z * string) :=
  [(NFNON, "NFNON"); (NFREG, "NFREG"); (NFDIR, "NFDIR"); (NFBLK, "NFBLK"); (NFCHR, "NFCHR");
   (NFLNK, "NFLNK"); (NFSOCK, "NFSOCK"); (NFBAD, "NFBAD"); (NFFIFO, "NFFIFO")]%string.
Definition StrNFSType (t : Z) : string := switch nfs_types "unknown nfs types"%string t.

Definition NFSErr2IoErr (i : Z) : Z :=
  switch
    [(NFS_OK, 0);
     (NFSERR_PERM, ERROR_WRITE_PROTECTED);
     (NFSERR_NOENT, ERROR_OBJECT_NOT_FOUND);
     (NFSERR_IO, ERROR_OBJECT_NOT_FOUND);
     (NFSERR_NXIO, ERROR_OBJECT_NOT_FOUND);
     (NFSERR_ACCES, ERROR_WRITE_PROTECTED);
     (NFSERR_EXIST, ERROR_OBJECT_EXISTS);
     (NFSERR_NODEV, ERROR_OBJECT_NOT_FOUND);
     (NFSERR_NOTDIR, ERROR_OBJECT_WRONG_TYPE);
     (NFSERR_ISDIR, ERROR_OBJECT_WRONG_TYPE);
     (NFSERR_FBIG, ERROR_OBJECT_TOO_LARGE);
     (NFSERR_NOSPC, ERROR_DISK_FULL);
     (NFSERR_ROFS, ERROR_DISK_WRITE_PROTECTED);
     (NFSERR_NAMETOOLONG, ERROR_BAD_STREAM_NAME);
     (NFSERR_NOTEMPTY, ERROR_DIRECTORY_NOT_EMPTY);
     (NFSERR_DQUOT, ERROR_DISK_FULL);
     (NFSERR_STALE, ERROR_INVALID_LOCK);
     (NFSERR_WFLUSH, 100)]
    ERROR_BAD_NUMBER i.

(** [acttype] is 'r', 'w' or 'c'; the NUL character stands for no context. *)
Definition NFSErr2IoErrCont (i : Z) (acttype : ascii) : Z :=
  let l := 0 in
  if i =? 0 then l
  else
    let l :=
      if Ascii.eqb acttype "000" then l
      else if Ascii.eqb acttype "c" || Ascii.eqb acttype "w" then
        switch [(NFSERR_PERM, ERROR_WRITE_PROTECTED);
                (NFSERR_ACCES, ERROR_WRITE_PROTECTED)] l i
      else if Ascii.eqb acttype "r" then
        switch [(NFSERR_PERM, ERROR_READ_PROTECTED);
                (NFSERR_ACCES, ERROR_READ_PROTECTED)] l i
      else l in
    if l =? 0 then NFSErr2IoErr i else l.

(** RPC client status; RPC_SUCCESS is the only entry of [ClntStatConv] that is
    compiled in. *)
Definition RPC_SUCCESS := 0.
Definition ClntStatConv : list (Z * Z) := [(RPC_SUCCESS, 0)].

(** [clstat] is the status clnt_geterr() reports. *)
Definition CLIENT2IoErr (clstat : Z) : Z := switch ClntStatConv (s32 (1000 + clstat)) clstat.

Definition nfsuid2UID (uid : Z) : Z :=
  if uid >=? 65535 then 0 else if uid =? 0 then 65535 else u16 uid.
Definition nfsgid2GID (gid : Z) : Z :=
  if gid >=? 65535 then 0 else if gid =? 0 then 65535 else u16 gid.
Definition UID2nfsuid (UID : Z) : Z :=
  if UID =? 65535 then 0 else if UID =? 0 then u32 (-1) else UID.
Definition GID2nfsgid (GID : Z) : Z :=
  if GID =? 65535 then 0 else if GID =? 0 then u32 (-1) else GID.

Definition IsSameFH (s d : nfs_fh) : bool := bool_decide (s = d).

(** ** Properties *)

Lemma NFSErr2IoErr_nonzero i : i <> 0 -> NFSErr2IoErr i <> 0.
Proof.
  intros Hi. unfold NFSErr2IoErr. cbn [switch].
  case_match eqn:E; [unfold NFS_OK in *; lia|]. by repeat case_match.
Qed.

(** A table of distinct keys and texts tells its keys apart. *)
Lemma switch_inj {A} (l : list (Z * A)) d : NoDup (d :: l.*2) ->
  forall i j, i ∈ l.*1 -> switch l d i = switch l d j -> i = j.
Proof.
  intros [Hd Hn]%NoDup_cons. induction l as [|[c v] l IH]; intros i j Hi E; [by apply elem_of_nil in Hi|].
  apply NoDup_cons in Hn as [Hv Hn]. assert (Hdl : d ∉ l.*2) by (intros Hx; apply Hd; by right).
  assert (Hin : forall k, switch l d k = d \/ switch l d k ∈ l.*2).
  { clear. intros k. induction l as [|[c v] l IH]; simpl; [by left|]. destruct (k =? c); [right; left|].
    destruct IH; [by left|right; by right]. }
  simpl in *. destruct (Z.eqb_spec i c) as [->|Hic], (Z.eqb_spec j c) as [->|Hjc]; [done| | |].
  - destruct (Hin j) as [Hx|Hx]; [rewrite Hx in E; destruct Hd; rewrite <-E; left|by rewrite <-E in Hx].
  - destruct (Hin i) as [Hx|Hx]; [rewrite Hx in E; destruct Hd; rewrite E; left|by rewrite E in Hx].
  - apply elem_of_cons in Hi as [->|Hi]; [done|]. by apply IH.
Qed.

(** The log names every status and every type of object by a text of its own. *)
Lemma StrNFSErr_names i j : i ∈ nfs_errors.*1 -> StrNFSErr i = StrNFSErr j -> i = j.
Proof. apply switch_inj. apply (bool_decide_unpack _). by vm_compute. Qed.
Lemma StrNFSType_names i j : i ∈ nfs_types.*1 -> StrNFSType i = StrNFSType j -> i = j.
Proof. apply switch_inj. apply (bool_decide_unpack _). by vm_compute. Qed.

Lemma NFSErr2IoErrCont_nz i c : i <> 0 -> NFSErr2IoErrCont i c <> 0.
Proof.
  intros Hi. unfold NFSErr2IoErrCont. rewrite (proj2 (Z.eqb_neq _ _) Hi).
  case_match eqn:E; zbool; [by apply NFSErr2IoErr_nonzero|done].
Qed.

Lemma CLIENT2IoErr_nz c : - 2 ^ 31 + 1000 <= c < 2 ^ 31 - 1000 -> c <> RPC_SUCCESS ->
  c <> -1000 -> CLIENT2IoErr c <> 0.
Proof.
  unfold CLIENT2IoErr, ClntStatConv, switch, RPC_SUCCESS. intros.
  rewrite (proj2 (Z.eqb_neq c 0)) by done. rewrite s32_id; lia.
Qed.

(** a failed NFS operation is always reported as a failure: every status
    other than NFS_OK, known or not, in every context, is converted to a
    non-zero error code, and NFS_OK to zero. *)
Theorem NFSErr2IoErrCont_faithful i c : NFSErr2IoErrCont i c = 0 <-> i = NFS_OK.
Proof.
  split.
  - intros H. destruct (decide (i = 0)) as [->|Hi]; [done|].
    by apply (NFSErr2IoErrCont_nz i c) in Hi.
  - by intros ->.
Qed.

(** the mapping of user ids between the 32-bit NFS id and the 16-bit
    Amiga id loses nothing on the Amiga side; on the NFS side root (0) and
    1..65534 survive, and everything from 65535 on becomes nobody (-1). *)
Theorem uid_roundtrip :
  (forall U, 0 <= U < 2 ^ 16 -> nfsuid2UID (UID2nfsuid U) = U) /\
  (forall u, 0 <= u < 2 ^ 32 ->
     UID2nfsuid (nfsuid2UID u) = if u <? 65535 then u else 2 ^ 32 - 1).
Proof.
  split; intros u Hu; unfold UID2nfsuid, nfsuid2UID.
  - destruct (u =? 65535) eqn:E1; zbool; [by subst|].
    destruct (u =? 0) eqn:E2; zbool; [by subst|].
    destruct (u >=? 65535) eqn:E3; zbool; [lia|].
    rewrite (proj2 (Z.eqb_neq _ _)) by done. apply u16_id. lia.
  - destruct (u >=? 65535) eqn:E1; zbool.
    + rewrite (proj2 (Z.ltb_ge _ _)) by lia. done.
    + rewrite (proj2 (Z.ltb_lt _ _)) by lia.
      destruct (u =? 0) eqn:E2; zbool; [by subst|].
      rewrite u16_id by lia.
      rewrite !(proj2 (Z.eqb_neq _ _)) by lia. done.
Qed.
