(* ===== verification/Nfs.v ===== *)
(** * NFS operations of the handler (nfs.c)

    nfs.c sits between the Amiga side and the RPC stubs.  The stubs and the
    transport below them are the interface [NfsRpc]: an operation takes its
    argument structure and the state of the network and the server, and gives
    the result structure (NULL is [inl], with the status clnt_geterr()
    reports) and the new state.  What the operations rely on of the server is
    the class [NfsFileServer] of NfsServer.v.

    Functions of nfs.c return a pointer or NULL and set [*Res2] in the NULL
    case: here [inr] and [inl Res2]. *)
From Stdlib Require Import Ascii.
From S2P Require Import Prelude NfsProt NfsSupp.

Abbreviation rpc A := (Z + A)%type.

Class NfsRpc (S : Type) := {
  nfsproc_getattr_2 : nfs_fh -> S -> rpc attrstat * S;
  nfsproc_setattr_2 : sattrargs -> S -> rpc attrstat * S;
  nfsproc_lookup_2 : diropargs -> S -> rpc diropres * S;
  nfsproc_readlink_2 : nfs_fh -> S -> rpc readlinkres * S;
  nfsproc_read_buf : readargs -> S -> rpc readres * S;
  nfsproc_write_2 : writeargs -> S -> rpc attrstat * S;
  nfsproc_create_2 : createargs -> S -> rpc diropres * S;
  nfsproc_remove_2 : diropargs -> S -> rpc Z * S;
  nfsproc_rename_2 : renameargs -> S -> rpc Z * S;
  nfsproc_link_2 : linkargs -> S -> rpc Z * S;
  nfsproc_symlink_2 : symlinkargs -> S -> rpc Z * S;
  nfsproc_mkdir_2 : createargs -> S -> rpc diropres * S;
  nfsproc_rmdir_2 : diropargs -> S -> rpc Z * S;
  nfsproc_readdir_2 : readdirargs -> S -> rpc readdirres * S;
  nfsproc_statfs_2 : nfs_fh -> S -> rpc statfsres * S;
  (** asynchronous writes: queue a request ([None] is success) / wait for the
      reply to one of the queued requests / forget the queue *)
  nfsproc_send_writesb_2 : writeargs -> S -> option Z * S;
  nfsproc_wait_write_2 : S -> rpc attrstat * S;
  clnt_abort : S -> S;
  (** clnt_control with CLSET_TIMEOUT, CLGET_TIMEOUT and CLSET_RETRY_TIMEOUT, of
      times in seconds *)
  clnt_set_timeout : Z -> S -> S;
  clnt_get_timeout : S -> Z;
  clnt_set_retry_timeout : Z -> S -> S;
  (** the fields of stack structures that the code leaves uninitialised *)
  junk_u_int : Z
}.

(** NFSGlobal_T *)
Record NFSGlobal_T := NFSGlobal {
  ng_NumRRPCs : Z; ng_NumWRPCs : Z;
  ng_MaxReadSize : Z; ng_MaxReadDirSize : Z; ng_MaxWriteSize : Z
}.

Section Wrappers.
Context {S : Type} `{NfsRpc S}.

(** The common ending of the operations returning a result union. *)
Definition finish {A} (ctx : ascii) (r : rpc (nfsres A)) : rpc A :=
  match r with
  | inl clstat => inl (CLIENT2IoErr clstat)
  | inr (NfsErr st) => inl (NFSErr2IoErrCont st ctx)
  | inr (NfsOk a) => inr a
  end.

(** ... and of those returning a bare status: 1, or 0 and [*Res2]. *)
Definition finish_stat (ctx : ascii) (r : rpc Z) : rpc unit :=
  match r with
  | inl clstat => inl (CLIENT2IoErr clstat)
  | inr st => if st =? NFS_OK then inr tt else inl (NFSErr2IoErrCont st ctx)
  end.

Definition u_minus1 : Z := u32 (-1).
Definition time_unset : nfstime := NfsTime u_minus1 u_minus1.

Definition nfs_GetAttr (file : nfs_fh) (s : S) : rpc fattr * S :=
  let '(res, s) := nfsproc_getattr_2 file s in (finish "r" res, s).

Definition nfs_SetAttr (filefh : nfs_fh) (Mode Uid Gid Size : Z)
  (tv : option nfstime) (s : S) : rpc fattr * S :=
  let t := default time_unset tv in
  let '(res, s) := nfsproc_setattr_2
    (SAttrArgs filefh (SAttr Mode Uid Gid Size t t)) s in
  (finish "w" res, s).

Definition nfs_Chmod filefh Mode (s : S) :=
  nfs_SetAttr filefh Mode u_minus1 u_minus1 u_minus1 None s.
Definition nfs_SetSize filefh Size (s : S) :=
  nfs_SetAttr filefh u_minus1 u_minus1 u_minus1 (u32 Size) None s.
Definition nfs_SetTimes filefh tv (s : S) :=
  nfs_SetAttr filefh u_minus1 u_minus1 u_minus1 u_minus1 (Some tv) s.
Definition nfs_SetUidGid filefh uid gid (s : S) :=
  nfs_SetAttr filefh u_minus1 uid gid u_minus1 None s.

Definition nfs_ReadLink (file : nfs_fh) (s : S) : rpc nfspath * S :=
  let '(res, s) := nfsproc_readlink_2 file s in (finish "r" res, s).

Definition nfs_Create (dirfh : nfs_fh) (name : filename) (UID GID Mode Size : Z)
  (s : S) : rpc diropokres * S :=
  let '(dres, s) := nfsproc_create_2
    (CreateArgs (DirOpArgs dirfh name) (SAttr Mode UID GID Size time_unset time_unset)) s in
  (finish "c" dres, s).

Definition nfs_Remove (dirfh : nfs_fh) (name : filename) (s : S) : rpc unit * S :=
  let '(res, s) := nfsproc_remove_2 (DirOpArgs dirfh name) s in (finish_stat "w" res, s).

Definition nfs_Rename (dirfh1 : nfs_fh) (name1 : filename) (dirfh2 : nfs_fh)
  (name2 : filename) (s : S) : rpc unit * S :=
  let '(res, s) := nfsproc_rename_2
    (RenameArgs (DirOpArgs dirfh1 name1) (DirOpArgs dirfh2 name2)) s in
  (finish_stat "w" res, s).

Definition nfs_Link (fromfh dirfh : nfs_fh) (Name : filename) (s : S) : rpc unit * S :=
  let '(res, s) := nfsproc_link_2 (LinkArgs fromfh (DirOpArgs dirfh Name)) s in
  (finish_stat "w" res, s).

Definition nfs_Symlink (dirfh : nfs_fh) (Name : filename) (UID GID : Z)
  (Path : nfspath) (s : S) : rpc unit * S :=
  let '(res, s) := nfsproc_symlink_2
    (SymLinkArgs (DirOpArgs dirfh Name) Path
       (SAttr 511 UID GID u_minus1 time_unset time_unset)) s in
  (finish_stat "w" res, s).

Definition nfs_MkDir (dirfh : nfs_fh) (name : filename) (UID GID Mode : Z) (s : S)
  : rpc diropokres * S :=
  let '(res, s) := nfsproc_mkdir_2
    (CreateArgs (DirOpArgs dirfh name)
       (SAttr Mode UID GID u_minus1 time_unset time_unset)) s in
  (finish "c" res, s).

Definition nfs_RmDir (dirfh : nfs_fh) (name : filename) (s : S) : rpc unit * S :=
  let '(res, s) := nfsproc_rmdir_2 (DirOpArgs dirfh name) s in (finish_stat "w" res, s).

(** [inr] carries the entries and the new [*Eof]; on failure [*Eof] is untouched. *)
Definition nfs_ReadDir (dir : nfs_fh) (cookie : nfscookie) (BufSize : Z) (s : S)
  : rpc dirlist * S :=
  let '(res, s) := nfsproc_readdir_2 (ReadDirArgs dir cookie BufSize) s in
  (finish "r" res, s).

Definition nfs_statfs (dir : nfs_fh) (s : S) : rpc statfsokres * S :=
  let '(res, s) := nfsproc_statfs_2 dir s in (finish "r" res, s).

(** ** Reads and writes of any length, in requests of limited size *)

(** The outcome of a transfer: -1 with [*Res2] set, or the byte count with
    [*FileLen] set.  [None] around it is undefined behaviour, or a loop that
    never ends. *)
Inductive io_res :=
  | IoFail (Res2 : Z)
  | IoDone (n : Z) (FileLen : Z).

(** [while(count)] of nfs_MRead; [acc] is what was stored at [Buf] so far and
    [attr] the attributes of the last reply. *)
Fixpoint mread_loop (fuel : nat) (MaxRead : Z) (fh : nfs_fh) (offset count : Z)
  (acc : list byte) (attr : option fattr) (s : S)
  : option ((Z + (list byte * option fattr)) * S) :=
  match fuel with
  | O => None
  | Datatypes.S fuel =>
      if count =? 0 then Some (inr (acc, attr), s)
      else
      let cnt := if count <? MaxRead then count else MaxRead in
      let '(res, s) := nfsproc_read_buf (ReadArgs fh offset cnt junk_u_int) s in
      match res with
      | inl c => Some (inl (CLIENT2IoErr c), s)
      | inr (NfsErr st) => Some (inl (NFSErr2IoErrCont st "r"), s)
      | inr (NfsOk r) =>
          let Len := zlen (ro_data r) in
          if Len =? 0 then Some (inr (acc, Some (ro_attributes r)), s)
          else mread_loop fuel MaxRead fh (u32 (offset + Len)) (u32 (count - Len))
            (acc ++ ro_data r) (Some (ro_attributes r)) s
      end
  end.

(** Also gives the bytes stored at [Buf]. *)
Definition nfs_MRead (ng : NFSGlobal_T) (fh : nfs_fh) (offset count : Z) (s : S)
  : option (io_res * list byte * S) :=
  let MaxRead := Z.min (ng_MaxReadSize ng) NFS_MAXDATA in
  '(r, s) ← mread_loop (Datatypes.S (Z.to_nat count)) MaxRead fh offset count [] None s;
  match r with
  | inl Res2 => Some (IoFail Res2, [], s)
  | inr (acc, Some a) => Some (IoDone (s32 (zlen acc)) (s32 (fa_size a)), acc, s)
  | inr (_, None) => None
  end.

Fixpoint mwrite_loop (fuel : nat) (MaxWrite : Z) (fh : nfs_fh) (offset : Z)
  (Buf : list byte) (count : Z) (attr : option fattr) (s : S)
  : option ((Z + option fattr) * S) :=
  match fuel with
  | O => None
  | Datatypes.S fuel =>
      if count =? 0 then Some (inr attr, s)
      else
      let Len := if u32 count <? MaxWrite then count else MaxWrite in
      if zlen Buf <? Len then None
      else
      let '(res, s) := nfsproc_write_2
        (WriteArgs fh junk_u_int offset junk_u_int (take (Z.to_nat Len) Buf)) s in
      match res with
      | inl c => Some (inl (CLIENT2IoErr c), s)
      | inr (NfsErr st) => Some (inl (NFSErr2IoErrCont st "w"), s)
      | inr (NfsOk a) =>
          mwrite_loop fuel MaxWrite fh (u32 (offset + Len)) (drop (Z.to_nat Len) Buf)
            (s32 (count - Len)) (Some a) s
      end
  end.

Definition nfs_MWrite (ng : NFSGlobal_T) (fh : nfs_fh) (offset : Z) (Buf : list byte)
  (arg_count : Z) (s : S) : option (io_res * S) :=
  let MaxWrite := Z.min (ng_MaxWriteSize ng) NFS_MAXDATA in
  let count := s32 arg_count in
  '(r, s) ← mwrite_loop (Datatypes.S (Z.to_nat count)) MaxWrite fh offset Buf count None s;
  match r with
  | inl Res2 => Some (IoFail Res2, s)
  | inr (Some a) => Some (IoDone (s32 arg_count) (s32 (fa_size a)), s)
  | inr None => None
  end.

(** The [if(count)] of the loop of nfs_MAWrite; [loop] is the next iteration. *)
Definition mawrite_send
  (loop : Z -> list byte -> Z -> Z -> Z -> S -> option ((Z + Z) * S))
  (MaxWrite : Z) (fh : nfs_fh) (offset : Z) (Buf : list byte)
  (count numpending FileLen : Z) (s : S) : option ((Z + Z) * S) :=
  if count =? 0 then loop offset Buf count numpending FileLen s
  else
  let Len := if count <? MaxWrite then count else MaxWrite in
  if zlen Buf <? Len then None
  else
  let '(ok, s) := nfsproc_send_writesb_2
    (WriteArgs fh junk_u_int offset junk_u_int (take (Z.to_nat Len) Buf)) s in
  match ok with
  | Some c => Some (inl (CLIENT2IoErr c), s)
  | None =>
      loop (u32 (offset + Len)) (drop (Z.to_nat Len) Buf) (s32 (count - Len))
        (numpending + 1) FileLen s
  end.

(** [while(count || numpending)] of nfs_MAWrite: wait for a reply when the
    window is full or nothing is left to send, then send the next request. *)
Fixpoint mawrite_loop (fuel : nat) (MaxWrite NumRPCs : Z) (fh : nfs_fh) (offset : Z)
  (Buf : list byte) (count numpending FileLen : Z) (s : S) : option ((Z + Z) * S) :=
  match fuel with
  | O => None
  | Datatypes.S fuel =>
      let send := mawrite_send (mawrite_loop fuel MaxWrite NumRPCs fh) MaxWrite fh
        offset Buf count in
      if (count =? 0) && (numpending =? 0) then Some (inr FileLen, s)
      else if (numpending >=? NumRPCs) || ((count =? 0) && negb (numpending =? 0)) then
      let '(res, s) := nfsproc_wait_write_2 s in
      match res with
      | inl c => Some (inl (CLIENT2IoErr c), clnt_abort s)
      | inr (NfsErr st) => Some (inl (NFSErr2IoErrCont st "w"), clnt_abort s)
      | inr (NfsOk a) =>
          send (numpending - 1) (s32 (Z.max (fa_size a) (u32 FileLen))) s
      end
      else send numpending FileLen s
  end.

Definition nfs_MAWrite (ng : NFSGlobal_T) (fh : nfs_fh) (offset : Z) (Buf : list byte)
  (arg_count : Z) (s : S) : option (io_res * S) :=
  let MaxWrite := Z.min (ng_MaxWriteSize ng) NFS_MAXDATA in
  let count := s32 arg_count in
  '(r, s) ← mawrite_loop (2 * Datatypes.S (Z.to_nat count)) MaxWrite (ng_NumWRPCs ng)
    fh offset Buf count 0 0 s;
  match r with
  | inl Res2 => Some (IoFail Res2, s)
  | inr FileLen => Some (IoDone (s32 arg_count) FileLen, s)
  end.
End Wrappers.
