(* ===== verification/NfsServer.v ===== *)
(** * Transfers against a file server

    What the handler relies on of the server is the class [NfsFileServer]; the
    section [WriteLoops] and the theorems after it show that the transfer loops
    of nfs.c (Nfs.v) move the whole buffer whatever the request sizes, the
    window of pending requests and the order of the replies.  [MemServer] is an
    instance: a server that keeps every file in memory. *)
From S2P Require Import Prelude NfsProt NfsSupp Nfs.

(** ** What the operations rely on of the file server *)

(** The bytes [c] with [buf] written over them at offset [off]. *)
Definition overlay (c : Z -> byte) (off : Z) (buf : list byte) (o : Z) : byte :=
  if (off <=? o) && (o <? off + zlen buf)
  then default (c o) (buf !! Z.to_nat (o - off)) else c o.

(** Byte [o] of file [f] is in the range that the request [a] writes. *)
Definition wrange (a : writeargs) (f : nfs_fh) (o : Z) : Prop :=
  f = wa_file a /\ wa_offset a <= o < wa_offset a + zlen (wa_data a).

(** The effect of a write of [a] on the contents [c]. *)
Definition write_to (c : nfs_fh -> Z -> byte) (a : writeargs) (f : nfs_fh) (o : Z) : byte :=
  if decide (f = wa_file a) then overlay (c f) (wa_offset a) (wa_data a) o else c f o.

(** The contents of every file, and the asynchronous writes that are queued.
    A successful reply to a write says the bytes are in the file; a write
    never changes bytes outside its range; the bytes in the range of a queued
    write are unknown until its reply arrives.  The laws hold in the states
    [fs_ok], which no operation leaves that is used as the transfers do:
    reading and writing while nothing is queued, and queueing writes whose
    ranges are disjoint. *)
Class NfsFileServer (S : Type) `{NfsRpc S} := {
  contents : S -> nfs_fh -> Z -> byte;
  inflight : S -> list writeargs;
  fs_ok : S -> Prop;
  write_law a s r s' :
    nfsproc_write_2 a s = (r, s') -> fs_ok s -> inflight s = [] ->
    fs_ok s' /\ inflight s' = [] /\
    (forall f o, ~ wrange a f o -> contents s' f o = contents s f o) /\
    (forall attr, r = inr (NfsOk attr) ->
      forall f o, contents s' f o = write_to (contents s) a f o);
  send_law a s r s' :
    nfsproc_send_writesb_2 a s = (r, s') -> fs_ok s ->
    (forall b f o, b ∈ inflight s -> wrange b f o -> ~ wrange a f o) ->
    fs_ok s' /\
    inflight s' = match r with None => inflight s ++ [a] | Some _ => inflight s end /\
    (forall f o, ~ wrange a f o -> (forall b, b ∈ inflight s -> ~ wrange b f o) ->
       contents s' f o = contents s f o);
  wait_law s r s' :
    nfsproc_wait_write_2 s = (r, s') -> fs_ok s ->
    fs_ok s' /\
    (forall f o, (forall b, b ∈ inflight s -> ~ wrange b f o) ->
       contents s' f o = contents s f o) /\
    (forall b, b ∈ inflight s' -> b ∈ inflight s) /\
    (forall attr, r = inr (NfsOk attr) ->
       exists l1 a l2, inflight s = l1 ++ a :: l2 /\ inflight s' = l1 ++ l2 /\
         (forall f o, wrange a f o -> (forall b, b ∈ l1 ++ l2 -> ~ wrange b f o) ->
            contents s' f o = write_to (contents s) a f o));
  abort_law s : fs_ok s ->
    fs_ok (clnt_abort s) /\ inflight (clnt_abort s) = [] /\
    (forall f o, (forall b, b ∈ inflight s -> ~ wrange b f o) ->
       contents (clnt_abort s) f o = contents s f o)
}.

(** Reading changes nothing, and gives bytes that are there. *)
Class NfsFileReader (S : Type) `{NfsFileServer S} := {
  read_law a s r s' :
    nfsproc_read_buf a s = (r, s') -> fs_ok s -> inflight s = [] ->
    fs_ok s' /\ inflight s' = [] /\
    (forall f o, contents s' f o = contents s f o) /\
    (forall res, r = inr (NfsOk res) ->
       zlen (ro_data res) <= Z.max 0 (ra_count a) /\
       forall i b, ro_data res !! i = Some b ->
         b = contents s (ra_file a) (ra_offset a + Z.of_nat i))
}.

(** Nothing is queued. *)
Definition idle {S} `{NfsFileServer S} (s : S) : Prop := fs_ok s /\ inflight s = [].

Lemma overlay_out c off buf o : ~ (off <= o < off + zlen buf) -> overlay c off buf o = c o.
Proof.
  intros Ho. unfold overlay. destruct (_ && _) eqn:E; [|done].
  apply andb_true_iff in E as [E1 E2]. zbool. lia.
Qed.

Lemma overlay_in c off buf o b :
  off <= o -> buf !! Z.to_nat (o - off) = Some b -> overlay c off buf o = b.
Proof.
  intros Ho Hb. unfold overlay. apply lookup_lt_Some in Hb as Hl.
  rewrite (proj2 (Z.leb_le _ _)), (proj2 (Z.ltb_lt _ _)) by (unfold zlen; lia).
  simpl. by rewrite Hb.
Qed.

(** Writing two adjacent pieces is writing their concatenation. *)
Lemma overlay_app c off b1 b2 o :
  overlay (overlay c off b1) (off + zlen b1) b2 o = overlay c off (b1 ++ b2) o.
Proof.
  destruct (decide (off <= o < off + zlen (b1 ++ b2))) as [Ho|Ho].
  2:{ rewrite !overlay_out; [done|zlia|zlia|zlia]. }
  destruct (lookup_lt_is_Some_2 (b1 ++ b2) (Z.to_nat (o - off))) as [b Hb].
  { unfold zlen in *. lia. }
  rewrite (overlay_in c off (b1 ++ b2) o b) by (lia || done).
  destruct (decide (o < off + zlen b1)).
  - rewrite overlay_out by lia. apply overlay_in; [lia|].
    rewrite lookup_app_l in Hb by (unfold zlen in *; lia). done.
  - apply overlay_in; [lia|]. rewrite lookup_app_r in Hb by (unfold zlen in *; lia).
    rewrite <-Hb. f_equal. unfold zlen. lia.
Qed.

Lemma overlay_nil c off o : overlay c off [] o = c o.
Proof. apply overlay_out. zlia. Qed.

Lemma overlay_ext c c' off buf o : (forall o, c o = c' o) -> overlay c off buf o = overlay c' off buf o.
Proof. intros Hc. unfold overlay. by rewrite Hc. Qed.

(** ** Both write loops store the whole buffer *)

Section WriteLoops.
Context {S : Type} `{HS : NfsFileServer S}.

Definition wargs (fh : nfs_fh) (off : Z) (buf : list byte) : writeargs :=
  WriteArgs fh junk_u_int off junk_u_int buf.

(** [T] is the contents aimed at, [W] the bytes a failure may leave undefined. *)
Variable T : nfs_fh -> Z -> byte.
Variable W : nfs_fh -> Z -> Prop.

(** The bytes still to be sent, or sent and not yet acknowledged, are those
    of [T] and lie in [W]; every other byte is already as in [T].  What is still
    to be sent has nothing in common with what was sent. *)
Record wr_inv (a : writeargs) (s : S) : Prop := {
  wr_fs : fs_ok s;
  wr_new : forall b f o, b ∈ inflight s -> wrange b f o -> ~ wrange a f o;
  wr_todo : forall b f o, b = a \/ b ∈ inflight s -> wrange b f o ->
  W f o /\ forall c, write_to c b f o = T f o;
  wr_done : forall f o, ~ wrange a f o -> (forall b, b ∈ inflight s -> ~ wrange b f o) ->
  contents s f o = T f o
}.

Definition in_W (s : S) : Prop := forall f o, ~ W f o -> contents s f o = T f o.

Lemma write_to_out c a f o : ~ wrange a f o -> write_to c a f o = c f o.
Proof.
  intros Ha. unfold write_to, wrange in *. case_decide; [|done].
  apply overlay_out. intros ?. by apply Ha.
Qed.

Lemma wrange_split fh off b1 b2 f o :
  wrange (wargs fh off (b1 ++ b2)) f o <->
  wrange (wargs fh off b1) f o \/ wrange (wargs fh (off + zlen b1) b2) f o.
Proof.
  unfold wrange; simpl. pose proof (zlen_nonneg b1). pose proof (zlen_nonneg b2).
  rewrite zlen_app. split.
  - intros [-> Ho]. destruct (decide (o < off + zlen b1)); [left|right]; split; (done || lia).
  - intros [[-> Ho]|[-> Ho]]; split; (done || lia).
Qed.

Lemma write_to_split c fh off b1 b2 f o :
  (wrange (wargs fh off b1) f o ->
   write_to c (wargs fh off b1) f o = write_to c (wargs fh off (b1 ++ b2)) f o) /\
  (wrange (wargs fh (off + zlen b1) b2) f o ->
   write_to c (wargs fh (off + zlen b1) b2) f o = write_to c (wargs fh off (b1 ++ b2)) f o).
Proof.
  unfold write_to, wrange; simpl. split; intros [-> Ho]; rewrite !decide_True by done.
  - rewrite <-overlay_app. rewrite (overlay_out _ (off + zlen b1)) by (simpl in *; lia). done.
  - rewrite <-overlay_app. unfold overlay at 1 2.
    rewrite (proj2 (Z.leb_le _ _)), (proj2 (Z.ltb_lt _ _)) by lia. simpl.
    destruct (lookup_lt_is_Some_2 b2 (Z.to_nat (o - (off + zlen b1)))) as [x ->]; [|done].
    unfold zlen in *. lia.
Qed.

Lemma wr_inv_in_W a s : wr_inv a s -> in_W s.
Proof.
  intros [_ _ Ht Hd] f o Hw. apply Hd.
  - intros Hr. apply Hw. by eapply Ht; [left|].
  - intros b Hb Hr. apply Hw. by eapply Ht; [right|].
Qed.

(** A synchronous write of the first part of what is left. *)
Lemma wr_inv_write fh off b1 b2 s r s' :
  wr_inv (wargs fh off (b1 ++ b2)) s -> inflight s = [] ->
  nfsproc_write_2 (wargs fh off b1) s = (r, s') ->
  inflight s' = [] /\ in_W s' /\
  (forall attr, r = inr (NfsOk attr) -> wr_inv (wargs fh (off + zlen b1) b2) s').
Proof.
  intros Hinv Hi Hw. pose proof (wr_inv_in_W _ _ Hinv) as HW. destruct Hinv as [Hfs _ Ht Hd].
  destruct (write_law _ _ _ _ Hw Hfs Hi) as (Hfs' & Hi' & Hf & Hok).
  split; [done|]. split.
  - intros f o Ho. rewrite Hf; [by apply HW|]. intros Hr. apply Ho.
    eapply Ht; [by left|]. apply wrange_split. by left.
  - intros attr ->. specialize (Hok _ eq_refl). constructor; [done| | |].
    + rewrite Hi'. by intros b f o ?%elem_of_nil.
    + intros b f o [->|Hb]; [|rewrite Hi' in Hb; by apply elem_of_nil in Hb].
      intros Hr. destruct (Ht (wargs fh off (b1 ++ b2)) f o) as [Hw' Hc];
        [by left|apply wrange_split; by right|].
      split; [done|]. intros c. rewrite <-(Hc c). by apply write_to_split.
    + intros f o Hr _. rewrite Hok.
      destruct (decide (f = fh /\ off <= o < off + zlen b1)) as [Hin|Hout].
      * destruct (Ht (wargs fh off (b1 ++ b2)) f o) as [_ Hc];
          [by left|apply wrange_split; by left|].
        rewrite <-(Hc (contents s)). by apply write_to_split.
      * rewrite write_to_out by done. apply Hd; [|rewrite Hi; by intros b ?%elem_of_nil].
        rewrite wrange_split. tauto.
Qed.

(** Queueing a write of the first part of what is left. *)
Lemma wr_inv_send fh off b1 b2 s r s' :
  wr_inv (wargs fh off (b1 ++ b2)) s ->
  nfsproc_send_writesb_2 (wargs fh off b1) s = (r, s') ->
  in_W s' /\
  (r = None -> wr_inv (wargs fh (off + zlen b1) b2) s' /\
   inflight s' = inflight s ++ [wargs fh off b1]).
Proof.
  intros Hinv Hw. pose proof (wr_inv_in_W _ _ Hinv) as HW. destruct Hinv as [Hfs Hn Ht Hd].
  destruct (send_law _ _ _ _ Hw Hfs) as (Hfs' & Hi & Hf).
  { intros b f o Hb Hr Hr1. eapply Hn; [exact Hb|exact Hr|]. apply wrange_split. by left. }
  split.
  - intros f o Ho. rewrite Hf; [by apply HW| |].
    + intros Hr. apply Ho. eapply Ht; [by left|]. apply wrange_split. by left.
    + intros b Hb Hr. apply Ho. by eapply Ht; [right|].
  - intros ->. split; [|done]. constructor; [done|rewrite Hi..].
    + intros b f o [Hb| ->%list_elem_of_singleton]%elem_of_app Hr Hr2.
      * eapply Hn; [exact Hb|exact Hr|]. apply wrange_split. by right.
      * unfold wrange in *. simpl in *. lia.
    + intros b f o [->|[Hb| ->%list_elem_of_singleton]%elem_of_app] Hr.
      * destruct (Ht (wargs fh off (b1 ++ b2)) f o) as [Hw' Hc];
          [by left|apply wrange_split; by right|].
        split; [done|]. intros c. rewrite <-(Hc c). by apply write_to_split.
      * apply Ht; auto.
      * destruct (Ht (wargs fh off (b1 ++ b2)) f o) as [Hw' Hc];
          [by left|apply wrange_split; by left|].
        split; [done|]. intros c. rewrite <-(Hc c). by apply write_to_split.
    + intros f o Hr Hb. rewrite Hf.
      * apply Hd; [rewrite wrange_split|intros b Hb'; apply Hb; apply elem_of_app; auto].
        intros [Hr1|Hr2]; [|done]. eapply Hb; [|exact Hr1].
        apply elem_of_app. right. by apply list_elem_of_singleton.
      * apply Hb. apply elem_of_app. right. by apply list_elem_of_singleton.
      * intros b Hb'. apply Hb, elem_of_app. auto.
Qed.

(** Taking the reply to a queued write. *)
Lemma wr_inv_wait a s r s' :
  wr_inv a s -> nfsproc_wait_write_2 s = (r, s') ->
  in_W s' /\ in_W (clnt_abort s') /\
  (forall attr, r = inr (NfsOk attr) ->
   wr_inv a s' /\ length (inflight s) = Datatypes.S (length (inflight s'))).
Proof.
  intros Hinv Hw. pose proof (wr_inv_in_W _ _ Hinv) as HW. destruct Hinv as [Hfs Hn Ht Hd].
  destruct (wait_law _ _ _ Hw Hfs) as (Hfs' & Hf & Hsub & Hok).
  assert (HWb : forall f o, ~ W f o -> forall b, b ∈ inflight s -> ~ wrange b f o).
  { intros f o Ho b Hb Hr. apply Ho. by eapply Ht; [right|]. }
  assert (HW' : in_W s') by (intros f o Ho; rewrite Hf; [by apply HW|by apply HWb]).
  split_and!; [done| |].
  - intros f o Ho. destruct (abort_law s' Hfs') as (_ & _ & ->); [by apply HW'|].
    intros b Hb. apply HWb; auto.
  - intros attr ->. destruct (Hok _ eq_refl) as (l1 & a' & l2 & Hi & Hi' & Ha').
    split; [|rewrite Hi, Hi', !length_app; simpl; lia].
    constructor; [done|by eauto| |].
    + intros b f o [->|Hb] Hr; apply Ht; auto.
    + intros f o Hr Hb. rewrite Hi' in Hb.
      destruct (decide (f = wa_file a' /\ wa_offset a' <= o < wa_offset a' + zlen (wa_data a')))
        as [Hin|Hout].
      * rewrite Ha' by done. eapply Ht; [right|exact Hin]. rewrite Hi.
        apply elem_of_app. right. by left.
      * assert (forall b, b ∈ inflight s -> ~ wrange b f o) as Hnb.
        { intros b. rewrite Hi. intros [?|[->|?]%elem_of_cons]%elem_of_app;
            [apply Hb, elem_of_app; auto|done|apply Hb, elem_of_app; auto]. }
        rewrite Hf by done. by apply Hd.
Qed.

Lemma wr_inv_done a s :
  wr_inv a s -> wa_data a = [] -> inflight s = [] -> forall f o, contents s f o = T f o.
Proof.
  intros [_ _ _ Hd] Ha Hi f o. apply Hd.
  - unfold wrange. rewrite Ha, zlen_nil. lia.
  - rewrite Hi. by intros b ?%elem_of_nil.
Qed.

(** How much of [Buf] one request takes. *)
Lemma request_split (Buf : list byte) Len :
  0 <= Len <= zlen Buf ->
  Buf = take (Z.to_nat Len) Buf ++ drop (Z.to_nat Len) Buf /\
  zlen (take (Z.to_nat Len) Buf) = Len /\ zlen (drop (Z.to_nat Len) Buf) = zlen Buf - Len.
Proof.
  intros HL. rewrite take_drop. split; [done|]. unfold zlen in *. rewrite length_take, length_drop. lia.
Qed.

Lemma mwrite_loop_ok fuel MaxWrite fh : forall off Buf attr s,
  1 <= MaxWrite -> 0 <= off -> off + zlen Buf < 2 ^ 32 -> zlen Buf < 2 ^ 31 ->
  zlen Buf < Z.of_nat fuel ->
  wr_inv (wargs fh off Buf) s -> inflight s = [] ->
  exists r s', mwrite_loop fuel MaxWrite fh off Buf (zlen Buf) attr s = Some (r, s') /\
    in_W s' /\
    (forall a, r = inr a -> idle s' /\ (forall f o, contents s' f o = T f o) /\
     (Buf <> [] \/ is_Some attr -> is_Some a)).
Proof.
  induction fuel as [|fuel IH]; intros off Buf attr s HM Hoff Hlen Hlen31 Hfuel Hinv Hi; [zlia|].
  simpl. pose proof (zlen_nonneg Buf). destruct (zlen Buf =? 0) eqn:E0; zbool.
  { assert (Buf = []) as -> by (destruct Buf; [done|zlia]).
    eexists _, _. split; [done|]. split; [by eapply wr_inv_in_W|]. intros a [= <-].
    split; [split; [apply Hinv|done]|]. split; [by eapply wr_inv_done|]. by intros [|]. }
  rewrite (u32_id (zlen Buf)) by lia.
  set (Len := if zlen Buf <? MaxWrite then zlen Buf else MaxWrite).
  assert (1 <= Len <= zlen Buf) as HLen by (unfold Len; destruct (_ <? _) eqn:E; zbool; lia).
  destruct (zlen Buf <? Len) eqn:E1; zbool; [lia|].
  destruct (request_split Buf Len) as (Hsp & H1 & H2); [lia|].
  fold (wargs fh off (take (Z.to_nat Len) Buf)).
  destruct (nfsproc_write_2 _ s) as [r s1] eqn:Ew.
  rewrite Hsp in Hinv.
  destruct (wr_inv_write _ _ _ _ _ _ _ Hinv Hi Ew) as (Hi1 & HW1 & Hok).
  destruct r as [c|[a|st]]; [by eexists _, _| |by eexists _, _].
  specialize (Hok _ eq_refl). rewrite H1 in Hok.
  rewrite u32_id, s32_id by lia. rewrite <-H2.
  destruct (IH (off + Len) (drop (Z.to_nat Len) Buf) (Some a) s1) as (r & s' & Hr & HW & Hd);
    [lia..|done|done|].
  exists r, s'. split; [done|]. split; [done|]. intros a' ->.
  destruct (Hd a' eq_refl) as (? & ? & Ha). split_and!; eauto.
Qed.

Lemma mawrite_loop_ok fuel MaxWrite NumRPCs fh : forall off Buf FileLen s,
  1 <= MaxWrite -> 1 <= NumRPCs -> 0 <= off -> off + zlen Buf < 2 ^ 32 -> zlen Buf < 2 ^ 31 ->
  2 * zlen Buf + zlen (inflight s) < Z.of_nat fuel ->
  wr_inv (wargs fh off Buf) s ->
  exists r s', mawrite_loop fuel MaxWrite NumRPCs fh off Buf (zlen Buf)
    (zlen (inflight s)) FileLen s = Some (r, s') /\
    in_W s' /\
    (forall n, r = inr n -> idle s' /\ forall f o, contents s' f o = T f o).
Proof.
  induction fuel as [|fuel IH]; intros off Buf FileLen s HM HN Hoff Hlen Hlen31 Hfuel Hinv; [pose proof (zlen_nonneg (inflight s)); zlia|].
  cbn [mawrite_loop]. pose proof (zlen_nonneg Buf). pose proof (zlen_nonneg (inflight s)).
  set (send := mawrite_send (mawrite_loop fuel MaxWrite NumRPCs fh) MaxWrite fh off Buf (zlen Buf)).
  assert (Hsend : forall pend FL s0, pend = zlen (inflight s0) ->
          pend <= zlen (inflight s) ->
          (zlen Buf = 0 -> pend < zlen (inflight s)) -> wr_inv (wargs fh off Buf) s0 ->
          exists r s', send pend FL s0 = Some (r, s') /\ in_W s' /\
          (forall n, r = inr n -> idle s' /\ forall f o, contents s' f o = T f o)).
  { intros pend FL s0 -> Hp Hp0 Hinv0. unfold send, mawrite_send.
    destruct (zlen Buf =? 0) eqn:E0; zbool; [apply IH; try done; lia|].
    set (Len := if zlen Buf <? MaxWrite then zlen Buf else MaxWrite).
    assert (1 <= Len <= zlen Buf) as HLen by (unfold Len; destruct (_ <? _) eqn:E; zbool; lia).
    destruct (zlen Buf <? Len) eqn:E1; zbool; [lia|].
    destruct (request_split Buf Len) as (Hsp & Hz1 & Hz2); [lia|].
    fold (wargs fh off (take (Z.to_nat Len) Buf)).
    destruct (nfsproc_send_writesb_2 _ s0) as [r s1] eqn:Ew. rewrite Hsp in Hinv0.
    destruct (wr_inv_send _ _ _ _ _ _ _ Hinv0 Ew) as (HW1 & Hok).
    destruct r as [c|]; [by eexists _, _|]. destruct (Hok eq_refl) as [Hinv1 Hi1].
    rewrite Hz1 in Hinv1. rewrite u32_id, s32_id by lia. rewrite <-Hz2.
    replace (zlen (inflight s0) + 1) with (zlen (inflight s1)) by (rewrite Hi1; zlia).
    apply IH; try done; try lia. rewrite Hi1. zlia. }
  destruct (zlen Buf =? 0) eqn:E0, (zlen (inflight s) =? 0) eqn:E1; zbool; simpl.
  1:{ eexists _, _. split; [done|]. split; [by eapply wr_inv_in_W|]. intros n _.
    assert (inflight s = []) by (destruct (inflight s); [done|zlia]).
    split; [split; [apply Hinv|done]|]. eapply wr_inv_done; try done. destruct Buf; [done|zlia]. }
  all: match goal with |- context [?a >=? ?b] => destruct (a >=? b) eqn:E2; zbool; simpl end.
  all: try (apply Hsend; try done; lia); try lia.
  all: destruct (nfsproc_wait_write_2 s) as [r s1] eqn:Ew.
  all: destruct (wr_inv_wait _ _ _ _ Hinv Ew) as (HW1 & HW2 & Hok).
  all: destruct r as [c|[a|st]]; [by eexists _, _| |by eexists _, _].
  all: destruct (Hok _ eq_refl) as [Hinv1 Hl]; apply Hsend; unfold zlen in *; try done; lia.
Qed.
End WriteLoops.

(** ** Specifications of the transfers *)

(** What a transfer of [Buf] to offset [off] of [fh] may do to the server: the
    bytes outside the range keep their value, and a successful transfer has
    stored all of [Buf] and left no request pending. *)
Definition write_outcome {S : Type} `{NfsFileServer S} (fh : nfs_fh) (off : Z) (Buf : list byte)
  (s : S) (r : io_res) (s' : S) : Prop :=
  (forall f o, ~ wrange (wargs fh off Buf) f o -> contents s' f o = contents s f o) /\
  (forall n FileLen, r = IoDone n FileLen ->
     n = zlen Buf /\ idle s' /\
     forall f o, contents s' f o = write_to (contents s) (wargs fh off Buf) f o).

Section Transfers.
Context {S : Type} `{HS : NfsFileServer S}.

Lemma write_to_in c c' a f o :
  wrange a f o -> write_to c a f o = write_to c' a f o.
Proof.
  intros [-> Ho]. unfold write_to. rewrite !decide_True by done.
  destruct (lookup_lt_is_Some_2 (wa_data a) (Z.to_nat (o - wa_offset a))) as [b Hb].
  { unfold zlen in *. lia. }
  rewrite !(overlay_in _ _ _ _ b) by (lia || done). done.
Qed.

Lemma wr_inv_start a s :
  idle s -> wr_inv (write_to (contents s) a) (wrange a) a s.
Proof.
  intros [Hfs Hi]. constructor; [done|rewrite Hi..].
  - by intros b f o ?%elem_of_nil.
  - intros b f o [->|Hb] Hr; [|by apply elem_of_nil in Hb].
    split; [done|]. intros c. by apply write_to_in.
  - intros f o Hr _. by rewrite write_to_out.
Qed.

Lemma in_W_frame a s s' :
  in_W (write_to (contents s) a) (wrange a) s' ->
  forall f o, ~ wrange a f o -> contents s' f o = contents s f o.
Proof. intros HW f o Hr. rewrite (HW f o Hr). by apply write_to_out. Qed.

Lemma MaxWrite_pos ng : 1 <= ng_MaxWriteSize ng -> 1 <= Z.min (ng_MaxWriteSize ng) NFS_MAXDATA.
Proof. unfold NFS_MAXDATA. lia. Qed.

Lemma nfs_MWrite_spec ng fh off Buf s :
  1 <= ng_MaxWriteSize ng -> 0 < zlen Buf < 2 ^ 31 -> 0 <= off -> off + zlen Buf < 2 ^ 32 ->
  idle s ->
  exists r s', nfs_MWrite ng fh off Buf (zlen Buf) s = Some (r, s') /\
    write_outcome fh off Buf s r s'.
Proof.
  intros HM%MaxWrite_pos HB Hoff Hlen Hi. unfold nfs_MWrite. rewrite !s32_id by lia.
  destruct (mwrite_loop_ok _ _ (Datatypes.S (Z.to_nat (zlen Buf))) _ fh off Buf None s
              HM Hoff Hlen ltac:(lia) ltac:(lia) (wr_inv_start (wargs fh off Buf) s Hi) (proj2 Hi))
    as (r & s' & -> & HW & Hd). simpl.
  pose proof (in_W_frame _ _ _ HW) as Hf.
  destruct r as [e|a]; [eexists _, _; split; [done|]; by split; [|intros]|].
  destruct (Hd a eq_refl) as (Hi' & Hc & [x ->]); [left; intros ->; unfold zlen in HB; simpl in HB; lia|].
  eexists _, _. split; [done|]. split; [done|]. by intros ?? [= <- _].
Qed.

Lemma nfs_MAWrite_spec ng fh off Buf s :
  1 <= ng_MaxWriteSize ng -> 1 <= ng_NumWRPCs ng ->
  0 < zlen Buf < 2 ^ 31 -> 0 <= off -> off + zlen Buf < 2 ^ 32 -> idle s ->
  exists r s', nfs_MAWrite ng fh off Buf (zlen Buf) s = Some (r, s') /\
    write_outcome fh off Buf s r s'.
Proof.
  intros HM%MaxWrite_pos HN HB Hoff Hlen Hi. unfold nfs_MAWrite. rewrite !s32_id by lia.
  destruct (mawrite_loop_ok (write_to (contents s) (wargs fh off Buf)) (wrange (wargs fh off Buf)) (2 * Datatypes.S (Z.to_nat (zlen Buf)))%nat _ _ fh off Buf 0 s
              HM HN Hoff Hlen ltac:(lia)) as (r & s' & Hr & HW & Hd).
  { rewrite (proj2 Hi), zlen_nil. lia. }
  { by apply wr_inv_start. }
  rewrite (proj2 Hi), zlen_nil in Hr. rewrite Hr. cbn.
  pose proof (in_W_frame _ _ _ HW) as Hf.
  destruct r as [e|n]; [eexists _, _; split; [done|]; by split; [|intros]|].
  destruct (Hd n eq_refl) as (Hi' & Hc).
  eexists _, _. split; [done|]. split; [done|]. by intros ?? [= <- _].
Qed.

End Transfers.

Section Reads.
Context {S : Type} `{HR : NfsFileReader S}.

(** The bytes [acc] are those of the file from offset [off] on. *)
Definition bytes_at (s : S) (fh : nfs_fh) (off : Z) (acc : list byte) : Prop :=
  forall i b, acc !! i = Some b -> b = contents s fh (off + Z.of_nat i).

Lemma mread_loop_ok fuel MaxRead fh off0 : forall acc count attr s,
  0 <= count -> count < Z.of_nat fuel -> 0 <= off0 -> off0 + zlen acc + count < 2 ^ 32 ->
  bytes_at s fh off0 acc -> idle s ->
  exists r s', mread_loop fuel MaxRead fh (off0 + zlen acc) count acc attr s = Some (r, s') /\
    idle s' /\ (forall f o, contents s' f o = contents s f o) /\
    (forall acc' a, r = inr (acc', a) ->
     zlen acc' <= zlen acc + count /\ bytes_at s fh off0 acc' /\
     (0 < count \/ is_Some attr -> is_Some a)).
Proof.
  induction fuel as [|fuel IH]; intros acc count attr s Hc Hfuel Ho Hlen Hacc Hi; [lia|].
  simpl. pose proof (zlen_nonneg acc). destruct (count =? 0) eqn:E0; zbool.
  { eexists _, _. split; [done|]. split_and!; [done..|]. intros acc' a [= <- <-].
    split_and!; [lia|done|]. intros [|]; [lia|done]. }
  set (cnt := if count <? MaxRead then count else MaxRead).
  destruct (nfsproc_read_buf _ s) as [res s1] eqn:Er.
  destruct (read_law _ _ _ _ Er (proj1 Hi) (proj2 Hi)) as (Hfs1 & Hi1 & Hc1 & Hd).
  assert (Hid1 : idle s1) by done.
  destruct res as [c|[ro|st]]; [by eexists _, _| |by eexists _, _].
  destruct (Hd _ eq_refl) as [Hl Hb]; simpl in Hl, Hb. pose proof (zlen_nonneg (ro_data ro)).
  assert (cnt <= count) by (unfold cnt; destruct (_ <? _) eqn:E; zbool; lia).
  destruct (zlen (ro_data ro) =? 0) eqn:E1; zbool.
  { eexists _, _. split; [done|]. split_and!; [done..|]. intros acc' a [= <- <-].
    split_and!; [lia|done|done]. }
  rewrite !u32_id by lia.
  replace (off0 + zlen acc + zlen (ro_data ro)) with (off0 + zlen (acc ++ ro_data ro)) by zlia.
  destruct (IH (acc ++ ro_data ro) (count - zlen (ro_data ro)) (Some (ro_attributes ro)) s1)
    as (r & s' & Hr & Hid & Hcs & Hres); try lia; [zlia| |done|].
  { intros i b Hib. rewrite Hc1. apply lookup_app_Some in Hib as [Hib|[Hge Hib]]; [by apply Hacc|].
    rewrite (Hb _ _ Hib). f_equal. unfold zlen. lia. }
  exists r, s'. split; [done|]. split_and!; [apply Hid..|congruence|].
  intros acc' a Ha. destruct (Hres _ _ Ha) as (H1' & H2' & H3').
  split_and!; [zlia| |auto]. intros i b Hib. rewrite (H2' _ _ Hib). by rewrite Hc1.
Qed.

Lemma nfs_MRead_spec ng fh off count s :
  0 < count < 2 ^ 31 -> 0 <= off -> off + count < 2 ^ 32 -> idle s ->
  exists r buf s', nfs_MRead ng fh off count s = Some (r, buf, s') /\
    idle s' /\ (forall f o, contents s' f o = contents s f o) /\
    (forall n FileLen, r = IoDone n FileLen ->
     n = zlen buf /\ n <= count /\ bytes_at s fh off buf).
Proof.
  intros Hc Ho Hlen Hidle. unfold nfs_MRead.
  destruct (mread_loop_ok (Datatypes.S (Z.to_nat count)) (Z.min (ng_MaxReadSize ng) NFS_MAXDATA)
              fh off [] count None s) as (r & s' & Hr & Hid & Hcs & Hd);
    try (rewrite ?zlen_nil; lia); [by intros i b ?|done|].
  rewrite zlen_nil, Z.add_0_r in Hr. rewrite Hr. cbn.
  destruct r as [e|[acc a]]; [by eexists _, _, _|].
  destruct (Hd _ _ eq_refl) as (H1' & H2' & [x ->]); [by left; lia|].
  rewrite zlen_nil in H1'. pose proof (zlen_nonneg acc).
  eexists _, _, _. split; [done|]. split_and!; [done..|].
  intros n L [= <- _]. rewrite s32_id by lia. split_and!; [done|lia|done].
Qed.
End Reads.

(** ** A concrete server *)

(** Files are kept in memory, the replies to queued writes come last request
    first, and a full server ([mem_full]) refuses every write.  Operations the
    transfers do not use are refused with an RPC error. *)
Record memserver := MemServer {
  mem_files : nfs_fh -> Z -> byte;
  mem_size : Z;
  mem_queue : list writeargs;
  mem_full : bool
}.

Definition mem_attr (size : Z) : fattr :=
  FAttr NFREG 420 1 0 0 size 512 0 1 0 1 (NfsTime 0 0) (NfsTime 0 0) (NfsTime 0 0).

Definition mem_write (a : writeargs) (s : memserver) : memserver :=
  MemServer (write_to (mem_files s) a)
    (Z.max (mem_size s) (wa_offset a + zlen (wa_data a))) (mem_queue s) (mem_full s).

Definition mem_set_queue (q : list writeargs) (s : memserver) : memserver :=
  MemServer (mem_files s) (mem_size s) q (mem_full s).

Definition mem_read (a : readargs) (s : memserver) : list byte :=
  (fun i => mem_files s (ra_file a) (ra_offset a + Z.of_nat i)) <$>
  seq 0 (Z.to_nat (Z.min (ra_count a) (mem_size s - ra_offset a))).

Definition no_rpc {A} (s : memserver) : rpc A * memserver := (inl RPC_SUCCESS, s).

#[export] Instance mem_rpc : NfsRpc memserver := {
  nfsproc_getattr_2 _ s := (inr (NfsOk (mem_attr (mem_size s))), s);
  nfsproc_setattr_2 _ s := (inr (NfsOk (mem_attr (mem_size s))), s);
  nfsproc_lookup_2 _ := no_rpc;
  nfsproc_readlink_2 _ := no_rpc;
  nfsproc_read_buf a s :=
    (inr (NfsOk (ReadOkRes (mem_attr (mem_size s)) (mem_read a s))), s);
  nfsproc_write_2 a s :=
    if mem_full s then (inr (NfsErr NFSERR_NOSPC), s)
    else (inr (NfsOk (mem_attr (mem_size (mem_write a s)))), mem_write a s);
  nfsproc_create_2 _ := no_rpc;
  nfsproc_remove_2 _ := no_rpc;
  nfsproc_rename_2 _ := no_rpc;
  nfsproc_link_2 _ := no_rpc;
  nfsproc_symlink_2 _ := no_rpc;
  nfsproc_mkdir_2 _ := no_rpc;
  nfsproc_rmdir_2 _ := no_rpc;
  nfsproc_readdir_2 _ := no_rpc;
  nfsproc_statfs_2 _ := no_rpc;
  nfsproc_send_writesb_2 a s := (None, mem_set_queue (mem_queue s ++ [a]) s);
  nfsproc_wait_write_2 s :=
    match reverse (mem_queue s) with
    | [] => (inl RPC_SUCCESS, s)
    | a :: q =>
        let s := mem_set_queue (reverse q) s in
        if mem_full s then (inr (NfsErr NFSERR_NOSPC), s)
        else (inr (NfsOk (mem_attr (mem_size (mem_write a s)))), mem_write a s)
    end;
  clnt_abort s := mem_set_queue [] s;
  clnt_set_timeout _ s := s;
  clnt_get_timeout _ := 0;
  clnt_set_retry_timeout _ s := s;
  junk_u_int := 0
}.

#[export] Program Instance mem_fileserver : NfsFileServer memserver := {
  contents := mem_files;
  inflight := mem_queue;
  fs_ok _ := True
}.
Next Obligation.
  intros a s r s' Hw _ Hi. cbn in Hw. destruct (mem_full s); simplify_eq; simpl.
  - split_and!; [done..|]. intros attr [=].
  - split_and!; [done..| |done]. intros f o Hr. by apply write_to_out.
Qed.
Next Obligation. intros a s r s' [= <- <-] _ _. simpl. by split. Qed.
Next Obligation.
  intros s r s' Hw _. cbn in Hw. destruct (reverse (mem_queue s)) as [|a q] eqn:Eq.
  { simplify_eq. split_and!; [done..|]. intros attr [=]. }
  assert (Hq : mem_queue s = reverse q ++ [a]).
  { by rewrite <-(reverse_involutive (mem_queue s)), Eq, reverse_cons. }
  simpl in Hw. rewrite Hq. destruct (mem_full s); simplify_eq; simpl.
  - split_and!; [done..| |intros attr [=]]. intros b Hb. apply elem_of_app. by left.
  - split_and!.
    + done.
    + intros f o Hr. apply write_to_out, Hr, elem_of_app. right. by left.
    + intros b Hb. apply elem_of_app. by left.
    + intros attr _. exists (reverse q), a, []. by rewrite !app_nil_r.
Qed.
Next Obligation. by intros s. Qed.

#[export] Instance mem_filereader : NfsFileReader memserver.
Proof.
  split. intros a s r s' [= <- <-] _ Hi. split_and!; [done..|]. intros res [= <-]. cbn. unfold mem_read.
  split.
  - unfold zlen. rewrite length_fmap, length_seq. lia.
  - intros i b Hb. apply list_lookup_fmap_Some in Hb as (k & -> & Hk).
    by apply lookup_seq in Hk as [-> _].
Qed.

(** ** The transfer theorems *)

(** A synchronous write of a whole buffer (nfs_MWrite), cut in requests of
    at most [ng_MaxWriteSize] and NFS_MAXDATA bytes, always returns; it never
    changes a byte outside the range it was given, and when it succeeds it
    reports the full count and the server holds exactly the old contents with
    the buffer written over them. *)
Theorem nfs_MWrite_stores {S : Type} `{NfsFileServer S} ng fh off Buf (s : S) :
  1 <= ng_MaxWriteSize ng -> 0 < zlen Buf < 2 ^ 31 -> 0 <= off -> off + zlen Buf < 2 ^ 32 ->
  idle s ->
  exists r s', nfs_MWrite ng fh off Buf (zlen Buf) s = Some (r, s') /\
    write_outcome fh off Buf s r s'.
Proof. apply nfs_MWrite_spec. Qed.

(** C23: The asynchronous write (nfs_MAWrite), which keeps up to [ng_NumWRPCs]
    requests pending and takes their replies in any order the server likes,
    always returns, and has the same outcome as the synchronous one: nothing
    outside the range changes, and success means that every request was
    acknowledged and the server holds the buffer. *)
Theorem nfs_MAWrite_stores {S : Type} `{NfsFileServer S} ng fh off Buf (s : S) :
  1 <= ng_MaxWriteSize ng -> 1 <= ng_NumWRPCs ng ->
  0 < zlen Buf < 2 ^ 31 -> 0 <= off -> off + zlen Buf < 2 ^ 32 -> idle s ->
  exists r s', nfs_MAWrite ng fh off Buf (zlen Buf) s = Some (r, s') /\
    write_outcome fh off Buf s r s'.
Proof. apply nfs_MAWrite_spec. Qed.

(** A read of any length (nfs_MRead) always returns and leaves the server
    as it was; on success it gives at most the bytes asked for, in order, each
    the byte of the file at its offset. *)
Theorem nfs_MRead_reads {S : Type} `{NfsFileReader S} ng fh off count (s : S) :
  0 < count < 2 ^ 31 -> 0 <= off -> off + count < 2 ^ 32 -> idle s ->
  exists r buf s', nfs_MRead ng fh off count s = Some (r, buf, s') /\
    idle s' /\ (forall f o, contents s' f o = contents s f o) /\
    (forall n FileLen, r = IoDone n FileLen ->
       n = zlen buf /\ n <= count /\ bytes_at s fh off buf).
Proof. apply nfs_MRead_spec. Qed.

Definition mem0 : memserver := MemServer (fun _ _ => x00) 10 [] false.
Definition ng0 : NFSGlobal_T := NFSGlobal 4 4 4 4 4.

Lemma nfs_MWrite_stores_witness :
  exists r s', nfs_MWrite ng0 [x01] 3 (replicate 9 x07) 9 mem0 = Some (r, s') /\
    r = IoDone 9 12 /\ write_outcome [x01] 3 (replicate 9 x07) mem0 r s'.
Proof.
  destruct (nfs_MWrite_stores ng0 [x01] 3 (replicate 9 x07) mem0) as (r & s' & Hr & Ho);
    [by vm_compute|by vm_compute|done|by vm_compute|done|].
  exists r, s'. split; [exact Hr|]. split; [|exact Ho].
  assert (E : fst <$> nfs_MWrite ng0 [x01] 3 (replicate 9 x07) 9 mem0 = Some (IoDone 9 12))
    by (vm_compute; reflexivity).
  change (zlen (replicate 9 x07)) with 9 in Hr. rewrite Hr in E. by injection E.
Defined.

Lemma nfs_MAWrite_stores_witness :
  exists r s', nfs_MAWrite ng0 [x01] 3 (replicate 19 x07) 19 mem0 = Some (r, s') /\
    r = IoDone 19 22 /\ write_outcome [x01] 3 (replicate 19 x07) mem0 r s'.
Proof.
  destruct (nfs_MAWrite_stores ng0 [x01] 3 (replicate 19 x07) mem0) as (r & s' & Hr & Ho);
    [by vm_compute|by vm_compute|by vm_compute|done|by vm_compute|done|].
  exists r, s'. split; [exact Hr|]. split; [|exact Ho].
  assert (E : fst <$> nfs_MAWrite ng0 [x01] 3 (replicate 19 x07) 19 mem0 = Some (IoDone 19 22))
    by (vm_compute; reflexivity).
  change (zlen (replicate 19 x07)) with 19 in Hr. rewrite Hr in E. by injection E.
Defined.

Lemma nfs_MRead_reads_witness :
  exists r buf s', nfs_MRead ng0 [x01] 3 9 mem0 = Some (r, buf, s') /\
    r = IoDone 7 10 /\ bytes_at mem0 [x01] 3 buf.
Proof.
  destruct (nfs_MRead_reads ng0 [x01] 3 9 mem0) as (r & buf & s' & Hr & _ & _ & Ho);
    [done|done|done|by split|].
  assert (E : fst <$> nfs_MRead ng0 [x01] 3 9 mem0 = Some (IoDone 7 10, replicate 7 x00))
    by (vm_compute; reflexivity).
  rewrite Hr in E. injection E as -> ->.
  exists (IoDone 7 10), (replicate 7 x00), s'. split; [exact Hr|]. split; [done|].
  by apply (Ho 7 10).
Defined.
