(* ===== verification/NfsRead.v ===== *)
(** * The asynchronous read (nfs_MARead of nfs.c)

    nfs_MARead keeps a window of read requests under way, each in a slot of the
    array [rhs], and stores what a reply brings where the request it belongs to
    wants it, so that the replies may come in any order.  act_READ calls it when
    the read buffer is compiled out (BUFREAD, read.c).  The two stubs it needs
    are the interface [NfsReadRpc] (Stubs.v has them over the transport; that they keep
    the laws there is not shown); what it relies on of the server is
    [NfsReadServer], of which [ReadBox], a memory server with read requests
    queued, is an instance.

    The theorem is that a transfer gives exactly the bytes that the file has in
    the range, or fails.  [overtaking_reply_fails] shows a failure that is not the
    server's: a reply from beyond the end of the file that comes before the one
    from the block that has the end in it. *)
From Stdlib Require Import Ascii.
From S2P Require Import Prelude NfsProt NfsSupp Nfs NfsServer.

(** ** The stubs *)

(** A request carries a [void *userdata], here the index of its slot, that comes
    back with the reply. *)
Class NfsReadRpc (S : Type) `{NfsRpc S} := {
  nfsproc_send_read_buf : readargs -> Z -> S -> option Z * S;
  nfsproc_wait_read_buf : S -> rpc (readres * Z) * S
}.

Definition RNUMASYNC : Z := 5.

(** A slot: the request and where in [Buf] its data goes ([res] has the pointer). *)
Record rargsent := RArgSent { used : bool; rargs : readargs; rbuf : Z }.

Definition set_used (u : bool) (r : rargsent) : rargsent := RArgSent u (rargs r) (rbuf r).

(** The local variables of nfs_MARead.  [mr_Buf] is the memory the argument [Buf]
    points to, [mr_pos] how far the pointer [Buf] has advanced in it. *)
Record maread := MARead {
  mr_offset : Z; mr_pos : Z; mr_count : Z; mr_TotLen : Z; mr_rhs : list rargsent;
  mr_numpending : Z; mr_queue : Z; mr_reading : bool; mr_eof : bool;
  mr_UpperOffs : Z; mr_FileLen : Z; mr_Buf : list byte
}.

Section MARead.
Context {S : Type} `{NfsReadRpc S}.

(** What a reply with [len] bytes to a request of [cnt] from [off] does to
    [eof], [reading] and [UpperOffs]; [None] when the read fails. *)
Definition raise_eof (len : Z) (a : readargs) (m : maread) : option (bool * bool * Z) :=
  if len <? ra_count a then
    if mr_eof m then
      if len =? 0 then Some (mr_eof m, mr_reading m, mr_UpperOffs m) else None
    else Some (true, false, s32 (u32 (ra_offset a + ra_count a - 1)))
  else Some (mr_eof m, mr_reading m, mr_UpperOffs m).

(** The first [if] of the loop: wait for a reply and take it. *)
Definition maread_wait (m : maread) (s : S) : option ((Z + maread) * S) :=
  let '(res, s) := nfsproc_wait_read_buf s in
  match res with
  | inl c => Some (inl (CLIENT2IoErr c), clnt_abort s)
  | inr (res, userdata) =>
      rh ← arr_get (mr_rhs m) userdata;
      rhs ← arr_set (mr_rhs m) userdata (set_used false rh);
      match res with
      | NfsErr st =>
          if mr_eof m || (ra_offset (rargs rh) <=? u32 (mr_UpperOffs m))
          then Some (inl (NFSErr2IoErrCont st "r"), clnt_abort s)
          else Some (inr (MARead (mr_offset m) (mr_pos m) (mr_count m) (mr_TotLen m) rhs
                 (mr_numpending m - 1) (mr_queue m) (mr_reading m) (mr_eof m)
                 (mr_UpperOffs m) (mr_FileLen m) (mr_Buf m)), s)
      | NfsOk r =>
          Buf ← copy_at (mr_Buf m) (rbuf rh) (ro_data r);
          match raise_eof (zlen (ro_data r)) (rargs rh) m with
          | None => Some (inl ERROR_OBJECT_NOT_FOUND, clnt_abort s)
          | Some (eof, reading, UpperOffs) =>
              Some (inr (MARead (mr_offset m) (mr_pos m) (mr_count m)
                (s32 (mr_TotLen m + zlen (ro_data r))) rhs (mr_numpending m - 1) (mr_queue m)
                reading eof UpperOffs
                (s32 (Z.max (u32 (mr_FileLen m)) (fa_size (ro_attributes r)))) Buf), s)
          end
      end
  end.

(** [do ... while(i<0)]: look for a free slot from [queue] on, for ever if there is
    none; gives the slot's index and the new [queue]. *)
Fixpoint free_entry (fuel : nat) (rhs : list rargsent) (queue : Z) : option (Z * Z) :=
  match fuel with
  | O => None
  | Datatypes.S fuel =>
      r ← arr_get rhs queue;
      let queue' := if queue + 1 >=? RNUMASYNC then 0 else queue + 1 in
      if used r then free_entry fuel rhs queue' else Some (queue, queue')
  end.

(** The second [if] of the loop: send the next request. *)
Definition maread_send (MaxRead : Z) (fh : nfs_fh) (m : maread) (s : S)
  : option ((Z + maread) * S) :=
  '(i, queue) ← free_entry (Z.to_nat RNUMASYNC) (mr_rhs m) (mr_queue m);
  let Len := if mr_count m <? MaxRead then mr_count m else MaxRead in
  let a := ReadArgs fh (mr_offset m) Len junk_u_int in
  let '(ok, s) := nfsproc_send_read_buf a i s in
  match ok with
  | Some c => Some (inl (CLIENT2IoErr c), clnt_abort s)
  | None =>
      rhs ← arr_set (mr_rhs m) i (RArgSent true a (mr_pos m));
      let count := u32 (mr_count m - Len) in
      Some (inr (MARead (u32 (mr_offset m + Len)) (mr_pos m + Len) count (mr_TotLen m) rhs
        (mr_numpending m + 1) queue (negb (count =? 0)) (mr_eof m) (mr_UpperOffs m)
        (mr_FileLen m) (mr_Buf m)), s)
  end.

(** Whether an iteration waits: the window is full, or nothing is left to send. *)
Definition must_wait (NumRPCs : Z) (m : maread) : bool :=
  (mr_reading m && (mr_numpending m >=? NumRPCs)) ||
  (negb (mr_reading m) && negb (mr_numpending m =? 0)).

(** The body of [while(reading || numpending)]. *)
Definition maread_step (MaxRead NumRPCs : Z) (fh : nfs_fh) (m : maread) (s : S)
  : option ((Z + maread) * S) :=
  '(r, s) ← (if must_wait NumRPCs m then maread_wait m s else Some (inr m, s));
  match r with
  | inl e => Some (inl e, s)
  | inr m => if mr_reading m then maread_send MaxRead fh m s else Some (inr m, s)
  end.

Fixpoint maread_loop (fuel : nat) (MaxRead NumRPCs : Z) (fh : nfs_fh) (m : maread) (s : S)
  : option ((Z + maread) * S) :=
  match fuel with
  | O => None
  | Datatypes.S fuel =>
      if mr_reading m || negb (mr_numpending m =? 0) then
        '(r, s) ← maread_step MaxRead NumRPCs fh m s;
        match r with
        | inl e => Some (inl e, s)
        | inr m => maread_loop fuel MaxRead NumRPCs fh m s
        end
      else Some (inr m, s)
  end.

(** [Buf0] is what is in the memory at [Buf] when the function is called. *)
Definition maread_start (fh : nfs_fh) (offset count : Z) (Buf0 : list byte) : maread :=
  MARead offset 0 count 0
    (replicate (Z.to_nat RNUMASYNC) (RArgSent false (ReadArgs fh junk_u_int junk_u_int junk_u_int) 0))
    0 0 true false (-1) 0 Buf0.

(** Also gives the memory at [Buf]. *)
Definition nfs_MARead (ng : NFSGlobal_T) (fh : nfs_fh) (offset : Z) (Buf0 : list byte) (count : Z)
  (s : S) : option (io_res * list byte * S) :=
  '(r, s) ← maread_loop (3 + 2 * Z.to_nat count) (Z.min (ng_MaxReadSize ng) NFS_MAXDATA)
    (ng_NumRRPCs ng) fh (maread_start fh offset count Buf0) s;
  match r with
  | inl Res2 => Some (IoFail Res2, [], s)
  | inr m => Some (IoDone (mr_TotLen m) (mr_FileLen m), mr_Buf m, s)
  end.
End MARead.

(** ** What the read relies on of the server *)

(** [ro] is a reply to [a]: bytes of the file, fewer than were asked for only where
    the file ends. *)
Definition read_reply (size : Z) (c : Z -> byte) (a : readargs) (ro : readokres) : Prop :=
  zlen (ro_data ro) <= Z.max 0 (ra_count a) /\
  (forall i b, ro_data ro !! i = Some b -> b = c (ra_offset a + Z.of_nat i)) /\
  (zlen (ro_data ro) < ra_count a -> size <= ra_offset a + zlen (ro_data ro)) /\
  (0 < zlen (ro_data ro) -> ra_offset a + zlen (ro_data ro) <= size) /\
  fa_size (ro_attributes ro) = size.

(** [reads] are the requests under way; no request changes a file. *)
Class NfsReadServer (S : Type) `{NfsFileServer S} `{!NfsReadRpc S} := {
  file_size : S -> nfs_fh -> Z;
  reads : S -> list (readargs * Z);
  send_read_law a u s r s' :
    nfsproc_send_read_buf a u s = (r, s') -> idle s ->
    idle s' /\ contents s' = contents s /\ file_size s' = file_size s /\
    reads s' = match r with None => reads s ++ [(a, u)] | Some _ => reads s end;
  wait_read_law s r s' :
    nfsproc_wait_read_buf s = (r, s') -> idle s ->
    idle s' /\ contents s' = contents s /\ file_size s' = file_size s /\
    (forall res u, r = inr (res, u) ->
       exists l1 a l2, reads s = l1 ++ (a, u) :: l2 /\ reads s' = l1 ++ l2 /\
         forall ro, res = NfsOk ro ->
           read_reply (file_size s (ra_file a)) (contents s (ra_file a)) a ro);
  abort_read_law s : idle s ->
    idle (clnt_abort s) /\ contents (clnt_abort s) = contents s /\
    file_size (clnt_abort s) = file_size s /\ reads (clnt_abort s) = []
}.

(** ** Sums over the slots *)

Definition slot_sum (f : rargsent -> Z) (rhs : list rargsent) : Z :=
  foldr (fun r n => (if used r then f r else 0) + n) 0 rhs.

Lemma slot_sum_insert f rhs i x y :
  rhs !! i = Some x ->
  slot_sum f (<[i := y]> rhs) =
    slot_sum f rhs - (if used x then f x else 0) + (if used y then f y else 0).
Proof.
  revert i. induction rhs as [|r rhs IH]; intros [|i] Hx; simplify_eq/=; [lia|].
  rewrite (IH _ Hx). lia.
Qed.

Lemma slot_sum_free f rhs : (forall i r, rhs !! i = Some r -> used r = false) -> slot_sum f rhs = 0.
Proof.
  induction rhs as [|r rhs IH]; intros Hr; simpl; [done|].
  rewrite (Hr 0%nat r eq_refl), IH; [lia|]. intros i r' Hi. by apply (Hr (Datatypes.S i) r').
Qed.

Lemma slot_sum_one_bound rhs : 0 <= slot_sum (fun _ => 1) rhs <= zlen rhs.
Proof. induction rhs as [|r rhs IH]; simpl; [done|]. rewrite zlen_cons. destruct (used r); lia. Qed.

Lemma slot_sum_one_zero rhs i r :
  slot_sum (fun _ => 1) rhs = 0 -> rhs !! i = Some r -> used r = false.
Proof.
  revert i. induction rhs as [|r' rhs IH]; intros [|i] H0 Hr; simplify_eq/=;
    pose proof (slot_sum_one_bound rhs); [destruct (used r); [lia|done]|].
  eapply IH, Hr. destruct (used r'); lia.
Qed.

(** Not every slot is in use while fewer requests are under way. *)
Lemma slot_free_exists rhs :
  slot_sum (fun _ => 1) rhs < zlen rhs ->
  exists i r, rhs !! i = Some r /\ used r = false.
Proof.
  induction rhs as [|r rhs IH]; simpl; intros Hl; [by vm_compute in Hl|].
  rewrite zlen_cons in Hl. destruct (used r) eqn:E; [|by exists 0%nat, r].
  destruct IH as (i & r' & Hi & Hr); [lia|]. by exists (Datatypes.S i), r'.
Qed.

Lemma arr_get_Some {A} (l : list A) i x : arr_get l i = Some x -> 0 <= i /\ l !! Z.to_nat i = Some x.
Proof. unfold arr_get. destruct (0 <=? i) eqn:E; [|done]. zbool. done. Qed.

Lemma arr_set_lookup {A} (l : list A) i x y :
  0 <= i -> l !! Z.to_nat i = Some x -> arr_set l i y = Some (<[Z.to_nat i := y]> l).
Proof.
  intros Hi Hl. apply lookup_lt_Some in Hl. unfold arr_set.
  by rewrite (proj2 (Z.leb_le _ _)), (proj2 (Z.ltb_lt _ _)) by lia.
Qed.

(** The search for a free slot ends at one, when there is one [d] slots ahead. *)
Lemma free_entry_ends rhs : zlen rhs = RNUMASYNC -> forall (d fuel : nat) queue r,
  (d < fuel)%nat -> 0 <= queue < RNUMASYNC ->
  arr_get rhs ((queue + Z.of_nat d) mod RNUMASYNC) = Some r -> used r = false ->
  exists i queue' r', free_entry fuel rhs queue = Some (i, queue') /\
    0 <= queue' < RNUMASYNC /\ arr_get rhs i = Some r' /\ used r' = false.
Proof.
  intros Hlen d. unfold RNUMASYNC in *. induction d as [|d IH]; intros [|fuel] queue r Hd Hq Hr Hu; try lia; simpl.
  all: destruct (arr_get rhs queue) as [r0|] eqn:E; simpl.
  2,4: unfold arr_get in E; rewrite (proj2 (Z.leb_le _ _)) in E by lia;
    apply lookup_ge_None in E; unfold zlen in Hlen; lia.
  - rewrite Z.add_0_r, Z.mod_small, E in Hr by lia. injection Hr as ->. rewrite Hu.
    eexists _, _, r. split; [done|]. split; [|done]. destruct (_ >=? _) eqn:E1; zbool; unfold RNUMASYNC in E1; lia.
  - set (queue' := if queue + 1 >=? RNUMASYNC then 0 else queue + 1).
    assert (Hq' : queue' = (queue + 1) mod 5).
    { unfold queue'. destruct (_ >=? _) eqn:E1; zbool; unfold RNUMASYNC in E1;
        [by replace queue with 4 by lia|rewrite Z.mod_small; lia]. }
    destruct (used r0) eqn:Eu.
    + apply (IH fuel queue' r); [lia|rewrite Hq'; apply Z.mod_pos_bound; lia| |done].
      rewrite Hq', Zplus_mod_idemp_l. replace (queue + 1 + Z.of_nat d) with (queue + Z.of_nat (Datatypes.S d)) by lia.
      done.
    + exists queue, queue', r0. split; [done|]. split; [rewrite Hq'; apply Z.mod_pos_bound; lia|done].
Qed.

Lemma free_entry_found rhs queue :
  zlen rhs = RNUMASYNC -> 0 <= queue < RNUMASYNC -> slot_sum (fun _ => 1) rhs < RNUMASYNC ->
  exists i queue' r, free_entry (Z.to_nat RNUMASYNC) rhs queue = Some (i, queue') /\
    0 <= queue' < RNUMASYNC /\ arr_get rhs i = Some r /\ used r = false.
Proof.
  intros Hlen Hq Hs. destruct (slot_free_exists rhs) as (i & r & Hi & Hr); [lia|].
  apply lookup_lt_Some in Hi as Hl. unfold zlen, RNUMASYNC in *.
  pose proof (Z.mod_pos_bound (Z.of_nat i - queue) 5 ltac:(lia)).
  apply (free_entry_ends rhs Hlen (Z.to_nat ((Z.of_nat i - queue) mod 5)) _ _ r); [lia|done| |done].
  unfold RNUMASYNC. rewrite Z2Nat.id, Zplus_mod_idemp_r by lia.
  replace (queue + (Z.of_nat i - queue)) with (Z.of_nat i) by lia. rewrite Z.mod_small by lia.
  unfold arr_get. rewrite (proj2 (Z.leb_le _ _)), Nat2Z.id by lia. done.
Qed.

(** ** The invariant of the transfer *)

Section Transfer.
Context {S : Type} `{HS : NfsReadServer S}.
Variables (fh : nfs_fh) (off0 count0 : Z) (s0 : S).
Hypothesis Hoff : 0 <= off0.
Hypothesis Hcount : 0 <= count0 < 2 ^ 31.
Hypothesis Hend : off0 + count0 < 2 ^ 32.
Let size := file_size s0 fh.
Hypothesis Hsize : 0 <= size < 2 ^ 31.

(** How many of the [n] bytes from position [p] of the transfer the file has. *)
Definition in_file (p n : Z) : Z := Z.max 0 (Z.min n (size - (off0 + p))).

(** The server is as it was before the transfer. *)
Definition same_files (s : S) : Prop :=
  idle s /\ contents s = contents s0 /\ file_size s = file_size s0.

Definition slot_bytes (r : rargsent) : Z := in_file (rbuf r) (ra_count (rargs r)).

(** A request under way is for a part of what was sent. *)
Definition slot_ok (pos : Z) (r : rargsent) : Prop :=
  ra_file (rargs r) = fh /\ ra_offset (rargs r) = off0 + rbuf r /\
  0 <= rbuf r /\ 0 <= ra_count (rargs r) /\ rbuf r + ra_count (rargs r) <= pos.

Definition in_slot (p : Z) (r : rargsent) : Prop :=
  used r = true /\ rbuf r <= p < rbuf r + ra_count (rargs r).

(** The slots in use and the requests under way are in bijection. *)
Record slots_inv (rhs : list rargsent) (numpending pos : Z) (q : list (readargs * Z)) : Prop := {
  sl_length : zlen rhs = RNUMASYNC;
  sl_ok : forall i r, rhs !! i = Some r -> used r = true -> slot_ok pos r;
  sl_reads : forall a u, (a, u) ∈ q ->
  exists r, arr_get rhs u = Some r /\ used r = true /\ rargs r = a;
  sl_distinct : NoDup (q.*2);
  sl_pending : zlen q = numpending;
  sl_used : slot_sum (fun _ => 1) rhs = numpending
}.

Record mr_inv (m : maread) (s : S) : Prop := {
  mi_files : same_files s;
  mi_slots : slots_inv (mr_rhs m) (mr_numpending m) (mr_pos m) (reads s);
  mi_queue : 0 <= mr_queue m < RNUMASYNC;
  mi_pos : 0 <= mr_pos m /\ 0 <= mr_count m /\ mr_pos m + mr_count m = count0;
  mi_offset : mr_offset m = off0 + mr_pos m;
  mi_Buf : zlen (mr_Buf m) = count0;
  mi_TotLen : 0 <= mr_TotLen m /\
  mr_TotLen m + slot_sum slot_bytes (mr_rhs m) = in_file 0 (mr_pos m);
  mi_bytes : forall p, 0 <= p < in_file 0 (mr_pos m) ->
  (forall i r, mr_rhs m !! i = Some r -> ~ in_slot p r) ->
  mr_Buf m !! Z.to_nat p = Some (contents s0 fh (off0 + p));
  mi_stopped : mr_reading m = false -> mr_count m = 0 \/ size <= off0 + mr_pos m;
  mi_Upper : mr_eof m = false -> mr_UpperOffs m = -1;
  mi_FileLen : mr_FileLen m = size \/ mr_FileLen m = 0 /\ mr_TotLen m = 0
}.

Lemma in_file_split p n :
  0 <= p -> 0 <= n -> in_file 0 (p + n) = in_file 0 p + in_file p n.
Proof. unfold in_file. lia. Qed.

Lemma slot_bytes_nonneg rhs : 0 <= slot_sum slot_bytes rhs.
Proof.
  induction rhs as [|r rhs IH]; simpl; [done|].
  assert (0 <= slot_bytes r) by (unfold slot_bytes, in_file; lia). destruct (used r); lia.
Qed.

Lemma read_reply_length a ro p c :
  read_reply size c a ro -> 0 <= ra_count a -> ra_offset a = off0 + p -> zlen (ro_data ro) = in_file p (ra_count a).
Proof.
  intros (H1' & _ & H3 & H4 & _) Hc Ha. unfold in_file. rewrite Ha in H3, H4.
  pose proof (zlen_nonneg (ro_data ro)). lia.
Qed.

(** ** Sending *)

Lemma slots_inv_send rhs numpending pos q i r n :
  slots_inv rhs numpending pos q -> arr_get rhs i = Some r -> used r = false ->
  0 <= pos -> 0 <= n ->
  let a := ReadArgs fh (off0 + pos) n junk_u_int in
  slots_inv (<[Z.to_nat i := RArgSent true a pos]> rhs) (numpending + 1) (pos + n) (q ++ [(a, i)]).
Proof.
  intros [Hl Hok Hr Hd Hp Hu] Hi Hfree H0' Hn a. apply arr_get_Some in Hi as Hi'. destruct Hi' as [Hge Hi'].
  constructor.
  - unfold zlen in *. by rewrite length_insert.
  - intros j x Hj Hx. destruct (decide (j = Z.to_nat i)) as [->|Hne].
    + rewrite list_lookup_insert_eq in Hj by (by eapply lookup_lt_Some). injection Hj as <-.
      unfold slot_ok; simpl. split_and!; (done || lia).
    + rewrite list_lookup_insert_ne in Hj by done. destruct (Hok _ _ Hj Hx) as (?&?&?&?&?).
      unfold slot_ok. split_and!; (done || lia).
  - intros b u [Hb|Hb]%elem_of_app.
    + destruct (Hr _ _ Hb) as (x & Hx & Hux & Hax). exists x. split; [|done].
      apply arr_get_Some in Hx as [Hu0 Hx]. unfold arr_get. rewrite (proj2 (Z.leb_le _ _)) by done.
      rewrite list_lookup_insert_ne; [done|]. intros E. rewrite E in Hi'. congruence.
    + apply list_elem_of_singleton in Hb. injection Hb as -> ->. eexists. unfold arr_get.
      rewrite (proj2 (Z.leb_le _ _)), list_lookup_insert_eq by (done || by eapply lookup_lt_Some). done.
  - rewrite fmap_app. apply NoDup_app. split_and!; [done| |apply NoDup_singleton].
    intros u ([b u'] & -> & Hb)%list_elem_of_fmap Hx. apply list_elem_of_singleton in Hx. simpl in Hx.
    destruct (Hr _ _ Hb) as (x & Hx' & Hux & _). subst u'. congruence.
  - zlia.
  - rewrite (slot_sum_insert _ _ _ _ _ Hi'), Hfree; simpl. lia.
Qed.

Lemma maread_send_ok MaxRead m s :
  1 <= MaxRead -> mr_inv m s -> mr_numpending m < RNUMASYNC ->
  exists r s', maread_send MaxRead fh m s = Some (r, s') /\
    match r with
    | inl _ => same_files s' /\ reads s' = []
    | inr m' => mr_inv m' s' /\ mr_numpending m' = mr_numpending m + 1 /\
        (if mr_reading m' then mr_count m' < mr_count m /\ 0 < mr_count m' else True)
    end.
Proof.
  intros HM [Hf Hs Hq Hpos Ho HB HT Hb Hst HU HF] Hn. unfold maread_send.
  destruct (free_entry_found (mr_rhs m) (mr_queue m)) as (i & queue & r & -> & Hq' & Hi & Hfree);
    [apply Hs|done|by rewrite (sl_used _ _ _ _ Hs)|]. cbn [mbind option_bind].
  set (Len := if mr_count m <? MaxRead then mr_count m else MaxRead).
  assert (HLen : 0 <= Len <= mr_count m /\ (mr_count m = 0 \/ 1 <= Len))
    by (unfold Len; destruct (_ <? _) eqn:E; zbool; lia).
  destruct (nfsproc_send_read_buf _ i s) as [ok s1] eqn:Es.
  destruct Hf as (Hidle & Hc & Hfs).
  destruct (send_read_law _ _ _ _ _ Es Hidle) as (Hi1 & Hc1 & Hf1 & Hr1).
  destruct ok as [c|].
  { destruct (abort_read_law s1 Hi1) as (?&?&?&?). eexists _, _. split; [done|].
    split; [split_and!; [done|congruence|congruence]|done]. }
  apply arr_get_Some in Hi as Hi'. destruct Hi' as [Hge Hi'].
  rewrite (arr_set_lookup _ _ _ _ Hge Hi'). cbn [mbind option_bind]. rewrite !u32_id by lia.
  eexists _, _. split; [done|]. simpl. split_and!; [|done|destruct (_ =? 0) eqn:E; zbool; simpl; [done|lia]].
  constructor; simpl; try done; try lia.
  - split_and!; [done|congruence|congruence].
  - rewrite Hr1, Ho. by eapply slots_inv_send; [| | |lia|lia].
  - split; [lia|]. rewrite (slot_sum_insert _ _ _ _ _ Hi'), Hfree, in_file_split by lia. simpl. unfold slot_bytes at 2; simpl. lia.
  - intros p Hp Hin.
    assert (~ (mr_pos m <= p < mr_pos m + Len)).
    { intros Hp'. eapply Hin; [apply list_lookup_insert_eq; by eapply lookup_lt_Some|]. done. }
    apply Hb; [unfold in_file in *; lia|]. intros j x Hj Hx.
    destruct (decide (j = Z.to_nat i)) as [->|Hne].
    + destruct Hx as [Hx _]. congruence.
    + by apply (Hin j x); [rewrite list_lookup_insert_ne by done|].
Qed.

(** ** Taking a reply *)

Lemma slots_inv_reply rhs numpending pos l1 a u l2 :
  slots_inv rhs numpending pos (l1 ++ (a, u) :: l2) ->
  exists r, arr_get rhs u = Some r /\ used r = true /\ rargs r = a /\ slot_ok pos r /\
    arr_set rhs u (set_used false r) = Some (<[Z.to_nat u := set_used false r]> rhs) /\
    slots_inv (<[Z.to_nat u := set_used false r]> rhs) (numpending - 1) pos (l1 ++ l2).
Proof.
  intros [Hl Hok Hr Hd Hp Hu]. destruct (Hr a u) as (r & Hi & Hur & Hra);
    [apply elem_of_app; right; by left|].
  apply arr_get_Some in Hi as Hi'. destruct Hi' as [Hge Hi'].
  exists r. split_and!; [done..|by eapply Hok|by eapply arr_set_lookup|]. constructor.
  - unfold zlen in *. by rewrite length_insert.
  - intros j x Hj Hx. destruct (decide (j = Z.to_nat u)) as [->|Hne].
    + rewrite list_lookup_insert_eq in Hj by (by eapply lookup_lt_Some). by injection Hj as <-.
    + rewrite list_lookup_insert_ne in Hj by done. by eapply Hok.
  - intros b v Hb. assert (v <> u).
    { intros ->. rewrite fmap_app in Hd. simpl in Hd. apply NoDup_app in Hd as (_ & Hd1 & Hd2).
      apply NoDup_cons in Hd2 as [Hd2 _]. apply elem_of_app in Hb as [Hb'|Hb'].
      - apply (Hd1 u); [by apply (list_elem_of_fmap_2 snd _ (b, u))|by left].
      - apply Hd2. by apply (list_elem_of_fmap_2 snd _ (b, u)). }
    destruct (Hr b v) as (x & Hx & Hux & Hbx).
    { rewrite elem_of_app, elem_of_cons. apply elem_of_app in Hb. tauto. }
    exists x. split; [|done].
    apply arr_get_Some in Hx as [Hv Hx]. unfold arr_get. rewrite (proj2 (Z.leb_le _ _)) by done.
    rewrite list_lookup_insert_ne; [done|lia].
  - rewrite fmap_app in *. simpl in Hd. eapply sublist_NoDup; [exact Hd|].
    apply sublist_app; [done|by constructor].
  - zlia.
  - rewrite (slot_sum_insert _ _ _ _ _ Hi'), Hur. simpl. lia.
Qed.

(** What the data of a reply does to the memory at [Buf]. *)
Lemma reply_stored (Buf Buf' : list byte) b n data c p :
  0 <= b -> copy_at Buf b data = Some Buf' -> 
  (forall i x, data !! i = Some x -> x = c (off0 + b + Z.of_nat i)) ->
  zlen data = in_file b n -> 0 <= p -> 0 <= off0 + p < size -> 
  (~ (b <= p < b + n) -> Buf !! Z.to_nat p = Some (c (off0 + p))) ->
  Buf' !! Z.to_nat p = Some (c (off0 + p)).
Proof.
  intros Hb Hcp Hd Hl Hp Hps Hold. unfold copy_at in Hcp. destruct (_ && _) eqn:E; [|done].
  apply andb_true_iff in E as [_ E]. zbool. injection Hcp as <-.
  destruct (decide (b <= p < b + zlen data)) as [Hin|Hout].
  - rewrite lookup_app_r by (rewrite length_take; lia).
    rewrite lookup_app_l by (rewrite length_take; unfold zlen in *; lia).
    destruct (lookup_lt_is_Some_2 data (Z.to_nat p - length (take (Z.to_nat b) Buf))) as [x Hx].
    { rewrite length_take. unfold zlen in *. lia. }
    rewrite Hx, (Hd _ _ Hx). do 2 f_equal. rewrite length_take. unfold zlen in *. lia.
  - rewrite <-Hold by (unfold in_file in *; lia). destruct (decide (p < b)).
    + rewrite lookup_app_l by (rewrite length_take; unfold zlen in *; lia).
      by rewrite lookup_take_lt by lia.
    + rewrite !lookup_app_r by (rewrite ?length_take; unfold zlen in *; lia).
      rewrite lookup_drop. f_equal. rewrite length_take. unfold zlen in *. lia.
Qed.

(** While no short reply came [UpperOffs] is -1, which as an unsigned number is the
    largest: the test lets no error pass, before the end of the file or beyond. *)
Lemma read_error_fails m off :
  (mr_eof m = false -> mr_UpperOffs m = -1) -> off < 2 ^ 32 ->
  mr_eof m || (off <=? u32 (mr_UpperOffs m)) = true.
Proof.
  intros HU Ho. destruct (mr_eof m); [done|]. rewrite (HU eq_refl). simpl. apply Z.leb_le.
  change (u32 (-1)) with (2 ^ 32 - 1). lia.
Qed.

Lemma raise_eof_ok len a m eof reading UpperOffs :
  raise_eof len a m = Some (eof, reading, UpperOffs) ->
  (mr_eof m = false -> mr_UpperOffs m = -1) -> (len < ra_count a -> size <= ra_offset a + len) ->
  ra_offset a + len <= off0 + mr_pos m ->
  (reading = true -> mr_reading m = true) /\ (eof = false -> UpperOffs = -1) /\
  (reading = false -> mr_reading m = false \/ size <= off0 + mr_pos m).
Proof.
  intros Er HU Hshort Hpos. unfold raise_eof in Er.
  destruct (_ <? _) eqn:E; zbool; [|injection Er as <- <- <-; tauto].
  destruct (mr_eof m) eqn:Ee; [destruct (_ =? 0); [|done]; injection Er as <- <- <-; tauto|].
  injection Er as <- <- <-. split_and!; [done|done|]. right. specialize (Hshort E). lia.
Qed.

Lemma maread_wait_ok m s :
  mr_inv m s ->
  exists r s', maread_wait m s = Some (r, s') /\
    match r with
    | inl _ => same_files s' /\ reads s' = []
    | inr m' => mr_inv m' s' /\ mr_numpending m' = mr_numpending m - 1 /\
        mr_count m' = mr_count m /\ (mr_reading m' = true -> mr_reading m = true)
    end.
Proof.
  intros [Hf Hs Hq Hpos Ho HB HT Hb Hst HU HF]. unfold maread_wait.
  destruct (nfsproc_wait_read_buf s) as [res s1] eqn:Ew. destruct Hf as (Hidle & Hc & Hfs).
  destruct (wait_read_law _ _ _ Ew Hidle) as (Hi1 & Hc1 & Hf1 & Hr1).
  destruct (abort_read_law s1 Hi1) as (Hi2 & Hc2 & Hf2 & Hr2).
  assert (Hstop : same_files (clnt_abort s1) /\ reads (clnt_abort s1) = [])
    by (split; [split_and!; [done|congruence|congruence]|done]).
  destruct res as [c|[res u]]; [by eexists _, _|].
  destruct (Hr1 _ _ eq_refl) as (l1 & a & l2 & Hq0 & Hq1 & Hro). rewrite Hq0 in Hs.
  destruct (slots_inv_reply _ _ _ _ _ _ _ Hs) as (rh & Hrh & Hur & Hra & (Hfh & Hao & Hb0 & Hc0 & Hbc) & Hset & Hs').
  rewrite Hrh. cbn [mbind option_bind]. rewrite Hset. cbn [mbind option_bind].
  destruct res as [ro|st].
  2:{ rewrite read_error_fails by (done || lia). by eexists _, _. }
  specialize (Hro _ eq_refl). rewrite <-Hra, Hfh, Hc, Hfs in Hro. fold size in Hro.
  pose proof (read_reply_length _ _ _ _ Hro Hc0 Hao) as Hlen. destruct Hro as (_ & Hby & Hshort & _ & Hattr).
  destruct (copy_at_Some (mr_Buf m) (rbuf rh) (ro_data ro)) as (Buf' & HBuf' & HlB & _); [lia|unfold in_file in *; lia|].
  rewrite HBuf'. cbn [mbind option_bind].
  apply arr_get_Some in Hrh as [Hge Hrh].
  pose proof (slot_sum_insert slot_bytes _ _ _ (set_used false rh) Hrh) as Hsum. rewrite Hur in Hsum. simpl in Hsum.
  pose proof (slot_bytes_nonneg (<[Z.to_nat u := set_used false rh]> (mr_rhs m))) as Hnn.
  unfold slot_bytes at 3 in Hsum. rewrite <-Hlen in Hsum. pose proof (zlen_nonneg (ro_data ro)).
  destruct (raise_eof _ _ m) as [[[eof reading] UpperOffs]|] eqn:Er; [|by eexists _, _].
  destruct (raise_eof_ok _ _ _ _ _ _ Er HU Hshort ltac:(unfold in_file in *; lia)) as (He1 & He2 & He3).
  eexists _, _. split; [done|]. simpl. split_and!; [|done|done|done].
  assert (mr_TotLen m + zlen (ro_data ro) <= count0) by (unfold in_file in *; lia).
  constructor; simpl; try done.
  - split_and!; [done|congruence|congruence].
  - by rewrite Hq1.
  - unfold zlen in *. lia.
  - rewrite s32_id by lia. lia.
  - intros p Hp Hin. eapply (reply_stored (mr_Buf m) Buf' (rbuf rh) (ra_count (rargs rh)) _ (contents s0 fh)); try done.
    + intros i x Hx. rewrite (Hby _ _ Hx). f_equal. lia.
    + lia.
    + unfold in_file in Hp. lia.
    + intros Hout. apply Hb; [done|]. intros j x Hj Hx.
      destruct (decide (j = Z.to_nat u)) as [->|Hne].
      * rewrite Hrh in Hj. injection Hj as <-. by destruct Hx.
      * by apply (Hin j x); [rewrite list_lookup_insert_ne by done|].
  - intros Hrd. destruct (He3 Hrd); auto.
  - left. rewrite Hattr. destruct HF as [->|[-> _]]; [rewrite u32_id by lia|change (u32 0) with 0]; rewrite Z.max_r by lia; apply s32_id; lia.
Qed.
(** ** The loop *)

(** Every iteration sends or takes a reply, so this becomes smaller. *)
Definition mr_todo (m : maread) : Z :=
  (if mr_reading m then 2 * Z.max 1 (mr_count m) else 0) + mr_numpending m.

Lemma mr_inv_pending m s : mr_inv m s -> 0 <= mr_numpending m <= RNUMASYNC.
Proof.
  intros Hi. destruct (mi_slots _ _ Hi) as [Hl _ _ _ _ Hu]. rewrite <-Hu, <-Hl.
  apply slot_sum_one_bound.
Qed.

Lemma maread_step_ok MaxRead NumRPCs m s :
  1 <= MaxRead -> 1 <= NumRPCs <= RNUMASYNC -> mr_inv m s ->
  mr_reading m || negb (mr_numpending m =? 0) = true ->
  exists r s', maread_step MaxRead NumRPCs fh m s = Some (r, s') /\
    match r with
    | inl _ => same_files s' /\ reads s' = []
    | inr m' => mr_inv m' s' /\ mr_todo m' < mr_todo m
    end.
Proof.
  intros HM HN Hi Hgo. unfold maread_step. pose proof (mr_inv_pending _ _ Hi) as Hp.
  assert (Hsend : forall m s, mr_inv m s -> mr_reading m = true -> mr_numpending m < RNUMASYNC ->
    exists r s', maread_send MaxRead fh m s = Some (r, s') /\
    match r with
    | inl _ => same_files s' /\ reads s' = []
    | inr m' => mr_inv m' s' /\ mr_todo m' < mr_todo m
    end).
  { intros m1 s1 Hi1 Hr1 Hn1. destruct (maread_send_ok MaxRead m1 s1 HM Hi1 Hn1) as (r & s' & -> & Hr).
    eexists _, _. split; [done|]. destruct r as [e|m']; [done|]. destruct Hr as (Hi' & Hn' & Hc').
    split; [done|]. unfold mr_todo. rewrite Hr1. destruct (mr_reading m'); lia. }
  destruct (must_wait NumRPCs m) eqn:Ew; cbn [mbind option_bind].
  - destruct (maread_wait_ok m s Hi) as (r & s' & -> & Hr). cbn [mbind option_bind].
    destruct r as [e|m']; [by eexists _, _|]. destruct Hr as (Hi' & Hn' & Hc' & Hr').
    assert (Hlt : mr_todo m' < mr_todo m).
    { unfold mr_todo. rewrite Hc', Hn'. destruct (mr_reading m'), (mr_reading m); lia. }
    destruct (mr_reading m') eqn:Er; [|by eexists _, _].
    destruct (Hsend m' s' Hi' Er ltac:(lia)) as (r & s2 & -> & Hr2). eexists _, _. split; [done|].
    destruct r; [done|]. split; [apply Hr2|]. destruct Hr2. lia.
  - unfold must_wait in Ew. destruct (mr_reading m) eqn:Er; simpl in *.
    + apply orb_false_iff in Ew as [Ew _]. zbool. apply Hsend; [done|done|lia].
    + congruence.
Qed.

Lemma maread_loop_ok MaxRead NumRPCs : 1 <= MaxRead -> 1 <= NumRPCs <= RNUMASYNC ->
  forall fuel m s, mr_todo m < Z.of_nat fuel -> mr_inv m s ->
  exists r s', maread_loop fuel MaxRead NumRPCs fh m s = Some (r, s') /\
    match r with
    | inl _ => same_files s' /\ reads s' = []
    | inr m' => mr_inv m' s' /\ mr_reading m' = false /\ mr_numpending m' = 0
    end.
Proof.
  intros HM HN. induction fuel as [|fuel IH]; intros m s Hf Hi; pose proof (mr_inv_pending _ _ Hi) as Hp.
  { unfold mr_todo in Hf. destruct (mr_reading m); lia. }
  simpl. destruct (_ || _) eqn:E.
  - destruct (maread_step_ok MaxRead NumRPCs m s HM HN Hi E) as (r & s' & -> & Hr). cbn [mbind option_bind].
    destruct r as [e|m']; [by eexists _, _|]. apply IH; [lia|apply Hr].
  - eexists _, _. split; [done|]. apply orb_false_iff in E as [E1 E2]. apply negb_false_iff in E2. zbool. done.
Qed.

Lemma mr_inv_start Buf0 :
  idle s0 -> reads s0 = [] -> zlen Buf0 = count0 -> mr_inv (maread_start fh off0 count0 Buf0) s0.
Proof.
  intros Hid Hr HB. unfold maread_start. set (r0 := RArgSent _ _ _).
  assert (Hfree : forall i r, replicate (Z.to_nat RNUMASYNC) r0 !! i = Some r -> used r = false).
  { intros i r Hi. apply lookup_replicate in Hi as [-> _]. done. }
  assert (Hno : in_file 0 0 = 0) by (unfold in_file; lia).
  constructor; simpl mr_rhs; simpl mr_numpending; simpl mr_pos; simpl mr_TotLen; try done; try (simpl; lia).
  - constructor; try done.
    + intros i r Hi. by rewrite (Hfree _ _ Hi).
    + rewrite Hr. by intros a u ?%elem_of_nil.
    + rewrite Hr. constructor.
    + by rewrite Hr.
Qed.

(** At the end everything that was sent is in [Buf] and counted. *)
Lemma mr_inv_end m s :
  mr_inv m s -> mr_reading m = false -> mr_numpending m = 0 ->
  mr_TotLen m = in_file 0 count0 /\ zlen (mr_Buf m) = count0 /\
  bytes_at s0 fh off0 (take (Z.to_nat (mr_TotLen m)) (mr_Buf m)) /\
  (0 < mr_TotLen m -> mr_FileLen m = size) /\ same_files s /\ reads s = [].
Proof.
  intros [Hf Hs Hq Hpos Ho HB HT Hb Hst HU HF] Hr Hn.
  assert (Hfree : forall i r, mr_rhs m !! i = Some r -> used r = false).
  { intros i r. apply slot_sum_one_zero. rewrite (sl_used _ _ _ _ Hs). done. }
  rewrite slot_sum_free in HT by done.
  assert (HT' : mr_TotLen m = in_file 0 count0)
    by (destruct (Hst Hr); unfold in_file in *; lia).
  split_and!; try done.
  - intros i b [Hib Hlt]%lookup_take_Some.
    assert (Hp : mr_Buf m !! Z.to_nat (Z.of_nat i) = Some (contents s0 fh (off0 + Z.of_nat i))).
    { apply Hb; [lia|]. intros j r Hj [Hx _]. by rewrite (Hfree _ _ Hj) in Hx. }
    rewrite Nat2Z.id in Hp. congruence.
  - destruct HF as [|[_ ->]]; [done|lia].
  - pose proof (sl_pending _ _ _ _ Hs) as Hz. rewrite Hn in Hz. destruct (reads s); [done|zlia].
Qed.
End Transfer.

(** ** A concrete server *)

(** A memory server whose read requests wait in a queue.  Replies come first
    request first, or last request first when [rx_lifo]. *)
Record readbox := ReadBox { rx_mem : memserver; rx_queue : list (readargs * Z); rx_lifo : bool }.

Definition on_mem {A} (f : memserver -> A * memserver) (s : readbox) : A * readbox :=
  let '(r, m) := f (rx_mem s) in (r, ReadBox m (rx_queue s) (rx_lifo s)).

#[export] Instance box_rpc : NfsRpc readbox := {
  nfsproc_getattr_2 a := on_mem (nfsproc_getattr_2 a);
  nfsproc_setattr_2 a := on_mem (nfsproc_setattr_2 a);
  nfsproc_lookup_2 a := on_mem (nfsproc_lookup_2 a);
  nfsproc_readlink_2 a := on_mem (nfsproc_readlink_2 a);
  nfsproc_read_buf a := on_mem (nfsproc_read_buf a);
  nfsproc_write_2 a := on_mem (nfsproc_write_2 a);
  nfsproc_create_2 a := on_mem (nfsproc_create_2 a);
  nfsproc_remove_2 a := on_mem (nfsproc_remove_2 a);
  nfsproc_rename_2 a := on_mem (nfsproc_rename_2 a);
  nfsproc_link_2 a := on_mem (nfsproc_link_2 a);
  nfsproc_symlink_2 a := on_mem (nfsproc_symlink_2 a);
  nfsproc_mkdir_2 a := on_mem (nfsproc_mkdir_2 a);
  nfsproc_rmdir_2 a := on_mem (nfsproc_rmdir_2 a);
  nfsproc_readdir_2 a := on_mem (nfsproc_readdir_2 a);
  nfsproc_statfs_2 a := on_mem (nfsproc_statfs_2 a);
  nfsproc_send_writesb_2 a := on_mem (nfsproc_send_writesb_2 a);
  nfsproc_wait_write_2 := on_mem nfsproc_wait_write_2;
  clnt_abort s := ReadBox (clnt_abort (rx_mem s)) [] (rx_lifo s);
  clnt_set_timeout _ s := s;
  clnt_get_timeout _ := 0;
  clnt_set_retry_timeout _ s := s;
  junk_u_int := 0
}.

#[export] Instance box_fileserver : NfsFileServer readbox.
Proof.
  refine {| contents s := contents (rx_mem s); inflight s := inflight (rx_mem s);
            fs_ok s := fs_ok (rx_mem s) |}.
  - intros a [m q d] r s'. cbn -[mem_rpc]. unfold on_mem. destruct (nfsproc_write_2 a (rx_mem _)) as [r1 m1] eqn:E.
    intros [= <- <-]. by apply (write_law (NfsFileServer := mem_fileserver)).
  - intros a [m q d] r s'. cbn -[mem_rpc]. unfold on_mem. destruct (nfsproc_send_writesb_2 a (rx_mem _)) as [r1 m1] eqn:E.
    intros [= <- <-]. by apply (send_law (NfsFileServer := mem_fileserver)).
  - intros [m q d] r s'. cbn -[mem_rpc]. unfold on_mem. destruct (nfsproc_wait_write_2 (rx_mem _)) as [r1 m1] eqn:E.
    intros [= <- <-]. by apply (wait_law (NfsFileServer := mem_fileserver)).
  - intros [m q d]. apply (abort_law (NfsFileServer := mem_fileserver) m).
Defined.

(** The next request to be answered, and those left. *)
Definition next_read (s : readbox) : option ((readargs * Z) * list (readargs * Z)) :=
  if rx_lifo s then
    match reverse (rx_queue s) with [] => None | x :: q => Some (x, reverse q) end
  else match rx_queue s with [] => None | x :: q => Some (x, q) end.

#[export] Instance box_readrpc : NfsReadRpc readbox := {
  nfsproc_send_read_buf a u s := (None, ReadBox (rx_mem s) (rx_queue s ++ [(a, u)]) (rx_lifo s));
  nfsproc_wait_read_buf s :=
    match next_read s with
    | None => (inl RPC_SUCCESS, s)
    | Some ((a, u), q) =>
        (inr (NfsOk (ReadOkRes (mem_attr (mem_size (rx_mem s))) (mem_read a (rx_mem s))), u),
         ReadBox (rx_mem s) q (rx_lifo s))
    end
}.

Lemma next_read_in s x q :
  next_read s = Some (x, q) -> exists l1 l2, rx_queue s = l1 ++ x :: l2 /\ q = l1 ++ l2.
Proof.
  unfold next_read. destruct (rx_lifo s).
  - destruct (reverse (rx_queue s)) as [|y r] eqn:E; intros [= <- <-]. exists (reverse r), [].
    rewrite app_nil_r. split; [|done].
    by rewrite <-(reverse_involutive (rx_queue s)), E, reverse_cons.
  - destruct (rx_queue s) as [|y r]; intros [= <- <-]. by exists [], r.
Qed.

Lemma mem_read_reply m a :
  read_reply (mem_size m) (mem_files m (ra_file a)) a (ReadOkRes (mem_attr (mem_size m)) (mem_read a m)).
Proof.
  unfold read_reply; simpl.
  assert (zlen (mem_read a m) = Z.max 0 (Z.min (ra_count a) (mem_size m - ra_offset a))) as ->.
  { unfold mem_read, zlen. rewrite length_fmap, length_seq. lia. }
  split_and!; try lia. intros i b Hb. apply list_lookup_fmap_Some in Hb as (k & -> & Hk).
  by apply lookup_seq in Hk as [-> _].
Qed.

#[export] Instance box_readserver : NfsReadServer readbox.
Proof.
  refine {| file_size s _ := mem_size (rx_mem s); reads s := rx_queue s |}.
  - by intros a u s r s' [= <- <-] Hid.
  - intros s r s' Hw Hid. cbn in Hw. destruct (next_read s) as [[[a u] q]|] eqn:E.
    + injection Hw as <- <-. split_and!; [done..|]. intros res v [= <- <-].
      destruct (next_read_in _ _ _ E) as (l1 & l2 & Hq & ->).
      exists l1, a, l2. split_and!; [done..|]. intros ro [= <-]. apply mem_read_reply.
    + injection Hw as <- <-. by split_and!.
  - intros s Hid. by split_and!.
Defined.

(** C24: The asynchronous read (nfs_MARead), with any window that its slots allow and
    the replies in any order, always returns and leaves the server as it was, no
    request under way; when it succeeds it gives the number of bytes that the file
    has in the range, all of them stored in order at [Buf], and the size of the file. *)
Theorem nfs_MARead_reads {S : Type} `{NfsReadServer S} ng fh off count Buf0 (s : S) :
  1 <= ng_MaxReadSize ng -> 1 <= ng_NumRRPCs ng <= RNUMASYNC -> 0 <= count < 2 ^ 31 -> 0 <= off ->
  off + count < 2 ^ 32 -> 0 <= file_size s fh < 2 ^ 31 -> zlen Buf0 = count -> idle s ->
  reads s = [] ->
  exists r buf s', nfs_MARead ng fh off Buf0 count s = Some (r, buf, s') /\
    idle s' /\ reads s' = [] /\ contents s' = contents s /\
    (forall n FileLen, r = IoDone n FileLen ->
       n = Z.max 0 (Z.min count (file_size s fh - off)) /\ zlen buf = count /\
       bytes_at s fh off (take (Z.to_nat n) buf) /\ (0 < n -> FileLen = file_size s fh)).
Proof.
  intros HM HN Hc Ho He Hsz HB Hid Hr. unfold nfs_MARead.
  destruct (maread_loop_ok fh off count s Ho Hc He Hsz (Z.min (ng_MaxReadSize ng) NFS_MAXDATA) (ng_NumRRPCs ng))
    with (3 + 2 * Z.to_nat count)%nat (maread_start fh off count Buf0) s as (r & s' & -> & Hres).
  { unfold NFS_MAXDATA. lia. }
  { done. }
  { unfold mr_todo. simpl. lia. }
  { by apply mr_inv_start. }
  cbn [mbind option_bind]. destruct r as [e|m].
  - destruct Hres as [(Hid' & Hc' & _) Hr']. by eexists _, _, _.
  - destruct Hres as (Hi & Hr1 & Hn). destruct (mr_inv_end fh off count s m s' Hi Hr1 Hn)
      as (HT & HBl & Hb & HF & (Hid' & Hc' & _) & Hr').
    eexists _, _, _. split; [done|]. split_and!; try done. intros n FileLen [= <- <-].
    split_and!; try done. rewrite HT. unfold in_file. lia.
Qed.

Definition box0 (lifo : bool) : readbox :=
  ReadBox (MemServer (fun _ o => byte_of_Z o) 10 [] false) [] lifo.
Definition ng_window (n : Z) : NFSGlobal_T := NFSGlobal n n 4 4 4.

(** Eleven bytes are asked for, the file has seven from offset three on; the
    window is two requests and the last sent is answered first. *)
Lemma nfs_MARead_reads_witness :
  exists buf s', nfs_MARead (ng_window 2) [x01] 3 (replicate 11 xff) 11 (box0 true) =
    Some (IoDone 7 10, buf, s') /\ take 7 buf = [x03; x04; x05; x06; x07; x08; x09].
Proof.
  destruct (nfs_MARead_reads (ng_window 2) [x01] 3 11 (replicate 11 xff) (box0 true))
    as (r & buf & s' & Hr & _ & _ & _ & Ho); try done.
  assert (E : fst <$> nfs_MARead (ng_window 2) [x01] 3 (replicate 11 xff) 11 (box0 true) =
    Some (IoDone 7 10, [x03; x04; x05; x06; x07; x08; x09; xff; xff; xff; xff])) by (vm_compute; reflexivity).
  rewrite Hr in E. injection E as -> ->. eexists _, s'. split; [exact Hr|].
  by destruct (Ho _ _ eq_refl) as (_ & _ & _ & _).
Defined.

(** When a reply from beyond the end of the file overtakes the one from the block
    that has the end in it, the read of a file that is intact fails with an error of
    AmigaDOS; in the order of the requests, or one after the other, it succeeds. *)
Theorem overtaking_reply_fails :
  (exists s', nfs_MARead (ng_window 4) [x01] 0 (replicate 16 xff) 16 (box0 true) =
     Some (IoFail ERROR_OBJECT_NOT_FOUND, [], s')) /\
  (exists buf s', nfs_MARead (ng_window 4) [x01] 0 (replicate 16 xff) 16 (box0 false) =
     Some (IoDone 10 10, buf, s')) /\
  (exists buf s', nfs_MRead (ng_window 4) [x01] 0 16 (box0 true) = Some (IoDone 10 10, buf, s')).
Proof.
  split_and!.
  - assert (E : fst <$> nfs_MARead (ng_window 4) [x01] 0 (replicate 16 xff) 16 (box0 true) =
      Some (IoFail ERROR_OBJECT_NOT_FOUND, [])) by (vm_compute; reflexivity).
    destruct (nfs_MARead _ _ _ _ _ (box0 true)) as [[x s']|]; [|done]. injection E as ->. by exists s'.
  - assert (E : (fun x => fst (fst x)) <$> nfs_MARead (ng_window 4) [x01] 0 (replicate 16 xff) 16 (box0 false) =
      Some (IoDone 10 10)) by (vm_compute; reflexivity).
    destruct (nfs_MARead _ _ _ _ _ (box0 false)) as [[[x b] s']|]; [|done]. injection E as ->. by exists b, s'.
  - assert (E : (fun x => fst (fst x)) <$> nfs_MRead (ng_window 4) [x01] 0 16 (box0 true) =
      Some (IoDone 10 10)) by (vm_compute; reflexivity).
    destruct (nfs_MRead _ _ _ _ (box0 true)) as [[[x b] s']|]; [|done]. injection E as ->. by exists b, s'.
Qed.
