(* ===== verification/Global.v ===== *)
(** * The handler's state (nfs_handler.h, wbuf.h, rbuf.h, fh.h)

    The records of the buffer clusters, of an open file handle and of the part
    of [Global_T] that reading and writing use.  [S] is the state of the
    network and the server behind [g_NFSClnt]. *)
From S2P Require Import Prelude MBuf WBufInfo NfsProt NfsSupp Nfs.

(** WBUFCLUSTER *)
Record WBUFCLUSTER := WBufCluster {
  wbc_WBufsMax : Z;
  wbc_WBufsUsed : Z;
  wbc_FirstData : option addr;
  wbc_LastData : option addr;
  wbc_PosData : option addr;
  wbc_FilePos : Z
}.

(** RBUFHDR *)
Record RBUFHDR := RBufHdr {
  rbh_FileOffs : Z;
  rbh_DataLen : Z;
  rbh_Data : option addr
}.

(** EFH; [efh_NFSFh] is [efh_ELock->efl_NFSFh].  The clusters hang off one
    handle only, so they are kept in it. *)
Record EFH := Efh {
  efh_Id : Z;
  efh_FilePos : Z;
  efh_FileLen : Z;
  efh_Mode : Z;
  efh_NFSFh : nfs_fh;
  efh_WBuf : option WBUFCLUSTER;
  efh_RBuf : option RBUFHDR;
  efh_Res2 : Z
}.

Definition set_WBuf (w : option WBUFCLUSTER) (e : EFH) : EFH :=
  Efh (efh_Id e) (efh_FilePos e) (efh_FileLen e) (efh_Mode e) (efh_NFSFh e) w
    (efh_RBuf e) (efh_Res2 e).
Definition set_RBuf (r : option RBUFHDR) (e : EFH) : EFH :=
  Efh (efh_Id e) (efh_FilePos e) (efh_FileLen e) (efh_Mode e) (efh_NFSFh e) (efh_WBuf e)
    r (efh_Res2 e).
Definition set_FilePos (p : Z) (e : EFH) : EFH :=
  Efh (efh_Id e) p (efh_FileLen e) (efh_Mode e) (efh_NFSFh e) (efh_WBuf e)
    (efh_RBuf e) (efh_Res2 e).
Definition set_FileLen (n : Z) (e : EFH) : EFH :=
  Efh (efh_Id e) (efh_FilePos e) n (efh_Mode e) (efh_NFSFh e) (efh_WBuf e)
    (efh_RBuf e) (efh_Res2 e).
Definition set_Res2 (n : Z) (e : EFH) : EFH :=
  Efh (efh_Id e) (efh_FilePos e) (efh_FileLen e) (efh_Mode e) (efh_NFSFh e) (efh_WBuf e)
    (efh_RBuf e) n.

Definition HasWBuf (efh : EFH) : bool := bool_decide (is_Some (efh_WBuf efh)).
Definition HasRBuf (efh : EFH) : bool := bool_decide (is_Some (efh_RBuf efh)).
Definition HasBufferedWData (efh : EFH) : bool :=
  match efh_WBuf efh with Some w => negb (wbc_WBufsUsed w =? 0) | None => false end.
Definition HasBufferedRData (efh : EFH) : bool :=
  match efh_RBuf efh with Some r => bool_decide (is_Some (rbh_Data r)) | None => false end.

(** The members of Global_T that buffered reading and writing use; the
    write-buffer headers live at the addresses of [g_WBufHdrs]. *)
Record Global_T (S : Type) := Global {
  g_MBufs : mbpool;
  g_NumWBufHdrs : Z;
  g_NumFreeWBufHdrs : Z;
  g_FreeWBufHdr : option addr;
  g_WBufHdrs : gmap addr wbufhdr;
  g_NFSGlobal : NFSGlobal_T;
  g_WriteBufferLimit : Z;
  g_NFSClnt : S
}.
Arguments Global {S}.
Arguments g_MBufs {S}.
Arguments g_NumWBufHdrs {S}.
Arguments g_NumFreeWBufHdrs {S}.
Arguments g_FreeWBufHdr {S}.
Arguments g_WBufHdrs {S}.
Arguments g_NFSGlobal {S}.
Arguments g_WriteBufferLimit {S}.
Arguments g_NFSClnt {S}.

Section Setters.
Context {S : Type}.

Definition set_MBufs (m : mbpool) (g : Global_T S) : Global_T S :=
  Global m (g_NumWBufHdrs g) (g_NumFreeWBufHdrs g) (g_FreeWBufHdr g) (g_WBufHdrs g)
    (g_NFSGlobal g) (g_WriteBufferLimit g) (g_NFSClnt g).
Definition set_NFSClnt (s : S) (g : Global_T S) : Global_T S :=
  Global (g_MBufs g) (g_NumWBufHdrs g) (g_NumFreeWBufHdrs g) (g_FreeWBufHdr g) (g_WBufHdrs g)
    (g_NFSGlobal g) (g_WriteBufferLimit g) s.
Definition set_WBufHdrs (m : gmap addr wbufhdr) (g : Global_T S) : Global_T S :=
  Global (g_MBufs g) (g_NumWBufHdrs g) (g_NumFreeWBufHdrs g) (g_FreeWBufHdr g) m
    (g_NFSGlobal g) (g_WriteBufferLimit g) (g_NFSClnt g).
(** The list of free headers and its length. *)
Definition set_FreeWBufHdr (n : Z) (p : option addr) (g : Global_T S) : Global_T S :=
  Global (g_MBufs g) (g_NumWBufHdrs g) n p (g_WBufHdrs g)
    (g_NFSGlobal g) (g_WriteBufferLimit g) (g_NFSClnt g).
Definition set_NumWBufHdrs (n : Z) (g : Global_T S) : Global_T S :=
  Global (g_MBufs g) n (g_NumFreeWBufHdrs g) (g_FreeWBufHdr g) (g_WBufHdrs g)
    (g_NFSGlobal g) (g_WriteBufferLimit g) (g_NFSClnt g).
End Setters.

(** ** Transfers return through [*FileLen] and [*Res2] *)

Definition io_ret (r : io_res) : Z :=
  match r with IoFail _ => -1 | IoDone n _ => n end.
Definition io_Res2 (r : io_res) (Res2 : Z) : Z :=
  match r with IoFail e => e | IoDone _ _ => Res2 end.
Definition io_FileLen (r : io_res) (FileLen : Z) : Z :=
  match r with IoFail _ => FileLen | IoDone _ l => l end.

(** The choice the code makes at every transfer to the server. *)
Definition nfs_write {S : Type} `{NfsRpc S} (g : Global_T S) (fh : nfs_fh) (off : Z)
  (Buf : list byte) (Num : Z) : option (io_res * Global_T S) :=
  '(r, s) ← (if ng_NumWRPCs (g_NFSGlobal g) >? 1
             then nfs_MAWrite (g_NFSGlobal g) fh (u32 off) Buf (u32 Num) (g_NFSClnt g)
             else nfs_MWrite (g_NFSGlobal g) fh (u32 off) Buf (u32 Num) (g_NFSClnt g));
  Some (r, set_NFSClnt s g).

(** Projections of updated states. *)
Ltac gsimpl :=
  cbn [g_MBufs g_NumWBufHdrs g_NumFreeWBufHdrs g_FreeWBufHdr g_WBufHdrs g_NFSGlobal
       g_WriteBufferLimit g_NFSClnt set_MBufs set_NFSClnt set_WBufHdrs set_FreeWBufHdr
       set_NumWBufHdrs efh_Id efh_FilePos efh_FileLen efh_Mode efh_NFSFh efh_WBuf efh_RBuf
       efh_Res2 set_WBuf set_RBuf set_FilePos set_FileLen set_Res2 mbind option_bind].
Tactic Notation "gsimpl" "in" hyp(H) :=
  cbn [g_MBufs g_NumWBufHdrs g_NumFreeWBufHdrs g_FreeWBufHdr g_WBufHdrs g_NFSGlobal
       g_WriteBufferLimit g_NFSClnt set_MBufs set_NFSClnt set_WBufHdrs set_FreeWBufHdr
       set_NumWBufHdrs efh_Id efh_FilePos efh_FileLen efh_Mode efh_NFSFh efh_WBuf efh_RBuf
       efh_Res2 set_WBuf set_RBuf set_FilePos set_FileLen set_Res2 mbind option_bind] in H.
