(* ===== verification/WBuf.v ===== *)
(** * The write cache (wbuf.c)

    Every open file may have a cluster of write buffers: headers linked in the
    order of their file offsets, each owning one memory buffer and the table
    of its dirty ranges.  The functions work on the headers in [g_WBufHdrs]
    through their addresses, as the code does; a result of [None] is undefined
    behaviour (a NULL or dangling access, an access outside a buffer). *)
From S2P Require Import Prelude MBuf WBufInfo NfsProt NfsSupp Nfs Global.

Definition wc_CreateCache (mem_ok : bool) (efh : EFH) (MaxBufs : Z) : EFH :=
  set_WBuf (if mem_ok then Some (WBufCluster MaxBufs 0 None None None 0) else None) efh.

Definition wc_DeleteCache (efh : EFH) : EFH := set_WBuf None efh.

(** [wbh->wbh_Next = nxt] *)
Definition set_Next (hdrs : gmap addr wbufhdr) (wbh : addr) (nxt : option addr)
  : option (gmap addr wbufhdr) :=
  h ← hdrs !! wbh;
  Some (<[wbh := WBufHdr nxt (wbh_FileOffs h) (wbh_NumInfo h) (wbh_Data h) (wbh_Info h)]> hdrs).

(** [wbh->wbh_FileOffs = offs; wbh->wbh_NumInfo = 0] *)
Definition set_Prepared (hdrs : gmap addr wbufhdr) (wbh : addr) (offs : Z)
  : option (gmap addr wbufhdr) :=
  h ← hdrs !! wbh;
  Some (<[wbh := WBufHdr (wbh_Next h) offs 0 (wbh_Data h) (wbh_Info h)]> hdrs).

Definition next_of (hdrs : gmap addr wbufhdr) (wbh : addr) : option (option addr) :=
  wbh_Next <$> hdrs !! wbh.

(** [(ULONG) pos & (0xFFFFFFFFU - (MBUFSIZE -1))], stored in a LONG. *)
Definition WBufAlignFileOffs (pos : Z) : Z :=
  s32 (Z.land (u32 pos) (u32 (4294967295 - (MBUFSIZE - 1)))).

Definition WBufHdrLastPos (h : wbufhdr) : Z := wbh_FileOffs h + MBUFSIZE.

Definition WBufCacheFull (wbc : WBUFCLUSTER) : bool := wbc_WBufsMax wbc <=? wbc_WBufsUsed wbc.

(** ** The list of a cluster *)

Definition set_Data (used : Z) (first last : option addr) (w : WBUFCLUSTER) : WBUFCLUSTER :=
  WBufCluster (wbc_WBufsMax w) used first last (wbc_PosData w) (wbc_FilePos w).
Definition set_PosData (p : option addr) (w : WBUFCLUSTER) : WBUFCLUSTER :=
  WBufCluster (wbc_WBufsMax w) (wbc_WBufsUsed w) (wbc_FirstData w) (wbc_LastData w) p (wbc_FilePos w).
Definition set_wbcFilePos (p : Z) (w : WBUFCLUSTER) : WBUFCLUSTER :=
  WBufCluster (wbc_WBufsMax w) (wbc_WBufsUsed w) (wbc_FirstData w) (wbc_LastData w) (wbc_PosData w) p.

Definition WBufAddTail (hdrs : gmap addr wbufhdr) (wbc : WBUFCLUSTER) (wbh : addr)
  : option (gmap addr wbufhdr * WBUFCLUSTER) :=
  let used := wbc_WBufsUsed wbc + 1 in
  (hdrs ← set_Next hdrs wbh None;
   match wbc_FirstData wbc with
   | Some f =>
       (lst ← wbc_LastData wbc;
        (hdrs ← set_Next hdrs lst (Some wbh);
         Some (hdrs, set_Data used (Some f) (Some wbh) wbc)))
   | None => Some (hdrs, set_Data used (Some wbh) (Some wbh) wbc)
   end).

Definition WBufAddHead (hdrs : gmap addr wbufhdr) (wbc : WBUFCLUSTER) (wbh : addr)
  : option (gmap addr wbufhdr * WBUFCLUSTER) :=
  let used := wbc_WBufsUsed wbc + 1 in
  match wbc_FirstData wbc with
  | Some f =>
      (hdrs ← set_Next hdrs wbh (Some f);
       Some (hdrs, set_Data used (Some wbh) (wbc_LastData wbc) wbc))
  | None =>
      (hdrs ← set_Next hdrs wbh None;
       Some (hdrs, set_Data used (Some wbh) (Some wbh) wbc))
  end.

Definition WBufInsert (hdrs : gmap addr wbufhdr) (wbc : WBUFCLUSTER) (oldwbh : option addr)
  (wbh : addr) : option (gmap addr wbufhdr * WBUFCLUSTER) :=
  match oldwbh with
  | Some old =>
      (nxt ← next_of hdrs old;
       (hdrs ← set_Next hdrs wbh nxt;
        (hdrs ← set_Next hdrs old (Some wbh);
         Some (hdrs, set_Data (wbc_WBufsUsed wbc + 1) (wbc_FirstData wbc)
                       (match nxt with None => Some wbh | Some _ => wbc_LastData wbc end) wbc))))
  | None => WBufAddHead hdrs wbc wbh
  end.

(** NULL is [Some (None, wbc)]. *)
Definition WBufRemHead (hdrs : gmap addr wbufhdr) (wbc : WBUFCLUSTER)
  : option (option addr * WBUFCLUSTER) :=
  if wbc_WBufsUsed wbc =? 0 then Some (None, wbc)
  else (wbh ← wbc_FirstData wbc;
        (nxt ← next_of hdrs wbh;
         Some (Some wbh, set_Data (wbc_WBufsUsed wbc - 1) nxt (wbc_LastData wbc) wbc))).

Section WBuf.
Context {S : Type} `{NfsRpc S}.

(** ** The pool of headers *)

Fixpoint free_hdrs (fuel : nat) (p : option addr) (hdrs : gmap addr wbufhdr)
  : option (gmap addr wbufhdr) :=
  match p, fuel with
  | None, _ => Some hdrs
  | Some _, O => None
  | Some a, Datatypes.S fuel => (h ← hdrs !! a; free_hdrs fuel (wbh_Next h) (delete a hdrs))
  end.

Definition wc_FreeWBufs (g : Global_T S) : option (Global_T S) :=
  (hdrs ← free_hdrs (size (g_WBufHdrs g)) (g_FreeWBufHdr g) (g_WBufHdrs g);
   Some (set_NumWBufHdrs 0 (set_FreeWBufHdr 0 None (set_WBufHdrs hdrs g)))).

(** [rs k] is the result of the [k]-th AllocVec(MEMF_CLEAR). *)
Fixpoint alloc_hdrs (rs : nat -> option addr) (k i : nat) (head : option addr)
  (hdrs : gmap addr wbufhdr) : nat * option addr * gmap addr wbufhdr :=
  match i with
  | O => (O, head, hdrs)
  | Datatypes.S i' =>
      match rs k with
      | None => (i, head, hdrs)
      | Some a => alloc_hdrs rs (Datatypes.S k) i' (Some a)
            (<[a := WBufHdr head 0 0 None (replicate (Z.to_nat WBUFHDRINFOSIZE) (0, 0))]> hdrs)
      end
  end.

Definition wc_AllocWBufs (rs : nat -> option addr) (g : Global_T S) (NumBufs : Z)
  : option (bool * Global_T S) :=
  match alloc_hdrs rs O (Z.to_nat NumBufs) None (g_WBufHdrs g) with
  | (O, head, hdrs) =>
      Some (true, set_NumWBufHdrs NumBufs (set_FreeWBufHdr NumBufs head (set_WBufHdrs hdrs g)))
  | (lft, head, hdrs) =>
      let n := NumBufs - Z.of_nat lft in
      (g ← wc_FreeWBufs (set_NumWBufHdrs n (set_FreeWBufHdr n head (set_WBufHdrs hdrs g)));
       Some (false, g))
  end.

Definition ObtainWBuf (g : Global_T S) : option (option addr * Global_T S) :=
  if negb (g_NumFreeWBufHdrs g =? 0) && negb (g_NumFreeMBufs (g_MBufs g) =? 0)
  then ('(mbn, mb) ← mb_ObtainMBuf (g_MBufs g);
        (wbh ← g_FreeWBufHdr g;
         (h ← g_WBufHdrs g !! wbh;
          let h' := WBufHdr (wbh_Next h) 0 0 (Some mbn) (wbh_Info h) in
          Some (Some wbh,
                set_FreeWBufHdr (g_NumFreeWBufHdrs g - 1) (wbh_Next h)
                  (set_WBufHdrs (<[wbh := h']> (g_WBufHdrs g)) (set_MBufs mb g))))))
  else Some (None, g).

Definition ReleaseWBuf (g : Global_T S) (wbh : option addr) : option (Global_T S) :=
  match wbh with
  | None => Some g
  | Some a =>
      (h ← g_WBufHdrs g !! a;
       (mb ← mb_ReleaseMBuf (g_MBufs g) (wbh_Data h);
        (hdrs ← set_Next (g_WBufHdrs g) a (g_FreeWBufHdr g);
         Some (set_FreeWBufHdr (g_NumFreeWBufHdrs g + 1) (Some a)
                 (set_WBufHdrs hdrs (set_MBufs mb g))))))
  end.

Definition WBufsAvail (g : Global_T S) : Z :=
  Z.min (g_NumFreeMBufs (g_MBufs g)) (g_NumFreeWBufHdrs g).

(** ** Flushing *)

(** [while(i--)]: the ranges from [wbi] on; [inl] is the return value and
    [*Res2] of a transfer that failed. *)
Fixpoint flush_ranges (i : nat) (g : Global_T S) (fh : nfs_fh) (h : wbufhdr) (wbi : Z)
  (Res2 : Z) : option (bool * Z * Global_T S) :=
  match i with
  | O => Some (true, Res2, g)
  | Datatypes.S i =>
      ('(From, To) ← arr_get (wbh_Info h) wbi;
       (a ← wbh_Data h;
        (d ← mb_data (g_MBufs g) a;
         ('(r, g) ← nfs_write g fh (wbh_FileOffs h + From)
            (sub_list d From (To - From + 1)) (To - From + 1);
          if io_ret r <? 0 then Some (false, io_Res2 r Res2, g)
          else flush_ranges i g fh h (wbi + 1) (io_Res2 r Res2)))))
  end.

(** [while(wbh = WBufRemHead(efh->efh_WBuf)) ReleaseWBuf(g, wbh);] *)
Fixpoint release_all (fuel : nat) (g : Global_T S) (wbc : WBUFCLUSTER)
  : option (Global_T S * WBUFCLUSTER) :=
  match fuel with
  | O => None
  | Datatypes.S fuel =>
      ('(wbh, wbc) ← WBufRemHead (g_WBufHdrs g) wbc;
       match wbh with
       | None => Some (g, wbc)
       | Some _ => (g ← ReleaseWBuf g wbh; release_all fuel g wbc)
       end)
  end.

(** The loop of iwc_FlushCache.  A header without a range is an error that
    only debugging builds report (the assertion) unless [IgnoreEmpty]; the
    loop over a negative count of ranges would not end. *)
Fixpoint flush_loop (fuel : nat) (g : Global_T S) (fh : nfs_fh) (wbc : WBUFCLUSTER)
  (IgnoreEmpty : bool) (Res2 : Z) : option (Z * Z * Global_T S * WBUFCLUSTER) :=
  match fuel with
  | O => None
  | Datatypes.S fuel' =>
      ('(wbh, wbc) ← WBufRemHead (g_WBufHdrs g) wbc;
       match wbh with
       | None => Some (DOSTRUE, Res2, g, wbc)
       | Some a =>
           (h ← g_WBufHdrs g !! a;
            ('(ok, Res2, g) ←
               (if (wbh_NumInfo h <=? 0) && negb IgnoreEmpty then Some (true, Res2, g)
                else if wbh_NumInfo h <? 0 then None
                else flush_ranges (Z.to_nat (wbh_NumInfo h)) g fh h 0 Res2);
             (g ← ReleaseWBuf g wbh;
              if (ok : bool) then flush_loop fuel' g fh wbc IgnoreEmpty Res2
              else ('(g, wbc) ← release_all fuel g wbc; Some (DOSFALSE, Res2, g, wbc)))))
       end)
  end.

(** (Res1, Res2, g, efh) *)
Definition iwc_FlushCache (g : Global_T S) (efh : EFH) (IgnoreEmpty : bool) (Res2 : Z)
  : option (Z * Z * Global_T S * EFH) :=
  match efh_WBuf efh with
  | None => Some (DOSTRUE, Res2, g, efh)
  | Some wbc =>
      ('(Res1, Res2, g, wbc) ← flush_loop (Datatypes.S (Z.to_nat (wbc_WBufsUsed wbc))) g
         (efh_NFSFh efh) wbc IgnoreEmpty Res2;
       Some (Res1, Res2, g, set_WBuf (Some wbc) efh))
  end.

Definition wc_FlushCache (g : Global_T S) (efh : EFH) (Res2 : Z)
  : option (Z * Z * Global_T S * EFH) := iwc_FlushCache g efh false Res2.

Definition FlushCacheAndWrite (g : Global_T S) (efh : EFH) (Buf : list byte) (Num Res2 : Z)
  : option (Z * Z * Global_T S * EFH) :=
  ('(Res1, Res2, g, efh) ← (if HasBufferedWData efh then iwc_FlushCache g efh true Res2
                            else Some (DOSTRUE, Res2, g, efh));
   if Res1 =? DOSFALSE then Some (-1, Res2, g, efh)
   else
   ('(r, g) ← nfs_write g (efh_NFSFh efh) (efh_FilePos efh) Buf Num;
    let efh := set_FileLen (io_FileLen r (efh_FileLen efh)) efh in
    if io_ret r >=? 0 then Some (io_ret r, 0, g, efh)
    else Some (-1, io_Res2 r Res2, g, efh))).

(** ** Positioning *)

(** Where the position lies with respect to the list; [RelInsert] is INSERT
    and INSERT_NEWBUFF, which only differ in the assignment made here. *)
Inductive relpos := RelAddHead | RelAddTail (last : addr) | RelInsert (pos : option addr).

(** [while(wbh->wbh_FileOffs < Pos) { prev_wbh = wbh; wbh = NEXT(wbh); }] *)
Fixpoint seek_scan (fuel : nat) (hdrs : gmap addr wbufhdr) (Pos : Z)
  (prev_wbh : option addr) (wbh : addr) : option (option addr * addr) :=
  match fuel with
  | O => None
  | Datatypes.S fuel =>
      (h ← hdrs !! wbh;
       if wbh_FileOffs h <? Pos
       then (nxt ← wbh_Next h; seek_scan fuel hdrs Pos (Some wbh) nxt)
       else Some (prev_wbh, wbh))
  end.

Definition seek_relpos (hdrs : gmap addr wbufhdr) (wbc : WBUFCLUSTER) (NewPos : Z)
  : option relpos :=
  match wbc_FirstData wbc with
  | None => Some RelAddHead
  | Some f =>
      (hf ← hdrs !! f;
       if NewPos <? wbh_FileOffs hf then Some RelAddHead
       else
       (l ← wbc_LastData wbc;
        (hl ← hdrs !! l;
         if NewPos >=? WBufHdrLastPos hl then Some (RelAddTail l)
         else
         ('(prev, wbh) ← seek_scan (Datatypes.S (Z.to_nat (wbc_WBufsUsed wbc))) hdrs (NewPos - MBUFSIZE) None f;
          (h ← hdrs !! wbh;
           if wbh_FileOffs h >? NewPos then Some (RelInsert prev)
           else Some (RelInsert (Some wbh)))))))
  end.

(** The flush [if(cond)] followed by [if(... == DOSFALSE) return -1;]: the
    flag tells whether it succeeded. *)
Definition flush_if (cond : bool) (g : Global_T S) (efh : EFH) (IgnoreEmpty : bool) (Res2 : Z)
  : option (bool * Z * Global_T S * EFH) :=
  if cond
  then ('(ok, Res2, g, efh) ← iwc_FlushCache g efh IgnoreEmpty Res2;
        Some (negb (ok =? DOSFALSE), Res2, g, efh))
  else Some (true, Res2, g, efh).

(** The steps WBufSeekAndPrepare and WBufWrite share: flush when the cluster
    is full, obtain a buffer, flush and obtain again when none was free.  The
    result is -1 (a flush failed), 0 (no buffer) or 1 with the buffer; the
    flag tells whether a flush has emptied the cluster. *)
Definition get_WBuf (g : Global_T S) (efh : EFH) (IgnoreEmpty : bool) (Res2 : Z)
  : option (Z * option addr * bool * Z * Global_T S * EFH) :=
  (wbc ← efh_WBuf efh;
   let full := WBufCacheFull wbc in
   ('(ok, Res2, g, efh) ← flush_if full g efh IgnoreEmpty Res2;
    if negb ok then Some (-1, None, full, Res2, g, efh)
    else
    ('(newwbh, g) ← ObtainWBuf g;
     let again := bool_decide (newwbh = None) && HasBufferedWData efh in
     ('(ok, Res2, g, efh) ← flush_if again g efh IgnoreEmpty Res2;
      if negb ok then Some (-1, None, true, Res2, g, efh)
      else
      ('(newwbh, g) ← (if again then ObtainWBuf g else Some (newwbh, g));
       Some (match newwbh with None => 0 | Some _ => 1 end, newwbh, full || again,
             Res2, g, efh)))))).

(** (return value, Res2, g, efh) *)
Definition WBufSeekAndPrepare (g : Global_T S) (efh : EFH) (NewPos Res2 : Z)
  : option (Z * Z * Global_T S * EFH) :=
  (wbc ← efh_WBuf efh;
   let efh := set_WBuf (Some (set_wbcFilePos NewPos wbc)) efh in
   (rel ← seek_relpos (g_WBufHdrs g) wbc NewPos;
    match rel with
    | RelAddTail p => Some (1, Res2, g, set_WBuf (set_PosData (Some p) <$> efh_WBuf efh) efh)
    | RelInsert p => Some (1, Res2, g, set_WBuf (set_PosData p <$> efh_WBuf efh) efh)
    | RelAddHead =>
        ('(r, newwbh, _, Res2, g, efh) ← get_WBuf g efh false Res2;
         match newwbh with
         | None => Some (r, Res2, g, efh)
         | Some n =>
             (wbc ← efh_WBuf efh;
              (hdrs ← set_Prepared (g_WBufHdrs g) n (WBufAlignFileOffs NewPos);
               ('(hdrs, wbc) ← WBufAddHead hdrs (set_PosData (Some n) wbc) n;
                Some (1, Res2, set_WBufHdrs hdrs g, set_WBuf (Some wbc) efh))))
         end)
    end)).

(** ** Writing *)

(** The buffer that takes the byte at [wbc_FilePos]: the one at [PosData],
    the next one, or a new one.  (return value, buffer, Res2, g, efh) *)
Definition WBufLocate (g : Global_T S) (efh : EFH) (Res2 : Z)
  : option (Z * option addr * Z * Global_T S * EFH) :=
  (wbc ← efh_WBuf efh;
   (wbh ← wbc_PosData wbc;
    (h ← g_WBufHdrs g !! wbh;
     let Pos := wbc_FilePos wbc in
     if negb (Pos >=? wbh_FileOffs h + MBUFSIZE) then Some (1, Some wbh, Res2, g, efh)
     else
     (in_next ← (match wbh_Next h with
                 | Some n =>
                     (hn ← g_WBufHdrs g !! n;
                      Some (IsInclBetween Pos (wbh_FileOffs hn) (wbh_FileOffs hn + MBUFSIZE - 1)))
                 | None => Some false
                 end);
      if (in_next : bool) then Some (1, wbh_Next h, Res2, g, efh)
      else
      ('(r, newwbh, flushed, Res2, g, efh) ← get_WBuf g efh true Res2;
       match newwbh with
       | None => Some (r, None, Res2, g, efh)
       | Some n =>
           (wbc ← efh_WBuf efh;
            (hdrs ← set_Prepared (g_WBufHdrs g) n (WBufAlignFileOffs Pos);
             ('(hdrs, wbc) ← WBufInsert hdrs (set_PosData (Some n) wbc)
                (if (flushed : bool) then None else Some wbh) n;
              Some (1, Some n, Res2, set_WBufHdrs hdrs g, set_WBuf (Some wbc) efh))))
       end))))).

(** (return value, Res2, g, efh); [Buf] has at least [Num] bytes. *)
Definition WBufWrite (g : Global_T S) (efh : EFH) (Buf : list byte) (Num Res2 : Z)
  : option (Z * Z * Global_T S * EFH) :=
  ('(r, wbh, Res2, g, efh) ← WBufLocate g efh Res2;
   match wbh with
   | None => Some (r, Res2, g, efh)
   | Some a =>
       (wbc ← efh_WBuf efh;
        (h ← g_WBufHdrs g !! a;
         let Offs := wbc_FilePos wbc - wbh_FileOffs h in
         let Cnt := Z.min (MBUFSIZE - Offs) Num in
         (mbn ← wbh_Data h;
          (mb ← (if zlen Buf <? Cnt then None
                 else mb_store (g_MBufs g) mbn Offs (take (Z.to_nat Cnt) Buf));
           (h' ← WBufUpdateInfo h Offs Cnt;
            let hdrs := <[a := h']> (g_WBufHdrs g) in
            let g := set_WBufHdrs hdrs (set_MBufs mb g) in
            let efh := set_WBuf (Some (set_wbcFilePos (wbc_FilePos wbc + Cnt) wbc)) efh in
            (p ← wbc_PosData wbc;
             (hp ← hdrs !! p;
              ('(ok, Res2, g, efh) ← flush_if (wbh_NumInfo hp + 1 >=? WBUFHDRINFOSIZE)
                 g efh false Res2;
               Some (if (ok : bool) then Cnt else -1, Res2, g, efh)))))))))
   end).

(** [while(Num)] of wc_WriteCache; (Res1, Res2, g, efh), with [OrigNum] for
    Res1 when everything has been written. *)
Fixpoint write_loop (fuel : nat) (g : Global_T S) (efh : EFH) (Buf : list byte)
  (Num OrigNum Res2 : Z) : option (Z * Z * Global_T S * EFH) :=
  match fuel with
  | O => None
  | Datatypes.S fuel =>
      if Num =? 0
      then (wbc ← efh_WBuf efh;
            let efh := if wbc_FilePos wbc >? efh_FileLen efh
            then set_FileLen (wbc_FilePos wbc) efh else efh in
            Some (OrigNum, 0, g, efh))
      else
      ('(Cnt, Res2, g, efh) ← WBufWrite g efh Buf Num Res2;
       if Cnt =? -1 then Some (-1, Res2, g, efh)
       else if Cnt =? 0 then FlushCacheAndWrite g efh Buf Num Res2
       else write_loop fuel g efh (drop (Z.to_nat Cnt) Buf) (Num - Cnt) OrigNum Res2)
  end.

(** (Res1, Res2, g, efh) *)
Definition wc_WriteCache (g : Global_T S) (efh : EFH) (Buf : list byte) (Num Res2 : Z)
  : option (Z * Z * Global_T S * EFH) :=
  match efh_WBuf efh with
  | None => FlushCacheAndWrite g efh Buf Num Res2
  | Some wbc =>
      let BufsNeeded := (Num + MBUFSIZE - 1) ÷ MBUFSIZE in
      if (Num >? g_WriteBufferLimit g) || (BufsNeeded >? wbc_WBufsMax wbc)
  || (BufsNeeded >? wbc_WBufsUsed wbc + WBufsAvail g)
      then FlushCacheAndWrite g efh Buf Num Res2
      else
      ('(RetVal, Res2, g, efh) ← WBufSeekAndPrepare g efh (efh_FilePos efh) Res2;
       if RetVal =? -1 then Some (-1, Res2, g, efh)
       else if RetVal =? 0 then FlushCacheAndWrite g efh Buf Num Res2
       else write_loop (Datatypes.S (Z.to_nat Num)) g efh Buf Num Num Res2)
  end.
End WBuf.
