(* ===== verification/WBufRep.v ===== *)
(** * The write cache in memory

    What the headers and memory buffers of the cache hold, as lists of blocks:
    the buffers a cluster owns, in list order, the free headers and the free
    memory buffers, and a frame of headers and buffers that belong to other
    users of the pools (the clusters of other files, the read buffers), which
    no operation may touch.  Every operation on headers gets one lemma here;
    WBufFlush.v and WBufSpec.v only use these. *)
From S2P Require Import Prelude MBuf WBufInfo NfsProt NfsSupp Nfs Global WBuf.

Record wblock := WBlock {
  bk_hdr : addr;
  bk_mb : addr;
  bk_off : Z;
  bk_frags : list (Z * Z);
  bk_bytes : list byte
}.

Record frame := Frame {
  fr_hdrs : gmap addr wbufhdr;
  fr_data : gmap addr (list byte)
}.

Definition block_in (hdrs : gmap addr wbufhdr) (mb : mbpool) (b : wblock) : Prop :=
  exists h, hdrs !! bk_hdr b = Some h /\ info_ok h /\
    wbh_FileOffs h = bk_off b /\ wbh_Data h = Some (bk_mb b) /\ frags h = bk_frags b /\
    mb_data mb (bk_mb b) = Some (bk_bytes b).

(** The clusters' list from [wbc_FirstData] on is [bs]. *)
Record cluster_ok (hdrs : gmap addr wbufhdr) (w : WBUFCLUSTER) (bs : list wblock) : Prop := {
  co_chain : chain wbh_Next hdrs (wbc_FirstData w) (bk_hdr <$> bs) None;
  co_last : bs <> [] -> wbc_LastData w = bk_hdr <$> last bs;
  co_used : wbc_WBufsUsed w = zlen bs
}.

(** The configuration of a cluster, which no list operation changes. *)
Definition same_cfg (w w' : WBUFCLUSTER) : Prop :=
  wbc_WBufsMax w' = wbc_WBufsMax w /\ wbc_FilePos w' = wbc_FilePos w.

Lemma WBufRemHead_nil hdrs w : cluster_ok hdrs w [] -> WBufRemHead hdrs w = Some (None, w).
Proof. intros [_ _ Hu]. unfold WBufRemHead. by rewrite Hu. Qed.

Lemma WBufRemHead_cons hdrs w b bs :
  cluster_ok hdrs w (b :: bs) ->
  exists w', WBufRemHead hdrs w = Some (Some (bk_hdr b), w') /\
    cluster_ok hdrs w' bs /\ same_cfg w w'.
Proof.
  intros [(Hf & h & Hh & Hc) Hl Hu]. unfold WBufRemHead, next_of. rewrite Hu, zlen_cons.
  rewrite (proj2 (Z.eqb_neq _ _)) by zlia. rewrite Hf. cbn [mbind option_bind]. rewrite Hh. simpl.
  eexists. split; [done|]. split; [|done]. constructor; simpl; [done| |lia].
  intros Hne. rewrite Hl by done. destruct bs; [done|]. done.
Qed.

Section Rep.
Context {S : Type}.
Implicit Types (g : Global_T S) (w : WBUFCLUSTER) (F : frame).

(** The pools: [own] are the blocks in use, [hf] and [mf] the free headers
    and memory buffers. *)
Record heap_ok g (own : list wblock) (hf mf : list addr) F : Prop := {
  ho_free : chain wbh_Next (g_WBufHdrs g) (g_FreeWBufHdr g) hf None;
  ho_num : g_NumFreeWBufHdrs g = zlen hf;
  ho_hnodup : NoDup ((bk_hdr <$> own) ++ hf);
  ho_mb : mb_ok (g_MBufs g) mf;
  ho_mnodup : NoDup ((bk_mb <$> own) ++ mf);
  ho_own : Forall (block_in (g_WBufHdrs g) (g_MBufs g)) own;
  ho_info : forall a h, g_WBufHdrs g !! a = Some h -> zlen (wbh_Info h) = WBUFHDRINFOSIZE;
  ho_fh : forall a h, fr_hdrs F !! a = Some h ->
  g_WBufHdrs g !! a = Some h /\ a ∉ (bk_hdr <$> own) ++ hf;
  ho_fm : forall a d, fr_data F !! a = Some d ->
  mb_data (g_MBufs g) a = Some d /\ a ∉ (bk_mb <$> own) ++ mf
}.

(** Nothing but the pools differs. *)
Definition same_env g g' : Prop :=
  g_NFSGlobal g' = g_NFSGlobal g /\ g_WriteBufferLimit g' = g_WriteBufferLimit g /\
  g_NFSClnt g' = g_NFSClnt g.

Lemma heap_ok_perm g own own' hf mf F :
  own ≡ₚ own' -> heap_ok g own hf mf F -> heap_ok g own' hf mf F.
Proof.
  intros HP [H1 H2 H3 H4 H5 H6 H7 H8 H9].
  assert (Hh : (bk_hdr <$> own) ++ hf ≡ₚ (bk_hdr <$> own') ++ hf) by by rewrite HP.
  assert (Hm : (bk_mb <$> own) ++ mf ≡ₚ (bk_mb <$> own') ++ mf) by by rewrite HP.
  constructor; try done.
  - by rewrite <-Hh.
  - by rewrite <-Hm.
  - by rewrite <-HP.
  - intros a h Ha. destruct (H8 a h Ha). split; [done|]. by rewrite <-Hh.
  - intros a d Ha. destruct (H9 a d Ha). split; [done|]. by rewrite <-Hm.
Qed.

#[export] Instance heap_ok_proper g :
  Proper ((≡ₚ) ==> eq ==> eq ==> eq ==> iff) (heap_ok g).
Proof. intros o o' HP ? hf -> ? mf -> ? F ->. split; by apply heap_ok_perm. Qed.

Lemma cluster_ok_frame hdrs hdrs' w bs :
  (forall a, a ∈ bk_hdr <$> bs -> hdrs' !! a = hdrs !! a) ->
  cluster_ok hdrs w bs -> cluster_ok hdrs' w bs.
Proof. intros Hh [Hc Hl Hu]. constructor; try done. by eapply chain_frame. Qed.

Lemma block_in_frame hdrs hdrs' mb mb' b :
  hdrs' !! bk_hdr b = hdrs !! bk_hdr b -> mb_data mb' (bk_mb b) = mb_data mb (bk_mb b) ->
  block_in hdrs mb b -> block_in hdrs' mb' b.
Proof. intros Hh Hm (h & ?). exists h. by rewrite Hh, Hm. Qed.

(** A block that is in use, as an element of the free list. *)
Lemma own_move (f : wblock -> addr) b own l :
  (f <$> b :: own) ++ l ≡ₚ (f <$> own) ++ f b :: l.
Proof. rewrite fmap_cons. cbn [app]. by rewrite Permutation_middle. Qed.

(** ** Obtaining and releasing *)

Lemma heap_ok_obtain g own a hf m mf F :
  heap_ok g own (a :: hf) (m :: mf) F ->
  exists g' d, ObtainWBuf g = Some (Some a, g') /\
    heap_ok g' (WBlock a m 0 [] d :: own) hf mf F /\ same_env g g' /\
    (forall x, x <> a -> g_WBufHdrs g' !! x = g_WBufHdrs g !! x).
Proof.
  intros [H1 H2 H3 H4 H5 H6 H7 H8 H9]. unfold ObtainWBuf.
  destruct H1 as (Hp & h & Hh & Hc).
  rewrite H2, (mb_ok_num _ _ H4), !zlen_cons.
  rewrite !(proj2 (Z.eqb_neq _ _)) by zlia. cbn [negb andb].
  destruct (mb_Obtain_ok _ _ _ H4) as (mb' & Hmo & Hmb & Hni & Hmem & _).
  rewrite Hmo. cbn [mbind option_bind]. rewrite Hp. cbn [mbind option_bind].
  rewrite Hh. cbn [mbind option_bind].
  assert (Hd : exists d, mb_data (g_MBufs g) m = Some d).
  { unfold mb_data. destruct (mb_ok_chain _ _ H4) as (_ & n & -> & _). eauto. }
  destruct Hd as [d Hd].
  assert (Hdat : forall x, mb_data mb' x = mb_data (g_MBufs g) x)
    by (intros x; unfold mb_data; by rewrite Hmem).
  pose proof (NoDup_app (bk_hdr <$> own) (a :: hf)) as [HN _].
  destruct (HN H3) as (Hn1 & Hn2 & Hn3). clear HN. apply NoDup_cons in Hn3 as [Hn3 Hn4].
  eexists _, d. split; [done|]. split_and!.
  - constructor; gsimpl.
    + by apply chain_insert_ne.
    + lia.
    + by rewrite (own_move bk_hdr).
    + done.
    + by rewrite (own_move bk_mb).
    + constructor.
      * eexists. cbn. rewrite lookup_insert_eq. split; [done|].
        split; [constructor; cbn; [by eapply H7|unfold WBUFHDRINFOSIZE; lia|done]|].
        by rewrite Hdat.
      * rewrite Forall_forall in H6 |- *. intros b Hb.
        eapply block_in_frame; [|apply Hdat|by apply H6].
        apply lookup_insert_ne. intros Heq. apply (Hn2 (bk_hdr b)); [by apply list_elem_of_fmap_2|].
        rewrite <-Heq. by left.
    + intros x hx [[<- <-]|[_ Hx]]%lookup_insert_Some; [by apply (H7 _ _ Hh)|by eapply H7].
    + intros x hx Hx. destruct (H8 x hx Hx) as [Hx1 Hx2].
      assert (x <> a) by (intros ->; apply Hx2; apply elem_of_app; right; by left).
      rewrite lookup_insert_ne by done. split; [done|]. by rewrite (own_move bk_hdr).
    + intros x dx Hx. destruct (H9 x dx Hx) as [Hx1 Hx2]. rewrite Hdat. split; [done|]. by rewrite (own_move bk_mb).
  - done.
  - intros x Hx. gsimpl. by apply lookup_insert_ne.
Qed.
Lemma own_nodup (f : wblock -> addr) b own l :
  NoDup ((f <$> b :: own) ++ l) ->
  (f b ∉ l) /\ (f b ∉ f <$> own) /\ NoDup ((f <$> own) ++ l).
Proof.
  rewrite fmap_cons. cbn [app]. rewrite NoDup_cons, elem_of_app. intros [Hb Hn]. tauto.
Qed.

Lemma obtain_none g own hf mf F :
  heap_ok g own hf mf F -> hf = [] \/ mf = [] -> ObtainWBuf g = Some (None, g).
Proof.
  intros [_ H2 _ H4 _ _ _ _ _] Hn. unfold ObtainWBuf. rewrite H2, (mb_ok_num _ _ H4).
  destruct Hn as [->| ->]; change (zlen (@nil addr)) with 0; [done|]. by rewrite andb_false_r.
Qed.

Lemma heap_ok_release g b own hf mf F :
  heap_ok g (b :: own) hf mf F ->
  exists g', ReleaseWBuf g (Some (bk_hdr b)) = Some g' /\
    heap_ok g' own (bk_hdr b :: hf) (bk_mb b :: mf) F /\ same_env g g' /\
    (forall x, x <> bk_hdr b -> g_WBufHdrs g' !! x = g_WBufHdrs g !! x).
Proof.
  intros [H1 H2 H3 H4 H5 H6 H7 H8 H9].
  apply Forall_cons in H6 as [(h & Hh & Hi & Ho & Hm & Hf & Hd) H6].
  destruct (own_nodup _ _ _ _ H3) as (Hn1 & Hn2 & _).
  destruct (own_nodup _ _ _ _ H5) as (Hm1 & Hm2 & _).
  unfold ReleaseWBuf. rewrite Hh. gsimpl. rewrite Hm.
  destruct (mb_Release_ok (g_MBufs g) (bk_mb b) mf) as (mb' & Hr & Hmb & Hdat & _); [done..| |].
  { unfold mb_data in Hd. destruct (mb_mem (g_MBufs g) !! bk_mb b); [eauto|done]. }
  rewrite Hr. unfold set_Next. gsimpl. rewrite Hh. gsimpl.
  eexists. split; [done|]. split_and!; [|done|intros x Hx; gsimpl; by apply lookup_insert_ne].
  constructor; gsimpl.
  - split; [done|]. eexists. rewrite lookup_insert_eq. split; [done|]. cbn.
    by apply chain_insert_ne.
  - rewrite H2. zlia.
  - by rewrite <-(own_move bk_hdr).
  - done.
  - by rewrite <-(own_move bk_mb).
  - rewrite Forall_forall in H6 |- *. intros c Hc.
    eapply block_in_frame; [|apply Hdat|by apply H6].
    apply lookup_insert_ne. intros Heq. apply Hn2. rewrite Heq. by apply list_elem_of_fmap_2.
  - intros x hx [[<- <-]|[_ Hx]]%lookup_insert_Some; [by apply (H7 _ _ Hh)|by eapply H7].
  - intros x hx Hx. destruct (H8 x hx Hx) as [Hx1 Hx2]. rewrite <-(own_move bk_hdr).
    split; [|done]. rewrite lookup_insert_ne; [done|]. intros Heq. apply Hx2. rewrite ?Heq, <-?Heq. by left.
  - intros x dx Hx. destruct (H9 x dx Hx) as [Hx1 Hx2]. rewrite Hdat. split; [done|].
    by rewrite <-(own_move bk_mb).
Qed.

(** ** Updating a block in use *)

Lemma heap_ok_update g b own hf mf F h' b' mb' :
  heap_ok g (b :: own) hf mf F ->
  bk_hdr b' = bk_hdr b -> bk_mb b' = bk_mb b -> zlen (wbh_Info h') = WBUFHDRINFOSIZE ->
  block_in (<[bk_hdr b := h']> (g_WBufHdrs g)) mb' b' -> mb_ok mb' mf ->
  (forall x, x <> bk_mb b -> mb_data mb' x = mb_data (g_MBufs g) x) ->
  heap_ok (set_WBufHdrs (<[bk_hdr b := h']> (g_WBufHdrs g)) (set_MBufs mb' g))
  (b' :: own) hf mf F.
Proof.
  intros [H1 H2 H3 H4 H5 H6 H7 H8 H9] Eh Em Hl Hb' Hmb Hdat.
  apply Forall_cons in H6 as [_ H6].
  destruct (own_nodup _ _ _ _ H3) as (Hn1 & Hn2 & _).
  destruct (own_nodup _ _ _ _ H5) as (Hm1 & Hm2 & _).
  rewrite fmap_cons in *. constructor; rewrite ?fmap_cons, ?Eh, ?Em; gsimpl; try done.
  - by apply chain_insert_ne.
  - constructor; [done|]. rewrite Forall_forall in H6 |- *. intros c Hc.
    eapply block_in_frame; [| |by apply H6].
    + apply lookup_insert_ne. intros Heq. apply Hn2. rewrite Heq. by apply list_elem_of_fmap_2.
    + apply Hdat. intros Heq. apply Hm2. rewrite <-Heq. by apply list_elem_of_fmap_2.
  - intros x hx [[<- <-]|[_ Hx]]%lookup_insert_Some; [done|by eapply H7].
  - intros x hx Hx. destruct (H8 x hx Hx) as [Hx1 Hx2]. split; [|done].
    rewrite lookup_insert_ne; [done|]. intros Heq. apply Hx2. rewrite ?Heq, <-?Heq. by left.
  - intros x dx Hx. destruct (H9 x dx Hx) as [Hx1 Hx2]. split; [|done].
    rewrite Hdat; [done|]. intros Heq. apply Hx2. rewrite ?Heq, <-?Heq. by left.
Qed.

Lemma heap_ok_hdr g b own hf mf F :
  heap_ok g (b :: own) hf mf F ->
  exists h, g_WBufHdrs g !! bk_hdr b = Some h /\ info_ok h /\ wbh_FileOffs h = bk_off b /\
    wbh_Data h = Some (bk_mb b) /\ frags h = bk_frags b /\
    mb_data (g_MBufs g) (bk_mb b) = Some (bk_bytes b).
Proof. intros H. exact (proj1 (proj1 (Forall_cons _ _ _) (ho_own _ _ _ _ _ H))). Qed.

Lemma heap_ok_in g b own hf mf F : b ∈ own -> heap_ok g own hf mf F ->
  exists own', own ≡ₚ b :: own' /\ heap_ok g (b :: own') hf mf F.
Proof.
  intros (l1 & l2 & ->)%list_elem_of_split H. exists (l1 ++ l2).
  assert (l1 ++ b :: l2 ≡ₚ b :: l1 ++ l2) as HP by by rewrite Permutation_middle.
  split; [done|]. by rewrite <-HP.
Qed.

Lemma heap_ok_set_Next g own hf mf F a nxt :
  heap_ok g own hf mf F -> a ∈ bk_hdr <$> own ->
  exists hdrs', set_Next (g_WBufHdrs g) a nxt = Some hdrs' /\
    heap_ok (set_WBufHdrs hdrs' g) own hf mf F /\
    (forall x, x <> a -> hdrs' !! x = g_WBufHdrs g !! x) /\
    (exists h, hdrs' !! a = Some h /\ wbh_Next h = nxt).
Proof.
  intros Hok (b & -> & Hb)%list_elem_of_fmap.
  destruct (heap_ok_in _ _ _ _ _ _ Hb Hok) as (own' & HP & Hok').
  destruct (heap_ok_hdr _ _ _ _ _ _ Hok') as (h & Hh & Hi & Ho & Hm & Hf & Hd).
  unfold set_Next. rewrite Hh. gsimpl. eexists. split; [done|]. split_and!.
  - rewrite HP. replace (set_WBufHdrs _ g) with
      (set_WBufHdrs (<[bk_hdr b := WBufHdr nxt (wbh_FileOffs h) (wbh_NumInfo h) (wbh_Data h)
                         (wbh_Info h)]> (g_WBufHdrs g)) (set_MBufs (g_MBufs g) g)) by by destruct g.
    eapply heap_ok_update; try done; [apply Hi| |apply Hok'].
    eexists. rewrite lookup_insert_eq. split; [done|]. split; [|done].
    constructor; apply Hi.
  - intros x Hx. by apply lookup_insert_ne.
  - eexists. by rewrite lookup_insert_eq.
Qed.

Lemma heap_ok_set_Prepared g b own hf mf F off :
  heap_ok g (b :: own) hf mf F ->
  exists hdrs', set_Prepared (g_WBufHdrs g) (bk_hdr b) off = Some hdrs' /\
    heap_ok (set_WBufHdrs hdrs' g)
    (WBlock (bk_hdr b) (bk_mb b) off [] (bk_bytes b) :: own) hf mf F /\
    (forall x, x <> bk_hdr b -> hdrs' !! x = g_WBufHdrs g !! x).
Proof.
  intros Hok. destruct (heap_ok_hdr _ _ _ _ _ _ Hok) as (h & Hh & Hi & Ho & Hm & Hf & Hd).
  unfold set_Prepared. rewrite Hh. gsimpl. eexists. split; [done|]. split.
  - replace (set_WBufHdrs _ g) with
      (set_WBufHdrs (<[bk_hdr b := WBufHdr (wbh_Next h) off 0 (wbh_Data h)
                         (wbh_Info h)]> (g_WBufHdrs g)) (set_MBufs (g_MBufs g) g)) by by destruct g.
    eapply heap_ok_update; try done; [apply Hi| |apply Hok].
    eexists. rewrite lookup_insert_eq. split; [done|]. split; [|done].
    constructor; [apply Hi|unfold WBUFHDRINFOSIZE; cbn; lia|done].
  - intros x Hx. by apply lookup_insert_ne.
Qed.

(** CopyMem into a block followed by WBufUpdateInfo on its header. *)
Lemma heap_ok_store g b own hf mf F off src :
  heap_ok g (b :: own) hf mf F -> 0 <= off -> 1 <= zlen src -> off + zlen src <= MBUFSIZE ->
  zlen (bk_frags b) < WBUFHDRINFOSIZE ->
  exists h h' mb' d', g_WBufHdrs g !! bk_hdr b = Some h /\ wbh_FileOffs h = bk_off b /\
    wbh_Data h = Some (bk_mb b) /\ mb_store (g_MBufs g) (bk_mb b) off src = Some mb' /\
    WBufUpdateInfo h off (zlen src) = Some h' /\ wbh_Next h' = wbh_Next h /\
    copy_at (bk_bytes b) off src = Some d' /\
    ranges_ok 0 MBUFSIZE (bk_frags b) /\ zlen (bk_bytes b) = MBUFSIZE /\
    wbh_NumInfo h' = zlen (add_range (bk_frags b) off (off + zlen src - 1)) /\
    heap_ok (set_WBufHdrs (<[bk_hdr b := h']> (g_WBufHdrs g)) (set_MBufs mb' g))
    (WBlock (bk_hdr b) (bk_mb b) (bk_off b)
       (add_range (bk_frags b) off (off + zlen src - 1)) d' :: own) hf mf F.
Proof.
  intros Hok H0 Hs HM Hn.
  destruct (heap_ok_hdr _ _ _ _ _ _ Hok) as (h & Hh & Hi & Ho & Hm & Hf & Hd).
  destruct (info_split h Hi) as (_ & _ & HN). rewrite Hf in HN.
  destruct (WBufUpdateInfo_ok h off (zlen src)) as (h' & Hu & Hf' & Hi' & (Hn' & Hoo & Hmm) & _);
    [done|lia..|].
  destruct (info_split h' Hi') as (_ & _ & HN'). rewrite Hf', Hf in HN'.
  unfold mb_data in Hd. destruct (mb_mem (g_MBufs g) !! bk_mb b) as [n|] eqn:En; [|done].
  injection Hd as Hd.
  destruct (own_nodup _ _ _ _ (ho_mnodup _ _ _ _ _ Hok)) as (Hm1 & _ & _).
  destruct (mb_store_ok (g_MBufs g) (bk_mb b) mf off src n) as
    (mb' & d' & Hst & Hmb & Hcp & Hd' & Hother & _); [apply Hok|done..|].
  rewrite Hd in Hcp. exists h, h', mb', d'. split_and!; try done.
  - rewrite <-Hf. apply Hi.
  - rewrite <-Hd. by eapply mb_ok_size; [apply Hok|].
  - eapply heap_ok_update; try done; [apply Hi'|].
    eexists. rewrite lookup_insert_eq. split; [done|]. split_and!; try done; simpl; congruence.
Qed.

(** ** Linking a block into the list *)

Lemma own_not_in g n bs hf mf F :
  heap_ok g (n :: bs) hf mf F -> bk_hdr n ∉ bk_hdr <$> bs.
Proof. intros Hh. by destruct (own_nodup _ _ _ _ (ho_hnodup _ _ _ _ _ Hh)) as (_ & ? & _). Qed.

Lemma own_hdr n bs : bk_hdr n ∈ bk_hdr <$> n :: bs.
Proof. rewrite fmap_cons. by left. Qed.

Lemma WBufAddHead_ok g w n bs hf mf F :
  heap_ok g (n :: bs) hf mf F -> cluster_ok (g_WBufHdrs g) w bs ->
  exists hdrs' w', WBufAddHead (g_WBufHdrs g) w (bk_hdr n) = Some (hdrs', w') /\
    heap_ok (set_WBufHdrs hdrs' g) (n :: bs) hf mf F /\ cluster_ok hdrs' w' (n :: bs) /\
    same_cfg w w' /\ wbc_PosData w' = wbc_PosData w.
Proof.
  intros Hh Hc. pose proof (own_not_in _ _ _ _ _ _ Hh) as Hn.
  destruct (heap_ok_set_Next g _ _ _ _ (bk_hdr n) (wbc_FirstData w) Hh (own_hdr n bs))
    as (hdrs' & Hs & Hh' & Hx & h & Hh1 & Hnx).
  unfold WBufAddHead.
  assert (Hc' : cluster_ok hdrs' w bs).
  { eapply cluster_ok_frame; [|exact Hc]. intros a Ha. apply Hx. by intros ->. }
  destruct Hc' as [Hch Hl Hu]. destruct bs as [|b bs].
  - simpl in Hch. rewrite Hch in *. rewrite Hs. gsimpl.
    eexists _, _. split; [done|]. split_and!; try done.
    constructor; simpl; [|done|].
    + split; [done|]. eexists. split; [exact Hh1|]. by rewrite Hnx.
    + rewrite Hu. done.
  - rewrite fmap_cons in Hch. pose proof (chain_nonnull _ _ _ _ _ _ Hch) as Hf.
    rewrite Hf in Hs, Hnx, Hch |- *. rewrite Hs. gsimpl.
    eexists _, _. split; [done|]. split_and!; try done.
    constructor; simpl.
    + split; [done|]. eexists. split; [exact Hh1|]. by rewrite Hnx.
    + intros _. rewrite Hl by done. by destruct bs.
    + rewrite Hu, !zlen_cons. lia.
Qed.

Lemma WBufInsert_ok g w n l1 p l2 hf mf F :
  heap_ok g (n :: l1 ++ p :: l2) hf mf F -> cluster_ok (g_WBufHdrs g) w (l1 ++ p :: l2) ->
  exists hdrs' w', WBufInsert (g_WBufHdrs g) w (Some (bk_hdr p)) (bk_hdr n) = Some (hdrs', w') /\
    heap_ok (set_WBufHdrs hdrs' g) (n :: l1 ++ p :: l2) hf mf F /\
    cluster_ok hdrs' w' (l1 ++ p :: n :: l2) /\
    same_cfg w w' /\ wbc_PosData w' = wbc_PosData w.
Proof.
  intros Hh Hc. pose proof (own_not_in _ _ _ _ _ _ Hh) as Hn.
  pose proof (ho_hnodup _ _ _ _ _ Hh) as Hnd.
  rewrite fmap_cons, fmap_app, fmap_cons in Hnd. apply NoDup_app in Hnd as (Hnd & _ & _).
  apply NoDup_cons in Hnd as [_ Hnd]. apply NoDup_app in Hnd as (_ & Hd1 & Hd2).
  apply NoDup_cons in Hd2 as [Hd2 _].
  destruct Hc as [Hch Hl Hu]. rewrite fmap_app, fmap_cons in Hch, Hn.
  apply chain_app in Hch as (r & Hc1 & (-> & hp & Hp & Hc2)).
  assert (Hne : bk_hdr p <> bk_hdr n).
  { intros E. apply Hn. rewrite <-E. apply elem_of_app. right. by left. }
  unfold WBufInsert, next_of. rewrite Hp. simpl.
  destruct (heap_ok_set_Next g _ _ _ _ (bk_hdr n) (wbh_Next hp) Hh (own_hdr n _))
    as (h1 & Hs1 & Hh1 & Hx1 & h & Hn1 & Hnx). rewrite Hs1. gsimpl.
  destruct (heap_ok_set_Next (set_WBufHdrs h1 g) _ _ _ _ (bk_hdr p) (Some (bk_hdr n)) Hh1)
    as (h2 & Hs2 & Hh2 & Hx2 & h' & Hp2 & Hpx).
  { apply list_elem_of_fmap_2. right. apply elem_of_app. right. by left. }
  gsimpl in Hs2. rewrite Hs2. gsimpl. gsimpl in Hx2.
  assert (Hfr : forall a, a ≠ bk_hdr n -> a ≠ bk_hdr p -> h2 !! a = g_WBufHdrs g !! a).
  { intros a Ha1 Ha2. rewrite Hx2, Hx1; done. }
  eexists _, _. split; [done|]. split; [by destruct g|]. split; [|done]. constructor; simpl.
  - rewrite fmap_app, !fmap_cons. apply chain_app. eexists. split.
    + eapply chain_frame; [|exact Hc1]. intros a Ha. apply Hfr.
      * intros ->. apply Hn, elem_of_app. by left.
      * intros ->. apply (Hd1 _ Ha). by left.
    + split; [done|]. exists h'. split; [done|]. rewrite Hpx. split; [done|].
      exists h. split; [by rewrite Hx2|]. rewrite Hnx. eapply chain_frame; [|exact Hc2].
      intros a Ha. apply Hfr; intros ->; [|done]. apply Hn, elem_of_app. right. by right.
  - intros _. destruct l2 as [|c l2].
    + simpl in Hc2. rewrite Hc2. by rewrite last_app_cons, last_cons_cons.
    + rewrite fmap_cons in Hc2. rewrite (chain_nonnull _ _ _ _ _ _ Hc2).
      rewrite Hl by by destruct l1. by rewrite !last_app_cons, !last_cons_cons.
  - rewrite Hu, !zlen_app, !zlen_cons. lia.
Qed.
End Rep.
