(* ===== verification/WBufFlush.v ===== *)
(** * The file as its user sees it, and flushing the write cache

    [iwc_FlushCache] against the file server of NfsServer.v: it always returns,
    gives every buffer of the cluster back to the pools, and when it succeeds
    the server holds what the user saw. *)
From S2P Require Import Prelude MBuf WBufInfo NfsProt NfsSupp Nfs NfsServer Global WBuf WBufRep.

(** ** The file as its user sees it

    The blocks of a cluster hide part of the file on the server: the [fview]
    of a list of blocks over contents [c] has the dirty bytes of the blocks and
    [c] elsewhere.  This file has the ordering of the blocks of a cluster and
    the laws of the view: what it is inside one block and outside all, and how
    it changes when a block is written, added or dropped. *)

#[export] Instance covered_dec l x : Decision (covered l x).
Proof. unfold covered. apply _. Defined.

(** The bytes [d] of a buffer at file offset [off] that the ranges [l] cover. *)
Definition rview (off : Z) (l : list (Z * Z)) (d : list byte) (c : Z -> byte) (o : Z) : byte :=
  if decide (covered l (o - off)) then default (c o) (d !! Z.to_nat (o - off)) else c o.

Definition bview (b : wblock) : (Z -> byte) -> Z -> byte :=
  rview (bk_off b) (bk_frags b) (bk_bytes b).

Fixpoint fview (bs : list wblock) (c : Z -> byte) : Z -> byte :=
  match bs with
  | [] => c
  | b :: bs => fview bs (bview b c)
  end.

(** Offset [o] is a dirty byte of one of the blocks. *)
Definition dirty (bs : list wblock) (o : Z) : Prop :=
  Exists (fun b => covered (bk_frags b) (o - bk_off b)) bs.

Definition in_block (b : wblock) (o : Z) : Prop := bk_off b <= o < bk_off b + MBUFSIZE.

(** A block: aligned, inside the file range, with at least one dirty range. *)
Record block_ok (b : wblock) : Prop := {
  bo_align : bk_off b mod MBUFSIZE = 0;
  bo_range : 0 <= bk_off b /\ bk_off b + MBUFSIZE <= 2 ^ 31;
  bo_frags : ranges_ok 0 MBUFSIZE (bk_frags b);
  bo_size : zlen (bk_bytes b) = MBUFSIZE
}.

(** The blocks of a cluster come in the order of their offsets, from [lo] on. *)
Fixpoint blocks_from (lo : Z) (bs : list wblock) : Prop :=
  match bs with
  | [] => True
  | b :: bs => lo <= bk_off b /\ block_ok b /\ blocks_from (bk_off b + MBUFSIZE) bs
  end.

Definition same_view (v v' : Z -> byte) : Prop := forall o, v o = v' o.

Lemma rview_ext off l d c c' o : c o = c' o -> rview off l d c o = rview off l d c' o.
Proof. unfold rview. by intros ->. Qed.

Lemma fview_ext bs : forall c c' o, c o = c' o -> fview bs c o = fview bs c' o.
Proof. induction bs as [|b bs IH]; intros c c' o Hc; simpl; [done|]. by apply IH, rview_ext. Qed.

Lemma covered_range l x : ranges_ok 0 MBUFSIZE l -> covered l x -> 0 <= x < MBUFSIZE.
Proof.
  intros Hl (r & Hr & Hx)%Exists_exists. destruct (ranges_ok_in _ _ _ _ Hl Hr). lia.
Qed.

Lemma bview_out b c o : block_ok b -> ~ in_block b o -> bview b c o = c o.
Proof.
  intros Hb Ho. unfold bview, rview. case_decide as Hc; [|done].
  apply covered_range in Hc; [|apply Hb]. unfold in_block in Ho. lia.
Qed.

Lemma blocks_from_weaken lo lo' bs : lo' <= lo -> blocks_from lo bs -> blocks_from lo' bs.
Proof. destruct bs; simpl; [done|]. intros ? (?&?&?). split_and!; lia || done. Qed.

Lemma blocks_from_app lo l1 l2 :
  blocks_from lo (l1 ++ l2) -> blocks_from lo l1 /\ blocks_from lo l2.
Proof.
  revert lo. induction l1 as [|b l1 IH]; intros lo; simpl; [done|].
  intros (?&?&[H1 H2]%IH). split_and!; try done.
  eapply blocks_from_weaken; [|done]. unfold MBUFSIZE. lia.
Qed.

Lemma blocks_from_in lo bs b : blocks_from lo bs -> b ∈ bs -> lo <= bk_off b /\ block_ok b.
Proof.
  revert lo. induction bs as [|c bs IH]; intros lo; simpl; [by intros _ ?%elem_of_nil|].
  intros (?&?&Hr) [->|Hb]%elem_of_cons; [done|]. destruct (IH _ Hr Hb).
  unfold MBUFSIZE in *. split; [lia|done].
Qed.

(** All blocks before [b] end at or before it, all after it start after it. *)
Lemma blocks_from_split lo l1 b l2 :
  blocks_from lo (l1 ++ b :: l2) <->
  blocks_from lo l1 /\ lo <= bk_off b /\ block_ok b /\
  (forall c, c ∈ l1 -> bk_off c + MBUFSIZE <= bk_off b) /\ blocks_from (bk_off b + MBUFSIZE) l2.
Proof.
  revert lo. induction l1 as [|c l1 IH]; intros lo; cbn [app blocks_from].
  - split; [intros (?&?&?); split_and!; try done; by intros c ?%elem_of_nil|by intros (_&?&?&_&?)].
  - rewrite IH. split.
    + intros (?&?&?&?&?&Hl&?). split_and!; try done; [unfold MBUFSIZE in *; lia|].
      intros d [->|Hd]%elem_of_cons; [done|by apply Hl].
    + intros ((?&?&?)&?&?&Hl&?). split_and!; try done; [apply Hl; by left|].
      intros d Hd. apply Hl. by right.
Qed.

Lemma fview_app l1 l2 c : fview (l1 ++ l2) c = fview l2 (fview l1 c).
Proof. revert c. induction l1 as [|b l1 IH]; intros c; simpl; [done|]. apply IH. Qed.

(** Outside its blocks the view is the server's file ... *)
Lemma fview_out lo bs c o :
  blocks_from lo bs -> (forall b, b ∈ bs -> ~ in_block b o) -> fview bs c o = c o.
Proof.
  revert lo c. induction bs as [|b bs IH]; intros lo c; simpl; [done|].
  intros (?&Hb&Hbs) Hout. rewrite (IH _ _ Hbs).
  - apply bview_out; [done|apply Hout; by left].
  - intros d Hd. apply Hout. by right.
Qed.

(** ... and inside a block it is that block's view. *)
Lemma fview_in lo l1 b l2 c o :
  blocks_from lo (l1 ++ b :: l2) -> in_block b o -> fview (l1 ++ b :: l2) c o = bview b c o.
Proof.
  intros Hok Ho. rewrite fview_app. simpl. apply blocks_from_split in Hok as (H1&_&Hb&Hl&H2).
  rewrite (fview_out (bk_off b + MBUFSIZE)); [|done|].
  - apply rview_ext. eapply fview_out; [exact H1|]. intros d Hd Hin. specialize (Hl _ Hd).
    unfold in_block in *. lia.
  - intros d Hd Hin. destruct (blocks_from_in _ _ _ H2 Hd). unfold in_block in *. lia.
Qed.

(** Bytes that are not dirty are the server's. *)
Lemma fview_clean bs : forall c o, ~ dirty bs o -> fview bs c o = c o.
Proof.
  induction bs as [|b bs IH]; intros c o; simpl; [done|]. unfold dirty. rewrite Exists_cons.
  intros Hd. rewrite IH by tauto. unfold bview, rview. case_decide; tauto.
Qed.

(** ** Writing into a block *)

Lemma bview_write b c off src fr' d' o :
  block_ok b -> 0 <= off -> 1 <= zlen src -> off + zlen src <= MBUFSIZE ->
  fr' = add_range (bk_frags b) off (off + zlen src - 1) ->
  copy_at (bk_bytes b) off src = Some d' ->
  rview (bk_off b) fr' d' c o = overlay (bview b c) (bk_off b + off) src o.
Proof.
  intros Hb H0 H1 HM -> Hcp.
  destruct (copy_at_Some (bk_bytes b) off src) as (d & Hd & Hlen & Hout & Hin); [done|rewrite bo_size by done; done|].
  rewrite Hcp in Hd. injection Hd as <-.
  pose proof (bo_size _ Hb) as Hsz. unfold zlen in Hsz, Hlen.
  set (x := o - bk_off b).
  assert (Hcov : covered (add_range (bk_frags b) off (off + zlen src - 1)) x <->
                 covered (bk_frags b) x \/ off <= x <= off + zlen src - 1).
  { apply (add_range_covered _ 0 MBUFSIZE); [apply Hb|lia]. }
  unfold bview, rview. change (o - bk_off b) with x.
  destruct (decide (off <= x < off + zlen src)) as [Hx|Hx].
  - rewrite decide_True by (apply Hcov; lia).
    destruct (lookup_lt_is_Some_2 src (Z.to_nat (x - off))) as [y Hy]; [unfold zlen in *; lia|].
    specialize (Hin (Z.to_nat (x - off))).
    rewrite decide_True in Hin by (unfold zlen in *; lia).
    replace (Z.to_nat off + Z.to_nat (x - off))%nat with (Z.to_nat x) in Hin by lia.
    rewrite Hin, Hy. simpl. symmetry. apply overlay_in; [lia|]. rewrite <-Hy. f_equal. lia.
  - rewrite overlay_out by (unfold x in *; lia). change (o - bk_off b) with x.
    destruct (decide (covered (bk_frags b) x)) as [Hc|Hc].
    + rewrite decide_True by tauto. f_equal. apply Hout.
      apply covered_range in Hc; [lia|apply Hb].
    + rewrite decide_False; [done|]. rewrite Hcov. intros [?|?]; [done|lia].
Qed.

(** A fresh block shows nothing. *)
Lemma bview_fresh b c o : bk_frags b = [] -> bview b c o = c o.
Proof. intros Hf. unfold bview, rview. rewrite Hf. case_decide as Hc; [by apply Exists_nil in Hc|done]. Qed.

(** Replacing a block by its written version overlays the whole view. *)
Lemma fview_write lo l1 b l2 c off src d' :
  blocks_from lo (l1 ++ b :: l2) -> 0 <= off -> 1 <= zlen src -> off + zlen src <= MBUFSIZE ->
  copy_at (bk_bytes b) off src = Some d' ->
  let b' := WBlock (bk_hdr b) (bk_mb b) (bk_off b)
              (add_range (bk_frags b) off (off + zlen src - 1)) d' in
  blocks_from lo (l1 ++ b' :: l2) /\
  same_view (fview (l1 ++ b' :: l2) c) (overlay (fview (l1 ++ b :: l2) c) (bk_off b + off) src).
Proof.
  intros Hok H0 H1 HM Hcp b'.
  pose proof (proj1 (blocks_from_split _ _ _ _) Hok) as (Hl1 & Hlo & Hb & Hlt & Hl2).
  assert (Hb' : block_ok b').
  { destruct Hb. constructor; try done; simpl.
    - apply add_range_ok; [done|lia..].
    - destruct (copy_at_Some (bk_bytes b) off src) as (d & Hd & Hlen & _); [done|lia|].
      rewrite Hcp in Hd. injection Hd as <-. unfold zlen in *. lia. }
  assert (Hok' : blocks_from lo (l1 ++ b' :: l2)) by by apply blocks_from_split.
  split; [done|]. intros o. destruct (decide (bk_off b <= o < bk_off b + MBUFSIZE)) as [Ho|Ho].
  - rewrite (fview_in lo l1 b') by done.
    transitivity (overlay (bview b c) (bk_off b + off) src o).
    { change (bview b' c o) with (rview (bk_off b) (bk_frags b') d' c o). by apply bview_write. }
    unfold overlay. by rewrite (fview_in lo l1 b).
  - rewrite overlay_out by lia. rewrite !fview_app. simpl. apply fview_ext.
    by rewrite !bview_out.
Qed.

(** Adding a block without dirty bytes changes nothing. *)
Lemma fview_fresh l1 b l2 c : bk_frags b = [] -> same_view (fview (l1 ++ b :: l2) c) (fview (l1 ++ l2) c).
Proof.
  intros Hf o. rewrite !fview_app. simpl. apply fview_ext. by apply bview_fresh.
Qed.

Section Flush.
Context {S : Type} `{HS : NfsFileServer S}.
Implicit Types (g : Global_T S) (w : WBUFCLUSTER) (F : frame) (s : S).

(** The transfer parameters the start-up code establishes. *)
Definition env_ok g : Prop := 1 <= ng_MaxWriteSize (g_NFSGlobal g).

(** File [fh] as seen through the blocks [bs]. *)
Definition seen g (fh : nfs_fh) (bs : list wblock) : Z -> byte :=
  fview bs (contents (g_NFSClnt g) fh).

Definition others_same g g' (fh : nfs_fh) : Prop :=
  forall f o, f <> fh -> contents (g_NFSClnt g') f o = contents (g_NFSClnt g) f o.

Definition settings_same g g' : Prop :=
  g_NFSGlobal g' = g_NFSGlobal g /\ g_WriteBufferLimit g' = g_WriteBufferLimit g.

Lemma nfs_write_ok g fh off Buf Num :
  env_ok g -> Num = zlen Buf -> 0 < zlen Buf < 2 ^ 31 -> 0 <= off -> off + zlen Buf < 2 ^ 32 ->
  idle (g_NFSClnt g) ->
  exists r s', nfs_write g fh off Buf Num = Some (r, set_NFSClnt s' g) /\
    write_outcome fh off Buf (g_NFSClnt g) r s'.
Proof.
  intros He -> HB Hoff Hlen Hi. unfold nfs_write. rewrite !u32_id by lia.
  destruct (_ >? 1) eqn:E; zbool.
  - destruct (nfs_MAWrite_spec (g_NFSGlobal g) fh off Buf (g_NFSClnt g)) as (r & s' & -> & Ho);
      [done|lia|done..|]. by exists r, s'.
  - destruct (nfs_MWrite_spec (g_NFSGlobal g) fh off Buf (g_NFSClnt g)) as (r & s' & -> & Ho);
      [done..|]. by exists r, s'.
Qed.

(** A transfer that did not fail reports the whole count. *)
Lemma write_outcome_ret fh off Buf s r s' :
  write_outcome fh off Buf s r s' ->
  (io_ret r = -1 /\ exists e, r = IoFail e) \/
  (io_ret r = zlen Buf /\ idle s' /\ (forall e, io_Res2 r e = e) /\
   forall f o, contents s' f o = write_to (contents s) (wargs fh off Buf) f o).
Proof.
  intros [_ Ho]. destruct r as [e|n L]; [left; eauto|right].
  destruct (Ho n L eq_refl) as (-> & ? & ?). by split_and!.
Qed.

Lemma write_to_same c fh off Buf o : write_to c (wargs fh off Buf) fh o = overlay (c fh) off Buf o.
Proof. unfold write_to; simpl. by rewrite decide_True. Qed.

(** A dirty range is the part of the buffer the transfer is given. *)
Lemma overlay_sub_list c off d From To o :
  0 <= From -> From <= To -> To < zlen d ->
  zlen (sub_list d From (To - From + 1)) = To - From + 1 /\
  overlay c (off + From) (sub_list d From (To - From + 1)) o = rview off [(From, To)] d c o.
Proof.
  intros H0 H1 H2. unfold zlen in H2. set (b := sub_list d From (To - From + 1)).
  assert (Hb : zlen b = To - From + 1).
  { unfold b, sub_list, zlen. rewrite length_take, length_drop. lia. }
  split; [done|]. unfold rview.
  assert (Hc : covered [(From, To)] (o - off) <-> off + From <= o <= off + To).
  { rewrite covered_cons. simpl. split; [intros [?|Hn]; [lia|by apply Exists_nil in Hn]|left; lia]. }
  destruct (decide (off + From <= o <= off + To)) as [Hin|Hout].
  - rewrite decide_True by by apply Hc.
    destruct (lookup_lt_is_Some_2 d (Z.to_nat (o - off))) as [y Hy]; [lia|].
    rewrite Hy. simpl. apply overlay_in; [lia|]. unfold b, sub_list.
    rewrite lookup_take_lt by lia. rewrite lookup_drop. etrans; [|exact Hy]. f_equal. lia.
  - rewrite decide_False by by rewrite Hc. apply overlay_out. lia.
Qed.

Lemma rview_cons off r l d c o :
  rview off (r :: l) d c o = rview off l d (rview off [r] d c) o.
Proof.
  unfold rview.
  assert (Hc : covered (r :: l) (o - off) <-> covered [r] (o - off) \/ covered l (o - off)).
  { rewrite !covered_cons. split; [tauto|].
    intros [[?|Hn]|?]; [tauto|by apply Exists_nil in Hn|tauto]. }
  repeat case_decide; try tauto. by destruct (d !! Z.to_nat (o - off)).
Qed.

(** Writing the ranges [l2] of a block, which follow [l1] in the table. *)
Lemma flush_ranges_ok l2 : forall l1 g fh h a d tl Res2,
  env_ok g -> idle (g_NFSClnt g) ->
  wbh_Info h = l1 ++ l2 ++ tl -> wbh_Data h = Some a -> mb_data (g_MBufs g) a = Some d ->
  zlen d = MBUFSIZE -> 0 <= wbh_FileOffs h -> wbh_FileOffs h + MBUFSIZE <= 2 ^ 31 ->
  ranges_ok 0 MBUFSIZE l2 ->
  exists ok Res2' s', flush_ranges (length l2) g fh h (zlen l1) Res2
    = Some (ok, Res2', set_NFSClnt s' g) /\
    (forall f o, f <> fh -> contents s' f o = contents (g_NFSClnt g) f o) /\
    (forall o, ~ covered l2 (o - wbh_FileOffs h) ->
     contents s' fh o = contents (g_NFSClnt g) fh o) /\
    (ok = true -> Res2' = Res2 /\ idle s' /\
     same_view (contents s' fh) (rview (wbh_FileOffs h) l2 d (contents (g_NFSClnt g) fh))).
Proof.
  induction l2 as [|[From To] l2 IH]; intros l1 g fh h a d tl Res2 He Hi Hinfo Ha Hd Hsz H0 HM Hr.
  { exists true, Res2, (g_NFSClnt g). simpl. split; [by destruct g|]. by split_and!. }
  destruct Hr as (Hr1 & Hr2 & Hr3 & Hr4). cbn [length flush_ranges].
  rewrite Hinfo. cbn [app]. rewrite arr_get_app_r. gsimpl. rewrite Ha. gsimpl. rewrite Hd. gsimpl.
  destruct (overlay_sub_list (contents (g_NFSClnt g) fh) (wbh_FileOffs h) d From To 0)
    as [Hl _]; [lia..|].
  unfold MBUFSIZE in *.
  destruct (nfs_write_ok g fh (wbh_FileOffs h + From) (sub_list d From (To - From + 1))
              (To - From + 1)) as (r & s1 & -> & Ho); [done|lia..|done|]. gsimpl.
  pose proof Ho as [Hfr _].
  assert (Hoth : forall f o, f <> fh -> contents s1 f o = contents (g_NFSClnt g) f o).
  { intros f o Hf. apply Hfr. by intros [-> _]. }
  assert (Hout : forall o, ~ covered ((From, To) :: l2) (o - wbh_FileOffs h) ->
          contents s1 fh o = contents (g_NFSClnt g) fh o).
  { intros o Hc. apply Hfr. intros [_ Hin]. simpl in Hin. apply Hc, covered_cons. left. simpl. lia. }
  destruct (write_outcome_ret _ _ _ _ _ _ Ho) as [[Hn [e ->]]|(Hn & Hi1 & Hres & Hc1)].
  { exists false, e, s1. by split_and!. }
  rewrite Hn, Hres. rewrite (proj2 (Z.ltb_ge _ _)) by lia.
  destruct (IH (l1 ++ [(From, To)]) (set_NFSClnt s1 g) fh h a d tl Res2)
    as (ok & Res2' & s' & Hrun & Hoth' & Hout' & Hok'); try done.
  { by rewrite <-app_assoc. }
  { eapply ranges_ok_weaken; [|exact Hr4]. lia. }
  replace (zlen l1 + 1) with (zlen (l1 ++ [(From, To)])) by zlia.
  exists ok, Res2', s'. split; [exact Hrun|]. split_and!.
  - intros f o Hf. rewrite Hoth' by done. by apply Hoth.
  - intros o Hc. rewrite Hout'; [by apply Hout|]. intros Hc'. apply Hc, covered_cons. by right.
  - intros Hk. destruct (Hok' Hk) as (-> & Hi' & Hv). split_and!; [done..|].
    intros o. rewrite Hv, rview_cons. apply rview_ext. gsimpl.
    rewrite Hc1, write_to_same. by apply overlay_sub_list; unfold MBUFSIZE; lia.
Qed.

(** The state after the blocks [bs] were given back: the cluster is empty and
    the pools have the buffers back. *)
Definition emptied g w (bs : list wblock) (hf mf : list addr) F g' w' : Prop :=
  same_cfg w w' /\ settings_same g g' /\ cluster_ok (g_WBufHdrs g') w' [] /\
  exists hf' mf', heap_ok g' [] hf' mf' F /\
    zlen hf' = zlen hf + zlen bs /\ zlen mf' = zlen mf + zlen bs.

Lemma emptied_nil g w hf mf F :
  heap_ok g [] hf mf F -> cluster_ok (g_WBufHdrs g) w [] -> emptied g w [] hf mf F g w.
Proof.
  intros Hh Hc. split_and!; try done. exists hf, mf. rewrite !(zlen_nil (A := wblock)), !Z.add_0_r.
  done.
Qed.

Lemma emptied_cons g g1 w w1 b bs hf mf F g' w' :
  settings_same g g1 -> same_cfg w w1 ->
  emptied g1 w1 bs (bk_hdr b :: hf) (bk_mb b :: mf) F g' w' -> emptied g w (b :: bs) hf mf F g' w'.
Proof.
  intros [Hs1 Hs2] [Hc1 Hc2] ([Hc1' Hc2'] & [Hs1' Hs2'] & Hc & hf' & mf' & Hh & H1 & H2).
  unfold emptied, same_cfg, settings_same. rewrite !zlen_cons in *.
  split_and!; try congruence; try done. exists hf', mf'. split_and!; [done|lia|lia].
Qed.

(** Releasing the head of the list. *)
Lemma release_head g w b bs hf mf F :
  heap_ok g (b :: bs) hf mf F -> cluster_ok (g_WBufHdrs g) w (b :: bs) ->
  exists g1 w1, WBufRemHead (g_WBufHdrs g) w = Some (Some (bk_hdr b), w1) /\
    ReleaseWBuf g (Some (bk_hdr b)) = Some g1 /\
    heap_ok g1 bs (bk_hdr b :: hf) (bk_mb b :: mf) F /\ cluster_ok (g_WBufHdrs g1) w1 bs /\
    same_env g g1 /\ same_cfg w w1.
Proof.
  intros Hok Hc.
  destruct (WBufRemHead_cons _ _ _ _ Hc) as (w1 & Hr & Hc1 & Hcfg).
  destruct (heap_ok_release _ _ _ _ _ _ Hok) as (g1 & Hrel & Hok1 & He & Hfr).
  exists g1, w1. split_and!; try done.
  eapply cluster_ok_frame; [|exact Hc1]. intros a Ha. apply Hfr. intros ->.
  destruct (own_nodup _ _ _ _ (ho_hnodup _ _ _ _ _ Hok)) as (_ & ? & _). done.
Qed.

Lemma same_env_settings g g' : same_env g g' -> settings_same g g'.
Proof. by intros (? & ? & _). Qed.

Lemma release_all_ok bs : forall fuel g w hf mf F,
  heap_ok g bs hf mf F -> cluster_ok (g_WBufHdrs g) w bs -> (length bs < fuel)%nat ->
  exists g' w', release_all fuel g w = Some (g', w') /\ emptied g w bs hf mf F g' w' /\
    g_NFSClnt g' = g_NFSClnt g.
Proof.
  induction bs as [|b bs IH]; intros [|fuel] g w hf mf F Hh Hc Hf; simpl in Hf; try lia;
    cbn [release_all].
  - rewrite (WBufRemHead_nil _ _ Hc). gsimpl. exists g, w. split; [done|].
    split; [by apply emptied_nil|done].
  - destruct (release_head _ _ _ _ _ _ _ Hh Hc) as (g1 & w1 & Hr & Hrel & Hh1 & Hc1 & He & Hcfg).
    rewrite Hr. gsimpl. rewrite Hrel. gsimpl.
    destruct (IH fuel g1 w1 _ _ F Hh1 Hc1) as (g' & w' & Hrun & Hem & Hs); [lia|].
    exists g', w'. split; [done|]. split.
    + eapply emptied_cons; [by apply same_env_settings|done..].
    + rewrite Hs. apply He.
Qed.

(** The outcome of flushing [bs]: (Res1, Res2). *)
Definition flushed g fh (bs : list wblock) (Res2 Res1 Res2' : Z) g' : Prop :=
  others_same g g' fh /\
  (forall o, ~ dirty bs o -> contents (g_NFSClnt g') fh o = contents (g_NFSClnt g) fh o) /\
  (Res1 = DOSFALSE \/
   (Res1 = DOSTRUE /\ Res2' = Res2 /\ idle (g_NFSClnt g') /\
    same_view (contents (g_NFSClnt g') fh) (seen g fh bs))).

Lemma flush_loop_ok bs : forall fuel g fh w ign Res2 hf mf F lo,
  heap_ok g bs hf mf F -> cluster_ok (g_WBufHdrs g) w bs -> blocks_from lo bs ->
  env_ok g -> idle (g_NFSClnt g) -> (length bs < fuel)%nat ->
  exists Res1 Res2' g' w', flush_loop fuel g fh w ign Res2 = Some (Res1, Res2', g', w') /\
    emptied g w bs hf mf F g' w' /\ flushed g fh bs Res2 Res1 Res2' g'.
Proof.
  induction bs as [|b bs IH]; intros [|fuel] g fh w ign Res2 hf mf F lo Hh Hc Hb He Hi Hf;
    simpl in Hf; try lia; cbn [flush_loop].
  { rewrite (WBufRemHead_nil _ _ Hc). gsimpl. exists DOSTRUE, Res2, g, w. split; [done|].
    split; [by apply emptied_nil|]. split_and!; try done. right. by split_and!. }
  destruct Hb as (Hlo & Hbk & Hb).
  destruct (heap_ok_hdr _ _ _ _ _ _ Hh) as (h & Hhd & Hinfo & Hoff & Hda & Hfr & Hd).
  destruct (info_split _ Hinfo) as (tl & Htl & Hnum). rewrite Hfr in Htl, Hnum.
  destruct (WBufRemHead_cons _ _ _ _ Hc) as (w0 & Hrem & _). rewrite Hrem. gsimpl.
  rewrite Hhd. gsimpl.
  destruct (flush_ranges_ok (bk_frags b) [] g fh h (bk_mb b) (bk_bytes b) tl Res2)
    as (ok & Res2' & s1 & Hrun & Hoth & Hout & Hok); try done; try (rewrite ?Hoff; apply Hbk).
  rewrite Hoff in Hout, Hok.
  (* whatever the count, the loop below writes exactly the ranges *)
  match goal with |- context [mbind _ ?X] => assert (HX : X = Some (ok, Res2', set_NFSClnt s1 g)) end.
  { rewrite Hnum. change (zlen []) with 0 in Hrun. unfold zlen at 3. rewrite Nat2Z.id, Hrun.
    destruct ((zlen (bk_frags b) <=? 0) && negb ign) eqn:E0.
    - apply andb_true_iff in E0 as [E0 _]. zbool.
      assert (bk_frags b = []) as E by (destruct (bk_frags b); [done|]; autorewrite with zlen in E0; pose proof (zlen_nonneg l); lia).
      rewrite E in Hrun. simpl in Hrun. injection Hrun as <- <- <-. by destruct g.
    - destruct (zlen (bk_frags b) <? 0) eqn:E1; [|done]. zbool.
      pose proof (zlen_nonneg (bk_frags b)). lia. }
  rewrite HX. clear HX. gsimpl.
  assert (Hh1 : heap_ok (set_NFSClnt s1 g) (b :: bs) hf mf F) by (destruct Hh; constructor; done).
  destruct (release_head _ w _ _ _ _ _ Hh1 Hc) as (g1 & w1 & Hr1 & Hrel & Hh2 & Hc2 & Hse & Hcfg).
  gsimpl in Hr1. rewrite Hrem in Hr1. injection Hr1 as ->. rewrite Hrel. gsimpl.
  pose proof (same_env_settings _ _ Hse) as Hst. destruct Hse as (_ & _ & Hs1). gsimpl in Hs1.
  assert (Hclean : forall o, ~ dirty (b :: bs) o ->
          ~ covered (bk_frags b) (o - bk_off b) /\ ~ dirty bs o).
  { intros o Hd'. unfold dirty in *. rewrite Exists_cons in Hd'. tauto. }
  destruct ok.
  - destruct (Hok eq_refl) as (-> & Hi1 & Hv).
    destruct (IH fuel g1 fh w1 ign Res2 (bk_hdr b :: hf) (bk_mb b :: mf) F _ Hh2 Hc2 Hb)
      as (Res1 & Res2'' & g' & w' & Hrun' & Hem & Hfo & Hfc & Hfr'); [| |lia|].
    { unfold env_ok. destruct Hst as [-> _]. done. }
    { by rewrite Hs1. }
    exists Res1, Res2'', g', w'. split; [done|]. split; [by eapply emptied_cons|].
    split_and!.
    + intros f o Hne. rewrite Hfo, Hs1 by done. by apply Hoth.
    + intros o Hd'. destruct (Hclean o Hd'). rewrite Hfc, Hs1 by done. by apply Hout.
    + destruct Hfr' as [->|(-> & -> & Hi' & Hv')]; [by left|right]. split_and!; [done..|].
      intros o. rewrite Hv'. unfold seen. rewrite Hs1. simpl. apply fview_ext. apply Hv.
  - destruct (release_all_ok bs (Datatypes.S fuel) g1 w1 (bk_hdr b :: hf) (bk_mb b :: mf) F Hh2 Hc2)
      as (g' & w' & Hrun' & Hem & Hs'); [lia|].
    change (release_all (Datatypes.S fuel) g1 w1 = Some (g', w')) in Hrun'.
    rewrite Hrun'. gsimpl. exists DOSFALSE, Res2', g', w'. split; [done|].
    split; [by eapply emptied_cons|]. split_and!; [| |by left].
    + intros f o Hne. rewrite Hs', Hs1. by apply Hoth.
    + intros o Hd'. destruct (Hclean o Hd'). rewrite Hs', Hs1. by apply Hout.
Qed.
End Flush.
