(* ===== verification/WBufGet.v ===== *)
(** * Getting a buffer of the write cache

    The step vocabulary of the write cache (what an operation keeps, what a
    failed flush may have done, what a completed step shows its user) and the
    lemmas for [flush_if] and [get_WBuf], which WBufSeekAndPrepare and WBufWrite
    share. *)
From S2P Require Import Prelude MBuf WBufInfo NfsProt NfsSupp Nfs NfsServer Global.
From S2P Require Import WBuf WBufRep WBufFlush.

Section Spec.
Context {S : Type} `{HS : NfsFileServer S}.
Implicit Types (g : Global_T S) (w : WBUFCLUSTER) (F : frame) (s : S).

Lemma iwc_FlushCache_ok g efh w bs hf mf F ign Res2 lo :
  efh_WBuf efh = Some w ->
  heap_ok g bs hf mf F -> cluster_ok (g_WBufHdrs g) w bs -> blocks_from lo bs ->
  env_ok g -> idle (g_NFSClnt g) ->
  exists Res1 Res2' g' w',
    iwc_FlushCache g efh ign Res2 = Some (Res1, Res2', g', set_WBuf (Some w') efh) /\
    emptied g w bs hf mf F g' w' /\ flushed g (efh_NFSFh efh) bs Res2 Res1 Res2' g'.
Proof.
  intros Hw Hh Hc Hb He Hi. unfold iwc_FlushCache. rewrite Hw.
  destruct (flush_loop_ok bs (Datatypes.S (Z.to_nat (wbc_WBufsUsed w))) g (efh_NFSFh efh) w ign
              Res2 hf mf F lo) as (Res1 & Res2' & g' & w' & Hrun & ?); try done.
  { rewrite (co_used _ _ _ Hc). unfold zlen. lia. }
  rewrite Hrun. gsimpl. by exists Res1, Res2', g', w'.
Qed.

(** What every step keeps, whatever its outcome. *)
Definition step_frame g w (fh : nfs_fh) g' w' : Prop :=
  settings_same g g' /\ wbc_WBufsMax w' = wbc_WBufsMax w /\ others_same g g' fh.

(** A step that failed: the cluster is empty, and only dirty bytes, or bytes
    of [X], may differ on the server. *)
Definition step_failed g (fh : nfs_fh) (bs : list wblock) (X : Z -> Prop) F g' w' : Prop :=
  cluster_ok (g_WBufHdrs g') w' [] /\ (exists hf' mf', heap_ok g' [] hf' mf' F) /\
  (forall o, ~ dirty bs o -> ~ X o ->
   contents (g_NFSClnt g') fh o = contents (g_NFSClnt g) fh o).

(** A step that succeeded with the blocks [bs'] in the cluster, the user's
    view being the old one as changed by [upd]. *)
Definition step_done g (fh : nfs_fh) (bs : list wblock) (upd : (Z -> byte) -> Z -> byte)
  g' (bs' : list wblock) : Prop :=
  idle (g_NFSClnt g') /\ same_view (seen g' fh bs') (upd (seen g fh bs)).

Lemma step_frame_refl g w fh : step_frame g w fh g w.
Proof. by split_and!. Qed.

Lemma step_frame_trans g w fh g1 w1 g' w' :
  step_frame g w fh g1 w1 -> step_frame g1 w1 fh g' w' -> step_frame g w fh g' w'.
Proof.
  intros ([Ha1 Ha2] & Hb & Hc) ([Ha1' Ha2'] & Hb' & Hc').
  split_and!; [split; congruence|congruence|].
  intros f o Hf. by rewrite Hc', Hc.
Qed.

Lemma step_failed_trans g g1 fh bs bs1 X F g' w' :
  (forall o, ~ dirty bs o -> ~ X o -> ~ dirty bs1 o /\
   contents (g_NFSClnt g1) fh o = contents (g_NFSClnt g) fh o) ->
  step_failed g1 fh bs1 X F g' w' -> step_failed g fh bs X F g' w'.
Proof.
  intros H1 (Hc & Hh & Ho). split_and!; [done..|].
  intros o Hd Hx. destruct (H1 o Hd Hx) as [Hd1 <-]. by apply Ho.
Qed.

Lemma emptied_frame g w bs hf mf F g' w' fh :
  emptied g w bs hf mf F g' w' -> others_same g g' fh -> step_frame g w fh g' w'.
Proof. intros ([? ?] & ? & _) Ho. by split_and!. Qed.

Lemma flush_if_ok cond g efh w bs hf mf F ign Res2 lo :
  efh_WBuf efh = Some w ->
  heap_ok g bs hf mf F -> cluster_ok (g_WBufHdrs g) w bs -> blocks_from lo bs ->
  env_ok g -> idle (g_NFSClnt g) ->
  exists ok Res2' g' w',
    flush_if cond g efh ign Res2 = Some (ok, Res2', g', set_WBuf (Some w') efh) /\
    step_frame g w (efh_NFSFh efh) g' w' /\ same_cfg w w' /\
    ((cond = false /\ ok = true /\ g' = g /\ w' = w) \/
     (cond = true /\ cluster_ok (g_WBufHdrs g') w' [] /\
      (exists hf' mf', heap_ok g' [] hf' mf' F /\
         zlen hf' = zlen hf + zlen bs /\ zlen mf' = zlen mf + zlen bs) /\
      if ok then step_done g (efh_NFSFh efh) bs (fun v => v) g' []
      else step_failed g (efh_NFSFh efh) bs (fun _ => False) F g' w')).
Proof.
  intros Hw Hh Hc Hb He Hi. unfold flush_if. destruct cond.
  - destruct (iwc_FlushCache_ok g efh w bs hf mf F ign Res2 lo)
      as (Res1 & Res2' & g' & w' & -> & Hem & Ho & Hcl & Hr); try done. gsimpl.
    eexists _, Res2', g', w'. split; [done|].
    split; [by eapply emptied_frame|]. destruct Hem as (Hcfg & _ & Hc' & Hfree). split; [done|].
    right. split_and!; [done..|]. destruct Hr as [->|(-> & _ & Hi' & Hv)]; simpl; [|done].
    destruct Hfree as (hf' & mf' & Hh' & _). split_and!; [done|by exists hf', mf'|].
    intros o Hd _. by apply Hcl.
  - exists true, Res2, g, w. split; [by destruct efh; simpl in *; subst|].
    split; [apply step_frame_refl|]. split; [done|]. left. done.
Qed.

(** ** Getting a buffer *)

Lemma zlen_pos_cons {A} (l : list A) : 0 < zlen l -> exists x l', l = x :: l'.
Proof. destruct l; [intros HH; by compute in HH|eauto]. Qed.

(** With something to flush there is always a buffer to be had. *)
Lemma obtain_after g bs hf mf F :
  heap_ok g bs hf mf F ->
  (exists n g' hf' mf', ObtainWBuf g = Some (Some (bk_hdr n), g') /\ bk_frags n = [] /\
     heap_ok g' (n :: bs) hf' mf' F /\ same_env g g' /\
     (forall x, x <> bk_hdr n -> g_WBufHdrs g' !! x = g_WBufHdrs g !! x)) \/
  (ObtainWBuf g = Some (None, g) /\ (zlen hf = 0 \/ zlen mf = 0)).
Proof.
  intros Hh. destruct hf as [|a hf]; [right; split; [eapply obtain_none; eauto|by left]|].
  destruct mf as [|m mf]; [right; split; [eapply obtain_none; eauto|by right]|].
  destruct (heap_ok_obtain _ _ _ _ _ _ _ Hh) as (g' & d & Ho & Hh' & He & Hfr).
  left. by exists (WBlock a m 0 [] d), g', hf, mf.
Qed.

Lemma cluster_ok_obtained g g' w bs n hf mf F :
  heap_ok g' (n :: bs) hf mf F ->
  (forall x, x <> bk_hdr n -> g_WBufHdrs g' !! x = g_WBufHdrs g !! x) ->
  cluster_ok (g_WBufHdrs g) w bs -> cluster_ok (g_WBufHdrs g') w bs.
Proof.
  intros Hh Hfr. apply cluster_ok_frame. intros a Ha. apply Hfr. intros ->.
  destruct (own_nodup _ _ _ _ (ho_hnodup _ _ _ _ _ Hh)) as (_ & ? & _). done.
Qed.

(** The outcome of [get_WBuf]. *)
Inductive got g w (fh : nfs_fh) (bs : list wblock) F g' w' : Z -> option addr -> bool -> Prop :=
  | got_fail (fl : bool) : step_failed g fh bs (fun _ => False) F g' w' -> got g w fh bs F g' w' (-1) None fl
  | got_none fl (hf' mf' : list addr) : bs = [] -> heap_ok g' [] hf' mf' F -> cluster_ok (g_WBufHdrs g') w' [] ->
    step_done g fh bs (fun v => v) g' [] -> got g w fh bs F g' w' 0 None fl
  | got_new (fl : bool) n bs' (hf' mf' : list addr) :
    bk_frags n = [] -> heap_ok g' (n :: bs') hf' mf' F -> cluster_ok (g_WBufHdrs g') w' bs' ->
    bs' = (if fl then [] else bs) -> (fl = false -> w' = w) ->
    step_done g fh bs (fun v => v) g' bs' -> got g w fh bs F g' w' 1 (Some (bk_hdr n)) fl.

Lemma seen_env g g' fh bs : same_env g g' -> seen g' fh bs = seen g fh bs.
Proof. intros (_ & _ & E). unfold seen. by rewrite E. Qed.

Lemma HasBuffered_ok efh w hdrs bs :
  efh_WBuf efh = Some w -> cluster_ok hdrs w bs -> HasBufferedWData efh = bool_decide (bs <> []).
Proof.
  intros Hw Hc. unfold HasBufferedWData. rewrite Hw, (co_used _ _ _ Hc).
  destruct bs; [done|]. rewrite zlen_cons. rewrite (proj2 (Z.eqb_neq _ _)) by zlia. done.
Qed.

Lemma step_done_refl g fh bs : idle (g_NFSClnt g) -> step_done g fh bs (fun v => v) g bs.
Proof. by split. Qed.

Lemma step_done_env g g1 g' fh bs bs' upd :
  same_env g1 g' -> step_done g fh bs upd g1 bs' -> step_done g fh bs upd g' bs'.
Proof.
  intros He [Hi Hv]. pose proof He as (_ & _ & E). split; [by rewrite E|].
  intros o. rewrite (seen_env _ _ _ _ He). apply Hv.
Qed.

Lemma step_frame_env g g1 g' w fh w' :
  same_env g1 g' -> step_frame g w fh g1 w' -> step_frame g w fh g' w'.
Proof.
  intros (E1 & E2 & E3) ([? ?] & ? & Ho). split_and!; [split; congruence|done|].
  intros f o Hf. rewrite E3. by apply Ho.
Qed.

(** Flushing when no buffer was free, and obtaining once more. *)
Lemma get_again_ok g efh w bs hf mf F ign Res2 lo :
  efh_WBuf efh = Some w ->
  heap_ok g bs hf mf F -> cluster_ok (g_WBufHdrs g) w bs -> blocks_from lo bs ->
  env_ok g -> idle (g_NFSClnt g) -> ObtainWBuf g = Some (None, g) -> bs <> [] ->
  exists ok Res2' g1 w',
    flush_if true g efh ign Res2 = Some (ok, Res2', g1, set_WBuf (Some w') efh) /\
    same_cfg w w' /\
    if (ok : bool) then
    exists n g', ObtainWBuf g1 = Some (Some (bk_hdr n), g') /\
    got g w (efh_NFSFh efh) bs F g' w' 1 (Some (bk_hdr n)) true /\
    step_frame g w (efh_NFSFh efh) g' w'
    else got g w (efh_NFSFh efh) bs F g1 w' (-1) None true /\
    step_frame g w (efh_NFSFh efh) g1 w'.
Proof.
  intros Hw Hh Hc Hb He Hi Ho Hne.
  destruct (flush_if_ok true g efh w bs hf mf F ign Res2 lo)
    as (ok & Res2' & g1 & w' & -> & Hsf & Hcfg & [[? _]|(_ & Hc1 & (hf1 & mf1 & Hh1 & Hl1 & Hl2) & Hr)]);
    try done.
  eexists ok, Res2', g1, w'. split; [done|]. split; [done|]. destruct ok; [|by split; [constructor|]].
  assert (0 < zlen bs) by (destruct bs; [done|zlia]).
  pose proof (zlen_nonneg hf). pose proof (zlen_nonneg mf).
  destruct (obtain_after g1 [] hf1 mf1 F Hh1)
    as [(n & g' & hf' & mf' & Hob & Hfr & Hh' & Hse & Hx)|[_ [|]]]; [|lia..].
  exists n, g'. split; [done|]. split; [|by eapply step_frame_env].
  eapply got_new; try done; [by eapply cluster_ok_obtained|by eapply step_done_env].
Qed.

Lemma get_WBuf_ok g efh w bs hf mf F ign Res2 lo :
  efh_WBuf efh = Some w ->
  heap_ok g bs hf mf F -> cluster_ok (g_WBufHdrs g) w bs -> blocks_from lo bs ->
  env_ok g -> idle (g_NFSClnt g) ->
  exists r nw fl Res2' g' w',
    get_WBuf g efh ign Res2 = Some (r, nw, fl, Res2', g', set_WBuf (Some w') efh) /\
    step_frame g w (efh_NFSFh efh) g' w' /\ same_cfg w w' /\
    got g w (efh_NFSFh efh) bs F g' w' r nw fl.
Proof.
  intros Hw Hh Hc Hb He Hi. unfold get_WBuf. rewrite Hw. gsimpl.
  destruct (flush_if_ok (WBufCacheFull w) g efh w bs hf mf F ign Res2 lo)
    as (ok & Res2' & g1 & w1 & -> & Hsf & Hcfg & Hcase); try done. gsimpl.
  destruct Hcase as [(-> & -> & -> & ->)|(-> & Hc1 & (hf1 & mf1 & Hh1 & Hl1 & Hl2) & Hr)].
  - (* the cluster is not full *)
    simpl negb. cbv iota.
    destruct (obtain_after g bs hf mf F Hh)
      as [(n & g' & hf' & mf' & Hob & Hfr & Hh' & Hse & Hx)|[Hob Hz]]; rewrite Hob; gsimpl.
    + rewrite bool_decide_false by done. simpl.
      eexists _, _, _, Res2', g', w. split; [done|]. split; [by eapply step_frame_env|]. split; [done|].
      eapply got_new; try done; [by eapply cluster_ok_obtained|].
      eapply step_done_env; [done|by apply step_done_refl].
    + rewrite bool_decide_true by done. rewrite (HasBuffered_ok (set_WBuf (Some w) efh) w _ _ eq_refl Hc).
      case_bool_decide as Hbs; simpl andb.
      * destruct (get_again_ok g (set_WBuf (Some w) efh) w bs hf mf F ign Res2' lo)
          as (ok & R & g2 & w2 & -> & Hcfg2 & Hr2); try done. gsimpl.
        destruct ok; simpl negb; cbv iota.
        -- destruct Hr2 as (n & g' & -> & Hgot & Hsf2). gsimpl.
          eexists _, _, _, R, g', w2. by split_and!.
        -- destruct Hr2 as (Hgot & Hsf2). eexists _, _, _, R, g2, w2. by split_and!.
      * assert (bs = []) as -> by (destruct bs; [done|by destruct Hbs]). simpl.
        eexists _, _, _, Res2', g, w. split; [done|]. split; [done|]. split; [done|].
        eapply got_none; try done.
  - destruct ok; simpl negb; cbv iota.
    2:{ eexists _, _, _, Res2', g1, w1. split; [done|]. split; [done|]. split; [done|]. by constructor. }
    destruct (obtain_after g1 [] hf1 mf1 F Hh1)
      as [(n & g' & hf' & mf' & Hob & Hfr & Hh' & Hse & Hx)|[Hob Hz]]; rewrite Hob; gsimpl.
    + rewrite bool_decide_false by done. simpl.
      eexists _, _, _, Res2', g', w1. split; [done|]. split; [by eapply step_frame_env|]. split; [done|].
      eapply got_new; try done; [by eapply cluster_ok_obtained|by eapply step_done_env].
    + rewrite bool_decide_true by done. rewrite (HasBuffered_ok (set_WBuf (Some w1) efh) w1 _ _ eq_refl Hc1). simpl.
      eexists _, _, _, Res2', g1, w1. split; [done|]. split; [done|]. split; [done|].
      eapply got_none; try done.
      destruct bs; [done|exfalso]. rewrite zlen_cons in *.
      pose proof (zlen_nonneg hf). pose proof (zlen_nonneg mf). pose proof (zlen_nonneg bs). lia.
Qed.
End Spec.
