(* ===== verification/WBufSeek.v ===== *)
(** * Positioning in the write cache

    [WBufSeekAndPrepare] leaves [wbc_PosData] at the block that holds the
    position, or at the last block before it ([pos_ok]); this is what
    [WBufWrite] requires of it. *)
From S2P Require Import Prelude MBuf WBufInfo NfsProt NfsSupp Nfs NfsServer Global.
From S2P Require Import WBuf WBufRep WBufFlush WBufGet.

(** Slots a table needs to take one more range at its start. *)
Definition frag_cost (l : list (Z * Z)) : Z :=
  zlen l + match l with (0, _) :: _ => 0 | _ => 1 end.

(** A header keeps a slot for a range at the start of its buffer. *)
Definition room (b : wblock) : Prop := frag_cost (bk_frags b) <= WBUFHDRINFOSIZE - 1.

(** The position is in block [p], or after it and not after the start of the
    next block. *)
Definition pos_ok (p : wblock) (l2 : list wblock) (pos : Z) : Prop :=
  bk_off p <= pos /\
  (pos < bk_off p + MBUFSIZE \/ match l2 with [] => True | c :: _ => pos <= bk_off c end).

Lemma WBufAlignFileOffs_spec pos :
  0 <= pos < 2 ^ 31 -> WBufAlignFileOffs pos = pos - pos mod MBUFSIZE.
Proof.
  intros Hp. unfold WBufAlignFileOffs. rewrite (u32_id pos) by lia.
  replace (u32 (4294967295 - (MBUFSIZE - 1))) with (Z.shiftl (Z.ones 19) 13) by reflexivity.
  assert (E : Z.land pos (Z.shiftl (Z.ones 19) 13) = Z.shiftl (Z.shiftr pos 13) 13).
  { apply Z.bits_inj'. intros i Hi. rewrite Z.land_spec, !Z.shiftl_spec by lia.
    destruct (decide (i < 13)).
    - rewrite !(Z.testbit_neg_r _ (i - 13)) by lia. by rewrite andb_false_r.
    - rewrite Z.shiftr_spec by lia. replace (i - 13 + 13) with i by lia.
      destruct (decide (i < 32)).
      + rewrite Z.ones_spec_low by lia. by rewrite andb_true_r.
      + rewrite (Z.bits_above_log2 pos i); [done|lia|].
        destruct (decide (pos = 0)) as [->|]; [simpl; lia|].
        assert (Z.log2 pos < 31) by (apply Z.log2_lt_pow2; lia). lia. }
  rewrite E, Z.shiftl_mul_pow2, Z.shiftr_div_pow2 by lia. change (2 ^ 13) with MBUFSIZE.
  pose proof (Z.div_mod pos MBUFSIZE). pose proof (Z.mod_pos_bound pos MBUFSIZE).
  unfold MBUFSIZE in *. rewrite s32_id; lia.
Qed.

Section Seek.
Context {S : Type} `{HS : NfsFileServer S}.
Implicit Types (g : Global_T S) (w : WBUFCLUSTER) (F : frame) (s : S).

(** The pools and the cluster as a write leaves them. *)
Record cache g w (bs : list wblock) (hf mf : list addr) F : Prop := {
  c_heap : heap_ok g bs hf mf F;
  c_list : cluster_ok (g_WBufHdrs g) w bs;
  c_ord : blocks_from 0 bs;
  c_room : Forall room bs
}.

Lemma block_hdr g bs hf mf F b :
  heap_ok g bs hf mf F -> b ∈ bs ->
  exists h, g_WBufHdrs g !! bk_hdr b = Some h /\ wbh_FileOffs h = bk_off b.
Proof.
  intros Hh Hb. destruct (heap_ok_in _ _ _ _ _ _ Hb Hh) as (own' & _ & Hh').
  destruct (heap_ok_hdr _ _ _ _ _ _ Hh') as (h & ? & _ & ? & _). by exists h.
Qed.

Lemma block_next g w l1 p l2 hf mf F :
  heap_ok g (l1 ++ p :: l2) hf mf F -> cluster_ok (g_WBufHdrs g) w (l1 ++ p :: l2) ->
  exists h, g_WBufHdrs g !! bk_hdr p = Some h /\ wbh_FileOffs h = bk_off p /\
    wbh_Next h = bk_hdr <$> head l2.
Proof.
  intros Hh Hc. destruct (block_hdr _ _ _ _ _ p Hh) as (h & Hp & Ho).
  { apply elem_of_app. right. by left. }
  exists h. split_and!; try done. pose proof (co_chain _ _ _ Hc) as Hch.
  rewrite fmap_app, fmap_cons in Hch. apply chain_app in Hch as (r & _ & _ & h' & Hp' & Hch).
  rewrite Hp in Hp'. injection Hp' as <-. destruct l2 as [|c l2]; [done|].
  rewrite fmap_cons in Hch. by apply chain_nonnull in Hch.
Qed.

Lemma seek_scan_ok g w hf mf F Pos l2 : forall l1 b fuel,
  heap_ok g (l1 ++ b :: l2) hf mf F -> cluster_ok (g_WBufHdrs g) w (l1 ++ b :: l2) ->
  Forall (fun c => bk_off c < Pos) l1 -> (exists c, c ∈ b :: l2 /\ Pos <= bk_off c) ->
  (length l2 < fuel)%nat ->
  exists m1 c m2, l1 ++ b :: l2 = m1 ++ c :: m2 /\
    seek_scan fuel (g_WBufHdrs g) Pos (bk_hdr <$> last l1) (bk_hdr b)
    = Some (bk_hdr <$> last m1, bk_hdr c) /\
    Forall (fun c => bk_off c < Pos) m1 /\ Pos <= bk_off c.
Proof.
  induction l2 as [|d l2 IH]; intros l1 b [|fuel] Hh Hc Hl1 (c & Hin & Hge) Hf; simpl in Hf;
    try lia; cbn [seek_scan];
    destruct (block_next _ _ _ _ _ _ _ _ Hh Hc) as (h & Hb & Ho & Hn); rewrite Hb; gsimpl; rewrite Ho;
    destruct (bk_off b <? Pos) eqn:E; zbool.
  - apply list_elem_of_singleton in Hin as ->. lia.
  - exists l1, b, []. by split_and!.
  - rewrite Hn. simpl. destruct (IH (l1 ++ [b]) d fuel) as (m1 & e & m2 & Hm & Hs & ? & ?).
    + by rewrite <-app_assoc.
    + by rewrite <-app_assoc.
    + apply Forall_app. split; [done|]. by constructor.
    + apply elem_of_cons in Hin as [->|Hin]; [lia|]. by exists c.
    + lia.
    + exists m1, e, m2. rewrite <-app_assoc in Hm. rewrite last_snoc in Hs. by split_and!.
  - exists l1, b, (d :: l2). by split_and!.
Qed.

Definition relpos_ok (bs : list wblock) (NewPos : Z) (rel : relpos) : Prop :=
  match rel with
  | RelAddHead => forall b, b ∈ bs -> NewPos < bk_off b
  | RelAddTail a => exists l1 p, bs = l1 ++ [p] /\ a = bk_hdr p /\ pos_ok p [] NewPos
  | RelInsert a =>
        exists l1 p l2, bs = l1 ++ p :: l2 /\ a = Some (bk_hdr p) /\ pos_ok p l2 NewPos
  end.

Lemma scan_result bs NewPos m1 c m2 :
  blocks_from 0 bs -> bs = m1 ++ c :: m2 -> (forall b bs', bs = b :: bs' -> bk_off b <= NewPos) ->
  Forall (fun c => bk_off c < NewPos - MBUFSIZE) m1 -> NewPos - MBUFSIZE <= bk_off c ->
  relpos_ok bs NewPos (RelInsert (if bk_off c >? NewPos then bk_hdr <$> last m1
                                  else Some (bk_hdr c))).
Proof.
  intros Hb -> Hfirst Hm1 Hc. unfold relpos_ok. destruct (bk_off c >? NewPos) eqn:E; zbool.
  - destruct m1 as [|p m1 _] using rev_ind.
    { specialize (Hfirst c m2 eq_refl). lia. }
    exists m1, p, (c :: m2). rewrite last_snoc, <-app_assoc. split_and!; [done..|].
    apply Forall_app in Hm1 as [_ Hp]. rewrite Forall_singleton in Hp.
    split; [unfold MBUFSIZE in *; lia|right; lia].
  - exists m1, c, m2. split_and!; [done..|]. split; [lia|].
    destruct (decide (NewPos < bk_off c + MBUFSIZE)); [by left|right].
    apply blocks_from_split in Hb as (_ & _ & _ & _ & Hm2).
    destruct m2 as [|d m2]; [done|]. destruct Hm2 as [Hd _]. lia.
Qed.

Lemma seek_relpos_ok g w bs hf mf F NewPos :
  heap_ok g bs hf mf F -> cluster_ok (g_WBufHdrs g) w bs -> blocks_from 0 bs ->
  exists rel, seek_relpos (g_WBufHdrs g) w NewPos = Some rel /\ relpos_ok bs NewPos rel.
Proof.
  intros Hh Hc Hb. unfold seek_relpos. pose proof Hc as [Hch Hl Hu]. destruct bs as [|f bs].
  { simpl in Hch. rewrite Hch. exists RelAddHead. split; [done|]. by intros b ?%elem_of_nil. }
  rewrite fmap_cons in Hch. rewrite (chain_nonnull _ _ _ _ _ _ Hch). gsimpl.
  destruct (block_hdr _ _ _ _ _ f Hh) as (h & -> & Ho); [by left|]. gsimpl. rewrite Ho.
  destruct (NewPos <? bk_off f) eqn:E; zbool.
  { exists RelAddHead. split; [done|]. intros b [->|Hin]%elem_of_cons; [done|].
    destruct Hb as (_ & _ & Hb). destruct (blocks_from_in _ _ _ Hb Hin). unfold MBUFSIZE in *. lia. }
  rewrite Hl by done.
  destruct (exists_last (l := f :: bs)) as (l1 & p & Hp); [done|]. rewrite Hp, last_snoc.
  cbn [fmap option_fmap option_map]. gsimpl.
  destruct (block_hdr _ _ _ _ _ p Hh) as (hp & -> & Hpo).
  { rewrite Hp. apply elem_of_app. right. by left. }
  gsimpl. unfold WBufHdrLastPos. rewrite Hpo.
  destruct (NewPos >=? bk_off p + MBUFSIZE) eqn:E1; zbool.
  { exists (RelAddTail (bk_hdr p)). split; [done|]. exists l1, p. split_and!; try done.
    split; [unfold MBUFSIZE in *; lia|by right]. }
  destruct (seek_scan_ok g w hf mf F (NewPos - MBUFSIZE) bs [] f
              (Datatypes.S (Z.to_nat (wbc_WBufsUsed w))) Hh Hc)
    as (m1 & c & m2 & Hm & Hs & Hm1 & Hcm).
  { constructor. }
  { exists p. split; [rewrite Hp; apply elem_of_app; right; by left|lia]. }
  { rewrite Hu, zlen_cons. unfold zlen. lia. }
  change ([] ++ f :: bs) with (f :: bs) in Hm.
  change (bk_hdr <$> last []) with (@None addr) in Hs. rewrite Hs. gsimpl.
  destruct (block_hdr _ _ _ _ _ c Hh) as (hc & -> & Hco).
  { rewrite Hm. apply elem_of_app. right. by left. }
  gsimpl. rewrite Hco. rewrite <-Hp.
  pose proof (scan_result (f :: bs) NewPos m1 c m2 Hb Hm) as Hrel.
  eexists. split; [|apply Hrel; try done; by intros b bs' [= <- <-]].
  by destruct (bk_off c >? NewPos).
Qed.

(** A block for position [pos] in front of all others. *)
Lemma align_block pos :
  0 <= pos -> pos + MBUFSIZE <= 2 ^ 31 ->
  WBufAlignFileOffs pos mod MBUFSIZE = 0 /\ 0 <= WBufAlignFileOffs pos <= pos /\
  pos < WBufAlignFileOffs pos + MBUFSIZE.
Proof.
  intros H0 H1. rewrite WBufAlignFileOffs_spec by (unfold MBUFSIZE in *; lia).
  pose proof (Z.mod_pos_bound pos MBUFSIZE). pose proof (Z.div_mod pos MBUFSIZE).
  unfold MBUFSIZE in *. split; [|lia].
  rewrite Zminus_mod_idemp_r. by rewrite Z.sub_diag.
Qed.

(** An aligned offset after [pos] is at least one whole buffer after the
    start of the buffer of [pos]. *)
Lemma align_before pos off :
  0 <= pos -> pos + MBUFSIZE <= 2 ^ 31 -> off mod MBUFSIZE = 0 -> pos < off ->
  WBufAlignFileOffs pos + MBUFSIZE <= off.
Proof.
  intros H0 H1 H2 H3. destruct (align_block pos H0 H1) as (Ha & Hb & Hc).
  rewrite (Z.div_mod off MBUFSIZE), H2 in H3 |- * by done.
  rewrite (Z.div_mod (WBufAlignFileOffs pos) MBUFSIZE), Ha in Hb, Hc |- * by done.
  unfold MBUFSIZE in *. nia.
Qed.

(** ... and one that ends at or before [pos] ends at or before that start. *)
Lemma align_after pos off :
  0 <= pos -> pos + MBUFSIZE <= 2 ^ 31 -> off mod MBUFSIZE = 0 -> off + MBUFSIZE <= pos ->
  off + MBUFSIZE <= WBufAlignFileOffs pos.
Proof.
  intros H0 H1 H2 H3. destruct (align_block pos H0 H1) as (Ha & Hb & Hc).
  rewrite (Z.div_mod off MBUFSIZE), H2 in H3 |- * by done.
  rewrite (Z.div_mod (WBufAlignFileOffs pos) MBUFSIZE), Ha in Hb, Hc |- * by done.
  unfold MBUFSIZE in *. nia.
Qed.

(** What WBufWrite requires on entry. *)
Record at_pos g w l1 p l2 hf mf F (pos : Z) : Prop := {
  ap_cache : cache g w (l1 ++ p :: l2) hf mf F;
  ap_pos : wbc_PosData w = Some (bk_hdr p);
  ap_filepos : wbc_FilePos w = pos;
  ap_ok : pos_ok p l2 pos
}.

(** The blocks of [bs'] are blocks of [bs] or have nothing recorded. *)
Definition old_or_new (bs bs' : list wblock) : Prop :=
  forall b, b ∈ bs' -> b ∈ bs \/ bk_frags b = [].

Lemma heap_ok_size g b own hf mf F : heap_ok g (b :: own) hf mf F -> zlen (bk_bytes b) = MBUFSIZE.
Proof.
  intros Hh. destruct (heap_ok_hdr _ _ _ _ _ _ Hh) as (h & _ & _ & _ & _ & _ & Hd).
  unfold mb_data in Hd. destruct (mb_mem _ !! _) as [n|] eqn:E; [|done]. injection Hd as <-.
  by eapply mb_ok_size; [apply Hh|].
Qed.

(** The buffer for position [pos], prepared but not yet linked. *)
Lemma prepare_ok g n bs hf mf F pos :
  heap_ok g (n :: bs) hf mf F -> 0 <= pos -> pos + MBUFSIZE <= 2 ^ 31 ->
  exists hdrs' n', set_Prepared (g_WBufHdrs g) (bk_hdr n) (WBufAlignFileOffs pos) = Some hdrs' /\
    bk_hdr n' = bk_hdr n /\ bk_frags n' = [] /\ bk_off n' = WBufAlignFileOffs pos /\
    block_ok n' /\ room n' /\ heap_ok (set_WBufHdrs hdrs' g) (n' :: bs) hf mf F /\
    (forall w bs', bs' = bs -> cluster_ok (g_WBufHdrs g) w bs' -> cluster_ok hdrs' w bs').
Proof.
  intros Hh H0 H1. destruct (align_block pos H0 H1) as (Ha & Hb & Hc).
  destruct (heap_ok_set_Prepared _ _ _ _ _ _ (WBufAlignFileOffs pos) Hh) as (hdrs' & Hs & Hh' & Hx).
  eexists hdrs', _. split; [done|]. split; [|split; [|split; [|split; [|split; [|split; [exact Hh'|]]]]]];
    try done.
  - constructor; simpl; [done|lia|done|]. by eapply heap_ok_size.
  - intros w bs' ->. apply cluster_ok_frame. intros a Hin. apply Hx. intros ->.
    by eapply own_not_in.
Qed.

Lemma set_WBufHdrs_env g hdrs' : same_env g (set_WBufHdrs hdrs' g).
Proof. done. Qed.

Lemma step_done_fresh g fh bs g' l1 n l2 upd :
  bk_frags n = [] -> step_done g fh bs upd g' (l1 ++ l2) -> step_done g fh bs upd g' (l1 ++ n :: l2).
Proof.
  intros Hn [Hi Hv]. split; [done|]. intros o. rewrite <-Hv. unfold seen. by rewrite fview_fresh.
Qed.

Lemma WBufSeekAndPrepare_ok g efh w bs hf mf F NewPos Res2 :
  efh_WBuf efh = Some w -> cache g w bs hf mf F -> env_ok g -> idle (g_NFSClnt g) ->
  0 <= NewPos -> NewPos + MBUFSIZE <= 2 ^ 31 ->
  exists r R g' w',
    WBufSeekAndPrepare g efh NewPos Res2 = Some (r, R, g', set_WBuf (Some w') efh) /\
    step_frame g w (efh_NFSFh efh) g' w' /\
    ((r = -1 /\ step_failed g (efh_NFSFh efh) bs (fun _ => False) F g' w') \/
     (r = 0 /\ cluster_ok (g_WBufHdrs g') w' [] /\ (exists hf' mf', heap_ok g' [] hf' mf' F) /\
      step_done g (efh_NFSFh efh) bs (fun v => v) g' []) \/
     (r = 1 /\ exists l1 p l2 hf' mf', at_pos g' w' l1 p l2 hf' mf' F NewPos /\
        step_done g (efh_NFSFh efh) bs (fun v => v) g' (l1 ++ p :: l2) /\
        old_or_new bs (l1 ++ p :: l2))).
Proof.
  intros Hw [Hh Hc Hb Hrm] He Hi H0 H1. unfold WBufSeekAndPrepare. rewrite Hw. gsimpl.
  destruct (seek_relpos_ok g w bs hf mf F NewPos Hh Hc Hb) as (rel & -> & Hrel). gsimpl.
  destruct rel as [|a|a]; simpl in Hrel.
  2:{ destruct Hrel as (l1 & p & -> & -> & Hp). simpl.
    eexists _, _, g, _. split; [done|]. split; [done|]. right; right. split; [done|].
    exists l1, p, [], hf, mf. split_and!; [|by apply step_done_refl|intros b; by left].
    constructor; [|done..]. constructor; try done. destruct Hc. by constructor. }
  2:{ destruct Hrel as (l1 & p & l2 & -> & -> & Hp). simpl.
    eexists _, _, g, _. split; [done|]. split; [done|]. right; right. split; [done|].
    exists l1, p, l2, hf, mf. split_and!; [|by apply step_done_refl|intros b; by left].
    constructor; [|done..]. constructor; try done. destruct Hc. by constructor. }
  set (w0 := set_wbcFilePos NewPos w).
  assert (Hc0 : cluster_ok (g_WBufHdrs g) w0 bs) by (destruct Hc; by constructor).
  destruct (get_WBuf_ok g (set_WBuf (Some w0) efh) w0 bs hf mf F false Res2 0)
    as (r & nw & fl & R & g1 & w1 & -> & Hsf & [Hmax Hfp] & Hgot); try done. gsimpl.
  gsimpl in Hsf. gsimpl in Hgot.
  destruct Hgot as [fl Hf|fl hf' mf' -> Hh' Hc' Hd|fl n bs' hf' mf' Hfr Hh' Hc' Hbs Hfw Hd].
  - eexists _, _, g1, w1. split; [done|]. split; [done|]. by left.
  - eexists _, _, g1, w1. split; [done|]. split; [done|]. right; left.
    split_and!; try done. by exists hf', mf'.
  - assert (Hsub : forall b, b ∈ bs' -> b ∈ bs).
    { rewrite Hbs. destruct fl; [by intros b ?%elem_of_nil|done]. }
    assert (Hb' : blocks_from 0 bs') by (rewrite Hbs; by destruct fl).
    assert (Hr' : Forall room bs') by (rewrite Hbs; by destruct fl).
    destruct (prepare_ok g1 n bs' hf' mf' F NewPos Hh' H0 H1)
      as (hd & n' & -> & Hn1 & Hn2 & Hn3 & Hn4 & Hn5 & Hh2 & Hc2). gsimpl. rewrite <-Hn1.
    destruct (WBufAddHead_ok (set_WBufHdrs hd g1) (set_PosData (Some (bk_hdr n')) w1) n' bs' hf' mf' F Hh2)
      as (hd' & w' & Hadd & Hh3 & Hc3 & [Hm3 Hf3] & Hp3).
    { destruct (Hc2 w1 bs' eq_refl Hc'). by constructor. }
    gsimpl in Hadd. rewrite Hadd. gsimpl.
    destruct (align_block NewPos H0 H1) as (Ha1 & Ha2 & Ha3).
    eexists _, _, _, w'. split; [done|].
    split. { destruct Hsf as (? & Hm & ?). split_and!; [done|simpl in *; congruence|done]. }
    right; right. split; [done|]. exists [], n', bs', hf', mf'. split_and!.
    + constructor; [|done|simpl in *; congruence|rewrite <-Hn3 in *; split; [lia|left; lia]].
      constructor; [done|done| |by constructor].
      split; [lia|]. split; [done|]. destruct bs' as [|c bs']; [done|].
      pose proof (Hsub c (list_elem_of_here _ _)) as Hcb.
      destruct (blocks_from_in _ _ _ Hb Hcb) as [_ Hcok]. destruct Hb' as (? & ? & ?).
      split_and!; [|done..]. rewrite Hn3. apply align_before; try done; [apply Hcok|by apply Hrel].
    + apply (step_done_fresh _ _ _ _ [] n' bs'); [done|]. by eapply step_done_env.
    + intros b [->|Hin]%elem_of_cons; [by right|left; by apply Hsub].
Qed.

(** ** Finding the buffer of the next byte *)

Lemma blocks_from_insert l1 p n l2 :
  blocks_from 0 (l1 ++ p :: l2) -> block_ok n -> bk_off p + MBUFSIZE <= bk_off n ->
  match l2 with [] => True | c :: _ => bk_off n + MBUFSIZE <= bk_off c end ->
  blocks_from 0 (l1 ++ p :: n :: l2).
Proof.
  rewrite !blocks_from_split. intros (? & ? & ? & ? & Hl2) Hn Hp Hc. split_and!; try done.
  split; [done|]. split; [done|]. destruct l2 as [|c l2]; [done|].
  destruct Hl2 as (_ & ? & ?). by split_and!.
Qed.

Lemma dirty_app l1 l2 o : dirty (l1 ++ l2) o <-> dirty l1 o \/ dirty l2 o.
Proof. apply Exists_app. Qed.

Lemma dirty_cons b l o : dirty (b :: l) o <-> covered (bk_frags b) (o - bk_off b) \/ dirty l o.
Proof. apply Exists_cons. Qed.

Lemma not_covered_nil x : ~ covered [] x.
Proof. by intros ?%Exists_nil. Qed.

(** Linking a new buffer after [p], or into the emptied cluster. *)
Lemma insert_new_ok g w l1 p l2 (fl : bool) bs' n hf mf F :
  bs' = (if fl then [] else l1 ++ p :: l2) ->
  heap_ok g (n :: bs') hf mf F -> cluster_ok (g_WBufHdrs g) w bs' ->
  blocks_from 0 (l1 ++ p :: l2) -> block_ok n -> bk_off p + MBUFSIZE <= bk_off n ->
  match l2 with [] => True | c :: _ => bk_off n + MBUFSIZE <= bk_off c end ->
  exists hd' w' m1 m2,
    WBufInsert (g_WBufHdrs g) w (if fl then None else Some (bk_hdr p)) (bk_hdr n) = Some (hd', w') /\
    heap_ok (set_WBufHdrs hd' g) (m1 ++ n :: m2) hf mf F /\ cluster_ok hd' w' (m1 ++ n :: m2) /\
    same_cfg w w' /\ wbc_PosData w' = wbc_PosData w /\ bs' = m1 ++ m2 /\
    blocks_from 0 (m1 ++ n :: m2).
Proof.
  intros -> Hh Hc Hb Hn Hpn Hnc. destruct fl.
  - destruct (WBufAddHead_ok _ _ _ _ _ _ _ Hh Hc) as (hd' & w' & Hr & Hh' & Hc' & Hcfg & Hpd).
    exists hd', w', [], []. split_and!; try done. split; [apply Hn|done].
  - destruct (WBufInsert_ok _ _ _ _ _ _ _ _ _ Hh Hc) as (hd' & w' & Hr & Hh' & Hc' & Hcfg & Hpd).
    exists hd', w', (l1 ++ [p]), l2. rewrite <-!app_assoc. split_and!; try done.
    + eapply heap_ok_perm; [|exact Hh']. simpl.
      rewrite (Permutation_middle l1 (p :: l2) n). by rewrite (Permutation_swap p n l2).
    + by apply blocks_from_insert.
Qed.

(** The buffer found: PosData's, or the one after it when the position is
    exactly its start. *)
Definition located w p b (l1 : list wblock) (pos : Z) : Prop :=
  (wbc_PosData w = Some (bk_hdr b) /\ (b = p \/ bk_frags b = [])) \/
  (wbc_PosData w = Some (bk_hdr p) /\ p ∈ l1 /\ pos = bk_off b).

Lemma WBufLocate_ok g efh w l1 p l2 hf mf F pos Res2 :
  efh_WBuf efh = Some w -> at_pos g w l1 p l2 hf mf F pos ->
  env_ok g -> idle (g_NFSClnt g) -> 0 <= pos -> pos + MBUFSIZE <= 2 ^ 31 ->
  exists r a R g' w',
    WBufLocate g efh Res2 = Some (r, a, R, g', set_WBuf (Some w') efh) /\
    step_frame g w (efh_NFSFh efh) g' w' /\ wbc_FilePos w' = pos /\
    ((r = -1 /\ a = None /\
      step_failed g (efh_NFSFh efh) (l1 ++ p :: l2) (fun _ => False) F g' w') \/
     (r = 1 /\ exists m1 b m2 hf' mf', a = Some (bk_hdr b) /\
        cache g' w' (m1 ++ b :: m2) hf' mf' F /\ in_block b pos /\
        step_done g (efh_NFSFh efh) (l1 ++ p :: l2) (fun v => v) g' (m1 ++ b :: m2) /\
        (forall o, dirty (m1 ++ b :: m2) o -> dirty (l1 ++ p :: l2) o) /\
        located w' p b m1 pos)).
Proof.
  intros Hw [[Hh Hc Hb Hrm] Hpd Hfp [Hp1 Hp2]] He Hi H0 H1. unfold WBufLocate. rewrite Hw. gsimpl.
  rewrite Hpd. gsimpl.
  destruct (block_next _ _ _ _ _ _ _ _ Hh Hc) as (h & -> & Ho & Hnx). gsimpl. rewrite Ho, Hfp.
  destruct (pos >=? bk_off p + MBUFSIZE) eqn:E; zbool; simpl negb; cbv iota.
  2:{ eexists _, _, Res2, g, w. split; [by destruct efh; simpl in *; subst|]. split; [done|].
    split; [done|]. right. split; [done|]. exists l1, p, l2, hf, mf.
    split_and!; try done; left; split; [done|by left]. }
  destruct Hp2 as [?|Hp2]; [lia|]. rewrite Hnx.
  pose proof (proj1 (blocks_from_split _ _ _ _) Hb) as (_ & _ & Hpok & _ & Hl2).
  assert (match l2 with [] => True | c :: _ => pos < bk_off c end \/
          exists c l2', l2 = c :: l2' /\ pos = bk_off c) as [Hlt|(c & l2' & -> & Hpc)].
  { destruct l2 as [|c l2']; [by left|]. destruct (decide (pos < bk_off c)); [by left|right].
    exists c, l2'. split; [done|lia]. }
  - (* a new buffer between p and its successor *)
    match goal with |- context [mbind _ ?X] => assert (X = Some false) as -> end.
    { destruct l2 as [|c l2]; [done|]. simpl.
      destruct (block_hdr _ _ _ _ _ c Hh) as (hc & -> & Hco).
      { apply elem_of_app. right. right. by left. }
      gsimpl. rewrite Hco. unfold IsInclBetween. by rewrite (proj2 (Z.leb_gt _ _)). }
    gsimpl. cbv iota.
    destruct (get_WBuf_ok g efh w (l1 ++ p :: l2) hf mf F true Res2 0)
      as (r & nw & fl & R & g1 & w1 & -> & Hsf & [Hmax Hfp1] & Hgot); try done. gsimpl.
    destruct Hgot as [fl Hf|fl hf' mf' Hbs Hh' Hc' Hd|fl n bs' hf' mf' Hfr Hh' Hc' Hbs Hfw Hd].
    { eexists _, _, R, g1, w1. split; [done|]. split; [done|]. split; [congruence|]. by left. }
    { by destruct l1. }
    destruct (prepare_ok g1 n bs' hf' mf' F pos Hh' H0 H1)
      as (hd & n' & -> & Hn1 & Hn2 & Hn3 & Hn4 & Hn5 & Hh2 & Hc2). gsimpl. rewrite <-Hn1.
    specialize (Hc2 w1 bs' eq_refl Hc').
    destruct (align_block pos H0 H1) as (Ha1 & Ha2 & Ha3).
    destruct (insert_new_ok (set_WBufHdrs hd g1) (set_PosData (Some (bk_hdr n')) w1) l1 p l2 fl bs' n'
                hf' mf' F) as (hd' & w' & m1 & m2 & Hins & Hh3 & Hc3 & [Hm3 Hf3] & Hp3 & Hbs' & Hb3);
      try done.
    { destruct Hc2. by constructor. }
    { rewrite Hn3. apply align_after; try done. apply Hpok. }
    { destruct l2 as [|c l2]; [done|]. rewrite Hn3. apply align_before; try done. apply Hl2. }
    gsimpl in Hins. rewrite Hins. gsimpl.
    assert (Hsub : forall o, dirty bs' o -> dirty (l1 ++ p :: l2) o).
    { intros o. rewrite Hbs. destruct fl; [by intros ?%Exists_nil|done]. }
    eexists _, _, R, _, w'. split; [done|].
    split. { destruct Hsf as (? & ? & ?). split_and!; [done|simpl in *; congruence|done]. }
    split; [simpl in *; congruence|]. right. split; [done|].
    exists m1, n', m2, hf', mf'. split_and!; [done| | | | |].
    + constructor; try done. rewrite Forall_app, Forall_cons.
      assert (Forall room bs') as Hrm' by (rewrite Hbs; by destruct fl).
      rewrite Hbs', Forall_app in Hrm'. tauto.
    + unfold in_block. rewrite Hn3. lia.
    + apply step_done_fresh; [done|]. rewrite <-Hbs'. by eapply step_done_env.
    + intros o. rewrite dirty_app, dirty_cons, Hn2. intros [?|[?%not_covered_nil|?]]; [|done|];
        apply Hsub; rewrite Hbs', dirty_app; tauto.
    + left. split; [done|by right].
  - (* the successor, from its start *)
    change (bk_hdr <$> head (c :: l2')) with (Some (bk_hdr c)). cbv iota.
    destruct (block_hdr _ _ _ _ _ c Hh) as (hc & -> & Hco).
    { apply elem_of_app. right. right. by left. }
    gsimpl. rewrite Hco. unfold IsInclBetween.
    rewrite !(proj2 (Z.leb_le _ _)) by (unfold MBUFSIZE; lia). simpl andb. cbv iota.
    eexists _, _, Res2, g, w. split; [by destruct efh; simpl in *; subst|]. split; [done|].
    split; [done|]. right. split; [done|]. exists (l1 ++ [p]), c, l2', hf, mf.
    rewrite <-app_assoc. simpl app. split_and!; try done.
    + unfold in_block, MBUFSIZE. lia.
    + right. split_and!; try done. apply elem_of_app. right. by left.
Qed.
End Seek.
