(* ===== verification/WBufSpec.v ===== *)
(** * The write cache is transparent

    The buffered write ([wc_WriteCache]) against the file its user sees: the
    bytes on the server with the dirty bytes of the cluster over them
    (WBufFlush.v).  A write that succeeds changes exactly the bytes it was given,
    wherever they went (buffers, server or both); a write that fails leaves an
    empty cluster, and only bytes that were dirty or to be written may have
    changed.  The theorems are in WBufThm.v. *)
From S2P Require Import Prelude MBuf WBufInfo NfsProt NfsSupp Nfs NfsServer Global.
From S2P Require Import WBuf WBufRep WBufFlush WBufGet WBufSeek.

Lemma add_range_start l t :
  ranges_ok 0 MBUFSIZE l -> 0 <= t -> frag_cost (add_range l 0 t) <= frag_cost l.
Proof.
  destruct l as [|[a b] l]; intros Hl Ht; [done|]. destruct Hl as (Ha & Hab & Hb & Hl).
  cbn [add_range]. rewrite (proj2 (Z.ltb_ge _ _)) by lia.
  destruct (t + 1 <? a) eqn:E; zbool.
  - unfold frag_cost. rewrite !zlen_cons. destruct a; lia.
  - rewrite Z.min_r by lia. unfold frag_cost.
    assert (Hst : forall t l lo, ranges_ok lo MBUFSIZE l -> 0 <= lo ->
              exists t' l', add_range l 0 t = (0, t') :: l' /\ zlen l' <= zlen l).
    { clear. intros t l. revert t. induction l as [|[a b] l IH]; intros t lo Hl Hlo.
      - exists t, []. done.
      - destruct Hl as (Ha & Hab & Hb & Hl). cbn [add_range].
        rewrite (proj2 (Z.ltb_ge _ _)) by lia. destruct (_ <? _) eqn:E; zbool.
        + exists t, ((a, b) :: l). done.
        + rewrite Z.min_r by lia. destruct (IH (Z.max b t) _ Hl) as (t' & l' & -> & Hle); [lia|].
          exists t', l'. split; [done|]. rewrite zlen_cons. lia. }
    destruct (Hst (Z.max b t) l _ Hl) as (t' & l' & -> & Hle); [lia|].
    rewrite !zlen_cons. destruct a; lia.
Qed.

Lemma dirty_write m1 b m2 off n d' o :
  ranges_ok 0 MBUFSIZE (bk_frags b) -> 1 <= n ->
  dirty (m1 ++ WBlock (bk_hdr b) (bk_mb b) (bk_off b) (add_range (bk_frags b) off (off + n - 1)) d'
           :: m2) o ->
  dirty (m1 ++ b :: m2) o \/ bk_off b + off <= o < bk_off b + off + n.
Proof.
  intros Hr Hn. rewrite !dirty_app, !dirty_cons. simpl.
  rewrite (add_range_covered _ 0 MBUFSIZE) by (done || lia).
  intros [?|[[?|?]|?]]; [tauto|tauto|right; lia|tauto].
Qed.

Section WriteSpec.
Context {S : Type} `{HS : NfsFileServer S}.
Implicit Types (g : Global_T S) (w : WBUFCLUSTER) (F : frame) (s : S).

(** CopyMem and WBufUpdateInfo on one block of the cluster. *)
Lemma store_ok g w m1 b m2 hf mf F off src :
  cache g w (m1 ++ b :: m2) hf mf F -> 0 <= off -> 1 <= zlen src -> off + zlen src <= MBUFSIZE ->
  exists h h' mb' d', g_WBufHdrs g !! bk_hdr b = Some h /\ wbh_FileOffs h = bk_off b /\
    wbh_Data h = Some (bk_mb b) /\ mb_store (g_MBufs g) (bk_mb b) off src = Some mb' /\
    WBufUpdateInfo h off (zlen src) = Some h' /\
    wbh_NumInfo h' = zlen (add_range (bk_frags b) off (off + zlen src - 1)) /\
    let b' := WBlock (bk_hdr b) (bk_mb b) (bk_off b)
    (add_range (bk_frags b) off (off + zlen src - 1)) d' in
    let g' := set_WBufHdrs (<[bk_hdr b := h']> (g_WBufHdrs g)) (set_MBufs mb' g) in
    heap_ok g' (m1 ++ b' :: m2) hf mf F /\ cluster_ok (g_WBufHdrs g') w (m1 ++ b' :: m2) /\
    blocks_from 0 (m1 ++ b' :: m2) /\
    (forall fh, same_view (seen g' fh (m1 ++ b' :: m2))
       (overlay (seen g fh (m1 ++ b :: m2)) (bk_off b + off) src)).
Proof.
  intros [Hh Hc Hb Hr] H0 Hs HM.
  assert (Hh1 : heap_ok g (b :: m1 ++ m2) hf mf F)
    by (eapply heap_ok_perm; [|exact Hh]; by rewrite Permutation_middle).
  rewrite Forall_app, Forall_cons in Hr. destruct Hr as (_ & Hrb & _).
  destruct (heap_ok_store g b (m1 ++ m2) hf mf F off src) as
    (h & h' & mb' & d' & Hl & Ho & Hd & Hst & Hup & Hnx & Hcp & _ & _ & Hn & Hh2); try done.
  { unfold room, frag_cost in Hrb. destruct (bk_frags b) as [|[[] ?] ?]; lia. }
  exists h, h', mb', d'. split_and!; try done; intros b' g'.
  destruct (fview_write 0 m1 b m2 (fun _ => x00) off src d' Hb) as [Hb' _]; try done.
  split_and!.
  - eapply heap_ok_perm; [|exact Hh2]. by rewrite Permutation_middle.
  - destruct Hc as [Hch Hla Hu]. constructor.
    + rewrite fmap_app, fmap_cons in Hch |- *. by eapply chain_insert_same.
    + intros _. rewrite Hla by by destruct m1. rewrite !last_app_cons.
      destruct m2; [done|]. by rewrite !last_cons_cons.
    + rewrite Hu. unfold zlen. by rewrite !length_app.
  - done.
  - intros fh. by destruct (fview_write 0 m1 b m2 (contents (g_NFSClnt g) fh) off src d' Hb).
Qed.

(** Bytes that are dirty neither before nor after a transparent step are as
    they were on the server. *)
Lemma clean_same g g' fh bs bs' o :
  step_done g fh bs (fun v => v) g' bs' -> ~ dirty bs o -> ~ dirty bs' o ->
  contents (g_NFSClnt g') fh o = contents (g_NFSClnt g) fh o.
Proof.
  intros [_ Hv] Hd Hd'. specialize (Hv o). unfold seen in Hv. by rewrite !fview_clean in Hv.
Qed.

(** One step of the write loop. *)
Definition write_step g fh bs pos Num Buf F (c : Z) g' w' : Prop :=
  (c = -1 /\ step_failed g fh bs (fun o => pos <= o < pos + Num) F g' w') \/
  (1 <= c <= Num /\ wbc_FilePos w' = pos + c /\ exists bs' hf' mf',
     cache g' w' bs' hf' mf' F /\
     step_done g fh bs (fun v => overlay v pos (take (Z.to_nat c) Buf)) g' bs' /\
     (forall o, dirty bs' o -> dirty bs o \/ pos <= o < pos + Num) /\
     (c < Num -> exists m1 b m2, bs' = m1 ++ b :: m2 /\
        at_pos g' w' m1 b m2 hf' mf' F (pos + c) /\ bk_off b + MBUFSIZE = pos + c)).

(** A block crossed by a write still has free slots in its table. *)
Definition span_ok (p : wblock) (pos Num : Z) : Prop :=
  in_block p pos -> bk_off p + MBUFSIZE < pos + Num ->
  zlen (bk_frags p) <= WBUFHDRINFOSIZE - 3.

(** The end of WBufWrite: the block [b] has become [b'], and the table of
    PosData decides on a flush. *)
Lemma write_finish g0 bs0 g efh w m1 b b' m2 hf mf F p l1 pos Num c Buf Res2 hp :
  efh_WBuf efh = Some w -> heap_ok g (m1 ++ b' :: m2) hf mf F ->
  cluster_ok (g_WBufHdrs g) w (m1 ++ b' :: m2) -> blocks_from 0 (m1 ++ b' :: m2) ->
  Forall room (m1 ++ b :: m2) -> env_ok g -> idle (g_NFSClnt g) ->
  wbc_FilePos w = pos + c -> 1 <= c <= Num -> 0 <= pos ->
  same_view (seen g (efh_NFSFh efh) (m1 ++ b' :: m2))
  (overlay (seen g0 (efh_NFSFh efh) bs0) pos (take (Z.to_nat c) Buf)) ->
  (forall o, dirty (m1 ++ b' :: m2) o -> dirty bs0 o \/ pos <= o < pos + Num) ->
  (forall o, ~ dirty bs0 o -> ~ pos <= o < pos + Num ->
   contents (g_NFSClnt g) (efh_NFSFh efh) o = contents (g_NFSClnt g0) (efh_NFSFh efh) o) ->
  bk_hdr b' = bk_hdr b -> bk_off b' = bk_off b ->
  ranges_ok 0 MBUFSIZE (bk_frags b) -> bk_off b <= pos ->
  bk_frags b' = add_range (bk_frags b) (pos - bk_off b) (pos - bk_off b + c - 1) ->
  c = Z.min (MBUFSIZE - (pos - bk_off b)) Num -> Num <= MBUFSIZE ->
  span_ok p pos Num -> in_block b pos -> located w p b l1 pos ->
  wbh_NumInfo hp = zlen (bk_frags b') \/ (pos = bk_off b) ->
  (wbc_PosData w = Some (bk_hdr b) -> wbh_NumInfo hp = zlen (bk_frags b')) ->
  exists ok R g' w',
    flush_if (wbh_NumInfo hp + 1 >=? WBUFHDRINFOSIZE) g efh false Res2
    = Some (ok, R, g', set_WBuf (Some w') efh) /\
    step_frame g w (efh_NFSFh efh) g' w' /\
    write_step g0 (efh_NFSFh efh) bs0 pos Num Buf F (if (ok : bool) then c else -1) g' w'.
Proof.
  intros Hw Hh Hc Hb Hrm He Hi Hfp Hcn Hpos Hv Hdirty Hclean Ehdr Eoff Hrg Hbp Hfr Hcdef HNum Hspan
    Hin Hloc Hhp Hhp'.
  destruct (flush_if_ok (wbh_NumInfo hp + 1 >=? WBUFHDRINFOSIZE) g efh w (m1 ++ b' :: m2) hf mf F
              false Res2 0) as (ok & R & g' & w' & Hrun & Hsf & [Hmax Hfp'] & Hcase); try done.
  exists ok, R, g', w'. split; [done|]. split; [done|].
  pose proof (add_range_length (bk_frags b) (pos - bk_off b) (pos - bk_off b + c - 1)) as Hlen.
  rewrite <-Hfr in Hlen.
  assert (Hlen' : zlen (bk_frags b') <= zlen (bk_frags b) + 1) by (unfold zlen; lia).
  destruct Hcase as [(Hcond & -> & -> & ->)|(Hcond & Hc' & (hf' & mf' & Hh' & _) & Hr)]; zbool.
  - right. split; [done|]. split; [congruence|]. exists (m1 ++ b' :: m2), hf, mf.
    assert (Hcache : cache g w (m1 ++ b' :: m2) hf mf F).
    { constructor; try done. rewrite Forall_app, Forall_cons in Hrm |- *.
      destruct Hrm as (? & Hrb & ?). split_and!; try done. unfold room in *.
      destruct Hhp as [Hn|Hpb].
      - unfold frag_cost. destruct (bk_frags b') as [|[[] ?] ?]; lia.
      - rewrite Hfr, Hpb, Z.sub_diag. etrans; [|exact Hrb].
        replace (0 + c - 1) with (c - 1) by lia. apply add_range_start; [done|lia]. }
    split_and!; try done. intros Hlt. exists m1, b', m2. split; [done|].
    assert (HM : bk_off b + MBUFSIZE = pos + c) by lia.
    split; [|by rewrite Eoff]. constructor; try done.
    + destruct Hloc as [(Hpd & _)|(_ & _ & ->)]; [by rewrite Ehdr|].
      unfold in_block in *. lia.
    + split; [rewrite Eoff; lia|right].
      apply blocks_from_split in Hb as (_ & _ & _ & _ & Hm2).
      destruct m2 as [|d m2]; [done|]. destruct Hm2 as [Hd _]. rewrite Eoff in Hd. lia.
  - destruct ok.
    + right. split; [done|]. split; [congruence|]. exists [], hf', mf'. destruct Hr as [Hi' Hv'].
      split; [by constructor|]. split; [|split].
      * split; [done|]. intros o. by rewrite Hv'.
      * by intros o ?%Exists_nil.
      * intros Hlt. exfalso. destruct Hloc as [(Hpd & Hpb)|(_ & _ & ->)]; [|lia].
        rewrite Hhp' in Hcond by done. unfold WBUFHDRINFOSIZE in *.
        destruct Hpb as [->|Hnil].
        -- unfold in_block in Hin. assert (zlen (bk_frags p) <= 59 - 3) by (apply Hspan; [done|lia]). lia.
        -- rewrite Hnil in Hlen'. change (zlen (@nil (Z * Z))) with 0 in Hlen'. lia.
    + left. split; [done|]. destruct Hr as (_ & _ & Hcl). split_and!; [done|by exists hf', mf'|].
      intros o Hd Hx. rewrite Hcl; [by apply Hclean| |tauto].
      intros Hd'. destruct (Hdirty o Hd'); tauto.
Qed.

Lemma overlay_ext_at c c' off buf o : c o = c' o -> overlay c off buf o = overlay c' off buf o.
Proof. intros Hc. unfold overlay. by rewrite Hc. Qed.

Lemma WBufWrite_ok g efh w l1 p l2 hf mf F pos Buf Num Res2 :
  efh_WBuf efh = Some w -> at_pos g w l1 p l2 hf mf F pos ->
  env_ok g -> idle (g_NFSClnt g) -> 0 <= pos -> pos + MBUFSIZE <= 2 ^ 31 ->
  1 <= Num <= MBUFSIZE -> Num = zlen Buf -> span_ok p pos Num ->
  exists c R g' w', WBufWrite g efh Buf Num Res2 = Some (c, R, g', set_WBuf (Some w') efh) /\
    step_frame g w (efh_NFSFh efh) g' w' /\
    write_step g (efh_NFSFh efh) (l1 ++ p :: l2) pos Num Buf F c g' w'.
Proof.
  intros Hw Hat He Hi H0 H1 HN HB Hspan. unfold WBufWrite.
  destruct (WBufLocate_ok g efh w l1 p l2 hf mf F pos Res2 Hw Hat He Hi H0 H1)
    as (r & a & R & g1 & w1 & -> & Hsf & Hfp & [(-> & -> & Hf)|
                                                  (-> & m1 & b & m2 & hf1 & mf1 & -> & Hca & Hin & Hd & Hdirty & Hloc)]); gsimpl.
  { eexists _, R, g1, w1. split; [done|]. split; [done|]. left. split; [done|].
    destruct Hf as (? & ? & Hf). split_and!; try done. intros o Ho _. by apply Hf; [|intros []]. }
  set (off := pos - bk_off b). set (c := Z.min (MBUFSIZE - off) Num).
  assert (Hoff : 0 <= off < MBUFSIZE) by (unfold in_block, off in *; lia).
  assert (Hc1 : 1 <= c <= Num /\ off + c <= MBUFSIZE) by (unfold c; lia).
  assert (Hsrc : zlen (take (Z.to_nat c) Buf) = c).
  { unfold zlen in *. rewrite length_take. lia. }
  destruct (store_ok g1 w1 m1 b m2 hf1 mf1 F off (take (Z.to_nat c) Buf) Hca)
    as (h & h' & mb' & d' & Hh & Ho & Hda & Hst & Hup & Hn & Hh2 & Hc2 & Hb2 & Hv2); try lia.
  rewrite Hsrc in *. rewrite Hh. gsimpl. rewrite Ho, Hfp. fold off. fold c.
  rewrite Hda. gsimpl. rewrite (proj2 (Z.ltb_ge _ _)) by lia. rewrite Hst. gsimpl.
  rewrite Hup. gsimpl.
  set (b' := WBlock (bk_hdr b) (bk_mb b) (bk_off b) (add_range (bk_frags b) off (off + c - 1)) d') in *.
  set (g2 := set_WBufHdrs (<[bk_hdr b:=h']> (g_WBufHdrs g1)) (set_MBufs mb' g1)) in *.
  assert (Hhp : exists q hp, wbc_PosData w1 = Some q /\ <[bk_hdr b:=h']> (g_WBufHdrs g1) !! q = Some hp /\
          (wbh_NumInfo hp = zlen (bk_frags b') \/ pos = bk_off b) /\
          (wbc_PosData w1 = Some (bk_hdr b) -> wbh_NumInfo hp = zlen (bk_frags b'))).
  { destruct Hloc as [(Hpd & _)|(Hpd & Hpin & Hpb)].
    - exists (bk_hdr b), h'. rewrite lookup_insert_eq. split_and!; [done|done|by left|done].
    - destruct (block_hdr g2 _ _ _ _ p Hh2) as (hp & Hp & _); [apply elem_of_app; by left|].
      exists (bk_hdr p), hp. split_and!; [done|done|by right|]. rewrite Hpd. intros [= Heq].
      unfold g2 in Hp. gsimpl in Hp. rewrite Heq, lookup_insert_eq in Hp. injection Hp as <-. done. }
  destruct Hhp as (q & hp & Hq & Hhp & Hnp & Hnp').
  rewrite Hq. gsimpl. rewrite Hhp. gsimpl.
  pose proof Hca as [_ _ Hbc Hrc].
  pose proof (proj1 (blocks_from_split _ _ _ _) Hbc) as (_ & _ & Hbok & _ & _).
  destruct (write_finish g (l1 ++ p :: l2) g2
              (set_WBuf (Some (set_wbcFilePos (pos + c) w1)) (set_WBuf (Some w1) efh))
              (set_wbcFilePos (pos + c) w1) m1 b b' m2 hf1 mf1 F p m1 pos Num c Buf R hp)
    as (ok & R' & g' & w' & Hrun & Hsf' & Hws); try done; gsimpl.
  - destruct Hc2. by constructor.
  - destruct Hsf as ([E _] & _). unfold env_ok, g2. gsimpl. by rewrite E.
  - by destruct Hd.
  - lia.
  - intros o. rewrite Hv2. replace (bk_off b + off) with pos by (unfold off; lia).
    apply overlay_ext_at. by destruct Hd as [_ Hd].
  - intros o Ho'. apply dirty_write in Ho'; [|apply Hbok|lia].
    destruct Ho' as [Ho'|Ho']; [left; by apply Hdirty|right; unfold off in Ho'; lia].
  - intros o Ho1 _. eapply clean_same; [exact Hd|done|]. intros Ho2. by apply Ho1, Hdirty.
  - apply Hbok.
  - unfold off in Hoff. lia.
  - lia.
  - change (set_WBufHdrs (<[bk_hdr b:=h']> (g_WBufHdrs g1)) (set_MBufs mb' g1)) with g2.
    match type of Hrun with ?x = _ => match goal with |- context [mbind _ ?y] => change y with x end end.
    rewrite Hrun. gsimpl. eexists _, R', g', w'. split; [done|]. split; [|done].
    eapply step_frame_trans; [exact Hsf|]. done.
Qed.

(** ** The outcome of a whole write *)

(** [Res1], [Res2] and the state after writing [Buf] at [pos]. *)
Definition wrote g efh w bs F (pos : Z) (Buf : list byte) (Num Res1 Res2 : Z) g' efh' : Prop :=
  exists w' l, efh' = set_FileLen l (set_WBuf (Some w') efh) /\
    step_frame g w (efh_NFSFh efh) g' w' /\
    ((Res1 = -1 /\
      step_failed g (efh_NFSFh efh) bs (fun o => pos <= o < pos + zlen Buf) F g' w') \/
     (Res1 = Num /\ Res2 = 0 /\ exists bs' hf' mf', cache g' w' bs' hf' mf' F /\
        step_done g (efh_NFSFh efh) bs (fun v => overlay v pos Buf) g' bs')).

Lemma step_overlay_clean g g' fh bs bs' pos Buf o :
  step_done g fh bs (fun v => overlay v pos Buf) g' bs' ->
  ~ dirty bs o -> ~ dirty bs' o -> ~ pos <= o < pos + zlen Buf ->
  contents (g_NFSClnt g') fh o = contents (g_NFSClnt g) fh o.
Proof.
  intros [_ Hv] Hd Hd' Ho. specialize (Hv o). rewrite overlay_out in Hv by done.
  unfold seen in Hv. by rewrite !fview_clean in Hv.
Qed.

Lemma write_loop_ok fuel : forall g efh w l1 p l2 hf mf F pos Buf Num Orig Res2,
  efh_WBuf efh = Some w -> at_pos g w l1 p l2 hf mf F pos ->
  env_ok g -> idle (g_NFSClnt g) -> 0 <= pos -> pos + Num + MBUFSIZE <= 2 ^ 31 ->
  1 <= Num <= MBUFSIZE -> Num = zlen Buf -> span_ok p pos Num -> Num < Z.of_nat fuel ->
  exists Res1 R g' efh', write_loop fuel g efh Buf Num Orig Res2 = Some (Res1, R, g', efh') /\
    wrote g efh w (l1 ++ p :: l2) F pos Buf Orig Res1 R g' efh'.
Proof.
  induction fuel as [|fuel IH]; intros g efh w l1 p l2 hf mf F pos Buf Num Orig Res2 Hw Hat He Hi H0
    H1 HN HB Hsp Hf; [lia|]. cbn [write_loop].
  rewrite (proj2 (Z.eqb_neq _ _)) by lia.
  destruct (WBufWrite_ok g efh w l1 p l2 hf mf F pos Buf Num Res2) as
    (c & R & g1 & w1 & -> & Hsf & [(-> & Hfail)|(Hc & Hfp & bs1 & hf1 & mf1 & Hca & Hd & Hdirty & Hat1)]);
    try done; try lia; gsimpl.
  { eexists (-1), R, g1, _. split; [done|]. exists w1, (efh_FileLen efh). split; [done|].
    split; [done|]. left. rewrite <-HB. done. }
  rewrite !(proj2 (Z.eqb_neq _ _)) by lia.
  assert (Hzt : zlen (take (Z.to_nat c) Buf) = c).
  { unfold zlen in *. rewrite length_take. lia. }
  destruct (decide (c = Num)) as [->|Hne].
  - (* everything written *)
    destruct fuel as [|fuel]; [lia|]. cbn [write_loop]. rewrite Z.sub_diag. gsimpl.
    change (0 =? 0) with true. cbv iota. rewrite Hfp.
    eexists Orig, 0, g1, _. split; [done|]. exists w1, (if pos + Num >? efh_FileLen efh then pos + Num
                                                        else efh_FileLen efh). split; [by destruct (_ >? _)|]. split; [done|]. right.
    split_and!; [done..|]. exists bs1, hf1, mf1. split; [done|].
    rewrite take_ge in Hd by (unfold zlen in HB; lia). done.
  - destruct (Hat1 ltac:(lia)) as (m1 & b & m2 & -> & Hat' & Hb).
    assert (Hzd : zlen (drop (Z.to_nat c) Buf) = Num - c).
    { unfold zlen in *. rewrite length_drop. lia. }
    destruct (IH g1 (set_WBuf (Some w1) efh) w1 m1 b m2 hf1 mf1 F (pos + c)
                (drop (Z.to_nat c) Buf) (Num - c) Orig R)
      as (Res1 & R' & g' & efh' & Hrun & w' & l & -> & Hsf' & Hres); try done; try lia.
    + destruct Hsf as ([E _] & _). unfold env_ok. by rewrite E.
    + by destruct Hd.
    + unfold span_ok, in_block. lia.
    + eexists Res1, R', g', _. split; [exact Hrun|]. exists w', l. split; [done|].
      split; [by eapply step_frame_trans|].
      destruct Hres as [(-> & Hfail)|(-> & -> & bs' & hf' & mf' & Hca' & Hi' & Hv')].
      * left. split; [done|].
        assert (Hmono : step_failed g1 (efh_NFSFh efh) (m1 ++ b :: m2)
                  (fun o => pos <= o < pos + zlen Buf) F g' w').
        { destruct Hfail as (? & ? & Hcl). split_and!; try done.
          intros o Ho1 Ho2. apply Hcl; [done|]. rewrite Hzd. lia. }
        eapply step_failed_trans; [|exact Hmono]. intros o Ho1 Ho2. cbn beta in Ho2.
        assert (Hno : ~ dirty (m1 ++ b :: m2) o) by (intros Hx; destruct (Hdirty o Hx); [done|lia]).
        split; [done|]. eapply step_overlay_clean; [exact Hd|done..|]. lia.
      * right. split_and!; [done..|]. exists bs', hf', mf'. split; [done|]. split; [done|].
        intros o. rewrite Hv'. simpl. destruct Hd as [_ Hv].
        rewrite (overlay_ext_at _ _ _ _ o (Hv o)).
        replace (pos + c) with (pos + zlen (take (Z.to_nat c) Buf)) by lia.
        rewrite overlay_app. by rewrite take_drop.
Qed.

(** The transfer of FlushCacheAndWrite, with nothing left in the cluster. *)
Lemma direct_write_ok g efh w hf mf F Buf Num Res2 :
  efh_WBuf efh = Some w -> heap_ok g [] hf mf F -> cluster_ok (g_WBufHdrs g) w [] ->
  env_ok g -> idle (g_NFSClnt g) -> Num = zlen Buf -> 0 < Num ->
  0 <= efh_FilePos efh -> efh_FilePos efh + Num < 2 ^ 31 ->
  exists r s', nfs_write g (efh_NFSFh efh) (efh_FilePos efh) Buf Num = Some (r, set_NFSClnt s' g) /\
    forall l, wrote g efh w [] F (efh_FilePos efh) Buf Num
    (if io_ret r >=? 0 then io_ret r else -1) (if io_ret r >=? 0 then 0 else Res2)
    (set_NFSClnt s' g) (set_FileLen l efh).
Proof.
  intros Hw Hh Hc He Hi HB HN H0 H1.
  destruct (nfs_write_ok g (efh_NFSFh efh) (efh_FilePos efh) Buf Num) as (r & s' & Hr & Ho);
    try done; try lia.
  exists r, s'. split; [done|]. intros l. exists w, l.
  split; [by destruct efh; simpl in *; subst|].
  pose proof Ho as [Hfr _].
  split.
  { split_and!; [done|done|]. intros f o Hf. apply Hfr. by intros [-> _]. }
  assert (Hh' : heap_ok (set_NFSClnt s' g) [] hf mf F) by (destruct Hh; by constructor).
  destruct (write_outcome_ret _ _ _ _ _ _ Ho) as [[Hn _]|(Hn & Hi' & _ & Hv)]; rewrite Hn.
  - left. split; [done|]. split_and!; [done|by exists hf, mf|].
    intros o _ Hx. apply Hfr. intros [_ Hin]. by apply Hx.
  - right. destruct (zlen Buf >=? 0) eqn:E; zbool; [|lia]. split_and!; [done..|].
    exists [], hf, mf. split; [by constructor|]. split; [done|].
    intros o. unfold seen. simpl. rewrite Hv. apply write_to_same.
Qed.

Lemma wrote_after_flush g g1 efh w w1 bs F pos Buf Num Res1 R g' efh' :
  step_frame g w (efh_NFSFh efh) g1 w1 -> step_done g (efh_NFSFh efh) bs (fun v => v) g1 [] ->
  wrote g1 (set_WBuf (Some w1) efh) w1 [] F pos Buf Num Res1 R g' efh' ->
  wrote g efh w bs F pos Buf Num Res1 R g' efh'.
Proof.
  intros Hsf Hd (w' & l & -> & Hsf' & Hres). exists w', l. split; [done|].
  split; [by eapply step_frame_trans|].
  destruct Hres as [(-> & Hf)|(-> & -> & bs' & hf' & mf' & Hca & Hi & Hv)].
  - left. split; [done|]. eapply step_failed_trans; [|exact Hf]. intros o Ho _.
    assert (Hn : ~ dirty [] o) by by intros ?%Exists_nil.
    split; [done|]. by eapply clean_same.
  - right. split_and!; [done..|]. exists bs', hf', mf'. split; [done|]. split; [done|].
    intros o. rewrite Hv. apply overlay_ext_at. by destruct Hd as [_ Hd].
Qed.

Lemma FlushCacheAndWrite_ok g efh w bs hf mf F Buf Num Res2 :
  efh_WBuf efh = Some w -> cache g w bs hf mf F ->
  env_ok g -> idle (g_NFSClnt g) -> Num = zlen Buf -> 0 < Num ->
  0 <= efh_FilePos efh -> efh_FilePos efh + Num < 2 ^ 31 ->
  exists Res1 R g' efh', FlushCacheAndWrite g efh Buf Num Res2 = Some (Res1, R, g', efh') /\
    wrote g efh w bs F (efh_FilePos efh) Buf Num Res1 R g' efh'.
Proof.
  intros Hw [Hh Hc Hb Hrm] He Hi HB HN H0 H1. unfold FlushCacheAndWrite.
  rewrite (HasBuffered_ok _ w _ _ Hw Hc). case_bool_decide as Hbs.
  - destruct (iwc_FlushCache_ok g efh w bs hf mf F true Res2 0 Hw Hh Hc Hb He Hi)
      as (Res1 & R & g1 & w1 & -> & Hem & Ho & Hcl & Hr). gsimpl.
    pose proof (emptied_frame _ _ _ _ _ _ _ _ (efh_NFSFh efh) Hem Ho) as Hsf.
    destruct Hem as (_ & _ & Hc1 & hf1 & mf1 & Hh1 & _).
    destruct Hr as [->|(-> & -> & Hi1 & Hv)]; simpl (_ =? _); cbv iota.
    + eexists _, R, g1, _. split; [done|]. exists w1, (efh_FileLen efh). split; [done|].
      split; [done|]. left. split; [done|]. split_and!; [done|by exists hf1, mf1|].
      intros o Hd _. by apply Hcl.
    + destruct (direct_write_ok g1 (set_WBuf (Some w1) efh) w1 hf1 mf1 F Buf Num 0)
        as (r & s' & Hrun & Hwr); try done.
      { destruct Hsf as ([E _] & _). unfold env_ok. by rewrite E. }
      gsimpl in Hrun. rewrite Hrun. gsimpl.
      pose proof (wrote_after_flush g g1 efh w w1 bs F (efh_FilePos efh) Buf Num) as Haf.
      gsimpl in Hwr.
      destruct (io_ret r >=? 0) eqn:E; eexists _, _, _, _; (split; [done|]);
        (eapply Haf; [done|done|]); [apply Hwr|].
      destruct (Hwr (io_FileLen r (efh_FileLen efh))) as (w' & l & Hl & Hsf' & [Hf|(Hx & _)]);
        [|zbool; lia]. exists w', l. split; [done|]. split; [done|]. by left.
  - assert (bs = []) as -> by (destruct bs; [done|by destruct Hbs]). gsimpl.
    simpl (DOSTRUE =? DOSFALSE). cbv iota.
    destruct (direct_write_ok g efh w hf mf F Buf Num 0 Hw Hh Hc He Hi HB HN H0 H1)
      as (r & s' & -> & Hwr). gsimpl.
    destruct (io_ret r >=? 0) eqn:E; eexists _, _, _, _; (split; [done|]); [apply Hwr|].
    destruct (Hwr (io_FileLen r (efh_FileLen efh))) as (w' & l & Hl & Hsf' & [Hf|(Hx & _)]);
      [|zbool; lia]. exists w', l. split; [done|]. split; [done|]. by left.
Qed.

Lemma old_or_new_dirty bs bs' o : old_or_new bs bs' -> dirty bs' o -> dirty bs o.
Proof.
  intros Hon (b & Hb & Hc)%Exists_exists. destruct (Hon b Hb) as [Hin|Hnil].
  - apply Exists_exists. by exists b.
  - rewrite Hnil in Hc. by apply not_covered_nil in Hc.
Qed.

(** ** wc_WriteCache *)

(** The writes the cache handles: at most one buffer's length, and room in
    the table of a block the write crosses the end of. *)
Definition write_ok (bs : list wblock) (pos Num limit : Z) : Prop :=
  (Num <= limit -> Num <= MBUFSIZE) /\ (forall p, p ∈ bs -> span_ok p pos Num).

Lemma wc_WriteCache_ok g efh w bs hf mf F Buf Num Res2 :
  efh_WBuf efh = Some w -> cache g w bs hf mf F ->
  env_ok g -> idle (g_NFSClnt g) -> Num = zlen Buf -> 0 < Num ->
  0 <= efh_FilePos efh -> efh_FilePos efh + Num + MBUFSIZE <= 2 ^ 31 ->
  write_ok bs (efh_FilePos efh) Num (g_WriteBufferLimit g) ->
  exists Res1 R g' efh', wc_WriteCache g efh Buf Num Res2 = Some (Res1, R, g', efh') /\
    wrote g efh w bs F (efh_FilePos efh) Buf Num Res1 R g' efh'.
Proof.
  intros Hw Hca He Hi HB HN H0 H1 [Hlim Hsp]. unfold wc_WriteCache. rewrite Hw.
  destruct (_ || _) eqn:E.
  { eapply FlushCacheAndWrite_ok; try done. unfold MBUFSIZE in *. lia. }
  apply orb_false_iff in E as [[E _]%orb_false_iff _]. zbool.
  destruct (WBufSeekAndPrepare_ok g efh w bs hf mf F (efh_FilePos efh) Res2 Hw Hca He Hi)
    as (r & R & g1 & w1 & -> & Hsf & Hcase); [lia|lia|]. gsimpl.
  assert (He1 : env_ok g1) by (destruct Hsf as ([E1 _] & _); unfold env_ok; by rewrite E1).
  destruct Hcase as [(-> & Hf)|[(-> & Hc1 & (hf1 & mf1 & Hh1) & Hd)|
                                  (-> & l1 & p & l2 & hf1 & mf1 & Hat & Hd & Hon)]]; simpl (_ =? _); cbv iota.
  - eexists (-1), R, g1, _. split; [done|]. exists w1, (efh_FileLen efh). split; [done|].
    split; [done|]. left. split; [done|].
    destruct Hf as (? & ? & Hf). split_and!; try done. intros o Ho _. by apply Hf; [|intros []].
  - destruct (FlushCacheAndWrite_ok g1 (set_WBuf (Some w1) efh) w1 [] hf1 mf1 F Buf Num R)
      as (Res1 & R' & g' & efh' & -> & Hwr); try done.
    { by destruct Hd. }
    { gsimpl. unfold MBUFSIZE in *. lia. }
    exists Res1, R', g', efh'. split; [done|]. by eapply wrote_after_flush.
  - destruct (write_loop_ok (Datatypes.S (Z.to_nat Num)) g1 (set_WBuf (Some w1) efh) w1 l1 p l2 hf1 mf1 F
                (efh_FilePos efh) Buf Num Num R) as (Res1 & R' & g' & efh' & -> & w' & l & -> & Hsf' & Hres);
      try done; try lia.
    { by destruct Hd. }
    { destruct (Hon p) as [Hp|Hp]; [apply elem_of_app; right; by left|by apply Hsp|].
      intros _ _. rewrite Hp. done. }
    eexists Res1, R', g', _. split; [done|]. exists w', l. split; [done|].
    split; [by eapply step_frame_trans|].
    destruct Hres as [(-> & Hf)|(-> & -> & bs' & hf' & mf' & Hca' & Hi' & Hv')].
    + left. split; [done|]. destruct Hf as (? & ? & Hf). split_and!; [done..|].
      intros o Ho1 Ho2.
      assert (Hno : ~ dirty (l1 ++ p :: l2) o) by (intros Hx; by eapply Ho1, old_or_new_dirty).
      rewrite Hf by done. by eapply clean_same.
    + right. split_and!; [done..|]. exists bs', hf', mf'. split; [done|]. split; [done|].
      intros o. rewrite Hv'. apply overlay_ext_at. by destruct Hd as [_ Hd].
Qed.
End WriteSpec.
