(* ===== verification/WBufThm.v ===== *)
(** * Theorems about the write cache

    The statements about wbuf.c, with a concrete cache (16 headers and 16
    buffers, as the handler configures it, over the in-memory server of
    NfsServer.v) for their witnesses, and two runs of the code outside the
    bounds of the theorems that lose data. *)
From S2P Require Import Prelude MBuf WBufInfo NfsProt NfsSupp Nfs NfsServer Global.
From S2P Require Import WBuf WBufRep WBufFlush WBufGet WBufSeek WBufSpec.

(** ** The headers of the pool *)

Lemma alloc_hdrs_chain rs i : forall k head hdrs lft head' hdrs',
  (forall j a, (k <= j)%nat -> rs j = Some a -> hdrs !! a = None) ->
  (forall j1 j2 a, rs j1 = Some a -> rs j2 = Some a -> j1 = j2) ->
  alloc_hdrs rs k i head hdrs = (lft, head', hdrs') ->
  exists new, length new = (i - lft)%nat /\ (lft <= i)%nat /\
    chain wbh_Next hdrs' head' new head /\
    NoDup new /\ (forall a, a ∈ new -> hdrs !! a = None) /\
    (forall a, a ∉ new -> hdrs' !! a = hdrs !! a) /\
    (forall a h, a ∈ new -> hdrs' !! a = Some h -> zlen (wbh_Info h) = WBUFHDRINFOSIZE) /\
    (lft <> O -> rs (k + (i - lft))%nat = None) /\
    (forall j, (j < i - lft)%nat -> is_Some (rs (k + j)%nat)).
Proof.
  induction i as [|i IH]; intros k head hdrs lft head' hdrs' Hfr Hinj; simpl.
  - intros [= <- <- <-]. exists []. split_and!; try done; try lia; [constructor|..].
    all: by intros ? ?%elem_of_nil || (intros ? ? ?%elem_of_nil; done).
  - destruct (rs k) as [a|] eqn:Hk.
    2:{ intros [= <- <- <-]. exists []. rewrite Nat.sub_diag, Nat.add_0_r.
        split_and!; try done; try lia; [constructor|..].
        all: by intros ? ?%elem_of_nil || (intros ? ? ?%elem_of_nil; done). }
    intros H.
    apply IH in H as (new & Hlen & Hle & Hch & Hnd & Hnew & Hkeep & Hinfo & Hnone & Hsome); [| |done].
    2:{ intros j b Hj Hb. rewrite lookup_insert_ne; [apply (Hfr j b); [lia|done]|].
        intros <-. specialize (Hinj _ _ _ Hk Hb). lia. }
    assert (Hna : a ∉ new) by (intros Ha%Hnew; by rewrite lookup_insert_eq in Ha).
    assert (Hha : hdrs' !! a = Some (WBufHdr head 0 0 None (replicate (Z.to_nat WBUFHDRINFOSIZE) (0, 0))))
      by (rewrite Hkeep by done; apply lookup_insert_eq).
    exists (new ++ [a]). split_and!.
    + rewrite length_app. simpl. lia.
    + lia.
    + apply chain_app. exists (Some a). split; [done|]. simpl. split; [done|].
      eexists. split; [exact Hha|done].
    + apply NoDup_app. split_and!; [done| |apply NoDup_singleton].
      intros b Hb ->%list_elem_of_singleton. done.
    + intros b [Hb%Hnew| ->%list_elem_of_singleton]%elem_of_app; [|by eapply Hfr].
      by apply lookup_insert_None in Hb as [? _].
    + intros b Hb. rewrite elem_of_app, list_elem_of_singleton in Hb.
      rewrite Hkeep by tauto. apply lookup_insert_ne. intros ->. tauto.
    + intros b h [Hb| ->%list_elem_of_singleton]%elem_of_app Hh; [by eapply Hinfo|].
      rewrite Hha in Hh. injection Hh as <-. done.
    + intros Hl. rewrite <-(Hnone Hl). f_equal. lia.
    + intros [|j] Hj; [rewrite Nat.add_0_r; eauto|].
      replace (k + Datatypes.S j)%nat with (Datatypes.S k + j)%nat by lia. apply Hsome. lia.
Qed.

(** Freeing a chain of headers leaves exactly the others. *)
Lemma free_hdrs_chain new : forall fuel p hdrs,
  chain wbh_Next hdrs p new None -> NoDup new -> (length new <= fuel)%nat ->
  exists hdrs', free_hdrs fuel p hdrs = Some hdrs' /\
    (forall a, a ∉ new -> hdrs' !! a = hdrs !! a) /\ (forall a, a ∈ new -> hdrs' !! a = None).
Proof.
  induction new as [|a new IH]; intros fuel p hdrs Hc Hnd Hf; simpl in Hc, Hf.
  - subst. destruct fuel; simpl; exists hdrs; (split; [done|]); (split; [done|]);
      by intros ? ?%elem_of_nil.
  - destruct Hc as (-> & h & Hh & Hc). destruct fuel as [|fuel]; [lia|]. simpl. rewrite Hh. simpl.
    apply NoDup_cons in Hnd as [Hna Hnd].
    destruct (IH fuel (wbh_Next h) (delete a hdrs)) as (hdrs' & -> & H1 & H2); [|done|lia|].
    { eapply chain_frame; [|exact Hc]. intros b Hb. apply lookup_delete_ne. by intros ->. }
    exists hdrs'. split; [done|]. split.
    + intros b Hb. rewrite not_elem_of_cons in Hb. rewrite H1 by tauto. apply lookup_delete_ne. intros ->. tauto.
    + intros b [->|Hb]%elem_of_cons; [|by apply H2]. rewrite H1 by done. apply lookup_delete_eq.
Qed.

Lemma chain_length_size {N} (next : N -> option addr) (m : gmap addr N) p l q :
  chain next m p l q -> NoDup l -> (length l <= size m)%nat.
Proof.
  intros Hc Hnd. rewrite <-(size_list_to_set (C := gset addr) l) by done.
  rewrite <-size_dom. apply subseteq_size. intros a Ha%elem_of_list_to_set.
  apply elem_of_dom. by eapply chain_mem.
Qed.

Section Pool.
Context {S : Type}.
Implicit Types g : Global_T S.

Definition no_frame : frame := Frame ∅ ∅.

Definition fresh_hdrs (rs : nat -> option addr) (hdrs : gmap addr wbufhdr) : Prop :=
  (forall k a, rs k = Some a -> hdrs !! a = None) /\
  (forall j k a, rs j = Some a -> rs k = Some a -> j = k).

Lemma wc_AllocWBufs_ok rs g mf NumBufs :
  g_WBufHdrs g = ∅ -> mb_ok (g_MBufs g) mf -> fresh_hdrs rs (g_WBufHdrs g) -> 0 <= NumBufs ->
  (forall k, Z.of_nat k < NumBufs -> is_Some (rs k)) ->
  exists g' hf, wc_AllocWBufs rs g NumBufs = Some (true, g') /\ zlen hf = NumBufs /\
    heap_ok g' [] hf mf no_frame /\ same_env g g' /\ g_MBufs g' = g_MBufs g.
Proof.
  intros He Hm [Hfr Hinj] HN Hall. unfold wc_AllocWBufs.
  destruct (alloc_hdrs rs 0 (Z.to_nat NumBufs) None (g_WBufHdrs g)) as [[lft head] hdrs] eqn:E.
  destruct (alloc_hdrs_chain _ _ _ _ _ _ _ _ (fun j a _ => Hfr j a) Hinj E)
    as (new & Hlen & Hle & Hch & Hnd & Hnew & Hkeep & Hinfo & Hnone & _).
  destruct lft as [|lft].
  2:{ destruct (Hall (0 + (Z.to_nat NumBufs - Datatypes.S lft))%nat) as [a Ha]; [lia|].
    by rewrite Hnone in Ha. }
  eexists _, new. split; [done|]. unfold zlen. split; [lia|]. split; [|done].
  constructor; gsimpl; simpl; try done.
  - unfold zlen. lia.
  - by apply Hm.
  - intros a h Ha. destruct (decide (a ∈ new)); [by eapply Hinfo|].
    rewrite Hkeep, He in Ha by done. done.
Qed.

(** Creating the pool of buffer headers (wc_AllocWBufs) gives a state in
    which all headers are on the free list and none is in use, over any
    well-formed pool of memory buffers. *)
Theorem wc_AllocWBufs_succeeds rs g mf NumBufs :
  g_WBufHdrs g = ∅ -> mb_ok (g_MBufs g) mf -> fresh_hdrs rs (g_WBufHdrs g) -> 0 <= NumBufs ->
  (forall k, Z.of_nat k < NumBufs -> is_Some (rs k)) ->
  exists g' hf, wc_AllocWBufs rs g NumBufs = Some (true, g') /\ zlen hf = NumBufs /\
    heap_ok g' [] hf mf no_frame /\ same_env g g' /\ g_MBufs g' = g_MBufs g.
Proof. apply wc_AllocWBufs_ok. Qed.

(** When an allocation fails, wc_AllocWBufs frees every header it had
    obtained, whatever their number: no header is left, and nothing else of
    the state has changed. *)
Theorem wc_AllocWBufs_fails rs g NumBufs k :
  fresh_hdrs rs (g_WBufHdrs g) -> Z.of_nat k < NumBufs -> rs k = None ->
  wc_AllocWBufs rs g NumBufs = Some (false, set_NumWBufHdrs 0 (set_FreeWBufHdr 0 None g)).
Proof.
  intros [Hfr Hinj] Hk Hnk. unfold wc_AllocWBufs.
  destruct (alloc_hdrs rs 0 (Z.to_nat NumBufs) None (g_WBufHdrs g)) as [[lft head] hdrs] eqn:E.
  destruct (alloc_hdrs_chain _ _ _ _ _ _ _ _ (fun j a _ => Hfr j a) Hinj E)
    as (new & Hlen & Hle & Hch & Hnd & Hnew & Hkeep & _ & _ & Hsome).
  destruct lft as [|lft].
  { destruct (Hsome k) as [a Ha]; [lia|]. simpl in Ha. congruence. }
  unfold wc_FreeWBufs. gsimpl.
  destruct (free_hdrs_chain new (size hdrs) head hdrs Hch Hnd) as (hdrs' & -> & H1 & H2).
  { by eapply chain_length_size. }
  gsimpl. do 2 f_equal. replace hdrs' with (g_WBufHdrs g); [by destruct g|].
  apply map_eq. intros a. destruct (decide (a ∈ new)) as [Ha|Ha].
  - rewrite (Hnew a Ha). symmetry. by apply H2.
  - rewrite H1, Hkeep by done. done.
Qed.
End Pool.

(** ** Transparency *)

Section Theorems.
Context {S : Type} `{HS : NfsFileServer S}.
Implicit Types (g : Global_T S) (w : WBUFCLUSTER) (F : frame).

(** C12: a buffered write is transparent, if it can be done at all in one go
    ([write_ok]): it is longer than [g_WriteBufferLimit], or not longer than one
    buffer, and if it begins in a block that is buffered and goes over its end, the
    table of dirty ranges of that block has three places left; its bytes are at positions that leave a block's room below 2^31, and the client is
    idle.  Then [wc_WriteCache] always returns; on success it reports the full count
    and the user's view of the file, the server's bytes with the dirty buffers over
    them, is the old view with the new bytes over it, the cluster being well-formed
    again, whether the bytes went to the server, to buffers, or caused a flush on the
    way; on failure (-1) the cluster is empty and no byte has changed that was neither
    dirty nor to be written.  Other files, their buffers and headers are never
    touched.  (What is excluded can lose data: [long_write_loses_data],
    [full_table_breaks_list].) *)
Theorem wc_WriteCache_transparent g efh w bs hf mf F Buf Num Res2 :
  efh_WBuf efh = Some w -> cache g w bs hf mf F ->
  env_ok g -> idle (g_NFSClnt g) -> Num = zlen Buf -> 0 < Num ->
  0 <= efh_FilePos efh -> efh_FilePos efh + Num + MBUFSIZE <= 2 ^ 31 ->
  write_ok bs (efh_FilePos efh) Num (g_WriteBufferLimit g) ->
  exists Res1 R g' efh', wc_WriteCache g efh Buf Num Res2 = Some (Res1, R, g', efh') /\
    wrote g efh w bs F (efh_FilePos efh) Buf Num Res1 R g' efh'.
Proof. apply wc_WriteCache_ok. Qed.

(** C13: Flushing (iwc_FlushCache) always returns and always empties the
    cluster, giving each of its headers and memory buffers back to the pools;
    when it reports success the server's file is what the user saw, and when
    it fails only dirty bytes may differ from what the server had. *)
Theorem wc_FlushCache_writes_back g efh w bs hf mf F ign Res2 :
  efh_WBuf efh = Some w -> cache g w bs hf mf F ->
  env_ok g -> idle (g_NFSClnt g) ->
  exists Res1 Res2' g' w',
    iwc_FlushCache g efh ign Res2 = Some (Res1, Res2', g', set_WBuf (Some w') efh) /\
    emptied g w bs hf mf F g' w' /\ flushed g (efh_NFSFh efh) bs Res2 Res1 Res2' g'.
Proof. intros Hw [Hh Hc Hb _]. by eapply iwc_FlushCache_ok. Qed.

(** WBufSeekAndPrepare meets the requirement that the comment on
    WBufWrite states: when it returns 1, PosData is the buffer that holds the
    position, or the last one before it with nothing of the position's buffer
    in between; it returns 0 only with an empty cluster, and -1 only after a
    failed flush; the user's view of the file does not change. *)
Theorem WBufSeekAndPrepare_positions g efh w bs hf mf F NewPos Res2 :
  efh_WBuf efh = Some w -> cache g w bs hf mf F -> env_ok g -> idle (g_NFSClnt g) ->
  0 <= NewPos -> NewPos + MBUFSIZE <= 2 ^ 31 ->
  exists r R g' w',
    WBufSeekAndPrepare g efh NewPos Res2 = Some (r, R, g', set_WBuf (Some w') efh) /\
    step_frame g w (efh_NFSFh efh) g' w' /\
    ((r = -1 /\ step_failed g (efh_NFSFh efh) bs (fun _ => False) F g' w') \/
     (r = 0 /\ cluster_ok (g_WBufHdrs g') w' [] /\ (exists hf' mf', heap_ok g' [] hf' mf' F) /\
      step_done g (efh_NFSFh efh) bs (fun v => v) g' []) \/
     (r = 1 /\ exists l1 p l2 hf' mf', at_pos g' w' l1 p l2 hf' mf' F NewPos /\
        step_done g (efh_NFSFh efh) bs (fun v => v) g' (l1 ++ p :: l2) /\
        old_or_new bs (l1 ++ p :: l2))).
Proof. apply WBufSeekAndPrepare_ok. Qed.

(** One WBufWrite makes progress: it returns -1 or a count between 1 and
    [Num], never the 0 ("no mem") that its caller prepares for, because after
    flushing a non-empty cluster a header and a buffer are free; the bytes it
    took are in the user's view, and when some are left the requirement for
    the next call holds again, at the start of the next buffer. *)
Theorem WBufWrite_progress g efh w l1 p l2 hf mf F pos Buf Num Res2 :
  efh_WBuf efh = Some w -> at_pos g w l1 p l2 hf mf F pos ->
  env_ok g -> idle (g_NFSClnt g) -> 0 <= pos -> pos + MBUFSIZE <= 2 ^ 31 ->
  1 <= Num <= MBUFSIZE -> Num = zlen Buf -> span_ok p pos Num ->
  exists c R g' w', WBufWrite g efh Buf Num Res2 = Some (c, R, g', set_WBuf (Some w') efh) /\
    step_frame g w (efh_NFSFh efh) g' w' /\
    write_step g (efh_NFSFh efh) (l1 ++ p :: l2) pos Num Buf F c g' w'.
Proof. apply WBufWrite_ok. Qed.

(** ** Sessions: writes in any order, then a flush *)

(** A session writes each buffer at its position and flushes at the end;
    [None] inside is a failure reported to the user. *)
Fixpoint run_session g efh (l : list (Z * list byte)) : option (option (Global_T S * EFH)) :=
  match l with
  | [] =>
      '(Res1, _, g, efh) ← wc_FlushCache g efh 0;
      Some (if Res1 =? DOSFALSE then None else Some (g, efh))
  | (pos, Buf) :: l =>
      '(Res1, _, g, efh) ← wc_WriteCache g (set_FilePos pos efh) Buf (zlen Buf) 0;
      if Res1 =? -1 then Some None else run_session g efh l
  end.

(** Writes that stay inside one block of the file. *)
Definition session_ok (l : list (Z * list byte)) : Prop :=
  Forall (fun '(pos, Buf) => 0 <= pos /\ 0 < zlen Buf /\
          pos + zlen Buf + MBUFSIZE <= 2 ^ 31 /\ pos mod MBUFSIZE + zlen Buf <= MBUFSIZE) l.

(** What the session means: the writes in order on the plain file. *)
Definition session_spec (c : Z -> byte) (l : list (Z * list byte)) : Z -> byte :=
  fold_left (fun c '(pos, Buf) => overlay c pos Buf) l c.

Lemma session_spec_ext l : forall c c' o, same_view c c' -> session_spec c l o = session_spec c' l o.
Proof.
  induction l as [|[pos Buf] l IH]; intros c c' o Hc; simpl; [apply Hc|].
  apply IH. intros x. by apply overlay_ext_at.
Qed.

Lemma inside_block_span bs pos n :
  blocks_from 0 bs -> 0 <= pos -> pos mod MBUFSIZE + n <= MBUFSIZE -> forall p, p ∈ bs -> span_ok p pos n.
Proof.
  intros Hb H0 Hn p Hp Hin Hsp. exfalso. destruct (blocks_from_in _ _ _ Hb Hp) as [_ Hok].
  pose proof (bo_align _ Hok) as Ha. unfold in_block in Hin.
  rewrite (Z.div_mod (bk_off p) MBUFSIZE), Ha in Hin, Hsp by done.
  rewrite (Z.div_mod pos MBUFSIZE) in Hin, Hsp by done.
  pose proof (Z.mod_pos_bound pos MBUFSIZE). unfold MBUFSIZE in *. nia.
Qed.

Lemma run_session_ok l : forall g efh w bs hf mf F,
  efh_WBuf efh = Some w -> cache g w bs hf mf F -> env_ok g -> idle (g_NFSClnt g) ->
  session_ok l ->
  exists r, run_session g efh l = Some r /\
    (forall g' efh', r = Some (g', efh') ->
     (exists w' hf' mf', efh_WBuf efh' = Some w' /\ cache g' w' [] hf' mf' F) /\
     idle (g_NFSClnt g') /\ others_same g g' (efh_NFSFh efh) /\
     same_view (contents (g_NFSClnt g') (efh_NFSFh efh))
       (session_spec (seen g (efh_NFSFh efh) bs) l)).
Proof.
  induction l as [|[pos Buf] l IH]; intros g efh w bs hf mf F Hw Hca He Hi Hl; simpl.
  - destruct Hca as [Hh Hc Hb _].
    destruct (iwc_FlushCache_ok g efh w bs hf mf F false 0 0 Hw Hh Hc Hb He Hi)
      as (Res1 & R & g1 & w1 & Hrun & Hem & Ho & _ & Hr). unfold wc_FlushCache. rewrite Hrun. gsimpl.
    eexists. split; [done|]. intros g' efh'.
    destruct Hr as [->|(-> & _ & Hi' & Hv)]; simpl; intros [= <- <-].
    destruct Hem as (_ & _ & Hc1 & hf1 & mf1 & Hh1 & _).
    split; [|done]. exists w1, hf1, mf1. split; [done|by constructor].
  - apply Forall_cons in Hl as [(H0 & HB & H31 & Hin) Hl].
    destruct (wc_WriteCache_ok g (set_FilePos pos efh) w bs hf mf F Buf (zlen Buf) 0)
      as (Res1 & R & g1 & efh1 & -> & w1 & fl & -> & Hsf & Hres); try done.
    { split; [pose proof (Z.mod_pos_bound pos MBUFSIZE); unfold MBUFSIZE in *; lia|].
      apply inside_block_span; [apply Hca|done..]. }
    gsimpl. gsimpl in Hres. gsimpl in Hsf.
    destruct Hres as [(-> & _)|(-> & -> & bs1 & hf1 & mf1 & Hca1 & Hi1 & Hv1)].
    { by eexists. }
    rewrite (proj2 (Z.eqb_neq _ _)) by lia.
    destruct (IH g1 (set_FileLen fl (set_WBuf (Some w1) (set_FilePos pos efh))) w1 bs1 hf1 mf1 F)
      as (r & Hrun & Hr); try done.
    { destruct Hsf as ([E _] & _). unfold env_ok. by rewrite E. }
    gsimpl in Hrun. gsimpl in Hr. exists r. split; [done|].
    intros g' efh' E. destruct (Hr _ _ E) as (Hca' & Hi' & Ho' & Hv').
    split; [done|]. split; [done|]. destruct Hsf as (_ & _ & Ho). split.
    + intros f o Hf. rewrite Ho' by done. by apply Ho.
    + intros o. rewrite Hv'. by apply session_spec_ext.
Qed.

(** C1: A whole session: writes in any order, each of at least one byte and inside
    one 8192-byte block of the file, at positions that leave a block's room below
    2^31, then a flush, with a well-formed cache and an idle client at the start.
    It always runs to its end or to a reported failure.  When no write and not the
    flush reported a failure, the server's file is the result of the writes done one
    after the other on the plain file, every other file is untouched, all buffers are
    back in their pools and the client is idle again.  (A write that goes over the end
    of a block can be lost: [long_write_loses_data].) *)
Theorem write_session_correct g efh w bs hf mf F l :
  efh_WBuf efh = Some w -> cache g w bs hf mf F -> env_ok g -> idle (g_NFSClnt g) ->
  session_ok l ->
  exists r, run_session g efh l = Some r /\
    (forall g' efh', r = Some (g', efh') ->
     (exists w' hf' mf', efh_WBuf efh' = Some w' /\ cache g' w' [] hf' mf' F) /\
     idle (g_NFSClnt g') /\ others_same g g' (efh_NFSFh efh) /\
     same_view (contents (g_NFSClnt g') (efh_NFSFh efh))
       (session_spec (seen g (efh_NFSFh efh) bs) l)).
Proof. apply run_session_ok. Qed.
End Theorems.

(** ** A concrete cache *)

Definition mb16 : mbpool :=
  match mb_AllocMBufs rs_ok zero_buf no_mbufs 16 with Some (_, mb) => mb | None => no_mbufs end.

(** 16 headers and buffers, synchronous writes, g_WriteBufferLimit of two buffers. *)
Definition g16_start : Global_T memserver :=
  Global mb16 0 0 None ∅ (NFSGlobal 1 1 8192 8192 8192) (2 * MBUFSIZE) mem0.
Definition g16 : Global_T memserver :=
  match wc_AllocWBufs rs_ok g16_start 16 with Some (_, g) => g | None => g16_start end.

(** A file open for writing, with four buffers at most. *)
Definition wbc4 : WBUFCLUSTER := WBufCluster 4 0 None None None 0.
Definition efh16 : EFH := Efh 1 0 0 1005 [x01] (Some wbc4) None 0.

Lemma rs_ok_fresh_hdrs : fresh_hdrs rs_ok ∅.
Proof. split; [done|]. unfold rs_ok. intros j k a [= <-] [= E]. lia. Qed.

Lemma g16_ok : exists hf mf, cache g16 wbc4 [] hf mf no_frame /\ zlen hf = 16.
Proof.
  destruct (mb_AllocMoreMBufs_ok rs_ok zero_buf no_mbufs [] 16 no_mbufs_ok rs_ok_fresh)
    as (mb & mf & Hmb & _ & Hmok & _); [reflexivity|lia|intros k _; by eexists|].
  assert (E1 : mb16 = mb).
  { unfold mb16, mb_AllocMBufs. change (MBPool 0 0 None (mb_mem no_mbufs)) with no_mbufs.
    by rewrite Hmb. }
  destruct (wc_AllocWBufs_ok rs_ok g16_start (mf ++ []) 16)
    as (g & hf & Hg & Hl & Hh & _); [done| |apply rs_ok_fresh_hdrs|lia|intros k _; by eexists|].
  { unfold g16_start. gsimpl. by rewrite E1. }
  exists hf, (mf ++ []). split; [|done]. unfold g16. rewrite Hg.
  constructor; [done| |done|done]. constructor; done.
Qed.

Lemma wc_AllocWBufs_succeeds_witness :
  exists g' hf, wc_AllocWBufs rs_ok (set_MBufs no_mbufs g16_start) 16 = Some (true, g') /\
    zlen hf = 16 /\ heap_ok g' [] hf [] no_frame.
Proof.
  destruct (wc_AllocWBufs_succeeds rs_ok (set_MBufs no_mbufs g16_start) [] 16 eq_refl no_mbufs_ok
              rs_ok_fresh_hdrs) as (g' & hf & H1 & H2 & H3 & _); [lia|intros k _; by eexists|].
  exists g', hf. split; [exact H1|]. split; [exact H2|exact H3].
Defined.

Lemma rs_fail_fresh_hdrs : fresh_hdrs rs_fail ∅.
Proof.
  split; [done|]. unfold rs_fail, rs_ok. intros j k a.
  destruct (j =? 2)%nat, (k =? 2)%nat; try done. intros [= <-] [= E]. lia.
Qed.

Lemma wc_AllocWBufs_fails_witness :
  wc_AllocWBufs rs_fail g16_start 16 = Some (false, set_NumWBufHdrs 0 (set_FreeWBufHdr 0 None g16_start)).
Proof. apply (wc_AllocWBufs_fails rs_fail g16_start 16 2 rs_fail_fresh_hdrs); [lia|reflexivity]. Defined.

(** Res1 of a run. *)
Definition res1 {A B C} (r : option (Z * A * B * C)) : option Z :=
  '(Res1, _, _, _) ← r; Some Res1.

Lemma wc_WriteCache_transparent_witness :
  exists R g' efh', wc_WriteCache g16 (set_FilePos 100 efh16) (replicate 5 x07) 5 0
      = Some (5, R, g', efh') /\
    wrote g16 (set_FilePos 100 efh16) wbc4 [] no_frame 100 (replicate 5 x07) 5 5 R g' efh'.
Proof.
  destruct g16_ok as (hf & mf & Hca & _).
  destruct (wc_WriteCache_transparent g16 (set_FilePos 100 efh16) wbc4 [] hf mf no_frame
              (replicate 5 x07) 5 0 eq_refl Hca) as (Res1 & R & g' & efh' & Hr & Hw).
  { vm_compute. discriminate. }
  { by split. }
  { reflexivity. }
  { lia. }
  { vm_compute. discriminate. }
  { vm_compute. discriminate. }
  { split; [intros _; vm_compute; discriminate|]. intros p Hp. by apply elem_of_nil in Hp. }
  assert (E : res1 (wc_WriteCache g16 (set_FilePos 100 efh16) (replicate 5 x07) 5 0) = Some 5)
    by (vm_compute; reflexivity).
  rewrite Hr in E. injection E as ->.
  exists R, g', efh'. split; [exact Hr|exact Hw].
Defined.

(** The cache after five bytes were written at offset 100. *)
Lemma g16_written :
  exists R g w bs hf mf l,
    wc_WriteCache g16 (set_FilePos 100 efh16) (replicate 5 x07) 5 0
      = Some (5, R, g, set_FileLen l (set_WBuf (Some w) (set_FilePos 100 efh16))) /\
    cache g w bs hf mf no_frame /\ idle (g_NFSClnt g) /\ env_ok g /\
    same_view (seen g [x01] bs) (overlay (seen g16 [x01] []) 100 (replicate 5 x07)).
Proof.
  destruct g16_ok as (hf & mf & Hca & _).
  destruct (wc_WriteCache_ok g16 (set_FilePos 100 efh16) wbc4 [] hf mf no_frame
              (replicate 5 x07) 5 0 eq_refl Hca) as (Res1 & R & g' & efh' & Hr & w & l & -> & Hsf & Hw).
  { vm_compute. discriminate. }
  { by split. }
  { reflexivity. }
  { lia. }
  { vm_compute. discriminate. }
  { vm_compute. discriminate. }
  { split; [intros _; vm_compute; discriminate|]. intros p Hp. by apply elem_of_nil in Hp. }
  assert (E : res1 (wc_WriteCache g16 (set_FilePos 100 efh16) (replicate 5 x07) 5 0) = Some 5)
    by (vm_compute; reflexivity).
  rewrite Hr in E. injection E as ->.
  destruct Hw as [(E & _)|(_ & _ & bs & hf' & mf' & Hca' & Hi & Hv)]; [discriminate|].
  exists R, g', w, bs, hf', mf', l. split; [exact Hr|]. split; [exact Hca'|]. split; [exact Hi|].
  split; [|exact Hv]. destruct Hsf as ([E _] & _). unfold env_ok. rewrite E. vm_compute. discriminate.
Qed.

Definition flush_of (r : option (Z * Z * Global_T memserver * EFH)) :=
  '(_, _, g, efh) ← r; iwc_FlushCache g efh false 0.

Lemma wc_FlushCache_writes_back_witness :
  exists R g1 efh1 R2 g2 efh2,
    wc_WriteCache g16 (set_FilePos 100 efh16) (replicate 5 x07) 5 0 = Some (5, R, g1, efh1) /\
    iwc_FlushCache g1 efh1 false 0 = Some (DOSTRUE, R2, g2, efh2) /\
    same_view (contents (g_NFSClnt g2) [x01]) (overlay (fun _ => x00) 100 (replicate 5 x07)).
Proof.
  destruct g16_written as (R & g1 & w & bs & hf & mf & l & Hr & Hca & Hi & He & Hv).
  destruct (wc_FlushCache_writes_back g1 (set_FileLen l (set_WBuf (Some w) (set_FilePos 100 efh16)))
              w bs hf mf no_frame false 0 eq_refl Hca He Hi)
    as (Res1 & R2 & g2 & w2 & Hf & _ & _ & _ & Hcase).
  assert (E : res1 (flush_of (wc_WriteCache g16 (set_FilePos 100 efh16) (replicate 5 x07) 5 0))
              = Some DOSTRUE) by (vm_compute; reflexivity).
  rewrite Hr in E. unfold flush_of in E. cbn [mbind option_bind] in E. rewrite Hf in E.
  injection E as ->.
  destruct Hcase as [E|(_ & _ & _ & Hv2)]; [discriminate|].
  eexists R, g1, _, R2, g2, _. split; [exact Hr|]. split; [exact Hf|].
  intros o. etransitivity; [exact (Hv2 o)|exact (Hv o)].
Defined.

Lemma WBufSeekAndPrepare_positions_witness :
  exists r R g' w', WBufSeekAndPrepare g16 efh16 100 0 = Some (r, R, g', set_WBuf (Some w') efh16) /\
    step_frame g16 wbc4 [x01] g' w'.
Proof.
  destruct g16_ok as (hf & mf & Hca & _).
  destruct (WBufSeekAndPrepare_positions g16 efh16 wbc4 [] hf mf no_frame 100 0 eq_refl Hca)
    as (r & R & g' & w' & Hr & Hf & _);
    [vm_compute; discriminate|by split|lia|vm_compute; discriminate|].
  exists r, R, g', w'. split; [exact Hr|exact Hf].
Defined.

Lemma WBufWrite_progress_witness :
  exists g w R c R' g' w',
    WBufSeekAndPrepare g16 efh16 100 0 = Some (1, R, g, set_WBuf (Some w) efh16) /\
    WBufWrite g (set_WBuf (Some w) efh16) (replicate 5 x07) 5 R
      = Some (c, R', g', set_WBuf (Some w') efh16) /\ c = 5.
Proof.
  destruct g16_ok as (hf & mf & Hca & _).
  destruct (WBufSeekAndPrepare_ok g16 efh16 wbc4 [] hf mf no_frame 100 0 eq_refl Hca)
    as (r & R & g & w & Hr & Hsf & Hcase);
    [vm_compute; discriminate|by split|lia|vm_compute; discriminate|].
  assert (E : res1 (WBufSeekAndPrepare g16 efh16 100 0) = Some 1) by (vm_compute; reflexivity).
  rewrite Hr in E. injection E as ->.
  destruct Hcase as [(E & _)|[(E & _)|(_ & l1 & p & l2 & hf' & mf' & Hat & Hd & _)]]; try discriminate.
  destruct (WBufWrite_progress g (set_WBuf (Some w) efh16) w l1 p l2 hf' mf' no_frame 100
              (replicate 5 x07) 5 R eq_refl Hat) as (c & R' & g' & w' & Hw & _).
  { destruct Hsf as ([E _] & _). unfold env_ok. rewrite E. vm_compute. discriminate. }
  { apply Hd. }
  { lia. }
  { vm_compute. discriminate. }
  { vm_compute. split; discriminate. }
  { reflexivity. }
  { intros _ Hsp. exfalso. destruct Hat as [[_ _ Hb _] _ _ _].
    apply blocks_from_split in Hb as (_ & Hp & _). unfold MBUFSIZE in Hsp. lia. }
  exists g, w, R, c, R', g', w'. split; [exact Hr|]. split; [exact Hw|].
  assert (E : res1 ('(_, R, g, e) ← WBufSeekAndPrepare g16 efh16 100 0;
                    WBufWrite g e (replicate 5 x07) 5 R) = Some 5) by (vm_compute; reflexivity).
  rewrite Hr in E. cbn [mbind option_bind] in E. rewrite Hw in E. injection E as ->. reflexivity.
Defined.

(** Overlapping writes, out of order, in two blocks. *)
Definition session3 : list (Z * list byte) :=
  [(8192, replicate 10 x01); (100, replicate 5 x07); (8190, replicate 2 x09); (102, replicate 9 x02)].

Lemma write_session_correct_witness :
  exists g' efh', run_session g16 efh16 session3 = Some (Some (g', efh')) /\
    same_view (contents (g_NFSClnt g') [x01]) (session_spec (fun _ => x00) session3).
Proof.
  destruct g16_ok as (hf & mf & Hca & _).
  destruct (write_session_correct g16 efh16 wbc4 [] hf mf no_frame session3 eq_refl Hca)
    as (r & Hr & Hok).
  { vm_compute. discriminate. }
  { by split. }
  { repeat constructor; vm_compute; discriminate. }
  assert (E : match run_session g16 efh16 session3 with Some (Some _) => true | _ => false end = true)
    by (vm_compute; reflexivity).
  rewrite Hr in E. destruct r as [[g' efh']|]; [|discriminate].
  exists g', efh'. split; [exact Hr|]. apply (Hok g' efh' eq_refl).
Defined.

(** ** Outside the bounds *)

(** The state after writes at the given positions. *)
Fixpoint writes (st : option (Global_T memserver * EFH)) (l : list (Z * list byte))
  : option (Global_T memserver * EFH) :=
  match l with
  | [] => st
  | (pos, Buf) :: l =>
      writes ('(g, efh) ← st;
              ('(_, _, g, efh) ← wc_WriteCache g (set_FilePos pos efh) Buf (zlen Buf) 0;
               Some (g, efh))) l
  end.

Definition byte_after (st : option (Global_T memserver * EFH)) (o : Z) : option byte :=
  '(g, efh) ← st; ('(_, _, g, _) ← wc_FlushCache g efh 0; Some (contents (g_NFSClnt g) [x01] o)).

Definition block (b : byte) (n : nat) : list byte := replicate n b.

(** Two blocks are cached; a write of 16384 bytes at offset 100 crosses both
    and goes on into a third. *)
Definition long_write : list (Z * list byte) :=
  [(0, block x01 (Z.to_nat 8192)); (8192, block x02 (Z.to_nat 8192));
   (100, block x03 (Z.to_nat 16384)); (16384, block x04 10); (16384, block x05 5)].

(** WBufWrite does not move PosData when it goes on into an existing next
    buffer, so a write of more than MBUFSIZE bytes, which the default
    [g_WriteBufferLimit] of two buffers lets through, links its third buffer
    out of order; a later write then makes a second buffer for the same block,
    and the flush writes the old bytes over the new ones: offset 16384 holds
    04, the byte written there last was 05. *)
Theorem long_write_loses_data :
  byte_after (writes (Some (g16, efh16)) long_write) 16384 = Some x04 /\
  session_spec (fun _ => x00) long_write 16384 = x05 /\
  g_WriteBufferLimit g16 = 2 * MBUFSIZE.
Proof. vm_compute. repeat split. Qed.

(** 57 separate ranges in the first block, then four bytes across its end. *)
Definition fragments : list (Z * list byte) :=
  (fun i => (2 * Z.of_nat i, [x07])) <$> seq 0 57.

(** When a write fills the table of the block it starts in and goes on into
    the next block, WBufWrite flushes the cluster in the middle of the write
    and continues with a PosData that is on the free list: the write is
    reported as complete, but the list of the cluster is then broken and the
    next flush follows a NULL pointer. *)
Theorem full_table_breaks_list :
  res1 ('(g, efh) ← writes (Some (g16, efh16)) fragments;
        wc_WriteCache g (set_FilePos 8190 efh) (block x09 4) 4 0) = Some 4 /\
  ('(g, efh) ← writes (Some (g16, efh16)) (fragments ++ [(8190, block x09 4)]);
   wc_FlushCache g efh 0) = None.
Proof. split; vm_compute; reflexivity. Qed.
