(* ===== verification/RBuf.v ===== *)
(** * The read buffer (rbuf.c)

    A file opened for reading may own one memory buffer that holds the bytes
    read ahead.  [rb_ReadBuf] serves small reads from it; the bytes it counts at
    the caller's buffer are part of its result.  [None] is undefined behaviour. *)
From S2P Require Import Prelude MBuf WBufInfo NfsProt NfsSupp Nfs Global.

Definition RBUFFERLIMIT : Z := 2048.

Definition rb_CreateRBuf (mem_ok : bool) (efh : EFH) : EFH :=
  set_RBuf (if mem_ok then Some (RBufHdr 0 0 None) else None) efh.

Definition rb_DeleteRBuf (efh : EFH) : EFH := set_RBuf None efh.

Section RBuf.
Context {S : Type} `{NfsRpc S}.

Definition rb_ObtainRBufData (g : Global_T S) (efh : EFH) : option (Global_T S * EFH) :=
  (rbh ← efh_RBuf efh;
   ('(rbn, mb) ← mb_ObtainMBuf (g_MBufs g);
    Some (set_MBufs mb g,
          set_RBuf (Some (RBufHdr (rbh_FileOffs rbh) (rbh_DataLen rbh) (Some rbn))) efh))).

Definition rb_ReleaseRBufData (g : Global_T S) (efh : EFH) : option (Global_T S * EFH) :=
  (rbh ← efh_RBuf efh;
   (mb ← mb_ReleaseMBuf (g_MBufs g) (rbh_Data rbh);
    Some (set_MBufs mb g,
          set_RBuf (Some (RBufHdr (rbh_FileOffs rbh) (rbh_DataLen rbh) None)) efh))).

(** [nfs_MRead(..., &efh->efh_FileLen, Res2)] into some memory. *)
Definition rb_MRead (g : Global_T S) (efh : EFH) (FilePos Num : Z)
  : option (io_res * list byte * Global_T S * EFH) :=
  ('(r, bytes, s) ← nfs_MRead (g_NFSGlobal g) (efh_NFSFh efh) (u32 FilePos) (u32 Num) (g_NFSClnt g);
   Some (r, bytes, set_NFSClnt s g, set_FileLen (io_FileLen r (efh_FileLen efh)) efh)).

(** The part of a read that the buffer can serve: the bytes and their number. *)
Definition rb_served (g : Global_T S) (rbh : RBUFHDR) (FilePos Num : Z) : option (list byte * Z) :=
  let End := rbh_FileOffs rbh + rbh_DataLen rbh in
  if (rbh_FileOffs rbh <=? FilePos) && (FilePos <? End)
  then (a ← rbh_Data rbh;
        (d ← mb_data (g_MBufs g) a;
         let l := Z.min Num (End - FilePos) in
         let bytes := sub_list d (FilePos - rbh_FileOffs rbh) l in
         if zlen bytes <? l then None else Some (bytes, l)))
  else Some ([], 0).

(** The rest of a buffered read, [NumLeft] bytes from [FilePos] on, through a
    buffer that is read anew.  [front] is what the old buffer gave. *)
Definition rb_refill (g : Global_T S) (efh : EFH) (front : list byte) (FilePos Num NumLeft Res2 : Z)
  : option (Z * list byte * Z * Global_T S * EFH) :=
  ('(r, bytes, g, efh) ← rb_MRead g efh FilePos MBUFSIZE;
   let NumRead := io_ret r in
   let Res2 := io_Res2 r Res2 in
   if NumRead =? 0
   then ('(g, efh) ← rb_ReleaseRBufData g (set_FilePos FilePos efh);
         Some (Num - NumLeft, front, Res2, g, efh))
   else if NumRead >? 0
   then (rbh ← efh_RBuf efh;
         (a ← rbh_Data rbh;
          (mb ← mb_store (g_MBufs g) a 0 bytes;
           (d ← mb_data mb a;
            let l := Z.min NumRead NumLeft in
            Some (Num - (NumLeft - l), front ++ sub_list d 0 l, Res2, set_MBufs mb g,
                  set_FilePos (FilePos + l)
                    (set_RBuf (Some (RBufHdr FilePos NumRead (Some a))) efh))))))
   else ('(g, efh) ← rb_ReleaseRBufData g efh; Some (-1, [], Res2, g, efh))).

(** The read that does not use the buffer. *)
Definition rb_direct (g : Global_T S) (efh : EFH) (Num Res2 : Z)
  : option (Z * list byte * Z * Global_T S * EFH) :=
  ('(g, efh) ← (if HasBufferedRData efh then rb_ReleaseRBufData g efh else Some (g, efh));
   ('(r, bytes, g, efh) ← rb_MRead g efh (efh_FilePos efh) Num;
    let efh := if io_ret r >? 0 then set_FilePos (efh_FilePos efh + io_ret r) efh else efh in
    Some (io_ret r, if io_ret r >? 0 then bytes else [], io_Res2 r Res2, g, efh))).

(** (Res1, the bytes at Buf that it counts, Res2, g, efh) *)
Definition rb_ReadBuf (g : Global_T S) (efh : EFH) (Num Res2 : Z)
  : option (Z * list byte * Z * Global_T S * EFH) :=
  (use_buf ← (if (Num <=? RBUFFERLIMIT) && negb (efh_FilePos efh =? 0)
              then (rbh ← efh_RBuf efh;
                    Some (bool_decide (is_Some (rbh_Data rbh)) || (g_NumFreeMBufs (g_MBufs g) >? 0)))
              else Some false);
   if (use_buf : bool)
   then
   (rbh ← efh_RBuf efh;
    ('(front, l, g, efh) ←
       (match rbh_Data rbh with
        | None => ('(g, efh) ← rb_ObtainRBufData g efh; Some ([], 0, g, efh))
        | Some _ => ('(bytes, l) ← rb_served g rbh (efh_FilePos efh) Num;
                     Some (bytes, l, g, efh))
        end);
     let FilePos := efh_FilePos efh + l in
     if Num - l =? 0 then Some (Num, front, Res2, g, set_FilePos FilePos efh)
     else rb_refill g efh front FilePos Num (Num - l) Res2))
   else rb_direct g efh Num Res2).
End RBuf.
