(* ===== verification/RBufSpec.v ===== *)
(** * The read buffer gives the file's bytes

    [rb_ReadBuf] with its one memory buffer against the file server: a read
    that succeeds gives the bytes of the file, in whatever mixture they come
    from the buffer and the server, and the buffer stays a faithful copy. *)
From S2P Require Import Prelude MBuf WBufInfo NfsProt NfsSupp Nfs NfsServer Global.
From S2P Require Import WBuf WBufRep.
From S2P Require Import WBufFlush RBuf.

(** The frame with memory buffer [a] holding [d] added. *)
Definition fr_add (a : addr) (d : list byte) (F : frame) : frame :=
  Frame (fr_hdrs F) (<[a := d]> (fr_data F)).

(** The first [rbh_DataLen] bytes of [d] are those of the file. *)
Record rb_valid (c : Z -> byte) (d : list byte) (r : RBUFHDR) : Prop := {
  rv_offs : 0 <= rbh_FileOffs r;
  rv_len : 0 <= rbh_DataLen r <= MBUFSIZE;
  rv_size : zlen d = MBUFSIZE;
  rv_bytes : forall i, 0 <= i < rbh_DataLen r -> d !! Z.to_nat i = Some (c (rbh_FileOffs r + i))
}.

Section RBufSpec.
Context {S : Type} `{HS : NfsFileServer S, !NfsFileReader S}.
Implicit Types (g : Global_T S) (F : frame) (efh : EFH).

Lemma heap_ok_fr_fresh g own hf m mf F :
  heap_ok g own hf (m :: mf) F -> fr_data F !! m = None.
Proof.
  intros [_ _ _ _ _ _ _ _ H9]. destruct (fr_data F !! m) as [d|] eqn:E; [|done].
  destruct (H9 m d E) as [_ []]. apply elem_of_app. right. by left.
Qed.

Lemma heap_ok_obtain_mb g own hf m mf F :
  heap_ok g own hf (m :: mf) F ->
  exists mb d, mb_ObtainMBuf (g_MBufs g) = Some (m, mb) /\ zlen d = MBUFSIZE /\
    heap_ok (set_MBufs mb g) own hf mf (fr_add m d F).
Proof.
  intros [H1 H2 H3 H4 H5 H6 H7 H8 H9].
  destruct (mb_Obtain_ok _ _ _ H4) as (mb & Hmo & Hmb & Hni & Hmem & _).
  assert (Hdat : forall x, mb_data mb x = mb_data (g_MBufs g) x)
    by (intros x; unfold mb_data; by rewrite Hmem).
  destruct (mb_ok_chain _ _ H4) as (_ & n & Hn & _).
  pose proof (mb_ok_size _ _ H4 _ _ Hn) as Hsz.
  exists mb, (mbn_Data n). split; [done|]. split; [done|].
  rewrite <-Permutation_middle in H5. apply NoDup_cons in H5 as [Hm5 H5].
  constructor; gsimpl; try done.
  - rewrite Forall_forall in H6 |- *. intros b Hb.
    eapply block_in_frame; [done|apply Hdat|by apply H6].
  - intros a d. unfold fr_add; simpl. intros [[<- <-]|[Ha Hd]]%lookup_insert_Some.
    + rewrite Hdat. unfold mb_data. by rewrite Hn.
    + destruct (H9 a d Hd) as [Hd1 Hd2]. rewrite Hdat. split; [done|].
      rewrite <-Permutation_middle, elem_of_cons in Hd2. tauto.
Qed.

Lemma heap_ok_release_mb g own hf mf F a d :
  fr_data F !! a = None -> heap_ok g own hf mf (fr_add a d F) ->
  exists mb, mb_ReleaseMBuf (g_MBufs g) (Some a) = Some mb /\
    heap_ok (set_MBufs mb g) own hf (a :: mf) F.
Proof.
  intros Hfa [H1 H2 H3 H4 H5 H6 H7 H8 H9].
  destruct (H9 a d) as [Hd Hna]; [apply lookup_insert_eq|].
  rewrite elem_of_app in Hna.
  destruct (mb_Release_ok (g_MBufs g) a mf) as (mb & Hr & Hmb & Hdat & _); [done|tauto| |].
  { unfold mb_data in Hd. destruct (mb_mem (g_MBufs g) !! a); [eauto|done]. }
  exists mb. split; [done|]. constructor; gsimpl; try done.
  - rewrite <-Permutation_middle. apply NoDup_cons. split; [|done]. by rewrite elem_of_app.
  - rewrite Forall_forall in H6 |- *. intros b Hb.
    eapply block_in_frame; [done|apply Hdat|by apply H6].
  - intros b e Hb. assert (a <> b) by (intros ->; congruence).
    destruct (H9 b e) as [Hd1 Hd2]; [simpl; by rewrite lookup_insert_ne|].
    rewrite Hdat. split; [done|]. rewrite <-Permutation_middle, elem_of_cons.
    intros [?|?]; [congruence|done].
Qed.

Lemma heap_ok_store_mb g own hf mf F a d src :
  fr_data F !! a = None -> heap_ok g own hf mf (fr_add a d F) -> zlen src <= MBUFSIZE ->
  exists mb d', mb_store (g_MBufs g) a 0 src = Some mb /\ copy_at d 0 src = Some d' /\
    mb_data mb a = Some d' /\ heap_ok (set_MBufs mb g) own hf mf (fr_add a d' F).
Proof.
  intros Hfa [H1 H2 H3 H4 H5 H6 H7 H8 H9] Hl.
  destruct (H9 a d) as [Hd Hna]; [apply lookup_insert_eq|].
  rewrite elem_of_app in Hna. unfold mb_data in Hd.
  destruct (mb_mem (g_MBufs g) !! a) as [n|] eqn:En; [|done]. injection Hd as <-.
  destruct (mb_store_ok (g_MBufs g) a mf 0 src n) as
    (mb & d' & Hst & Hmb & Hcp & Hd' & Hoth & _); [done|tauto|done|lia|lia|].
  exists mb, d'. split_and!; try done. constructor; gsimpl; try done.
  - rewrite Forall_forall in H6 |- *. intros b Hb.
    eapply block_in_frame; [done| |by apply H6]. apply Hoth. intros <-.
    apply Hna. left. by apply list_elem_of_fmap_2.
  - intros b e. unfold fr_add; simpl. intros [[<- <-]|[Hab He]]%lookup_insert_Some.
    + split; [done|]. by rewrite elem_of_app.
    + destruct (H9 b e) as [Hd1 Hd2]; [simpl; by rewrite lookup_insert_ne|].
      split; [|done]. rewrite Hoth by congruence. done.
Qed.

(** The pools and the read buffer of [efh]. *)
Definition rstate g efh (own : list wblock) (hf mf : list addr) F : Prop :=
  match efh_RBuf efh ≫= rbh_Data, efh_RBuf efh with
  | Some a, Some r =>
      exists d, fr_data F !! a = None /\ heap_ok g own hf mf (fr_add a d F) /\
        rb_valid (contents (g_NFSClnt g) (efh_NFSFh efh)) d r
  | _, _ => heap_ok g own hf mf F
  end.

(** The fields of a handle that reading leaves alone. *)
Definition efh_same efh efh' : Prop :=
  efh_Id efh' = efh_Id efh /\ efh_Mode efh' = efh_Mode efh /\ efh_NFSFh efh' = efh_NFSFh efh /\
  efh_WBuf efh' = efh_WBuf efh /\ efh_Res2 efh' = efh_Res2 efh /\
  (is_Some (efh_RBuf efh) -> is_Some (efh_RBuf efh')).

(** ... and what it leaves alone elsewhere. *)
Definition read_frame g g' : Prop :=
  settings_same g g' /\ g_WBufHdrs g' = g_WBufHdrs g /\
  (idle (g_NFSClnt g) -> idle (g_NFSClnt g')) /\
  forall f o, contents (g_NFSClnt g') f o = contents (g_NFSClnt g) f o.

(** The outcome of a read of [Num] bytes at the position of [efh]. *)
Definition read_outcome g efh (Num Res1 : Z) (bytes : list byte) efh' : Prop :=
  (Res1 = -1 /\ bytes = [] /\ efh_FilePos efh' = efh_FilePos efh) \/
  (0 <= Res1 <= Num /\ Res1 = zlen bytes /\ efh_FilePos efh' = efh_FilePos efh + Res1 /\
   bytes_at (g_NFSClnt g) (efh_NFSFh efh) (efh_FilePos efh) bytes).

Lemma sub_list_lookup (d : list byte) off n i :
  0 <= off -> Z.of_nat i < n -> sub_list d off n !! i = d !! Z.to_nat (off + Z.of_nat i).
Proof.
  intros H0 Hi. unfold sub_list. rewrite lookup_take_lt by lia. rewrite lookup_drop. f_equal. lia.
Qed.

Lemma sub_list_zlen (d : list byte) off n :
  0 <= off -> 0 <= n -> off + n <= zlen d -> zlen (sub_list d off n) = n.
Proof. unfold sub_list, zlen. intros. rewrite length_take, length_drop. lia. Qed.

Lemma sub_list_Some (d : list byte) off n i b :
  0 <= off -> sub_list d off n !! i = Some b -> Z.of_nat i < n.
Proof.
  intros H0 Hb. apply lookup_lt_Some in Hb. unfold sub_list in Hb.
  rewrite length_take in Hb. lia.
Qed.

Lemma rb_MRead_ok g efh FilePos Num :
  0 < Num < 2 ^ 31 -> 0 <= FilePos -> FilePos + Num < 2 ^ 32 -> idle (g_NFSClnt g) ->
  exists r bytes s' l, rb_MRead g efh FilePos Num
    = Some (r, bytes, set_NFSClnt s' g, set_FileLen l efh) /\
    read_frame g (set_NFSClnt s' g) /\
    (io_ret r = -1 \/ (io_ret r = zlen bytes /\ zlen bytes <= Num /\
                       bytes_at (g_NFSClnt g) (efh_NFSFh efh) FilePos bytes)).
Proof.
  intros HN H0 H1 Hidle. unfold rb_MRead. rewrite !u32_id by lia.
  destruct (nfs_MRead_spec (g_NFSGlobal g) (efh_NFSFh efh) FilePos Num (g_NFSClnt g))
    as (r & buf & s' & -> & Hi & Hc & Hd); try done. gsimpl.
  eexists _, _, s', _. split; [done|]. split; [by split_and!|].
  destruct r as [e|n L]; [by left|right]. destruct (Hd n L eq_refl) as (-> & ? & ?). by split_and!.
Qed.

Lemma rb_served_ok g efh a d r Num pos :
  rbh_Data r = Some a -> mb_data (g_MBufs g) a = Some d ->
  rb_valid (contents (g_NFSClnt g) (efh_NFSFh efh)) d r -> 0 < Num ->
  exists bytes l, rb_served g r pos Num = Some (bytes, l) /\ zlen bytes = l /\ 0 <= l <= Num /\
    bytes_at (g_NFSClnt g) (efh_NFSFh efh) pos bytes.
Proof.
  intros Ha Hd [Hv1 Hv2 Hv3 Hv4] HN. unfold rb_served.
  destruct ((rbh_FileOffs r <=? pos) && (pos <? rbh_FileOffs r + rbh_DataLen r)) eqn:E.
  2:{ exists [], 0. split_and!; [done|done|lia|lia|]. by intros i b ?. }
  apply andb_true_iff in E as [E1 E2]. zbool. rewrite Ha. gsimpl. rewrite Hd. gsimpl.
  set (l := Z.min Num (rbh_FileOffs r + rbh_DataLen r - pos)).
  assert (Hz : zlen (sub_list d (pos - rbh_FileOffs r) l) = l) by (apply sub_list_zlen; unfold l; lia).
  rewrite Hz, (proj2 (Z.ltb_ge l l)) by lia.
  eexists _, _. split; [done|]. split_and!; [done|unfold l; lia|unfold l; lia|].
  intros i b Hb. pose proof (sub_list_Some d (pos - rbh_FileOffs r) l i b ltac:(lia) Hb).
  rewrite sub_list_lookup, Hv4 in Hb by (unfold l in *; lia). injection Hb as <-. f_equal. lia.
Qed.

Lemma rb_valid_frame g g' efh d r :
  read_frame g g' -> rb_valid (contents (g_NFSClnt g) (efh_NFSFh efh)) d r ->
  rb_valid (contents (g_NFSClnt g') (efh_NFSFh efh)) d r.
Proof.
  intros (_ & _ & _ & Hc) [H1 H2 H3 H4]. constructor; try done.
  intros i Hi. rewrite Hc. by apply H4.
Qed.

Lemma heap_ok_set_NFSClnt g own hf mf F (s' : S) :
  heap_ok g own hf mf F -> heap_ok (set_NFSClnt s' g) own hf mf F.
Proof. intros []. by constructor. Qed.

Lemma bytes_at_app (s : S) fh off b1 b2 :
  bytes_at s fh off b1 -> bytes_at s fh (off + zlen b1) b2 -> bytes_at s fh off (b1 ++ b2).
Proof.
  intros H1 H2 i b [Hb|[Hi Hb]]%lookup_app_Some; [by apply H1|].
  rewrite (H2 _ _ Hb). f_equal. unfold zlen. lia.
Qed.

(** Reading the buffer anew, for [NumLeft] bytes after [front]. *)
Lemma rb_refill_ok g efh own hf mf F r a d front Num Res2 :
  efh_RBuf efh = Some r -> rbh_Data r = Some a -> fr_data F !! a = None ->
  heap_ok g own hf mf (fr_add a d F) -> 0 <= efh_FilePos efh -> 0 < Num ->
  zlen front < Num -> efh_FilePos efh + Num + MBUFSIZE < 2 ^ 31 -> idle (g_NFSClnt g) ->
  bytes_at (g_NFSClnt g) (efh_NFSFh efh) (efh_FilePos efh) front ->
  exists Res1 bytes R g' efh' mf',
    rb_refill g efh front (efh_FilePos efh + zlen front) Num (Num - zlen front) Res2
    = Some (Res1, bytes, R, g', efh') /\
    rstate g' efh' own hf mf' F /\ efh_same efh efh' /\ read_frame g g' /\
    read_outcome g efh Num Res1 bytes efh'.
Proof.
  intros Hr Ha Hfa Hh H0 HN Hfront H1 Hidle Hat. unfold rb_refill.
  pose proof (zlen_nonneg front).
  destruct (rb_MRead_ok g efh (efh_FilePos efh + zlen front) MBUFSIZE)
    as (io & bs & s' & L & -> & Hfr & Hio); [done|lia|unfold MBUFSIZE in *; lia|done|]. gsimpl.
  pose proof (heap_ok_set_NFSClnt g own hf mf _ s' Hh) as Hh1.
  destruct (heap_ok_release_mb (set_NFSClnt s' g) own hf mf F a d Hfa Hh1) as (mb & Hrel & Hh2).
  gsimpl in Hrel. unfold rb_ReleaseRBufData. gsimpl. rewrite !Hr. gsimpl. rewrite !Ha, Hrel. gsimpl.
  destruct Hio as [->|(-> & Hle & Hbs)].
  { simpl (_ =? _). simpl (_ >? _). cbv iota.
    eexists (-1), [], _, _, _, (a :: mf). split; [done|]. split; [exact Hh2|].
    split; [by split_and!|]. split; [exact Hfr|]. by left. }
  pose proof (zlen_nonneg bs). destruct (zlen bs =? 0) eqn:E0; zbool.
  { eexists _, front, _, _, _, (a :: mf). split; [done|]. split; [exact Hh2|].
    split; [by split_and!|]. split; [exact Hfr|]. right. gsimpl. split_and!; [lia|lia|lia|lia|done]. }
  destruct (zlen bs >? 0) eqn:E1; zbool; [|lia].
  destruct (heap_ok_store_mb (set_NFSClnt s' g) own hf mf F a d bs Hfa Hh1 Hle)
    as (mb' & d' & Hst & Hcp & Hd' & Hh3). gsimpl in Hst. rewrite Hst. gsimpl. rewrite Hd'. gsimpl.
  set (l := Z.min (zlen bs) (Num - zlen front)).
  destruct (ho_fm _ _ _ _ _ Hh1 a d) as [Hda _]; [apply lookup_insert_eq|].
  assert (Hdz : zlen d = MBUFSIZE).
  { unfold mb_data in Hda. destruct (mb_mem _ !! a) as [n|] eqn:En; [|done]. injection Hda as <-.
    by eapply mb_ok_size; [apply Hh1|]. }
  destruct (copy_at_Some d 0 bs) as (d2 & Hd2 & Hlen & _ & Hin); [done|lia|].
  rewrite Hcp in Hd2. injection Hd2 as <-.
  assert (Hd'i : forall i, 0 <= i < zlen bs ->
          d' !! Z.to_nat i = Some (contents (g_NFSClnt g) (efh_NFSFh efh) (efh_FilePos efh + zlen front + i))).
  { intros i Hi. specialize (Hin (Z.to_nat i)). simpl in Hin.
    rewrite decide_True in Hin by (unfold zlen in *; lia). rewrite Hin.
    destruct (lookup_lt_is_Some_2 bs (Z.to_nat i)) as [y Hy]; [unfold zlen in *; lia|].
    rewrite Hy. rewrite (Hbs _ _ Hy). do 2 f_equal. lia. }
  assert (Hd'z : zlen d' = MBUFSIZE) by (unfold zlen in *; lia).
  assert (Hsz : zlen (sub_list d' 0 l) = l) by (apply sub_list_zlen; unfold l; lia).
  eexists _, (front ++ sub_list d' 0 l), _, _, _, mf. split; [done|]. split.
  { unfold rstate. gsimpl. exists d'. split; [done|]. split; [exact Hh3|].
    constructor; simpl; [lia|lia|done|]. intros i Hi. rewrite Hd'i by done.
    destruct Hfr as (_ & _ & _ & Hc). gsimpl in Hc. by rewrite Hc. }
  split; [by split_and!|]. split; [exact Hfr|]. right. gsimpl.
  rewrite zlen_app, Hsz. unfold l in *. split_and!; [lia|lia|lia|lia|].
  apply bytes_at_app; [done|]. intros i b Hb.
  pose proof (sub_list_Some d' 0 l i b ltac:(lia) Hb).
  rewrite sub_list_lookup, Hd'i in Hb by (unfold l in *; lia). injection Hb as <-. f_equal.
Qed.

Lemma rb_direct_ok g efh own hf mf F Num Res2 :
  rstate g efh own hf mf F -> 0 <= efh_FilePos efh -> 0 < Num ->
  efh_FilePos efh + Num + MBUFSIZE < 2 ^ 31 -> idle (g_NFSClnt g) ->
  exists Res1 bytes R g' efh' mf',
    rb_direct g efh Num Res2 = Some (Res1, bytes, R, g', efh') /\
    rstate g' efh' own hf mf' F /\ efh_same efh efh' /\ read_frame g g' /\
    read_outcome g efh Num Res1 bytes efh'.
Proof.
  intros Hst H0 HN H1 Hidle. unfold rb_direct.
  assert (Hrel : exists g1 efh1 mf1,
          (if HasBufferedRData efh then rb_ReleaseRBufData g efh else Some (g, efh)) = Some (g1, efh1) /\
          heap_ok g1 own hf mf1 F /\ (efh_RBuf efh1 ≫= rbh_Data = None) /\ efh_same efh efh1 /\
          efh_FilePos efh1 = efh_FilePos efh /\ exists mb, g1 = set_MBufs mb g).
  { unfold rstate, HasBufferedRData in *. destruct (efh_RBuf efh) as [r|] eqn:Hr; gsimpl in Hst.
    - destruct (rbh_Data r) as [a|] eqn:Ea.
      + rewrite bool_decide_true by done. destruct Hst as (d & Hfa & Hh & _).
        destruct (heap_ok_release_mb _ _ _ _ _ _ _ Hfa Hh) as (mb & Hrel & Hh').
        unfold rb_ReleaseRBufData. rewrite Hr. gsimpl. rewrite Ea, Hrel. gsimpl.
        eexists _, _, (a :: mf). split; [done|]. split_and!; try done. by eexists.
      + rewrite bool_decide_false by by intros [].
        exists g, efh, mf. split_and!; try done; [by rewrite Hr|].
        exists (g_MBufs g). by destruct g.
    - exists g, efh, mf. split_and!; try done; [by rewrite Hr|].
      exists (g_MBufs g). by destruct g. }
  destruct Hrel as (g1 & efh1 & mf1 & -> & Hh & Hrb & Hsame & Hpos & mb & ->). gsimpl.
  destruct Hsame as (Hs1 & Hs2 & Hs3 & Hs4 & Hs5 & Hs6).
  destruct (rb_MRead_ok (set_MBufs mb g) efh1 (efh_FilePos efh1) Num)
    as (io & bs & s' & L & -> & Hfr & Hio); [unfold MBUFSIZE in *; lia..|done|]. gsimpl.
  pose proof (heap_ok_set_NFSClnt _ _ _ _ _ s' Hh) as Hh1.
  assert (Hst' : forall p, rstate (set_NFSClnt s' (set_MBufs mb g)) (set_FilePos p (set_FileLen L efh1))
            own hf mf1 F).
  { intros p. unfold rstate. gsimpl. rewrite Hrb. by destruct (efh_RBuf efh1). }
  destruct Hio as [->|(-> & Hle & Hbs)].
  - simpl (_ >? _). cbv iota. eexists (-1), [], _, _, _, mf1. split; [done|]. split.
    { specialize (Hst' (efh_FilePos efh1)). by destruct efh1. }
    split; [by split_and!|]. split; [exact Hfr|]. left. by split_and!.
  - pose proof (zlen_nonneg bs). destruct (zlen bs >? 0) eqn:E; zbool.
    + eexists _, bs, _, _, _, mf1. split; [done|]. split; [apply Hst'|].
      split; [by split_and!|]. split; [exact Hfr|]. right. gsimpl. rewrite Hpos in *.
      rewrite Hs3 in Hbs. split_and!; [lia..|done].
    + eexists _, [], _, _, _, mf1. split; [done|]. split.
      { specialize (Hst' (efh_FilePos efh1)). by destruct efh1. }
      split; [by split_and!|]. split; [exact Hfr|]. right. gsimpl.
      change (zlen (@nil byte)) with 0. split_and!; [lia..|]. by intros i b ?.
Qed.

Lemma rb_ReadBuf_ok g efh own hf mf F Num Res2 :
  rstate g efh own hf mf F -> is_Some (efh_RBuf efh) -> 0 <= efh_FilePos efh -> 0 < Num ->
  efh_FilePos efh + Num + MBUFSIZE < 2 ^ 31 -> idle (g_NFSClnt g) ->
  exists Res1 bytes R g' efh' mf',
    rb_ReadBuf g efh Num Res2 = Some (Res1, bytes, R, g', efh') /\
    rstate g' efh' own hf mf' F /\ efh_same efh efh' /\ read_frame g g' /\
    read_outcome g efh Num Res1 bytes efh'.
Proof.
  intros Hst [r Hr] H0 HN H1 Hidle. unfold rb_ReadBuf, rstate in *. rewrite Hr in *. gsimpl.
  gsimpl in Hst.
  match goal with |- context [mbind _ (if ?c then _ else _)] => destruct c eqn:Ec end; gsimpl.
  - destruct (rbh_Data r) as [a|] eqn:Ea.
    + rewrite bool_decide_true by done. simpl orb. cbv iota.
      destruct Hst as (d & Hfa & Hh & Hv).
      destruct (ho_fm _ _ _ _ _ Hh a d) as [Hda _]; [apply lookup_insert_eq|].
      destruct (rb_served_ok g efh a d r Num (efh_FilePos efh) Ea Hda Hv HN)
        as (bs & l & -> & Hz & Hl & Hat). gsimpl. subst l.
      destruct (Num - zlen bs =? 0) eqn:E; zbool.
      * eexists Num, bs, _, g, _, mf. split; [done|]. split.
        { gsimpl. rewrite Hr. gsimpl. rewrite Ea. by exists d. }
        split; [by split_and!|]. split; [by split_and!|]. right. gsimpl. split_and!; [lia..|done].
      * eapply rb_refill_ok; try done; lia.
    + rewrite bool_decide_false by by intros []. simpl orb.
      destruct (g_NumFreeMBufs (g_MBufs g) >? 0) eqn:E; zbool.
      * rewrite (mb_ok_num _ _ (ho_mb _ _ _ _ _ Hst)) in E.
        destruct mf as [|m mf]; [done|].
        pose proof (heap_ok_fr_fresh _ _ _ _ _ _ Hst) as Hfm.
        destruct (heap_ok_obtain_mb _ _ _ _ _ _ Hst) as (mb & d & Hob & Hdz & Hh).
        unfold rb_ObtainRBufData. rewrite Hr. gsimpl. rewrite Hob. gsimpl.
        rewrite !Z.add_0_r, Z.sub_0_r. rewrite (proj2 (Z.eqb_neq _ _)) by lia.
        pose proof (rb_refill_ok (set_MBufs mb g)
                      (set_RBuf (Some (RBufHdr (rbh_FileOffs r) (rbh_DataLen r) (Some m))) efh) own hf mf F
                      _ m d [] Num Res2 eq_refl eq_refl Hfm Hh) as Href.
        change (zlen (@nil byte)) with 0 in Href. gsimpl in Href.
        rewrite Z.add_0_r, Z.sub_0_r in Href.
        destruct Href as (Res1 & bs & R & g' & efh' & mf' & Hrun & Hs & Hsame & Hfr & Hout);
          try done; try lia.
        eexists Res1, bs, R, g', efh', mf'. split; [exact Hrun|]. split; [exact Hs|].
        split; [|by split]. destruct Hsame as (?&?&?&?&?&Hs'). split_and!; try done.
        intros _. by apply Hs'.
      * cbv iota. apply (rb_direct_ok g efh own hf mf F); try done. unfold rstate. rewrite Hr. gsimpl. by rewrite Ea.
  - apply (rb_direct_ok g efh own hf mf F); try done. unfold rstate. by rewrite Hr.
Qed.
End RBufSpec.
