(* ===== verification/FileHandle.v ===== *)
(** * Open files (fh.c, read.c, write.c, seek.c)

    The handler keeps its open files in a list and serves the packets that
    read, write and seek through their ids.  A packet is its arguments; the
    handler's state is the part of Global_T that these functions use. *)
From S2P Require Import Prelude MBuf WBufInfo NfsProt NfsSupp Nfs Global WBuf RBuf.

(** AmigaDOS constants (dos/dos.h). *)
Definition MODE_READWRITE : Z := 1004.
Definition MODE_OLDFILE : Z := 1005.
Definition MODE_NEWFILE : Z := 1006.
Definition OFFSET_BEGINNING : Z := -1.
Definition OFFSET_CURRENT : Z := 0.
Definition OFFSET_END : Z := 1.

Section FileHandle.
Context {S : Type} `{NfsRpc S}.

(** [h_FH] is the chain of [g_FH] in order, [h_Id] the static counter of
    fh_Create; a handle is identified by its id. *)
Record Handler := MkHandler {
  h_g : Global_T S;
  h_FH : list EFH;
  h_Id : Z;
  h_Res1 : Z;
  h_Res2 : Z
}.

Definition SetRes (h : Handler) (res1 res2 : Z) : Handler :=
  MkHandler (h_g h) (h_FH h) (h_Id h) res1 res2.
Definition set_FH (l : list EFH) (h : Handler) : Handler :=
  MkHandler (h_g h) l (h_Id h) (h_Res1 h) (h_Res2 h).
Definition set_g (g : Global_T S) (h : Handler) : Handler :=
  MkHandler g (h_FH h) (h_Id h) (h_Res1 h) (h_Res2 h).

(** NULL is [None]; the new handle is not yet in the list. *)
Definition fh_Create (mem_ok : bool) (h : Handler) (NFSFh : nfs_fh) (Mode : Z)
  : option EFH * Handler :=
  if mem_ok
  then let id := s32 (h_Id h + 1) in
  (Some (Efh id 0 0 Mode NFSFh None None 0),
   MkHandler (h_g h) (h_FH h) id (h_Res1 h) (h_Res2 h))
  else (None, h).

Definition fh_Insert (h : Handler) (efh : EFH) : Handler := set_FH (efh :: h_FH h) h.

Fixpoint find_fh (l : list EFH) (Id : Z) : option EFH :=
  match l with
  | [] => None
  | efh :: l => if efh_Id efh =? Id then Some efh else find_fh l Id
  end.

Definition fh_Lookup (h : Handler) (Id : Z) : option EFH := find_fh (h_FH h) Id.

Fixpoint remove_fh (l : list EFH) (Id : Z) : option EFH * list EFH :=
  match l with
  | [] => (None, [])
  | efh :: l => if efh_Id efh =? Id then (Some efh, l)
      else let '(r, l) := remove_fh l Id in (r, efh :: l)
  end.

Definition fh_Remove (h : Handler) (efh : EFH) : option EFH * Handler :=
  let '(r, l) := remove_fh (h_FH h) (efh_Id efh) in (r, set_FH l h).

(** [foreachproc] gives the handler's state and 0 to stop; it may remove the
    handle it is called with, so the successors are those at the call. *)
Fixpoint fh_ForEach {A} (l : list EFH) (foreachproc : EFH -> A -> Z * A) (arg : A) : A :=
  match l with
  | [] => arg
  | efh :: l =>
      let '(r, arg) := foreachproc efh arg in
      if r =? 0 then arg else fh_ForEach l foreachproc arg
  end.

(** Stores to the fields of a handle of the list. *)
Fixpoint update_fh (l : list EFH) (efh : EFH) : list EFH :=
  match l with
  | [] => []
  | e :: l => if efh_Id e =? efh_Id efh then efh :: l else e :: update_fh l efh
  end.

(** ** read.c *)

(** act_READ once the handle is found: (Res1, the bytes at Buf that it counts, Res2, g, efh). *)
Definition read_fh (g : Global_T S) (efh : EFH) (Num Res2 : Z)
  : option (Z * list byte * Z * Global_T S * EFH) :=
  let Mode := efh_Mode efh in
  if negb (efh_Res2 efh =? 0)
  then Some (DOSFALSE, [], efh_Res2 efh, g, set_Res2 0 efh)
  else if negb ((Mode =? MODE_OLDFILE) || (Mode =? MODE_READWRITE))
  then Some (DOSFALSE, [], ERROR_FILE_NOT_OBJECT, g, efh)
  else
  ('(Num, Res2, g, efh) ←
     (if HasBufferedWData efh
      then ('(ok, Res2, g, efh) ← wc_FlushCache g efh Res2;
            Some (if ok =? DOSFALSE then -1 else Num, Res2, g, efh))
      else Some (Num, Res2, g, efh));
   ('(Num, bytes, Res2, g, efh) ←
      (if Num >? 0
       then if negb (efh_FileLen efh =? 0) && (efh_FileLen efh =? efh_FilePos efh)
       then Some (0, [], Res2, g, efh)
       else rb_ReadBuf g efh Num Res2
       else Some (Num, [], Res2, g, efh));
    Some (if Num >=? 0 then Num else -1, bytes, if Num >=? 0 then 0 else Res2, g, efh))).

(** (Res1, the bytes at Buf that it counts, state) *)
Definition act_READ (h : Handler) (Arg1 Num : Z) : option (Z * list byte * Handler) :=
  match fh_Lookup h Arg1 with
  | None => Some (DOSFALSE, [], SetRes h DOSFALSE ERROR_FILE_NOT_OBJECT)
  | Some efh =>
      ('(Res1, bytes, Res2, g, efh) ← read_fh (h_g h) efh Num (h_Res2 h);
       Some (Res1, bytes, SetRes (set_FH (update_fh (h_FH h) efh) (set_g g h)) Res1 Res2))
  end.

(** ** write.c *)

Definition write_fh (g : Global_T S) (efh : EFH) (Buf : list byte) (Num Res2 : Z)
  : option (Z * Z * Global_T S * EFH) :=
  let Mode := efh_Mode efh in
  if negb (efh_Res2 efh =? 0)
  then Some (DOSFALSE, efh_Res2 efh, g, set_Res2 0 efh)
  else if negb ((Mode =? MODE_OLDFILE) || (Mode =? MODE_READWRITE) || (Mode =? MODE_NEWFILE))
  then Some (DOSFALSE, ERROR_FILE_NOT_OBJECT, g, efh)
  else
  ('(g, efh) ← (if HasBufferedRData efh then rb_ReleaseRBufData g efh else Some (g, efh));
   if Num >? 0
   then
   ('(Num, Res2, g, efh) ← wc_WriteCache g efh Buf Num Res2;
    Some (if Num >=? 0 then (Num, 0, g, set_FilePos (efh_FilePos efh + Num) efh)
          else (-1, Res2, g, efh)))
   else if HasBufferedWData efh
   then ('(ok, Res2, g, efh) ← wc_FlushCache g efh Res2;
         Some (if ok =? DOSFALSE then (-1, Res2, g, efh) else (Num, 0, g, efh)))
   else Some (Num, 0, g, efh)).

Definition act_WRITE (h : Handler) (Arg1 : Z) (Buf : list byte) (Arg3 : Z) : option (Z * Handler) :=
  let Num := if Arg3 <? 0 then 0 else Arg3 in
  match fh_Lookup h Arg1 with
  | None => Some (DOSFALSE, SetRes h DOSFALSE ERROR_FILE_NOT_OBJECT)
  | Some efh =>
      ('(Res1, Res2, g, efh) ← write_fh (h_g h) efh Buf Num (h_Res2 h);
       Some (Res1, SetRes (set_FH (update_fh (h_FH h) efh) (set_g g h)) Res1 Res2))
  end.

(** ** seek.c *)

Definition act_SEEK (h : Handler) (Arg1 Arg2 Mode : Z) : Z * Handler :=
  match fh_Lookup h Arg1 with
  | None => (DOSFALSE, SetRes h DOSFALSE ERROR_FILE_NOT_OBJECT)
  | Some efh =>
      let OldPos := efh_FilePos efh in
      let NewPos :=
      if Mode =? OFFSET_CURRENT then s32 (OldPos + Arg2)
      else if Mode =? OFFSET_BEGINNING then Arg2
      else if Mode =? OFFSET_END then s32 (efh_FileLen efh + Arg2)
      else -1 in
      if (0 <=? NewPos) && (NewPos <=? efh_FileLen efh)
      then (OldPos, SetRes (set_FH (update_fh (h_FH h) (set_FilePos NewPos efh)) h) OldPos 0)
      else (DOSFALSE, SetRes h DOSFALSE ERROR_SEEK_ERROR)
  end.
End FileHandle.
Arguments Handler : clear implicits.
