(* ===== verification/FileSpec.v ===== *)
(** * The invariant of an open file and its packets

    [file_inv] is the invariant of one handle; [opened] says that a file of the
    handler's list satisfies it, and the lemmas about [opened] say what each packet
    does to the file. *)
From S2P Require Import Prelude MBuf WBufInfo NfsProt NfsSupp Nfs NfsServer Global WBuf WBufRep WBufFlush.
From S2P Require Import WBufGet WBufSeek WBufSpec WBufThm RBuf RBufSpec FileHandle.

(** ** An open file behaves as a file

    The packets that read, write and seek, with the write cache and the read
    buffer below them, against the abstract file: a function from offsets to
    bytes and a position.  [file_inv] is the invariant of one handle over the
    pools and the server; [act_READ], [act_WRITE] and [act_SEEK] preserve it
    and do on the abstract file what a file does. *)

Section FileSpec.
Context {S : Type} `{HS : NfsFileServer S, !NfsFileReader S}.
Implicit Types (g : Global_T S) (F : frame) (efh : EFH).

(** The bytes of the file as the user of [efh] sees them are [v]. *)
Record file_inv g efh (bs : list wblock) (hf mf : list addr) F (v : Z -> byte) : Prop := {
  fi_state : rstate g efh bs hf mf F;
  fi_cluster : match efh_WBuf efh with
  | Some w => cluster_ok (g_WBufHdrs g) w bs /\ blocks_from 0 bs /\ Forall room bs
  | None => bs = []
  end;
  fi_excl : HasBufferedRData efh = true -> bs = [];
  fi_rbuf : is_Some (efh_RBuf efh);
  fi_env : env_ok g;
  fi_idle : idle (g_NFSClnt g);
  fi_view : same_view (seen g (efh_NFSFh efh) bs) v
}.

(** Whether there is anything to flush. *)
Lemma file_HasBuffered g efh bs hf mf F v :
  file_inv g efh bs hf mf F v -> HasBufferedWData efh = bool_decide (bs <> []).
Proof.
  intros [_ Hc _ _ _ _ _]. destruct (efh_WBuf efh) as [w|] eqn:Hw.
  - by eapply HasBuffered_ok; [|apply Hc].
  - subst. unfold HasBufferedWData. by rewrite Hw.
Qed.

Lemma rstate_nodata g efh own hf mf F :
  HasBufferedRData efh = false -> rstate g efh own hf mf F <-> heap_ok g own hf mf F.
Proof.
  unfold HasBufferedRData, rstate. destruct (efh_RBuf efh) as [r|]; [|done]. gsimpl.
  by destruct (rbh_Data r).
Qed.

Lemma dirty_no_rdata g efh bs hf mf F v :
  file_inv g efh bs hf mf F v -> bs <> [] -> HasBufferedRData efh = false.
Proof.
  intros [_ _ He _ _ _ _] Hb. destruct (HasBufferedRData efh); [|done]. by destruct (Hb (He eq_refl)).
Qed.

(** What the operations keep outside the file. *)
Definition file_frame g fh g' : Prop := settings_same g g' /\ others_same g g' fh.

(** The flush before a read. *)
Lemma file_flush_ok g efh bs hf mf F v Res2 :
  file_inv g efh bs hf mf F v ->
  exists ok R g' efh' hf' mf',
    (if HasBufferedWData efh then wc_FlushCache g efh Res2 else Some (DOSTRUE, Res2, g, efh))
    = Some (ok, R, g', efh') /\
    efh_same efh (set_WBuf (efh_WBuf efh) efh') /\ efh_FilePos efh' = efh_FilePos efh /\
    efh_FileLen efh' = efh_FileLen efh /\ file_frame g (efh_NFSFh efh) g' /\
    match efh_WBuf efh' with
    | Some w => cluster_ok (g_WBufHdrs g') w []
    | None => True
    end /\ rstate g' efh' [] hf' mf' F /\
    (ok = DOSFALSE \/ (ok = DOSTRUE /\ file_inv g' efh' [] hf' mf' F v)).
Proof.
  intros Hinv. rewrite (file_HasBuffered _ _ _ _ _ _ _ Hinv). case_bool_decide as Hb.
  - pose proof (dirty_no_rdata _ _ _ _ _ _ _ Hinv Hb) as Hnr.
    destruct Hinv as [Hst Hc Hex Hrb He Hi Hv].
    destruct (efh_WBuf efh) as [w|] eqn:Hw; [|done]. destruct Hc as (Hc & Hbl & Hrm).
    apply rstate_nodata in Hst; [|done].
    destruct (iwc_FlushCache_ok g efh w bs hf mf F false Res2 0 Hw Hst Hc Hbl He Hi)
      as (ok & R & g' & w' & Hrun & (_ & Hset & Hc' & hf' & mf' & Hh' & _) & Ho & Hcl & Hr).
    exists ok, R, g', (set_WBuf (Some w') efh), hf', mf'. split; [exact Hrun|].
    split; [by split_and!|]. split; [done|]. split; [done|]. split; [by split|]. split; [done|].
    assert (Hst' : rstate g' (set_WBuf (Some w') efh) [] hf' mf' F) by (by apply rstate_nodata).
    split; [done|]. destruct Hr as [->|(-> & _ & Hi' & Hv')]; [by left|right]. split; [done|].
    constructor; gsimpl; try done.
    + destruct Hset as [E _]. unfold env_ok. by rewrite E.
    + intros o. unfold seen; simpl. rewrite Hv'. apply Hv.
  - assert (bs = []) as -> by (destruct bs; [done|by destruct Hb]).
    exists DOSTRUE, Res2, g, efh, hf, mf. split; [done|]. split; [by split_and!|].
    split; [done|]. split; [done|]. split; [by split|].
    pose proof Hinv as [Hst Hc _ _ _ _ _].
    split; [by destruct (efh_WBuf efh); [apply Hc|]|]. split; [done|]. by right.
Qed.

Lemma efh_same_refl efh : efh_same efh efh.
Proof. by split_and!. Qed.

(** What stays the same in the handle. *)
Definition handle_same efh efh' : Prop :=
  efh_Id efh' = efh_Id efh /\ efh_Mode efh' = efh_Mode efh /\ efh_NFSFh efh' = efh_NFSFh efh /\
  efh_Res2 efh' = efh_Res2 efh.

Lemma read_frame_file g g' fh : read_frame g g' -> file_frame g fh g'.
Proof. intros (? & _ & _ & Hc). split; [done|]. intros f o _. apply Hc. Qed.

Lemma file_frame_trans g g1 g2 fh : file_frame g fh g1 -> file_frame g1 fh g2 -> file_frame g fh g2.
Proof.
  intros [[? ?] Ho1] [[? ?] Ho2]. split; [split; congruence|].
  intros f o Hf. rewrite Ho2 by done. by apply Ho1.
Qed.

(** A reading step keeps the invariant of a clean file. *)
Lemma file_inv_read g efh hf mf mf' F v g' efh' :
  file_inv g efh [] hf mf F v -> rstate g' efh' [] hf mf' F -> efh_same efh efh' ->
  read_frame g g' -> file_inv g' efh' [] hf mf' F v.
Proof.
  intros [_ Hc _ Hrb He Hi Hv] Hst (_ & _ & Hfh & Hw & _ & Hrb') ([E1 E2] & Eh & Ei & Ec).
  constructor; try done.
  - rewrite Hw. destruct (efh_WBuf efh); [|done]. by rewrite Eh.
  - by apply Hrb'.
  - unfold env_ok. by rewrite E1.
  - by apply Ei.
  - intros o. rewrite Hfh. unfold seen; simpl. rewrite Ec. apply Hv.
Qed.

(** The part of the visible file that a read gives. *)
Definition file_bytes (v : Z -> byte) (off : Z) (bytes : list byte) : Prop :=
  forall i b, bytes !! i = Some b -> b = v (off + Z.of_nat i).

Definition can_read efh : Prop :=
  efh_Res2 efh = 0 /\ (efh_Mode efh = MODE_OLDFILE \/ efh_Mode efh = MODE_READWRITE).

Lemma read_fh_ok g efh bs hf mf F v Num Res2 :
  file_inv g efh bs hf mf F v -> can_read efh -> 0 <= efh_FilePos efh -> 0 < Num ->
  efh_FilePos efh + Num + MBUFSIZE < 2 ^ 31 ->
  exists Res1 bytes R g' efh', read_fh g efh Num Res2 = Some (Res1, bytes, R, g', efh') /\
    handle_same efh efh' /\ file_frame g (efh_NFSFh efh) g' /\
    ((Res1 = -1 /\ efh_FilePos efh' = efh_FilePos efh) \/
     (0 <= Res1 <= Num /\ R = 0 /\ Res1 = zlen bytes /\
      efh_FilePos efh' = efh_FilePos efh + Res1 /\ file_bytes v (efh_FilePos efh) bytes /\
      exists hf' mf', file_inv g' efh' [] hf' mf' F v)).
Proof.
  intros Hinv [Hr2 Hmode] H0 HN H1. unfold read_fh.
  rewrite Hr2. simpl (negb (0 =? 0)). cbv iota.
  assert (Hm : negb ((efh_Mode efh =? MODE_OLDFILE) || (efh_Mode efh =? MODE_READWRITE)) = false).
  { destruct Hmode as [->| ->]; done. }
  rewrite Hm. clear Hm.
  destruct (file_flush_ok g efh bs hf mf F v Res2 Hinv)
    as (ok & R & g1 & efh1 & hf1 & mf1 & Hrun & Hsame & Hpos & Hlen & Hff & _ & _ & Hcase).
  destruct Hsame as (Hs1 & Hs2 & Hs3 & _ & Hs5 & _). gsimpl in Hs1. gsimpl in Hs2. gsimpl in Hs3.
  gsimpl in Hs5.
  assert (Hfl : (if HasBufferedWData efh
                 then ('(ok, Res2, g, efh) ← wc_FlushCache g efh Res2;
                       Some (if ok =? DOSFALSE then -1 else Num, Res2, g, efh))
                 else Some (Num, Res2, g, efh)) = Some (if ok =? DOSFALSE then -1 else Num, R, g1, efh1)).
  { destruct (HasBufferedWData efh); [by rewrite Hrun|]. by injection Hrun as <- <- <- <-. }
  rewrite Hfl. gsimpl. clear Hfl Hrun.
  destruct Hcase as [->|(-> & Hinv1)]; simpl (_ =? DOSFALSE); cbv iota.
  { simpl (_ >? _). cbv iota. gsimpl. simpl (_ >=? _). cbv iota.
    eexists (-1), [], R, g1, efh1. split; [done|]. split; [by split_and!|]. split; [done|]. by left. }
  destruct (Num >? 0) eqn:E; zbool; [|lia].
  destruct (negb (efh_FileLen efh1 =? 0) && (efh_FileLen efh1 =? efh_FilePos efh1)) eqn:Eeof.
  { gsimpl. simpl (_ >=? _). cbv iota. eexists 0, [], 0, g1, efh1. split; [done|].
    split; [by split_and!|]. split; [done|]. right.
    split_and!; [lia|lia|done|done|lia|by intros i b ?|by exists hf1, mf1]. }
  destruct (rb_ReadBuf_ok g1 efh1 [] hf1 mf1 F Num R)
    as (Res1 & bytes & R2 & g2 & efh2 & mf2 & -> & Hst & Hsm & Hfr & Hout);
    [apply Hinv1|apply Hinv1|lia|lia|lia|apply Hinv1|]. gsimpl.
  pose proof Hsm as (Ht1 & Ht2 & Ht3 & _ & Ht5 & _).
  assert (Hhs : handle_same efh efh2) by (unfold handle_same; split_and!; congruence).
  assert (Hff2 : file_frame g (efh_NFSFh efh) g2).
  { eapply file_frame_trans; [exact Hff|]. by apply read_frame_file. }
  destruct Hout as [(-> & -> & Hp)|(Hn & Hz & Hp & Hat)].
  - simpl (_ >=? _). cbv iota. eexists (-1), [], _, g2, efh2. split; [done|]. split; [done|].
    split; [done|]. left. split; [done|congruence].
  - destruct (Res1 >=? 0) eqn:E1; zbool; [|lia].
    eexists Res1, bytes, 0, g2, efh2. split; [done|]. split; [done|]. split; [done|]. right.
    split_and!; [lia|lia|done|done|congruence| |].
    + intros i b Hb. rewrite (Hat i b Hb). rewrite Hpos.
      destruct Hinv1 as [_ _ _ _ _ _ Hv]. apply Hv.
    + exists hf1, mf2. by eapply file_inv_read.
Qed.

(** ** Writing *)

Definition can_write efh : Prop :=
  efh_Res2 efh = 0 /\
  (efh_Mode efh = MODE_OLDFILE \/ efh_Mode efh = MODE_READWRITE \/ efh_Mode efh = MODE_NEWFILE).

(** Giving the read buffer back. *)
Lemma file_release_rdata g efh bs hf mf F v :
  file_inv g efh bs hf mf F v ->
  exists g1 efh1 mf1,
    (if HasBufferedRData efh then rb_ReleaseRBufData g efh else Some (g, efh)) = Some (g1, efh1) /\
    heap_ok g1 bs hf mf1 F /\ HasBufferedRData efh1 = false /\ is_Some (efh_RBuf efh1) /\
    efh1 = set_RBuf (efh_RBuf efh1) efh /\ g_WBufHdrs g1 = g_WBufHdrs g /\ same_env g g1.
Proof.
  intros [Hst _ _ [r Hr] _ _ _]. destruct (HasBufferedRData efh) eqn:E.
  - unfold HasBufferedRData in E. unfold rstate in Hst. rewrite Hr in *.
    apply bool_decide_eq_true in E as [a Ha]. gsimpl in Hst. rewrite Ha in Hst.
    destruct Hst as (d & Hfa & Hh & _).
    destruct (heap_ok_release_mb _ _ _ _ _ _ _ Hfa Hh) as (mb & Hrel & Hh').
    unfold rb_ReleaseRBufData. rewrite Hr. gsimpl. rewrite Ha, Hrel. gsimpl.
    eexists _, _, (a :: mf). split; [done|]. by split_and!.
  - apply rstate_nodata in Hst; [|done]. exists g, efh, mf. split; [done|].
    split_and!; try done; try (by rewrite Hr); by destruct efh.
Qed.

Lemma file_release_inv g efh bs hf mf F v :
  file_inv g efh bs hf mf F v ->
  exists g1 efh1 mf1,
    (if HasBufferedRData efh then rb_ReleaseRBufData g efh else Some (g, efh)) = Some (g1, efh1) /\
    file_inv g1 efh1 bs hf mf1 F v /\ handle_same efh efh1 /\
    efh_FilePos efh1 = efh_FilePos efh /\ file_frame g (efh_NFSFh efh) g1.
Proof.
  intros Hinv. destruct (file_release_rdata _ _ _ _ _ _ _ Hinv)
    as (g1 & efh1 & mf1 & -> & Hh & Hnr & Hrb & He1 & Hhd & En & El & Es).
  destruct Hinv as [_ Hc _ _ He Hi Hv].
  exists g1, efh1, mf1. split; [done|]. rewrite He1. gsimpl. split.
  - constructor; gsimpl; try done.
    + by apply rstate_nodata.
    + by rewrite Hhd.
    + intros HE. unfold HasBufferedRData in Hnr, HE. gsimpl in HE. by rewrite Hnr in HE.
    + unfold env_ok. by rewrite En.
    + by rewrite Es.
    + intros o. unfold seen in *. rewrite Es. apply Hv.
  - split; [by split_and!|]. split; [done|]. split; [by split|]. intros f o _. by rewrite Es.
Qed.

(** A write without a write cache. *)
Lemma nocache_write_ok g efh Buf Num Res2 :
  efh_WBuf efh = None -> env_ok g -> idle (g_NFSClnt g) -> Num = zlen Buf -> 0 < Num ->
  0 <= efh_FilePos efh -> efh_FilePos efh + Num < 2 ^ 31 ->
  exists Res1 R s' l, wc_WriteCache g efh Buf Num Res2
    = Some (Res1, R, set_NFSClnt s' g, set_FileLen l efh) /\
    others_same g (set_NFSClnt s' g) (efh_NFSFh efh) /\
    (Res1 = -1 \/ (Res1 = Num /\ R = 0 /\ idle s' /\
                   same_view (contents s' (efh_NFSFh efh))
                     (overlay (contents (g_NFSClnt g) (efh_NFSFh efh)) (efh_FilePos efh) Buf))).
Proof.
  intros Hw He Hi HB HN H0 H1. unfold wc_WriteCache, FlushCacheAndWrite, HasBufferedWData.
  rewrite !Hw. gsimpl. simpl (DOSTRUE =? DOSFALSE). cbv iota.
  destruct (nfs_write_ok g (efh_NFSFh efh) (efh_FilePos efh) Buf Num) as (r & s' & -> & Ho);
    try done; try lia. gsimpl. pose proof Ho as [Hfr _].
  assert (Hoth : others_same g (set_NFSClnt s' g) (efh_NFSFh efh)).
  { intros f o Hf. apply Hfr. by intros [-> _]. }
  destruct (write_outcome_ret _ _ _ _ _ _ Ho) as [[-> _]|(-> & Hi' & _ & Hv)].
  - simpl (_ >=? _). cbv iota. eexists _, _, s', _. split; [done|]. split; [done|]. by left.
  - destruct (zlen Buf >=? 0) eqn:E; zbool; [|lia].
    eexists _, _, s', _. split; [done|]. split; [done|]. right. split_and!; try done.
    intros o. rewrite Hv. apply write_to_same.
Qed.

Lemma write_fh_ok g efh bs hf mf F v Buf Num Res2 :
  file_inv g efh bs hf mf F v -> can_write efh -> Num = zlen Buf -> 0 < Num ->
  0 <= efh_FilePos efh -> efh_FilePos efh + Num + MBUFSIZE <= 2 ^ 31 ->
  write_ok bs (efh_FilePos efh) Num (g_WriteBufferLimit g) ->
  exists Res1 R g' efh', write_fh g efh Buf Num Res2 = Some (Res1, R, g', efh') /\
    handle_same efh efh' /\ file_frame g (efh_NFSFh efh) g' /\
    ((Res1 = -1 /\ efh_FilePos efh' = efh_FilePos efh) \/
     (Res1 = Num /\ R = 0 /\ efh_FilePos efh' = efh_FilePos efh + Num /\
      exists bs' hf' mf', file_inv g' efh' bs' hf' mf' F (overlay v (efh_FilePos efh) Buf))).
Proof.
  intros Hinv [Hr2 Hmode] HB HN H0 H1 Hwok. unfold write_fh.
  rewrite Hr2. simpl (negb (0 =? 0)). cbv iota.
  assert (Hm : negb ((efh_Mode efh =? MODE_OLDFILE) || (efh_Mode efh =? MODE_READWRITE)
                     || (efh_Mode efh =? MODE_NEWFILE)) = false).
  { destruct Hmode as [->|[->| ->]]; done. }
  rewrite Hm. clear Hm.
  destruct (file_release_rdata _ _ _ _ _ _ _ Hinv)
    as (g1 & efh1 & mf1 & -> & Hh & Hnr & Hrb & He1 & Hhd & Henv). gsimpl.
  rewrite (proj2 (Z.gtb_lt _ _)) by lia.
  destruct Hinv as [_ Hc _ _ He Hi Hv]. pose proof Henv as (En & El & Es).
  rewrite He1. set (rb := efh_RBuf efh1) in *. gsimpl.
  assert (He' : env_ok g1) by (unfold env_ok; by rewrite En).
  assert (Hi' : idle (g_NFSClnt g1)) by by rewrite Es.
  assert (Hnr' : forall e, efh_RBuf e = rb -> HasBufferedRData e = false).
  { intros e Ee. unfold HasBufferedRData in *. unfold rb in Ee. by rewrite Ee. }
  destruct (efh_WBuf efh) as [w|] eqn:Hw.
  - destruct Hc as (Hc & Hbl & Hrm).
    destruct (wc_WriteCache_ok g1 (set_RBuf rb efh) w bs hf mf1 F Buf Num Res2)
      as (Res1 & R & g' & efh' & -> & w' & l & -> & Hsf & Hres); try done.
    { constructor; try done. by rewrite Hhd. }
    { by rewrite El. }
    gsimpl. destruct Hsf as ([Hst1 Hst2] & _ & Ho). gsimpl in Ho.
    assert (Hff : file_frame g (efh_NFSFh efh) g').
    { split; [split; congruence|]. intros f o Hf. rewrite Ho by done. by rewrite Es. }
    gsimpl in Hres.
    destruct Hres as [(-> & _)|(-> & -> & bs' & hf' & mf' & [Hh2 Hc2 Hb2 Hr2'] & Hi2 & Hv2)].
    + simpl (_ >=? _). cbv iota. eexists _, _, g', _. split; [done|]. split; [by split_and!|].
      split; [done|]. by left.
    + destruct (Num >=? 0) eqn:E; zbool; [|lia].
      eexists _, _, g', _. split; [done|]. split; [by split_and!|]. split; [done|]. right.
      split_and!; [done|done|done|]. exists bs', hf', mf'. constructor; gsimpl; try done.
      * apply rstate_nodata; [by apply Hnr'|done].
      * intros HE. by rewrite Hnr' in HE.
      * unfold env_ok. by rewrite Hst1.
      * intros o. rewrite Hv2. apply overlay_ext_at. unfold seen. rewrite Es. apply Hv.
  - subst bs. destruct (nocache_write_ok g1 (set_RBuf rb efh) Buf Num Res2)
      as (Res1 & R & s' & l & -> & Ho & Hres); try done; try (gsimpl; unfold MBUFSIZE in *; lia).
    gsimpl. gsimpl in Hres.
    assert (Hff : file_frame g (efh_NFSFh efh) (set_NFSClnt s' g1)).
    { split; [split; gsimpl; congruence|]. intros f o Hf. rewrite Ho by done. by rewrite Es. }
    destruct Hres as [->|(-> & -> & Hi2 & Hv2)].
    + simpl (_ >=? _). cbv iota. eexists _, _, _, _. split; [done|]. split; [by split_and!|].
      split; [done|]. by left.
    + destruct (Num >=? 0) eqn:E; zbool; [|lia].
      eexists _, _, _, _. split; [done|]. split; [by split_and!|]. split; [done|]. right.
      split_and!; [done|done|done|]. exists [], hf, mf1. constructor; gsimpl; try done.
      * apply rstate_nodata; [by apply Hnr'|]. by apply heap_ok_set_NFSClnt.
      * by rewrite Hw.
      * intros o. unfold seen. simpl. rewrite Hv2. apply overlay_ext_at. rewrite Es. apply Hv.
Qed.
End FileSpec.

Section FileThm.
Context {S : Type} `{HS : NfsFileServer S, !NfsFileReader S}.
Implicit Types (h : Handler S) (F : frame) (efh : EFH).

Lemma find_update l efh efh' Id :
  find_fh l Id = Some efh -> efh_Id efh' = Id -> find_fh (update_fh l efh') Id = Some efh'.
Proof.
  intros Hf <-. induction l as [|e l IH]; simpl in *; [done|].
  destruct (efh_Id e =? efh_Id efh') eqn:E; simpl.
  - by rewrite Z.eqb_refl.
  - rewrite E. by apply IH.
Qed.

Lemma find_update_ne l efh' Id : efh_Id efh' <> Id -> find_fh (update_fh l efh') Id = find_fh l Id.
Proof.
  intros Hne. induction l as [|e l IH]; simpl; [done|].
  destruct (efh_Id e =? efh_Id efh') eqn:E; simpl; zbool.
  - rewrite (proj2 (Z.eqb_neq (efh_Id efh') Id)) by done.
    by rewrite (proj2 (Z.eqb_neq (efh_Id e) Id)) by congruence.
  - by rewrite IH.
Qed.

Lemma find_fh_Id l Id efh : find_fh l Id = Some efh -> efh_Id efh = Id.
Proof.
  induction l as [|e l IH]; simpl; [done|]. destruct (efh_Id e =? Id) eqn:E; zbool; [|done].
  by intros [= <-].
Qed.

(** File [Id] is open at [efh], and its bytes are [v]. *)
Definition opened h (Id : Z) efh F (v : Z -> byte) : Prop :=
  fh_Lookup h Id = Some efh /\ exists bs hf mf, file_inv (h_g h) efh bs hf mf F v.

(** What a packet for file [Id] leaves alone. *)
Definition packet_frame h (Id : Z) (fh : nfs_fh) h' : Prop :=
  (forall Id', Id' <> Id -> fh_Lookup h' Id' = fh_Lookup h Id') /\
  file_frame (h_g h) fh (h_g h').

Lemma act_READ_ok h Id efh F v Num :
  opened h Id efh F v -> can_read efh -> 0 <= efh_FilePos efh -> 0 < Num ->
  efh_FilePos efh + Num + MBUFSIZE < 2 ^ 31 ->
  exists Res1 bytes h' efh', act_READ h Id Num = Some (Res1, bytes, h') /\
    h_Res1 h' = Res1 /\ packet_frame h Id (efh_NFSFh efh) h' /\
    fh_Lookup h' Id = Some efh' /\ handle_same efh efh' /\
    ((Res1 = -1 /\ efh_FilePos efh' = efh_FilePos efh) \/
     (0 <= Res1 <= Num /\ h_Res2 h' = 0 /\ Res1 = zlen bytes /\
      efh_FilePos efh' = efh_FilePos efh + Res1 /\ file_bytes v (efh_FilePos efh) bytes /\
      opened h' Id efh' F v)).
Proof.
  intros [Hl (bs & hf & mf & Hinv)] Hcan H0 HN H1. unfold act_READ. rewrite Hl.
  destruct (read_fh_ok (h_g h) efh bs hf mf F v Num (h_Res2 h) Hinv Hcan H0 HN H1)
    as (Res1 & bytes & R & g' & efh' & -> & Hsame & Hff & Hout). gsimpl.
  pose proof (find_fh_Id _ _ _ Hl) as HId. pose proof Hsame as (HId' & _).
  eexists Res1, bytes, _, efh'. split; [done|]. split; [done|].
  assert (Hl' : fh_Lookup (SetRes (set_FH (update_fh (h_FH h) efh') (set_g g' h)) Res1 R) Id = Some efh').
  { eapply find_update; [exact Hl|congruence]. }
  split.
  { split; [|done]. intros Id' Hne. refine (find_update_ne _ _ _ _). congruence. }
  split; [done|]. split; [done|]. destruct Hout as [?|(?&?&?&?&?&hf'&mf'&Hinv')]; [by left|right].
  do 5 (split; [done|]). split; [done|]. by exists [], hf', mf'.
Qed.

(** A write that stays inside one block of the file. *)
Definition write_in_block efh (Buf : list byte) : Prop :=
  0 < zlen Buf /\ 0 <= efh_FilePos efh /\ efh_FilePos efh + zlen Buf + MBUFSIZE <= 2 ^ 31 /\
  efh_FilePos efh mod MBUFSIZE + zlen Buf <= MBUFSIZE.

Lemma act_WRITE_ok h Id efh F v Buf :
  opened h Id efh F v -> can_write efh -> write_in_block efh Buf ->
  exists Res1 h' efh', act_WRITE h Id Buf (zlen Buf) = Some (Res1, h') /\
    h_Res1 h' = Res1 /\ packet_frame h Id (efh_NFSFh efh) h' /\
    fh_Lookup h' Id = Some efh' /\ handle_same efh efh' /\
    ((Res1 = -1 /\ efh_FilePos efh' = efh_FilePos efh) \/
     (Res1 = zlen Buf /\ h_Res2 h' = 0 /\ efh_FilePos efh' = efh_FilePos efh + zlen Buf /\
      opened h' Id efh' F (overlay v (efh_FilePos efh) Buf))).
Proof.
  intros [Hl (bs & hf & mf & Hinv)] Hcan (HN & H0 & H1 & Hin). unfold act_WRITE.
  rewrite (proj2 (Z.ltb_ge _ _)) by lia. rewrite Hl.
  destruct (write_fh_ok (h_g h) efh bs hf mf F v Buf (zlen Buf) (h_Res2 h) Hinv Hcan)
    as (Res1 & R & g' & efh' & -> & Hsame & Hff & Hout); try done; try lia.
  { split; [pose proof (Z.mod_pos_bound (efh_FilePos efh) MBUFSIZE); unfold MBUFSIZE in *; lia|].
    destruct (efh_WBuf efh) as [w|] eqn:Hw.
    - pose proof (fi_cluster _ _ _ _ _ _ _ Hinv) as Hc. rewrite Hw in Hc.
      by apply inside_block_span; [apply Hc|..].
    - pose proof (fi_cluster _ _ _ _ _ _ _ Hinv) as Hc. rewrite Hw in Hc. subst.
      by intros p ?%elem_of_nil. }
  gsimpl. pose proof (find_fh_Id _ _ _ Hl) as HId. pose proof Hsame as (HId' & _).
  eexists Res1, _, efh'. split; [done|]. split; [done|].
  assert (Hl' : fh_Lookup (SetRes (set_FH (update_fh (h_FH h) efh') (set_g g' h)) Res1 R) Id = Some efh').
  { eapply find_update; [exact Hl|congruence]. }
  split.
  { split; [|done]. intros Id' Hne. refine (find_update_ne _ _ _ _). congruence. }
  split; [done|]. split; [done|]. destruct Hout as [?|(?&?&?&bs'&hf'&mf'&Hinv')]; [by left|right].
  do 3 (split; [done|]). split; [done|]. by exists bs', hf', mf'.
Qed.

(** Where act_SEEK goes, when the place exists. *)
Definition seek_target efh (Arg2 Mode : Z) : option Z :=
  let p := if Mode =? OFFSET_CURRENT then s32 (efh_FilePos efh + Arg2)
  else if Mode =? OFFSET_BEGINNING then Arg2
  else if Mode =? OFFSET_END then s32 (efh_FileLen efh + Arg2)
  else -1 in
  if (0 <=? p) && (p <=? efh_FileLen efh) then Some p else None.

Lemma act_SEEK_ok h Id efh Arg2 Mode :
  fh_Lookup h Id = Some efh ->
  exists Res1 h', act_SEEK h Id Arg2 Mode = (Res1, h') /\ h_Res1 h' = Res1 /\ h_g h' = h_g h /\
    (forall Id', Id' <> Id -> fh_Lookup h' Id' = fh_Lookup h Id') /\
    match seek_target efh Arg2 Mode with
    | Some p => 0 <= p <= efh_FileLen efh /\ Res1 = efh_FilePos efh /\ h_Res2 h' = 0 /\
        fh_Lookup h' Id = Some (set_FilePos p efh)
    | None => Res1 = DOSFALSE /\ h_Res2 h' = ERROR_SEEK_ERROR /\ h_FH h' = h_FH h
    end.
Proof.
  intros Hl. unfold act_SEEK, seek_target. rewrite Hl.
  pose proof (find_fh_Id _ _ _ Hl) as HId.
  set (p := if Mode =? OFFSET_CURRENT then _ else _). cbv zeta.
  destruct ((0 <=? p) && (p <=? efh_FileLen efh)) eqn:E.
  - apply andb_true_iff in E as [E1 E2]. zbool.
    eexists _, _. split; [done|]. split; [done|]. split; [done|]. split.
    + intros Id' Hne. refine (find_update_ne _ _ _ _). simpl. congruence.
    + split_and!; try done. by eapply find_update; [exact Hl|].
  - eexists _, _. split; [done|]. split_and!; try done.
Qed.

(** A write of no bytes flushes. *)
Lemma act_WRITE_flush_ok h Id efh F v Num :
  opened h Id efh F v -> can_write efh -> Num <= 0 ->
  exists Res1 h' efh', act_WRITE h Id [] Num = Some (Res1, h') /\
    packet_frame h Id (efh_NFSFh efh) h' /\ fh_Lookup h' Id = Some efh' /\
    handle_same efh efh' /\ efh_FilePos efh' = efh_FilePos efh /\
    (Res1 = -1 \/
     (Res1 = 0 /\ h_Res2 h' = 0 /\ same_view (contents (g_NFSClnt (h_g h')) (efh_NFSFh efh)) v /\
      opened h' Id efh' F v)).
Proof.
  intros [Hl (bs & hf & mf & Hinv)] [Hr2 Hmode] HN. unfold act_WRITE.
  replace (if Num <? 0 then 0 else Num) with 0 by (destruct (Num <? 0) eqn:E; zbool; lia).
  rewrite Hl. unfold write_fh. rewrite Hr2. simpl (negb (0 =? 0)). cbv iota.
  assert (Hm : negb ((efh_Mode efh =? MODE_OLDFILE) || (efh_Mode efh =? MODE_READWRITE)
                     || (efh_Mode efh =? MODE_NEWFILE)) = false).
  { destruct Hmode as [->|[->| ->]]; done. }
  rewrite Hm. clear Hm.
  destruct (file_release_inv _ _ _ _ _ _ _ Hinv) as (g1 & efh1 & mf1 & -> & Hinv1 & Hs1 & Hp1 & Hff1).
  gsimpl. simpl (0 >? 0). cbv iota.
  destruct (file_flush_ok g1 efh1 bs hf mf1 F v (h_Res2 h) Hinv1)
    as (ok & R & g2 & efh2 & hf2 & mf2 & Hrun & Hsame & Hpos & Hlen & Hff & _ & _ & Hcase).
  destruct Hsame as (Hs2 & Hs3 & Hs4 & _ & Hs5 & _). gsimpl in Hs2. gsimpl in Hs3. gsimpl in Hs4.
  gsimpl in Hs5. destruct Hs1 as (Ha & Hb & Hc & Hd).
  pose proof (find_fh_Id _ _ _ Hl) as HId.
  assert (Hff' : file_frame (h_g h) (efh_NFSFh efh) g2).
  { eapply file_frame_trans; [exact Hff1|]. by rewrite <-Hc. }
  assert (Hhs : handle_same efh efh2) by (unfold handle_same; split_and!; congruence).
  set (res := if HasBufferedWData efh1 then _ else _).
  assert (Hres : res = Some (if ok =? DOSFALSE then -1 else 0, if ok =? DOSFALSE then R else 0, g2, efh2)).
  { unfold res. destruct (HasBufferedWData efh1).
    - rewrite Hrun. gsimpl. by destruct (ok =? DOSFALSE).
    - by injection Hrun as <- <- <- <-. }
  rewrite Hres. gsimpl.
  eexists _, _, efh2. split; [done|].
  split. { split; [|done]. intros Id' Hne. refine (find_update_ne _ _ _ _). congruence. }
  assert (Hl' : forall r1 r2,
          fh_Lookup (SetRes (set_FH (update_fh (h_FH h) efh2) (set_g g2 h)) r1 r2) Id = Some efh2).
  { intros r1 r2. eapply find_update; [exact Hl|congruence]. }
  split; [apply Hl'|]. split; [done|]. split; [congruence|].
  destruct Hcase as [->|(-> & Hinv2)]; [by left|right]. do 2 (split; [done|]). split.
  - pose proof (fi_view _ _ _ _ _ _ _ Hinv2) as Hv. intros o. rewrite <-Hv, Hs4, Hc. done.
  - split; [apply Hl'|by exists [], hf2, mf2].
Qed.
End FileThm.
