(* ===== verification/FileThm.v ===== *)
(** * Theorems about open files

    The packets as transitions of an abstract file, singly and in sequences,
    the reporting of errors, and the table of open files. *)
From S2P Require Import Prelude MBuf WBufInfo NfsProt NfsSupp Nfs NfsServer Global.
From S2P Require Import WBuf WBufRep.
From S2P Require Import WBufFlush WBufGet WBufSeek WBufSpec WBufThm RBuf.
From S2P Require Import RBufSpec.
From S2P Require Import FileHandle FileSpec.

(** ** Sequences of packets *)

(** What a client does with an open file. *)
Inductive Op := OpRead (Num : Z) | OpWrite (Buf : list byte) | OpSeek (Arg2 Mode : Z) | OpFlush.

(** A file on its own: its bytes and the position. *)
Record afile := AFile { af_bytes : Z -> byte; af_pos : Z }.

(** The steps of the abstract file, with the result and the bytes returned.
    A read may be short; how far a seek may go depends on the length, which
    this specification leaves open. *)
Inductive afile_step : afile -> Op -> Z * list byte -> afile -> Prop :=
  | astep_read v pos Num bytes : zlen bytes <= Num -> file_bytes v pos bytes ->
      afile_step (AFile v pos) (OpRead Num) (zlen bytes, bytes) (AFile v (pos + zlen bytes))
  | astep_write v pos Buf :
      afile_step (AFile v pos) (OpWrite Buf) (zlen Buf, [])
        (AFile (overlay v pos Buf) (pos + zlen Buf))
  | astep_flush v pos : afile_step (AFile v pos) OpFlush (0, []) (AFile v pos)
  | astep_seek v pos p Arg2 Mode : 0 <= p ->
      (Mode = OFFSET_BEGINNING -> p = Arg2) -> (Mode = OFFSET_CURRENT -> p = s32 (pos + Arg2)) ->
      afile_step (AFile v pos) (OpSeek Arg2 Mode) (pos, []) (AFile v p)
  | astep_noseek v pos Arg2 Mode :
      afile_step (AFile v pos) (OpSeek Arg2 Mode) (DOSFALSE, []) (AFile v pos).

Inductive afile_steps : afile -> list (Op * (Z * list byte)) -> afile -> Prop :=
  | asteps_nil f : afile_steps f [] f
  | asteps_cons f1 op r f2 l f3 :
      afile_step f1 op r f2 -> afile_steps f2 l f3 -> afile_steps f1 ((op, r) :: l) f3.

Section Theorems.
Context {S : Type} `{HS : NfsFileServer S, !NfsFileReader S}.
Implicit Types (h : Handler S) (F : frame) (efh : EFH).

Definition run_op h (Id : Z) (op : Op) : option (Z * list byte * Handler S) :=
  match op with
  | OpRead Num => act_READ h Id Num
  | OpWrite Buf => '(r, h) ← act_WRITE h Id Buf (zlen Buf); Some (r, [], h)
  | OpFlush => '(r, h) ← act_WRITE h Id [] 0; Some (r, [], h)
  | OpSeek Arg2 Mode => let '(r, h) := act_SEEK h Id Arg2 Mode in Some (r, [], h)
  end.

(** The sizes and positions the theorems are about. *)
Definition op_ok efh (op : Op) : Prop :=
  match op with
  | OpRead Num => 0 < Num /\ efh_FilePos efh + Num + MBUFSIZE < 2 ^ 31
  | OpWrite Buf => write_in_block efh Buf
  | OpSeek _ _ | OpFlush => True
  end.

(** Packets for [Id] one after the other; -1, a reported failure, ends a run. *)
Inductive runs (Id : Z) : Handler S -> list (Op * (Z * list byte)) -> Handler S -> Prop :=
  | runs_nil h : runs Id h [] h
  | runs_cons h op r bytes h1 l h2 :
    (forall efh, fh_Lookup h Id = Some efh -> op_ok efh op) ->
    run_op h Id op = Some (r, bytes, h1) -> r <> -1 -> runs Id h1 l h2 ->
    runs Id h ((op, (r, bytes)) :: l) h2.

Definition rw_mode efh : Prop := efh_Mode efh = MODE_OLDFILE \/ efh_Mode efh = MODE_READWRITE.

(** The simulation relation. *)
Definition file_sim h (Id : Z) (fh : nfs_fh) F (f : afile) : Prop :=
  exists efh, opened h Id efh F (af_bytes f) /\ efh_FilePos efh = af_pos f /\ 0 <= af_pos f /\
    rw_mode efh /\ efh_Res2 efh = 0 /\ efh_NFSFh efh = fh.

Lemma rw_can_write efh : rw_mode efh -> efh_Res2 efh = 0 -> can_write efh.
Proof. intros Hm Hr. split; [done|]. destruct Hm; tauto. Qed.

Lemma handle_same_mode efh efh' : handle_same efh efh' -> rw_mode efh -> rw_mode efh'.
Proof. intros (_ & E & _). unfold rw_mode. by rewrite E. Qed.

Lemma file_sim_intro h Id efh efh' F v p :
  opened h Id efh' F v -> handle_same efh efh' -> efh_FilePos efh' = p -> 0 <= p ->
  rw_mode efh -> efh_Res2 efh = 0 -> file_sim h Id (efh_NFSFh efh) F (AFile v p).
Proof.
  intros Ho Hs Hp H0 Hm Hr. exists efh'. pose proof Hs as (_ & _ & E1 & E2). simpl.
  split; [done|]. split; [done|]. split; [done|]. split; [by eapply handle_same_mode|].
  split; congruence.
Qed.

(** A handle that moved its position only. *)
Lemma opened_FilePos h h' Id efh F v p :
  opened h Id efh F v -> h_g h' = h_g h -> fh_Lookup h' Id = Some (set_FilePos p efh) ->
  opened h' Id (set_FilePos p efh) F v.
Proof.
  intros [Hl (bs & hf & mf & [Hst Hc He Hr Hen Hi Hv])] Hg Hl'. split; [done|].
  exists bs, hf, mf. rewrite Hg. constructor; done.
Qed.

Lemma run_op_sim h Id fh F f op :
  file_sim h Id fh F f -> (forall efh, fh_Lookup h Id = Some efh -> op_ok efh op) ->
  exists r bytes h', run_op h Id op = Some (r, bytes, h') /\ packet_frame h Id fh h' /\
    (r = -1 \/ exists f', afile_step f op (r, bytes) f' /\ file_sim h' Id fh F f').
Proof.
  intros (efh & Ho & Hp & H0 & Hm & Hr2 & <-) Hok. destruct f as [v pos]. simpl in *. subst pos.
  specialize (Hok efh (proj1 Ho)). destruct op as [Num|Buf|Arg2 Mode|]; simpl in *.
  - destruct (act_READ_ok h Id efh F v Num Ho) as
      (r & bytes & h' & efh' & -> & _ & Hpf & Hl & Hs & Hcase); [by split|done|tauto|tauto|].
    exists r, bytes, h'. split; [done|]. split; [done|].
    destruct Hcase as [[-> _]|(Hr & _ & -> & Hpos & Hb & Ho')]; [by left|right].
    exists (AFile v (efh_FilePos efh + zlen bytes)). split; [apply astep_read; [lia|done]|].
    refine (file_sim_intro _ _ efh efh' _ _ _ _ Hs _ _ Hm Hr2); [done|done|lia].
  - destruct (act_WRITE_ok h Id efh F v Buf Ho) as
      (r & h' & efh' & -> & _ & Hpf & Hl & Hs & Hcase); [by apply rw_can_write|done|].
    exists r, [], h'. split; [done|]. split; [done|].
    destruct Hcase as [[-> _]|(-> & _ & Hpos & Ho')]; [by left|right].
    exists (AFile (overlay v (efh_FilePos efh) Buf) (efh_FilePos efh + zlen Buf)).
    split; [apply astep_write|]. pose proof (zlen_nonneg Buf).
    refine (file_sim_intro _ _ efh efh' _ _ _ _ Hs _ _ Hm Hr2); [done|done|lia].
  - destruct (act_SEEK_ok h Id efh Arg2 Mode (proj1 Ho)) as (r & h' & -> & _ & Hg & Hoth & Hcase).
    exists r, [], h'. split; [done|].
    split. { split; [done|]. rewrite Hg. split; [by split|done]. }
    right. destruct (seek_target efh Arg2 Mode) as [p|] eqn:Ht.
    + destruct Hcase as (Hpr & -> & _ & Hl). exists (AFile v p). split.
      * unfold seek_target in Ht. destruct (_ && _); [|done]. injection Ht as Ht.
        apply astep_seek; [lia|intros ->|intros ->]; by rewrite <-Ht.
      * exists (set_FilePos p efh). simpl. split; [by eapply opened_FilePos|].
        split; [done|]. split; [lia|done].
    + destruct Hcase as (-> & _ & HFH). exists (AFile v (efh_FilePos efh)).
      split; [apply astep_noseek|]. exists efh. simpl. split; [|done].
      destruct Ho as [Hl (bs & hf & mf & Hinv)]. split; [unfold fh_Lookup; by rewrite HFH|].
      exists bs, hf, mf. by rewrite Hg.
  - destruct (act_WRITE_flush_ok h Id efh F v 0 Ho) as
      (r & h' & efh' & -> & Hpf & Hl & Hs & Hpos & Hcase); [by apply rw_can_write|done|].
    exists r, [], h'. split; [done|]. split; [done|].
    destruct Hcase as [->|(-> & _ & _ & Ho')]; [by left|right].
    exists (AFile v (efh_FilePos efh)). split; [apply astep_flush|].
    refine (file_sim_intro _ _ efh efh' _ _ _ _ Hs _ _ Hm Hr2); [done|done|lia].
Qed.

Lemma packet_frame_refl h Id fh : packet_frame h Id fh h.
Proof. split; [done|]. split; [by split|done]. Qed.

Lemma packet_frame_trans h h1 h2 Id fh :
  packet_frame h Id fh h1 -> packet_frame h1 Id fh h2 -> packet_frame h Id fh h2.
Proof.
  intros [H1 F1] [H2 F2]. split; [|by eapply file_frame_trans].
  intros Id' Hne. by rewrite H2, H1.
Qed.

(** C4: the packets of an open file refine an abstract file.  A run is a sequence of
    reads, writes, seeks and flushes of one file, none of which reported a failure
    (-1), where each read is of at least one byte, each write of at least one byte
    and inside one 8192-byte block of the file, and positions leave a block's room
    below 2^31 ([op_ok]; a longer write can lose data, [long_write_loses_data]).
    Such a run is one of the file that is just its bytes and a position: every read
    returns the bytes that the writes before it left there, whether they are on the
    server, in the write cache or in the read buffer; at the end the two agree again,
    and no other open file and no other file's contents have changed.  At any point
    the next packet that is [op_ok] has a result.  Nobody else changes the file. *)
Theorem packets_refine_file h Id fh F f l h' :
  file_sim h Id fh F f -> runs Id h l h' ->
  (exists f', afile_steps f l f' /\ file_sim h' Id fh F f') /\ packet_frame h Id fh h' /\
  (forall op, (forall efh, fh_Lookup h' Id = Some efh -> op_ok efh op) ->
   is_Some (run_op h' Id op)).
Proof.
  intros Hs Hr. revert f Hs. induction Hr as [h|h op r bytes h1 l h2 Hok Hrun Hne _ IH]; intros f Hs.
  - split; [exists f; split; [apply asteps_nil|done]|]. split; [apply packet_frame_refl|].
    intros op Hop. destruct (run_op_sim h Id fh F f op Hs Hop) as (r & b & h' & -> & _). done.
  - destruct (run_op_sim h Id fh F f op Hs Hok) as (r' & b' & h' & Hrun' & Hpf & Hcase).
    rewrite Hrun in Hrun'. injection Hrun' as <- <- <-.
    destruct Hcase as [->|(f1 & Hst & Hs1)]; [done|].
    destruct (IH f1 Hs1) as ((f2 & Hsts & Hs2) & Hpf2 & Hnext).
    split; [exists f2; split; [by eapply asteps_cons|done]|]. split; [|done].
    by eapply packet_frame_trans.
Qed.

(** act_READ reads the file: the count is the number of bytes stored,
    which are the bytes of the file as its user sees it from the position on,
    and the position moves behind them.  On failure it reports -1 and the
    position stays. *)
Theorem act_READ_reads h Id efh F v Num :
  opened h Id efh F v -> can_read efh -> 0 <= efh_FilePos efh -> 0 < Num ->
  efh_FilePos efh + Num + MBUFSIZE < 2 ^ 31 ->
  exists Res1 bytes h' efh', act_READ h Id Num = Some (Res1, bytes, h') /\
    h_Res1 h' = Res1 /\ packet_frame h Id (efh_NFSFh efh) h' /\
    fh_Lookup h' Id = Some efh' /\ handle_same efh efh' /\
    ((Res1 = -1 /\ efh_FilePos efh' = efh_FilePos efh) \/
     (0 <= Res1 <= Num /\ h_Res2 h' = 0 /\ Res1 = zlen bytes /\
      efh_FilePos efh' = efh_FilePos efh + Res1 /\ file_bytes v (efh_FilePos efh) bytes /\
      opened h' Id efh' F v)).
Proof. apply act_READ_ok. Qed.

(** act_WRITE writes the file: on success the whole buffer is over the
    file at the position, which moves behind it; what was read ahead is given
    up first.  On failure it reports -1 and the position stays. *)
Theorem act_WRITE_writes h Id efh F v Buf :
  opened h Id efh F v -> can_write efh -> write_in_block efh Buf ->
  exists Res1 h' efh', act_WRITE h Id Buf (zlen Buf) = Some (Res1, h') /\
    h_Res1 h' = Res1 /\ packet_frame h Id (efh_NFSFh efh) h' /\
    fh_Lookup h' Id = Some efh' /\ handle_same efh efh' /\
    ((Res1 = -1 /\ efh_FilePos efh' = efh_FilePos efh) \/
     (Res1 = zlen Buf /\ h_Res2 h' = 0 /\ efh_FilePos efh' = efh_FilePos efh + zlen Buf /\
      opened h' Id efh' F (overlay v (efh_FilePos efh) Buf))).
Proof. apply act_WRITE_ok. Qed.

(** act_WRITE of no bytes, or of a negative number, is a flush: when it
    reports success the server's file is what the user sees. *)
Theorem act_WRITE_zero_flushes h Id efh F v Num :
  opened h Id efh F v -> can_write efh -> Num <= 0 ->
  exists Res1 h' efh', act_WRITE h Id [] Num = Some (Res1, h') /\
    packet_frame h Id (efh_NFSFh efh) h' /\ fh_Lookup h' Id = Some efh' /\
    handle_same efh efh' /\ efh_FilePos efh' = efh_FilePos efh /\
    (Res1 = -1 \/
     (Res1 = 0 /\ h_Res2 h' = 0 /\ same_view (contents (g_NFSClnt (h_g h')) (efh_NFSFh efh)) v /\
      opened h' Id efh' F v)).
Proof. apply act_WRITE_flush_ok. Qed.

(** act_SEEK moves the position to the place the mode and the offset name
    when that lies in the file as far as its length is known, and returns the
    old position; otherwise it reports ERROR_SEEK_ERROR and changes nothing. *)
Theorem act_SEEK_seeks h Id efh Arg2 Mode :
  fh_Lookup h Id = Some efh ->
  exists Res1 h', act_SEEK h Id Arg2 Mode = (Res1, h') /\ h_Res1 h' = Res1 /\ h_g h' = h_g h /\
    (forall Id', Id' <> Id -> fh_Lookup h' Id' = fh_Lookup h Id') /\
    match seek_target efh Arg2 Mode with
    | Some p => 0 <= p <= efh_FileLen efh /\ Res1 = efh_FilePos efh /\ h_Res2 h' = 0 /\
        fh_Lookup h' Id = Some (set_FilePos p efh)
    | None => Res1 = DOSFALSE /\ h_Res2 h' = ERROR_SEEK_ERROR /\ h_FH h' = h_FH h
    end.
Proof. apply act_SEEK_ok. Qed.

(** A packet that is refused: the caches, the server and the open files are as
    they were. *)
Definition refused_with h h' (Res2 : Z) : Prop :=
  h_g h' = h_g h /\ h_FH h' = h_FH h /\ h_Res1 h' = DOSFALSE /\ h_Res2 h' = Res2.

Lemma update_same (l : list EFH) Id efh : find_fh l Id = Some efh -> update_fh l efh = l.
Proof.
  induction l as [|e l IH]; simpl; [done|]. destruct (efh_Id e =? Id) eqn:E; zbool.
  - intros [= ->]. by rewrite Z.eqb_refl.
  - intros Hf. pose proof (find_fh_Id _ _ _ Hf) as Hi. rewrite (proj2 (Z.eqb_neq _ _)) by lia. by rewrite IH.
Qed.

(** C39: what the packets refuse.  READ, WRITE and SEEK of an id that names no
    open file report ERROR_FILE_NOT_OBJECT.  An error left over from an earlier
    transfer is reported once by READ or WRITE and cleared, and nothing else is
    done.  READ is refused in every mode but MODE_OLDFILE and MODE_READWRITE,
    WRITE in every mode but these two and MODE_NEWFILE.  SEEK is refused for
    every kind of offset but the three there are, and when the place does not
    lie in the file as far as its length is known.  What is refused leaves the
    caches, the server and the open files as they were. *)
Theorem packets_report_errors h Id Num Buf Arg2 OMode :
  match fh_Lookup h Id with
  | None =>
      act_READ h Id Num = Some (DOSFALSE, [], SetRes h DOSFALSE ERROR_FILE_NOT_OBJECT) /\
      act_WRITE h Id Buf Num = Some (DOSFALSE, SetRes h DOSFALSE ERROR_FILE_NOT_OBJECT) /\
      act_SEEK h Id Arg2 OMode = (DOSFALSE, SetRes h DOSFALSE ERROR_FILE_NOT_OBJECT)
  | Some efh =>
      let Mode := efh_Mode efh in
      (efh_Res2 efh <> 0 -> exists h',
         act_READ h Id Num = Some (DOSFALSE, [], h') /\ act_WRITE h Id Buf Num = Some (DOSFALSE, h') /\
         h_Res1 h' = DOSFALSE /\ h_Res2 h' = efh_Res2 efh /\ h_g h' = h_g h /\
         fh_Lookup h' Id = Some (set_Res2 0 efh) /\ forall Id', Id' <> Id -> fh_Lookup h' Id' = fh_Lookup h Id') /\
      (efh_Res2 efh = 0 -> ~ Mode ∈ [MODE_OLDFILE; MODE_READWRITE] -> exists h',
         act_READ h Id Num = Some (DOSFALSE, [], h') /\ refused_with h h' ERROR_FILE_NOT_OBJECT) /\
      (efh_Res2 efh = 0 -> ~ Mode ∈ [MODE_OLDFILE; MODE_READWRITE; MODE_NEWFILE] -> exists h',
         act_WRITE h Id Buf Num = Some (DOSFALSE, h') /\ refused_with h h' ERROR_FILE_NOT_OBJECT) /\
      (seek_target efh Arg2 OMode = None -> exists h',
         act_SEEK h Id Arg2 OMode = (DOSFALSE, h') /\ refused_with h h' ERROR_SEEK_ERROR) /\
      (~ OMode ∈ [OFFSET_BEGINNING; OFFSET_CURRENT; OFFSET_END] -> seek_target efh Arg2 OMode = None)
  end.
Proof.
  destruct (fh_Lookup h Id) as [efh|] eqn:Hl.
  2:{ unfold act_READ, act_WRITE, act_SEEK. by rewrite Hl. }
  pose proof (find_fh_Id _ _ _ Hl) as HId. pose proof (update_same _ _ _ Hl) as Hup. cbv zeta.
  unfold act_READ, act_WRITE. rewrite Hl. unfold read_fh, write_fh. split; [|split; [|split; [|split]]].
  - intros Hr. rewrite (proj2 (Z.eqb_neq _ _) Hr). simpl. eexists. do 5 (split; [done|]).
    split; [eapply find_update; [exact Hl|done]|]. intros Id' Hne. refine (find_update_ne _ _ _ _). simpl. congruence.
  - intros -> Hm. rewrite !elem_of_cons in Hm. simpl.
    rewrite !(proj2 (Z.eqb_neq _ _)) by tauto. eexists. split; [done|]. by split_and!.
  - intros -> Hm. rewrite !elem_of_cons in Hm. simpl.
    rewrite !(proj2 (Z.eqb_neq _ _)) by tauto. eexists. split; [done|]. by split_and!.
  - intros Hs. destruct (act_SEEK_ok h Id efh Arg2 OMode Hl) as (r & h' & Hr & H1 & Hg & _ & Hc). rewrite Hs in Hc.
    destruct Hc as (-> & H2 & HF). by exists h'.
  - rewrite !elem_of_cons. intros Hm. unfold seek_target. by rewrite !(proj2 (Z.eqb_neq _ _)) by tauto.
Qed.

(** ** The table of open files *)

(** The ids in use are distinct and were given out by fh_Create. *)
Definition ids_ok h : Prop :=
  NoDup (efh_Id <$> h_FH h) /\ Forall (fun e => efh_Id e <= h_Id h) (h_FH h).

Lemma find_fh_In (l : list EFH) Id : is_Some (find_fh l Id) <-> Id ∈ efh_Id <$> l.
Proof.
  induction l as [|e l IH]; simpl.
  - split; [by intros []|by intros ?%elem_of_nil].
  - rewrite elem_of_cons, <-IH. destruct (efh_Id e =? Id) eqn:E; zbool; [by split; eauto|].
    split; [by right|]. by intros [?|?].
Qed.

Lemma remove_fh_ok (l : list EFH) efh : NoDup (efh_Id <$> l) -> find_fh l (efh_Id efh) = Some efh ->
  exists l1 l2, l = l1 ++ efh :: l2 /\ remove_fh l (efh_Id efh) = (Some efh, l1 ++ l2).
Proof.
  induction l as [|e l IH]; simpl; [done|]. intros [_ Hnd]%NoDup_cons.
  destruct (efh_Id e =? efh_Id efh) eqn:E.
  - intros [= ->]. by exists [], l.
  - intros Hf. destruct (IH Hnd Hf) as (l1 & l2 & -> & ->). by exists (e :: l1), l2.
Qed.

Lemma find_fh_mid (l1 l2 : list EFH) efh Id : Id <> efh_Id efh ->
  find_fh (l1 ++ efh :: l2) Id = find_fh (l1 ++ l2) Id.
Proof.
  intros Hne. induction l1 as [|e l1 IH]; simpl.
  - by rewrite (proj2 (Z.eqb_neq _ _)) by congruence.
  - by rewrite IH.
Qed.

(** C38: Opening a file gives it an id no open file has, under which it and
    nothing else is found; closing a file takes out that file only.  (The
    counter of ids must not have reached 2^31.) *)
Theorem fh_table_correct h NFSFh Mode :
  ids_ok h -> 0 <= h_Id h < 2 ^ 31 - 1 ->
  (exists efh h1, fh_Create true h NFSFh Mode = (Some efh, h1) /\
     fh_Lookup h (efh_Id efh) = None /\ fh_Lookup (fh_Insert h1 efh) (efh_Id efh) = Some efh /\
     (forall Id, Id <> efh_Id efh -> fh_Lookup (fh_Insert h1 efh) Id = fh_Lookup h Id) /\
     ids_ok (fh_Insert h1 efh) /\ h_Id h < h_Id h1) /\
  (forall efh, fh_Lookup h (efh_Id efh) = Some efh ->
   exists h1, fh_Remove h efh = (Some efh, h1) /\ fh_Lookup h1 (efh_Id efh) = None /\
     (forall Id, Id <> efh_Id efh -> fh_Lookup h1 Id = fh_Lookup h Id) /\ ids_ok h1).
Proof.
  intros [Hnd Hle] Hid. split.
  - unfold fh_Create. cbv zeta. rewrite s32_id by lia. eexists _, _. split; [done|]. simpl.
    assert (Hn : (h_Id h + 1) ∉ efh_Id <$> h_FH h).
    { intros (e & E & He)%list_elem_of_fmap. rewrite Forall_forall in Hle. specialize (Hle e He). lia. }
    split. { apply eq_None_not_Some. intros Hs. by apply Hn, find_fh_In. }
    split. { unfold fh_Lookup; simpl. by rewrite Z.eqb_refl. }
    split. { intros Id Hne. unfold fh_Lookup; simpl. by rewrite (proj2 (Z.eqb_neq _ _)) by congruence. }
    split; [|lia]. split; simpl; [by apply NoDup_cons|].
    apply Forall_cons. split; [simpl; lia|]. eapply Forall_impl; [exact Hle|]. simpl. lia.
  - intros efh Hf. unfold fh_Remove.
    destruct (remove_fh_ok _ _ Hnd Hf) as (l1 & l2 & E & ->). eexists. split; [done|].
    rewrite E, fmap_app, fmap_cons in Hnd. rewrite E in Hle. unfold ids_ok, fh_Lookup. simpl.
    split.
    { apply eq_None_not_Some. rewrite find_fh_In, fmap_app. intros Hin.
      apply NoDup_app in Hnd as (_ & H1 & [H2 _]%NoDup_cons). apply elem_of_app in Hin as [Hin|Hin]; [|done].
      apply (H1 _ Hin). left. }
    split. { intros Id Hne. rewrite E. symmetry. by apply find_fh_mid. }
    split.
    + rewrite fmap_app. apply NoDup_app in Hnd as (H1 & H2 & [_ H3]%NoDup_cons).
      apply NoDup_app. split_and!; try done. intros x Hx Hx2. apply (H2 x Hx). by right.
    + apply Forall_app in Hle as [H1 [_ H2]%Forall_cons]. by apply Forall_app.
Qed.
End Theorems.

Section ReadBuf.
Context {S : Type} `{HS : NfsFileServer S, !NfsFileReader S}.

(** The read buffer is transparent: rb_ReadBuf gives the bytes that the
    server holds at the position, from the buffer, from the buffer read anew
    or directly, and keeps the buffer's contents valid and every memory buffer
    accounted for; it writes nothing to the server. *)
Theorem rb_ReadBuf_reads (g : Global_T S) efh own hf mf F Num Res2 :
  rstate g efh own hf mf F -> is_Some (efh_RBuf efh) -> 0 <= efh_FilePos efh -> 0 < Num ->
  efh_FilePos efh + Num + MBUFSIZE < 2 ^ 31 -> idle (g_NFSClnt g) ->
  exists Res1 bytes R g' efh' mf',
    rb_ReadBuf g efh Num Res2 = Some (Res1, bytes, R, g', efh') /\
    rstate g' efh' own hf mf' F /\ efh_same efh efh' /\ read_frame g g' /\
    read_outcome g efh Num Res1 bytes efh'.
Proof. apply rb_ReadBuf_ok. Qed.
End ReadBuf.

(** ** A concrete open file *)

Definition efh_rw : EFH := set_RBuf (Some (RBufHdr 0 0 None)) efh16.
Definition h_rw : Handler memserver := MkHandler g16 [efh_rw] 1 0 0.

Lemma h_rw_opened : opened h_rw 1 efh_rw no_frame (fun _ => x00).
Proof.
  destruct g16_ok as (hf & mf & Hca & _). split; [done|]. exists [], hf, mf.
  destruct Hca as [Hh Hc Hb Hr]. constructor; try done.
Qed.

Lemma h_rw_sim : file_sim h_rw 1 [x01] no_frame (AFile (fun _ => x00) 0).
Proof. exists efh_rw. split; [apply h_rw_opened|]. split_and!; try done. by left. Qed.

Lemma h_rw_can_write : can_write efh_rw.
Proof. split; [reflexivity|left; reflexivity]. Qed.

Lemma act_READ_reads_witness :
  exists h' efh', act_READ h_rw 1 8 = Some (8, replicate 8 x00, h') /\
    opened h' 1 efh' no_frame (fun _ => x00).
Proof.
  destruct (act_READ_reads h_rw 1 efh_rw no_frame _ 8 h_rw_opened)
    as (r & bytes & h' & efh' & Hr & _ & _ & _ & _ & Hcase);
    [split; [reflexivity|left; reflexivity]|vm_compute; discriminate|lia|reflexivity|].
  assert (E : (fun x => (fst (fst x), snd (fst x))) <$> act_READ h_rw 1 8 = Some (8, replicate 8 x00))
    by (vm_compute; reflexivity).
  rewrite Hr in E. simpl in E. injection E as -> ->.
  destruct Hcase as [[E _]|(_ & _ & _ & _ & _ & Ho)]; [discriminate|].
  exists h', efh'. split; [exact Hr|exact Ho].
Defined.

Lemma act_WRITE_writes_witness :
  exists h' efh', act_WRITE h_rw 1 (replicate 5 x07) 5 = Some (5, h') /\
    opened h' 1 efh' no_frame (overlay (fun _ => x00) 0 (replicate 5 x07)).
Proof.
  destruct (act_WRITE_writes h_rw 1 efh_rw no_frame _ (replicate 5 x07) h_rw_opened h_rw_can_write)
    as (r & h' & efh' & Hr & _ & _ & _ & _ & Hcase);
    [vm_compute; repeat split; discriminate|].
  assert (E : fst <$> act_WRITE h_rw 1 (replicate 5 x07) 5 = Some 5) by (vm_compute; reflexivity).
  assert (Hr' : act_WRITE h_rw 1 (replicate 5 x07) 5 = Some (r, h')) by exact Hr.
  rewrite Hr' in E. simpl in E. injection E as ->.
  destruct Hcase as [[E _]|(_ & _ & _ & Ho)]; [discriminate|].
  exists h', efh'. split; [exact Hr'|exact Ho].
Defined.

Lemma act_WRITE_zero_flushes_witness :
  exists h', act_WRITE h_rw 1 [] 0 = Some (0, h') /\ h_Res2 h' = 0.
Proof.
  destruct (act_WRITE_zero_flushes h_rw 1 efh_rw no_frame _ 0 h_rw_opened h_rw_can_write)
    as (r & h' & efh' & Hr & _ & _ & _ & _ & Hcase); [lia|].
  assert (E : fst <$> act_WRITE h_rw 1 [] 0 = Some 0) by (vm_compute; reflexivity).
  rewrite Hr in E. simpl in E. injection E as ->.
  destruct Hcase as [E|(_ & H2 & _)]; [discriminate|].
  exists h'. split; [exact Hr|exact H2].
Defined.

Lemma act_SEEK_seeks_witness :
  exists h', act_SEEK h_rw 1 5 OFFSET_BEGINNING = (DOSFALSE, h') /\ h_Res2 h' = ERROR_SEEK_ERROR.
Proof.
  destruct (act_SEEK_seeks h_rw 1 efh_rw 5 OFFSET_BEGINNING eq_refl)
    as (r & h' & Hr & _ & _ & _ & -> & H2 & _).
  exists h'. split; [exact Hr|exact H2].
Defined.

Lemma fh_table_correct_witness :
  exists h1, fh_Remove h_rw efh_rw = (Some efh_rw, h1) /\ fh_Lookup h1 1 = None.
Proof.
  destruct (fh_table_correct h_rw [x01] MODE_OLDFILE) as [_ H].
  { split; [apply NoDup_singleton|]. repeat constructor. vm_compute. discriminate. }
  { split; [vm_compute; discriminate|reflexivity]. }
  destruct (H efh_rw eq_refl) as (h1 & H1 & H2 & _). exists h1. split; [exact H1|exact H2].
Defined.

Lemma rb_ReadBuf_reads_witness :
  exists bytes R g' efh', rb_ReadBuf g16 (set_FilePos 3 efh_rw) 4 0 = Some (4, bytes, R, g', efh') /\
    read_outcome g16 (set_FilePos 3 efh_rw) 4 4 bytes efh'.
Proof.
  destruct g16_ok as (hf & mf & [Hh _ _ _] & _).
  destruct (rb_ReadBuf_reads g16 (set_FilePos 3 efh_rw) [] hf mf no_frame 4 0)
    as (r & bytes & R & g' & efh' & mf' & Hr & _ & _ & _ & Ho);
    [exact Hh|eexists; reflexivity|vm_compute; discriminate|lia|reflexivity|by split|].
  assert (E : (fun x => fst (fst (fst (fst x)))) <$> rb_ReadBuf g16 (set_FilePos 3 efh_rw) 4 0 = Some 4)
    by (vm_compute; reflexivity).
  rewrite Hr in E. simpl in E. injection E as ->.
  exists bytes, R, g', efh'. split; [exact Hr|exact Ho].
Defined.

(** Writes, a seek back, and a read of what was written. *)
Definition script : list Op :=
  [OpWrite (replicate 5 x07); OpWrite (replicate 3 x02); OpFlush; OpSeek 2 OFFSET_BEGINNING; OpRead 5].

(** The results of a sequence of packets. *)
Fixpoint results (h : Handler memserver) (ops : list Op)
  : option (list (Op * (Z * list byte)) * Handler memserver) :=
  match ops with
  | [] => Some ([], h)
  | op :: ops =>
      ('(r, bytes, h) ← run_op h 1 op;
       ('(l, h) ← results h ops; Some ((op, (r, bytes)) :: l, h)))
  end.

Definition op_okb (efh : EFH) (op : Op) : bool :=
  match op with
  | OpRead Num => (0 <? Num) && (efh_FilePos efh + Num + MBUFSIZE <? 2 ^ 31)
  | OpWrite Buf => (0 <? zlen Buf) && (0 <=? efh_FilePos efh)
      && (efh_FilePos efh + zlen Buf + MBUFSIZE <=? 2 ^ 31)
      && (efh_FilePos efh mod MBUFSIZE + zlen Buf <=? MBUFSIZE)
  | OpSeek _ _ | OpFlush => true
  end.

Lemma op_okb_ok efh op : op_okb efh op = true -> op_ok efh op.
Proof.
  destruct op; simpl; [|unfold write_in_block|done..]; rewrite ?andb_true_iff; intros H;
    decompose [and] H; clear H; zbool; lia.
Qed.

Fixpoint checked (h : Handler memserver) (ops : list Op) : bool :=
  match ops with
  | [] => true
  | op :: ops =>
      match fh_Lookup h 1, run_op h 1 op with
      | Some efh, Some (r, _, h') => op_okb efh op && negb (r =? -1) && checked h' ops
      | _, _ => false
      end
  end.

Lemma checked_runs ops : forall h l h',
  checked h ops = true -> results h ops = Some (l, h') -> runs 1 h l h'.
Proof.
  induction ops as [|op ops IH]; intros h l h'; simpl.
  - intros _ [= <- <-]. apply runs_nil.
  - destruct (fh_Lookup h 1) as [efh|] eqn:Hl; [|done].
    destruct (run_op h 1 op) as [[[r b] h1]|] eqn:Hr; [|done]. simpl.
    intros [[Hok Hne]%andb_true_iff Hc]%andb_true_iff.
    destruct (results h1 ops) as [[l1 h2]|] eqn:Hrs; [|done]. simpl. intros [= <- <-].
    eapply runs_cons; [|exact Hr| |by apply IH].
    + rewrite Hl. intros efh' [= <-]. by apply op_okb_ok.
    + intros ->. done.
Qed.

Definition script_run : option (list (Op * (Z * list byte)) * Handler memserver) := results h_rw script.

Lemma packets_refine_file_witness :
  exists l h', script_run = Some (l, h') /\
    last l = Some (OpRead 5, (5, replicate 3 x07 ++ replicate 2 x02)) /\
    exists f', afile_steps (AFile (fun _ => x00) 0) l f' /\ file_sim h' 1 [x01] no_frame f'.
Proof.
  assert (Hc : checked h_rw script = true) by (vm_compute; reflexivity).
  assert (Hlast : (fun x => last (fst x)) <$> script_run
                  = Some (Some (OpRead 5, (5, replicate 3 x07 ++ replicate 2 x02))))
    by (vm_compute; reflexivity).
  destruct script_run as [[l h']|] eqn:E; [|discriminate]. simpl in Hlast. injection Hlast as Hlast.
  exists l, h'. split; [reflexivity|]. split; [exact Hlast|].
  destruct (packets_refine_file h_rw 1 [x01] no_frame _ l h' h_rw_sim (checked_runs _ _ _ _ Hc E))
    as [H _]. exact H.
Defined.
