(* ===== verification/Xdr.v ===== *)
(** * External data representation (the first part of ch_nfs_prot_xdr.c)

    The memory streams and the primitive routines.  A C routine does one of
    two things by [x_op]: it is two functions here, an encoder and a decoder.
    [None] is FALSE; what a failed call leaves in the stream is not kept, its
    callers give up.  XDR_FREE is in XdrMem.v. *)
From S2P Require Import Prelude.

Definition BYTES_PER_XDR_UNIT : Z := 4.

(** An encoding stream: what is written and the room left.  [x_handy] is not
    negative where a routine starts: every routine stops at the first
    failure. *)
Record XDRE := MkXDRE { xe_out : list byte; xe_handy : Z }.

(** A decoding stream: the bytes left ([x_handy] is their number), and how
    many calls of mem_alloc will still succeed. *)
Record XDRD := MkXDRD { xd_buf : list byte; xd_mem : nat }.

Definition ENC : Type := XDRE -> option XDRE.
Definition DEC (A : Type) : Type := XDRD -> option (A * XDRD).

Declare Scope xdr_scope.
Delimit Scope xdr_scope with xdr.

Definition eseq (f g : ENC) : ENC := fun xdrs => xdrs ← f xdrs; g xdrs.
Definition enop : ENC := Some.
Definition efail : ENC := fun _ => None.
Definition dret {A} (x : A) : DEC A := fun xdrs => Some (x, xdrs).
Definition dfail {A} : DEC A := fun _ => None.
Definition dbind {A B} (d : DEC A) (k : A -> DEC B) : DEC B :=
  fun xdrs => '(x, xdrs) ← d xdrs; k x xdrs.

Infix ">>>" := eseq (at level 62, right associativity) : xdr_scope.
Notation "x <~ d ; k" := (dbind d (fun x => k))
  (at level 100, d at next level, right associativity) : xdr_scope.
Open Scope xdr_scope.

(** ** Memory streams *)

(** Network order is the byte order of the machine. *)
Definition be32 (z : Z) : list byte :=
  [byte_of_Z (z / 2 ^ 24); byte_of_Z (z / 2 ^ 16); byte_of_Z (z / 2 ^ 8); byte_of_Z z].
Definition of_be32 (a b c d : byte) : Z :=
  Z_of_byte a * 2 ^ 24 + Z_of_byte b * 2 ^ 16 + Z_of_byte c * 2 ^ 8 + Z_of_byte d.

Definition xdrmem_putbytes (bs : list byte) : ENC := fun xdrs =>
  let handy := xe_handy xdrs - zlen bs in
  if handy <? 0 then None else Some (MkXDRE (xe_out xdrs ++ bs) handy).

Definition xdrmem_getbytes (len : Z) : DEC (list byte) := fun xdrs =>
  if zlen (xd_buf xdrs) - len <? 0 then None
  else Some (take (Z.to_nat len) (xd_buf xdrs),
             MkXDRD (drop (Z.to_nat len) (xd_buf xdrs)) (xd_mem xdrs)).

Definition xdrmem_putlong (l : Z) : ENC := fun xdrs =>
  let handy := xe_handy xdrs - BYTES_PER_XDR_UNIT in
  if handy <? 0 then None else Some (MkXDRE (xe_out xdrs ++ be32 l) handy).

Definition xdrmem_getlong : DEC Z := fun xdrs =>
  match xd_buf xdrs with
  | a :: b :: c :: d :: buf => Some (s32 (of_be32 a b c d), MkXDRD buf (xd_mem xdrs))
  | _ => None
  end.

(** xdrmem_inline with the IXDR_PUT_LONGs that fill the room it gives; using
    less or more than that room is not defined. *)
Definition xdrmem_inline_put (len : Z) (ls : list Z) : ENC := fun xdrs =>
  if xe_handy xdrs >=? len
  then if BYTES_PER_XDR_UNIT * zlen ls =? len
       then Some (MkXDRE (xe_out xdrs ++ concat (be32 <$> ls)) (xe_handy xdrs - len))
       else None
  else None.

(** ... with the IXDR_GET_LONGs. *)
Fixpoint ixdr_get (n : nat) (buf : list byte) : option (list Z) :=
  match n, buf with
  | O, _ => Some []
  | S n, a :: b :: c :: d :: buf => (ls ← ixdr_get n buf; Some (s32 (of_be32 a b c d) :: ls))
  | _, _ => None
  end.

Definition xdrmem_inline_get (len : Z) : DEC (list Z) := fun xdrs =>
  if zlen (xd_buf xdrs) >=? len
  then (ls ← ixdr_get (Z.to_nat (len / BYTES_PER_XDR_UNIT)) (xd_buf xdrs);
        Some (ls, MkXDRD (drop (Z.to_nat len) (xd_buf xdrs)) (xd_mem xdrs)))
  else None.

Definition mem_alloc : DEC () := fun xdrs =>
  match xd_mem xdrs with
  | O => None
  | S m => Some ((), MkXDRD (xd_buf xdrs) m)
  end.

(** ** Primitive types *)

Definition xdr_u_long_enc (u : Z) : ENC := xdrmem_putlong u.
Definition xdr_u_long_dec : DEC Z := l <~ xdrmem_getlong; dret (u32 l).
Definition xdr_long_enc (l : Z) : ENC := xdrmem_putlong l.
Definition xdr_long_dec : DEC Z := xdrmem_getlong.
(** sizeof(enum) is sizeof(long). *)
Definition xdr_enum_enc (e : Z) : ENC := xdr_long_enc e.
Definition xdr_enum_dec : DEC Z := xdr_long_dec.
Definition xdr_u_int_enc := xdr_u_long_enc.
Definition xdr_u_int_dec := xdr_u_long_dec.

Definition XDR_FALSE : Z := 0.
Definition XDR_TRUE : Z := 1.
Definition xdr_bool_enc (b : bool) : ENC := xdrmem_putlong (if b then XDR_TRUE else XDR_FALSE).
Definition xdr_bool_dec : DEC bool := lb <~ xdrmem_getlong; dret (negb (lb =? XDR_FALSE)).

Definition xdr_rndup (cnt : Z) : Z :=
  let rndup := cnt mod BYTES_PER_XDR_UNIT in
  if rndup >? 0 then BYTES_PER_XDR_UNIT - rndup else rndup.

Definition xdr_zero : list byte := replicate 4 x00.

(** [cp] holds [cnt] bytes at least. *)
Definition xdr_opaque_enc (cp : list byte) (cnt : Z) : ENC :=
  if cnt =? 0 then enop
  else xdrmem_putbytes (take (Z.to_nat cnt) cp) >>>
       (if xdr_rndup cnt =? 0 then enop
        else xdrmem_putbytes (take (Z.to_nat (xdr_rndup cnt)) xdr_zero)).

Definition xdr_opaque_dec (cnt : Z) : DEC (list byte) :=
  if cnt =? 0 then dret []
  else cp <~ xdrmem_getbytes cnt;
       if xdr_rndup cnt =? 0 then dret cp
       else crud <~ xdrmem_getbytes (xdr_rndup cnt); dret cp.

Definition xdr_bytes_enc (sp : list byte) (maxsize : Z) : ENC :=
  xdr_u_int_enc (zlen sp) >>>
  (if zlen sp >? maxsize then efail else xdr_opaque_enc sp (zlen sp)).

(** [null]: [*cpp] is NULL at entry, memory is allocated. *)
Definition xdr_bytes_dec (null : bool) (maxsize : Z) : DEC (list byte) :=
  nodesize <~ xdr_u_int_dec;
  if nodesize >? maxsize then dfail
  else if nodesize =? 0 then dret []
  else sp <~ (if null then mem_alloc else dret ()); xdr_opaque_dec nodesize.

(** The bytes before the first NUL. *)
Fixpoint c_string (bs : list byte) : list byte :=
  match bs with
  | [] => []
  | b :: bs => if bool_decide (b = x00) then [] else b :: c_string bs
  end.

(** A string is the list of its characters, so strlen is its length. *)
Definition xdr_string_enc (sp : list byte) (maxsize : Z) : ENC :=
  xdr_u_int_enc (zlen sp) >>>
  (if zlen sp >? maxsize then efail else xdr_opaque_enc sp (zlen sp)).

(** [*cpp] is NULL at entry: the stubs clear the result before the call. *)
Definition xdr_string_dec (maxsize : Z) : DEC (list byte) :=
  size <~ xdr_u_int_dec;
  if size >? maxsize then dfail
  else if u32 (size + 1) =? 0 then dret []
  else sp <~ mem_alloc; bs <~ xdr_opaque_dec size; dret (c_string bs).

(** xdr_pointer and xdr_reference of a pointer that is NULL at entry;
    [nil] stands for the NULL pointer. *)
Definition xdr_pointer_enc (more_data : bool) (obj : ENC) : ENC :=
  xdr_bool_enc more_data >>> (if more_data then obj else enop).

Definition xdr_pointer_dec {A} (nil : A) (obj : DEC A) : DEC A :=
  more_data <~ xdr_bool_dec;
  if negb more_data then dret nil else loc <~ mem_alloc; obj.
