(* ===== verification/XdrSpec.v ===== *)
(** * Laws of the representation

    [enc_ok] and [dec_ok] say what an encoder writes and a decoder reads,
    [dec_safe] what a decoder may accept; each primitive of Xdr.v satisfies
    them and the sequencing keeps them, so that the routines of the protocol
    follow by the hint database [xdr]. *)
From S2P Require Import Prelude Xdr.

(** An encoder writes [bs] when there is room for it and fails otherwise. *)
Definition enc_ok (f : ENC) (bs : list byte) : Prop := forall e, 0 <= xe_handy e ->
  f e = if zlen bs <=? xe_handy e
        then Some (MkXDRE (xe_out e ++ bs) (xe_handy e - zlen bs)) else None.

(** An encoder always fails. *)
Definition enc_fails (f : ENC) : Prop := forall e, f e = None.

(** A decoder reads [bs] as [x], allocating [n] times, whatever follows. *)
Definition dec_ok {A} (d : DEC A) (bs : list byte) (x : A) (n : nat) : Prop := forall rest m,
  d (MkXDRD (bs ++ rest) (n + m)) = Some (x, MkXDRD rest m).

(** Whatever a decoder accepts, it reads whole units from the front of the
    buffer and its result satisfies [P]. *)
Definition dec_safe {A} (d : DEC A) (P : A -> Prop) : Prop := forall s x s',
  d s = Some (x, s') -> P x /\ exists used, xd_buf s = used ++ xd_buf s' /\
    zlen used mod BYTES_PER_XDR_UNIT = 0 /\ (xd_mem s' <= xd_mem s)%nat.

(** ** Sequencing *)

Lemma enc_nop : enc_ok enop [].
Proof.
  intros [o h] Hh. unfold enop; simpl in *. change (zlen (@nil byte)) with 0.
  rewrite (proj2 (Z.leb_le _ _)) by done. by rewrite app_nil_r, Z.sub_0_r.
Qed.

Lemma enc_seq f g b1 b2 : enc_ok f b1 -> enc_ok g b2 -> enc_ok (f >>> g) (b1 ++ b2).
Proof.
  intros Hf Hg e He. unfold eseq. rewrite Hf, zlen_app by done.
  pose proof (zlen_nonneg b1). pose proof (zlen_nonneg b2).
  destruct (zlen b1 <=? xe_handy e) eqn:E1; simpl; zbool.
  - rewrite Hg by (simpl; lia). simpl.
  destruct (zlen b2 <=? _) eqn:E2, (zlen b1 + zlen b2 <=? _) eqn:E3; zbool; try lia; [|done].
  by rewrite <-app_assoc, Z.sub_add_distr.
  - by rewrite (proj2 (Z.leb_gt _ _)) by lia.
Qed.

Lemma enc_seq_fails f b g : enc_ok f b -> enc_fails g -> forall e, 0 <= xe_handy e -> (f >>> g) e = None.
Proof. intros Hf Hg e He. unfold eseq. rewrite Hf by done. destruct (_ <=? _); [apply Hg|done]. Qed.

Lemma dec_ret {A} (x : A) : dec_ok (dret x) [] x 0.
Proof. done. Qed.

Lemma dec_bind {A B} (d : DEC A) (k : A -> DEC B) b1 b2 x y n1 n2 :
  dec_ok d b1 x n1 -> dec_ok (k x) b2 y n2 -> dec_ok (dbind d k) (b1 ++ b2) y (n1 + n2).
Proof.
  intros Hd Hk rest m. unfold dbind. rewrite <-app_assoc, <-Nat.add_assoc, Hd. simpl. apply Hk.
Qed.

(** The last step of a routine. *)
Lemma dec_map {A B} (d : DEC A) (f : A -> B) b x n :
  dec_ok d b x n -> dec_ok (dbind d (fun x => dret (f x))) b (f x) n.
Proof. intros Hd rest m. unfold dbind. by rewrite Hd. Qed.

Lemma dec_alloc {A} (d : DEC A) b x n :
  dec_ok d b x n -> dec_ok (dbind mem_alloc (fun _ => d)) b x (S n).
Proof. intros Hd rest m. unfold dbind. simpl. apply Hd. Qed.

Lemma safe_ret {A} (x : A) (P : A -> Prop) : P x -> dec_safe (dret x) P.
Proof. intros HP s y s' [= <- <-]. split; [done|]. by exists []. Qed.

Lemma safe_fail {A} (P : A -> Prop) : dec_safe dfail P.
Proof. done. Qed.

Lemma safe_bind {A B} (d : DEC A) (k : A -> DEC B) P Q :
  dec_safe d P -> (forall x, P x -> dec_safe (k x) Q) -> dec_safe (dbind d k) Q.
Proof.
  intros Hd Hk s y s' H. unfold dbind in H. destruct (d s) as [[x s1]|] eqn:E; [|done]. simpl in H.
  destruct (Hd _ _ _ E) as (HP & u1 & E1 & M1 & L1).
  destruct (Hk x HP _ _ _ H) as (HQ & u2 & E2 & M2 & L2).
  split; [done|]. exists (u1 ++ u2). rewrite E1, E2, app_assoc. split; [done|]. split; [|lia].
  rewrite zlen_app. unfold BYTES_PER_XDR_UNIT in *. rewrite Z.add_mod, M1, M2 by done. done.
Qed.

Lemma safe_alloc : dec_safe mem_alloc (fun _ => True).
Proof.
  intros [buf m] x s'. unfold mem_alloc; simpl. destruct m as [|m]; [done|].
  intros [= <- <-]. split; [done|]. exists []. simpl. split_and!; done || lia.
Qed.

Lemma safe_weaken {A} (d : DEC A) (P Q : A -> Prop) :
  dec_safe d P -> (forall x, P x -> Q x) -> dec_safe d Q.
Proof. intros Hd HPQ s x s' H. destruct (Hd _ _ _ H) as [HP Hu]. split; [by apply HPQ|done]. Qed.

Lemma safe_if {A} (b : bool) (d1 d2 : DEC A) P :
  (b = true -> dec_safe d1 P) -> (b = false -> dec_safe d2 P) -> dec_safe (if b then d1 else d2) P.
Proof. destruct b; auto. Qed.

(** ** Words *)

Lemma of_be32_be32 z : of_be32 (byte_of_Z (z / 2 ^ 24)) (byte_of_Z (z / 2 ^ 16))
  (byte_of_Z (z / 2 ^ 8)) (byte_of_Z z) = u32 z.
Proof.
  unfold of_be32. rewrite !Z_of_byte_of_Z. unfold u8, u32.
  change (2 ^ 24) with 16777216. change (2 ^ 16) with 65536. change (2 ^ 8) with 256.
  change (2 ^ 32) with 4294967296. Z.to_euclidean_division_equations. lia.
Qed.

Lemma of_be32_range a b c d : 0 <= of_be32 a b c d < 2 ^ 32.
Proof.
  unfold of_be32. pose proof (Z_of_byte_range a). pose proof (Z_of_byte_range b).
  pose proof (Z_of_byte_range c). pose proof (Z_of_byte_range d). lia.
Qed.

Lemma s32_u32 z : s32 (u32 z) = s32 z.
Proof.
  unfold s32, u32. change (2 ^ 32) with 4294967296. change (2 ^ 31) with 2147483648.
  Z.to_euclidean_division_equations. lia.
Qed.

Lemma u32_s32 z : u32 (s32 z) = u32 z.
Proof.
  unfold s32, u32. change (2 ^ 32) with 4294967296. change (2 ^ 31) with 2147483648.
  Z.to_euclidean_division_equations. lia.
Qed.

Definition u32_ok (z : Z) : Prop := 0 <= z < 2 ^ 32.
Definition s32_ok (z : Z) : Prop := - 2 ^ 31 <= z < 2 ^ 31.

Lemma enc_putlong z : enc_ok (xdrmem_putlong z) (be32 z).
Proof.
  intros [o h] Hh. unfold xdrmem_putlong. simpl in *. change (zlen (be32 z)) with 4.
  unfold BYTES_PER_XDR_UNIT. destruct (h - 4 <? 0) eqn:E, (4 <=? h) eqn:E2; zbool; done || lia.
Qed.

Lemma dec_getlong z : dec_ok xdrmem_getlong (be32 z) (s32 z) 0.
Proof. intros rest m. unfold xdrmem_getlong. simpl. by rewrite of_be32_be32, s32_u32. Qed.

Lemma safe_getlong : dec_safe xdrmem_getlong s32_ok.
Proof.
  intros [buf m] x s'. unfold xdrmem_getlong; simpl.
  destruct buf as [|a [|b [|c [|d buf]]]]; try done. intros [= <- <-]. split; [apply s32_range|].
  exists [a; b; c; d]. split_and!; done || lia.
Qed.

Lemma enc_u_long u : enc_ok (xdr_u_long_enc u) (be32 u).
Proof. apply enc_putlong. Qed.

Lemma dec_u_long u : u32_ok u -> dec_ok xdr_u_long_dec (be32 u) u 0.
Proof.
  intros Hu. rewrite <-(u32_id u) at 2 by done. rewrite <-u32_s32.
  apply (dec_map xdrmem_getlong u32). apply dec_getlong.
Qed.

Lemma safe_u_long : dec_safe xdr_u_long_dec u32_ok.
Proof. eapply safe_bind; [apply safe_getlong|]. intros x _. apply safe_ret. apply u32_range. Qed.

Lemma enc_enum e : enc_ok (xdr_enum_enc e) (be32 e).
Proof. apply enc_putlong. Qed.

Lemma dec_enum e : s32_ok e -> dec_ok xdr_enum_dec (be32 e) e 0.
Proof. intros He. rewrite <-(s32_id e) at 2 by done. apply dec_getlong. Qed.

Lemma safe_enum : dec_safe xdr_enum_dec s32_ok.
Proof. apply safe_getlong. Qed.

Definition w_bool (b : bool) : list byte := be32 (if b then 1 else 0).

Lemma enc_bool b : enc_ok (xdr_bool_enc b) (w_bool b).
Proof. apply enc_putlong. Qed.

Lemma dec_bool b : dec_ok xdr_bool_dec (w_bool b) b 0.
Proof.
  assert (E : b = negb (s32 (if b then 1 else 0) =? XDR_FALSE)) by by destruct b.
  rewrite E at 2. apply (dec_map xdrmem_getlong (fun lb => negb (lb =? XDR_FALSE))). apply dec_getlong.
Qed.

Lemma safe_bool : dec_safe xdr_bool_dec (fun _ => True).
Proof. eapply safe_bind; [apply safe_getlong|]. intros x _. by apply safe_ret. Qed.

(** ** Inline words *)

Lemma ixdr_get_put ls rest : ixdr_get (length ls) (concat (be32 <$> ls) ++ rest) = Some (s32 <$> ls).
Proof.
  induction ls as [|l ls IH]; [done|].
  change (ixdr_get (length (l :: ls)) (concat (be32 <$> (l :: ls)) ++ rest))
    with (ls' ← ixdr_get (length ls) (concat (be32 <$> ls) ++ rest);
          Some (s32 (of_be32 (byte_of_Z (l / 2 ^ 24)) (byte_of_Z (l / 2 ^ 16))
                       (byte_of_Z (l / 2 ^ 8)) (byte_of_Z l)) :: ls')).
  rewrite IH. simpl. by rewrite of_be32_be32, s32_u32.
Qed.

Lemma zlen_be32s ls : zlen (concat (be32 <$> ls)) = 4 * zlen ls.
Proof.
  induction ls as [|l ls IH]; [done|]. rewrite zlen_cons.
  change (concat (be32 <$> l :: ls)) with (be32 l ++ concat (be32 <$> ls)).
  rewrite zlen_app, IH. change (zlen (be32 l)) with 4. lia.
Qed.

Lemma enc_inline len ls : len = 4 * zlen ls ->
  enc_ok (xdrmem_inline_put len ls) (concat (be32 <$> ls)).
Proof.
  intros -> [o h] Hh. unfold xdrmem_inline_put, BYTES_PER_XDR_UNIT. simpl. rewrite Z.eqb_refl, zlen_be32s.
  by rewrite Z.geb_leb.
Qed.

Lemma dec_inline len ls : len = 4 * zlen ls ->
  dec_ok (xdrmem_inline_get len) (concat (be32 <$> ls)) (s32 <$> ls) 0.
Proof.
  intros -> rest m. unfold xdrmem_inline_get, BYTES_PER_XDR_UNIT. simpl.
  rewrite zlen_app, zlen_be32s, Z.geb_leb. pose proof (zlen_nonneg rest).
  rewrite (proj2 (Z.leb_le _ _)) by lia. rewrite (Z.mul_comm 4), Z.div_mul by done.
  assert (E : Z.to_nat (zlen ls) = length ls) by (unfold zlen; lia). rewrite E, ixdr_get_put. simpl.
  do 3 f_equal. apply drop_app_length'. pose proof (zlen_be32s ls) as Hl. unfold zlen in *. lia.
Qed.

Lemma ixdr_get_length n : forall buf ls, ixdr_get n buf = Some ls ->
  length ls = n /\ Forall s32_ok ls.
Proof.
  induction n as [|n IH]; intros buf ls; simpl; [by intros [= <-]|].
  destruct buf as [|a [|b [|c [|d buf]]]]; try done.
  destruct (ixdr_get n buf) as [ls'|] eqn:E; [|done]. simpl. intros [= <-].
  destruct (IH _ _ E) as [<- HF]. split; [done|]. constructor; [apply s32_range|done].
Qed.

Lemma safe_inline len n : len = 4 * Z.of_nat n ->
  dec_safe (xdrmem_inline_get len) (fun ls => length ls = n /\ Forall s32_ok ls).
Proof.
  intros -> [buf m] x s'. unfold xdrmem_inline_get, BYTES_PER_XDR_UNIT. simpl.
  destruct (zlen buf >=? _) eqn:E; [|done]. zbool.
  rewrite (Z.mul_comm 4), Z.div_mul, Nat2Z.id by done.
  destruct (ixdr_get n buf) as [ls|] eqn:Eg; [|done]. simpl. intros [= <- <-].
  split; [by eapply ixdr_get_length|]. exists (take (Z.to_nat (Z.of_nat n * 4)) buf). simpl.
  rewrite take_drop. split; [done|]. split; [|done].
  unfold zlen in *. rewrite length_take. replace (_ `min` _)%nat with (n * 4)%nat by lia.
  rewrite Nat2Z.inj_mul. by apply Z.mod_mul.
Qed.

(** ** Opaque data *)

Definition pad (bs : list byte) : list byte := replicate (Z.to_nat (xdr_rndup (zlen bs))) x00.
Definition w_opaque (bs : list byte) : list byte := bs ++ pad bs.

Lemma xdr_rndup_range n : 0 <= xdr_rndup n < 4 /\ (n + xdr_rndup n) mod 4 = 0.
Proof.
  unfold xdr_rndup, BYTES_PER_XDR_UNIT. pose proof (Z.mod_pos_bound n 4).
  destruct (n mod 4 >? 0) eqn:E; zbool; (split; [lia|]); Z.to_euclidean_division_equations; lia.
Qed.

Lemma zlen_pad bs : zlen (pad bs) = xdr_rndup (zlen bs).
Proof. unfold pad, zlen at 1. rewrite length_replicate. pose proof (xdr_rndup_range (zlen bs)). lia. Qed.

Lemma take_zlen {A} (l : list A) : take (Z.to_nat (zlen l)) l = l.
Proof. apply take_ge. unfold zlen. lia. Qed.

Lemma enc_putbytes bs : enc_ok (xdrmem_putbytes bs) bs.
Proof.
  intros [o h] Hh. unfold xdrmem_putbytes. simpl in *.
  destruct (h - zlen bs <? 0) eqn:E, (zlen bs <=? h) eqn:E2; zbool; done || lia.
Qed.

Lemma dec_getbytes bs n : zlen bs = n -> dec_ok (xdrmem_getbytes n) bs bs 0.
Proof.
  intros <- rest m. unfold xdrmem_getbytes. simpl. rewrite zlen_app. pose proof (zlen_nonneg rest).
  rewrite (proj2 (Z.ltb_ge _ _)) by lia. unfold zlen. rewrite Nat2Z.id.
  by rewrite take_app_length, drop_app_length.
Qed.

Lemma getbytes_inv n s bs s' : 0 <= n -> xdrmem_getbytes n s = Some (bs, s') ->
  zlen bs = n /\ xd_buf s = bs ++ xd_buf s' /\ xd_mem s' = xd_mem s.
Proof.
  intros Hn. unfold xdrmem_getbytes. destruct (_ <? 0) eqn:E; [done|]. zbool. intros [= <- <-]. simpl.
  rewrite take_drop. split; [|done]. unfold zlen in *. rewrite length_take. lia.
Qed.

Lemma zlen_0 {A} (l : list A) : zlen l = 0 -> l = [].
Proof. destruct l; [done|]. intros H. exfalso. zlia. Qed.

Lemma enc_opaque bs : enc_ok (xdr_opaque_enc bs (zlen bs)) (w_opaque bs).
Proof.
  unfold xdr_opaque_enc. destruct (zlen bs =? 0) eqn:E; zbool.
  { apply zlen_0 in E as ->. apply enc_nop. }
  rewrite take_zlen. apply enc_seq; [apply enc_putbytes|]. pose proof (xdr_rndup_range (zlen bs)).
  unfold pad. destruct (xdr_rndup (zlen bs) =? 0) eqn:E2; zbool; [rewrite E2; apply enc_nop|].
  unfold xdr_zero. rewrite take_replicate. rewrite Nat.min_l by lia. apply enc_putbytes.
Qed.

Lemma dec_opaque bs n : zlen bs = n -> dec_ok (xdr_opaque_dec n) (w_opaque bs) bs 0.
Proof.
  intros <-. unfold xdr_opaque_dec. destruct (zlen bs =? 0) eqn:E; zbool.
  { apply zlen_0 in E as ->. apply dec_ret. }
  unfold w_opaque. pose proof (zlen_pad bs) as Hp.
  apply (dec_bind _ _ bs (pad bs) bs bs 0 0); [by apply dec_getbytes|].
  destruct (xdr_rndup (zlen bs) =? 0) eqn:E2; zbool.
  - rewrite E2 in Hp. apply zlen_0 in Hp as ->. apply dec_ret.
  - apply (dec_map _ (fun _ => bs) (pad bs) (pad bs)). by apply dec_getbytes.
Qed.

Lemma safe_opaque n : 0 <= n -> dec_safe (xdr_opaque_dec n) (fun bs => zlen bs = n).
Proof.
  intros Hn s x s'. unfold xdr_opaque_dec. destruct (n =? 0) eqn:E; zbool.
  { intros [= <- <-]. split; [done|]. by exists []. }
  pose proof (xdr_rndup_range n) as [Hr Hm]. unfold dbind.
  destruct (xdrmem_getbytes n s) as [[bs s1]|] eqn:E1; [|done]. simpl.
  apply getbytes_inv in E1 as (Hz & Hb & Hme); [|done].
  destruct (xdr_rndup n =? 0) eqn:E2; zbool.
  - intros [= <- <-]. split; [done|]. exists bs. rewrite Hz. rewrite E2, Z.add_0_r in Hm.
  split; [done|]. split; [done|lia].
  - destruct (xdrmem_getbytes (xdr_rndup n) s1) as [[crud s2]|] eqn:E3; [|done]. simpl. intros [= <- <-].
  apply getbytes_inv in E3 as (Hz2 & Hb2 & Hme2); [|lia]. split; [done|]. exists (bs ++ crud).
  rewrite zlen_app, Hz, Hz2, Hb, Hb2, app_assoc. split; [done|]. split; [done|lia].
Qed.

(** Fixed size: file handles and cookies. *)
Lemma enc_fixed bs n : zlen bs = n -> enc_ok (xdr_opaque_enc bs n) (w_opaque bs).
Proof. intros <-. apply enc_opaque. Qed.

(** ** Counted bytes and strings *)

Definition w_counted (bs : list byte) : list byte := be32 (zlen bs) ++ w_opaque bs.

Lemma enc_counted bs maxsize :
  (if zlen bs <=? maxsize then enc_ok (xdr_bytes_enc bs maxsize) (w_counted bs)
   else forall e, 0 <= xe_handy e -> xdr_bytes_enc bs maxsize e = None).
Proof.
  unfold xdr_bytes_enc. destruct (zlen bs <=? maxsize) eqn:E; zbool.
  - destruct (zlen bs >? maxsize) eqn:E2; zbool; [lia|]. apply enc_seq; [apply enc_u_long|apply enc_opaque].
  - destruct (zlen bs >? maxsize) eqn:E2; zbool; [|lia]. eapply enc_seq_fails; [apply enc_u_long|done].
Qed.

Lemma enc_bytes bs maxsize : zlen bs <= maxsize -> enc_ok (xdr_bytes_enc bs maxsize) (w_counted bs).
Proof. intros H. pose proof (enc_counted bs maxsize) as E. by rewrite (proj2 (Z.leb_le _ _)) in E. Qed.

Lemma enc_string bs maxsize : zlen bs <= maxsize -> enc_ok (xdr_string_enc bs maxsize) (w_counted bs).
Proof. apply enc_bytes. Qed.

(** Memory is allocated for data that is there when the caller gave none. *)
Definition bytes_alloc (null : bool) (bs : list byte) : nat :=
  if null && negb (zlen bs =? 0) then 1%nat else 0%nat.

Lemma dec_bytes null bs maxsize : zlen bs <= maxsize -> maxsize < 2 ^ 32 ->
  dec_ok (xdr_bytes_dec null maxsize) (w_counted bs) bs (bytes_alloc null bs).
Proof.
  intros H1 H2. unfold w_counted. pose proof (zlen_nonneg bs).
  apply (dec_bind _ _ _ _ (zlen bs) bs 0); [apply dec_u_long; split; lia|].
  destruct (zlen bs >? maxsize) eqn:E; zbool; [lia|]. unfold bytes_alloc.
  destruct (zlen bs =? 0) eqn:E2; zbool.
  - apply zlen_0 in E2 as ->. destruct null; apply dec_ret.
  - destruct null.
  + apply (dec_alloc _ _ _ 0). by apply dec_opaque.
  + apply (dec_bind _ _ [] _ () bs 0 0); [apply dec_ret|by apply dec_opaque].
Qed.

Lemma safe_bytes null maxsize : 0 <= maxsize ->
  dec_safe (xdr_bytes_dec null maxsize) (fun bs => zlen bs <= maxsize).
Proof.
  intros Hm. eapply safe_bind; [apply safe_u_long|]. intros n [Hn _].
  apply safe_if; intros E; zbool; [apply safe_fail|].
  apply safe_if; intros E2; zbool; [by apply safe_ret|].
  apply (safe_bind _ _ (fun _ => True)); [by destruct null; [apply safe_alloc|apply safe_ret]|].
  intros _ _. eapply safe_weaken; [by apply safe_opaque|]. simpl. lia.
Qed.

(** A C string of bounded length. *)
Definition str_ok (maxsize : Z) (bs : list byte) : Prop := zlen bs <= maxsize /\ (x00 ∉ bs).

Lemma c_string_id bs : x00 ∉ bs -> c_string bs = bs.
Proof.
  induction bs as [|b bs IH]; simpl; [done|]. rewrite not_elem_of_cons. intros [Hb Hbs].
  rewrite bool_decide_false by congruence. by rewrite IH.
Qed.

Lemma c_string_ok bs : (x00 ∉ c_string bs) /\ zlen (c_string bs) <= zlen bs.
Proof.
  induction bs as [|b bs [IH1 IH2]]; simpl; [split; [by intros ?%elem_of_nil|done]|].
  case_bool_decide.
  - split; [by intros ?%elem_of_nil|]. zlia.
  - rewrite not_elem_of_cons, !zlen_cons. split; [split; congruence|lia].
Qed.

Lemma dec_string bs maxsize : str_ok maxsize bs -> maxsize < 2 ^ 32 - 1 ->
  dec_ok (xdr_string_dec maxsize) (w_counted bs) bs 1.
Proof.
  intros [H1 H0] H2. unfold w_counted. pose proof (zlen_nonneg bs).
  apply (dec_bind _ _ _ _ (zlen bs) bs 0 1); [apply dec_u_long; split; lia|].
  destruct (zlen bs >? maxsize) eqn:E; zbool; [lia|].
  rewrite u32_id by lia. rewrite (proj2 (Z.eqb_neq _ _)) by lia.
  apply (dec_alloc _ _ _ 0). rewrite <-(c_string_id bs) at 3 by done.
  apply (dec_map _ c_string). by apply dec_opaque.
Qed.

Lemma safe_string maxsize : 0 <= maxsize -> dec_safe (xdr_string_dec maxsize) (str_ok maxsize).
Proof.
  intros Hm. eapply safe_bind; [apply safe_u_long|]. intros n [Hn _].
  apply safe_if; intros E; zbool; [apply safe_fail|].
  apply safe_if; intros E2; [apply safe_ret; split; [done|by intros ?%elem_of_nil]|].
  eapply safe_bind; [apply safe_alloc|]. intros _ _.
  eapply safe_bind; [by apply safe_opaque|]. simpl. intros bs <-.
  apply safe_ret. destruct (c_string_ok bs). split; [lia|done].
Qed.
