(* ===== verification/NfsXdr.v ===== *)
(** * The routines of the NFS protocol (the second part of ch_nfs_prot_xdr.c)

    Every routine of the protocol's types as an encoder and a decoder.  The
    arms of the result unions share [xdr_res_enc] and [xdr_res_dec]: the
    status, and the data of NFS_OK. *)
From S2P Require Import Prelude NfsProt Xdr.

Definition xdr_nfsstat_enc (s : Z) : ENC := xdr_enum_enc s.
Definition xdr_nfsstat_dec : DEC Z := xdr_enum_dec.
Definition xdr_ftype_enc (t : Z) : ENC := xdr_enum_enc t.
Definition xdr_ftype_dec : DEC Z := xdr_enum_dec.

Definition xdr_nfs_fh_enc (objp : nfs_fh) : ENC := xdr_opaque_enc objp NFS_FHSIZE.
Definition xdr_nfs_fh_dec : DEC nfs_fh := xdr_opaque_dec NFS_FHSIZE.

Definition xdr_nfstime_enc (objp : nfstime) : ENC :=
  xdr_u_int_enc (nt_seconds objp) >>> xdr_u_int_enc (nt_useconds objp).
Definition xdr_nfstime_dec : DEC nfstime :=
  seconds <~ xdr_u_int_dec; useconds <~ xdr_u_int_dec; dret (NfsTime seconds useconds).

(** The words of a structure that is written in line. *)
Definition fattr_words (objp : fattr) : list Z :=
  [fa_type objp; fa_mode objp; fa_nlink objp; fa_uid objp; fa_gid objp; fa_size objp;
   fa_blocksize objp; fa_rdev objp; fa_blocks objp; fa_fsid objp; fa_fileid objp;
   nt_seconds (fa_atime objp); nt_useconds (fa_atime objp);
   nt_seconds (fa_mtime objp); nt_useconds (fa_mtime objp);
   nt_seconds (fa_ctime objp); nt_useconds (fa_ctime objp)].

Definition xdr_fattr_enc (objp : fattr) : ENC :=
  xdrmem_inline_put (17 * BYTES_PER_XDR_UNIT) (fattr_words objp).

Definition xdr_fattr_dec : DEC fattr :=
  buf <~ xdrmem_inline_get (17 * BYTES_PER_XDR_UNIT);
  match buf with
  | [type; mode; nlink; uid; gid; size; blocksize; rdev; blocks; fsid; fileid;
     as_; au; ms; mu; cs; cu] =>
      dret (FAttr type (u32 mode) (u32 nlink) (u32 uid) (u32 gid) (u32 size) (u32 blocksize)
              (u32 rdev) (u32 blocks) (u32 fsid) (u32 fileid) (NfsTime (u32 as_) (u32 au))
              (NfsTime (u32 ms) (u32 mu)) (NfsTime (u32 cs) (u32 cu)))
  | _ => dfail
  end.

Definition sattr_words (objp : sattr) : list Z :=
  [sa_mode objp; sa_uid objp; sa_gid objp; sa_size objp;
   nt_seconds (sa_atime objp); nt_useconds (sa_atime objp);
   nt_seconds (sa_mtime objp); nt_useconds (sa_mtime objp)].

Definition xdr_sattr_enc (objp : sattr) : ENC :=
  xdrmem_inline_put (8 * BYTES_PER_XDR_UNIT) (sattr_words objp).

Definition xdr_sattr_dec : DEC sattr :=
  buf <~ xdrmem_inline_get (8 * BYTES_PER_XDR_UNIT);
  match buf with
  | [mode; uid; gid; size; as_; au; ms; mu] =>
      dret (SAttr (u32 mode) (u32 uid) (u32 gid) (u32 size) (NfsTime (u32 as_) (u32 au))
              (NfsTime (u32 ms) (u32 mu)))
  | _ => dfail
  end.

Definition xdr_filename_enc (objp : filename) : ENC := xdr_string_enc objp NFS_MAXNAMLEN.
Definition xdr_filename_dec : DEC filename := xdr_string_dec NFS_MAXNAMLEN.
Definition xdr_nfspath_enc (objp : nfspath) : ENC := xdr_string_enc objp NFS_MAXPATHLEN.
Definition xdr_nfspath_dec : DEC nfspath := xdr_string_dec NFS_MAXPATHLEN.

(** [switch (objp->status) { case NFS_OK: ...; break; }] *)
Definition xdr_res_enc {A} (ok : A -> ENC) (objp : nfsres A) : ENC :=
  match objp with
  | NfsOk a => xdr_nfsstat_enc NFS_OK >>> ok a
  | NfsErr status => xdr_nfsstat_enc status
  end.
Definition xdr_res_dec {A} (ok : DEC A) : DEC (nfsres A) :=
  status <~ xdr_nfsstat_dec;
  if status =? NFS_OK then a <~ ok; dret (NfsOk a) else dret (NfsErr status).

Definition xdr_attrstat_enc : attrstat -> ENC := xdr_res_enc xdr_fattr_enc.
Definition xdr_attrstat_dec : DEC attrstat := xdr_res_dec xdr_fattr_dec.

Definition xdr_sattrargs_enc (objp : sattrargs) : ENC :=
  xdr_nfs_fh_enc (sga_file objp) >>> xdr_sattr_enc (sga_attributes objp).
Definition xdr_sattrargs_dec : DEC sattrargs :=
  file <~ xdr_nfs_fh_dec; attributes <~ xdr_sattr_dec; dret (SAttrArgs file attributes).

Definition xdr_diropargs_enc (objp : diropargs) : ENC :=
  xdr_nfs_fh_enc (da_dir objp) >>> xdr_filename_enc (da_name objp).
Definition xdr_diropargs_dec : DEC diropargs :=
  dir <~ xdr_nfs_fh_dec; name <~ xdr_filename_dec; dret (DirOpArgs dir name).

Definition xdr_diropokres_enc (objp : diropokres) : ENC :=
  xdr_nfs_fh_enc (do_file objp) >>> xdr_fattr_enc (do_attributes objp).
Definition xdr_diropokres_dec : DEC diropokres :=
  file <~ xdr_nfs_fh_dec; attributes <~ xdr_fattr_dec; dret (DirOpOkRes file attributes).

Definition xdr_diropres_enc : diropres -> ENC := xdr_res_enc xdr_diropokres_enc.
Definition xdr_diropres_dec : DEC diropres := xdr_res_dec xdr_diropokres_dec.

Definition xdr_readlinkres_enc : readlinkres -> ENC := xdr_res_enc xdr_nfspath_enc.
Definition xdr_readlinkres_dec : DEC readlinkres := xdr_res_dec xdr_nfspath_dec.

Definition xdr_readargs_enc (objp : readargs) : ENC :=
  xdr_nfs_fh_enc (ra_file objp) >>> xdr_u_int_enc (ra_offset objp) >>>
  xdr_u_int_enc (ra_count objp) >>> xdr_u_int_enc (ra_totalcount objp).
Definition xdr_readargs_dec : DEC readargs :=
  file <~ xdr_nfs_fh_dec; offset <~ xdr_u_int_dec; count <~ xdr_u_int_dec;
  totalcount <~ xdr_u_int_dec; dret (ReadArgs file offset count totalcount).

(** [null]: no buffer for the data was given. *)
Definition xdr_readokres_enc (objp : readokres) : ENC :=
  xdr_fattr_enc (ro_attributes objp) >>> xdr_bytes_enc (ro_data objp) NFS_MAXDATA.
Definition xdr_readokres_dec (null : bool) : DEC readokres :=
  attributes <~ xdr_fattr_dec; data <~ xdr_bytes_dec null NFS_MAXDATA;
  dret (ReadOkRes attributes data).

Definition xdr_readres_enc : readres -> ENC := xdr_res_enc xdr_readokres_enc.
Definition xdr_readres_dec (null : bool) : DEC readres := xdr_res_dec (xdr_readokres_dec null).

Definition xdr_writeargs_enc (objp : writeargs) : ENC :=
  xdr_nfs_fh_enc (wa_file objp) >>> xdr_u_int_enc (wa_beginoffset objp) >>>
  xdr_u_int_enc (wa_offset objp) >>> xdr_u_int_enc (wa_totalcount objp) >>>
  xdr_bytes_enc (wa_data objp) NFS_MAXDATA.
Definition xdr_writeargs_dec (null : bool) : DEC writeargs :=
  file <~ xdr_nfs_fh_dec; beginoffset <~ xdr_u_int_dec; offset <~ xdr_u_int_dec;
  totalcount <~ xdr_u_int_dec; data <~ xdr_bytes_dec null NFS_MAXDATA;
  dret (WriteArgs file beginoffset offset totalcount data).

(** Everything but the data, which the transport sends from where it is. *)
Definition xdr_writeargssb_enc (objp : writeargs) : ENC :=
  xdr_nfs_fh_enc (wa_file objp) >>> xdr_u_int_enc (wa_beginoffset objp) >>>
  xdr_u_int_enc (wa_offset objp) >>> xdr_u_int_enc (wa_totalcount objp) >>>
  xdr_u_int_enc (zlen (wa_data objp)).

Definition xdr_createargs_enc (objp : createargs) : ENC :=
  xdr_diropargs_enc (ca_where objp) >>> xdr_sattr_enc (ca_attributes objp).
Definition xdr_createargs_dec : DEC createargs :=
  where_ <~ xdr_diropargs_dec; attributes <~ xdr_sattr_dec; dret (CreateArgs where_ attributes).

Definition xdr_renameargs_enc (objp : renameargs) : ENC :=
  xdr_diropargs_enc (rna_from objp) >>> xdr_diropargs_enc (rna_to objp).
Definition xdr_renameargs_dec : DEC renameargs :=
  from <~ xdr_diropargs_dec; to <~ xdr_diropargs_dec; dret (RenameArgs from to).

Definition xdr_linkargs_enc (objp : linkargs) : ENC :=
  xdr_nfs_fh_enc (la_from objp) >>> xdr_diropargs_enc (la_to objp).
Definition xdr_linkargs_dec : DEC linkargs :=
  from <~ xdr_nfs_fh_dec; to <~ xdr_diropargs_dec; dret (LinkArgs from to).

Definition xdr_symlinkargs_enc (objp : symlinkargs) : ENC :=
  xdr_diropargs_enc (sla_from objp) >>> xdr_nfspath_enc (sla_to objp) >>>
  xdr_sattr_enc (sla_attributes objp).
Definition xdr_symlinkargs_dec : DEC symlinkargs :=
  from <~ xdr_diropargs_dec; to <~ xdr_nfspath_dec; attributes <~ xdr_sattr_dec;
  dret (SymLinkArgs from to attributes).

Definition xdr_nfscookie_enc (objp : nfscookie) : ENC := xdr_opaque_enc objp NFS_COOKIESIZE.
Definition xdr_nfscookie_dec : DEC nfscookie := xdr_opaque_dec NFS_COOKIESIZE.

Definition xdr_readdirargs_enc (objp : readdirargs) : ENC :=
  xdr_nfs_fh_enc (rda_dir objp) >>> xdr_nfscookie_enc (rda_cookie objp) >>>
  xdr_u_int_enc (rda_count objp).
Definition xdr_readdirargs_dec : DEC readdirargs :=
  dir <~ xdr_nfs_fh_dec; cookie <~ xdr_nfscookie_dec; count <~ xdr_u_int_dec;
  dret (ReadDirArgs dir cookie count).

(** An entry and, through [nextentry], the entries behind it: the routine
    calls itself through xdr_pointer. *)
Definition xdr_entry_enc (objp : entry) (nextentry : ENC) : ENC :=
  xdr_u_int_enc (e_fileid objp) >>> xdr_filename_enc (e_name objp) >>>
  xdr_nfscookie_enc (e_cookie objp) >>> nextentry.
Fixpoint xdr_entries_enc (objp : list entry) : ENC :=
  match objp with
  | [] => xdr_pointer_enc false enop
  | e :: objp => xdr_pointer_enc true (xdr_entry_enc e (xdr_entries_enc objp))
  end.

Definition xdr_entry_dec (nextentry : DEC (list entry)) : DEC (list entry) :=
  fileid <~ xdr_u_int_dec; name <~ xdr_filename_dec; cookie <~ xdr_nfscookie_dec;
  next <~ nextentry; dret (Entry fileid name cookie :: next).
Fixpoint xdr_entries_fuel (fuel : nat) : DEC (list entry) :=
  match fuel with
  | O => dfail
  | S fuel => xdr_pointer_dec [] (xdr_entry_dec (xdr_entries_fuel fuel))
  end.
(** Every entry takes bytes from the buffer, so this depth is enough. *)
Definition xdr_entries_dec : DEC (list entry) :=
  fun xdrs => xdr_entries_fuel (S (length (xd_buf xdrs))) xdrs.

Definition xdr_dirlist_enc (objp : dirlist) : ENC :=
  xdr_entries_enc (dl_entries objp) >>> xdr_bool_enc (dl_eof objp).
Definition xdr_dirlist_dec : DEC dirlist :=
  entries <~ xdr_entries_dec; eof <~ xdr_bool_dec; dret (DirList entries eof).

Definition xdr_readdirres_enc : readdirres -> ENC := xdr_res_enc xdr_dirlist_enc.
Definition xdr_readdirres_dec : DEC readdirres := xdr_res_dec xdr_dirlist_dec.

Definition statfs_words (objp : statfsokres) : list Z :=
  [sf_tsize objp; sf_bsize objp; sf_blocks objp; sf_bfree objp; sf_bavail objp].

Definition xdr_statfsokres_enc (objp : statfsokres) : ENC :=
  xdrmem_inline_put (5 * BYTES_PER_XDR_UNIT) (statfs_words objp).
Definition xdr_statfsokres_dec : DEC statfsokres :=
  buf <~ xdrmem_inline_get (5 * BYTES_PER_XDR_UNIT);
  match buf with
  | [tsize; bsize; blocks; bfree; bavail] =>
      dret (StatFsOkRes (u32 tsize) (u32 bsize) (u32 blocks) (u32 bfree) (u32 bavail))
  | _ => dfail
  end.

Definition xdr_statfsres_enc : statfsres -> ENC := xdr_res_enc xdr_statfsokres_enc.
Definition xdr_statfsres_dec : DEC statfsres := xdr_res_dec xdr_statfsokres_dec.
