(* ===== verification/NfsXdrSpec.v ===== *)
(** * The protocol's representation is right

    [Codec] is the contract between the representation and its users: what a
    type looks like on the wire, which values it has, and that encoding and
    decoding agree on it.  Every routine of NfsXdr.v is an instance; the
    theorems about arguments and results are collected at the end. *)
From S2P Require Import Prelude NfsProt Xdr XdrSpec NfsXdr.

#[local] Arguments be32 z : simpl never.

(** [wire x] is the representation of [x], of whole units; the values that
    can be sent are those that satisfy [ok], and no others are accepted. *)
Class Codec {A} (enc : A -> ENC) (dec : DEC A) (wire : A -> list byte) (ok : A -> Prop)
  (alloc : A -> nat) : Prop := {
  cd_enc x : ok x -> enc_ok (enc x) (wire x);
  cd_dec x : ok x -> dec_ok dec (wire x) x (alloc x);
  cd_safe : dec_safe dec ok
}.

(** The routines are told apart by their names. *)
#[export] Hint Opaque
  xdr_nfsstat_enc xdr_nfsstat_dec xdr_ftype_enc xdr_ftype_dec xdr_nfs_fh_enc
  xdr_nfs_fh_dec xdr_nfstime_enc xdr_nfstime_dec xdr_fattr_enc xdr_fattr_dec
  xdr_sattr_enc xdr_sattr_dec xdr_filename_enc xdr_filename_dec xdr_nfspath_enc
  xdr_nfspath_dec xdr_res_enc xdr_res_dec xdr_attrstat_enc xdr_attrstat_dec
  xdr_sattrargs_enc xdr_sattrargs_dec xdr_diropargs_enc xdr_diropargs_dec
  xdr_diropokres_enc xdr_diropokres_dec xdr_diropres_enc xdr_diropres_dec
  xdr_readlinkres_enc xdr_readlinkres_dec xdr_readargs_enc xdr_readargs_dec
  xdr_readokres_enc xdr_readokres_dec xdr_readres_enc xdr_readres_dec xdr_writeargs_enc
  xdr_writeargs_dec xdr_writeargssb_enc xdr_createargs_enc xdr_createargs_dec
  xdr_renameargs_enc xdr_renameargs_dec xdr_linkargs_enc xdr_linkargs_dec
  xdr_symlinkargs_enc xdr_symlinkargs_dec xdr_nfscookie_enc xdr_nfscookie_dec
  xdr_readdirargs_enc xdr_readdirargs_dec xdr_entry_enc xdr_entry_dec xdr_entries_dec
  xdr_dirlist_enc xdr_dirlist_dec xdr_readdirres_enc xdr_readdirres_dec
  xdr_statfsokres_enc xdr_statfsokres_dec xdr_statfsres_enc xdr_statfsres_dec
  xdr_u_int_enc xdr_u_int_dec xdr_bool_enc xdr_bool_dec
  : typeclass_instances.

Lemma dec_eq {A} (d : DEC A) b x n n' : dec_ok d b x n -> n = n' -> dec_ok d b x n'.
Proof. by intros ? <-. Qed.

(** One component, a sequence of them, and the acceptance of a sequence. *)
Ltac xdr_enc_step := first [by apply cd_enc | by apply enc_bytes | by apply enc_string].
Ltac xdr_enc := repeat (apply enc_seq; [xdr_enc_step|]); xdr_enc_step.

Ltac xdr_dec_step := first [by apply cd_dec | by apply dec_bytes | by apply dec_string].
Ltac xdr_dec_go :=
  lazymatch goal with
  | |- dec_ok (dbind ?d (fun x => dret (@?f x))) _ _ _ => eapply (dec_map d f); xdr_dec_step
  | |- dec_ok (dbind ?d ?k) _ _ _ => eapply (dec_bind d k); [xdr_dec_step|cbv beta; xdr_dec_go]
  end.
Ltac xdr_dec := eapply dec_eq; [xdr_dec_go|simpl; lia].

Ltac xdr_safe_go :=
  lazymatch goal with
  | |- dec_safe (dbind ?d ?k) _ =>
      eapply (safe_bind d k); [first [apply cd_safe | by apply safe_bytes]|intros ? ?; cbv beta; xdr_safe_go]
  | |- dec_safe (dret _) _ => apply safe_ret
  end.

(** ** Simple types *)

#[export] Instance u_int_codec : Codec xdr_u_int_enc xdr_u_int_dec be32 u32_ok (fun _ => 0%nat).
Proof. split; [intros; apply enc_u_long|intros; by apply dec_u_long|apply safe_u_long]. Qed.

#[export] Instance nfsstat_codec :
  Codec xdr_nfsstat_enc xdr_nfsstat_dec be32 s32_ok (fun _ => 0%nat).
Proof. split; [intros; apply enc_enum|intros; by apply dec_enum|apply safe_enum]. Qed.

#[export] Instance ftype_codec : Codec xdr_ftype_enc xdr_ftype_dec be32 s32_ok (fun _ => 0%nat).
Proof. split; [intros; apply enc_enum|intros; by apply dec_enum|apply safe_enum]. Qed.

#[export] Instance bool_codec :
  Codec xdr_bool_enc xdr_bool_dec w_bool (fun _ => True) (fun _ => 0%nat).
Proof. split; [intros; apply enc_bool|intros; by apply dec_bool|apply safe_bool]. Qed.

Definition fh_ok (f : nfs_fh) : Prop := zlen f = NFS_FHSIZE.
#[export] Instance nfs_fh_codec :
  Codec xdr_nfs_fh_enc xdr_nfs_fh_dec w_opaque fh_ok (fun _ => 0%nat).
Proof. split; [intros; by apply enc_fixed|intros; by apply dec_opaque|by apply safe_opaque]. Qed.

Definition cookie_ok (c : nfscookie) : Prop := zlen c = NFS_COOKIESIZE.
#[export] Instance nfscookie_codec :
  Codec xdr_nfscookie_enc xdr_nfscookie_dec w_opaque cookie_ok (fun _ => 0%nat).
Proof. split; [intros; by apply enc_fixed|intros; by apply dec_opaque|by apply safe_opaque]. Qed.

#[export] Instance filename_codec :
  Codec xdr_filename_enc xdr_filename_dec w_counted (str_ok NFS_MAXNAMLEN) (fun _ => 1%nat).
Proof. split; [intros x []; by apply enc_string|intros; by apply dec_string|by apply safe_string]. Qed.

#[export] Instance nfspath_codec :
  Codec xdr_nfspath_enc xdr_nfspath_dec w_counted (str_ok NFS_MAXPATHLEN) (fun _ => 1%nat).
Proof. split; [intros x []; by apply enc_string|intros; by apply dec_string|by apply safe_string]. Qed.

(** ** Structures in line *)

Definition nfstime_ok (t : nfstime) : Prop := u32_ok (nt_seconds t) /\ u32_ok (nt_useconds t).
Definition w_nfstime (t : nfstime) : list byte := be32 (nt_seconds t) ++ be32 (nt_useconds t).

#[export] Instance nfstime_codec :
  Codec xdr_nfstime_enc xdr_nfstime_dec w_nfstime nfstime_ok (fun _ => 0%nat).
Proof.
  split.
  - intros x []. unfold xdr_nfstime_enc. xdr_enc.
  - intros [s u] []. unfold xdr_nfstime_dec. xdr_dec.
  - unfold xdr_nfstime_dec. by xdr_safe_go.
Qed.

Definition w_words (ls : list Z) : list byte := concat (be32 <$> ls).

Definition w_fattr (a : fattr) : list byte := w_words (fattr_words a).
Definition w_sattr (a : sattr) : list byte := w_words (sattr_words a).
Definition w_statfsokres (a : statfsokres) : list byte := w_words (statfs_words a).

(** A routine that writes the words of a structure in line and reads them
    into it again. *)
Lemma inline_codec {A} (words : A -> list Z) (of_words : list Z -> DEC A) (n : nat) (ok : A -> Prop) enc dec :
  enc = (fun x => xdrmem_inline_put (4 * Z.of_nat n) (words x)) ->
  dec = dbind (xdrmem_inline_get (4 * Z.of_nat n)) of_words ->
  (forall x, length (words x) = n) ->
  (forall x, ok x -> of_words (s32 <$> words x) = dret x) ->
  (forall ls, length ls = n -> Forall s32_ok ls -> dec_safe (of_words ls) ok) ->
  Codec enc dec (fun x => w_words (words x)) ok (fun _ => 0%nat).
Proof.
  intros -> -> Hn Hof Hs. split.
  - intros x _. apply enc_inline. by rewrite <-(Hn x).
  - intros x Hx. rewrite <-(app_nil_r (w_words (words x))).
  eapply (dec_bind _ _ _ _ _ _ 0 0); [apply dec_inline; by rewrite <-(Hn x)|].
  rewrite Hof by done. apply dec_ret.
  - eapply safe_bind; [by apply (safe_inline _ n)|]. intros ls []. by apply Hs.
Qed.

Definition fattr_ok (a : fattr) : Prop :=
  s32_ok (fa_type a) /\ u32_ok (fa_mode a) /\ u32_ok (fa_nlink a) /\ u32_ok (fa_uid a) /\
  u32_ok (fa_gid a) /\ u32_ok (fa_size a) /\ u32_ok (fa_blocksize a) /\ u32_ok (fa_rdev a) /\
  u32_ok (fa_blocks a) /\ u32_ok (fa_fsid a) /\ u32_ok (fa_fileid a) /\
  nfstime_ok (fa_atime a) /\ nfstime_ok (fa_mtime a) /\ nfstime_ok (fa_ctime a).
Definition sattr_ok (a : sattr) : Prop :=
  u32_ok (sa_mode a) /\ u32_ok (sa_uid a) /\ u32_ok (sa_gid a) /\ u32_ok (sa_size a) /\
  nfstime_ok (sa_atime a) /\ nfstime_ok (sa_mtime a).
Definition statfsokres_ok (a : statfsokres) : Prop :=
  u32_ok (sf_tsize a) /\ u32_ok (sf_bsize a) /\ u32_ok (sf_blocks a) /\ u32_ok (sf_bfree a) /\
  u32_ok (sf_bavail a).

Lemma u32_of_s32 z : u32_ok z -> u32 (s32 z) = z.
Proof. intros Hz. rewrite u32_s32. by apply u32_id. Qed.

Lemma s32_of_s32 z : s32_ok z -> s32 z = z.
Proof. apply s32_id. Qed.

Ltac words_ok :=
  repeat match goal with
  | H : Forall _ (_ :: _) |- _ => apply Forall_cons in H as [? H]
  end; repeat first [apply u32_range | assumption | split].

Lemma words_cons {A} (ls : list A) n : length ls = S n -> exists x l, ls = x :: l /\ length l = n.
Proof. destruct ls; simpl; [done|]. intros [= <-]. eauto. Qed.

Ltac split_words :=
  repeat match goal with
  | H : length ?ls = S _ |- _ => apply words_cons in H as (? & ? & -> & H)
  | H : length ?ls = O |- _ => apply nil_length_inv in H as ->
  end.

#[export] Instance fattr_codec :
  Codec xdr_fattr_enc xdr_fattr_dec w_fattr fattr_ok (fun _ => 0%nat).
Proof.
  eapply inline_codec with (n := 17%nat); [reflexivity|reflexivity|done| |].
  - intros [] Hok. unfold fattr_ok, nfstime_ok in Hok. decompose [and] Hok. simpl in *.
  rewrite !u32_of_s32 by done. rewrite s32_of_s32 by done. by do 3 match goal with t : nfstime |- _ => destruct t end.
  - intros ls Hl HF. split_words. apply safe_ret. words_ok.
Qed.

#[export] Instance sattr_codec :
  Codec xdr_sattr_enc xdr_sattr_dec w_sattr sattr_ok (fun _ => 0%nat).
Proof.
  eapply inline_codec with (n := 8%nat); [reflexivity|reflexivity|done| |].
  - intros [] Hok. unfold sattr_ok, nfstime_ok in Hok. decompose [and] Hok. simpl in *.
  rewrite !u32_of_s32 by done. by do 2 match goal with t : nfstime |- _ => destruct t end.
  - intros ls Hl HF. split_words. apply safe_ret. words_ok.
Qed.

#[export] Instance statfsokres_codec :
  Codec xdr_statfsokres_enc xdr_statfsokres_dec w_statfsokres statfsokres_ok (fun _ => 0%nat).
Proof.
  eapply inline_codec with (n := 5%nat); [reflexivity|reflexivity|done| |].
  - intros [] Hok. unfold statfsokres_ok in Hok. decompose [and] Hok. simpl in *.
  by rewrite !u32_of_s32 by done.
  - intros ls Hl HF. split_words. apply safe_ret. words_ok.
Qed.

(** ** Result unions *)

Definition w_res {A} (wire : A -> list byte) (r : nfsres A) : list byte :=
  match r with NfsOk a => be32 NFS_OK ++ wire a | NfsErr s => be32 s end.
Definition res_ok {A} (ok : A -> Prop) (r : nfsres A) : Prop :=
  match r with NfsOk a => ok a | NfsErr s => s32_ok s /\ s <> NFS_OK end.
Definition res_alloc {A} (alloc : A -> nat) (r : nfsres A) : nat :=
  match r with NfsOk a => alloc a | NfsErr _ => 0 end.

Lemma res_codec {A} (enc : A -> ENC) dec wire ok alloc : Codec enc dec wire ok alloc ->
  Codec (xdr_res_enc enc) (xdr_res_dec dec) (w_res wire) (res_ok ok) (res_alloc alloc).
Proof.
  intros HC. split.
  - intros [a|s] H; cbn [xdr_res_enc w_res res_ok] in *; [|apply cd_enc; by destruct H].
  apply enc_seq; [by apply (cd_enc (enc := xdr_nfsstat_enc))|by apply cd_enc].
  - intros [a|s] H; cbn [w_res res_ok res_alloc] in *; unfold xdr_res_dec.
  + apply (dec_bind _ _ _ _ NFS_OK _ 0); [by apply dec_enum|]. simpl.
  apply (dec_map dec NfsOk). by apply cd_dec.
  + destruct H as [Hs Hne]. rewrite <-(app_nil_r (be32 s)).
  apply (dec_bind _ _ _ _ s _ 0 0); [by apply dec_enum|].
  rewrite (proj2 (Z.eqb_neq _ _)) by done. apply dec_ret.
  - eapply safe_bind; [apply (cd_safe (enc := xdr_nfsstat_enc))|]. intros s Hs.
  apply safe_if; intros E; zbool; [|by apply safe_ret].
  eapply safe_bind; [apply cd_safe|]. intros a Ha. by apply safe_ret.
Qed.

#[export] Instance attrstat_codec : Codec xdr_attrstat_enc xdr_attrstat_dec _ _ _ := res_codec _ _ _ _ _ fattr_codec.
#[export] Instance readlinkres_codec : Codec xdr_readlinkres_enc xdr_readlinkres_dec _ _ _ :=
  res_codec _ _ _ _ _ nfspath_codec.
#[export] Instance statfsres_codec : Codec xdr_statfsres_enc xdr_statfsres_dec _ _ _ :=
  res_codec _ _ _ _ _ statfsokres_codec.

(** ** Structures of several components *)

(** A structure: [x] taken apart, its routines as sequences. *)
Ltac components H :=
  hnf in H; repeat match type of H with _ /\ _ => let H1 := fresh in destruct H as [H1 H] end.
Ltac codec_struct encdef decdef :=
  split;
  [ intros x Hx; unfold encdef; components Hx; cbv beta; xdr_enc
  | intros x Hx; destruct x; components Hx; unfold decdef; cbv beta; xdr_dec
  | unfold decdef; xdr_safe_go; repeat first [assumption | apply conj] ].

Definition sattrargs_ok (x : sattrargs) : Prop := fh_ok (sga_file x) /\ sattr_ok (sga_attributes x).
Definition w_sattrargs (x : sattrargs) : list byte := w_opaque (sga_file x) ++ w_sattr (sga_attributes x).
#[export] Instance sattrargs_codec :
  Codec xdr_sattrargs_enc xdr_sattrargs_dec w_sattrargs sattrargs_ok (fun _ => 0%nat).
Proof. codec_struct xdr_sattrargs_enc xdr_sattrargs_dec. Qed.

Definition diropargs_ok (x : diropargs) : Prop := fh_ok (da_dir x) /\ str_ok NFS_MAXNAMLEN (da_name x).
Definition w_diropargs (x : diropargs) : list byte := w_opaque (da_dir x) ++ w_counted (da_name x).
#[export] Instance diropargs_codec :
  Codec xdr_diropargs_enc xdr_diropargs_dec w_diropargs diropargs_ok (fun _ => 1%nat).
Proof. codec_struct xdr_diropargs_enc xdr_diropargs_dec. Qed.

Definition diropokres_ok (x : diropokres) : Prop := fh_ok (do_file x) /\ fattr_ok (do_attributes x).
Definition w_diropokres (x : diropokres) : list byte := w_opaque (do_file x) ++ w_fattr (do_attributes x).
#[export] Instance diropokres_codec :
  Codec xdr_diropokres_enc xdr_diropokres_dec w_diropokres diropokres_ok (fun _ => 0%nat).
Proof. codec_struct xdr_diropokres_enc xdr_diropokres_dec. Qed.
#[export] Instance diropres_codec : Codec xdr_diropres_enc xdr_diropres_dec _ _ _ :=
  res_codec _ _ _ _ _ diropokres_codec.

Definition readargs_ok (x : readargs) : Prop :=
  fh_ok (ra_file x) /\ u32_ok (ra_offset x) /\ u32_ok (ra_count x) /\ u32_ok (ra_totalcount x).
Definition w_readargs (x : readargs) : list byte :=
  w_opaque (ra_file x) ++ be32 (ra_offset x) ++ be32 (ra_count x) ++ be32 (ra_totalcount x).
#[export] Instance readargs_codec :
  Codec xdr_readargs_enc xdr_readargs_dec w_readargs readargs_ok (fun _ => 0%nat).
Proof. codec_struct xdr_readargs_enc xdr_readargs_dec. Qed.

Definition data_ok (d : list byte) : Prop := zlen d <= NFS_MAXDATA.
Definition readokres_ok (x : readokres) : Prop := fattr_ok (ro_attributes x) /\ data_ok (ro_data x).
Definition w_readokres (x : readokres) : list byte := w_fattr (ro_attributes x) ++ w_counted (ro_data x).
#[export] Instance readokres_codec null :
  Codec xdr_readokres_enc (xdr_readokres_dec null) w_readokres readokres_ok
    (fun x => bytes_alloc null (ro_data x)).
Proof. codec_struct xdr_readokres_enc xdr_readokres_dec. Qed.
#[export] Instance readres_codec null : Codec xdr_readres_enc (xdr_readres_dec null) _ _ _ :=
  res_codec _ _ _ _ _ (readokres_codec null).

Definition writeargs_ok (x : writeargs) : Prop :=
  fh_ok (wa_file x) /\ u32_ok (wa_beginoffset x) /\ u32_ok (wa_offset x) /\
  u32_ok (wa_totalcount x) /\ data_ok (wa_data x).
Definition w_writeargs (x : writeargs) : list byte :=
  w_opaque (wa_file x) ++ be32 (wa_beginoffset x) ++ be32 (wa_offset x) ++
  be32 (wa_totalcount x) ++ w_counted (wa_data x).
#[export] Instance writeargs_codec null :
  Codec xdr_writeargs_enc (xdr_writeargs_dec null) w_writeargs writeargs_ok
    (fun x => bytes_alloc null (wa_data x)).
Proof. codec_struct xdr_writeargs_enc xdr_writeargs_dec. Qed.

Definition createargs_ok (x : createargs) : Prop :=
  diropargs_ok (ca_where x) /\ sattr_ok (ca_attributes x).
Definition w_createargs (x : createargs) : list byte :=
  w_diropargs (ca_where x) ++ w_sattr (ca_attributes x).
#[export] Instance createargs_codec :
  Codec xdr_createargs_enc xdr_createargs_dec w_createargs createargs_ok (fun _ => 1%nat).
Proof. codec_struct xdr_createargs_enc xdr_createargs_dec. Qed.

Definition renameargs_ok (x : renameargs) : Prop :=
  diropargs_ok (rna_from x) /\ diropargs_ok (rna_to x).
Definition w_renameargs (x : renameargs) : list byte :=
  w_diropargs (rna_from x) ++ w_diropargs (rna_to x).
#[export] Instance renameargs_codec :
  Codec xdr_renameargs_enc xdr_renameargs_dec w_renameargs renameargs_ok (fun _ => 2%nat).
Proof. codec_struct xdr_renameargs_enc xdr_renameargs_dec. Qed.

Definition linkargs_ok (x : linkargs) : Prop := fh_ok (la_from x) /\ diropargs_ok (la_to x).
Definition w_linkargs (x : linkargs) : list byte := w_opaque (la_from x) ++ w_diropargs (la_to x).
#[export] Instance linkargs_codec :
  Codec xdr_linkargs_enc xdr_linkargs_dec w_linkargs linkargs_ok (fun _ => 1%nat).
Proof. codec_struct xdr_linkargs_enc xdr_linkargs_dec. Qed.

Definition symlinkargs_ok (x : symlinkargs) : Prop :=
  diropargs_ok (sla_from x) /\ str_ok NFS_MAXPATHLEN (sla_to x) /\ sattr_ok (sla_attributes x).
Definition w_symlinkargs (x : symlinkargs) : list byte :=
  w_diropargs (sla_from x) ++ w_counted (sla_to x) ++ w_sattr (sla_attributes x).
#[export] Instance symlinkargs_codec :
  Codec xdr_symlinkargs_enc xdr_symlinkargs_dec w_symlinkargs symlinkargs_ok (fun _ => 2%nat).
Proof. codec_struct xdr_symlinkargs_enc xdr_symlinkargs_dec. Qed.

Definition readdirargs_ok (x : readdirargs) : Prop :=
  fh_ok (rda_dir x) /\ cookie_ok (rda_cookie x) /\ u32_ok (rda_count x).
Definition w_readdirargs (x : readdirargs) : list byte :=
  w_opaque (rda_dir x) ++ w_opaque (rda_cookie x) ++ be32 (rda_count x).
#[export] Instance readdirargs_codec :
  Codec xdr_readdirargs_enc xdr_readdirargs_dec w_readdirargs readdirargs_ok (fun _ => 0%nat).
Proof. codec_struct xdr_readdirargs_enc xdr_readdirargs_dec. Qed.

(** ** Directory listings *)

Definition entry_ok (e : entry) : Prop :=
  u32_ok (e_fileid e) /\ str_ok NFS_MAXNAMLEN (e_name e) /\ cookie_ok (e_cookie e).
Definition w_entry (e : entry) : list byte :=
  be32 (e_fileid e) ++ w_counted (e_name e) ++ w_opaque (e_cookie e).
Fixpoint w_entries (l : list entry) : list byte :=
  match l with
  | [] => w_bool false
  | e :: l => w_bool true ++ w_entry e ++ w_entries l
  end.

Lemma enc_entries l : Forall entry_ok l -> enc_ok (xdr_entries_enc l) (w_entries l).
Proof.
  induction l as [|e l IH]; intros H.
  - cbn [xdr_entries_enc w_entries]. rewrite <-(app_nil_r (w_bool false)).
  apply enc_seq; [apply enc_bool|apply enc_nop].
  - apply Forall_cons in H as [(H1 & H2 & H3) H]. cbn [xdr_entries_enc w_entries].
  apply enc_seq; [apply enc_bool|]. unfold w_entry. rewrite <-!app_assoc.
  repeat (apply enc_seq; [xdr_enc_step|]). by apply IH.
Qed.

Lemma dec_entries l : forall fuel, (length l < fuel)%nat -> Forall entry_ok l ->
  dec_ok (xdr_entries_fuel fuel) (w_entries l) l (2 * length l).
Proof.
  induction l as [|e l IH]; intros [|fuel] Hf H; simpl in Hf; try lia;
    cbn [xdr_entries_fuel w_entries]; unfold xdr_pointer_dec.
  - rewrite <-(app_nil_r (w_bool false)).
  apply (dec_bind _ _ _ _ false [] 0 0); [apply dec_bool|apply dec_ret].
  - apply Forall_cons in H as [(H1 & H2 & H3) H].
  eapply dec_eq; [apply (dec_bind _ _ _ _ true (e :: l) 0 (S (S (2 * length l)))); [apply dec_bool|]|simpl; lia].
  simpl negb. cbv iota. apply dec_alloc. unfold w_entry. rewrite <-!app_assoc.
  eapply dec_eq; [unfold xdr_entry_dec|].
  + eapply dec_bind; [by apply cd_dec|]. cbv beta. eapply dec_bind; [by apply cd_dec|]. cbv beta.
  eapply dec_bind; [by apply cd_dec|]. cbv beta.
  replace (e :: l) with ((fun next => Entry (e_fileid e) (e_name e) (e_cookie e) :: next) l) by (by destruct e).
  apply (dec_map _ (fun next => _ :: next)). apply IH; [lia|done].
  + simpl. lia.
Qed.

Lemma w_entries_length l : (length l < length (w_entries l))%nat.
Proof.
  induction l as [|e l IH]; [change (0 < 4)%nat; lia|]. cbn [w_entries length]. rewrite !length_app.
  change (length (w_bool true)) with 4%nat. lia.
Qed.

Lemma safe_entries fuel : dec_safe (xdr_entries_fuel fuel) (Forall entry_ok).
Proof.
  induction fuel as [|fuel IH]; cbn [xdr_entries_fuel]; [apply safe_fail|].
  eapply safe_bind; [apply safe_bool|]. intros b _.
  apply safe_if; intros _; [by apply safe_ret|].
  eapply safe_bind; [apply safe_alloc|]. intros _ _. unfold xdr_entry_dec.
  eapply safe_bind; [apply cd_safe|]. intros fileid H1. eapply safe_bind; [apply cd_safe|]. intros name H2.
  eapply safe_bind; [apply cd_safe|]. intros cookie H3. eapply safe_bind; [apply IH|]. intros next H4.
  apply safe_ret. by constructor.
Qed.

#[export] Instance entries_codec : Codec xdr_entries_enc xdr_entries_dec w_entries (Forall entry_ok)
  (fun l => (2 * length l)%nat).
Proof.
  split; [apply enc_entries| |].
  - intros l Hl rest m. unfold xdr_entries_dec. apply dec_entries; [|done]. simpl.
  rewrite length_app. pose proof (w_entries_length l). lia.
  - intros s x s' H. by eapply safe_entries.
Qed.

Definition dirlist_ok (d : dirlist) : Prop := Forall entry_ok (dl_entries d) /\ True.
Definition w_dirlist (d : dirlist) : list byte := w_entries (dl_entries d) ++ w_bool (dl_eof d).
#[export] Instance dirlist_codec : Codec xdr_dirlist_enc xdr_dirlist_dec w_dirlist dirlist_ok
  (fun d => (2 * length (dl_entries d))%nat).
Proof. codec_struct xdr_dirlist_enc xdr_dirlist_dec. Qed.
#[export] Instance readdirres_codec : Codec xdr_readdirres_enc xdr_readdirres_dec _ _ _ :=
  res_codec _ _ _ _ _ dirlist_codec.
