(* ===== verification/NfsXdrThm.v ===== *)
(** * Theorems about the representation

    The routines of every procedure of the protocol encode within their
    buffer, decode what they encode, and accept nothing ill-formed; two places
    where the client relies on more than that. *)
From S2P Require Import Prelude NfsProt Xdr XdrSpec NfsXdr NfsXdrSpec.

(** C30: The arguments of every call.  Each routine writes exactly the
    representation of its argument when there is room for it in the buffer and
    fails otherwise, its decoder gives the argument back whatever follows, and
    whatever a decoder accepts is whole units of bytes and a value that the
    protocol allows. *)
Theorem xdr_arguments_correct :
  Codec xdr_nfs_fh_enc xdr_nfs_fh_dec w_opaque fh_ok (fun _ => 0%nat) /\
  Codec xdr_sattrargs_enc xdr_sattrargs_dec w_sattrargs sattrargs_ok (fun _ => 0%nat) /\
  Codec xdr_diropargs_enc xdr_diropargs_dec w_diropargs diropargs_ok (fun _ => 1%nat) /\
  Codec xdr_readargs_enc xdr_readargs_dec w_readargs readargs_ok (fun _ => 0%nat) /\
  (forall null, Codec xdr_writeargs_enc (xdr_writeargs_dec null) w_writeargs writeargs_ok
                  (fun x => bytes_alloc null (wa_data x))) /\
  Codec xdr_createargs_enc xdr_createargs_dec w_createargs createargs_ok (fun _ => 1%nat) /\
  Codec xdr_renameargs_enc xdr_renameargs_dec w_renameargs renameargs_ok (fun _ => 2%nat) /\
  Codec xdr_linkargs_enc xdr_linkargs_dec w_linkargs linkargs_ok (fun _ => 1%nat) /\
  Codec xdr_symlinkargs_enc xdr_symlinkargs_dec w_symlinkargs symlinkargs_ok (fun _ => 2%nat) /\
  Codec xdr_readdirargs_enc xdr_readdirargs_dec w_readdirargs readdirargs_ok (fun _ => 0%nat).
Proof. repeat (apply conj; [try intros ?; exact _|]). exact _. Qed.

(** C29: The results of every call, likewise: the arm of the union that the
    status selects, the attributes, the data of a read, and directory listings
    of any length, whose entries are decoded at most as deep as the reply is
    long. *)
Theorem xdr_results_correct :
  Codec xdr_nfsstat_enc xdr_nfsstat_dec be32 s32_ok (fun _ => 0%nat) /\
  Codec xdr_attrstat_enc xdr_attrstat_dec (w_res w_fattr) (res_ok fattr_ok)
    (res_alloc (fun _ => 0%nat)) /\
  Codec xdr_diropres_enc xdr_diropres_dec (w_res w_diropokres) (res_ok diropokres_ok)
    (res_alloc (fun _ => 0%nat)) /\
  Codec xdr_readlinkres_enc xdr_readlinkres_dec (w_res w_counted) (res_ok (str_ok NFS_MAXPATHLEN))
    (res_alloc (fun _ => 1%nat)) /\
  (forall null, Codec xdr_readres_enc (xdr_readres_dec null) (w_res w_readokres) (res_ok readokres_ok)
                  (res_alloc (fun x => bytes_alloc null (ro_data x)))) /\
  Codec xdr_readdirres_enc xdr_readdirres_dec (w_res w_dirlist) (res_ok dirlist_ok)
    (res_alloc (fun d => (2 * length (dl_entries d))%nat)) /\
  Codec xdr_statfsres_enc xdr_statfsres_dec (w_res w_statfsokres) (res_ok statfsokres_ok)
    (res_alloc (fun _ => 0%nat)).
Proof. repeat (apply conj; [try intros ?; exact _|]). exact _. Qed.

(** A value sent by one side arrives at the other: encoded into a buffer
    with room for it, and decoded from it with enough memory, any value comes
    out as it went in and the decoder uses up exactly what the encoder wrote. *)
Theorem xdr_roundtrip {A} (enc : A -> ENC) dec wire ok alloc x cap e m rest :
  Codec enc dec wire ok alloc -> ok x -> 0 <= cap -> enc x (MkXDRE [] cap) = Some e ->
  zlen (xe_out e) + xe_handy e = cap /\
  dec (MkXDRD (xe_out e ++ rest) (alloc x + m)) = Some (x, MkXDRD rest m).
Proof.
  intros HC Hok Hcap He. rewrite (cd_enc (enc := enc) (dec := dec) x Hok) in He by done. simpl in He.
  destruct (zlen (wire x) <=? cap); [|done]. injection He as <-. simpl. split; [lia|].
  by apply (cd_dec (enc := enc) (dec := dec)).
Qed.

Definition readdir_reply : readdirres :=
  NfsOk (DirList [Entry 7 [x61; x62] [x00; x00; x00; x01]; Entry 9 [x2e] [x00; x00; x00; x02]] true).

Lemma readdir_reply_ok : res_ok dirlist_ok readdir_reply.
Proof.
  assert (H : forall bs, bs = [x61; x62] \/ bs = [x2e] -> str_ok NFS_MAXNAMLEN bs).
  { intros bs [-> | ->]; (split; [vm_compute; discriminate|]); intros Hi;
      repeat (apply elem_of_cons in Hi as [?|Hi]; [discriminate|]); by apply elem_of_nil in Hi. }
  split; [|done]. repeat constructor; try apply H; try tauto; try done.
Qed.

Lemma xdr_roundtrip_witness :
  exists e, xdr_readdirres_enc readdir_reply (MkXDRE [] 100) = Some e /\
    xdr_readdirres_dec (MkXDRD (xe_out e) 4) = Some (readdir_reply, MkXDRD [] 0).
Proof.
  destruct (xdr_readdirres_enc readdir_reply (MkXDRE [] 100)) as [e|] eqn:E; [|vm_compute in E; discriminate].
  exists e. split; [reflexivity|].
  destruct (xdr_roundtrip xdr_readdirres_enc xdr_readdirres_dec _ _ _ readdir_reply 100 e 0 []
              readdirres_codec readdir_reply_ok) as [_ H]; [lia|exact E|].
  rewrite app_nil_r in H. exact H.
Defined.

(** ** Writes without the data *)

Lemma writeargssb_ok x : writeargs_ok x ->
  exists hdr, enc_ok (xdr_writeargssb_enc x) hdr /\ w_writeargs x = hdr ++ wa_data x ++ pad (wa_data x).
Proof.
  intros (H1 & H2 & H3 & H4 & H5). eexists. split.
  - unfold xdr_writeargssb_enc. repeat (apply enc_seq; [by apply cd_enc|]).
  apply (cd_enc (enc := xdr_u_int_enc)). pose proof (zlen_nonneg (wa_data x)).
  unfold data_ok, NFS_MAXDATA in H5. split; lia.
  - unfold w_writeargs, w_counted, w_opaque. by rewrite <-!app_assoc.
Qed.

(** xdr_writeargssb, which leaves the data to the transport, writes what
    xdr_writeargs writes before the data; the transport completes the call by
    the data and the bytes that fill up the last unit, none of them when the
    length is a multiple of four. *)
Theorem xdr_writeargssb_prefix x : writeargs_ok x ->
  exists hdr, enc_ok (xdr_writeargssb_enc x) hdr /\
    w_writeargs x = hdr ++ wa_data x ++ pad (wa_data x) /\
    (zlen (wa_data x) mod 4 = 0 -> w_writeargs x = hdr ++ wa_data x).
Proof.
  intros Hx. destruct (writeargssb_ok x Hx) as (hdr & H1 & H2). exists hdr.
  split; [done|]. split; [done|]. intros Hm. rewrite H2. do 2 f_equal.
  assert (pad (wa_data x) = []) as ->; [|by rewrite app_nil_r].
  apply zlen_0. rewrite zlen_pad. unfold xdr_rndup, BYTES_PER_XDR_UNIT. by rewrite Hm.
Qed.

Definition write5 : writeargs := WriteArgs (replicate 32 x01) 0 0 0 (replicate 5 x07).
Definition write8 : writeargs := WriteArgs (replicate 32 x01) 0 0 0 (replicate 8 x07).

Lemma write8_ok : writeargs_ok write8.
Proof. repeat split; vm_compute; (reflexivity || discriminate). Qed.

Lemma xdr_writeargssb_prefix_witness :
  exists hdr, enc_ok (xdr_writeargssb_enc write8) hdr /\ w_writeargs write8 = hdr ++ replicate 8 x07.
Proof.
  destruct (xdr_writeargssb_prefix write8 write8_ok) as (hdr & H1 & _ & H2).
  exists hdr. split; [exact H1|]. apply H2. reflexivity.
Defined.

(** What nfsproc_send_writesb_2 puts on the wire for the arguments: the
    header and the data as they are. *)
Definition sendsb_wire (x : writeargs) : option (list byte) :=
  e ← xdr_writeargssb_enc x (MkXDRE [] 400); Some (xe_out e ++ wa_data x).

(** clntaudp_sendsb sends the data as they are, without the bytes that
    fill up the last unit, so a write whose length is not a multiple of four is
    not a representation of its arguments: the routine for them rejects it,
    while it accepts one of eight bytes. *)
Theorem sendsb_misses_padding :
  (bs ← sendsb_wire write5; xdr_writeargs_dec false (MkXDRD bs 0)) = None /\
  (bs ← sendsb_wire write8; xdr_writeargs_dec false (MkXDRD bs 0)) = Some (write8, MkXDRD [] 0).
Proof. split; vm_compute; reflexivity. Qed.

(** xdr_readres bounds the data of a reply by NFS_MAXDATA only, not by the
    buffer that the caller of nfsproc_read_buf gave for the bytes it asked
    for: up to 8192 bytes are stored there whatever the request was. *)
Theorem read_reply_not_bounded_by_request a data :
  fattr_ok a -> zlen data = NFS_MAXDATA ->
  exists bs, xdr_readres_dec false (MkXDRD bs 0) = Some (NfsOk (ReadOkRes a data), MkXDRD [] 0).
Proof.
  intros Ha Hd. exists (w_res w_readokres (NfsOk (ReadOkRes a data))).
  rewrite <-(app_nil_r (w_res _ _)). refine (cd_dec (Codec := readres_codec false) (NfsOk (ReadOkRes a data)) _ [] 0%nat).
  split; [done|]. unfold data_ok; simpl. lia.
Qed.

Definition attr0 : fattr :=
  FAttr 1 0 0 0 0 0 0 0 0 0 0 (NfsTime 0 0) (NfsTime 0 0) (NfsTime 0 0).

Lemma attr0_ok : fattr_ok attr0.
Proof. repeat split; vm_compute; (reflexivity || discriminate). Qed.

Lemma read_reply_not_bounded_by_request_witness :
  exists bs, xdr_readres_dec false (MkXDRD bs 0)
    = Some (NfsOk (ReadOkRes attr0 (replicate (Z.to_nat 8192) x00)), MkXDRD [] 0).
Proof. apply (read_reply_not_bounded_by_request attr0 _ attr0_ok). reflexivity. Defined.
