(* ===== verification/XdrMem.v ===== *)
(** * The memory of decoded results (ch_nfs_prot_xdr.c, ch_nfs_prot_clnt.c)

    The routines of Xdr.v and NfsXdr.v give values; here those that allocate, strings
    and the list of a directory, work on a heap, in both directions of x_op that matter
    to it: XDR_DECODE, which may stop half-way and leave a part of the list, and
    XDR_FREE.  nfsproc_readdir_2 frees the list of its previous call and agrees a new
    one; nfsproc_readlink_2 only agrees.

    [xdr_entries_ok] shows that decoding on the heap is the decoding of NfsXdr.v and
    that what it leaves, even when it fails, is a list, of which [xdr_entries_free_ok]
    gives back every block, once.  So the stub of READDIR holds one list at a time
    ([readdir_memory]), and that of READLINK one string more after every call
    ([readlink_leaks]).  A loop over a list has one step for every word of the
    stream, and one for every block of the heap. *)
From S2P Require Import Prelude NfsProt Xdr XdrSpec NfsXdr NfsXdrSpec.

(** What mem_alloc gave: a string up to its first zero, or an entry. *)
Inductive hblock :=
  | BStr (s : list byte)
  | BEntry (fileid : Z) (name : option addr) (cookie : nfscookie) (nextentry : option addr).

(** The stream, the heap, and the status and the pointer of the static result. *)
Record MemX := MkMemX {
  mx_stream : XDRD; mx_heap : gmap addr hblock; mx_status : Z; mx_res : option addr
}.

Definition set_stream (s : XDRD) (x : MemX) : MemX := MkMemX s (mx_heap x) (mx_status x) (mx_res x).
Definition set_heap (h : gmap addr hblock) (x : MemX) : MemX := MkMemX (mx_stream x) h (mx_status x) (mx_res x).
Definition set_status (n : Z) (x : MemX) : MemX := MkMemX (mx_stream x) (mx_heap x) n (mx_res x).
Definition set_result (p : option addr) (x : MemX) : MemX := MkMemX (mx_stream x) (mx_heap x) (mx_status x) p.

(** A routine gives FALSE ([inner None]) or a value; [None] is undefined. *)
Definition HX (A : Type) : Type := MemX -> option (option A * MemX).
Definition hret {A} (a : A) : HX A := fun x => Some (Some a, x).
Definition hfail {A} : HX A := fun x => Some (None, x).
Definition hbind {A B} (d : HX A) (k : A -> HX B) : HX B :=
  fun x => '(r, x) ← d x; match r with Some a => k a x | None => Some (None, x) end.
Notation "x <- d ;; k" := (hbind d (fun x => k))
  (at level 100, d at next level, right associativity) : xdr_scope.

(** What does not allocate. *)
Definition no_alloc {A} (d : DEC A) : HX A := fun x =>
  match d (mx_stream x) with
  | Some (a, s) => Some (Some a, set_stream s x)
  | None => Some (None, x)
  end.

(** mem_alloc, and what is in the memory afterwards. *)
Definition alloc (b : hblock) : HX addr := fun x =>
  match xd_mem (mx_stream x) with
  | O => Some (None, x)
  | S m =>
      let a := fresh (dom (mx_heap x)) in
      Some (Some a, set_heap (<[a := b]> (mx_heap x)) (set_stream (MkXDRD (xd_buf (mx_stream x)) m) x))
  end.
Definition mem_free (a : addr) : HX unit := fun x =>
  match mx_heap x !! a with
  | Some _ => Some (Some tt, set_heap (delete a (mx_heap x)) x)
  | None => None
  end.

(** A place that holds a pointer. *)
Inductive cell := CRes | CName (a : addr) | CNext (a : addr).

Definition set_name_ptr (p : option addr) (b : hblock) : hblock :=
  match b with BEntry f _ k n => BEntry f p k n | _ => b end.
Definition set_next_ptr (p : option addr) (b : hblock) : hblock :=
  match b with BEntry f n k _ => BEntry f n k p | _ => b end.
Definition set_fields (f : Z -> Z) (k : nfscookie -> nfscookie) (b : hblock) : hblock :=
  match b with BEntry fid n ck nx => BEntry (f fid) n (k ck) nx | _ => b end.

Definition get_ptr (c : cell) : HX (option addr) := fun x =>
  match c with
  | CRes => Some (Some (mx_res x), x)
  | CName a => match mx_heap x !! a with Some (BEntry _ n _ _) => Some (Some n, x) | _ => None end
  | CNext a => match mx_heap x !! a with Some (BEntry _ _ _ n) => Some (Some n, x) | _ => None end
  end.
Definition upd_ptr (c : cell) (p : option addr) (x : MemX) : MemX :=
  match c with
  | CRes => set_result p x
  | CName a => set_heap (alter (set_name_ptr p) a (mx_heap x)) x
  | CNext a => set_heap (alter (set_next_ptr p) a (mx_heap x)) x
  end.
Definition put_ptr (c : cell) (p : option addr) : HX unit := fun x =>
  '(_, _) ← get_ptr c x; Some (Some tt, upd_ptr c p x).
Definition put_fields (a : addr) (f : Z -> Z) (k : nfscookie -> nfscookie) : HX unit := fun x =>
  match mx_heap x !! a with
  | Some (BEntry _ _ _ _) => Some (Some tt, set_heap (alter (set_fields f k) a (mx_heap x)) x)
  | _ => None
  end.
Definition put_str (a : addr) (s : list byte) : HX unit := fun x =>
  match mx_heap x !! a with
  | Some (BStr _) => Some (Some tt, set_heap (<[a := BStr s]> (mx_heap x)) x)
  | _ => None
  end.
Definition get_str (a : addr) : HX (list byte) := fun x =>
  match mx_heap x !! a with Some (BStr s) => Some (Some s, x) | _ => None end.

Section Memory.
(** [junk size]: the string in a hblock of which only the zero at [size] is sure, its
    bytes having not all arrived. *)
Context (junk : Z -> list byte).

(** ** XDR_DECODE *)

Definition xdr_string_mem (cpp : cell) (maxsize : Z) : HX unit :=
  size <- no_alloc xdr_u_int_dec;;
  if size >? maxsize then hfail
  else if u32 (size + 1) =? 0 then hret tt
  else
  sp <- get_ptr cpp;;
  sp <- match sp with
        | Some sp => hret sp
        | None => sp <- alloc (BStr (junk size));; _ <- put_ptr cpp (Some sp);; hret sp
        end;;
  bs <- no_alloc (xdr_opaque_dec size);;
  put_str sp (c_string bs).

(** bzero clears the new entry. *)
Definition xdr_reference_mem (pp : cell) (proc : addr -> HX unit) : HX unit :=
  loc <- get_ptr pp;;
  loc <- match loc with
         | Some loc => hret loc
         | None =>
             loc <- alloc (BEntry 0 None (replicate (Z.to_nat NFS_COOKIESIZE) x00) None);;
             _ <- put_ptr pp (Some loc);; hret loc
         end;;
  proc loc.

Definition xdr_pointer_mem (objpp : cell) (xdr_obj : addr -> HX unit) : HX unit :=
  more_data <- no_alloc xdr_bool_dec;;
  if negb more_data then put_ptr objpp None else xdr_reference_mem objpp xdr_obj.

Definition xdr_entry_mem (next : cell -> HX unit) (objp : addr) : HX unit :=
  fileid <- no_alloc xdr_u_int_dec;;
  _ <- put_fields objp (fun _ => fileid) id;;
  _ <- xdr_string_mem (CName objp) NFS_MAXNAMLEN;;
  cookie <- no_alloc xdr_nfscookie_dec;;
  _ <- put_fields objp id (fun _ => cookie);;
  next (CNext objp).

Fixpoint xdr_entries_mem (fuel : nat) (objpp : cell) : HX unit :=
  match fuel with
  | O => fun _ => None
  | S fuel => xdr_pointer_mem objpp (xdr_entry_mem (xdr_entries_mem fuel))
  end.

(** The result is whether the end of the directory was reached. *)
Definition xdr_readdirres_mem : HX bool :=
  status <- no_alloc xdr_nfsstat_dec;;
  _ <- (fun x => Some (Some tt, set_status status x));;
  if status =? NFS_OK then
    _ <- (fun x => xdr_entries_mem (S (length (xd_buf (mx_stream x)))) CRes x);;
    no_alloc xdr_bool_dec
  else hret false.

Definition xdr_readlinkres_mem : HX unit :=
  status <- no_alloc xdr_nfsstat_dec;;
  _ <- (fun x => Some (Some tt, set_status status x));;
  if status =? NFS_OK then xdr_string_mem CRes NFS_MAXPATHLEN else hret tt.

(** ** XDR_FREE *)

Definition xdr_string_free (cpp : cell) (maxsize : Z) : HX unit :=
  sp <- get_ptr cpp;;
  match sp with
  | None => hret tt
  | Some sp =>
      s <- get_str sp;;
      if zlen s >? maxsize then hfail
      else _ <- mem_free sp;; put_ptr cpp None
  end.

(** The object is freed even if something behind it was not. *)
Definition xdr_reference_free (pp : cell) (proc : addr -> HX unit) : HX unit :=
  loc <- get_ptr pp;;
  match loc with
  | None => hret tt
  | Some loc => fun x =>
      '(stat, x) ← proc loc x;
      '(_, x) ← (_ <- mem_free loc;; put_ptr pp None) x;
      Some (stat, x)
  end.

Definition xdr_pointer_free (objpp : cell) (xdr_obj : addr -> HX unit) : HX unit :=
  more_data <- get_ptr objpp;;
  match more_data with
  | None => put_ptr objpp None
  | Some _ => xdr_reference_free objpp xdr_obj
  end.

Definition xdr_entry_free (next : cell -> HX unit) (objp : addr) : HX unit :=
  _ <- xdr_string_free (CName objp) NFS_MAXNAMLEN;;
  next (CNext objp).

Fixpoint xdr_entries_free (fuel : nat) (objpp : cell) : HX unit :=
  match fuel with
  | O => fun _ => None
  | S fuel => xdr_pointer_free objpp (xdr_entry_free (xdr_entries_free fuel))
  end.

Definition xdr_readdirres_free : HX unit := fun x =>
  if mx_status x =? NFS_OK then xdr_entries_free (S (size (mx_heap x))) CRes x
  else Some (Some tt, x).

(** ** The stubs *)

(** memset of the result. *)
Definition clear_res (x : MemX) : MemX := set_result None (set_status 0 x).

(** [reply]: what clnt_call agrees, with the memory there is, if it gets so far. *)
Definition readdir_mem (reply : option XDRD) : HX bool := fun x =>
  '(_, x) ← (if bool_decide (is_Some (mx_res x)) then xdr_readdirres_free x else Some (Some tt, x));
  let x := clear_res x in
  match reply with
  | None => Some (None, x)
  | Some s => xdr_readdirres_mem (set_stream s x)
  end.

Definition readlink_mem (reply : option XDRD) : HX unit := fun x =>
  let x := clear_res x in
  match reply with
  | None => Some (None, x)
  | Some s => xdr_readlinkres_mem (set_stream s x)
  end.

(** Calls one after the other, whatever each comes to. *)
Fixpoint calls_mem {A} (call : option XDRD -> HX A) (replies : list (option XDRD)) (x : MemX) : option MemX :=
  match replies with
  | [] => Some x
  | r :: replies => '(_, x) ← call r x; calls_mem call replies x
  end.
End Memory.

(** ** Places *)

(** The hblock a place is in. *)
Definition owner (c : cell) : option addr := match c with CRes => None | CName a | CNext a => Some a end.
Definition holds (c : cell) (p : option addr) (x : MemX) : Prop := get_ptr c x = Some (Some p, x).

Lemma holds_block c p x a : holds c p x -> owner c = Some a -> is_Some (mx_heap x !! a).
Proof.
  unfold holds, get_ptr. destruct c; intros H [= ->]; destruct (mx_heap x !! a) as [[]|]; done || by eexists.
Qed.

Lemma put_ptr_ok c p q x : holds c q x -> put_ptr c p x = Some (Some tt, upd_ptr c p x).
Proof. intros H. unfold put_ptr. rewrite H. done. Qed.

Lemma upd_ptr_holds c p q x : holds c q x -> holds c p (upd_ptr c p x).
Proof.
  unfold holds, get_ptr, upd_ptr. destruct c as [|a|a]; simpl; [done|..];
    (destruct (mx_heap x !! a) as [[]|] eqn:E; [done| |done]);
    intros _; by rewrite lookup_alter_eq, E.
Qed.

Lemma upd_ptr_same c p x : holds c p x -> upd_ptr c p x = x.
Proof.
  unfold holds, get_ptr, upd_ptr. destruct c as [|a|a]; simpl; [by intros [= <-]; destruct x|..];
    (destruct (mx_heap x !! a) as [[|f n k nx]|] eqn:E; [done| |done]);
    intros [= <-]; destruct x as [s h st r]; unfold set_heap; simpl in *; f_equal;
    apply map_eq; intros b; (destruct (decide (b = a)) as [->|]; [by rewrite lookup_alter_eq, E|by rewrite lookup_alter_ne]).
Qed.

Lemma upd_ptr_ne c p x a : owner c <> Some a -> mx_heap (upd_ptr c p x) !! a = mx_heap x !! a.
Proof.
  destruct c as [|b|b]; simpl; intros Hn; [done|..]; rewrite lookup_alter_ne; congruence.
Qed.

Lemma upd_ptr_heap c p x y a : mx_heap x !! a = mx_heap y !! a -> mx_heap (upd_ptr c p x) !! a = mx_heap (upd_ptr c p y) !! a.
Proof.
  intros E. destruct c as [|b|b]; simpl; [done|..];
    (destruct (decide (a = b)) as [->|]; [by rewrite !lookup_alter_eq, E|by rewrite !lookup_alter_ne]).
Qed.

Lemma holds_frame c p x y :
  (forall a, owner c = Some a -> mx_heap y !! a = mx_heap x !! a) -> (owner c = None -> mx_res y = mx_res x) ->
  holds c p x -> holds c p y.
Proof.
  unfold holds, get_ptr. destruct c as [|a|a]; simpl; intros Hh Hr.
  - intros [= <-]. by rewrite Hr.
  - rewrite (Hh a eq_refl). destruct (mx_heap x !! a) as [[]|]; [done| |done]. by intros [= <-].
  - rewrite (Hh a eq_refl). destruct (mx_heap x !! a) as [[]|]; [done| |done]. by intros [= <-].
Qed.

(** ** Lists on the heap *)

Definition str_at (h : gmap addr hblock) (max : Z) (p : option addr) (L : gset addr) (s : list byte) : Prop :=
  match p with
  | None => L = ∅ /\ s = []
  | Some a => L = {[a]} /\ h !! a = Some (BStr s) /\ zlen s <= max
  end.

(** The list [l], or a part of one, whose blocks are [L]. *)
Inductive entries_at (h : gmap addr hblock) : option addr -> gset addr -> list entry -> Prop :=
  | at_nil : entries_at h None ∅ []
  | at_cons a fid name ck next Ln s L l :
      h !! a = Some (BEntry fid name ck next) -> str_at h NFS_MAXNAMLEN name Ln s ->
      entries_at h next L l -> a ∉ Ln -> a ∉ L -> Ln ## L ->
      entries_at h (Some a) ({[a]} ∪ (Ln ∪ L)) (Entry fid s ck :: l).

Lemma str_at_frame h h' max p L s : (forall a, a ∈ L -> h' !! a = h !! a) -> str_at h max p L s -> str_at h' max p L s.
Proof.
  intros Hh. destruct p as [a|]; simpl; [|done]. intros (-> & Ha & Hs).
  by rewrite Hh by by apply elem_of_singleton.
Qed.

Lemma entries_at_frame h h' p L l : entries_at h p L l -> (forall a, a ∈ L -> h' !! a = h !! a) -> entries_at h' p L l.
Proof.
  induction 1 as [|a fid name ck next Ln s L l Ha Hs Hl IH H1 H2 H3]; intros Hh; [constructor|].
  econstructor; [|eapply str_at_frame; [|exact Hs]|apply IH| | |]; try done;
    [rewrite Hh; [done|]|intros b Hb; apply Hh|intros b Hb; apply Hh]; set_solver.
Qed.

Lemma str_at_alive h max p L s a : str_at h max p L s -> a ∈ L -> is_Some (h !! a).
Proof. destruct p; simpl; [intros (-> & Ha & _) ->%elem_of_singleton; by eexists|intros [-> _] ?; set_solver]. Qed.

Lemma entries_at_alive h p L l : entries_at h p L l -> forall a, a ∈ L -> is_Some (h !! a).
Proof.
  induction 1 as [|a fid name ck next Ln s L l Ha Hs Hl IH H1 H2 H3]; intros b Hb; [set_solver|].
  rewrite !elem_of_union, elem_of_singleton in Hb. destruct Hb as [->|[Hb|Hb]]; [by eexists|by eapply str_at_alive|by apply IH].
Qed.

(** What a routine that fills the place [c], which held NULL, has done: the place
    has [p], the blocks [L] are new, and nothing else has changed. *)
Record grown (c : cell) (p : option addr) (L : gset addr) (x x' : MemX) : Prop := {
  gr_out : forall a, a ∉ L -> mx_heap x' !! a = mx_heap (upd_ptr c p x) !! a;
  gr_new : forall a, a ∈ L -> mx_heap x !! a = None;
  gr_res : mx_res x' = mx_res (upd_ptr c p x);
  gr_status : mx_status x' = mx_status x
}.

Lemma grown_holds c p q L x x' : holds c q x -> grown c p L x x' -> holds c p x'.
Proof.
  intros Hc [Ho Hn Hr Hs]. eapply holds_frame; [| |eapply upd_ptr_holds, Hc].
  - intros a Ha. apply Ho. intros HL. apply (holds_block _ _ _ _ Hc) in Ha as [b Hb]. rewrite Hn in Hb; done.
  - done.
Qed.

Lemma grown_nothing c x : holds c None x -> forall x', mx_heap x' = mx_heap x -> mx_res x' = mx_res x ->
  mx_status x' = mx_status x -> grown c None ∅ x x'.
Proof. intros Hc x' Hh Hr Hs. constructor; rewrite ?(upd_ptr_same _ _ _ Hc); try done.
  intros a _. by rewrite Hh.
Qed.

Lemma grown_from s c p L x x' : grown c p L (set_stream s x) x' -> grown c p L x x'.
Proof. intros [Ho Hn Hr Hs]. by destruct c. Qed.

(** The routine [r] on the heap agrees with the decoder. *)
Definition agrees {A B} (r : option A) (d : option (B * XDRD)) (v : B) (s : XDRD) : Prop :=
  match r with Some _ => d = Some (v, s) | None => d = None end.

(** What filling the entry [a], which had no pointers, has done, half-way or to the end. *)
Record filled (a : addr) fid name ck next (Ln : gset addr) nm (L : gset addr) l (x x' : MemX) : Prop := {
  fl_entry : mx_heap x' !! a = Some (BEntry fid name ck next);
  fl_name : str_at (mx_heap x') NFS_MAXNAMLEN name Ln nm;
  fl_next : entries_at (mx_heap x') next L l;
  fl_out : forall b, b <> a -> b ∉ Ln -> b ∉ L -> mx_heap x' !! b = mx_heap x !! b;
  fl_new : forall b, b ∈ Ln \/ b ∈ L -> mx_heap x !! b = None;
  fl_apart : a ∉ Ln /\ a ∉ L /\ Ln ## L;
  fl_res : mx_res x' = mx_res x;
  fl_status : mx_status x' = mx_status x
}.

Lemma filled_empty a fid ck x : mx_heap x !! a = Some (BEntry fid None ck None) ->
  filled a fid None ck None ∅ [] ∅ [] x x.
Proof. intros Ha. constructor; first [done|apply at_nil|set_solver]. Qed.

Lemma filled_stream a fid name ck next Ln nm L l x x' s : filled a fid name ck next Ln nm L l x x' ->
  filled a fid name ck next Ln nm L l x (set_stream s x').
Proof. by intros []. Qed.

Lemma filled_fields a fid name ck next Ln nm L l x x' f k : filled a fid name ck next Ln nm L l x x' ->
  exists x'', put_fields a f k x' = Some (Some tt, x'') /\ mx_stream x'' = mx_stream x' /\
    filled a (f fid) name (k ck) next Ln nm L l x x''.
Proof.
  intros [Ha Hn Hl Ho Hnew (H1 & H2 & H3) Hr Hs]. unfold put_fields. rewrite Ha. eexists; split; [done|].
  split; [done|]. constructor; simpl; try done.
  - by rewrite lookup_alter_eq, Ha.
  - eapply str_at_frame, Hn. intros b Hb. apply lookup_alter_ne. set_solver.
  - eapply entries_at_frame; [exact Hl|]. intros b Hb. apply lookup_alter_ne. set_solver.
  - intros b Hb HbL Hbl. rewrite lookup_alter_ne by done. by apply Ho.
Qed.

Lemma filled_name a fid ck p Ln nm x x' x'' : filled a fid None ck None ∅ [] ∅ [] x x' ->
  grown (CName a) p Ln x' x'' -> str_at (mx_heap x'') NFS_MAXNAMLEN p Ln nm ->
  filled a fid p ck None Ln nm ∅ [] x x''.
Proof.
  intros [Ha _ _ Ho Hnew _ Hr Hs] [Go Gn Gr Gs] Hp.
  assert (HaL : a ∉ Ln) by (intros H; rewrite Gn in Ha; done).
  constructor; try done; [|apply at_nil| | |by rewrite Gr|by rewrite Gs].
  - rewrite Go by done. simpl. by rewrite lookup_alter_eq, Ha.
  - intros b Hb HbL _. rewrite Go by done. simpl. rewrite lookup_alter_ne by done. apply Ho; set_solver.
  - intros b [Hb|]; [|set_solver]. destruct (decide (b = a)) as [->|]; [done|]. rewrite <-Ho by set_solver. by apply Gn.
Qed.

Lemma filled_next a fid name ck p Ln nm L l x x' x'' : filled a fid name ck None Ln nm ∅ [] x x' ->
  grown (CNext a) p L x' x'' -> entries_at (mx_heap x'') p L l ->
  filled a fid name ck p Ln nm L l x x''.
Proof.
  intros [Ha Hn _ Ho Hnew (H1 & _) Hr Hs] [Go Gn Gr Gs] Hp.
  assert (HaL : a ∉ L) by (intros H; rewrite Gn in Ha; done).
  assert (HL : Ln ## L).
  { intros b Hb HbL. destruct (str_at_alive _ _ _ _ _ _ Hn Hb) as [? E]. rewrite Gn in E; done. }
  assert (Hout : forall b, b <> a -> b ∉ L -> mx_heap x'' !! b = mx_heap x' !! b).
  { intros b Hb HbL. rewrite Go by done. simpl. by rewrite lookup_alter_ne. }
  constructor; try done; [| | | |by rewrite Gr|by rewrite Gs].
  - rewrite Go by done. simpl. by rewrite lookup_alter_eq, Ha.
  - eapply str_at_frame, Hn. intros b Hb. apply Hout; set_solver.
  - intros b Hb HbL HbL'. rewrite Hout by done. apply Ho; set_solver.
  - intros b Hb. destruct (decide (b ∈ Ln)); [by apply Hnew; left|]. destruct Hb as [|Hb]; [done|].
    rewrite <-Ho by set_solver. by apply Gn.
Qed.

(** ** Decoding *)

Lemma c_string_length bs : zlen (c_string bs) <= zlen bs.
Proof. induction bs as [|b bs IH]; simpl; [done|]. case_bool_decide; zlia. Qed.

Section Decode.
Context (junk : Z -> list byte).
(** The zero is put at [size]. *)
Hypothesis junk_short : forall size, 0 <= size -> zlen (junk size) <= size.

(** After an allocation the place has the new hblock. *)
Lemma alloc_put_ptr c x b m : holds c None x -> xd_mem (mx_stream x) = S m ->
  exists a x', mx_heap x !! a = None /\ owner c <> Some a /\ alloc b x = Some (Some a, x') /\ holds c None x' /\
    put_ptr c (Some a) x' = Some (Some tt, upd_ptr c (Some a) x') /\ grown c (Some a) {[a]} x (upd_ptr c (Some a) x') /\
    mx_heap (upd_ptr c (Some a) x') !! a = Some b /\ xd_buf (mx_stream (upd_ptr c (Some a) x')) = xd_buf (mx_stream x) /\
    mx_stream (upd_ptr c (Some a) x') = MkXDRD (xd_buf (mx_stream x)) m.
Proof.
  intros Hc Hm. set (a := fresh (dom (mx_heap x))).
  assert (Ha : mx_heap x !! a = None) by (apply not_elem_of_dom, is_fresh).
  set (x' := set_heap (<[a := b]> (mx_heap x)) (set_stream (MkXDRD (xd_buf (mx_stream x)) m) x)).
  assert (Hne : owner c <> Some a) by (intros E; destruct (holds_block _ _ _ _ Hc E); congruence).
  assert (Hc' : holds c None x').
  { apply (holds_frame _ _ x); [|done|exact Hc]. intros d Hd. simpl. apply lookup_insert_ne. congruence. }
  exists a, x'. split_and!; [done|done| |done|by eapply put_ptr_ok| | | |].
  - unfold alloc. by rewrite Hm.
  - constructor; [| | |].
    + intros d Hd. apply upd_ptr_heap. simpl. apply lookup_insert_ne. set_solver.
    + by intros d ->%elem_of_singleton.
    + by destruct c.
    + by destruct c.
  - rewrite upd_ptr_ne by done. simpl. apply lookup_insert_eq.
  - by destruct c.
  - by destruct c.
Qed.

Lemma xdr_string_ok cpp max x : holds cpp None x -> 0 <= max ->
  exists r x' p L s, xdr_string_mem junk cpp max x = Some (r, x') /\ grown cpp p L x x' /\
    str_at (mx_heap x') max p L s /\ agrees r (xdr_string_dec max (mx_stream x)) s (mx_stream x') /\
    (r = Some tt -> max <? 4294967295 = true -> is_Some p).
Proof.
  intros Hc Hmax. unfold xdr_string_mem, xdr_string_dec, hbind, dbind, no_alloc.
  destruct (xdr_u_int_dec (mx_stream x)) as [[size st]|] eqn:Eu; cbn [mbind option_bind].
  2:{ eexists None, x, None, ∅, []. split_and!; [done|by apply grown_nothing|done|done|done]. }
  destruct (safe_u_long _ _ _ Eu) as [Hsz _]. unfold u32_ok in Hsz.
  set (x1 := set_stream st x). assert (Hc1 : holds cpp None x1) by (apply (holds_frame _ _ x); done).
  destruct (size >? max) eqn:Em.
  { eexists None, x1, None, ∅, []. split_and!; [done|by apply grown_nothing|done|done|done]. }
  destruct (u32 (size + 1) =? 0) eqn:E0; zbool.
  { eexists (Some tt), x1, None, ∅, []. split_and!; [done|by apply grown_nothing|done|done|]. intros _ Hm. zbool.
    unfold u32 in E0. rewrite Z.mod_small in E0; lia. }
  rewrite Hc1. cbn [mbind option_bind]. change (mx_stream x1) with st. unfold mem_alloc.
  destruct (xd_mem st) as [|m] eqn:Emem.
  { unfold alloc. change (mx_stream x1) with st. rewrite Emem. cbn [mbind option_bind].
    eexists None, x1, None, ∅, []. split_and!; [done|by apply grown_nothing|done|done|done]. }
  destruct (alloc_put_ptr cpp x1 (BStr (junk size)) m Hc1 Emem) as (a & x2 & Ha & Hne & -> & Hc2 & Hput & Hg & Hb & _ & Hst).
  apply grown_from in Hg. cbn [mbind option_bind]. rewrite Hput. unfold hret. cbn [mbind option_bind]. rewrite Hst. change (mx_stream x1) with st in *.
  set (x3 := upd_ptr cpp (Some a) x2) in *. zbool.
  destruct (xdr_opaque_dec size _) as [[bs st']|] eqn:Eo; cbn [mbind option_bind].
  - unfold put_str. simpl. rewrite Hb. eexists (Some tt), _, (Some a), {[a]}, (c_string bs).
    split; [done|]. destruct Hg as [Ho Hn Hr Hs]. split; [constructor; simpl; try done|].
    + intros d Hd. rewrite lookup_insert_ne by set_solver. by rewrite Ho.
    + split; [|by split; [|by eexists]]. simpl. rewrite lookup_insert_eq. split_and!; [done..|].
      pose proof (c_string_length bs). destruct (safe_opaque size (proj1 Hsz) _ _ _ Eo) as [Hl _]. lia.
  - eexists None, x3, (Some a), {[a]}, (junk size). split; [done|]. split; [by destruct Hg|]. split; [|by split].
    simpl. split_and!; [done..|]. pose proof (junk_short size). lia.
Qed.

Lemma dec_shrinks {A} (d : DEC A) P s v s' : dec_safe d P -> d s = Some (v, s') ->
  (length (xd_buf s') <= length (xd_buf s))%nat.
Proof. intros Hd H. destruct (Hd _ _ _ H) as (_ & used & -> & _). rewrite length_app. lia. Qed.

Lemma bool_shrinks s b s' : xdr_bool_dec s = Some (b, s') -> (length (xd_buf s') < length (xd_buf s))%nat.
Proof.
  unfold xdr_bool_dec, dbind, xdrmem_getlong. destruct s as [[|a [|b1 [|c [|d buf]]]] m]; try done.
  cbn [mbind option_bind xd_buf]. intros [= <- <-]. simpl. lia.
Qed.

(** A routine leaves at the place the list, or a part of the list, the decoder reads. *)
Definition fills (d : DEC (list entry)) (m : cell -> HX unit) (c : cell) (x : MemX) : Prop :=
  exists r x' p L l, m c x = Some (r, x') /\ grown c p L x x' /\ entries_at (mx_heap x') p L l /\
    agrees r (d (mx_stream x)) l (mx_stream x').

Lemma xdr_entry_ok next nextd a fid ck x : mx_heap x !! a = Some (BEntry fid None ck None) ->
  (forall x1, (length (xd_buf (mx_stream x1)) <= length (xd_buf (mx_stream x)))%nat -> holds (CNext a) None x1 ->
    fills nextd next (CNext a) x1) ->
  exists r x' fid name ck nx Ln nm L l, xdr_entry_mem junk next a x = Some (r, x') /\
    filled a fid name ck nx Ln nm L l x x' /\
    agrees r (xdr_entry_dec nextd (mx_stream x)) (Entry fid nm ck :: l) (mx_stream x').
Proof.
  intros Ha Hnext. pose proof (filled_empty _ _ _ _ Ha) as F0.
  unfold xdr_entry_mem, xdr_entry_dec, xdr_filename_dec, hbind, dbind, no_alloc.
  destruct (xdr_u_int_dec (mx_stream x)) as [[fid1 s1]|] eqn:E1; cbn [mbind option_bind].
  2:{ by do 2 eexists; do 8 eexists. }
  pose proof (dec_shrinks _ _ _ _ _ safe_u_long E1) as Hs1.
  destruct (filled_fields _ _ _ _ _ _ _ _ _ _ _ (fun _ => fid1) id (filled_stream _ _ _ _ _ _ _ _ _ _ _ s1 F0))
    as (x2 & -> & St2 & F2). cbn [mbind option_bind].
  assert (Hc : holds (CName a) None x2) by (unfold holds, get_ptr; by rewrite (fl_entry _ _ _ _ _ _ _ _ _ _ _ F2)).
  destruct (xdr_string_ok (CName a) NFS_MAXNAMLEN x2 Hc ltac:(done)) as (r3 & x3 & p & Ln & nm & -> & G3 & Hp & D3 & _).
  pose proof (filled_name _ _ _ _ _ _ _ _ _ F2 G3 Hp) as F3. rewrite St2 in D3. simpl in D3.
  cbn [mbind option_bind]. destruct r3 as [[]|]; simpl in D3; rewrite D3; cbn [mbind option_bind].
  2:{ by do 2 eexists; do 8 eexists. }
  pose proof (dec_shrinks _ _ _ _ _ (safe_string NFS_MAXNAMLEN ltac:(done)) D3) as Hs3.
  destruct (xdr_nfscookie_dec (mx_stream x3)) as [[ck4 s4]|] eqn:E4; cbn [mbind option_bind].
  2:{ by do 2 eexists; do 8 eexists. }
  pose proof (dec_shrinks _ _ _ _ _ (safe_opaque NFS_COOKIESIZE ltac:(done)) E4) as Hs4.
  destruct (filled_fields _ _ _ _ _ _ _ _ _ _ _ id (fun _ => ck4) (filled_stream _ _ _ _ _ _ _ _ _ _ _ s4 F3))
    as (x5 & -> & St5 & F5). cbn [mbind option_bind].
  assert (Hc5 : holds (CNext a) None x5) by (unfold holds, get_ptr; by rewrite (fl_entry _ _ _ _ _ _ _ _ _ _ _ F5)).
  destruct (Hnext x5) as (r6 & x6 & p6 & L & l & H6 & G6 & Hl & D6); [rewrite St5; simpl; lia|done|].
  rewrite H6. pose proof (filled_next _ _ _ _ _ _ _ _ _ _ _ _ F5 G6 Hl) as F6. rewrite St5 in D6. simpl in D6.
  destruct r6 as [[]|]; simpl in D6; rewrite D6; cbn [mbind option_bind]; do 2 eexists; do 8 eexists; done.
Qed.

(** The new entry and what was put in it. *)
Lemma grown_filled c a x x' x'' fid name ck next Ln nm L l : grown c (Some a) {[a]} x x' ->
  filled a fid name ck next Ln nm L l x' x'' ->
  (forall b, mx_heap x' !! b = None -> mx_heap x !! b = None) ->
  grown c (Some a) ({[a]} ∪ (Ln ∪ L)) x x'' /\
  entries_at (mx_heap x'') (Some a) ({[a]} ∪ (Ln ∪ L)) (Entry fid nm ck :: l).
Proof.
  intros [Go Gn Gr Gs] [Ha Hn Hl Ho Hnew (H1 & H2 & H3) Hr Hs] Hx. split; [|by econstructor].
  constructor; [| |congruence|congruence].
  - intros b Hb. rewrite Ho by set_solver. apply Go. set_solver.
  - intros b. rewrite !elem_of_union. intros [Hb|Hb]; [by apply Gn|by apply Hx, Hnew].
Qed.

Lemma xdr_entries_ok fuel : forall c x, (length (xd_buf (mx_stream x)) < fuel)%nat -> holds c None x ->
  fills (xdr_entries_fuel fuel) (xdr_entries_mem junk fuel) c x.
Proof.
  induction fuel as [|fuel IH]; intros c x Hf Hc; [lia|]. unfold fills.
  cbn [xdr_entries_fuel xdr_entries_mem]. unfold xdr_pointer_mem, xdr_pointer_dec, hbind at 1, dbind at 1, no_alloc.
  destruct (xdr_bool_dec (mx_stream x)) as [[b s]|] eqn:Eb; cbn [mbind option_bind].
  2:{ exists None, x, None, ∅, []. split_and!; [done|by apply grown_nothing|constructor|done]. }
  apply bool_shrinks in Eb. set (x1 := set_stream s x).
  assert (Hc1 : holds c None x1) by (apply (holds_frame _ _ x); done).
  destruct b; cbn [negb].
  2:{ rewrite (put_ptr_ok _ _ _ _ Hc1). rewrite (upd_ptr_same _ _ _ Hc1).
      exists (Some tt), x1, None, ∅, []. split_and!; [done|by apply grown_nothing|constructor|done]. }
  unfold xdr_reference_mem, hbind at 1 2. rewrite Hc1. cbn [mbind option_bind]. unfold dbind at 1, mem_alloc.
  change (mx_stream x1) with s in *. destruct (xd_mem s) as [|m] eqn:Em.
  { unfold hbind at 1, alloc. change (mx_stream x1) with s. rewrite Em. cbn [mbind option_bind].
    exists None, x1, None, ∅, []. split_and!; [done|by apply grown_nothing|constructor|done]. }
  match goal with |- context [alloc ?blk] =>
    destruct (alloc_put_ptr c x1 blk m Hc1 Em) as (a & x2 & Ha & Hne & Hal & Hc2 & Hput & Hg & Hb & _ & Hst) end.
  unfold hbind at 1 2. rewrite Hal. cbn [mbind option_bind]. rewrite Hput. unfold hret. cbn [mbind option_bind].
  apply grown_from in Hg. set (x3 := upd_ptr c (Some a) x2) in *. change (mx_stream x1) with s in Hst.
  destruct (xdr_entry_ok (xdr_entries_mem junk fuel) (xdr_entries_fuel fuel) _ _ _ _ Hb) as
    (r & x4 & fid & name & ck & nx & Ln & nm & L & l & -> & F & D).
  { intros x5 H5 Hc5. apply IH; [|done]. rewrite Hst in H5. simpl in H5. lia. }
  rewrite Hst in D. change (mx_stream x1) with s in D.
  destruct (grown_filled _ _ _ _ _ _ _ _ _ _ _ _ _ Hg F) as [G E].
  { intros d Hd. destruct (decide (d = a)) as [->|]; [congruence|]. rewrite (gr_out _ _ _ _ _ Hg) in Hd by set_solver.
    destruct c; simpl in Hd; rewrite ?lookup_alter_None in Hd; done. }
  exists r, x4, (Some a), ({[a]} ∪ (Ln ∪ L)), (Entry fid nm ck :: l). done.
Qed.
End Decode.

(** ** Freeing *)

Lemma hbind_ok {A B} (d : HX A) (k : A -> HX B) x a x' : d x = Some (Some a, x') -> hbind d k x = k a x'.
Proof. unfold hbind. by intros ->. Qed.

(** What freeing the blocks [L] behind the place [c] has done. *)
Record shrunk (c : cell) (L : gset addr) (x x' : MemX) : Prop := {
  sh_out : forall a, a ∉ L -> mx_heap x' !! a = mx_heap (upd_ptr c None x) !! a;
  sh_gone : forall a, a ∈ L -> mx_heap x' !! a = None;
  sh_res : mx_res x' = mx_res (upd_ptr c None x);
  sh_status : mx_status x' = mx_status x
}.

Lemma shrunk_nothing c x : holds c None x -> shrunk c ∅ x x.
Proof. intros Hc. constructor; rewrite ?(upd_ptr_same _ _ _ Hc); done. Qed.

(** A hblock is given back and the place cleared. *)
Lemma free_block c p x a : holds c p x -> owner c <> Some a -> is_Some (mx_heap x !! a) ->
  exists x', (_ <- mem_free a;; put_ptr c None)%xdr x = Some (Some tt, x') /\ shrunk c {[a]} x x'.
Proof.
  intros Hc Hne [b Hb]. unfold hbind, mem_free. rewrite Hb. cbn [mbind option_bind].
  set (x1 := set_heap (delete a (mx_heap x)) x).
  assert (Hc1 : holds c p x1).
  { apply (holds_frame _ _ x); [|done|done]. intros d Hd. simpl. apply lookup_delete_ne. congruence. }
  rewrite (put_ptr_ok _ _ _ _ Hc1). eexists; split; [done|]. constructor.
  - intros d Hd. apply upd_ptr_heap. simpl. apply lookup_delete_ne. set_solver.
  - intros d ->%elem_of_singleton. rewrite upd_ptr_ne by done. simpl. apply lookup_delete_eq.
  - by destruct c.
  - by destruct c.
Qed.

Lemma xdr_string_free_ok cpp max p L s x : holds cpp p x -> str_at (mx_heap x) max p L s ->
  (forall a, owner cpp = Some a -> a ∉ L) ->
  exists x', xdr_string_free cpp max x = Some (Some tt, x') /\ shrunk cpp L x x'.
Proof.
  intros Hc Hs Hown. unfold xdr_string_free, hbind at 1. rewrite Hc. cbn [mbind option_bind].
  destruct p as [a|]; simpl in Hs.
  - destruct Hs as (-> & Ha & Hmax). unfold hbind at 1, get_str. rewrite Ha. cbn [mbind option_bind].
    rewrite Z.gtb_ltb, (proj2 (Z.ltb_ge _ _)) by lia.
    apply (free_block _ (Some a)); [done| |by eexists]. intros E. apply (Hown _ E). set_solver.
  - destruct Hs as [-> _]. eexists; split; [done|]. by apply shrunk_nothing.
Qed.

Lemma shrunk_frame c L x x' p L' l : shrunk c L x x' -> (forall a, owner c = Some a -> a ∉ L') -> L ## L' ->
  entries_at (mx_heap x) p L' l -> entries_at (mx_heap x') p L' l.
Proof.
  intros S Hown HL He. eapply entries_at_frame; [exact He|]. intros b Hb. rewrite (sh_out _ _ _ _ S) by set_solver.
  apply upd_ptr_ne. intros E. by apply (Hown _ E).
Qed.

Lemma xdr_entries_free_ok fuel : forall c p L l x, (length l < fuel)%nat -> holds c p x ->
  entries_at (mx_heap x) p L l -> (forall a, owner c = Some a -> a ∉ L) ->
  exists x', xdr_entries_free fuel c x = Some (Some tt, x') /\ shrunk c L x x'.
Proof.
  induction fuel as [|fuel IH]; intros c p L l x Hf Hc Hl Hown; [lia|].
  cbn [xdr_entries_free]. unfold xdr_pointer_free, hbind at 1. rewrite Hc. cbn [mbind option_bind].
  destruct Hl as [|a fid name ck next Ln s L l Ha Hs Hl H1 H2 H3].
  { rewrite (put_ptr_ok _ _ _ _ Hc), (upd_ptr_same _ _ _ Hc). eexists; split; [done|]. by apply shrunk_nothing. }
  unfold xdr_reference_free, hbind at 1. rewrite Hc. cbn [mbind option_bind]. unfold xdr_entry_free.
  assert (Hcn : holds (CName a) name x) by (unfold holds, get_ptr; by rewrite Ha).
  destruct (xdr_string_free_ok _ _ _ _ _ _ Hcn Hs) as (x1 & E1 & S1); [by intros b [= <-]|].
  rewrite (hbind_ok _ _ _ _ _ E1).
  assert (Ha1 : mx_heap x1 !! a = Some (BEntry fid None ck next)).
  { rewrite (sh_out _ _ _ _ S1) by done. simpl. by rewrite lookup_alter_eq, Ha. }
  assert (Hl1 : entries_at (mx_heap x1) next L l).
  { eapply shrunk_frame; [exact S1| |done|done]. by intros b [= <-]. }
  destruct (IH (CNext a) next L l x1) as (x2 & -> & S2);
    [simpl in Hf; lia|unfold holds, get_ptr; by rewrite Ha1|done|by intros b [= <-]|]. cbn [mbind option_bind].
  assert (Hne : owner c <> Some a) by (intros E; apply (Hown _ E); set_solver).
  assert (H2c : forall b, b <> a -> b ∉ Ln ∪ L -> mx_heap x2 !! b = mx_heap x !! b).
  { intros b Hb HbL. rewrite (sh_out _ _ _ _ S2), upd_ptr_ne, (sh_out _ _ _ _ S1), upd_ptr_ne; simpl; set_solver || congruence. }
  assert (Hc2 : holds c (Some a) x2).
  { apply (holds_frame _ _ x); [| |done].
    - intros b Hb. apply H2c; [congruence|]. specialize (Hown _ Hb). set_solver.
    - intros _. rewrite (sh_res _ _ _ _ S2). simpl. by rewrite (sh_res _ _ _ _ S1). }
  destruct (free_block c _ x2 a Hc2 Hne) as (x3 & -> & S3).
  { rewrite (sh_out _ _ _ _ S2) by done. simpl. rewrite lookup_alter_eq, Ha1. by eexists. }
  cbn [mbind option_bind]. eexists; split; [done|]. destruct S3 as [So Sg Sr Ss]. constructor.
  - intros b Hb. rewrite So by set_solver. apply upd_ptr_heap, H2c; set_solver.
  - intros b. rewrite !elem_of_union. intros [Hb|Hb]; [by apply Sg|].
    assert (b <> a) by (intros ->; naive_solver).
    destruct (decide (owner c = Some b)) as [E|E]; [exfalso; apply (Hown _ E); set_solver|].
    rewrite So, upd_ptr_ne by (done || set_solver). destruct (decide (b ∈ L)); [by apply (sh_gone _ _ _ _ S2)|].
    rewrite (sh_out _ _ _ _ S2), upd_ptr_ne by (simpl; congruence). apply (sh_gone _ _ _ _ S1). naive_solver.
  - rewrite Sr. destruct c; simpl; [done|..]; rewrite (sh_res _ _ _ _ S2); simpl; by rewrite (sh_res _ _ _ _ S1).
  - by rewrite Ss, (sh_status _ _ _ _ S2), (sh_status _ _ _ _ S1).
Qed.

Lemma entries_at_size h p L l : entries_at h p L l -> (length l <= size L)%nat.
Proof.
  induction 1 as [|a fid name ck next Ln s L l Ha Hs Hl IH H1 H2 H3]; [simpl; lia|].
  rewrite size_union, size_singleton, size_union by set_solver. simpl. lia.
Qed.

Lemma entries_at_fuel h p L l : entries_at h p L l -> (length l < S (size h))%nat.
Proof.
  intros H. pose proof (entries_at_size _ _ _ _ H). enough (size L <= size h)%nat by lia.
  rewrite <-size_dom. apply subseteq_size. intros a Ha. apply elem_of_dom. by eapply entries_at_alive.
Qed.

(** ** The stubs *)

(** The heap is [others] and the list of the static result, which the status lets
    the next call find. *)
Definition one_list (others : gmap addr hblock) (x : MemX) (l : list entry) : Prop :=
  exists L, entries_at (mx_heap x) (mx_res x) L l /\
    (forall a, a ∈ L -> others !! a = None) /\ (forall a, a ∉ L -> mx_heap x !! a = others !! a) /\
    (is_Some (mx_res x) -> mx_status x = NFS_OK).

(** The stub frees the list it has and clears its result. *)
Lemma readdir_frees others x l : one_list others x l -> exists r x',
  (if bool_decide (is_Some (mx_res x)) then xdr_readdirres_free x else Some (Some tt, x)) = Some (r, x') /\
  mx_heap (clear_res x') = others.
Proof.
  intros (L & Hl & Hnew & Hout & Hst). case_bool_decide as Hp.
  - unfold xdr_readdirres_free. rewrite (Hst Hp). change (NFS_OK =? NFS_OK) with true.
    destruct (xdr_entries_free_ok (S (size (mx_heap x))) CRes (mx_res x) L l x) as (x' & -> & S);
      [by eapply entries_at_fuel|done|done|done|].
    exists (Some tt), x'. split; [done|]. apply map_eq. intros a. simpl. destruct (decide (a ∈ L)).
    + rewrite (sh_gone _ _ _ _ S), Hnew; done.
    + rewrite (sh_out _ _ _ _ S) by done. by apply Hout.
  - exists (Some tt), x. split; [done|]. destruct (mx_res x); [destruct Hp; by eexists|].
    inversion Hl; subst. apply map_eq. intros a. apply Hout. set_solver.
Qed.

Section Stubs.
Context (junk : Z -> list byte).
Hypothesis junk_short : forall size, 0 <= size -> zlen (junk size) <= size.

(** On the heap and without, the same is read of a reply: [l] is what was decoded. *)
Definition readdir_reads (r : option bool) (l : list entry) (x' : MemX) (reply : XDRD) : Prop :=
  match r with
  | None => xdr_readdirres_dec reply = None
  | Some eof =>
      (mx_status x' = NFS_OK /\ xdr_readdirres_dec reply = Some (NfsOk (DirList l eof), mx_stream x')) \/
      (mx_status x' <> NFS_OK /\ xdr_readdirres_dec reply = Some (NfsErr (mx_status x'), mx_stream x') /\ l = [])
  end.

Lemma xdr_readdirres_ok s x : mx_res x = None -> mx_status x = 0 -> exists r x' l,
  xdr_readdirres_mem junk (set_stream s x) = Some (r, x') /\ one_list (mx_heap x) x' l /\
  readdir_reads r l x' s.
Proof.
  intros Hr Hst. unfold xdr_readdirres_mem, readdir_reads, xdr_readdirres_dec, xdr_res_dec, xdr_dirlist_dec,
    hbind, dbind, no_alloc, dret.
  assert (Hnone : forall x', mx_heap x' = mx_heap x -> mx_res x' = None -> one_list (mx_heap x) x' []).
  { intros x' E1 E2. exists ∅. rewrite E1, E2. split_and!; [constructor|set_solver|done|by intros []]. }
  change (mx_stream (set_stream s x)) with s.
  destruct (xdr_nfsstat_dec s) as [[status s1]|] eqn:Es; cbn [mbind option_bind].
  2:{ exists None. do 2 eexists. split; [done|]. split; [by apply Hnone|done]. }
  destruct (status =? NFS_OK) eqn:Eok; zbool.
  2:{ exists (Some false). do 2 eexists. split; [done|]. split; [by apply Hnone|]. right. done. }
  subst status. unfold xdr_entries_dec. change (NFS_OK =? NFS_OK) with true. cbn iota.
  set (x1 := set_status NFS_OK _).
  change (length (xd_buf (mx_stream x1))) with (length (xd_buf s1)).
  destruct (xdr_entries_ok junk junk_short (S (length (xd_buf s1))) CRes x1) as (r & x2 & p & L & l & -> & G & Hl & D);
    [simpl; lia|by unfold holds, get_ptr; simpl; rewrite Hr|].
  change (mx_stream x1) with s1 in D. destruct G as [Go Gn Gr Gs]. simpl in *.
  assert (H1 : forall x3, mx_heap x3 = mx_heap x2 -> mx_res x3 = mx_res x2 -> mx_status x3 = mx_status x2 ->
    one_list (mx_heap x) x3 l).
  { intros x3 E1 E2 E3. exists L. rewrite E1, E2, E3, Gr, Gs. done. }
  destruct r as [[]|]; simpl in D; rewrite D; cbn [mbind option_bind].
  2:{ exists None, x2, l. split; [done|]. split; [by apply H1|done]. }
  destruct (xdr_bool_dec (mx_stream x2)) as [[eof s3]|] eqn:Eb; cbn [mbind option_bind].
  - exists (Some eof). do 2 eexists. split; [done|]. split; [by apply H1|]. left. split; [done|]. done.
  - exists None. do 2 eexists. split; [done|]. split; [by apply H1|done].
Qed.

Lemma readdir_call others x l reply : one_list others x l -> exists r x' l',
  readdir_mem junk reply x = Some (r, x') /\ one_list others x' l' /\
  match reply with Some s => readdir_reads r l' x' s | None => r = None /\ l' = [] end.
Proof.
  intros H. destruct (readdir_frees _ _ _ H) as (r & x1 & E & Hh). unfold readdir_mem. rewrite E.
  cbn [mbind option_bind]. rewrite <-Hh. destruct reply as [s|].
  - by apply xdr_readdirres_ok.
  - do 3 eexists. split; [done|]. split; [|done]. exists ∅. split_and!; [constructor|set_solver|done|by intros []].
Qed.

Lemma readdir_calls others replies : forall x l, one_list others x l -> exists x' l',
  calls_mem (readdir_mem junk) replies x = Some x' /\ one_list others x' l'.
Proof.
  induction replies as [|reply replies IH]; intros x l H; cbn [calls_mem]; [by exists x, l|].
  destruct (readdir_call _ _ _ reply H) as (r & x1 & l1 & -> & H1 & _). cbn [mbind option_bind]. by eapply IH.
Qed.

Lemma readdir_memory_ok others replies reply x l : one_list others x l -> exists x1 l1 r x2 l2,
  calls_mem (readdir_mem junk) replies x = Some x1 /\ one_list others x1 l1 /\
  readdir_mem junk (Some reply) x1 = Some (r, x2) /\ one_list others x2 l2 /\ readdir_reads r l2 x2 reply.
Proof.
  intros H. destruct (readdir_calls others replies _ _ H) as (x1 & l1 & E1 & H1).
  destruct (readdir_call _ _ _ (Some reply) H1) as (r & x2 & l2 & E2 & H2 & D). by exists x1, l1, r, x2, l2.
Qed.

(** C28: The stub of READDIR holds one list at a time, however its calls end.
    After any calls, whose replies may be missing, not decodable or longer than
    there is memory for, the heap is that of the rest of the program and one list; a
    further call frees that list, block for block, and comes to an end. What it gives is
    what the decoder of NfsXdr.v reads of the reply, its names and cookies on the
    heap; what it leaves is again one list, which a failure may have cut short. *)
Theorem readdir_memory others replies reply x l : one_list others x l -> exists x1 l1 r x2 l2,
  calls_mem (readdir_mem junk) replies x = Some x1 /\ one_list others x1 l1 /\
  readdir_mem junk (Some reply) x1 = Some (r, x2) /\ one_list others x2 l2 /\ readdir_reads r l2 x2 reply.
Proof. apply readdir_memory_ok. Qed.

(** One more string is in use after a successful READLINK. *)
Lemma readlink_call x s path s' : xdr_readlinkres_dec s = Some (NfsOk path, s') -> exists x' a,
  readlink_mem junk (Some s) x = Some (Some tt, x') /\ mx_heap x !! a = None /\
  mx_heap x' = <[a := BStr path]> (mx_heap x).
Proof.
  unfold xdr_readlinkres_dec, xdr_res_dec, xdr_nfspath_dec, readlink_mem, xdr_readlinkres_mem, dbind, hbind, no_alloc.
  change (mx_stream (set_stream s (clear_res x))) with s.
  destruct (xdr_nfsstat_dec s) as [[status s1]|]; [|done]. cbn [mbind option_bind].
  destruct (status =? NFS_OK); [|done]. set (x1 := set_status status _).
  destruct (xdr_string_ok junk junk_short CRes NFS_MAXPATHLEN x1) as (r & x' & p & L & nm & E & G & Hs & D & Hp);
    [done|done|]. change (mx_stream x1) with s1 in D. rewrite E.
  destruct r as [[]|]; simpl in D; rewrite D; [|done]. cbn [mbind option_bind]. unfold dret. intros [= -> _].
  destruct (Hp eq_refl eq_refl) as [a ->]. destruct Hs as (-> & Ha & _). exists x', a. split; [done|].
  destruct G as [Go Gn Gr Gs]. split; [by apply (Gn a), elem_of_singleton|].
  apply map_eq. intros b. destruct (decide (b = a)) as [->|]; [by rewrite lookup_insert_eq|].
  rewrite lookup_insert_ne by done. apply Go. set_solver.
Qed.

Lemma readlink_leaks replies : forall x,
  Forall (fun s => exists path s', xdr_readlinkres_dec s = Some (NfsOk path, s')) replies -> exists x',
  calls_mem (readlink_mem junk) (Some <$> replies) x = Some x' /\
  mx_heap x ⊆ mx_heap x' /\ size (mx_heap x') = (size (mx_heap x) + length replies)%nat.
Proof.
  induction replies as [|s replies IH]; intros x H; cbn [calls_mem fmap list_fmap]; [exists x; split_and!; simpl; auto with lia|].
  apply Forall_cons in H as [(path & s' & Hs) H].
  destruct (readlink_call x _ _ _ Hs) as (x1 & a & -> & Ha & Hh). cbn [mbind option_bind].
  destruct (IH x1 H) as (x' & -> & Hsub & Hsz). exists x'. split; [done|]. rewrite Hh in *. split.
  - etrans; [by apply insert_subseteq|done].
  - rewrite Hsz, map_size_insert_None by done. simpl. lia.
Qed.
End Stubs.

(** Before the first call; a directory of two entries, and a reply that is cut off. *)
Definition no_list : MemX := MkMemX (MkXDRD [] 0) ∅ 0 None.
Definition two_entries : list byte :=
  w_res w_dirlist (NfsOk (DirList [Entry 7 [x61] (replicate 4 x00); Entry 8 [x62; x63] (replicate 4 x01)] true)).

Lemma readdir_memory_witness : exists x1 l1 r x2 l2,
  calls_mem (readdir_mem (fun _ => [])) [Some (MkXDRD two_entries 9); None; Some (MkXDRD (take 40 two_entries) 9)]
    no_list = Some x1 /\ one_list ∅ x1 l1 /\
  readdir_mem (fun _ => []) (Some (MkXDRD two_entries 3)) x1 = Some (r, x2) /\ one_list ∅ x2 l2 /\
  readdir_reads r l2 x2 (MkXDRD two_entries 3).
Proof.
  apply (readdir_memory (fun _ => [])) with (l := []); [intros size H; exact H|].
  exists ∅. split_and!; [apply at_nil|set_solver|done|by intros []].
Defined.

