(* ===== verification/FtHash.v ===== *)
(** * The hash table with expiry (common/fthash.c)

    A generic cache with chains of entries that die after [tht_TTL] seconds.
    Values belong to the table, which frees them; its clients get pointers to
    them, and the lock count keeps those alive until [fthash_UnLockAll].
    [heap] holds the values that are allocated: freeing a value that is not
    there, or following a pointer to one, is undefined behaviour and [None]. *)
From S2P Require Import Prelude.

(** Values by address. *)
Abbreviation vheap := (gmap addr).

Section FtHash.
Context {K V : Type}.

Record FTHashEntry := FTEntry {
  the_Birth : Z;
  the_Key : K;
  the_Val : option addr
}.

(** The lists are in order, head first. *)
Record FTHashTable := FTTable {
  tht_Size : Z;
  tht_MaxEntries : Z;
  tht_TTL : Z;
  tht_HashFunc : K -> Z;
  tht_KeyCmp : K -> K -> Z;
  tht_Entries : list (list FTHashEntry);
  tht_FreeEntries : list FTHashEntry;
  tht_LockedEntries : list FTHashEntry;
  tht_NumEntries : Z;
  tht_LockCnt : Z
}.

Implicit Types (t : FTHashTable) (h : vheap V).

Definition set_Entries (l : list (list FTHashEntry)) t : FTHashTable :=
  FTTable (tht_Size t) (tht_MaxEntries t) (tht_TTL t) (tht_HashFunc t) (tht_KeyCmp t)
    l (tht_FreeEntries t) (tht_LockedEntries t) (tht_NumEntries t) (tht_LockCnt t).
Definition set_Free (l : list FTHashEntry) t : FTHashTable :=
  FTTable (tht_Size t) (tht_MaxEntries t) (tht_TTL t) (tht_HashFunc t) (tht_KeyCmp t)
    (tht_Entries t) l (tht_LockedEntries t) (tht_NumEntries t) (tht_LockCnt t).
Definition set_Locked (l : list FTHashEntry) t : FTHashTable :=
  FTTable (tht_Size t) (tht_MaxEntries t) (tht_TTL t) (tht_HashFunc t) (tht_KeyCmp t)
    (tht_Entries t) (tht_FreeEntries t) l (tht_NumEntries t) (tht_LockCnt t).
Definition set_NumEntries (n : Z) t : FTHashTable :=
  FTTable (tht_Size t) (tht_MaxEntries t) (tht_TTL t) (tht_HashFunc t) (tht_KeyCmp t)
    (tht_Entries t) (tht_FreeEntries t) (tht_LockedEntries t) n (tht_LockCnt t).
Definition set_LockCnt (n : Z) t : FTHashTable :=
  FTTable (tht_Size t) (tht_MaxEntries t) (tht_TTL t) (tht_HashFunc t) (tht_KeyCmp t)
    (tht_Entries t) (tht_FreeEntries t) (tht_LockedEntries t) (tht_NumEntries t) n.
Definition set_MaxEntries (n : Z) t : FTHashTable :=
  FTTable (tht_Size t) n (tht_TTL t) (tht_HashFunc t) (tht_KeyCmp t)
    (tht_Entries t) (tht_FreeEntries t) (tht_LockedEntries t) (tht_NumEntries t) (tht_LockCnt t).
Definition set_TTL (n : Z) t : FTHashTable :=
  FTTable (tht_Size t) (tht_MaxEntries t) n (tht_HashFunc t) (tht_KeyCmp t)
    (tht_Entries t) (tht_FreeEntries t) (tht_LockedEntries t) (tht_NumEntries t) (tht_LockCnt t).

(** [mem_ok], [mem_ok2]: whether the two AllocVec succeed. *)
Definition fthash_New (mem_ok mem_ok2 : bool) (Size KeySize MaxEntries TTL : Z)
  (hashfunc : K -> Z) (KeyCmp : K -> K -> Z) : option FTHashTable :=
  if (Size =? 0) || (KeySize =? 0) || (MaxEntries =? 0) || (TTL =? 0) then None
  else if negb mem_ok then None
  else if negb mem_ok2 then None
  else Some (FTTable Size MaxEntries TTL hashfunc KeyCmp (replicate (Z.to_nat Size) []) [] [] 0 0).

Definition fthash_Hash t (k : K) : Z := tht_HashFunc t k mod tht_Size t.
Definition fthash_IsLocked t : bool := tht_LockCnt t >? 0.
Definition fthash_IsSameKey t (a : FTHashEntry) (k : K) : bool := tht_KeyCmp t (the_Key a) k =? 0.

(** Also clears [the_Val]. *)
Definition fthash_FreeVal h (te : FTHashEntry) : option (vheap V * FTHashEntry) :=
  (a ← the_Val te; (v ← h !! a; Some (delete a h, FTEntry (the_Birth te) (the_Key te) None))).

(** The value, if any, and the entry itself. *)
Definition fthash_FreeEntry h (te : FTHashEntry) : option (vheap V) :=
  match the_Val te with
  | Some _ => ('(h, _) ← fthash_FreeVal h te; Some h)
  | None => Some h
  end.

Fixpoint fthash_RemEntries h (ml : list FTHashEntry) : option (vheap V) :=
  match ml with
  | [] => Some h
  | te :: ml => (h ← fthash_FreeEntry h te; fthash_RemEntries h ml)
  end.

Fixpoint rem_all h (ls : list (list FTHashEntry)) : option (vheap V) :=
  match ls with
  | [] => Some h
  | ml :: ls => (h ← fthash_RemEntries h ml; rem_all h ls)
  end.

Definition fthash_Delete h t : option (vheap V) :=
  (h ← fthash_RemEntries h (tht_FreeEntries t);
   (h ← fthash_RemEntries h (tht_LockedEntries t);
    rem_all h (tht_Entries t))).

(** The chain around its first entry with the key. *)
Fixpoint find_key t (k : K) (l : list FTHashEntry)
  : option (list FTHashEntry * FTHashEntry * list FTHashEntry) :=
  match l with
  | [] => None
  | e :: l =>
      if fthash_IsSameKey t e k then Some ([], e, l)
      else ('(l1, x, l2) ← find_key t k l; Some (e :: l1, x, l2))
  end.

(** [dead > ent->the_Birth] on unsigned numbers. *)
Definition is_dead t (now : Z) (e : FTHashEntry) : bool := u32 (now - tht_TTL t) >? u32 (the_Birth e).

(** [now] is fthash_Now(); the entry found, the heap and the table. *)
Definition fthash_Lookup2 (now : Z) h t (Key : K) : option (option FTHashEntry * vheap V * FTHashTable) :=
  let hash := Z.to_nat (fthash_Hash t Key) in
  (thl ← tht_Entries t !! hash;
   match find_key t Key thl with
   | None => Some (None, h, t)
   | Some (l1, ent, l2) =>
       if is_dead t now ent
       then
       let t := set_Entries (<[hash := l1 ++ l2]> (tht_Entries t)) t in
       if fthash_IsLocked t
       then Some (None, h, set_Locked (ent :: tht_LockedEntries t) (set_LockCnt (tht_LockCnt t + 1) t))
       else ('(h, ent) ← fthash_FreeVal h ent; Some (None, h, set_Free (ent :: tht_FreeEntries t) t))
       else
       Some (Some ent, h, set_Entries (<[hash := ent :: l1 ++ l2]> (tht_Entries t))
               (set_LockCnt (tht_LockCnt t + 1) t))
   end).

(** A NULL value is like no entry. *)
Definition fthash_Lookup (now : Z) h t (Key : K) : option (option addr * vheap V * FTHashTable) :=
  ('(te, h, t) ← fthash_Lookup2 now h t Key; Some (te ≫= the_Val, h, t)).

(** [while(the = FTRemHead(lthl))] *)
Fixpoint unlock_entries h (lthl fthl : list FTHashEntry) : option (vheap V * list FTHashEntry) :=
  match lthl with
  | [] => Some (h, fthl)
  | the :: lthl => ('(h, the) ← fthash_FreeVal h the; unlock_entries h lthl (fthl ++ [the]))
  end.

(** [while((t->tht_NumEntries > t->tht_MaxEntries) && (the = FTRemHead(fthl)))] *)
Fixpoint trim_free h (Num Max : Z) (fthl : list FTHashEntry) : option (vheap V * Z * list FTHashEntry) :=
  match fthl with
  | [] => Some (h, Num, [])
  | the :: fthl' =>
      if Num >? Max then (h ← fthash_FreeEntry h the; trim_free h (Num - 1) Max fthl')
      else Some (h, Num, fthl)
  end.

(** [while(IsMinListEmpty(thl))]: the first chain from [RemStart] on, around
    the end, that is not empty. *)
Fixpoint find_chain (fuel : nat) (Size : Z) (ls : list (list FTHashEntry)) (RemStart : Z) : option Z :=
  match fuel with
  | O => None
  | S fuel =>
      (thl ← ls !! Z.to_nat RemStart;
       match thl with
       | [] => find_chain fuel Size ls (if RemStart + 1 =? Size then 0 else RemStart + 1)
       | _ :: _ => Some RemStart
       end)
  end.

(** [while((i > 0) && (the = FTRemTail(thl)))]; [fuel] is the length. *)
Fixpoint rem_tail (fuel : nat) h (i : Z) (thl : list FTHashEntry) : option (vheap V * Z * list FTHashEntry) :=
  match fuel with
  | O => Some (h, i, thl)
  | S fuel =>
      if i >? 0
      then match last thl with
           | None => Some (h, i, thl)
           | Some the => (h ← fthash_FreeEntry h the; rem_tail fuel h (i - 1) (removelast thl))
           end
      else Some (h, i, thl)
  end.

(** [while(i > 0)] *)
Fixpoint rem_entries (fuel : nat) (Size : Z) h (i RemStart : Z) (ls : list (list FTHashEntry))
  : option (vheap V * list (list FTHashEntry)) :=
  match fuel with
  | O => None
  | S fuel =>
      if i >? 0
      then (RemStart ← find_chain (S (length ls)) Size ls RemStart;
            (thl ← ls !! Z.to_nat RemStart;
             ('(h, i, thl) ← rem_tail (length thl) h i thl;
              rem_entries fuel Size h i RemStart (<[Z.to_nat RemStart := thl]> ls))))
      else Some (h, ls)
  end.

Definition fthash_UnLockAll (now : Z) h t : option (vheap V * FTHashTable) :=
  ('(h, fthl) ← unlock_entries h (tht_LockedEntries t) (tht_FreeEntries t);
   let t := set_LockCnt 0 (set_Locked [] t) in
   ('(h, Num, fthl) ← trim_free h (tht_NumEntries t) (tht_MaxEntries t) fthl;
    let t := set_Free fthl (set_NumEntries Num t) in
    if Num >? tht_MaxEntries t
    then
    let i := Num - tht_MaxEntries t in
    ('(h, ls) ← rem_entries (S (Z.to_nat i)) (tht_Size t) h i (now mod tht_Size t) (tht_Entries t);
     Some (h, set_NumEntries (tht_MaxEntries t) (set_Entries ls t)))
    else Some (h, t))).

(** [while(ent = FTRemHead(&t->tht_FreeEntries))] *)
Fixpoint flush_free h (Num : Z) (fthl : list FTHashEntry) : option (vheap V * Z) :=
  match fthl with
  | [] => Some (h, Num)
  | ent :: fthl => (h ← fthash_FreeEntry h ent; flush_free h (Num - 1) fthl)
  end.

Definition fthash_Flush h t : option (vheap V * FTHashTable) :=
  ('(h, Num) ← flush_free h (tht_NumEntries t) (tht_FreeEntries t);
   Some (h, set_Free [] (set_NumEntries Num t))).

(** One chain of fthash_Bury: what stays, and the free list. *)
Fixpoint bury_chain t (now : Z) h (l fthl : list FTHashEntry)
  : option (vheap V * list FTHashEntry * list FTHashEntry) :=
  match l with
  | [] => Some (h, [], fthl)
  | ent :: l =>
      if is_dead t now ent
      then ('(h, ent) ← fthash_FreeVal h ent; bury_chain t now h l (fthl ++ [ent]))
      else ('(h, l, fthl) ← bury_chain t now h l fthl; Some (h, ent :: l, fthl))
  end.

Fixpoint bury_chains t (now : Z) h (ls : list (list FTHashEntry)) (fthl : list FTHashEntry)
  : option (vheap V * list (list FTHashEntry) * list FTHashEntry) :=
  match ls with
  | [] => Some (h, [], fthl)
  | l :: ls =>
      ('(h, l, fthl) ← bury_chain t now h l fthl;
       ('(h, ls, fthl) ← bury_chains t now h ls fthl; Some (h, l :: ls, fthl)))
  end.

Definition fthash_Bury (now : Z) h t : option (vheap V * FTHashTable) :=
  if negb (fthash_IsLocked t)
  then ('(h, ls, fthl) ← bury_chains t now h (tht_Entries t) (tht_FreeEntries t);
        Some (h, set_Free fthl (set_Entries ls t)))
  else Some (h, t).

(** FTREMF_FREE_VAL and FTREMF_MOVE. *)
Definition fthash_Remove3 h t (Key : K) (free_val move : bool)
  : option (option addr * vheap V * FTHashTable) :=
  let hash := Z.to_nat (fthash_Hash t Key) in
  (thl ← tht_Entries t !! hash;
   match find_key t Key thl with
   | None => Some (None, h, t)
   | Some (l1, ent, l2) =>
       let t := set_Entries (<[hash := l1 ++ l2]> (tht_Entries t)) t in
       if move then Some (None, h, set_Locked (tht_LockedEntries t ++ [ent]) t)
       else if free_val
       then ('(h, ent) ← fthash_FreeVal h ent;
             Some (None, h, set_Free (tht_FreeEntries t ++ [ent]) t))
       else Some (the_Val ent, h,
                  set_Free (tht_FreeEntries t ++ [FTEntry (the_Birth ent) (the_Key ent) None]) t)
   end).

Definition fthash_Remove2 h t (Key : K) : option (option addr * vheap V * FTHashTable) :=
  fthash_Remove3 h t Key false false.
Definition fthash_Remove h t (Key : K) : option (vheap V * FTHashTable) :=
  ('(_, h, t) ← fthash_Remove3 h t Key true false; Some (h, t)).
Definition fthash_MarkRemoved h t (Key : K) : option (vheap V * FTHashTable) :=
  ('(_, h, t) ← fthash_Remove3 h t Key false true; Some (h, t)).

(** The entry of the free list is used again: only the fact that there is one
    matters, all its fields are set by the caller. *)
Definition GetFreeEnt (mem_ok : bool) t : bool * FTHashTable :=
  match tht_FreeEntries t with
  | _ :: l => (true, set_Free l t)
  | [] =>
      if tht_NumEntries t >=? tht_MaxEntries t + 10 then (false, t)
      else if mem_ok then (true, set_NumEntries (tht_NumEntries t + 1) t) else (false, t)
  end.

Definition fthash_Insert (mem_ok : bool) (now : Z) t (Key : K) (Val : addr) : option (bool * FTHashTable) :=
  let hash := Z.to_nat (fthash_Hash t Key) in
  let '(ok, t) := GetFreeEnt mem_ok t in
  if negb ok then Some (false, t)
  else (thl ← tht_Entries t !! hash;
        Some (true, set_Entries (<[hash := FTEntry now Key (Some Val) :: thl]> (tht_Entries t)) t)).

Definition fthash_SetMaxEntries (now : Z) h t (NewMaxEntries : Z) : option (vheap V * FTHashTable) :=
  let Old := tht_MaxEntries t in
  let t := set_MaxEntries NewMaxEntries t in
  if Old <=? NewMaxEntries then Some (h, t) else fthash_UnLockAll now h t.

Definition fthash_Lock t : FTHashTable := set_LockCnt (tht_LockCnt t + 1) t.

Definition fthash_SetTimeToLive t (TTL : Z) : Z * FTHashTable :=
  if TTL <? 0 then (-1, t) else (tht_TTL t, set_TTL TTL t).
End FtHash.
Arguments FTHashTable : clear implicits.
Arguments FTHashEntry : clear implicits.
