(* ===== verification/FtHashSpec.v ===== *)
(** * The invariant of the hash table

    [ft_ok] accounts for every value: those of the chains and of the locked
    entries are allocated, each belongs to one entry, and the rest of the heap
    belongs to the clients.  Every operation keeps it. *)
From S2P Require Import Prelude FtHash.

Section Own.
Context {K V : Type}.
Implicit Types (h : vheap V) (e : FTHashEntry K) (l : list (FTHashEntry K)) (X : gset addr).

(** The entries [l] own values of the heap, the clients own [X]. *)
Record own h l X : Prop := {
  own_val : Forall (fun e => is_Some (the_Val e)) l;
  own_nodup : NoDup (omap the_Val l);
  own_dom a : is_Some (h !! a) <-> a ∈ omap the_Val l \/ a ∈ X;
  own_disj a : a ∈ omap the_Val l -> a ∉ X
}.

#[export] Instance omap_perm {A B} (f : A -> option B) : Proper (Permutation ==> Permutation) (omap f).
Proof.
  induction 1 as [|x l l' _ IH|x y l|l1 l2 l3 _ IH1 _ IH2]; simpl; [done| | |by etrans].
  - destruct (f x); [by constructor|done].
  - destruct (f x), (f y); try done. by constructor.
Qed.

Lemma own_perm h l l' X : Permutation l l' -> own h l X -> own h l' X.
Proof.
  intros Hp [Hv Hn Hd Hj]. pose proof (omap_perm the_Val _ _ Hp) as Ho. constructor.
  - by rewrite <-Hp.
  - by rewrite <-Ho.
  - intros a. rewrite Hd, Ho. done.
  - intros a. rewrite <-Ho. apply Hj.
Qed.

#[export] Instance own_proper h : Proper (Permutation ==> eq ==> iff) (own h).
Proof. intros l l' Hp X X' <-. split; apply own_perm; [done|by symmetry]. Qed.

Lemma own_cons h e l X : own h (e :: l) X -> exists a, the_Val e = Some a /\
    is_Some (h !! a) /\ own (delete a h) l X.
Proof.
  intros [Hv Hn Hd Hj]. apply Forall_cons in Hv as [[a Ha] Hv]. exists a. split; [done|].
  simpl in *. rewrite Ha in *. apply NoDup_cons in Hn as [Hna Hn].
  split. { apply Hd. left. left. }
  constructor; [done|done| |].
  - intros b. destruct (decide (b = a)) as [->|Hb].
    + rewrite lookup_delete_eq. split; [by intros []|]. intros [?|Hx]; [done|].
      destruct (Hj a); [left|done].
    + rewrite lookup_delete_ne, Hd, elem_of_cons by done. split; [intros [[?|?]|?]; tauto|tauto].
  - intros b Hb. apply Hj. by right.
Qed.

Lemma free_val_ok h e l X : own h (e :: l) X ->
  exists a, the_Val e = Some a /\
    fthash_FreeVal h e = Some (delete a h, FTEntry (the_Birth e) (the_Key e) None) /\
    own (delete a h) l X.
Proof.
  intros H. destruct (own_cons _ _ _ _ H) as (a & Ha & [v Hv] & Ho). exists a. split; [done|].
  split; [|done]. unfold fthash_FreeVal. by rewrite Ha; simpl; rewrite Hv.
Qed.

Lemma free_entry_ok h e l X : own h (e :: l) X ->
  exists a, the_Val e = Some a /\ fthash_FreeEntry h e = Some (delete a h) /\ own (delete a h) l X.
Proof.
  intros H. destruct (free_val_ok _ _ _ _ H) as (a & Ha & Hf & Ho). exists a.
  split; [done|]. split; [|done]. unfold fthash_FreeEntry. by rewrite Ha, Hf.
Qed.

Definition blank e : Prop := the_Val e = None.

Lemma free_entry_blank h e : blank e -> fthash_FreeEntry h e = Some h.
Proof. unfold fthash_FreeEntry, blank. by intros ->. Qed.

(** Entries go back and forth between the table and the clients. *)
Lemma own_insert h l X a b k : own h l ({[a]} ∪ X) -> a ∉ X -> own h (FTEntry b k (Some a) :: l) X.
Proof.
  intros [Hv Hn Hd Hj] Ha. constructor; simpl.
  - constructor; [by eexists|done].
  - apply NoDup_cons. split; [|done]. intros Hin. apply (Hj a Hin). set_solver.
  - intros c. rewrite Hd. set_solver.
  - intros c [->|Hc]%elem_of_cons; [done|]. specialize (Hj c Hc). set_solver.
Qed.

Lemma own_give h l X e a : own h (e :: l) X -> the_Val e = Some a -> own h l ({[a]} ∪ X).
Proof.
  intros [Hv Hn Hd Hj] Ha. simpl in *. rewrite Ha in *. apply NoDup_cons in Hn as [Hna Hn].
  apply Forall_cons in Hv as [_ Hv]. constructor; [done|done| |].
  - intros c. rewrite Hd. set_solver.
  - intros c Hc. rewrite elem_of_union, elem_of_singleton. intros [->|Hx]; [done|].
    apply (Hj c); [by right|done].
Qed.

(** Freeing many. *)
Lemma unlock_entries_ok lthl : forall h fthl l X,
  own h (lthl ++ l) X -> Forall blank fthl ->
  exists h' fthl', unlock_entries h lthl fthl = Some (h', fthl') /\ own h' l X /\
    Forall blank fthl' /\ length fthl' = (length fthl + length lthl)%nat.
Proof.
  induction lthl as [|e lthl IH]; intros h fthl l X Ho Hb; simpl.
  - exists h, fthl. split; [done|]. split; [done|]. split; [done|lia].
  - destruct (free_val_ok _ _ _ _ Ho) as (a & _ & -> & Ho'). simpl.
    destruct (IH (delete a h) (fthl ++ [FTEntry (the_Birth e) (the_Key e) None]) l X Ho')
      as (h' & fthl' & -> & Hown & Hbl & Hlen).
    { apply Forall_app. split; [done|]. by constructor. }
    exists h', fthl'. split; [done|]. split; [done|]. split; [done|].
    rewrite Hlen, length_app. simpl. lia.
Qed.

Lemma trim_free_ok h Max fthl : forall Num, Forall blank fthl ->
  exists Num' fthl', trim_free h Num Max fthl = Some (h, Num', fthl') /\ Forall blank fthl' /\
    zlen fthl - zlen fthl' = Num - Num' /\ Num' <= Num /\ (Num' <= Max \/ fthl' = []) /\
    (Max < Num' + 1 \/ Num' = Num).
Proof.
  induction fthl as [|e fthl IH]; intros Num Hb; simpl.
  - exists Num, []. split_and!; try done; try lia; by right.
  - apply Forall_cons in Hb as [He Hb]. destruct (Num >? Max) eqn:E; zbool.
    + rewrite free_entry_blank by done. simpl. destruct (IH (Num - 1) Hb) as (n & f & -> & H1 & H2 & H3 & H4 & H5).
      exists n, f. split; [done|]. split; [done|]. split; [zlia|]. split; [lia|]. split; [done|]. lia.
    + exists Num, (e :: fthl). split; [done|]. split; [by constructor|]. split; [lia|]. split; [lia|].
      split; [by left|by right].
Qed.

Lemma flush_free_ok h fthl : forall Num, Forall blank fthl ->
  flush_free h Num fthl = Some (h, Num - zlen fthl).
Proof.
  induction fthl as [|e fthl IH]; intros Num Hb; simpl.
  - by rewrite Z.sub_0_r.
  - apply Forall_cons in Hb as [He Hb]. rewrite free_entry_blank by done. simpl. rewrite IH by done.
    do 2 f_equal. zlia.
Qed.

Lemma rem_entries_all h l X : forall l', own h (l ++ l') X ->
  exists h', fthash_RemEntries h l = Some h' /\ own h' l' X.
Proof.
  revert h. induction l as [|e l IH]; intros h l' Ho; simpl; [by exists h|].
  destruct (free_entry_ok _ _ _ _ Ho) as (a & _ & -> & Ho'). simpl. by apply IH.
Qed.
End Own.

(** ** Chains *)

Lemma length_insert_zlen {A} (l : list A) i x : zlen (<[i := x]> l) = zlen l.
Proof. unfold zlen. by rewrite length_insert. Qed.

Section Chains.
Context {K V : Type}.
Implicit Types (h : vheap V) (t : FTHashTable K) (e : FTHashEntry K) (l : list (FTHashEntry K)).
Implicit Types (ls : list (list (FTHashEntry K))) (X : gset addr).

(** Replacing one chain. *)
Lemma concat_at {A} (cs : list (list A)) i x : cs !! i = Some x ->
  exists A1 A2, concat cs = A1 ++ x ++ A2 /\ forall y, concat (<[i := y]> cs) = A1 ++ y ++ A2.
Proof.
  revert i. induction cs as [|c cs IH]; intros [|i]; simpl; try done.
  - intros [= ->]. by exists [], (concat cs).
  - intros Hi. destruct (IH i Hi) as (A1 & A2 & -> & H). exists (c ++ A1), A2.
    split; [by rewrite <-app_assoc|]. intros y. by rewrite H, <-app_assoc.
Qed.

Lemma find_key_Some t k l l1 x l2 : find_key t k l = Some (l1, x, l2) ->
  l = l1 ++ x :: l2 /\ fthash_IsSameKey t x k = true /\
  Forall (fun e => fthash_IsSameKey t e k = false) l1.
Proof.
  revert l1. induction l as [|e l IH]; intros l1; simpl; [done|].
  destruct (fthash_IsSameKey t e k) eqn:E.
  - intros [= <- <- <-]. by split_and!.
  - destruct (find_key t k l) as [[[l1' y] l2']|] eqn:F; [|done]. simpl. intros [= <- <- <-].
    destruct (IH _ eq_refl) as (-> & Hy & Hl). split_and!; [done|done|by constructor].
Qed.

Lemma find_key_None t k l : find_key t k l = None <->
  Forall (fun e => fthash_IsSameKey t e k = false) l.
Proof.
  induction l as [|e l IH]; simpl; [by split|]. rewrite Forall_cons.
  destruct (fthash_IsSameKey t e k); [split; [done|by intros []]|].
  destruct (find_key t k l) as [[[? ?] ?]|]; simpl; [split; [done|]|].
  - intros [_ HF]. by apply IH in HF.
  - split; [by intros _; split; [|apply IH]|done].
Qed.

(** The entries that hold a value. *)
Definition live t : list (FTHashEntry K) := concat (tht_Entries t) ++ tht_LockedEntries t.

(** The entry of a key: in a chain, and in the table. *)
Definition find_entry t (k : K) l : option (FTHashEntry K) :=
  '(_, e, _) ← find_key t k l; Some e.
Definition assoc t (k : K) : option (FTHashEntry K) :=
  thl ← tht_Entries t !! Z.to_nat (fthash_Hash t k); find_entry t k thl.

Lemma find_entry_cons t k e l :
  find_entry t k (e :: l) = if fthash_IsSameKey t e k then Some e else find_entry t k l.
Proof.
  unfold find_entry. simpl. destruct (fthash_IsSameKey t e k); [done|].
  by destruct (find_key t k l) as [[[? ?] ?]|].
Qed.

Lemma find_entry_app t k l1 l2 :
  find_entry t k (l1 ++ l2) = match find_entry t k l1 with Some e => Some e | None => find_entry t k l2 end.
Proof.
  induction l1 as [|e l1 IH]; [done|]. rewrite <-app_comm_cons, !find_entry_cons, IH.
  by destruct (fthash_IsSameKey t e k).
Qed.

Lemma find_entry_none t k l : Forall (fun e => fthash_IsSameKey t e k = false) l -> find_entry t k l = None.
Proof. intros H. unfold find_entry. by rewrite (proj2 (find_key_None t k l) H). Qed.

(** The function that compares keys tells them apart. *)
Definition key_law t : Prop := forall a b, tht_KeyCmp t a b = 0 <-> a = b.

Lemma same_key t e k : key_law t -> fthash_IsSameKey t e k = true <-> the_Key e = k.
Proof. intros H. unfold fthash_IsSameKey. by rewrite Z.eqb_eq. Qed.

Record ft_ok h t X : Prop := {
  ft_size : 0 < tht_Size t /\ zlen (tht_Entries t) = tht_Size t;
  ft_hash i l e : tht_Entries t !! i = Some l -> e ∈ l -> Z.to_nat (fthash_Hash t (the_Key e)) = i;
  ft_own : own h (live t) X;
  ft_free : Forall blank (tht_FreeEntries t);
  ft_num : tht_NumEntries t = zlen (live t) + zlen (tht_FreeEntries t);
  ft_max : 0 <= tht_MaxEntries t /\ tht_NumEntries t <= tht_MaxEntries t + 10;
  ft_lock : 0 <= tht_LockCnt t
}.

Lemma ft_chain h t X k : ft_ok h t X ->
  exists thl, tht_Entries t !! Z.to_nat (fthash_Hash t k) = Some thl.
Proof.
  intros [[Hs Hl] _ _ _ _ _ _]. apply lookup_lt_is_Some. unfold fthash_Hash.
  pose proof (Z.mod_pos_bound (tht_HashFunc t k) (tht_Size t) Hs). unfold zlen in Hl. lia.
Qed.

(** Two tables that hash and compare in the same way. *)
Definition same_shape t t' : Prop :=
  tht_Size t' = tht_Size t /\ tht_HashFunc t' = tht_HashFunc t /\ tht_KeyCmp t' = tht_KeyCmp t.

Lemma same_shape_hash t t' k : same_shape t t' -> fthash_Hash t' k = fthash_Hash t k.
Proof. intros (E1 & E2 & _). unfold fthash_Hash. by rewrite E1, E2. Qed.

Lemma same_shape_key t t' e k : same_shape t t' -> fthash_IsSameKey t' e k = fthash_IsSameKey t e k.
Proof. intros (_ & _ & E). unfold fthash_IsSameKey. by rewrite E. Qed.

Lemma find_key_shape t t' k l : same_shape t t' -> find_key t' k l = find_key t k l.
Proof.
  intros Hs. induction l as [|e l IH]; simpl; [done|]. by rewrite (same_shape_key t t'), IH.
Qed.

(** Changing one chain to a sublist of its entries and new ones of its hash. *)
Lemma hash_insert t ls i l l' :
  (forall j c e, ls !! j = Some c -> e ∈ c -> Z.to_nat (fthash_Hash t (the_Key e)) = j) ->
  ls !! i = Some l ->
  (forall e, e ∈ l' -> e ∈ l \/ Z.to_nat (fthash_Hash t (the_Key e)) = i) ->
  forall j c e, <[i := l']> ls !! j = Some c -> e ∈ c -> Z.to_nat (fthash_Hash t (the_Key e)) = j.
Proof.
  intros H Hi Hl j c e Hj He. destruct (decide (i = j)) as [<-|Hne].
  - rewrite list_lookup_insert_eq in Hj by (by eapply lookup_lt_Some). injection Hj as <-.
    destruct (Hl e He) as [He'|?]; [by eapply H|done].
  - rewrite list_lookup_insert_ne in Hj by done. by eapply H.
Qed.

(** What an operation on the chain of [k] means for the other keys. *)
Lemma assoc_insert t ls' thl' k k' (thl : list (FTHashEntry K)) :
  tht_Entries t !! Z.to_nat (fthash_Hash t k) = Some thl ->
  ls' = <[Z.to_nat (fthash_Hash t k) := thl']> (tht_Entries t) ->
  find_entry t k' thl' = find_entry t k' thl -> k' <> k ->
  (ls' !! Z.to_nat (fthash_Hash t k') ≫= find_entry t k') = assoc t k'.
Proof.
  intros Ht -> Hf Hne. unfold assoc.
  destruct (decide (Z.to_nat (fthash_Hash t k) = Z.to_nat (fthash_Hash t k'))) as [E|E].
  - rewrite <-E, list_lookup_insert_eq by (by eapply lookup_lt_Some). by rewrite Ht.
  - by rewrite list_lookup_insert_ne.
Qed.

Lemma assoc_shape t t' k : same_shape t t' ->
  assoc t' k = (tht_Entries t' !! Z.to_nat (fthash_Hash t k) ≫= find_entry t k).
Proof.
  intros Hs. unfold assoc. rewrite (same_shape_hash t t') by done.
  destruct (tht_Entries t' !! _) as [l|]; [|done]. simpl. unfold find_entry.
  by rewrite (find_key_shape t t').
Qed.

Lemma zlen_perm {A} (l l' : list A) : Permutation l l' -> zlen l = zlen l'.
Proof. intros H. unfold zlen. by rewrite H. Qed.

(** Taking an entry out of its chain. *)
Lemma live_remove t i l1 e l2 L : tht_Entries t !! i = Some (l1 ++ e :: l2) ->
  Permutation (live t) (e :: concat (<[i := l1 ++ l2]> (tht_Entries t)) ++ tht_LockedEntries t) /\
  Permutation (concat (<[i := e :: l1 ++ l2]> (tht_Entries t)) ++ L)
  (e :: concat (<[i := l1 ++ l2]> (tht_Entries t)) ++ L).
Proof.
  intros Hi. unfold live. destruct (concat_at _ _ _ Hi) as (A1 & A2 & -> & Hc). rewrite !Hc. split.
  - rewrite <-!app_assoc. simpl. by rewrite <-!Permutation_middle.
  - rewrite <-!app_assoc. simpl. by rewrite <-!Permutation_middle, <-?app_assoc.
Qed.
End Chains.
