(* ===== verification/FtHashOps.v ===== *)
(** * The operations of the hash table keep the invariant

    One lemma per operation of FtHash.v: it is defined, keeps [ft_ok], and
    does to the keys and to the heap what it should. *)
From S2P Require Import Prelude FtHash FtHashSpec.

Section Ops.
Context {K V : Type}.
Implicit Types (h : vheap V) (t : FTHashTable K) (e : FTHashEntry K) (X : gset addr).
Implicit Types (l thl fthl R : list (FTHashEntry K)) (ls : list (list (FTHashEntry K))).

Ltac ft_simpl := cbn [tht_Size tht_MaxEntries tht_TTL tht_HashFunc tht_KeyCmp tht_Entries
                        tht_FreeEntries tht_LockedEntries tht_NumEntries tht_LockCnt set_Entries set_Free set_Locked
                        set_NumEntries set_LockCnt set_MaxEntries set_TTL] in *.

Lemma hash_shape t t' : same_shape t t' -> forall k, fthash_Hash t' k = fthash_Hash t k.
Proof. intros H k. by apply same_shape_hash. Qed.

(** The lengths of the chains count the entries, whatever their order. *)
Lemma num_perm n (l l' : list (FTHashEntry K)) f : Permutation l l' -> n = zlen l + f -> n = zlen l' + f.
Proof. intros H ->. by rewrite (zlen_perm _ _ H). Qed.

Definition lookup_post (now : Z) h t X (k : K) (r : option (FTHashEntry K)) h' t' : Prop :=
  same_shape t t' /\ ft_ok h' t' X /\ (forall k', k' <> k -> assoc t' k' = assoc t k') /\
  tht_TTL t' = tht_TTL t /\
  match assoc t k with
  | None => r = None /\ h' = h /\ t' = t
  | Some e =>
      if is_dead t now e
      then r = None /\
      (if fthash_IsLocked t then h' = h /\ tht_LockCnt t' = tht_LockCnt t + 1
       else exists a, the_Val e = Some a /\ h' = delete a h /\ tht_LockCnt t' = tht_LockCnt t)
      else r = Some e /\ h' = h /\ assoc t' k = Some e /\ tht_LockCnt t' = tht_LockCnt t + 1
  end.

Lemma fthash_Lookup2_ok now h t X k : ft_ok h t X -> key_law t ->
  exists r h' t', fthash_Lookup2 now h t k = Some (r, h', t') /\ lookup_post now h t X k r h' t'.
Proof.
  intros Hok Hkey. destruct (ft_chain _ _ _ k Hok) as [thl Hthl]. unfold fthash_Lookup2. cbv zeta. rewrite Hthl.
  cbn [mbind option_bind]. unfold lookup_post. unfold assoc at 3. rewrite Hthl. cbn [mbind option_bind].
  unfold find_entry. destruct (find_key t k thl) as [[[l1 ent] l2]|] eqn:Ef; cbn [mbind option_bind].
  2:{ exists None, h, t. by split_and!. }
  destruct (find_key_Some _ _ _ _ _ _ Ef) as (-> & Hsame & Hl1).
  destruct (live_remove t _ l1 ent l2 (tht_LockedEntries t) Hthl) as [Hp1 Hp2].
  pose proof Hok as [Hsz Hh Ho Hf Hn Hm Hlk].
  assert (Hother : forall thl', (forall k', k' <> k -> find_entry t k' thl' = find_entry t k' (l1 ++ ent :: l2)) ->
          forall t', same_shape t t' -> tht_Entries t' = <[Z.to_nat (fthash_Hash t k) := thl']> (tht_Entries t) ->
          forall k', k' <> k -> assoc t' k' = assoc t k').
  { intros thl' Hthl' t' Hs Ht' k' Hne. rewrite (assoc_shape t t') by done. rewrite Ht'.
    by eapply assoc_insert; [exact Hthl|done|apply Hthl'|]. }
  assert (Hne : forall k', k' <> k -> fthash_IsSameKey t ent k' = false).
  { intros k' Hk. apply not_true_is_false. rewrite same_key by done. apply same_key in Hsame; [|done]. congruence. }
  destruct (is_dead t now ent) eqn:Ed.
  - assert (Hout : forall k', k' <> k -> find_entry t k' (l1 ++ l2) = find_entry t k' (l1 ++ ent :: l2)).
    { intros k' Hk. by rewrite !find_entry_app, find_entry_cons, Hne. }
    assert (Hent : forall e, e ∈ l1 ++ l2 -> e ∈ l1 ++ ent :: l2 \/ Z.to_nat (fthash_Hash t (the_Key e)) = Z.to_nat (fthash_Hash t k)).
    { intros e He. left. set_solver. }
    unfold fthash_IsLocked. ft_simpl. destruct (tht_LockCnt t >? 0) eqn:El; zbool.
    + eexists None, h, _. split; [done|]. split; [done|]. split.
      { constructor; ft_simpl; try done.
        - by rewrite length_insert_zlen.
        - intros i l e. by apply (hash_insert t _ _ _ _ Hh Hthl Hent).
        - eapply own_perm; [|exact Ho]. rewrite Hp1. unfold live. ft_simpl. by rewrite Permutation_middle.
        - eapply num_perm; [|exact Hn]. rewrite Hp1. unfold live. ft_simpl. by rewrite Permutation_middle.
        - lia. }
      split; [by eapply Hother|]. done.
    + rewrite Hp1 in Ho. destruct (free_val_ok _ _ _ _ Ho) as (a & Ha & -> & Ho'). cbn [mbind option_bind].
      eexists None, (delete a h), _. split; [done|]. split; [done|]. split.
      { constructor; ft_simpl; try done.
        - by rewrite length_insert_zlen.
        - intros i l e. by apply (hash_insert t _ _ _ _ Hh Hthl Hent).
        - by constructor.
        - rewrite Hn, (zlen_perm _ _ Hp1). unfold live. ft_simpl. zlia. }
      split; [by eapply Hother|]. split; [done|]. split; [done|]. by exists a.
  - eexists (Some ent), h, _. split; [done|]. split; [done|]. split.
    { constructor; ft_simpl; try done.
      - by rewrite length_insert_zlen.
      - intros i l e. apply (hash_insert t _ _ _ _ Hh Hthl). intros e' He'. left. set_solver.
      - eapply own_perm; [|exact Ho]. rewrite Hp1. unfold live. ft_simpl. by rewrite Hp2.
      - eapply num_perm; [|exact Hn]. rewrite Hp1. unfold live. ft_simpl. by rewrite Hp2.
      - lia. }
    split.
    { eapply Hother; [|done|done]. intros k' Hk. by rewrite find_entry_cons, !find_entry_app, find_entry_cons, Hne. }
    split; [done|]. split; [done|]. split; [done|]. split; [|done].
    rewrite (assoc_shape t) by done. ft_simpl. rewrite list_lookup_insert_eq by (by eapply lookup_lt_Some). cbn [mbind option_bind].
    rewrite find_entry_cons. by rewrite Hsame.
Qed.

(** ** Taking a key out *)

(** The entry of the key that is found once the first one is gone. *)
Definition next_entry t (k : K) : option (FTHashEntry K) :=
  thl ← tht_Entries t !! Z.to_nat (fthash_Hash t k); '(_, _, l2) ← find_key t k thl; find_entry t k l2.
(** The entry found for the key is taken out. *)
Definition taken_out t t' (k : K) : Prop :=
  assoc t' k = next_entry t k /\ forall k', k' <> k -> assoc t' k' = assoc t k'.

Lemma assoc_None_next t k : assoc t k = None -> next_entry t k = None.
Proof.
  unfold assoc, next_entry. destruct (_ !! _) as [thl|]; [|done]. simpl. unfold find_entry at 1.
  by destruct (find_key t k thl) as [[[? ?] ?]|].
Qed.

(** The chain of [k] without its first entry of [k]. *)
Lemma take_out t t' k l1 ent l2 : key_law t ->
  tht_Entries t !! Z.to_nat (fthash_Hash t k) = Some (l1 ++ ent :: l2) -> find_key t k (l1 ++ ent :: l2) = Some (l1, ent, l2) ->
  same_shape t t' -> tht_Entries t' = <[Z.to_nat (fthash_Hash t k) := l1 ++ l2]> (tht_Entries t) -> taken_out t t' k.
Proof.
  intros Hkey Hthl Ef Hs Ht. destruct (find_key_Some _ _ _ _ _ _ Ef) as (_ & Hsame & Hl1). split.
  - rewrite (assoc_shape t t'), Ht, list_lookup_insert_eq by (done || by eapply lookup_lt_Some). unfold next_entry. rewrite Hthl.
    cbn [mbind option_bind]. rewrite Ef. cbn [mbind option_bind]. by rewrite find_entry_app, find_entry_none.
  - intros k' Hne. rewrite (assoc_shape t t'), Ht by done. eapply assoc_insert; [exact Hthl|done| |done].
    rewrite !find_entry_app, find_entry_cons.
    assert (E : fthash_IsSameKey t ent k' = false); [|by rewrite E].
    apply not_true_is_false. rewrite same_key by done. apply same_key in Hsame; [|done]. congruence.
Qed.

Lemma fthash_Remove3_ok h t X k free_val move : ft_ok h t X -> key_law t ->
  exists r h' t', fthash_Remove3 h t k free_val move = Some (r, h', t') /\ same_shape t t' /\ taken_out t t' k /\
    tht_LockCnt t' = tht_LockCnt t /\ tht_TTL t' = tht_TTL t /\ tht_NumEntries t' = tht_NumEntries t /\
    match assoc t k ≫= the_Val with
    | None => r = None /\ h' = h /\ t' = t
    | Some a =>
        if (move : bool) then r = None /\ h' = h /\ ft_ok h t' X
        else if (free_val : bool) then r = None /\ h' = delete a h /\ ft_ok (delete a h) t' X
        else r = Some a /\ h' = h /\ ft_ok h t' ({[a]} ∪ X)
    end.
Proof.
  intros Hok Hkey. destruct (ft_chain _ _ _ k Hok) as [thl Hthl]. unfold fthash_Remove3. cbv zeta.
  assert (Ha : assoc t k = find_entry t k thl) by (unfold assoc; by rewrite Hthl). rewrite Ha. rewrite Hthl. cbn [mbind option_bind].
  unfold find_entry. destruct (find_key t k thl) as [[[l1 ent] l2]|] eqn:Ef; cbn [mbind option_bind].
  2:{ exists None, h, t. split; [done|]. split; [done|]. split; [|done]. split; [|done].
      rewrite assoc_None_next by (rewrite Ha; unfold find_entry; by rewrite Ef). rewrite Ha. unfold find_entry. by rewrite Ef. }
  destruct (find_key_Some _ _ _ _ _ _ Ef) as (-> & _ & _).
  destruct (live_remove t _ l1 ent l2 (tht_LockedEntries t) Hthl) as [Hp1 _].
  destruct Hok as [Hsz Hh Ho Hf Hn Hm Hlk].
  assert (Hhash : forall j c e, <[Z.to_nat (fthash_Hash t k) := l1 ++ l2]> (tht_Entries t) !! j = Some c -> e ∈ c ->
            Z.to_nat (fthash_Hash t (the_Key e)) = j).
  { apply (hash_insert t _ _ _ _ Hh Hthl). intros e' He'. left. set_solver. }
  assert (Hout := fun t' => take_out t t' k l1 ent l2 Hkey Hthl Ef).
  pose proof (zlen_perm _ _ Hp1) as Hz. rewrite zlen_cons in Hz.
  pose proof (own_perm _ _ _ _ Hp1 Ho) as Ho1. destruct (free_val_ok _ _ _ _ Ho1) as (a & Hv & Hfree & Ho'). rewrite Hv.
  assert (Hb : forall e, blank e -> Forall blank (tht_FreeEntries t ++ [e])).
  { intros e He. apply Forall_app. split; [done|]. by constructor. }
  destruct move; [|destruct free_val].
  - eexists None, h, _. split; [done|]. split; [done|]. split; [by apply Hout|]. do 5 (split; [done|]).
    assert (Hp : Permutation (live t) (concat (<[Z.to_nat (fthash_Hash t k) := l1 ++ l2]> (tht_Entries t))
                                       ++ tht_LockedEntries t ++ [ent])).
    { rewrite Hp1, app_assoc. by rewrite (Permutation_app_comm _ [ent]). }
    constructor; ft_simpl; try done; [by rewrite length_insert_zlen|by eapply own_perm; [exact Hp|]|by eapply num_perm; [exact Hp|]].
  - rewrite Hfree. cbn [mbind option_bind]. eexists None, _, _. split; [done|]. split; [done|]. split; [by apply Hout|]. do 5 (split; [done|]).
    constructor; ft_simpl; try done; [by rewrite length_insert_zlen|by apply Hb|]. unfold live. ft_simpl. zlia.
  - eexists (Some a), h, _. split; [done|]. split; [done|]. split; [by apply Hout|]. do 5 (split; [done|]).
    constructor; ft_simpl; try done; [by rewrite length_insert_zlen| |by apply Hb|unfold live; ft_simpl; zlia].
    by eapply own_give.
Qed.

(** A dead entry goes when it is looked up. *)
Lemma Lookup2_dead_out now h t k r h' t' e : key_law t -> fthash_Lookup2 now h t k = Some (r, h', t') ->
  assoc t k = Some e -> is_dead t now e = true -> taken_out t t' k.
Proof.
  intros Hkey Hr Ha Hd. unfold fthash_Lookup2 in Hr. cbv zeta in Hr. unfold assoc, find_entry in Ha.
  destruct (tht_Entries t !! _) as [thl|] eqn:Hthl; [|done]. cbn [mbind option_bind] in *.
  destruct (find_key t k thl) as [[[l1 ent] l2]|] eqn:Ef; [|done]. simpl in Ha. injection Ha as ->.
  destruct (find_key_Some _ _ _ _ _ _ Ef) as (-> & _ & _). rewrite Hd in Hr.
  destruct (fthash_IsLocked _).
  - injection Hr as _ _ <-. by apply (take_out t _ k l1 e l2).
  - destruct (fthash_FreeVal h e) as [[? ?]|]; [|done]. injection Hr as _ _ <-. by apply (take_out t _ k l1 e l2).
Qed.

(** The entries of the key before are behind the new one. *)
Lemma Insert_next mem_ok now t k a t' : key_law t -> fthash_Insert mem_ok now t k a = Some (true, t') -> next_entry t' k = assoc t k.
Proof.
  intros Hkey Hr. unfold fthash_Insert in Hr. cbv zeta in Hr. destruct (GetFreeEnt mem_ok t) as [ok t1] eqn:Eg.
  destruct ok; [|done]. simpl negb in Hr. cbv iota in Hr.
  assert (Hg : exists fr n, t1 = set_Free fr (set_NumEntries n t)).
  { unfold GetFreeEnt in Eg. destruct (tht_FreeEntries t) as [|f fr] eqn:E.
    - destruct (_ >=? _); [done|]. destruct mem_ok; [|done]. injection Eg as <-. exists [], (tht_NumEntries t + 1).
      rewrite <-E at 1. by destruct t.
    - injection Eg as <-. exists fr, (tht_NumEntries t). by destruct t. }
  destruct Hg as (fr & n & ->).
  ft_simpl. unfold assoc. destruct (tht_Entries t !! Z.to_nat (fthash_Hash t k)) as [thl|] eqn:Et; [|done].
  cbn [mbind option_bind] in *. injection Hr as <-. set (t1 := set_Entries _ _).
  assert (Hs : same_shape t t1) by done.
  unfold next_entry. rewrite (same_shape_hash t t1) by done. subst t1. ft_simpl.
  rewrite list_lookup_insert_eq by (by eapply lookup_lt_Some). cbn [mbind option_bind].
  rewrite (find_key_shape t) by done. cbn [find_key]. rewrite (proj2 (same_key t (FTEntry now k (Some a)) k Hkey)) by done.
  cbn [mbind option_bind]. unfold find_entry. by rewrite (find_key_shape t).
Qed.

Lemma fthash_MarkRemoved_ok h t X k : ft_ok h t X -> key_law t ->
  exists t', fthash_MarkRemoved h t k = Some (h, t') /\ same_shape t t' /\ ft_ok h t' X /\
    taken_out t t' k /\ tht_LockCnt t' = tht_LockCnt t /\ tht_TTL t' = tht_TTL t /\ tht_NumEntries t' = tht_NumEntries t.
Proof.
  intros Hok Hkey. destruct (fthash_Remove3_ok h t X k false true Hok Hkey) as (r & h' & t' & Hr & Hs & Ho & ? & ? & ? & Hc).
  unfold fthash_MarkRemoved. rewrite Hr. cbn [mbind option_bind].
  destruct (assoc t k ≫= the_Val); destruct Hc as (-> & -> & Hc); [by exists t'|]. subst. by exists t.
Qed.

(** ** Putting a key in *)

Lemma fthash_Insert_ok mem_ok now h t X k a : ft_ok h t ({[a]} ∪ X) -> a ∉ X -> key_law t ->
  exists ok t', fthash_Insert mem_ok now t k a = Some (ok, t') /\ same_shape t t' /\
    tht_LockCnt t' = tht_LockCnt t /\ tht_TTL t' = tht_TTL t /\
    (if (ok : bool)
     then ft_ok h t' X /\ assoc t' k = Some (FTEntry now k (Some a)) /\
     (forall k', k' <> k -> assoc t' k' = assoc t k')
     else t' = t /\ tht_FreeEntries t = [] /\ (mem_ok = false \/ tht_NumEntries t = tht_MaxEntries t + 10)).
Proof.
  intros Hok Ha Hkey. destruct (ft_chain _ _ _ k Hok) as [thl Hthl].
  pose proof Hok as [Hsz Hh Ho Hf Hn Hm Hlk]. unfold fthash_Insert. cbv zeta.
  assert (Hget : exists ok t1, GetFreeEnt mem_ok t = (ok, t1) /\
          (if ok then exists fr n, t1 = set_Free fr (set_NumEntries n t) /\ Forall blank fr /\
           n = zlen (live t) + 1 + zlen fr /\ n <= tht_MaxEntries t + 10
           else t1 = t /\ tht_FreeEntries t = [] /\ (mem_ok = false \/ tht_NumEntries t = tht_MaxEntries t + 10))).
  { unfold GetFreeEnt. destruct (tht_FreeEntries t) as [|f fr] eqn:E.
    - destruct (_ >=? _) eqn:E2; zbool; [exists false, t; split; [done|]; split_and!; try done; right; lia|].
      destruct mem_ok; [|exists false, t; split; [done|]; split_and!; try done; by left].
      exists true, (set_NumEntries (tht_NumEntries t + 1) t). split; [done|].
      exists [], (tht_NumEntries t + 1). split; [rewrite <-E at 1; by destruct t|]. split; [done|]. split; [zlia|lia].
    - exists true, (set_Free fr t). split; [done|]. exists fr, (tht_NumEntries t).
      split; [by destruct t|]. split; [by apply Forall_cons in Hf as []|]. split; [zlia|lia]. }
  destruct Hget as (ok & t1 & -> & Hget). destruct ok; simpl negb; cbv iota.
  2:{ destruct Hget as (-> & ?). exists false, t. do 4 (split; [done|]). done. }
  destruct Hget as (fr & n & -> & Hfr & Hn' & Hm'). ft_simpl. rewrite Hthl. cbn [mbind option_bind].
  eexists true, _. split; [done|]. split; [done|]. split; [done|]. split; [done|].
  destruct (concat_at _ _ _ Hthl) as (A1 & A2 & Hc & Hc').
  assert (Hp : Permutation (FTEntry now k (Some a) :: live t)
            (concat (<[Z.to_nat (fthash_Hash t k) := FTEntry now k (Some a) :: thl]> (tht_Entries t)) ++ tht_LockedEntries t)).
  { unfold live. rewrite Hc, Hc'. rewrite <-!app_assoc. simpl. by rewrite <-Permutation_middle. }
  split.
  { constructor; ft_simpl; try done.
    - by rewrite length_insert_zlen.
    - intros i l e. apply (hash_insert t _ _ _ _ Hh Hthl). intros e' [->|He']%elem_of_cons; [by right|by left].
    - eapply own_perm; [exact Hp|]. by apply own_insert.
    - unfold live. ft_simpl. rewrite <-(zlen_perm _ _ Hp). zlia.
    - split; [by destruct Hm|lia]. }
  split.
  - rewrite (assoc_shape t) by done. ft_simpl.
    rewrite list_lookup_insert_eq by (by eapply lookup_lt_Some). cbn [mbind option_bind].
    rewrite find_entry_cons. by rewrite (proj2 (same_key t (FTEntry now k (Some a)) k Hkey)).
  - intros k' Hne. rewrite (assoc_shape t) by done. ft_simpl.
    eapply assoc_insert; [exact Hthl|done| |done]. rewrite find_entry_cons.
    assert (E : fthash_IsSameKey t (FTEntry now k (Some a)) k' = false); [|by rewrite E].
    apply not_true_is_false. rewrite same_key by done. simpl. congruence.
Qed.

(** ** Burying and flushing *)

Definition alive t (now : Z) (l : list (FTHashEntry K)) : list (FTHashEntry K) :=
  filter (fun e => is_dead t now e = false) l.

Lemma bury_chain_ok t now l : forall h fthl R X, own h (l ++ R) X -> Forall blank fthl ->
  exists h' fthl', bury_chain t now h l fthl = Some (h', alive t now l, fthl') /\
    own h' (alive t now l ++ R) X /\ Forall blank fthl' /\
    zlen fthl' + zlen (alive t now l) = zlen fthl + zlen l.
Proof.
  unfold alive. induction l as [|e l IH]; intros h fthl R X Ho Hb; simpl; [by exists h, fthl|].
  rewrite filter_cons. destruct (is_dead t now e) eqn:E; cbn [mbind option_bind].
  - destruct (free_val_ok _ _ _ _ Ho) as (a & _ & -> & Ho'). cbn [mbind option_bind].
    destruct (IH (delete a h) (fthl ++ [FTEntry (the_Birth e) (the_Key e) None]) R X Ho')
      as (h' & f' & -> & H1 & H2 & H3); [apply Forall_app; split; [done|by constructor]|].
    rewrite decide_False by done. exists h', f'. split_and!; try done. zlia.
  - destruct (IH h fthl (e :: R) X) as (h' & f' & -> & H1 & H2 & H3); [by rewrite <-Permutation_middle|done|].
    rewrite decide_True by done. cbn [mbind option_bind]. exists h', f'. split; [done|].
    split; [by rewrite <-Permutation_middle in H1|]. split; [done|]. zlia.
Qed.

Lemma bury_chains_ok t now ls : forall h fthl R X, own h (concat ls ++ R) X -> Forall blank fthl ->
  exists h' fthl', bury_chains t now h ls fthl = Some (h', alive t now <$> ls, fthl') /\
    own h' (concat (alive t now <$> ls) ++ R) X /\ Forall blank fthl' /\
    zlen fthl' + zlen (concat (alive t now <$> ls)) = zlen fthl + zlen (concat ls).
Proof.
  induction ls as [|l ls IH]; intros h fthl R X Ho Hb; [by exists h, fthl|].
  rewrite fmap_cons. cbn [concat bury_chains] in *. rewrite <-app_assoc in Ho.
  destruct (bury_chain_ok t now l _ _ _ _ Ho Hb) as (h1 & f1 & -> & Ho1 & Hb1 & Hl1). cbn [mbind option_bind].
  destruct (IH h1 f1 (alive t now l ++ R) X) as (h2 & f2 & -> & Ho2 & Hb2 & Hl2); [|done|].
  { by rewrite (app_assoc (concat ls)), (Permutation_app_comm (concat ls)), <-app_assoc. }
  cbn [mbind option_bind]. exists h2, f2. split; [done|]. split; [|split; [done|zlia]].
  by rewrite <-app_assoc, (app_assoc (alive t now l)), (Permutation_app_comm (alive t now l)), <-app_assoc.
Qed.

Lemma fthash_Bury_ok now h t X : ft_ok h t X ->
  exists h' t', fthash_Bury now h t = Some (h', t') /\ same_shape t t' /\ ft_ok h' t' X /\
    tht_LockCnt t' = tht_LockCnt t /\ tht_TTL t' = tht_TTL t /\
    (if fthash_IsLocked t then h' = h /\ t' = t
     else tht_Entries t' = alive t now <$> tht_Entries t).
Proof.
  intros Hok. unfold fthash_Bury. destruct (fthash_IsLocked t); simpl negb; cbv iota.
  { exists h, t. by split_and!. }
  pose proof Hok as [Hsz Hh Ho Hf Hn Hm Hlk].
  destruct (bury_chains_ok t now (tht_Entries t) h (tht_FreeEntries t) (tht_LockedEntries t) X Ho Hf)
    as (h' & f & -> & Ho' & Hb' & Hl). cbn [mbind option_bind].
  eexists h', _. split; [done|]. split; [done|]. split; [|done].
  constructor; ft_simpl; try done.
  - unfold zlen. by rewrite length_fmap.
  - intros i l e Hi He. rewrite list_lookup_fmap in Hi.
    destruct (tht_Entries t !! i) as [l0|] eqn:E; [|done]. injection Hi as <-.
    apply list_elem_of_filter in He as [_ He]. by eapply Hh.
  - rewrite Hn. unfold live in *. ft_simpl. rewrite !zlen_app in *. lia.
Qed.

Lemma fthash_Flush_ok h t X : ft_ok h t X ->
  exists t', fthash_Flush h t = Some (h, t') /\ same_shape t t' /\ ft_ok h t' X /\
    tht_LockCnt t' = tht_LockCnt t /\ tht_TTL t' = tht_TTL t /\ tht_Entries t' = tht_Entries t /\
    tht_FreeEntries t' = [] /\ tht_NumEntries t' <= tht_NumEntries t.
Proof.
  intros [Hsz Hh Ho Hf Hn Hm Hlk]. unfold fthash_Flush. rewrite flush_free_ok by done.
  cbn [mbind option_bind]. eexists _. split; [done|]. split; [done|].
  pose proof (zlen_nonneg (tht_FreeEntries t)). split; [|ft_simpl; split_and!; done || lia].
  constructor; ft_simpl; try done; try lia. unfold live in *. ft_simpl. rewrite zlen_nil. lia.
Qed.

(** ** Unlocking *)

Lemma removelast_last l e : last l = Some e -> exists l', l = l' ++ [e] /\ removelast l = l'.
Proof.
  intros H. apply last_Some in H as [l' ->]. exists l'. split; [done|]. by rewrite List.removelast_last.
Qed.

Lemma rem_tail_ok fuel : forall h i thl R X, (length thl <= fuel)%nat -> own h (thl ++ R) X -> 0 <= i ->
  exists h' i' thl', rem_tail fuel h i thl = Some (h', i', thl') /\ own h' (thl' ++ R) X /\
    thl' `prefix_of` thl /\ i - i' = zlen thl - zlen thl' /\ 0 <= i' <= i /\ (i' = 0 \/ thl' = []).
Proof.
  induction fuel as [|fuel IH]; intros h i thl R X Hf Ho Hi; simpl.
  - assert (thl = []) as -> by (destruct thl; [done|simpl in Hf; lia]).
    exists h, i, []. split_and!; done || lia || by right.
  - destruct (i >? 0) eqn:E; zbool.
    2:{ exists h, i, thl. split_and!; done || lia || (left; lia). }
    destruct (last thl) as [x|] eqn:El.
    2:{ apply last_None in El as ->. exists h, i, []. split_and!; done || lia || by right. }
    destruct (removelast_last _ _ El) as (l' & -> & ->).
    destruct (free_entry_ok h x (l' ++ R) X) as (a & _ & -> & Ho').
    { eapply own_perm; [|exact Ho]. rewrite <-app_assoc. simpl. by rewrite <-Permutation_middle. }
    cbn [mbind option_bind]. rewrite length_app in Hf. simpl in Hf.
    destruct (IH (delete a h) (i - 1) l' R X) as (h' & i' & thl' & -> & H1 & H2 & H3 & H4 & H5); [lia|done|lia|].
    exists h', i', thl'. split; [done|]. split; [done|]. split; [by apply prefix_app_r|].
    split; [zlia|]. split; [lia|done].
Qed.

(** Some chain is not empty, so the search ends there. *)
Lemma find_chain_ok ls Size : zlen ls = Size -> 0 < Size -> concat ls <> [] ->
  forall RemStart, 0 <= RemStart < Size ->
  exists j thl, find_chain (S (length ls)) Size ls RemStart = Some j /\ 0 <= j < Size /\
    ls !! Z.to_nat j = Some thl /\ thl <> [].
Proof.
  intros Hlen Hs Hne.
  assert (Hex : exists d, 0 <= d < Size /\ exists thl, ls !! Z.to_nat d = Some thl /\ thl <> []).
  { destruct (concat ls) as [|x c] eqn:E; [done|].
    assert (Hx : x ∈ concat ls) by (rewrite E; left). apply list_elem_of_In, in_concat in Hx as (l & Hl & Hx).
    apply list_elem_of_In, list_elem_of_lookup in Hl as [i Hi]. exists (Z.of_nat i).
    split; [apply lookup_lt_Some in Hi; unfold zlen in Hlen; lia|]. rewrite Nat2Z.id. exists l. split; [done|].
    by intros ->. }
  destruct Hex as (d & Hd & thl & Hthl & Hnn).
  assert (Hgo : forall fuel r, 0 <= r < Size -> (d - r) mod Size < Z.of_nat fuel ->
          exists j thl, find_chain fuel Size ls r = Some j /\ 0 <= j < Size /\ ls !! Z.to_nat j = Some thl /\ thl <> []).
  { induction fuel as [|fuel IH]; intros r Hr Hf.
    - pose proof (Z.mod_pos_bound (d - r) Size Hs). lia.
    - cbn [find_chain]. destruct (lookup_lt_is_Some_2 ls (Z.to_nat r)) as [c Hc]; [unfold zlen in Hlen; lia|].
      rewrite Hc. cbn [mbind option_bind]. destruct c as [|x c]; [|by exists r, (x :: c)].
      assert (Hrd : r <> d) by (intros ->; rewrite Hthl in Hc; congruence).
      assert (Hstep : (d - (r + 1)) mod Size = (d - r) mod Size - 1).
      { destruct (Z.lt_ge_cases d r).
        - rewrite <-(Z.mod_unique_pos (d - r) Size (-1) (d - r + Size)) by lia.
          symmetry. apply (Z.mod_unique_pos _ Size (-1)); lia.
        - rewrite (Z.mod_small (d - r)) by lia. rewrite Z.mod_small by lia. lia. }
      destruct (r + 1 =? Size) eqn:E; zbool.
      + apply IH; [lia|]. rewrite Z.sub_0_r.
        replace (d - (r + 1)) with (d + (-1) * Size) in Hstep by lia. rewrite Z.mod_add in Hstep by lia. lia.
      + apply IH; lia. }
  intros r Hr. apply Hgo; [done|]. pose proof (Z.mod_pos_bound (d - r) Size Hs). unfold zlen in Hlen. lia.
Qed.

(** What is left of the chains. *)
Definition trimmed (ls ls' : list (list (FTHashEntry K))) : Prop := Forall2 (fun l l' => l' `prefix_of` l) ls ls'.

Lemma trimmed_refl ls : trimmed ls ls.
Proof. apply Forall2_same_length_lookup_2; [done|]. by intros i x y -> [= ->]. Qed.

Lemma trimmed_trans ls1 ls2 ls3 : trimmed ls1 ls2 -> trimmed ls2 ls3 -> trimmed ls1 ls3.
Proof. apply Forall2_trans. intros x y z H1 H2. by etrans; [exact H2|]. Qed.

Lemma trimmed_insert ls j l l' : ls !! j = Some l -> l' `prefix_of` l -> trimmed ls (<[j := l']> ls).
Proof.
  intros Hj Hp. apply Forall2_same_length_lookup_2; [by rewrite length_insert|].
  intros i x y Hx Hy. destruct (decide (i = j)) as [->|Hne].
  - rewrite list_lookup_insert_eq in Hy by (by eapply lookup_lt_Some). congruence.
  - rewrite list_lookup_insert_ne in Hy by done. simplify_eq. done.
Qed.

Lemma rem_entries_ok fuel : forall h i r ls Size X, zlen ls = Size -> 0 < Size -> 0 <= r < Size ->
  0 <= i <= zlen (concat ls) -> i < Z.of_nat fuel -> own h (concat ls) X ->
  exists h' ls', rem_entries fuel Size h i r ls = Some (h', ls') /\ own h' (concat ls') X /\
    trimmed ls ls' /\ zlen (concat ls') = zlen (concat ls) - i.
Proof.
  induction fuel as [|fuel IH]; intros h i r ls Size X Hlen Hs Hr Hi Hf Ho; [lia|]. cbn [rem_entries].
  destruct (i >? 0) eqn:E; zbool.
  2:{ exists h, ls. split_and!; try done; [apply trimmed_refl|lia]. }
  destruct (find_chain_ok ls Size Hlen Hs) with (RemStart := r) as (j & thl & -> & Hj & Hthl & Hnn); [|done|].
  { intros Hnil. rewrite Hnil in Hi. change (zlen (@nil (FTHashEntry K))) with 0 in Hi. lia. }
  cbn [mbind option_bind]. rewrite Hthl. cbn [mbind option_bind].
  destruct (concat_at _ _ _ Hthl) as (A1 & A2 & Hc & Hc').
  destruct (rem_tail_ok (length thl) h i thl (A1 ++ A2) X) as (h1 & i1 & thl1 & -> & Ho1 & Hp1 & Hi1 & Hb1 & Hz1);
    [lia| |lia|].
  { eapply own_perm; [|exact Ho]. rewrite Hc. by rewrite (app_assoc A1), (Permutation_app_comm A1), <-app_assoc. }
  cbn [mbind option_bind].
  assert (Hlt : i1 < i).
  { destruct Hz1 as [->| ->]; [lia|]. destruct thl; [done|]. zlia. }
  assert (Hz : zlen (concat (<[Z.to_nat j := thl1]> ls)) = zlen (concat ls) - (i - i1)).
  { rewrite Hc, Hc'. zlia. }
  destruct (IH h1 i1 j (<[Z.to_nat j := thl1]> ls) Size X) as (h2 & ls2 & -> & Ho2 & Ht2 & Hz2);
    [by rewrite length_insert_zlen|done|done|lia|lia| |].
  { rewrite Hc'. by rewrite (app_assoc A1), (Permutation_app_comm A1), <-app_assoc. }
  exists h2, ls2. split; [done|]. split; [done|]. split; [|lia].
  eapply trimmed_trans; [|exact Ht2]. by eapply trimmed_insert.
Qed.

Definition unlocked h t X h' t' : Prop :=
  same_shape t t' /\ ft_ok h' t' X /\ tht_LockCnt t' = 0 /\ tht_LockedEntries t' = [] /\
  tht_TTL t' = tht_TTL t /\ tht_MaxEntries t' = tht_MaxEntries t /\
  tht_NumEntries t' <= tht_MaxEntries t' /\ trimmed (tht_Entries t) (tht_Entries t') /\
  (zlen (concat (tht_Entries t)) <= tht_MaxEntries t -> tht_Entries t' = tht_Entries t).

(** The chains of [ls'] keep the hash of those of [ls]. *)
Lemma hash_trimmed t ls ls' :
  (forall i l e, ls !! i = Some l -> e ∈ l -> Z.to_nat (fthash_Hash t (the_Key e)) = i) ->
  trimmed ls ls' ->
  forall i l e, ls' !! i = Some l -> e ∈ l -> Z.to_nat (fthash_Hash t (the_Key e)) = i.
Proof.
  intros H Ht i l e Hi He. destruct (Forall2_lookup_r _ _ _ _ _ Ht Hi) as (l0 & Hl0 & [tl ->]).
  eapply H; [exact Hl0|]. set_solver.
Qed.

(** The bound on the number of entries is not needed before. *)
Lemma unlock_core now h t X :
  0 < tht_Size t /\ zlen (tht_Entries t) = tht_Size t ->
  (forall i l e, tht_Entries t !! i = Some l -> e ∈ l -> Z.to_nat (fthash_Hash t (the_Key e)) = i) ->
  own h (live t) X -> Forall blank (tht_FreeEntries t) ->
  tht_NumEntries t = zlen (live t) + zlen (tht_FreeEntries t) -> 0 <= tht_MaxEntries t ->
  exists h' t', fthash_UnLockAll now h t = Some (h', t') /\ unlocked h t X h' t'.
Proof.
  intros [Hs Hsz] Hh Ho Hf Hn Hm. unfold fthash_UnLockAll.
  destruct (unlock_entries_ok (tht_LockedEntries t) h (tht_FreeEntries t) (concat (tht_Entries t)) X)
    as (h1 & f1 & -> & Ho1 & Hb1 & Hl1); [|done|].
  { eapply own_perm; [|exact Ho]. unfold live. apply Permutation_app_comm. }
  cbn [mbind option_bind]. ft_simpl.
  destruct (trim_free_ok h1 (tht_MaxEntries t) f1 (tht_NumEntries t) Hb1)
    as (n & f2 & -> & Hb2 & Hn2 & Hle & Hor & Hstop). cbn [mbind option_bind]. ft_simpl.
  assert (Hnum : n = zlen (concat (tht_Entries t)) + zlen f2).
  { unfold live in Hn. rewrite zlen_app in Hn. unfold zlen in *. lia. }
  pose proof (zlen_nonneg f2) as Hf2.
  destruct (n >? tht_MaxEntries t) eqn:E; zbool.
  - destruct Hor as [?| ->]; [lia|]. rewrite zlen_nil in Hnum.
    destruct (rem_entries_ok (S (Z.to_nat (n - tht_MaxEntries t))) h1 (n - tht_MaxEntries t) (now mod tht_Size t)
                (tht_Entries t) (tht_Size t) X) as (h2 & ls2 & -> & Ho2 & Ht2 & Hz2); try done; try lia.
    { by apply Z.mod_pos_bound. }
    cbn [mbind option_bind]. eexists h2, _. split; [done|]. split; [done|]. split.
    { constructor; ft_simpl; try done.
      - split; [done|]. unfold zlen. rewrite <-(Forall2_length _ _ _ Ht2). exact Hsz.
      - by apply (hash_trimmed t (tht_Entries t)).
      - unfold live. ft_simpl. by rewrite app_nil_r.
      - unfold live. ft_simpl. rewrite app_nil_r, zlen_nil. lia.
      - lia. }
    ft_simpl. split_and!; try done; try lia.
  - eexists h1, _. split; [done|]. split; [done|]. split.
    { constructor; ft_simpl; try done.
      - unfold live. ft_simpl. by rewrite app_nil_r.
      - unfold live. ft_simpl. by rewrite app_nil_r.
      - lia. }
    ft_simpl. split_and!; try done. apply trimmed_refl.
Qed.

Lemma fthash_UnLockAll_ok now h t X : ft_ok h t X ->
  exists h' t', fthash_UnLockAll now h t = Some (h', t') /\ unlocked h t X h' t'.
Proof. intros [? ? ? ? ? [? _] _]. by apply unlock_core. Qed.

Lemma fthash_SetMaxEntries_ok now h t X m : ft_ok h t X -> 0 <= m ->
  exists h' t', fthash_SetMaxEntries now h t m = Some (h', t') /\ same_shape t t' /\ ft_ok h' t' X /\
    tht_MaxEntries t' = m /\ trimmed (tht_Entries t) (tht_Entries t') /\
    (if tht_MaxEntries t <=? m then h' = h /\ tht_LockCnt t' = tht_LockCnt t
     else tht_NumEntries t' <= m /\ tht_LockCnt t' = 0).
Proof.
  intros [Hs Hh Ho Hf Hn Hm Hl] H0. unfold fthash_SetMaxEntries. destruct (tht_MaxEntries t <=? m) eqn:E; zbool.
  - eexists h, _. split; [done|]. split; [done|]. split; [|split; [done|split; [apply trimmed_refl|done]]].
    constructor; ft_simpl; try done. split; lia.
  - destruct (unlock_core now h (set_MaxEntries m t) X) as (h' & t' & -> & H1 & H2 & H3 & H4 & H5 & H6 & H7 & H8 & H9);
      ft_simpl; try done.
    exists h', t'. split; [done|]. split; [done|]. split; [done|]. split; [done|]. split; [done|]. lia.
Qed.

(** ** A new table, and the end of one *)

Lemma fthash_New_ok m1 m2 Size KeySize Max TTL hf kc t : 0 <= Size -> 0 <= Max ->
  fthash_New m1 m2 Size KeySize Max TTL hf kc = Some t -> ft_ok (∅ : vheap V) t ∅ /\
  (forall k, assoc t k = None) /\ tht_LockCnt t = 0.
Proof.
  intros HS HM. unfold fthash_New. destruct (_ || _) eqn:E; [done|]. destruct m1, m2; try done.
  simpl. intros [= <-]. repeat (apply orb_false_iff in E as [E ?]). zbool.
  assert (Hc : concat (replicate (Z.to_nat Size) (@nil (FTHashEntry K))) = [])
    by (induction (Z.to_nat Size); done).
  split; [|split; [|done]].
  - constructor; ft_simpl; try done; try lia.
    + split; [lia|]. unfold zlen. rewrite length_replicate. lia.
    + intros i l e Hi He. apply lookup_replicate in Hi as [-> _]. by apply elem_of_nil in He.
    + unfold live. ft_simpl. rewrite Hc. constructor; simpl; try done; [constructor|].
      intros a. rewrite lookup_empty. split; [by intros []|]. intros [?%elem_of_nil|?%elem_of_empty]; done.
    + unfold live. ft_simpl. by rewrite Hc.
  - intros k. unfold assoc. ft_simpl. destruct (replicate _ _ !! _) as [l|] eqn:El; [|done].
    apply lookup_replicate in El as [-> _]. done.
Qed.

Lemma rem_all_ok ls : forall h X, own h (concat ls) X -> exists h', rem_all h ls = Some h' /\ own (K := K) h' [] X.
Proof.
  induction ls as [|l ls IH]; intros h X Ho; simpl in *; [by exists h|].
  destruct (rem_entries_all h l X (concat ls) Ho) as (h1 & -> & Ho1). simpl. by apply IH.
Qed.

Lemma rem_blank h l : Forall blank l -> fthash_RemEntries h l = Some h.
Proof.
  induction 1 as [|e l He _ IH]; simpl; [done|]. by rewrite free_entry_blank.
Qed.

Lemma fthash_Delete_ok h t X : ft_ok h t X -> exists h', fthash_Delete h t = Some h' /\ own (K := K) h' [] X.
Proof.
  intros [_ _ Ho Hf _ _ _]. unfold fthash_Delete. rewrite rem_blank by done. simpl.
  destruct (rem_entries_all h (tht_LockedEntries t) X (concat (tht_Entries t))) as (h1 & -> & Ho1).
  { eapply own_perm; [|exact Ho]. unfold live. apply Permutation_app_comm. }
  simpl. by apply rem_all_ok.
Qed.
End Ops.
