(* ===== verification/FtHashThm.v ===== *)
(** * Theorems about the hash table

    Sequences of operations by clients that allocate values, hand them over
    and look them up; what a lookup gives; how long a value lives; and what
    unlocking does. *)
From S2P Require Import Prelude FtHash FtHashSpec FtHashOps.

Section Theorems.
Context {K V : Type}.
Implicit Types (h : vheap V) (t : FTHashTable K) (X : gset addr).

(** What clients do: AllocVec of a value, and calls of the table's functions. *)
Inductive FtOp :=
  | FtAlloc (a : addr) (v : V)
  | FtInsert (mem_ok : bool) (k : K) (a : addr)
  | FtLookup (k : K)
  | FtMarkRemoved (k : K)
  | FtLock
  | FtBury
  | FtFlush
  | FtSetTTL (n : Z)
  | FtUnLockAll
  | FtSetMax (n : Z).

(** The heap, the table and the values that belong to the clients. *)
Definition FtState : Type := vheap V * FTHashTable K * gset addr.

(** One step at time [now]; [None] is undefined behaviour. *)
Definition ft_step (now : Z) (op : FtOp) (st : FtState) : option FtState :=
  let '(h, t, X) := st in
  match op with
  | FtAlloc a v => Some (<[a := v]> h, t, {[a]} ∪ X)
  | FtInsert mem_ok k a =>
      '(ok, t) ← fthash_Insert mem_ok now t k a; Some (h, t, if (ok : bool) then X ∖ {[a]} else X)
  | FtLookup k => '(_, h, t) ← fthash_Lookup now h t k; Some (h, t, X)
  | FtMarkRemoved k => '(h, t) ← fthash_MarkRemoved h t k; Some (h, t, X)
  | FtLock => Some (h, fthash_Lock t, X)
  | FtBury => '(h, t) ← fthash_Bury now h t; Some (h, t, X)
  | FtFlush => '(h, t) ← fthash_Flush h t; Some (h, t, X)
  | FtSetTTL n => Some (h, snd (fthash_SetTimeToLive t n), X)
  | FtUnLockAll => '(h, t) ← fthash_UnLockAll now h t; Some (h, t, X)
  | FtSetMax n => '(h, t) ← fthash_SetMaxEntries now h t n; Some (h, t, X)
  end.

(** What a client has to observe: memory that it gets is new, it hands over
    values of its own, and the maximum is a number of entries. *)
Definition ft_pre (op : FtOp) (st : FtState) : Prop :=
  let '(h, t, X) := st in
  match op with
  | FtAlloc a v => h !! a = None
  | FtInsert _ _ a => a ∈ X
  | FtSetMax n => 0 <= n
  | _ => True
  end.

Definition st_ok (st : FtState) : Prop := let '(h, t, X) := st in ft_ok h t X /\ key_law t.

Lemma key_law_shape t t' : same_shape t t' -> key_law t -> key_law t'.
Proof. intros (_ & _ & E) H a b. rewrite E. apply H. Qed.

Lemma own_alloc h (l : list (FTHashEntry K)) X a v : h !! a = None -> own h l X -> own (<[a := v]> h) l ({[a]} ∪ X).
Proof.
  intros Ha [Hv Hn Hd Hj]. constructor; try done.
  - intros b. destruct (decide (a = b)) as [<-|Hb].
    + rewrite lookup_insert_eq. split; [intros _; set_solver|by eexists].
    + rewrite lookup_insert_ne, Hd by done. set_solver.
  - intros b Hb Hx. apply elem_of_union in Hx as [->%elem_of_singleton|Hx]; [|by apply (Hj b)].
    assert (is_Some (h !! a)) as [? E] by (apply Hd; by left). congruence.
Qed.

(** Steps that end the life of no value while the table is locked. *)
Definition quiet (op : FtOp) : Prop := match op with FtUnLockAll | FtSetMax _ => False | _ => True end.

Lemma ft_step_ok now op st : st_ok st -> ft_pre op st ->
  exists st', ft_step now op st = Some st' /\ st_ok st' /\
    (quiet op -> 0 < tht_LockCnt (snd (fst st)) -> 0 < tht_LockCnt (snd (fst st')) /\
     forall a v, fst (fst st) !! a = Some v -> fst (fst st') !! a = Some v).
Proof.
  destruct st as [[h t] X]. intros [Hok Hkey] Hpre. destruct op as [a v|mem_ok k a|k|k| | | |n| |n]; simpl in *.
  - eexists. split; [done|]. split.
    + split; [|done]. destruct Hok as [? ? Ho ? ? ? ?]. constructor; try done. by apply own_alloc.
    + intros _ Hl. split; [done|]. intros b w Hb. simpl. rewrite lookup_insert_ne; [done|]. intros <-. congruence.
  - assert (HX : X = {[a]} ∪ X ∖ {[a]}) by (apply set_eq; intros b; destruct (decide (b = a)); set_solver).
    destruct (fthash_Insert_ok mem_ok now h t (X ∖ {[a]}) k a) as (ok & t' & -> & Hsh & Hlk & _ & Hcase);
      [by rewrite <-HX|set_solver|done|]. cbn [mbind option_bind]. eexists. split; [done|]. simpl.
    split; [|rewrite Hlk; done]. destruct ok.
    + split; [by destruct Hcase|by eapply key_law_shape].
    + destruct Hcase as (-> & _). done.
  - destruct (fthash_Lookup2_ok now h t X k Hok Hkey) as (r & h' & t' & Hr & Hsh & Hok' & _ & _ & Hcase).
    unfold fthash_Lookup. rewrite Hr. cbn [mbind option_bind]. eexists. split; [done|]. simpl.
    split; [split; [done|by eapply key_law_shape]|]. intros _ Hl.
    destruct (assoc t k) as [e|]; [|by destruct Hcase as (_ & -> & ->)].
    destruct (is_dead t now e).
    + destruct Hcase as [_ Hcase]. unfold fthash_IsLocked in Hcase.
      rewrite (proj2 (Z.gtb_lt _ _)) in Hcase by lia. destruct Hcase as [-> ->]. split; [lia|done].
    + destruct Hcase as (_ & -> & _ & ->). split; [lia|done].
  - destruct (fthash_MarkRemoved_ok h t X k Hok Hkey) as (t' & -> & Hsh & Hok' & _ & Hlk & _).
    cbn [mbind option_bind]. eexists. split; [done|]. simpl. rewrite Hlk.
    split; [split; [done|by eapply key_law_shape]|done].
  - eexists. split; [done|]. simpl. split; [split; [|done]|intros _ ?; split; [lia|done]].
    destruct Hok. constructor; simpl; done || lia.
  - destruct (fthash_Bury_ok now h t X Hok) as (h' & t' & -> & Hsh & Hok' & Hlk & _ & Hcase).
    cbn [mbind option_bind]. eexists. split; [done|]. simpl. rewrite Hlk.
    split; [split; [done|by eapply key_law_shape]|]. intros _ Hl. unfold fthash_IsLocked in Hcase.
    rewrite (proj2 (Z.gtb_lt _ _)) in Hcase by lia. by destruct Hcase as [-> _].
  - destruct (fthash_Flush_ok h t X Hok) as (t' & -> & Hsh & Hok' & Hlk & _).
    cbn [mbind option_bind]. eexists. split; [done|]. simpl. rewrite Hlk.
    split; [split; [done|by eapply key_law_shape]|done].
  - eexists. split; [done|]. unfold fthash_SetTimeToLive. destruct (n <? 0); simpl; [done|].
    split; [split; [|done]|done]. destruct Hok. by constructor.
  - destruct (fthash_UnLockAll_ok now h t X Hok) as (h' & t' & -> & Hsh & Hok' & _).
    cbn [mbind option_bind]. eexists. split; [done|]. simpl.
    split; [split; [done|by eapply key_law_shape]|done].
  - destruct (fthash_SetMaxEntries_ok now h t X n Hok Hpre) as (h' & t' & -> & Hsh & Hok' & _).
    cbn [mbind option_bind]. eexists. split; [done|]. simpl.
    split; [split; [done|by eapply key_law_shape]|done].
Qed.

(** Entries that are found have a value. *)
Lemma assoc_val h t X k e : ft_ok h t X -> assoc t k = Some e -> is_Some (the_Val e).
Proof.
  intros Hok Ea. unfold assoc in Ea. destruct (tht_Entries t !! _) as [thl|] eqn:Et; [|done]. simpl in Ea. unfold find_entry in Ea.
  destruct (find_key t k thl) as [[[l1 x] l2]|] eqn:Ef; [|done]. simpl in Ea. injection Ea as ->.
  apply find_key_Some in Ef as (-> & _ & _). pose proof (own_val _ _ _ (ft_own _ _ _ Hok)) as Hv.
  rewrite Forall_forall in Hv. apply Hv. destruct (live_remove t _ l1 e l2 [] Et) as [-> _]. left.
Qed.

(** What clients can reach by steps that satisfy [P]. *)
Inductive ft_steps (P : FtOp -> Prop) : FtState -> FtState -> Prop :=
  | ft_steps_refl st : ft_steps P st st
  | ft_steps_step now op st st' st'' : P op -> ft_pre op st -> ft_step now op st = Some st' ->
    ft_steps P st' st'' -> ft_steps P st st''.

Lemma ft_steps_ok P st st' : ft_steps P st st' -> st_ok st -> st_ok st'.
Proof.
  induction 1 as [|now op st st1 st2 _ Hpre Hst _ IH]; intros Hok; [done|]. apply IH.
  destruct (ft_step_ok now op st Hok Hpre) as (st1' & E & Hok' & _). congruence.
Qed.

(** The table keeps account of its values.  From a new table on, whatever
    its clients do, no operation frees a value twice or follows a pointer to a
    freed one: the next operation is always defined, at any time; the number of
    entries stays at most ten above the maximum; and deleting the table frees
    exactly the values it holds, those of the clients stay. *)
Theorem fthash_accounts_for_values m1 m2 Size KeySize Max TTL hf kc t0 h t X :
  0 <= Size -> 0 <= Max -> (forall a b, kc a b = 0 <-> a = b) ->
  fthash_New m1 m2 Size KeySize Max TTL hf kc = Some t0 ->
  ft_steps (fun _ => True) (∅, t0, ∅) (h, t, X) ->
  (forall now op, ft_pre op (h, t, X) -> is_Some (ft_step now op (h, t, X))) /\
  tht_NumEntries t <= tht_MaxEntries t + 10 /\
  exists h', fthash_Delete h t = Some h' /\ forall a, is_Some (h' !! a) <-> a ∈ X.
Proof.
  intros HS HM Hkc Hnew Hst. destruct (fthash_New_ok (V := V) _ _ _ _ _ _ _ _ _ HS HM Hnew) as [Hok0 _].
  assert (Hk0 : key_law t0).
  { unfold fthash_New in Hnew. destruct (_ || _), m1, m2; simpl in Hnew; try done. by injection Hnew as <-. }
  assert (Hok : st_ok (h, t, X)) by (by eapply ft_steps_ok; [exact Hst|]).
  split. { intros now op Hpre. destruct (ft_step_ok now op _ Hok Hpre) as (st' & -> & _). by eexists. }
  destruct Hok as [Hok _]. split; [apply Hok|].
  destruct (fthash_Delete_ok h t X Hok) as (h' & Hd & Ho). exists h'. split; [done|].
  intros a. rewrite (own_dom _ _ _ Ho). simpl. split; [intros [?%elem_of_nil|?]; done|by right].
Qed.

(** C34: A value that a client has got stays until the table is unlocked.
    While the lock count is positive - every successful lookup makes it so -
    no sequence of lookups, insertions, removals, burials or flushes frees or
    changes a value, however much time passes and whatever expires. *)
Theorem fthash_locked_values_stay h t X h' t' X' :
  st_ok (h, t, X) -> 0 < tht_LockCnt t -> ft_steps quiet (h, t, X) (h', t', X') ->
  0 < tht_LockCnt t' /\ forall a v, h !! a = Some v -> h' !! a = Some v.
Proof.
  intros Hok Hl Hst.
  assert (H : forall st st', ft_steps quiet st st' -> st_ok st -> 0 < tht_LockCnt (snd (fst st)) ->
          0 < tht_LockCnt (snd (fst st')) /\ forall a v, fst (fst st) !! a = Some v -> fst (fst st') !! a = Some v).
  { induction 1 as [|now op s s1 s2 Hq Hpre Hs _ IH]; intros Hs0 Hls; [done|].
    destruct (ft_step_ok now op s Hs0 Hpre) as (s1' & E & Hok' & Hkeep). rewrite Hs in E. injection E as <-.
    destruct (Hkeep Hq Hls) as [Hl1 Hk1]. destruct (IH Hok' Hl1) as [Hl2 Hk2]. split; [done|].
    intros a v Hv. by apply Hk2, Hk1. }
  apply (H _ _ Hst Hok Hl).
Qed.

(** C35: the table keeps, for each key, the values inserted for it, the last one
    in front.  Insertion puts a value in front of those of its key, and fails
    without a change when no entry is to be had.  A lookup gives the one in
    front and locks the table, unless it is older than the time to live: then
    it is taken out.  Each of the three ways to remove a key takes the one in
    front out: fthash_Remove frees it, fthash_Remove2 gives it back to the
    caller, fthash_MarkRemoved keeps it until the table is unlocked.  All other
    keys keep theirs, whichever of these it is. *)
Theorem fthash_Lookup_finds now h t X k : ft_ok h t X -> key_law t ->
  (exists r h' t', fthash_Lookup now h t k = Some (r, h', t') /\ ft_ok h' t' X /\
    (forall k', k' <> k -> assoc t' k' = assoc t k') /\
    match assoc t k with
    | None => r = None /\ h' = h /\ t' = t
    | Some e =>
        if is_dead t now e then r = None /\ assoc t' k = next_entry t k /\ (fthash_IsLocked t = true -> h' = h)
        else r = the_Val e /\ is_Some r /\ h' = h /\ assoc t' k = Some e /\ 0 < tht_LockCnt t'
    end) /\
  (forall mem_ok a, a ∈ X -> exists ok t1, fthash_Insert mem_ok now t k a = Some (ok, t1) /\
    if (ok : bool)
    then ft_ok h t1 (X ∖ {[a]}) /\ assoc t1 k = Some (FTEntry now k (Some a)) /\ next_entry t1 k = assoc t k /\
         forall k', k' <> k -> assoc t1 k' = assoc t k'
    else t1 = t /\ tht_FreeEntries t = [] /\ (mem_ok = false \/ tht_NumEntries t = tht_MaxEntries t + 10)) /\
  let v := assoc t k ≫= the_Val in
  (exists t1, let h1 := match v with Some a => delete a h | None => h end in
    fthash_Remove h t k = Some (h1, t1) /\ ft_ok h1 t1 X /\ taken_out t t1 k) /\
  (exists t2, fthash_Remove2 h t k = Some (v, h, t2) /\
    ft_ok h t2 (match v with Some a => {[a]} ∪ X | None => X end) /\ taken_out t t2 k) /\
  (exists t3, fthash_MarkRemoved h t k = Some (h, t3) /\ ft_ok h t3 X /\ taken_out t t3 k).
Proof.
  intros Hok Hkey. split; [|split; [|cbv zeta; split; [|split]]].
  - destruct (fthash_Lookup2_ok now h t X k Hok Hkey) as (r & h' & t' & Hr & Hsh & Hok' & Hoth & _ & Hcase).
    unfold fthash_Lookup. rewrite Hr. cbn [mbind option_bind]. eexists _, h', t'. split; [done|].
    split; [done|]. split; [done|].
    destruct (assoc t k) as [e|] eqn:Ea; [|by destruct Hcase as (-> & -> & ->)].
    destruct (is_dead t now e) eqn:Ed.
    + pose proof (Lookup2_dead_out _ _ _ _ _ _ _ _ Hkey Hr Ea Ed) as [Hn _]. destruct Hcase as [-> Hcase].
      split; [done|]. split; [done|]. intros E. rewrite E in Hcase. by destruct Hcase.
    + destruct Hcase as (-> & -> & He & Hlk). split; [done|].
      split; [by eapply assoc_val|]. split; [done|]. split; [done|]. rewrite Hlk. destruct Hok. lia.
  - intros mem_ok a Ha.
    assert (HX : X = {[a]} ∪ X ∖ {[a]}) by (apply set_eq; intros b; destruct (decide (b = a)); set_solver).
    destruct (fthash_Insert_ok mem_ok now h t (X ∖ {[a]}) k a) as (ok & t1 & H1 & _ & _ & _ & H2);
      [by rewrite <-HX|set_solver|done|]. exists ok, t1. split; [done|]. destruct ok; [|done].
    destruct H2 as (Hok1 & Ha1 & Ho1). split; [done|]. split; [done|]. split; [by eapply Insert_next|done].
  - destruct (fthash_Remove3_ok h t X k true false Hok Hkey) as (r & h' & t' & Hr & _ & Ho & _ & _ & _ & Hc).
    exists t'. unfold fthash_Remove. rewrite Hr. cbn [mbind option_bind].
    destruct (assoc t k ≫= the_Val); [by destruct Hc as (-> & -> & Hc)|by destruct Hc as (-> & -> & ->)].
  - destruct (fthash_Remove3_ok h t X k false false Hok Hkey) as (r & h' & t' & Hr & _ & Ho & _ & _ & _ & Hc).
    exists t'. unfold fthash_Remove2. rewrite Hr.
    destruct (assoc t k ≫= the_Val); [by destruct Hc as (-> & -> & Hc)|by destruct Hc as (-> & -> & ->)].
  - destruct (fthash_MarkRemoved_ok h t X k Hok Hkey) as (t' & Hr & _ & Ho & Ht & _). by exists t'.
Qed.

(** Unlocking ends and keeps the table in bounds.  fthash_UnLockAll frees
    the values set aside while the table was locked, brings the number of
    entries down to the maximum - entries of the chains are freed only when
    there are more of them than that, and then the least recently used of a
    chain first - and finds a chain to take them from, wherever its
    pseudo-random search starts. *)
Theorem fthash_UnLockAll_trims now h t X : ft_ok h t X ->
  exists h' t', fthash_UnLockAll now h t = Some (h', t') /\ unlocked h t X h' t'.
Proof. apply fthash_UnLockAll_ok. Qed.
End Theorems.

(** ** A concrete table: four chains, two entries at most, ten seconds *)

Definition hf4 (k : Z) : Z := Z.land k 3.
Definition tab0 : FTHashTable Z := FTTable 4 2 10 hf4 Z.sub [[]; []; []; []] [] [] 0 0.

Lemma tab0_new : fthash_New true true 4 4 2 10 hf4 Z.sub = Some tab0.
Proof. reflexivity. Qed.

Lemma sub_law a b : a - b = 0 <-> a = b.
Proof. lia. Qed.

Lemma tab0_ok : st_ok ((∅ : vheap Z), tab0, ∅).
Proof.
  split; [|exact sub_law].
  apply (fthash_New_ok true true 4 4 2 10 hf4 Z.sub tab0); [lia|lia|exact tab0_new].
Qed.

(** A value is made, put in under key 5 and found. *)
Definition ops_put : list (Z * FtOp (K := Z)) :=
  [(100, FtAlloc 1%positive 77); (100, FtInsert true 5 1%positive); (103, FtLookup 5)].

Fixpoint ft_run (l : list (Z * FtOp)) (st : FtState) : option (FtState (K := Z) (V := Z)) :=
  match l with
  | [] => Some st
  | (now, op) :: l => st ← ft_step now op st; ft_run l st
  end.

Definition st_put : FtState (K := Z) (V := Z) :=
  ({[1%positive := 77]}, FTTable 4 2 10 hf4 Z.sub [[]; [FTEntry 100 5 (Some 1%positive)]; []; []] [] [] 1 1, ∅).

Lemma put_steps P : (forall op, quiet op -> P op) -> ft_steps P ((∅ : vheap Z), tab0, ∅) st_put.
Proof.
  intros HP. eapply (ft_steps_step P 100 (FtAlloc 1%positive 77)); [by apply HP|done|reflexivity|].
  eapply (ft_steps_step P 100 (FtInsert true 5 1%positive)); [by apply HP|simpl; set_solver|reflexivity|].
  eapply (ft_steps_step P 103 (FtLookup 5)); [by apply HP|done|reflexivity|].
  simpl. replace (({[1%positive]} ∪ ∅) ∖ {[1%positive]} : gset addr) with (∅ : gset addr) by set_solver.
  apply ft_steps_refl.
Qed.

Lemma fthash_accounts_for_values_witness :
  tht_NumEntries (snd (fst st_put)) <= 12 /\
  exists h', fthash_Delete (fst (fst st_put)) (snd (fst st_put)) = Some h' /\
    forall a, is_Some (h' !! a) <-> a ∈ (∅ : gset addr).
Proof.
  destruct (fthash_accounts_for_values true true 4 4 2 10 hf4 Z.sub tab0
              (fst (fst st_put)) (snd (fst st_put)) ∅) as (_ & H2 & H3);
    [lia|lia|exact sub_law|exact tab0_new|apply put_steps; done|].
  split; [exact H2|exact H3].
Defined.

Lemma st_put_ok : st_ok st_put.
Proof. eapply ft_steps_ok; [apply (put_steps (fun _ => True)); done|apply tab0_ok]. Qed.

(** Much later the value has expired, but the table is still locked. *)
Lemma fthash_locked_values_stay_witness :
  exists h' t' X', ft_step 9999 (FtLookup 5) st_put = Some (h', t', X') /\
    assoc t' 5 = None /\ h' !! 1%positive = Some 77.
Proof.
  destruct (ft_step 9999 (FtLookup 5) st_put) as [[[h' t'] X']|] eqn:E; [|vm_compute in E; discriminate].
  exists h', t', X'. split; [reflexivity|]. split.
  - vm_compute in E. injection E as <- <- <-. reflexivity.
  - apply (fthash_locked_values_stay (fst (fst st_put)) (snd (fst st_put)) ∅ h' t' X' st_put_ok);
      [reflexivity| |reflexivity].
    eapply (ft_steps_step quiet 9999 (FtLookup 5)); [done|done|exact E|apply ft_steps_refl].
Defined.

Lemma fthash_Lookup_finds_witness :
  exists h' t', fthash_Lookup 109 (fst (fst st_put)) (snd (fst st_put)) 5 = Some (Some 1%positive, h', t').
Proof.
  destruct (fthash_Lookup_finds 109 (fst (fst st_put)) (snd (fst st_put)) ∅ 5 (proj1 st_put_ok) sub_law)
    as ((r & h' & t' & Hr & _ & _ & Hc) & _).
  change (r = Some 1%positive /\ is_Some r /\ h' = fst (fst st_put) /\
    assoc t' 5 = Some (FTEntry 100 5 (Some 1%positive)) /\ 0 < tht_LockCnt t') in Hc.
  destruct Hc as [-> _]. exists h', t'. exact Hr.
Defined.

Lemma fthash_UnLockAll_trims_witness :
  exists h' t', fthash_UnLockAll 9999 (fst (fst st_put)) (snd (fst st_put)) = Some (h', t') /\
    tht_LockCnt t' = 0 /\ tht_NumEntries t' <= 2.
Proof.
  destruct (fthash_UnLockAll_trims 9999 (fst (fst st_put)) (snd (fst st_put)) ∅ (proj1 st_put_ok))
    as (h' & t' & Hr & _ & _ & Hl & _ & _ & Hm & Hn & _).
  exists h', t'. split; [exact Hr|]. split; [exact Hl|]. rewrite Hm in Hn. exact Hn.
Defined.
