(* ===== verification/DCache.v ===== *)
(** * The attribute and directory caches (attrs.c, dcache.c)

    Two hash tables whose values are attribute entries and directories, under
    the file id.  A directory keeps the list of the names looked up in it. *)
From S2P Require Import Prelude NfsProt FtHash.

(** u_int, the type of the keys. *)
Definition u_int : Type := dsig (fun z : Z => 0 <= z < 2 ^ 32).
Lemma to_u_int_ok z : 0 <= u32 z < 2 ^ 32.
Proof. by apply u32_range. Qed.
Definition to_u_int (z : Z) : u_int := dexist (u32 z) (to_u_int_ok z).

(** attrs_KeyCmp, dc_KeyCmp and the hash functions of both. *)
Definition id_KeyCmp (key1 key2 : u_int) : Z := s32 (`key1 - `key2).
Definition id_HashFunc (key : u_int) : Z := Z.land (`key) 0xFF.

Definition DCE_ID_UNUSED : Z := 0.
Definition ACE_ID_UNUSED : Z := 0.

Record ACEntry := MkACEntry { ace_FileId : Z; ace_NFSFh : nfs_fh; ace_FAttr : fattr }.

(** The name without its terminator. *)
Record NEntry := MkNEntry { ne_Name : list byte; ne_Hash : Z; ne_FType : Z; ne_FileId : Z }.

(** [dce_Entries]: the list with the addresses of its nodes. *)
Record DCEntry := MkDCEntry {
  dce_FileId : Z;
  dce_ParentId : Z;
  dce_NFSFh : nfs_fh;
  dce_Entries : list (addr * NEntry)
}.

(** A cache: the table and the memory of its values. *)
Record Cache (V : Type) := MkCache { ca_heap : vheap V; ca_tab : FTHashTable u_int }.
Arguments MkCache {V}.
Arguments ca_heap {V}.
Arguments ca_tab {V}.

Section Cache.
Context {V : Type}.

(** fthash_Lookup on a cache. *)
Definition ca_Lookup (now : Z) (c : Cache V) (Id : Z) : option (option addr * Cache V) :=
  ('(r, h, t) ← fthash_Lookup now (ca_heap c) (ca_tab c) (to_u_int Id); Some (r, MkCache h t)).

(** AllocVec, fill in, fthash_Insert, FreeVec when that fails. *)
Definition ca_Insert (alloc : option addr) (mem_ok : bool) (now : Z) (c : Cache V) (Id : Z) (v : V)
  : option (option addr * Cache V) :=
  match alloc with
  | None => Some (None, c)
  | Some a =>
      let h := <[a := v]> (ca_heap c) in
      ('(ok, t) ← fthash_Insert mem_ok now (ca_tab c) (to_u_int Id) a;
       Some (if (ok : bool) then (Some a, MkCache h t) else (None, MkCache (delete a h) t)))
  end.

Definition ca_Delete (c : Cache V) (Id : Z) : option (Cache V) :=
  ('(h, t) ← fthash_MarkRemoved (ca_heap c) (ca_tab c) (to_u_int Id); Some (MkCache h t)).

(** A store to a value through its pointer. *)
Definition ca_store (c : Cache V) (a : addr) (v : V) : option (Cache V) :=
  (old ← ca_heap c !! a; Some (MkCache (<[a := v]> (ca_heap c)) (ca_tab c))).

Definition ca_Init (mem_ok mem_ok2 : bool) (MaxEntries Timeout : Z) : option (Cache V) :=
  (t ← fthash_New mem_ok mem_ok2 256 4 MaxEntries Timeout id_HashFunc id_KeyCmp; Some (MkCache ∅ t)).
Definition ca_UnLockAll (now : Z) (c : Cache V) : option (Cache V) :=
  ('(h, t) ← fthash_UnLockAll now (ca_heap c) (ca_tab c); Some (MkCache h t)).
Definition ca_Flush (c : Cache V) : option (Cache V) :=
  ('(h, t) ← fthash_Flush (ca_heap c) (ca_tab c); Some (MkCache h t)).
Definition ca_SetCacheTimeout (c : Cache V) (Timeout : Z) : Z * Cache V :=
  let '(r, t) := fthash_SetTimeToLive (ca_tab c) Timeout in (r, MkCache (ca_heap c) t).
Definition ca_Lock (c : Cache V) : Cache V := MkCache (ca_heap c) (fthash_Lock (ca_tab c)).
Definition ca_Bury (now : Z) (c : Cache V) : option (Cache V) :=
  ('(h, t) ← fthash_Bury now (ca_heap c) (ca_tab c); Some (MkCache h t)).
Definition ca_SetCacheSize (now : Z) (c : Cache V) (NewSize : Z) : option (Cache V) :=
  ('(h, t) ← fthash_SetMaxEntries now (ca_heap c) (ca_tab c) NewSize; Some (MkCache h t)).
Definition ca_Cleanup (c : Cache V) : option (vheap V) := fthash_Delete (ca_heap c) (ca_tab c).
End Cache.

(** ** attrs.c *)

Abbreviation AttrCache := (Cache ACEntry).

Definition attrs_Init : bool -> bool -> Z -> Z -> option AttrCache := ca_Init.
Definition attrs_Cleanup : AttrCache -> option (vheap ACEntry) := ca_Cleanup.
Definition attrs_LookupFromFileId (now : Z) (c : AttrCache) (FileId : Z) := ca_Lookup now c FileId.
Definition attrs_Delete (c : AttrCache) (FileId : Z) : option AttrCache := ca_Delete c FileId.

Definition attrs_CreateAndInsert (alloc : option addr) (mem_ok : bool) (now : Z) (c : AttrCache)
  (FH : nfs_fh) (FAttr : fattr) : option (option addr * AttrCache) :=
  ca_Insert alloc mem_ok now c (fa_fileid FAttr) (MkACEntry (fa_fileid FAttr) FH FAttr).

Definition attrs_Update (alloc : option addr) (mem_ok : bool) (now : Z) (c : AttrCache)
  (FH : nfs_fh) (FAttr : fattr) : option (option addr * AttrCache) :=
  ('(ACEnt, c) ← attrs_LookupFromFileId now c (fa_fileid FAttr);
   match ACEnt with
   | Some a =>
       (old ← ca_heap c !! a;
        (c ← ca_store c a (MkACEntry (ace_FileId old) FH FAttr); Some (Some a, c)))
   | None => attrs_CreateAndInsert alloc mem_ok now c FH FAttr
   end).

Definition attrs_UnLockAll (now : Z) (c : AttrCache) : option AttrCache := ca_UnLockAll now c.
Definition attrs_Flush (c : AttrCache) : option AttrCache := ca_Flush c.
Definition attrs_SetCacheTimeout (c : AttrCache) (Timeout : Z) := ca_SetCacheTimeout c Timeout.
Definition attrs_Bury (now : Z) (c : AttrCache) : option AttrCache := ca_Bury now c.
Definition attrs_SetCacheSize (now : Z) (c : AttrCache) (NewSize : Z) : option AttrCache :=
  ca_SetCacheSize now c NewSize.

(** ** dcache.c *)

Abbreviation DirCache := (Cache DCEntry).

Definition dc_Init : bool -> bool -> Z -> Z -> option DirCache := ca_Init.
Definition dc_Cleanup : DirCache -> option (vheap DCEntry) := ca_Cleanup.

Definition dc_DCECreateAndInsert (alloc : option addr) (mem_ok : bool) (now : Z) (c : DirCache)
  (fileid : Z) (FH : nfs_fh) : option (option addr * DirCache) :=
  ca_Insert alloc mem_ok now c fileid (MkDCEntry fileid DCE_ID_UNUSED FH []).

(** [while(c = *s++) { l <<= 1; l += c; }]; then [as - s] is minus the number
    of bytes passed, the terminator included. *)
Fixpoint str2hash (l : Z) (s : list byte) : Z :=
  match s with
  | [] => l
  | c :: s => str2hash (u32 (u32 (Z.shiftl l 1) + Z_of_byte c)) s
  end.
Definition dc_NEStr2Hash (s : list byte) : Z := u32 (str2hash 0 s - (zlen s + 1)).

(** [alloc], [dup_ok]: the entry's address and whether StrDup succeeds. *)
Definition dc_NECreateAndInsert (alloc : option addr) (dup_ok : bool) (c : DirCache) (dcent : addr)
  (AName : list byte) (FType FileId : Z) : option (option addr * DirCache) :=
  match alloc with
  | None => Some (None, c)
  | Some n =>
      if negb dup_ok then Some (None, c)
      else
      (d ← ca_heap c !! dcent;
       (c ← ca_store c dcent (MkDCEntry (dce_FileId d) (dce_ParentId d) (dce_NFSFh d)
              ((n, MkNEntry AName (dc_NEStr2Hash AName) FType FileId) :: dce_Entries d));
        Some (Some n, ca_Lock c)))
  end.

(** strcmp is only called when the hashes agree. *)
Fixpoint ne_find (Hash : Z) (Name : list byte) (l : list (addr * NEntry)) : option (addr * NEntry) :=
  match l with
  | [] => None
  | (n, e) :: l =>
      if (Hash =? ne_Hash e) && bool_decide (Name = ne_Name e) then Some (n, e)
      else ne_find Hash Name l
  end.

Definition dc_NELookup (c : DirCache) (DCEnt : addr) (Name : list byte)
  : option (option (addr * NEntry) * DirCache) :=
  (d ← ca_heap c !! DCEnt;
   match ne_find (dc_NEStr2Hash Name) Name (dce_Entries d) with
   | Some r => Some (Some r, ca_Lock c)
   | None => Some (None, c)
   end).

Fixpoint ne_remove (ParNEnt : addr) (l : list (addr * NEntry)) : list (addr * NEntry) :=
  match l with
  | [] => []
  | (n, e) :: l => if bool_decide (n = ParNEnt) then l else (n, e) :: ne_remove ParNEnt l
  end.

Definition dc_NERemove (c : DirCache) (DCEnt ParNEnt : addr) : option DirCache :=
  (d ← ca_heap c !! DCEnt;
   ca_store c DCEnt (MkDCEntry (dce_FileId d) (dce_ParentId d) (dce_NFSFh d)
                       (ne_remove ParNEnt (dce_Entries d)))).

Definition dc_DCELookupFromFileId (now : Z) (c : DirCache) (Id : Z) := ca_Lookup now c Id.
Definition dc_DCEDeleteFromFileId (c : DirCache) (Id : Z) : option DirCache := ca_Delete c Id.
Definition dc_UnLockAll (now : Z) (c : DirCache) : option DirCache := ca_UnLockAll now c.
Definition dc_Flush (c : DirCache) : option DirCache := ca_Flush c.
Definition dc_SetCacheTimeout (c : DirCache) (Timeout : Z) := ca_SetCacheTimeout c Timeout.
Definition dc_Bury (now : Z) (c : DirCache) : option DirCache := ca_Bury now c.
Definition dc_SetCacheSize (now : Z) (c : DirCache) (NewSize : Z) : option DirCache :=
  ca_SetCacheSize now c NewSize.
