(* ===== verification/DCacheThm.v ===== *)
(** * Theorems about the caches

    The caches as maps from file ids to values and, inside a directory, from
    names to entries. *)
From S2P Require Import Prelude NfsProt FtHash FtHashSpec FtHashOps DCache.

Lemma id_law a b : id_KeyCmp a b = 0 <-> a = b.
Proof.
  transitivity (`a = `b); [|symmetry; apply dsig_eq]. unfold id_KeyCmp.
  pose proof (proj2_dsig a) as Ha. pose proof (proj2_dsig b) as Hb. simpl in Ha, Hb.
  split; [|intros ->; by rewrite Z.sub_diag].
  unfold s32. intros H. change (2 ^ 32) with 4294967296 in *. change (2 ^ 31) with 2147483648 in *.
  Z.to_euclidean_division_equations. lia.
Qed.

Section Cache.
Context {V : Type}.
Implicit Types (c : Cache V) (X : gset addr).

(** The table is well-formed over the memory of the values, the clients own
    the values [X], and the table compares ids. *)
Definition cache_ok c X : Prop :=
  ft_ok (ca_heap c) (ca_tab c) X /\ tht_KeyCmp (ca_tab c) = id_KeyCmp.

Lemma cache_law c X : cache_ok c X -> key_law (ca_tab c).
Proof. intros [_ E] a b. rewrite E. apply id_law. Qed.

(** What is cached for an id, expired or not. *)
Definition ca_value c (Id : Z) : option V :=
  e ← assoc (ca_tab c) (to_u_int Id); (a ← the_Val e; ca_heap c !! a).
Definition ca_addr c (Id : Z) : option addr :=
  e ← assoc (ca_tab c) (to_u_int Id); the_Val e.

Lemma assoc_live t (k : u_int) (e : FTHashEntry u_int) : assoc t k = Some e -> e ∈ live t.
Proof.
  unfold assoc, live. destruct (tht_Entries t !! _) as [thl|] eqn:Et; [|done]. simpl. unfold find_entry.
  destruct (find_key t k thl) as [[[l1 x] l2]|] eqn:Ef; [|done]. simpl. intros [= ->].
  apply find_key_Some in Ef as (-> & _ & _). destruct (concat_at _ _ _ Et) as (A1 & A2 & -> & _). set_solver.
Qed.

Lemma assoc_key t (k : u_int) (e : FTHashEntry u_int) : key_law t -> assoc t k = Some e -> the_Key e = k.
Proof.
  intros Hk. unfold assoc. destruct (tht_Entries t !! _) as [thl|] eqn:Et; [|done]. simpl. unfold find_entry.
  destruct (find_key t k thl) as [[[l1 x] l2]|] eqn:Ef; [|done]. simpl. intros [= ->].
  apply find_key_Some in Ef as (_ & Hs & _). by apply same_key in Hs.
Qed.

(** Different keys have different values. *)
Lemma assoc_inj h t X (k1 k2 : u_int) e1 e2 a : ft_ok (V := V) h t X -> key_law t ->
  assoc t k1 = Some e1 -> assoc t k2 = Some e2 -> the_Val e1 = Some a -> the_Val e2 = Some a -> k1 = k2.
Proof.
  intros Hok Hk H1 H2 Ha1 Ha2. pose proof (own_nodup _ _ _ (ft_own _ _ _ Hok)) as Hnd.
  rewrite <-(assoc_key _ _ _ Hk H1), <-(assoc_key _ _ _ Hk H2). apply assoc_live in H1, H2.
  apply list_elem_of_split in H1 as (l1 & l2 & E). rewrite E in Hnd, H2.
  rewrite omap_app in Hnd. simpl in Hnd. rewrite Ha1 in Hnd.
  apply NoDup_app in Hnd as (_ & Hd1 & [Hd2 _]%NoDup_cons).
  apply elem_of_app in H2 as [H2|[->|H2]%elem_of_cons]; [|done|].
  - exfalso. apply (Hd1 a); [|left]. by apply list_elem_of_omap; exists e2.
  - exfalso. apply Hd2. by apply list_elem_of_omap; exists e2.
Qed.

Lemma heap_live h t X (k : u_int) e a : ft_ok (V := V) h t X ->
  assoc t k = Some e -> the_Val e = Some a -> is_Some (h !! a).
Proof.
  intros Hok Hk Ha. apply (own_dom _ _ _ (ft_own _ _ _ Hok)). left.
  apply list_elem_of_omap. exists e. split; [by eapply assoc_live|done].
Qed.

(** A store to the value of one id. *)
Lemma ca_store_ok c X Id a v : cache_ok c X -> ca_addr c Id = Some a ->
  exists c', ca_store c a v = Some c' /\ cache_ok c' X /\ ca_heap c' !! a = Some v /\
    ca_tab c' = ca_tab c /\ ca_value c' Id = Some v /\
    (forall Id', to_u_int Id' <> to_u_int Id -> ca_value c' Id' = ca_value c Id').
Proof.
  intros Hc Ha. pose proof Hc as [Hok Hkc]. unfold ca_addr in Ha.
  destruct (assoc (ca_tab c) (to_u_int Id)) as [e|] eqn:He; [|done]. simpl in Ha.
  destruct (heap_live _ _ _ _ _ _ Hok He Ha) as [old Hold]. unfold ca_store. rewrite Hold. simpl.
  eexists. split; [done|]. split.
  { split; [|done]. destruct Hok as [? ? Ho ? ? ? ?]. constructor; try done. simpl.
    destruct Ho as [Hv Hn Hd Hj]. constructor; try done. intros b. rewrite <-Hd.
    destruct (decide (a = b)) as [<-|Hne]; [rewrite lookup_insert_eq, Hold; by split; eauto|].
    by rewrite lookup_insert_ne. }
  split; [apply lookup_insert_eq|]. split; [done|]. split.
  { unfold ca_value. simpl. rewrite He. simpl. rewrite Ha. simpl. apply lookup_insert_eq. }
  intros Id' Hne. unfold ca_value. simpl. destruct (assoc (ca_tab c) (to_u_int Id')) as [e'|] eqn:He'; [|done].
  simpl. destruct (the_Val e') as [b|] eqn:Hb; [|done]. simpl. apply lookup_insert_ne. intros <-.
  apply Hne. eapply assoc_inj; [exact Hok|by eapply cache_law|..]; done.
Qed.

(** Looking an id up. *)
Lemma ca_Lookup_ok now c X Id : cache_ok c X ->
  exists r c', ca_Lookup now c Id = Some (r, c') /\ cache_ok c' X /\
    tht_TTL (ca_tab c') = tht_TTL (ca_tab c) /\
    (forall a, ca_heap c !! a = None -> ca_heap c' !! a = None) /\
    (forall Id', to_u_int Id' <> to_u_int Id -> assoc (ca_tab c') (to_u_int Id') = assoc (ca_tab c) (to_u_int Id') /\
     ca_value c' Id' = ca_value c Id') /\
    match assoc (ca_tab c) (to_u_int Id) with
    | None => r = None /\ c' = c
    | Some e =>
        if is_dead (ca_tab c) now e then r = None
        else r = the_Val e /\ is_Some r /\ ca_heap c' = ca_heap c /\
        assoc (ca_tab c') (to_u_int Id) = Some e /\ ca_value c' Id = ca_value c Id
    end.
Proof.
  intros Hc. pose proof Hc as [Hok Hkc]. unfold ca_Lookup, fthash_Lookup.
  destruct (fthash_Lookup2_ok now (ca_heap c) (ca_tab c) X (to_u_int Id) Hok (cache_law _ _ Hc))
    as (r & h' & t' & -> & Hsh & Hok' & Hoth & Httl & Hcase). simpl.
  assert (Hc' : cache_ok (MkCache h' t') X).
  { split; [done|]. destruct Hsh as (_ & _ & E). simpl. by rewrite E. }
  eexists _, _. split; [done|]. split; [done|]. split; [done|]. split; [|split].
  - intros a Ha. simpl. destruct (assoc (ca_tab c) (to_u_int Id)) as [e|]; [|by destruct Hcase as (_ & -> & _)].
    destruct (is_dead (ca_tab c) now e); [|by destruct Hcase as (_ & -> & _)].
    destruct Hcase as [_ Hcase]. destruct (fthash_IsLocked (ca_tab c)); [by destruct Hcase as [-> _]|].
    destruct Hcase as (b & _ & -> & _). by apply lookup_delete_None; right.
  - intros Id' Hne. simpl. split; [by apply Hoth|]. unfold ca_value. simpl. rewrite Hoth by done.
    destruct (assoc (ca_tab c) (to_u_int Id')) as [e'|] eqn:He'; [|done]. simpl.
    destruct (the_Val e') as [b|] eqn:Hb; [|done]. simpl.
    destruct (assoc (ca_tab c) (to_u_int Id)) as [e|] eqn:He; [|by destruct Hcase as (_ & -> & _)].
    destruct (is_dead (ca_tab c) now e); [|by destruct Hcase as (_ & -> & _)].
    destruct Hcase as [_ Hcase]. destruct (fthash_IsLocked (ca_tab c)); [by destruct Hcase as [-> _]|].
    destruct Hcase as (a & Ha & -> & _). apply lookup_delete_ne. intros <-. apply Hne.
    eapply assoc_inj; [exact Hok|by eapply cache_law|..]; done.
  - destruct (assoc (ca_tab c) (to_u_int Id)) as [e|] eqn:He.
    + destruct (is_dead (ca_tab c) now e); [by destruct Hcase as [-> _]|].
      destruct Hcase as (-> & -> & Hf & _). simpl. split; [done|].
      pose proof (own_val _ _ _ (ft_own _ _ _ Hok)) as Hv. rewrite Forall_forall in Hv.
      split; [apply Hv; by eapply assoc_live|]. split; [done|]. split; [done|].
      unfold ca_value. simpl. by rewrite Hf, He.
    + destruct Hcase as (-> & -> & ->). split; [done|]. by destruct c.
Qed.

(** Putting an id in. *)
Lemma ca_Insert_ok alloc mem_ok now c X Id v : cache_ok c X ->
  (forall a, alloc = Some a -> ca_heap c !! a = None) ->
  exists r c', ca_Insert alloc mem_ok now c Id v = Some (r, c') /\ cache_ok c' X /\
    tht_TTL (ca_tab c') = tht_TTL (ca_tab c) /\
    (forall Id', to_u_int Id' <> to_u_int Id -> ca_value c' Id' = ca_value c Id') /\
    match r with
    | Some a => alloc = Some a /\ assoc (ca_tab c') (to_u_int Id) = Some (FTEntry now (to_u_int Id) (Some a)) /\
        ca_heap c' !! a = Some v /\ ca_value c' Id = Some v
    | None => c' = c /\ (alloc = None \/ mem_ok = false \/
                         tht_NumEntries (ca_tab c) = tht_MaxEntries (ca_tab c) + 10)
    end.
Proof.
  intros Hc Hal. pose proof Hc as [Hok Hkc]. unfold ca_Insert. destruct alloc as [a|].
  2:{ exists None, c. split; [done|]. split; [done|]. split; [done|]. split; [done|]. split; [done|by left]. }
  specialize (Hal a eq_refl).
  assert (HaX : a ∉ X).
  { intros Hx. assert (is_Some (ca_heap c !! a)) as [? E]; [|congruence].
    apply (own_dom _ _ _ (ft_own _ _ _ Hok)). by right. }
  destruct (fthash_Insert_ok mem_ok now (<[a := v]> (ca_heap c)) (ca_tab c) X (to_u_int Id) a)
    as (ok & t' & -> & Hsh & _ & Httl & Hcase); [|done|by eapply cache_law|].
  { destruct Hok as [? ? Ho ? ? ? ?]. constructor; try done. destruct Ho as [Hv Hn Hd Hj]. constructor; try done.
    - intros b. destruct (decide (a = b)) as [<-|Hb].
      + rewrite lookup_insert_eq. split; [intros _; set_solver|by eexists].
      + rewrite lookup_insert_ne, Hd by done. set_solver.
    - intros b Hb Hx. apply elem_of_union in Hx as [->%elem_of_singleton|Hx]; [|by apply (Hj b)].
      assert (is_Some (ca_heap c !! a)) as [? E]; [|congruence]. apply Hd. by left. }
  simpl. destruct ok.
  - destruct Hcase as (Hok' & Has & Hoth). eexists (Some a), _. split; [done|].
    split; [split; [done|]; destruct Hsh as (_ & _ & E); simpl; by rewrite E|]. split; [done|]. split.
    + intros Id' Hne. unfold ca_value. simpl. rewrite Hoth by done.
      destruct (assoc (ca_tab c) (to_u_int Id')) as [e'|] eqn:He'; [|done]. simpl.
      destruct (the_Val e') as [b|] eqn:Hb; [|done]. simpl. apply lookup_insert_ne. intros <-.
      destruct (heap_live _ _ _ _ _ _ Hok He' Hb) as [? E]. congruence.
    + split; [done|]. split; [done|]. split; [apply lookup_insert_eq|].
      unfold ca_value. simpl. rewrite Has. simpl. apply lookup_insert_eq.
  - destruct Hcase as (-> & _ & Hwhy). exists None, c. rewrite delete_insert_id by done.
    split; [by destruct c|]. split; [done|]. split; [done|]. split; [done|]. split; [done|by right].
Qed.
End Cache.

(** ** Names of a directory *)

(** The entry of a name, by the name alone. *)
Definition name_find (Name : list byte) (l : list (addr * NEntry)) : option (addr * NEntry) :=
  snd <$> list_find (fun x => ne_Name (snd x) = Name) l.

(** Every hash is that of its name, every node is there once. *)
Definition nes_ok (l : list (addr * NEntry)) : Prop :=
  Forall (fun x => ne_Hash (snd x) = dc_NEStr2Hash (ne_Name (snd x))) l /\ NoDup l.*1.

Lemma name_find_cons Name x l :
  name_find Name (x :: l) = if decide (ne_Name (snd x) = Name) then Some x else name_find Name l.
Proof.
  unfold name_find. simpl. destruct (decide _); [done|]. by destruct (list_find _ l) as [[? ?]|].
Qed.

Lemma ne_find_ok Name l : nes_ok l -> ne_find (dc_NEStr2Hash Name) Name l = name_find Name l.
Proof.
  induction l as [|[n e] l IH]; intros [HF Hn]; [done|]. apply Forall_cons in HF as [He HF].
  apply NoDup_cons in Hn as [_ Hn]. rewrite name_find_cons. simpl in *. rewrite He, IH by done.
  destruct (decide (ne_Name e = Name)) as [<-|Hne].
  - by rewrite Z.eqb_refl, bool_decide_eq_true_2.
  - by rewrite bool_decide_eq_false_2, andb_false_r.
Qed.

Lemma ne_remove_ok n e l : nes_ok l -> (n, e) ∈ l ->
  exists l1 l2, l = l1 ++ (n, e) :: l2 /\ ne_remove n l = l1 ++ l2 /\ nes_ok (l1 ++ l2).
Proof.
  intros [HF Hn] Hin. apply list_elem_of_split in Hin as (l1 & l2 & ->). exists l1, l2. split; [done|].
  rewrite fmap_app, fmap_cons in Hn. split.
  - clear HF. induction l1 as [|[m x] l1 IH]; simpl; [by rewrite bool_decide_eq_true_2|].
    apply NoDup_cons in Hn as [Hm Hn]. rewrite bool_decide_eq_false_2; [by rewrite IH|].
    intros <-. apply Hm, elem_of_app. right. left.
  - split; [by apply Forall_app in HF as [? [_ ?]%Forall_cons]; apply Forall_app|].
    rewrite fmap_app. simpl in Hn. apply NoDup_app in Hn as (? & Hd & [_ ?]%NoDup_cons).
    apply NoDup_app. split; [done|]. split; [|done]. intros y Hy Hy2. apply (Hd y Hy). by right.
Qed.

Lemma name_find_app Name l1 l2 : name_find Name (l1 ++ l2) =
  match name_find Name l1 with Some r => Some r | None => name_find Name l2 end.
Proof.
  induction l1 as [|x l1 IH]; [done|]. rewrite <-app_comm_cons, !name_find_cons, IH. by destruct (decide _).
Qed.

Lemma name_find_none Name l : Name ∉ (ne_Name ∘ snd <$> l) -> name_find Name l = None.
Proof.
  induction l as [|x l IH]; [done|]. rewrite fmap_cons, not_elem_of_cons, name_find_cons. intros [Hx Hl].
  rewrite decide_False by (simpl in Hx; congruence). by apply IH.
Qed.

(** Directory [d] is cached under [Id] at [a]. *)
Definition dir_at (c : DirCache) X Id a d : Prop :=
  cache_ok c X /\ ca_addr c Id = Some a /\ ca_heap c !! a = Some d /\ nes_ok (dce_Entries d).

Lemma lock_ok {V} (c : Cache V) X : cache_ok c X -> cache_ok (ca_Lock c) X /\ fthash_IsLocked (ca_tab (ca_Lock c)) = true.
Proof.
  intros [[? ? ? ? ? ? Hl] ?]. split.
  - split; [|done]. constructor; simpl; done || lia.
  - unfold fthash_IsLocked. simpl. apply Z.gtb_lt. lia.
Qed.

Lemma dir_at_store (c : DirCache) X Id a d l : dir_at c X Id a d -> nes_ok l ->
  let d' := MkDCEntry (dce_FileId d) (dce_ParentId d) (dce_NFSFh d) l in
  exists c', ca_store c a d' = Some c' /\ dir_at c' X Id a d' /\
    (forall Id', to_u_int Id' <> to_u_int Id -> ca_value c' Id' = ca_value c Id').
Proof.
  intros (Hc & Ha & Hd & Hn) Hl d'. destruct (ca_store_ok c X Id a d' Hc Ha) as (c' & -> & Hc' & Hh & Ht & _ & Ho).
  exists c'. split; [done|]. split; [|done]. split; [done|]. split; [|done]. unfold ca_addr in *. by rewrite Ht.
Qed.

Lemma assoc_lock {K} (t : FTHashTable K) k : assoc (fthash_Lock t) k = assoc t k.
Proof. by rewrite (assoc_shape t (fthash_Lock t)). Qed.

Lemma dir_at_lock c X Id a d : dir_at c X Id a d -> dir_at (ca_Lock c) X Id a d.
Proof. intros (Hc & Ha & Hd & Hn). split; [apply (proj1 (lock_ok _ _ Hc))|].
  unfold ca_addr in *. simpl. by rewrite assoc_lock.
Qed.

(** What a lookup at [now] gives, read through its pointer. *)
Definition ca_get {V} (now : Z) (c : Cache V) (Id : Z) : option (option V) :=
  '(r, c) ← ca_Lookup now c Id;
  match r with Some a => (v ← ca_heap c !! a; Some (Some v)) | None => Some None end.

Lemma ca_get_ok {V} now (c : Cache V) X Id e v : cache_ok c X ->
  assoc (ca_tab c) (to_u_int Id) = Some e -> ca_value c Id = Some v ->
  ca_get now c Id = Some (if is_dead (ca_tab c) now e then None else Some v).
Proof.
  intros Hc He Hv. unfold ca_get. destruct (ca_Lookup_ok now c X Id Hc) as (r & c' & -> & _ & _ & _ & _ & Hcase).
  rewrite He in Hcase. simpl. destruct (is_dead _ _ _); [by subst|].
  destruct Hcase as (-> & _ & -> & _ & _). unfold ca_value in Hv. rewrite He in Hv. simpl in Hv.
  destruct (the_Val e); simpl in *; [|done]. by rewrite Hv.
Qed.

(** C33: The attribute cache gives what was stored last.  Whatever the state of
    the cache, attrs_Update is defined, keeps the cache consistent and leaves
    the other files alone.  Unless there is no memory or no room, every later
    lookup of the file gives exactly the handle and the attributes stored,
    until they have expired.  An update of an entry that is still alive does
    not make it younger: its age counts from its insertion. *)
Theorem attrs_Update_correct alloc mem_ok now (c : AttrCache) X FH FAttr :
  cache_ok c X -> (forall a, alloc = Some a -> ca_heap c !! a = None) ->
  let Id := fa_fileid FAttr in
  exists r c', attrs_Update alloc mem_ok now c FH FAttr = Some (r, c') /\ cache_ok c' X /\
    (forall Id', to_u_int Id' <> to_u_int Id -> ca_value c' Id' = ca_value c Id') /\
    match r with
    | None => alloc = None \/ mem_ok = false \/ tht_NumEntries (ca_tab c') = tht_MaxEntries (ca_tab c') + 10
    | Some a =>
        exists e i, assoc (ca_tab c') (to_u_int Id) = Some e /\ the_Val e = Some a /\
        (forall now', ca_get now' c' Id =
           Some (if is_dead (ca_tab c') now' e then None else Some (MkACEntry i FH FAttr))) /\
        match assoc (ca_tab c) (to_u_int Id) with
        | Some e0 => if is_dead (ca_tab c) now e0 then the_Birth e = now /\ i = Id else e = e0
        | None => the_Birth e = now /\ i = Id
        end
    end.
Proof.
  intros Hc Hal Id. unfold attrs_Update, attrs_LookupFromFileId. fold Id.
  destruct (ca_Lookup_ok now c X Id Hc) as (r & c1 & -> & Hc1 & Httl & Hfr & Hoth & Hcase). cbn [mbind option_bind].
  destruct r as [a|].
  - destruct (assoc (ca_tab c) (to_u_int Id)) as [e0|] eqn:He0; [|by destruct Hcase].
    destruct (is_dead (ca_tab c) now e0) eqn:Hdead; [done|]. destruct Hcase as (Ha & _ & Hheap & He1 & _).
    assert (Hca : ca_addr c1 Id = Some a) by (unfold ca_addr; by rewrite He1).
    destruct (heap_live _ _ _ _ _ _ (proj1 Hc1) He1 (eq_sym Ha)) as [old Hold]. rewrite Hold. cbn [mbind option_bind].
    destruct (ca_store_ok c1 X Id a (MkACEntry (ace_FileId old) FH FAttr) Hc1 Hca)
      as (c2 & -> & Hc2 & _ & Ht2 & Hv2 & Ho2). cbn [mbind option_bind]. eexists _, c2. split; [done|].
    split; [done|]. split; [intros Id' Hne; rewrite Ho2 by done; by apply Hoth|].
    exists e0, (ace_FileId old). rewrite Ht2. split; [done|]. split; [done|]. split; [|done].
    intros now'. rewrite <-Ht2. eapply ca_get_ok; [done|by rewrite Ht2|done].
  - destruct (ca_Insert_ok alloc mem_ok now c1 X Id (MkACEntry Id FH FAttr) Hc1) as
      (r & c2 & Hi & Hc2 & Httl2 & Ho2 & Hr); [by intros a Ha; apply Hfr, Hal|].
    unfold attrs_CreateAndInsert. fold Id. rewrite Hi. eexists r, c2. split; [done|]. split; [done|].
    split; [intros Id' Hne; rewrite Ho2 by done; by apply Hoth|]. destruct r as [a|]; [|by destruct Hr as [-> ?]].
    destruct Hr as (_ & He & _ & Hv). eexists _, Id. split; [exact He|]. split; [done|].
    split; [intros now'; by eapply ca_get_ok|].
    destruct (assoc (ca_tab c) (to_u_int Id)) as [e0|]; [|done].
    destruct (is_dead (ca_tab c) now e0); [done|]. by destruct Hcase as (_ & [] & _).
Qed.

Lemma ca_Init_ok {V} Max Timeout (c : Cache V) m1 m2 : 0 <= Max ->
  ca_Init m1 m2 Max Timeout = Some c -> cache_ok c ∅ /\ ca_heap c = ∅ /\
    forall k, assoc (ca_tab c) k = None.
Proof.
  unfold ca_Init. intros HM. destruct (fthash_New _ _ _ _ _ _ _ _) as [t|] eqn:E; [|done].
  simpl. intros [= <-]. pose proof E as E'.
  apply (fthash_New_ok (V := V)) in E as (Hok & Has & _); [|done..]. split; [|done]. split; [done|]. simpl.
  unfold fthash_New in E'. destruct (_ || _); [done|]. destruct m1, m2; simpl in E'; try done. by injection E' as <-.
Qed.

(** C32: A cached directory is a map from names to entries.  dc_NELookup gives
    the entry of exactly the name asked for - the hashes only save
    comparisons - and locks the table when it gives one; dc_NECreateAndInsert
    makes the name known and leaves the others, or changes nothing without
    memory; dc_NERemove forgets the name of the node and no other.  No other
    directory changes and the cache stays consistent. *)
Theorem dc_names_correct (c : DirCache) X Id a d : dir_at c X Id a d ->
  (forall Name, exists c', dc_NELookup c a Name = Some (name_find Name (dce_Entries d), c') /\
     dir_at c' X Id a d /\ ca_heap c' = ca_heap c /\
     (is_Some (name_find Name (dce_Entries d)) -> fthash_IsLocked (ca_tab c') = true)) /\
  (forall alloc dup_ok Name FType FileId,
     (forall n, alloc = Some n -> n ∉ (dce_Entries d).*1) ->
     exists r c', dc_NECreateAndInsert alloc dup_ok c a Name FType FileId = Some (r, c') /\
       match r with
       | None => c' = c /\ (alloc = None \/ dup_ok = false)
       | Some n => exists d', dir_at c' X Id a d' /\ alloc = Some n /\
           fthash_IsLocked (ca_tab c') = true /\
           name_find Name (dce_Entries d') = Some (n, MkNEntry Name (dc_NEStr2Hash Name) FType FileId) /\
           (forall N, N <> Name -> name_find N (dce_Entries d') = name_find N (dce_Entries d)) /\
           (forall Id', to_u_int Id' <> to_u_int Id -> ca_value c' Id' = ca_value c Id')
       end) /\
  (forall n e, (n, e) ∈ dce_Entries d -> exists c' d', dc_NERemove c a n = Some c' /\ dir_at c' X Id a d' /\
     (forall N, N <> ne_Name e -> name_find N (dce_Entries d') = name_find N (dce_Entries d)) /\
     (NoDup (ne_Name ∘ snd <$> dce_Entries d) -> name_find (ne_Name e) (dce_Entries d') = None) /\
     (forall Id', to_u_int Id' <> to_u_int Id -> ca_value c' Id' = ca_value c Id')).
Proof.
  intros Hd. pose proof Hd as (Hc & Ha & Hh & Hn). split; [|split].
  - intros Name. unfold dc_NELookup. rewrite Hh. cbn [mbind option_bind]. rewrite ne_find_ok by done.
    destruct (name_find Name (dce_Entries d)) as [x|]; eexists; (split; [done|]).
    + split; [by apply dir_at_lock|]. split; [done|]. intros _. by eapply lock_ok.
    + split; [done|]. split; [done|]. by intros [].
  - intros alloc dup_ok Name FType FileId Hal. unfold dc_NECreateAndInsert.
    destruct alloc as [n|]; [|eexists None, c; split; [done|]; split; [done|by left]].
    destruct dup_ok; [|eexists None, c; split; [done|]; split; [done|by right]].
    cbn [negb]. rewrite Hh. cbn [mbind option_bind]. specialize (Hal n eq_refl).
    destruct (dir_at_store c X Id a d ((n, MkNEntry Name (dc_NEStr2Hash Name) FType FileId) :: dce_Entries d) Hd)
      as (c' & -> & Hd' & Ho).
    { destruct Hn as [HF HN]. split; [by constructor|]. by apply NoDup_cons. }
    eexists (Some n), _. split; [done|]. eexists. split; [by apply dir_at_lock|]. split; [done|].
    split; [eapply lock_ok, Hd'|]. cbn [dce_Entries]. rewrite name_find_cons, decide_True by done.
    split; [done|]. split.
    + intros N HN. by rewrite name_find_cons, decide_False.
    + intros Id' Hne. rewrite <-Ho by done. unfold ca_value. simpl. by rewrite assoc_lock.
  - intros n e He. destruct (ne_remove_ok n e _ Hn He) as (l1 & l2 & El & Er & Hn').
    unfold dc_NERemove. rewrite Hh. cbn [mbind option_bind]. rewrite Er.
    destruct (dir_at_store c X Id a d (l1 ++ l2) Hd Hn') as (c' & -> & Hd' & Ho).
    eexists c', _. split; [done|]. split; [exact Hd'|]. cbn [dce_Entries]. rewrite El. split; [|split; [|done]].
    + intros N HN. by rewrite !name_find_app, name_find_cons, decide_False.
    + rewrite fmap_app, fmap_cons. intros (_ & Hx & [Hy _]%NoDup_cons)%NoDup_app.
      apply name_find_none. rewrite fmap_app, not_elem_of_app. split; [|done].
      intros Hin. apply (Hx _ Hin). left.
Qed.

(** An attribute record and a handle. *)
Definition ex_fattr (id : Z) : fattr := FAttr 1 33188 1 0 0 5 512 0 1 0 id (NfsTime 0 0) (NfsTime 0 0) (NfsTime 0 0).

Lemma attrs_Update_correct_witness :
  exists c c' : AttrCache, attrs_Init true true 10 60 = Some c /\
    attrs_Update (Some 5%positive) true 100 c [] (ex_fattr 7) = Some (Some 5%positive, c') /\
    ca_get 120 c' 7 = Some (Some (MkACEntry 7 [] (ex_fattr 7))) /\ ca_get 161 c' 7 = Some None.
Proof.
  destruct (attrs_Init true true 10 60) as [c|] eqn:E; [|done].
  destruct (ca_Init_ok 10 60 c true true) as (Hc & Hh & Hnone); [done|done|].
  destruct (attrs_Update_correct (Some 5%positive) true 100 c ∅ [] (ex_fattr 7) Hc) as (r & c' & Hu & _ & _ & Hr);
    [intros a _; by rewrite Hh|].
  injection E as <-.
  assert (Hp : (fun p : option addr * AttrCache => (p.1, tht_TTL (ca_tab p.2), tht_NumEntries (ca_tab p.2)))
     <$> Some (r, c') = Some (Some 5%positive, 60, 1)) by (rewrite <-Hu; vm_compute; reflexivity).
  simpl in Hp. injection Hp as -> Httl _. eexists _, c'. split; [done|]. split; [exact Hu|].
  destruct Hr as (e & i & He & _ & Hget & Hage). unfold is_dead in Hget. rewrite Httl in Hget.
  rewrite Hnone in Hage. destruct Hage as [Hb ->]. rewrite Hb in Hget. split; apply Hget.
Defined.

(** A directory with one name: the next removes it. *)
Lemma dc_names_correct_witness :
  exists (c0 c1 c2 c3 : DirCache) l, dc_Init true true 10 60 = Some c0 /\
    dc_DCECreateAndInsert (Some 3%positive) true 100 c0 2 [] = Some (Some 3%positive, c1) /\
    dc_NECreateAndInsert (Some 4%positive) true c1 3%positive [byte_of_Z 97] 1 9 = Some (Some 4%positive, c2) /\
    dc_NELookup c2 3%positive [byte_of_Z 97] = Some (Some l, c3).
Proof.
  destruct (dc_Init true true 10 60) as [c0|] eqn:E; [|done].
  destruct (ca_Init_ok 10 60 c0 true true) as (Hc & Hh & Hnone); [done|done|].
  destruct (ca_Insert_ok (Some 3%positive) true 100 c0 ∅ 2 (MkDCEntry 2 0 [] []) Hc) as (r & c1 & Hi & Hc1 & _ & _ & Hr);
    [intros a _; by rewrite Hh|].
  destruct r as [a|]; [|destruct Hr as (_ & [?|[?|Hr]]); [done..|]; injection E as <-; vm_compute in Hr; done].
  destruct Hr as ([= <-] & Has & Hv & _).
  assert (Hd : dir_at c1 ∅ 2 3%positive (MkDCEntry 2 0 [] [])).
  { split; [done|]. split; [unfold ca_addr; by rewrite Has|]. split; [done|]. split; [by constructor|constructor]. }
  destruct (dc_names_correct c1 ∅ 2 3%positive _ Hd) as (_ & Hcr & _).
  destruct (Hcr (Some 4%positive) true [byte_of_Z 97] 1 9) as (r & c2 & Hn & Hr);
    [intros n _; apply not_elem_of_nil|].
  destruct r as [n|]; [|by destruct Hr as (_ & [|])].
  destruct Hr as (d' & (Hc2 & _ & Hh2 & Hn2) & [= <-] & _ & Hf & _).
  exists c0, c1, c2, (ca_Lock c2). eexists. split; [done|]. split; [exact Hi|]. split; [exact Hn|].
  unfold dc_NELookup. rewrite Hh2. cbn [mbind option_bind]. rewrite ne_find_ok, Hf by done. done.
Defined.
