(* ===== verification/Fn.v ===== *)
(** * File names (fn.c)

    Names are lists of bytes without their terminator.  AmigaDOS paths use one
    slash between names, and a further one for "go to the parent".  The
    functions of dos.library that take names apart are the class [DosNames]. *)
From S2P Require Import Prelude NfsProt NfsSupp.

Definition slash : byte := x2f.
Definition dot : byte := x2e.
Definition colon : byte := x3a.

(** The byte a pointer into a string points to; the terminator at its end. *)
Definition at0 (s : list byte) : byte := match s with [] => x00 | c :: _ => c end.

(** The string in a buffer. *)
Fixpoint cstr (s : list byte) : list byte :=
  match s with
  | [] => []
  | c :: s => if bool_decide (c = x00) then [] else c :: cstr s
  end.

(** AddPart within a buffer of a size (failure is [None]); FilePart and
    PathPart as offsets in their argument. *)
Class DosNames := {
  AddPart : list byte -> list byte -> Z -> option (list byte);
  FilePart : list byte -> Z;
  PathPart : list byte -> Z
}.

(** StrNDup copies [l] bytes, which have to be there. *)
Definition StrNDup (mem_ok : bool) (s : list byte) (l : Z) : option (option (list byte)) :=
  if (0 <=? l) && (l <=? zlen s) then Some (if mem_ok then Some (take (Z.to_nat l) s) else None)
  else None.
Definition StrDup (mem_ok : bool) (s : list byte) : option (option (list byte)) :=
  StrNDup mem_ok s (zlen s).

(** ** fn_AM2UN: the size that is allocated and the bytes that are stored *)

Fixpoint am2un_extra (s : list byte) : Z :=
  match s with
  | [] => 0
  | c :: s => (if bool_decide (c = slash) && bool_decide (at0 s = slash) then 2 else 0) + am2un_extra s
  end.
Fixpoint am2un_copy (s : list byte) : list byte :=
  match s with
  | [] => []
  | c :: s =>
      c :: (if bool_decide (c = slash) && bool_decide (at0 s = slash) then [dot; dot] else []) ++ am2un_copy s
  end.

(** A store outside the allocated memory is undefined. *)
Definition fn_AM2UN (mem_ok : bool) (s : list byte) : option (option (list byte)) :=
  let size := zlen s + 1 + am2un_extra s in
  if mem_ok
  then if zlen (am2un_copy s) + 1 <=? size then Some (Some (am2un_copy s)) else None
  else Some None.

(** ** Taking names apart and together *)

Section Names.
Context `{DosNames}.

(** The first [l1 + 1] bytes of [s1] are copied, which is the string when [l1]
    is its length. *)
Definition fn_AddPart (mem_ok : bool) (s1 : list byte) (l1 : Z) (s2 : list byte) (l2 : Z)
  : option (option (list byte * Z)) :=
  let l1 := if l1 =? -1 then zlen s1 else l1 in
  let l2 := if l2 =? -1 then zlen s2 else l2 in
  let l := l1 + l2 + 3 in
  if negb mem_ok then Some None
  else if negb (l1 =? zlen s1) then None
  else Some (match AddPart s1 s2 l with Some s => Some (s, zlen s) | None => None end).

(** Result: the new string and its length in [*dl], or NULL.  For a path that
    ends in a slash the copy [s2] is cut at it. *)
Definition fn_FilePart (mem_ok mem_ok2 : bool) (s : list byte) (l : Z)
  : option (option (list byte * Z)) :=
  let dup s l2 := (r ← StrNDup mem_ok s l2; Some (match r with Some n => Some (cstr n, l2) | None => None end)) in
  if l =? 0 then dup [] 0
  else (c ← s !! Z.to_nat (l - 1);
        if bool_decide (c = colon) then dup s l
        else
        let p1 := FilePart s in
        if p1 <? zlen s then dup (drop (Z.to_nat p1) s) (l - p1)
        else
        (s2 ← StrNDup mem_ok2 s l;
         match s2 with
         | None => Some None
         | Some s2 =>
             (c2 ← s2 !! Z.to_nat (p1 - 2);
              if bool_decide (c2 = slash) then Some None
              else
              let s2 := <[Z.to_nat (p1 - 1) := x00]> s2 in
              let p1 := FilePart (cstr s2) in
              dup (drop (Z.to_nat p1) (s2 ++ [x00])) (l - p1))
         end)).

(** A BSTR: a byte with the length, then the bytes. *)
Definition fn_B2CStr (mem_ok : bool) (bs : list byte) : option (option (list byte) * Z) :=
  match bs with
  | [] => None
  | n :: s =>
      let l := Z_of_byte n in
      if zlen s <? l then None
      else Some (if mem_ok then Some (cstr (take (Z.to_nat l) s)) else None, l)
  end.

(** supp.c: the memory of a BSTR made of a C string, with a zero at the end; the
    length is stored in a byte.  [DupBSTR] gives NULL for NULL. *)
Definition NewBSTR (mem_ok : bool) (s : list byte) : option (list byte) :=
  if mem_ok then Some (byte_of_Z (zlen s) :: s ++ [x00]) else None.
Definition DupBSTR (mem_ok : bool) (bs : option (list byte)) : option (option (list byte)) :=
  match bs with
  | None => Some None
  | Some bs =>
      n ← head bs;
      let l := Z_of_byte n in
      if zlen bs <? l + 1 then None
      else Some (if mem_ok then Some (take (Z.to_nat (l + 1)) bs ++ [x00]) else None)
  end.

(** What follows the first colon, or all of the string. *)
Fixpoint after_colon (s : list byte) : option (list byte) :=
  match s with
  | [] => None
  | c :: s => if bool_decide (c = colon) then Some s else after_colon s
  end.

(** The index in the string of a BSTR's first [c], or NULL. *)
Fixpoint find_byte (s : list byte) (c : byte) : option Z :=
  match s with
  | [] => None
  | x :: s => if bool_decide (x = c) then Some 0 else Z.succ <$> find_byte s c
  end.
Definition bstrchr (bs : list byte) (c : byte) : option (option Z) :=
  n ← head bs;
  let l := Z_of_byte n in
  if zlen bs <? l + 1 then None else Some (find_byte (take (Z.to_nat l) (tail bs)) c).

(** What is left of a BSTR after its first colon, without one slash at the end. *)
Definition fn_BPathWithoutDev (mem_ok : bool) (bs : list byte) : option ((Z + list byte) * bool) :=
  s ← bstrchr bs colon;
  n ← head bs;
  let l := Z_of_byte n in
  let '(start, l, IsAbsolute) := match s with Some i => (i + 1, l - i - 1, true) | None => (0, l, false) end in
  if negb mem_ok then Some (inl ERROR_NO_FREE_STORE, IsAbsolute)
  else
  let d := sub_list (tail bs) start l in
  let l :=
    if (l >? 1) && bool_decide (d !! Z.to_nat (l - 1) = Some slash)
       && negb (bool_decide (d !! Z.to_nat (l - 2) = Some slash))
    then l - 1 else l in
  Some (inr (take (Z.to_nat l) d), IsAbsolute).

(** Back from [e] to a separator, or to the start of the string. *)
Fixpoint fn_RSep (s : list byte) (e : nat) : option nat :=
  match e with
  | O => Some O
  | S e' =>
      c ← s !! e;
      if bool_decide (c = slash) || bool_decide (c = colon) then Some e else fn_RSep s e'
  end.

(** The result and [*IsAbsolute]; without memory [*Res2] is set. *)
Definition fn_PathWithoutDev (mem_ok : bool) (ss : list byte) : (Z + list byte) * bool :=
  let '(s, IsAbsolute) := match after_colon ss with Some s => (s, true) | None => (ss, false) end in
  (if mem_ok then inr s else inl ERROR_NO_FREE_STORE, IsAbsolute).

Definition fn_PathPart (mem_ok : bool) (s : list byte) (l : Z) : option (option (list byte) * Z) :=
  if l =? 0 then (r ← StrDup mem_ok []; Some (r, 0))
  else (c ← s !! Z.to_nat (l - 1);
        if bool_decide (c = colon) then (r ← StrNDup mem_ok s l; Some (r, l))
        else
        let l2 := PathPart s in
        (r ← StrNDup mem_ok s l2; Some (r, l2))).

(** [Path] with [Len] bytes at [From] replaced by [Link]. *)
Definition fn_InsertLink (Buf : list byte) (BufLen : Z) (Device : option (list byte))
  (Path : list byte) (From Len : Z) (Link : list byte) : option (Z + list byte) :=
  if bool_decide (Device = Some []) then None
  else
  let dev :=
  match Device with
  | None => Some (Buf, [], BufLen)
  | Some D =>
      if zlen D + 2 >? BufLen then None
      else let D := if bool_decide (last D = Some colon) then D else D ++ [colon] in
      Some (D, D, BufLen - zlen D)
  end in
  match dev with
  | None => Some (inl ERROR_NO_FREE_STORE)
  | Some (Buf, pre, BufFree) =>
      let pth :=
      if From >? 0
      then if From <? BufFree then Some (pre ++ take (Z.to_nat (From - 1)) Path) else None
      else Some Buf in
      match pth with
      | None => Some (inl ERROR_NO_FREE_STORE)
      | Some Buf =>
          match AddPart Buf Link BufLen with
          | None => Some (inl ERROR_NO_FREE_STORE)
          | Some Buf =>
              if zlen Path <? From + Len then None
              else if From + Len =? zlen Path then Some (inr Buf)
              else match AddPart Buf (drop (Z.to_nat (From + Len + 1)) Path) BufLen with
                   | None => Some (inl ERROR_NO_FREE_STORE)
                   | Some Buf => Some (inr Buf)
                   end
          end
      end
  end.
End Names.

(** ** fn_PathUnify

    The output is kept in reverse: its head is [d[-1]], the empty list is
    [d == d0].  The rest of the input is [s]; [l] is its length throughout. *)

(** One step back, and on to the slash before the last name or the start. *)
Fixpoint strip_dir (d : list byte) : list byte :=
  match d with
  | [] => []
  | c :: d => if bool_decide (c = slash) then d else strip_dir d
  end.

(** The loop over a sequence of slashes; [None]: no dirname to strip. *)
Fixpoint unify_slashes (s d : list byte) : option (list byte * list byte) :=
  match s with
  | [] => Some ([], d)
  | c :: s' =>
      if bool_decide (c = slash)
      then match d with [] => None | _ :: _ => unify_slashes s' (strip_dir d) end
      else Some (s, d)
  end.

Definition ends (c : byte) : bool := bool_decide (c = slash) || bool_decide (c = x00).

(** One turn of the loop, with [c] read and [s] behind it; the result is the
    new [s], [d], AddSep and StrippedDirs. *)
Definition unify_step (c : byte) (s d : list byte) (AddSep Stripped : bool)
  : option (list byte * list byte * bool * bool) :=
  if bool_decide (c = slash)
  then match s with
       | [] => Some (s, d, AddSep, Stripped)
       | c1 :: s1 =>
           if bool_decide (c1 = slash)
           then match unify_slashes s d with
                | None => None
                | Some (s, d) => Some (slash :: s, d, true, true)
                end
           else if bool_decide (c1 = dot)
           then if ends (at0 s1) then Some (s1, d, AddSep, Stripped)
                else if bool_decide (at0 s1 = dot)
                then if ends (at0 (tail s1))
                     then match d with
                          | [] => None
                          | _ :: _ => Some (tail s1, strip_dir d, true, Stripped)
                          end
                     else Some (s, d, true, Stripped)
                else Some (s, d, true, Stripped)
           else Some (s, d, true, Stripped)
       end
  else if bool_decide (c = dot) && ends (at0 s) then Some (s, d, AddSep, Stripped)
  else Some (s, c :: (if AddSep && negb (bool_decide (d = [])) then slash :: d else d), false, Stripped).

(** [None] is out of fuel. *)
Fixpoint unify_loop (fuel : nat) (s d : list byte) (AddSep Stripped : bool)
  : option (option (list byte * list byte * bool)) :=
  match s with
  | [] => Some (Some (s, d, Stripped))
  | c :: s =>
      match fuel with
      | O => None
      | S fuel =>
          match unify_step c s d AddSep Stripped with
          | None => Some None
          | Some (s, d, AddSep, Stripped) => unify_loop fuel s d AddSep Stripped
          end
      end
  end.

(** The string starts with the name of two dots. *)
Definition is_dotdot (s : list byte) : bool :=
  bool_decide (at0 s = dot) && bool_decide (at0 (tail s) = dot) && ends (at0 (tail (tail s))).

(** The path with [*StrippedDirs], or [*Res2]; the length of the path is
    [*Len].  The test at the end looks at [s], which is at its end. *)
Definition fn_PathUnify (mem_ok : bool) (ss : list byte) : option (Z + list byte * bool) :=
  if bool_decide (at0 ss = slash) || is_dotdot ss then Some (inl ERROR_OBJECT_NOT_FOUND)
  else if negb mem_ok then Some (inl ERROR_NO_FREE_STORE)
  else
  (r ← unify_loop (S (length ss)) ss [] false false;
   match r with
   | None => Some (inl ERROR_INVALID_COMPONENT_NAME)
   | Some (s, d, Stripped) =>
       if bool_decide (at0 (rev d) = slash) || is_dotdot s
       then Some (inl ERROR_OBJECT_NOT_FOUND)
       else Some (inr (rev d, Stripped))
   end).

(** ** fn_ScanPath

    The buffer [APath] holds the path and its terminator.  The result is the
    offset of the component, the buffer (with the component terminated), [Pos]
    and whether it is the last one. *)
Fixpoint scan_end (s : list byte) : Z :=
  match s with
  | [] => 0
  | c :: s => if ends c then 0 else 1 + scan_end s
  end.

Definition fn_ScanPath (APath : list byte) (Pos : Z) : option (Z * list byte * Z * bool) :=
  let APath := if Pos =? 0 then APath else <[Z.to_nat (Pos - 1) := slash]> APath in
  let p := Pos in
  let e := p + scan_end (drop (Z.to_nat p) APath) in
  (c ← APath !! Z.to_nat e;
   if bool_decide (c = x00) then Some (p, APath, Pos, true)
   else Some (p, if e =? p then APath else <[Z.to_nat e := x00]> APath, e + 1, false)).
