(* ===== verification/FnThm.v ===== *)
(** * Theorems about file names

    [fn_PathUnify] against a reference that works on lists of names: slashes
    separate names, an empty name that is not the last one and the name ".."
    go to the parent, "." stays. *)
From S2P Require Import Prelude NfsProt NfsSupp Fn.

(** ** The reference *)

(** The names between the slashes. *)
Fixpoint split_path (s : list byte) : list (list byte) :=
  match s with
  | [] => [[]]
  | c :: s =>
      if bool_decide (c = slash) then [] :: split_path s
      else match split_path s with
           | [] => [[c]]
           | n :: ns => (c :: n) :: ns
           end
  end.

Fixpoint join_path (ns : list (list byte)) : list byte :=
  match ns with
  | [] => []
  | [n] => n
  | n :: ns => n ++ slash :: join_path ns
  end.

(** [st]: the directories on the way from the root, the last one first. *)
Fixpoint resolve (st cs : list (list byte)) : option (list (list byte)) :=
  match cs with
  | [] => Some st
  | c :: cs =>
      if bool_decide (c = [dot]) || (bool_decide (c = []) && bool_decide (cs = [])) then resolve st cs
      else if bool_decide (c = [dot; dot]) || bool_decide (c = [])
      then match st with [] => None | _ :: st => resolve st cs end
      else resolve (c :: st) cs
  end.

Definition unify_spec (ss : list byte) : Z + list byte :=
  match split_path ss with
  | c :: cs =>
      if (bool_decide (c = []) && negb (bool_decide (cs = []))) || bool_decide (c = [dot; dot])
      then inl ERROR_OBJECT_NOT_FOUND
      else match resolve [] (c :: cs) with
           | None => inl ERROR_INVALID_COMPONENT_NAME
           | Some st => inr (join_path (rev st))
           end
  | [] => inl 0
  end.

(** ** Names and paths *)

(** A name: no slash and no terminator in it; it is special or does not end
    with a dot. *)
Definition name_ok (c : list byte) : Prop :=
  slash ∉ c /\ x00 ∉ c /\ (last c = Some dot -> c = [dot] \/ c = [dot; dot]).

Definition plain (c : list byte) : Prop := name_ok c /\ c <> [] /\ c <> [dot] /\ c <> [dot; dot].

(** The path below a directory: a slash before every name. *)
Definition tail_path (cs : list (list byte)) : list byte := concat ((fun c => slash :: c) <$> cs).

Lemma split_tail s : exists c cs, split_path s = c :: cs /\ s = c ++ tail_path cs.
Proof.
  induction s as [|b s (c & cs & E & ->)]; simpl; [by exists [], []|].
  rewrite E. case_bool_decide as Hb.
  - exists [], (c :: cs). split; [done|]. by subst.
  - by exists (b :: c), cs.
Qed.

(** The output for the directories [st]. *)
Fixpoint out_of (st : list (list byte)) : list byte :=
  match st with
  | [] => []
  | [c] => rev c
  | c :: st => rev c ++ slash :: out_of st
  end.

Lemma strip_slash r d : slash ∉ r -> strip_dir (r ++ slash :: d) = d.
Proof.
  induction r as [|b r IH]; intros Hr; simpl; [done|].
  apply not_elem_of_cons in Hr as [Hb Hr]. rewrite bool_decide_eq_false_2 by congruence. by apply IH.
Qed.

Lemma strip_all r : slash ∉ r -> strip_dir r = [].
Proof.
  induction r as [|b r IH]; intros Hr; simpl; [done|].
  apply not_elem_of_cons in Hr as [Hb Hr]. rewrite bool_decide_eq_false_2 by congruence. by apply IH.
Qed.

Lemma not_in_rev (b : byte) c : b ∉ c -> b ∉ rev c.
Proof. by rewrite !list_elem_of_In, <-in_rev. Qed.

Lemma strip_out c st : slash ∉ c -> strip_dir (out_of (c :: st)) = out_of st.
Proof.
  intros Hc%not_in_rev. destruct st as [|c2 st]; simpl; [by apply strip_all|by apply strip_slash].
Qed.

Lemma out_nil st : Forall plain st -> out_of st = [] -> st = [].
Proof.
  destruct st as [|c st]; [done|]. intros [(_ & Hc & _) _]%Forall_cons Ho. exfalso. apply Hc.
  apply (f_equal (@length byte)) in Ho. destruct c; [done|]. destruct st; simpl in Ho; rewrite ?length_app in Ho; simpl in Ho;
  rewrite ?length_app in Ho; simpl in Ho; lia.
Qed.

Lemma ends_false b : b <> slash -> b <> x00 -> ends b = false.
Proof. intros. unfold ends. by rewrite !bool_decide_eq_false_2. Qed.

Lemma tail_ends cs : ends (at0 (tail_path cs)) = true.
Proof. by destruct cs. Qed.

(** ** The loop *)

Lemma inner_dot b q rest : slash ∉ q -> x00 ∉ q -> last (b :: q) <> Some dot ->
  bool_decide (b = dot) && ends (at0 (q ++ rest)) = false.
Proof.
  intros Hs H0 Hl. case_bool_decide as Hd; [|done]. destruct q as [|c q]; [by subst|]. simpl.
  apply not_elem_of_cons in Hs as [? _], H0 as [? _]. by apply ends_false.
Qed.

Lemma chars_loop Str q rest : forall fuel d, slash ∉ q -> x00 ∉ q -> last q <> Some dot ->
  unify_loop (length q + fuel) (q ++ rest) d false Str = unify_loop fuel rest (rev q ++ d) false Str.
Proof.
  induction q as [|b q IH]; intros fuel d Hs H0 Hl; [done|].
  apply not_elem_of_cons in Hs as [Hb Hs], H0 as [Hb0 H0]. simpl length. rewrite <-app_comm_cons.
  cbn [Nat.add unify_loop]. unfold unify_step. rewrite bool_decide_eq_false_2 by congruence.
  rewrite inner_dot by done. simpl. rewrite IH; [by rewrite <-app_assoc|done|done|]. destruct q; [done|exact Hl].
Qed.

Lemma name_loop c st rest fuel AddSep Str : plain c -> Forall plain st -> st = [] \/ AddSep = true ->
  unify_loop (length c + fuel) (c ++ rest) (out_of st) AddSep Str = unify_loop fuel rest (out_of (c :: st)) false Str.
Proof.
  intros ((Hs & H0 & Hl) & Hne & Hd1 & Hd2) Hst Ha. destruct c as [|b q]; [done|].
  apply not_elem_of_cons in Hs as [Hb Hs], H0 as [Hb0 H0].
  assert (Hlq : last (b :: q) <> Some dot) by (intros E; destruct (Hl E); done).
  simpl length. rewrite <-app_comm_cons. cbn [Nat.add unify_loop]. unfold unify_step.
  rewrite bool_decide_eq_false_2 by congruence.
  rewrite inner_dot by done. rewrite chars_loop; [|done|done|destruct q; [done|exact Hlq]]. f_equal.
  destruct st as [|c2 st]; [by rewrite andb_false_r|]. destruct Ha as [Ha|Ha]; [done|]. rewrite Ha.
  rewrite bool_decide_eq_false_2; [by cbn; rewrite <-app_assoc|]. intros E. by apply out_nil in E.
Qed.

Lemma resolve_cons_nil st cs : cs <> [] ->
  resolve st ([] :: cs) = match st with [] => None | _ :: st => resolve st cs end.
Proof. intros H. simpl. by rewrite (bool_decide_eq_false_2 (cs = [])). Qed.

Lemma slashes_ok cs : forall st, cs <> [] -> Forall name_ok cs -> Forall plain st ->
  match unify_slashes (tail_path cs) (out_of st) with
  | None => resolve st ([] :: cs) = None
  | Some (s', d') => exists cs' st', slash :: s' = tail_path cs' /\ d' = out_of st' /\
      Forall name_ok cs' /\ Forall plain st' /\ resolve st ([] :: cs) = resolve st' cs' /\
      (length (tail_path cs') <= length (tail_path cs))%nat
  end.
Proof.
  induction cs as [|c cs IH]; intros st Hne Hcs Hst; [done|]. rewrite resolve_cons_nil by done.
  apply Forall_cons in Hcs as [Hc Hcs]. change (tail_path (c :: cs)) with (slash :: c ++ tail_path cs).
  cbn [unify_slashes]. rewrite bool_decide_eq_true_2 by done.
  destruct st as [|x st]; [done|]. pose proof Hst as [Hx Hst']%Forall_cons.
  destruct (out_of (x :: st)) as [|b o] eqn:Eo; [by apply out_nil in Eo|].
  rewrite <-Eo, strip_out by (by destruct Hx as [[? _] _]).
  destruct c as [|b2 c].
  - destruct cs as [|c2 cs].
    + exists [[]], st. split; [done|]. split; [done|]. split; [by constructor|]. by split.
    + simpl app. specialize (IH st). destruct (unify_slashes (tail_path (c2 :: cs)) (out_of st)) as [[s' d']|]; [|by apply IH].
      destruct IH as (cs' & st' & ? & ? & ? & ? & ? & ?); [done..|]. exists cs', st'.
      repeat (split; [done|]). simpl in *. lia.
  - simpl app. cbn [unify_slashes]. rewrite bool_decide_eq_false_2.
    + exists ((b2 :: c) :: cs), st. repeat (split; [done|]). split; [by constructor|].
      repeat (split; [done|]). done.
    + destruct Hc as (Hs & _). apply not_elem_of_cons in Hs as [Hs _]. congruence.
Qed.

Lemma step_plain c rest d A Str : plain c ->
  unify_step slash (c ++ rest) d A Str = Some (c ++ rest, d, true, Str).
Proof.
  intros ((Hs & H0 & Hl) & Hne & Hd1 & Hd2). unfold unify_step. rewrite bool_decide_eq_true_2 by done.
  destruct c as [|b c]; [done|]. apply not_elem_of_cons in Hs as [Hb Hs], H0 as [Hb0 H0]. simpl app. cbv iota beta.
  rewrite bool_decide_eq_false_2 by congruence. case_bool_decide as Hbd; [|done]. subst b.
  destruct c as [|b2 c]; [done|]. apply not_elem_of_cons in Hs as [Hb2 Hs], H0 as [Hb20 H0]. simpl at0.
  rewrite ends_false by done. case_bool_decide as Hbd; [|done]. subst b2. simpl tail.
  destruct c as [|b3 c]; [done|]. apply not_elem_of_cons in Hs as [Hb3 _], H0 as [Hb30 _]. simpl at0.
  by rewrite ends_false.
Qed.

Lemma unify_tail n : forall cs st AddSep Str fuel, (length (tail_path cs) <= n)%nat ->
  (length (tail_path cs) <= fuel)%nat -> Forall name_ok cs -> Forall plain st ->
  exists r, unify_loop fuel (tail_path cs) (out_of st) AddSep Str = Some r /\
    match resolve st cs with
    | None => r = None
    | Some st' => Forall plain st' /\ exists Str', r = Some ([], out_of st', Str')
    end.
Proof.
  induction n as [|n IH]; intros cs st AddSep Str fuel Hn Hf Hcs Hst.
  { destruct cs as [|c cs]; [|simpl in Hn; lia]. destruct fuel; eexists; (split; [done|]); by split; [|eexists]. }
  destruct cs as [|c cs]; [destruct fuel; eexists; (split; [done|]); by split; [|eexists]|].
  pose proof Hcs as [Hc Hcs']%Forall_cons.
  change (tail_path (c :: cs)) with (slash :: c ++ tail_path cs) in *.
  simpl in Hn, Hf. rewrite length_app in Hn, Hf. destruct fuel as [|fuel]; [lia|]. cbn [unify_loop].
  destruct (decide (c = [])) as [->|Hc0].
  { unfold unify_step. rewrite bool_decide_eq_true_2 by done. destruct cs as [|c2 cs]; simpl app.
    { destruct fuel; eexists; (split; [done|]); by split; [|eexists]. }
    pose proof (slashes_ok (c2 :: cs) st ltac:(done) Hcs' Hst) as Hsl.
    change (tail_path (c2 :: cs)) with (slash :: c2 ++ tail_path cs) at 1.
    cbv iota beta. rewrite bool_decide_eq_true_2 by done. change (slash :: c2 ++ tail_path cs) with (tail_path (c2 :: cs)).
    destruct (unify_slashes _ _) as [[s' d']|]; [|rewrite Hsl; by eexists].
    destruct Hsl as (cs' & st' & -> & -> & Hcs1 & Hst1 & -> & Hle). apply IH; [|simpl in *..|done|done]; simpl in *; lia. }
  destruct (decide (c = [dot])) as [->|Hc1].
  { unfold unify_step. rewrite bool_decide_eq_true_2 by done. simpl app. cbv iota beta. rewrite bool_decide_eq_false_2 by done. rewrite bool_decide_eq_true_2 by done.
    rewrite tail_ends. simpl resolve. apply IH; [simpl in *; lia..|done|done]. }
  destruct (decide (c = [dot; dot])) as [->|Hc2].
  { unfold unify_step. rewrite bool_decide_eq_true_2 by done. simpl app. cbv iota beta. rewrite bool_decide_eq_false_2 by done. rewrite bool_decide_eq_true_2 by done.
    simpl at0. rewrite (bool_decide_eq_true_2 (dot = dot)) by done. simpl tail. rewrite tail_ends.
    simpl resolve. destruct st as [|x st]; [by eexists|].
    pose proof Hst as [Hx Hst']%Forall_cons.
    destruct (out_of (x :: st)) as [|b o] eqn:Eo; [by apply out_nil in Eo|].
    simpl ends. cbv iota beta. rewrite <-Eo, strip_out by (by destruct Hx as [[? _] _]).
    apply IH; [simpl in *; lia..|done|done]. }
  assert (Hp : plain c) by (by split). rewrite step_plain by done.
  replace fuel with (length c + (fuel - length c))%nat by lia. rewrite name_loop; [|done|done|by right].
  simpl resolve. rewrite (bool_decide_eq_false_2 (c = [dot])), (bool_decide_eq_false_2 (c = [])),
    (bool_decide_eq_false_2 (c = [dot; dot])) by done. simpl orb. cbv iota.
  apply IH; [lia|lia|done|by constructor].
Qed.

Lemma out_join st : rev (out_of st) = join_path (rev st).
Proof.
  induction st as [|c st IH]; [done|]. destruct st as [|c2 st]; [simpl; apply rev_involutive|].
  change (out_of (c :: c2 :: st)) with (rev c ++ slash :: out_of (c2 :: st)).
  rewrite rev_app_distr, rev_involutive. cbn [rev] in *. rewrite IH. rewrite <-!app_assoc.
  generalize (rev st) as l. intros l. simpl. induction l as [|x l IHl]; [done|].
  simpl app. destruct (l ++ [c2]) eqn:E1; [by destruct l|]. destruct (l ++ [c2; c]) eqn:E2; [by destruct l|].
  cbn [join_path] in *. rewrite <-IHl, <-app_assoc. done.
Qed.

Lemma at0_out st : Forall plain st -> at0 (rev (out_of st)) <> slash.
Proof.
  intros Hst. induction st as [|c st IH]; [done|]. pose proof Hst as [(Hc & Hne & _) Hst']%Forall_cons.
  destruct st as [|c2 st].
  - simpl. rewrite rev_involutive. destruct c as [|b c]; [done|]. simpl. destruct Hc as (Hs & _).
    apply not_elem_of_cons in Hs as [? _]. congruence.
  - change (out_of (c :: c2 :: st)) with (rev c ++ slash :: out_of (c2 :: st)).
    rewrite rev_app_distr. cbn [rev]. rewrite <-app_assoc. specialize (IH Hst').
    destruct (rev (out_of (c2 :: st))) as [|b r] eqn:E; [|done]. exfalso.
    apply (f_equal (@rev byte)) in E. rewrite rev_involutive in E. by apply out_nil in E.
Qed.

Lemma dotdot_ok c cs : name_ok c -> is_dotdot (c ++ tail_path cs) = bool_decide (c = [dot; dot]).
Proof.
  intros (Hs & H0 & _). unfold is_dotdot.
  destruct c as [|b1 c]; [by destruct cs|]. simpl at0.
  case_bool_decide as H1; [subst|by rewrite (bool_decide_eq_false_2 (_ = [dot; dot])) by congruence].
  destruct c as [|b2 c]; [by destruct cs|]. simpl.
  case_bool_decide as H2; [subst|by rewrite (bool_decide_eq_false_2 (_ = [dot; dot])) by congruence].
  destruct c as [|b3 c]; simpl.
  - by rewrite tail_ends.
  - rewrite ends_false; [done|set_solver|set_solver].
Qed.

(** The output never needs more room than the input that is used up. *)
Lemma strip_room d : (length (strip_dir d) <= length d)%nat.
Proof. induction d as [|b d IH]; simpl; [done|]. case_bool_decide; lia. Qed.

Lemma slashes_room s : forall d s' d', unify_slashes s d = Some (s', d') ->
  (length s' <= length s /\ length d' <= length d)%nat.
Proof.
  induction s as [|c s IH]; intros d s' d'; simpl; [intros [= <- <-]; done|].
  case_bool_decide; [|intros [= <- <-]; done]. destruct d as [|b d]; [done|].
  intros [H1 H2]%IH. pose proof (strip_room (b :: d)). lia.
Qed.

Lemma step_room c s d A Str s' d' A' Str' : unify_step c s d A Str = Some (s', d', A', Str') ->
  (length d' + length s' + Nat.b2n A' <= length d + length (c :: s) + Nat.b2n A)%nat.
Proof.
  unfold unify_step. case_bool_decide.
  - destruct s as [|c1 s1]; [intros [= <- <- <- <-]; simpl; lia|]. case_bool_decide; subst.
    + cbn [unify_slashes]. rewrite bool_decide_eq_true_2 by done. destruct d as [|b d]; [done|].
      destruct (unify_slashes s1 (strip_dir (b :: d))) as [[s2 d2]|] eqn:E; [|done]. intros [= <- <- <- <-].
      apply slashes_room in E. pose proof (strip_room (b :: d)). simpl in *. destruct A; simpl; lia.
    + assert (Ht : (length (tail s1) <= length s1)%nat) by (destruct s1; simpl; lia).
      pose proof (strip_room d) as Hd.
      repeat case_match; intros; simplify_eq; simpl in *; try lia; destruct A; simpl; lia.
  - case_match; intros [= <- <- <- <-]; simpl; [lia|]. destruct A, d; simpl; lia.
Qed.

Lemma loop_room fuel : forall s d A Str s' d' Str', unify_loop fuel s d A Str = Some (Some (s', d', Str')) ->
  (length d' <= length d + length s + Nat.b2n A)%nat.
Proof.
  induction fuel as [|fuel IH]; intros [|c s] d A Str s' d' Str'; cbn [unify_loop]; try done;
    try (intros [= <- <- <-]; simpl; lia).
  destruct (unify_step c s d A Str) as [[[[s1 d1] A1] Str1]|] eqn:E; [|done].
  intros H%IH. apply step_room in E. lia.
Qed.

Lemma fn_PathUnify_ok ss : Forall name_ok (split_path ss) ->
  match unify_spec ss with
  | inl e => fn_PathUnify true ss = Some (inl e)
  | inr p => exists st Stripped, fn_PathUnify true ss = Some (inr (p, Stripped)) /\
      p = join_path st /\ Forall plain st /\ zlen p <= zlen ss
  end.
Proof.
  destruct (split_tail ss) as (c & cs & E & Hss). intros Hok. rewrite E in Hok. apply Forall_cons in Hok as [Hc Hcs].
  unfold unify_spec, fn_PathUnify. rewrite E, Hss, dotdot_ok by done.
  assert (H0 : bool_decide (at0 (c ++ tail_path cs) = slash) = bool_decide (c = []) && negb (bool_decide (cs = []))).
  { destruct c as [|b c]; [by destruct cs|]. simpl. apply bool_decide_eq_false_2. destruct Hc as (Hs & _). set_solver. }
  rewrite H0. destruct (_ || bool_decide (c = [dot; dot])) eqn:Ebad; [done|]. apply orb_false_iff in Ebad as [Eb1 Eb2].
  apply bool_decide_eq_false in Eb2. simpl negb. cbv iota.
  assert (Hloop : exists r, unify_loop (S (length (c ++ tail_path cs))) (c ++ tail_path cs) [] false false = Some r /\
    match resolve [] (c :: cs) with
    | None => r = None
    | Some st' => Forall plain st' /\ exists Str', r = Some ([], out_of st', Str')
    end).
  { rewrite length_app. destruct (decide (c = [])) as [->|Hc0].
    { destruct cs; [|done]. eexists. split; [done|]. simpl. split; [done|by eexists]. }
    destruct (decide (c = [dot])) as [->|Hc1].
    { cbn [app unify_loop]. unfold unify_step.
      rewrite tail_ends. simpl resolve. apply (unify_tail (length (tail_path cs)) cs [] false false); simpl; done || lia. }
    assert (Hp : plain c) by (by split).
    replace (S (length c + length (tail_path cs)))%nat with (length c + S (length (tail_path cs)))%nat by lia.
    change [] with (out_of []) at 1. rewrite name_loop; [|done|done|by left].
    simpl resolve. rewrite (bool_decide_eq_false_2 (c = [dot])), (bool_decide_eq_false_2 (c = [])),
      (bool_decide_eq_false_2 (c = [dot; dot])) by done.
    apply (unify_tail (length (tail_path cs))); [lia|lia|done|by constructor]. }
  destruct Hloop as (r & Er & Hr). destruct (resolve [] (c :: cs)) as [st'|]; [|by rewrite Er, Hr].
  destruct Hr as (Hst' & Str' & ->). pose proof (loop_room _ _ _ _ _ _ _ _ Er) as Hroom. rewrite Er.
  exists (rev st'), Str'. cbn [mbind option_bind].
  rewrite bool_decide_eq_false_2 by (by apply at0_out). rewrite <-out_join.
  split; [done|]. split; [done|]. split; [by apply Forall_rev|]. unfold zlen. rewrite length_rev. simpl in Hroom. lia.
Qed.

(** C31: fn_PathUnify, when it gets its memory, resolves a path of which no name ends
    with a dot but the names "." and ".." ([name_ok]; fn_PathUnify_drops_dot shows
    what becomes of others).  The result is that of walking through the names with a
    stack of directories: "." stays, ".." and every empty name but the last go to the
    parent; a path that starts at a parent is not found, one that leaves the root on
    its way is invalid, and otherwise the result is the names on the stack, none of
    which is empty, "." or "..", and fits into the memory of the argument.  The
    function always returns. *)
Theorem fn_PathUnify_resolves ss : Forall name_ok (split_path ss) ->
  match unify_spec ss with
  | inl e => fn_PathUnify true ss = Some (inl e)
  | inr p => exists st Stripped, fn_PathUnify true ss = Some (inr (p, Stripped)) /\
      p = join_path st /\ Forall plain st /\ zlen p <= zlen ss
  end.
Proof. apply fn_PathUnify_ok. Qed.

(** A dot at the end of a name is lost.  The test for a leading "./" is made
    at every dot before a slash or the end, so that a file or directory whose
    name ends with a dot cannot be named: the path stands for the name without
    the dot.  In the same way "..." becomes "..", the parent, which the test at
    the end of the function, made on [s], which is at its end, does not notice. *)
Theorem fn_PathUnify_drops_dot n : plain n ->
  fn_PathUnify true (n ++ [dot]) = Some (inr (n, false)) /\
  fn_PathUnify true [dot; dot; dot] = Some (inr ([dot; dot], false)).
Proof.
  intros Hp. split; [|done]. pose proof Hp as ((Hs & H0 & Hl) & Hne & H1 & H2). unfold fn_PathUnify.
  rewrite bool_decide_eq_false_2 by (destruct n; [done|]; simpl; set_solver).
  assert (Hdd : is_dotdot (n ++ [dot]) = false).
  { unfold is_dotdot. destruct n as [|b1 [|b2 [|b3 n]]]; [done|..]; simpl.
    - rewrite bool_decide_eq_false_2; [done|]. intros ->. done.
    - destruct (decide (b1 = dot)) as [->|]; [|by rewrite bool_decide_eq_false_2].
      destruct (decide (b2 = dot)) as [->|]; [done|]. by rewrite (bool_decide_eq_false_2 (b2 = dot)), andb_false_r.
    - rewrite (ends_false b3) by set_solver. by rewrite andb_false_r. }
  rewrite Hdd. simpl orb. simpl negb. cbv iota. rewrite length_app.
  replace (S (length n + length [dot])) with (length n + 2)%nat by (simpl; lia).
  assert (Hloop : unify_loop (length n + 2) (n ++ [dot]) [] false false = Some (Some ([], rev n, false))).
  { change [] with (out_of []) at 2. by rewrite name_loop; [|done|constructor|left]. }
  rewrite Hloop. simpl. rewrite rev_involutive.
  rewrite bool_decide_eq_false_2 by (destruct n; [done|]; simpl; set_solver). done.
Qed.

(** ** Scanning *)

Lemma scan_end_ok n b rest : slash ∉ n -> x00 ∉ n -> ends b = true -> scan_end (n ++ b :: rest) = zlen n.
Proof.
  intros Hs H0 Hb. induction n as [|c n IH]; simpl; [by rewrite Hb|].
  apply not_elem_of_cons in Hs as [Hc Hs], H0 as [Hc0 H0].
  rewrite ends_false, IH by done. unfold zlen. simpl. lia.
Qed.

Lemma cstr_ok n rest : x00 ∉ n -> cstr (n ++ x00 :: rest) = n.
Proof.
  intros H0. induction n as [|c n IH]; simpl; [done|]. apply not_elem_of_cons in H0 as [Hc H0].
  by rewrite bool_decide_eq_false_2, IH by done.
Qed.

(** One call gives the component at [Pos], terminates it and goes on behind it. *)
Lemma fn_ScanPath_ok pre n b rest : plain n -> ends b = true -> exists pre', zlen pre' = zlen pre /\
  fn_ScanPath (pre ++ n ++ b :: rest) (zlen pre) =
    Some (zlen pre, pre' ++ n ++ x00 :: rest,
          if bool_decide (b = x00) then zlen pre else zlen pre + zlen n + 1, bool_decide (b = x00)).
Proof.
  intros ((Hs & H0 & _) & Hne & _) Hb.
  set (pre' := if zlen pre =? 0 then pre else <[Z.to_nat (zlen pre - 1) := slash]> pre).
  assert (Hl : length pre' = length pre) by (unfold pre'; case_match; [done|by rewrite length_insert]).
  exists pre'. split; [unfold zlen; by rewrite Hl|]. unfold fn_ScanPath.
  replace (if zlen pre =? 0 then _ else _) with (pre' ++ n ++ b :: rest).
  2:{ unfold pre'. destruct (zlen pre =? 0) eqn:E; [done|]. zbool. rewrite insert_app_l; [done|]. unfold zlen in *. lia. }
  replace (drop (Z.to_nat (zlen pre)) (pre' ++ n ++ b :: rest)) with (n ++ b :: rest).
  2:{ rewrite drop_app_length'; [done|]. unfold zlen. lia. }
  rewrite scan_end_ok by done.
  assert (He : (pre' ++ n ++ b :: rest) !! Z.to_nat (zlen pre + zlen n) = Some b).
  { rewrite app_assoc, lookup_app_r; rewrite length_app; unfold zlen; [|lia].
    by replace (_ - _)%nat with O by lia. }
  rewrite He. cbn [mbind option_bind]. case_bool_decide as Hbz; [by subst|].
  assert (zlen n <> 0) by (destruct n; [done|]; unfold zlen; simpl; lia).
  rewrite (proj2 (Z.eqb_neq _ _)) by lia. do 2 f_equal. do 2 f_equal.
  rewrite app_assoc, insert_app_r_alt; rewrite length_app; unfold zlen; [|lia].
  replace (_ - _)%nat with O by lia. by rewrite <-app_assoc.
Qed.

(** One call at the start of a name; behind it, if it is not the last one, the
    next call starts at the next name. *)
Lemma scan_step pre n ns : plain n -> Forall plain ns -> exists buf Pos,
  fn_ScanPath (pre ++ join_path (n :: ns) ++ [x00]) (zlen pre) =
    Some (zlen pre, buf, Pos, bool_decide (ns = [])) /\
  cstr (drop (Z.to_nat (zlen pre)) buf) = n /\
  (ns <> [] -> exists pre', buf = pre' ++ join_path ns ++ [x00] /\ Pos = zlen pre').
Proof.
  intros Hn Hp.
  assert (H : exists b rest, join_path (n :: ns) ++ [x00] = n ++ b :: rest /\ ends b = true /\
     (ns = [] /\ b = x00 \/ ns <> [] /\ b = slash /\ rest = join_path ns ++ [x00])).
  { destruct ns as [|n2 ns]; [exists x00, []; split; [done|]; split; [done|by left]|].
    exists slash, (join_path (n2 :: ns) ++ [x00]). split; [by cbn [join_path]; rewrite <-app_assoc|].
    split; [done|by right]. }
  destruct H as (b & rest & -> & Hb & Hcase).
  destruct (fn_ScanPath_ok pre n b rest Hn Hb) as (pre' & Hl & ->). eexists _, _. split.
  { do 2 f_equal. apply bool_decide_ext. destruct Hcase as [[-> ->]|(Hns & -> & _)]; [done|]. by split. }
  assert (H0 : x00 ∉ n) by apply Hn. split.
  { replace (drop (Z.to_nat (zlen pre)) (pre' ++ n ++ x00 :: rest)) with (n ++ x00 :: rest)
      by (rewrite drop_app_length'; [done|]; unfold zlen in *; lia).
    by rewrite cstr_ok. }
  intros Hns. destruct Hcase as [[-> ->]|(_ & -> & ->)]; [done|]. rewrite bool_decide_eq_false_2 by done.
  exists (pre' ++ n ++ [x00]). split; [by rewrite <-!app_assoc|]. unfold zlen in *. rewrite !length_app. simpl. lia.
Qed.

(** The components of calls until the last one. *)
Fixpoint scan_all (fuel : nat) (APath : list byte) (Pos : Z) : option (list (list byte)) :=
  match fuel with
  | O => None
  | S fuel =>
      '(p, APath, Pos, LastElement) ← fn_ScanPath APath Pos;
      let n := cstr (drop (Z.to_nat p) APath) in
      if (LastElement : bool) then Some [n] else (ns ← scan_all fuel APath Pos; Some (n :: ns))
  end.

Lemma scan_all_ok ns : forall pre, ns <> [] -> Forall plain ns ->
  scan_all (length ns) (pre ++ join_path ns ++ [x00]) (zlen pre) = Some ns.
Proof.
  induction ns as [|n ns IH]; intros pre Hne Hp; [done|]. apply Forall_cons in Hp as [Hn Hp].
  destruct (scan_step pre n ns Hn Hp) as (buf & Pos & Hs & Hc & Hnext). cbn [length scan_all].
  rewrite Hs. cbn [mbind option_bind]. rewrite Hc. case_bool_decide as Hns; [by subst|].
  destruct (Hnext Hns) as (pre' & -> & ->). by rewrite IH.
Qed.

(** fn_ScanPath takes a path apart.  Called again and again from position 0
    on the path with its terminator, it gives the names of the path in order,
    each terminated in place, and reports the last one as the last. *)
Theorem fn_ScanPath_components ns : ns <> [] -> Forall plain ns ->
  scan_all (length ns) (join_path ns ++ [x00]) 0 = Some ns.
Proof. apply (scan_all_ok ns []). Qed.

(** ** Paths that need no change *)

Lemma split_join ns : ns <> [] -> Forall plain ns -> split_path (join_path ns) = ns.
Proof.
  assert (Hn : forall n, slash ∉ n -> split_path n = [n]).
  { induction n as [|c n IH]; [done|]. intros [Hc Hs]%not_elem_of_cons. simpl.
    by rewrite bool_decide_eq_false_2, IH by done. }
  assert (Hs : forall n r, slash ∉ n -> split_path (n ++ slash :: r) = n :: split_path r).
  { induction n as [|c n IH]; [done|].
    intros r [Hc Hns]%not_elem_of_cons. simpl. by rewrite bool_decide_eq_false_2, IH by done. }
  induction ns as [|n ns IH]; [done|]. intros _ [((Hsl & _) & _) Hp]%Forall_cons.
  destruct ns as [|n2 ns]; [by apply Hn|]. cbn [join_path] in *. by rewrite Hs, IH.
Qed.

Lemma resolve_plain ns st : Forall plain ns -> resolve st ns = Some (rev ns ++ st).
Proof.
  revert st. induction ns as [|n ns IH]; [done|]. intros st [(_ & Hne & H1 & H2) Hp]%Forall_cons. cbn [resolve].
  rewrite !(bool_decide_eq_false_2 (n = _)) by done. simpl. rewrite IH by done. by rewrite <-app_assoc.
Qed.

Lemma fn_PathUnify_plain ns : Forall plain ns ->
  exists Stripped, fn_PathUnify true (join_path ns) = Some (inr (join_path ns, Stripped)).
Proof.
  intros Hp. destruct ns as [|n ns]; [by exists false|].
  assert (Hsp : split_path (join_path (n :: ns)) = n :: ns) by (by apply split_join).
  assert (Hok : Forall name_ok (split_path (join_path (n :: ns)))).
  { rewrite Hsp. eapply Forall_impl; [done|]. by intros x []. }
  pose proof (fn_PathUnify_ok _ Hok) as Hu. unfold unify_spec in Hu. rewrite Hsp in Hu.
  pose proof Hp as [(_ & Hne & H1 & H2) _]%Forall_cons.
  rewrite !(bool_decide_eq_false_2 (n = _)) in Hu by done. simpl negb in Hu. cbn [andb orb] in Hu.
  rewrite resolve_plain, app_nil_r, rev_involutive in Hu by done.
  destruct Hu as (st & Str & Hu & _). by exists Str.
Qed.

(** Names that have no volume, and what dos.library does with paths of them. *)
Definition amiga (n : list byte) : Prop := plain n /\ colon ∉ n.

Class DosNamesLaws `{DosNames} := {
  AddPart_law ms ns l : Forall amiga ms -> Forall amiga ns ->
    zlen (join_path ms) + zlen (join_path ns) + 2 <= l ->
    AddPart (join_path ms) (join_path ns) l = Some (join_path (ms ++ ns));
  FilePart_law ns n : Forall amiga (ns ++ [n]) ->
    FilePart (join_path (ns ++ [n])) = zlen (join_path (ns ++ [n])) - zlen n;
  PathPart_law ns n : Forall amiga (ns ++ [n]) -> PathPart (join_path (ns ++ [n])) = zlen (join_path ns)
}.

Lemma amiga_plain ns : Forall amiga ns -> Forall plain ns.
Proof. intros Ha. eapply Forall_impl; [done|]. by intros n []. Qed.

Lemma join_colon ns : Forall amiga ns -> colon ∉ join_path ns.
Proof.
  induction ns as [|n ns IH]; [by intros _ ?%elem_of_nil|]. intros [[_ Hc] Hp]%Forall_cons.
  destruct ns as [|n2 ns]; [done|]. cbn [join_path] in *. rewrite elem_of_app, elem_of_cons.
  intros [?|[?|?]]; [done|done|by apply IH].
Qed.

Lemma join_nul ns : Forall amiga ns -> x00 ∉ join_path ns.
Proof.
  induction ns as [|n ns IH]; [by intros _ ?%elem_of_nil|]. intros [[((_ & Hz & _) & _) _] Hp]%Forall_cons.
  destruct ns as [|n2 ns]; [done|]. cbn [join_path] in *. rewrite elem_of_app, elem_of_cons.
  intros [?|[?|?]]; [done|done|by apply IH].
Qed.

Lemma after_colon_None s : colon ∉ s -> after_colon s = None.
Proof.
  induction s as [|c s IH]; [done|]. intros [Hc Hs]%not_elem_of_cons. simpl. by rewrite bool_decide_eq_false_2, IH by done.
Qed.

Lemma cstr_id s : x00 ∉ s -> cstr s = s.
Proof.
  induction s as [|c s IH]; [done|]. intros [Hc Hs]%not_elem_of_cons. simpl. by rewrite bool_decide_eq_false_2, IH by done.
Qed.

Lemma join_last ns n : join_path (ns ++ [n]) = match ns with [] => n | _ => join_path ns ++ slash :: n end.
Proof.
  induction ns as [|m ns IH]; [done|]. destruct ns as [|m2 ns]; [done|]. change ((m :: m2 :: ns) ++ [n]) with (m :: (m2 :: ns) ++ [n]).
  cbn [join_path]. change ((m2 :: ns) ++ [n]) with (m2 :: ns ++ [n]) in *. rewrite IH. by rewrite <-app_assoc.
Qed.

(** The search backwards ends at the last separator up to [e], or at the start. *)
Lemma fn_RSep_last s e : (e < length s)%nat ->
  exists k, fn_RSep s e = Some k /\ (k <= e)%nat /\
    (k = 0%nat \/ s !! k = Some slash \/ s !! k = Some colon) /\
    forall i, (k < i <= e)%nat -> s !! i <> Some slash /\ s !! i <> Some colon.
Proof.
  induction e as [|e IH]; intros He; [exists 0%nat; split_and!; (done || lia || (by left) || intros; lia)|].
  cbn [fn_RSep]. destruct (lookup_lt_is_Some_2 s (S e) He) as [c Hc]. rewrite Hc. cbn [mbind option_bind].
  destruct (_ || _) eqn:E.
  - exists (S e). split_and!; [done|lia| |intros; lia]. right. rewrite Hc.
    apply orb_true_iff in E as [E|E]; apply bool_decide_eq_true in E; subst c; [by left|by right].
  - apply orb_false_iff in E as [E1 E2]. apply bool_decide_eq_false in E1, E2.
    destruct IH as (k & Ek & Hk & Hsep & Hno); [lia|]. exists k. split_and!; [done|lia|done|].
    intros i Hi. destruct (decide (i = S e)) as [->|]; [rewrite Hc; split; congruence|apply Hno; lia].
Qed.

Lemma find_byte_after s :
  match find_byte s colon with
  | Some i => 0 <= i < zlen s /\ after_colon s = Some (drop (Z.to_nat (i + 1)) s)
  | None => after_colon s = None
  end.
Proof.
  induction s as [|c s IH]; [done|]. simpl. case_bool_decide; [split; [zlia|done]|].
  destruct (find_byte s colon) as [i|]; simpl; [|done]. destruct IH as [Hi ->]. split; [zlia|].
  by replace (Z.to_nat (Z.succ i + 1)) with (S (Z.to_nat (i + 1))) by lia.
Qed.

(** One slash at the end of a path is taken off, unless it follows another or is all. *)
Definition without_slash (s : list byte) : list byte :=
  match reverse s with
  | c :: d :: r => if bool_decide (c = slash) && negb (bool_decide (d = slash)) then reverse (d :: r) else s
  | _ => s
  end.

Lemma without_slash_cut (s : list byte) :
  take (Z.to_nat (if (zlen s >? 1) && bool_decide (s !! Z.to_nat (zlen s - 1) = Some slash)
       && negb (bool_decide (s !! Z.to_nat (zlen s - 2) = Some slash)) then zlen s - 1 else zlen s)) s =
  without_slash s.
Proof.
  assert (Hall : take (Z.to_nat (zlen s)) s = s) by (apply take_ge; unfold zlen; lia).
  unfold without_slash. destruct (reverse s) as [|c [|d r]] eqn:E.
  - apply (f_equal reverse) in E. rewrite reverse_involutive in E. by subst s.
  - apply (f_equal reverse) in E. rewrite reverse_involutive in E. by subst s.
  - apply (f_equal reverse) in E. rewrite reverse_involutive, !reverse_cons in E. rewrite <-app_assoc in E. simpl in E.
    set (p := reverse r) in *. assert (Hz : zlen s = zlen p + 2) by (rewrite E; zlia).
    pose proof (zlen_nonneg p).
    assert (H1' : s !! Z.to_nat (zlen s - 1) = Some c).
    { rewrite Hz, E. replace (Z.to_nat (zlen p + 2 - 1)) with (length p + 1)%nat by (unfold zlen; lia).
      by rewrite lookup_app_r, Nat.add_comm, Nat.add_sub by lia. }
    assert (H2' : s !! Z.to_nat (zlen s - 2) = Some d).
    { rewrite Hz, E. replace (Z.to_nat (zlen p + 2 - 2)) with (length p) by (unfold zlen; lia).
      by rewrite list_lookup_middle. }
    rewrite H1', H2'. rewrite (bool_decide_ext (Some c = Some slash) (c = slash)) by (split; congruence).
    rewrite (bool_decide_ext (Some d = Some slash) (d = slash)) by (split; congruence).
    rewrite (proj2 (Z.gtb_lt _ _)) by lia. simpl. destruct (_ && _); [|done].
    rewrite Hz, E, reverse_cons. fold p.
    replace (Z.to_nat (zlen p + 2 - 1)) with (length (p ++ [d])) by (rewrite length_app; simpl; unfold zlen; lia).
    change (p ++ [d; c]) with (p ++ [d] ++ [c]). by rewrite (app_assoc p [d] [c]), take_app_length.
Qed.

(** Of the BSTR of a string [fn_BPathWithoutDev] gives what [fn_PathWithoutDev] gives of
    the string, without a slash at the end. *)
Lemma fn_BPathWithoutDev_ok s bs :
  zlen s < 2 ^ 8 -> NewBSTR true s = Some bs ->
  exists p abs, fn_PathWithoutDev true s = (inr p, abs) /\
    fn_BPathWithoutDev true bs = Some (inr (without_slash p), abs).
Proof.
  intros Hl [= <-]. pose proof (zlen_nonneg s). unfold fn_BPathWithoutDev, bstrchr, fn_PathWithoutDev. simpl.
  rewrite Z_of_byte_of_Z, u8_id by lia. rewrite (proj2 (Z.ltb_ge _ _)) by zlia.
  replace (Z.to_nat (zlen s)) with (length s) by (unfold zlen; lia). rewrite take_app_length. simpl.
  pose proof (find_byte_after s) as Hf. destruct (find_byte s colon) as [i|]; simpl.
  - destruct Hf as [Hi ->]. eexists _, true. split; [done|]. do 2 f_equal. rewrite <-without_slash_cut.
    assert (Hz : zlen (drop (Z.to_nat (i + 1)) s) = zlen s - i - 1) by (unfold zlen in *; rewrite length_drop; lia).
    assert (Hsub : sub_list (s ++ [x00]) (i + 1) (zlen s - i - 1) = drop (Z.to_nat (i + 1)) s).
    { unfold sub_list. rewrite drop_app_le by (unfold zlen in *; lia).
      apply take_app_length'. unfold zlen in *. rewrite length_drop. lia. }
    by rewrite Hsub, Hz.
  - rewrite Hf. eexists _, false. split; [done|]. do 2 f_equal. rewrite <-without_slash_cut.
    assert (Hsub : sub_list (s ++ [x00]) 0 (zlen s) = s).
    { unfold sub_list. simpl. apply take_app_length'. unfold zlen. lia. }
    by rewrite Hsub.
Qed.

(** A string of up to 255 characters survives: the BSTR made of it is its own copy
    and reads back as the string. *)
Lemma NewBSTR_reads_back s bs :
  zlen s < 2 ^ 8 -> cstr s = s -> NewBSTR true s = Some bs ->
  DupBSTR true (Some bs) = Some (Some bs) /\ fn_B2CStr true bs = Some (Some s, zlen s).
Proof.
  intros Hl Hs [= <-]. unfold DupBSTR, fn_B2CStr. simpl. pose proof (zlen_nonneg s).
  rewrite Z_of_byte_of_Z, u8_id by lia.
  rewrite !(proj2 (Z.ltb_ge _ _)) by zlia.
  replace (Z.to_nat (zlen s + 1)) with (S (length s)) by (unfold zlen; lia). simpl.
  replace (Z.to_nat (zlen s)) with (length s) by (unfold zlen; lia).
  by rewrite take_app_length, Hs.
Qed.

(** Of a longer one the length is lost modulo 256. *)
Lemma NewBSTR_long s bs : NewBSTR true s = Some bs -> head bs = Some (byte_of_Z (zlen s)) /\
  fn_B2CStr true bs = Some (Some (cstr (take (Z.to_nat (u8 (zlen s))) (s ++ [x00]))), u8 (zlen s)).
Proof.
  intros [= <-]. unfold fn_B2CStr. simpl. split; [done|]. rewrite Z_of_byte_of_Z.
  pose proof (zlen_nonneg s). pose proof (Z.mod_le (zlen s) (2 ^ 8) ltac:(lia) ltac:(lia)).
  rewrite (proj2 (Z.ltb_ge _ _)) by (unfold u8; zlia). done.
Qed.

Lemma StrNDup_all ok s : StrNDup ok s (zlen s) = Some (if ok then Some s else None).
Proof.
  unfold StrNDup. rewrite Z.leb_refl, andb_true_r.
  destruct (Z.leb_spec 0 (zlen s)) as [_|Hl]; [|pose proof (zlen_nonneg s); lia].
  destruct ok; [|done]. unfold zlen. by rewrite Nat2Z.id, firstn_all.
Qed.

Lemma fn_FilePart_ok `{DosNamesLaws} ok ok2 ns : Forall amiga ns ->
  fn_FilePart ok ok2 (join_path ns) (zlen (join_path ns)) =
    Some (if ok then Some (default [] (last ns), zlen (default [] (last ns))) else None).
Proof.
  intros Ha. destruct ns as [|n ns _] using rev_ind; [unfold fn_FilePart; simpl; by destruct ok|].
  rewrite last_snoc. simpl default. pose proof Ha as [_ Hn]%Forall_app. apply Forall_cons in Hn as [Hn _].
  destruct Hn as [((Hsl & Hz & _) & Hne & _) Hc].
  assert (Hpre : exists pre, join_path (ns ++ [n]) = pre ++ n).
  { rewrite join_last. destruct ns; [by exists []|]. eexists (_ ++ [slash]). by rewrite <-app_assoc. }
  pose proof (FilePart_law ns n Ha) as Hfp. destruct Hpre as [pre Hpre]. rewrite Hpre in *.
  assert (Hnl : 0 < zlen n) by (destruct n; [done|]; unfold zlen; simpl; lia).
  assert (Hz' : zlen (pre ++ n) = zlen pre + zlen n) by apply zlen_app.
  pose proof (zlen_nonneg pre). unfold fn_FilePart. destruct (Z.eqb_spec (zlen (pre ++ n)) 0); [lia|].
  destruct (lookup_lt_is_Some_2 (pre ++ n) (Z.to_nat (zlen (pre ++ n) - 1))) as [c Hlk]; [unfold zlen in *; lia|].
  rewrite Hlk. cbn [mbind option_bind]. rewrite bool_decide_eq_false_2.
  2:{ intros ->. apply Hc. rewrite lookup_app_r in Hlk; [|unfold zlen in *; lia]. by eapply list_elem_of_lookup_2. }
  rewrite Hfp. destruct (Z.ltb_spec (zlen (pre ++ n) - zlen n) (zlen (pre ++ n))); [|lia].
  replace (drop _ (pre ++ n)) with n.
  2:{ rewrite drop_app_length'; [done|]. unfold zlen in *. lia. }
  replace (zlen (pre ++ n) - (zlen (pre ++ n) - zlen n)) with (zlen n) by lia.
  rewrite StrNDup_all. destruct ok; [|done]. simpl. by rewrite cstr_id.
Qed.

(** ** Concrete paths *)

#[export] Instance name_ok_dec c : Decision (name_ok c).
Proof. unfold name_ok. apply _. Defined.
#[export] Instance plain_dec c : Decision (plain c).
Proof. unfold plain. apply _. Defined.

(** The path a/b//c/./d/, that is a/c/d. *)
Lemma fn_PathUnify_resolves_witness :
  let ss := [x61; slash; x62; slash; slash; x63; slash; dot; slash; x64; slash] in
  Forall name_ok (split_path ss) /\
  exists Stripped, fn_PathUnify true ss = Some (inr ([x61; slash; x63; slash; x64], Stripped)).
Proof.
  intros ss. assert (H : Forall name_ok (split_path ss)) by (apply (bool_decide_unpack _); vm_compute; done).
  split; [done|]. pose proof (fn_PathUnify_resolves ss H) as Hr.
  replace (unify_spec ss) with (inr (A := Z) [x61; slash; x63; slash; x64]) in Hr by (vm_compute; reflexivity).
  destruct Hr as (st & Stripped & Hr & _). by exists Stripped.
Defined.

Lemma fn_PathUnify_drops_dot_witness :
  plain [x61; x62] /\ fn_PathUnify true [x61; x62; dot] = Some (inr ([x61; x62], false)).
Proof.
  assert (H : plain [x61; x62]) by (apply (bool_decide_unpack _); vm_compute; done).
  split; [done|]. apply (fn_PathUnify_drops_dot [x61; x62] H).
Defined.

Lemma fn_ScanPath_components_witness :
  scan_all 2 [x61; slash; x62; x00] 0 = Some [[x61]; [x62]].
Proof.
  apply (fn_ScanPath_components [[x61]; [x62]]); [done|]. apply (bool_decide_unpack _). vm_compute. done.
Defined.
