(* ===== verification/NfsLookup.v ===== *)
(** * Looking a name up (nfs_Lookup, nfs_ILookup and nfs_LookupNC of nfs.c)

    AmigaDOS names have no case: when the server does not know a name the
    directory is searched for one that differs in case only. *)
From Stdlib Require Import Ascii.
From S2P Require Import Prelude NfsProt NfsSupp Nfs.

(** tolower in the C locale, and comparing for equality with stricmp and
    strnicmp. *)
Definition tolower (c : byte) : byte :=
  let z := Z_of_byte c in if (65 <=? z) && (z <=? 90) then byte_of_Z (z + 32) else c.
Definition stricmp (a b : list byte) : bool := bool_decide ((tolower <$> a) = (tolower <$> b)).
Definition strnicmp (a b : list byte) (n : nat) : bool := stricmp (take n a) (take n b).

(** Names are cut at 106 bytes on the way to AmigaDOS. *)
Definition same_name_nc (ent name : list byte) : bool :=
  if zlen name >=? 106 then strnicmp ent name 106 else stricmp ent name.

Section Lookup.
Context {S : Type} `{NfsRpc S}.

(** [DoCaseInsensitive] is the function to call then, if any. *)
Definition nfs_ILookup (dirfh : nfs_fh) (name : filename)
  (DoCaseInsensitive : option (S -> option (rpc diropokres * S))) (s : S)
  : option (rpc diropokres * S) :=
  let '(res, s) := nfsproc_lookup_2 (DirOpArgs dirfh name) s in
  match res, DoCaseInsensitive with
  | inr (NfsErr st), Some f => if st =? NFSERR_NOENT then f s else Some (finish "r" res, s)
  | _, _ => Some (finish "r" res, s)
  end.

(** One list of entries: the name that matches, or the cookie of the last one. *)
Fixpoint nc_scan (entries : list entry) (name : filename) (mynfscookie : nfscookie) : filename + nfscookie :=
  match entries with
  | [] => inr mynfscookie
  | ent :: nextentry =>
      if same_name_nc (e_name ent) name then inl (e_name ent)
      else nc_scan nextentry name (match nextentry with [] => e_cookie ent | _ => mynfscookie end)
  end.

(** strcpy into [Name], of 255 bytes, needs room for the terminator.  A list
    without entries that is not the last one leaves [*Res2] unset. *)
Fixpoint lookup_nc (fuel : nat) (dirfh : nfs_fh) (name : filename) (MaxRead : Z)
  (mynfscookie : nfscookie) (s : S) : option (rpc diropokres * S) :=
  match fuel with
  | O => None
  | Datatypes.S fuel =>
      let '(res, s) := nfs_ReadDir dirfh mynfscookie MaxRead s in
      match res with
      | inl Res2 => Some (inl Res2, s)
      | inr (DirList [] Eof) => Some (inl (if (Eof : bool) then ERROR_OBJECT_NOT_FOUND else s32 junk_u_int), s)
      | inr (DirList entries Eof) =>
          match nc_scan entries name mynfscookie with
          | inl Name => if zlen Name + 1 <=? 255 then nfs_ILookup dirfh Name None s else None
          | inr mynfscookie =>
              if (Eof : bool) then Some (inl ERROR_OBJECT_NOT_FOUND, s)
              else lookup_nc fuel dirfh name MaxRead mynfscookie s
          end
      end
  end.

Definition nfs_LookupNC (fuel : nat) (dirfh : nfs_fh) (name : filename) (MaxRead : Z) (s : S)
  : option (rpc diropokres * S) :=
  lookup_nc fuel dirfh name (Z.min MaxRead NFS_MAXDATA) (replicate (Z.to_nat NFS_COOKIESIZE) x00) s.

(** [fuel] bounds the number of calls of nfs_ReadDir. *)
Definition nfs_Lookup (fuel : nat) (dirfh : nfs_fh) (name : filename) (MaxReadDirSize : Z) (s : S)
  : option (rpc diropokres * S) :=
  nfs_ILookup dirfh name (Some (nfs_LookupNC fuel dirfh name MaxReadDirSize)) s.
End Lookup.
