(* ===== verification/Dirs.v ===== *)
(** * Handles of directories being listed (dirs.c)

    A handle keeps the entries that the server sent and that have not been
    given out yet, the cookie to go on with, and what the FileInfoBlock of the
    last entry looked like, by which the next call is recognised. *)
From S2P Require Import Prelude MBuf NfsProt NfsSupp.

Definition EDH_MAX_FILENAME_SIZE : Z := 108.

(** EDH; [edh_Name] is an array of EDH_MAX_FILENAME_SIZE bytes. *)
Record EDH := MkEDH {
  edh_Key : Z;
  edh_Cookie : Z;
  edh_NFSDirFh : nfs_fh;
  edh_NFSCookie : nfscookie;
  edh_Eof : bool;
  edh_NFSEntries : list entry;
  edh_Name : list byte
}.

Definition set_edh_Read (c : nfscookie) (Eof : bool) (l : list entry) (e : EDH) : EDH :=
  MkEDH (edh_Key e) (edh_Cookie e) (edh_NFSDirFh e) c Eof l (edh_Name e).
Definition set_edh_Last (Cookie : Z) (c : nfscookie) (Name : list byte) (e : EDH) : EDH :=
  MkEDH (edh_Key e) Cookie (edh_NFSDirFh e) c (edh_Eof e) (edh_NFSEntries e) Name.

(** memcpy of [l] bytes to the start of an array, and the terminator behind
    them; for no bytes the second byte is cleared too. *)
Definition put_name (a Name : list byte) (l : Z) : option (list byte) :=
  if (0 <=? l) && (l <=? zlen Name) && (l <? zlen a)
  then Some (<[Z.to_nat l := x00]>
        (if l =? 0 then <[1%nat := x00]> a else take (Z.to_nat l) Name ++ drop (Z.to_nat l) a))
  else None.

(** [Name]: an array with a BSTR, or NULL. *)
Definition dir_Create (Key cookie : Z) (nfsfh : nfs_fh) (nfsc : nfscookie) (Name : option (list byte))
  (MaxFileNameLen : Z) : option EDH :=
  let clear := replicate (Z.to_nat EDH_MAX_FILENAME_SIZE) x00 in
  (edh_Name ← (match Name with
               | Some Name =>
                   n ← head Name;
                   put_name clear Name (Z.min (Z.min (Z_of_byte n + 2) (EDH_MAX_FILENAME_SIZE - 1)) MaxFileNameLen)
               | None => Some clear
               end);
   Some (MkEDH Key cookie nfsfh nfsc false [] edh_Name)).

(** The first bytes of two arrays, which have to have them. *)
Definition memcmp (a b : list byte) (n : Z) : option bool :=
  if (n <=? zlen a) && (n <=? zlen b) then Some (bool_decide (take (Z.to_nat n) a = take (Z.to_nat n) b)) else None.

Fixpoint dir_LookupFromKeyAndCookieAndCBSTR (l : list (addr * EDH)) (Key Cookie : Z) (Name : list byte)
  : option (option (addr * EDH)) :=
  match l with
  | [] => Some None
  | (a, edh) :: l =>
      if (edh_Cookie edh =? Cookie) && (edh_Key edh =? Key)
      then (n ← head (edh_Name edh);
            (same ← memcmp (edh_Name edh) Name (Z_of_byte n + 2);
             if (same : bool) then Some (Some (a, edh))
             else dir_LookupFromKeyAndCookieAndCBSTR l Key Cookie Name))
      else dir_LookupFromKeyAndCookieAndCBSTR l Key Cookie Name
  end.

Fixpoint dir_LookupFromAddress (l : list (addr * EDH)) (a : addr) : option EDH :=
  match l with
  | [] => None
  | (b, edh) :: l => if bool_decide (b = a) then Some edh else dir_LookupFromAddress l a
  end.
Fixpoint dir_Remove (l : list (addr * EDH)) (a : addr) : list (addr * EDH) :=
  match l with
  | [] => []
  | (b, edh) :: l => if bool_decide (b = a) then l else (b, edh) :: dir_Remove l a
  end.
(** A store to a handle of the list. *)
Fixpoint dir_store (l : list (addr * EDH)) (a : addr) (e : EDH) : list (addr * EDH) :=
  match l with
  | [] => []
  | (b, edh) :: l => if bool_decide (b = a) then (b, e) :: l else (b, edh) :: dir_store l a e
  end.

(** Every handle is taken off and given back. *)
Fixpoint dir_DeleteAll (l : list (addr * EDH)) : list (addr * EDH) :=
  match l with
  | [] => []
  | (_, _) :: l => dir_DeleteAll l
  end.

(** dir_RemHeadEntry and dir_GetHeadEntry. *)
Definition dir_RemHeadEntry (e : EDH) : option entry * EDH :=
  match edh_NFSEntries e with
  | [] => (None, e)
  | ent :: l => (Some ent, set_edh_Read (edh_NFSCookie e) (edh_Eof e) l e)
  end.
Definition dir_GetHeadEntry (e : EDH) : option entry := head (edh_NFSEntries e).
