(* ===== verification/HState.v ===== *)
(** * The state of the packets that work on names

    Packets that take a path go through the two caches, the list of locks and
    the server.  [HState] is the part of Global_T they change; their code is
    written in the monad [M]: a result or the code that goes to [*Res2], and a
    new state.  [None] is undefined behaviour.  The clock and the memory are
    those of the environment [Env], which answers every question anew: [hs_tick]
    counts the questions. *)
From S2P Require Import Prelude NfsProt NfsSupp Nfs NfsLookup Global FtHash DCache FileHandle Dirs.

(** AmigaDOS: dos.h *)
Definition SHARED_LOCK : Z := -2.
Definition EXCLUSIVE_LOCK : Z := -1.

(** ELOCK; [fl_Task] and [fl_Volume] are the same in all of them. *)
Record ELOCK := MkELOCK {
  fl_Key : Z;
  fl_Access : Z;
  efl_NFSFh : nfs_fh;
  efl_NFSType : Z;
  efl_FullName : list byte;
  efl_FullNameLen : Z;
  efl_Name : list byte;
  efl_NameLen : Z
}.

(** Members of Global_T that the packets on names only read; [dl_Name] is the
    BSTR of the volume node without its length. *)
Record Config := MkConfig {
  g_MntFh : nfs_fh;
  g_MntAttr : fattr;
  g_VolumeName : list byte;
  dl_Name : list byte;
  g_MaxFileNameLen : Z;
  g_BufSizePerFile : Z;
  g_UID : Z;
  g_GID : Z;
  g_UMask : Z
}.

(** [env_fuel] bounds the calls of nfs_ReadDir in one search of a directory. *)
Record Env := MkEnv {
  env_now : nat -> Z;
  env_mem : nat -> option addr;
  env_fuel : nat
}.

(** [hs_Locks] is the chain of dl_LockList, [hs_ELock] the [efh_ELock] of the
    open files, by id, [hs_DH] that of g_DH. *)
Record HState (S : Type) := MkHState {
  hs_h : Handler S;
  hs_Attr : AttrCache;
  hs_Dir : DirCache;
  hs_Locks : list (addr * ELOCK);
  hs_ELock : list (Z * addr);
  hs_DH : list (addr * EDH);
  hs_tick : nat
}.
Arguments MkHState {S}.
Arguments hs_h {S}.
Arguments hs_Attr {S}.
Arguments hs_Dir {S}.
Arguments hs_Locks {S}.
Arguments hs_ELock {S}.
Arguments hs_DH {S}.
Arguments hs_tick {S}.

Section Monad.
Context {S : Type}.
Implicit Types (st : HState S).

Definition M (A : Type) : Type := HState S -> option ((Z + A) * HState S).

#[export] Instance M_ret : MRet M := fun A x st => Some (inr x, st).
#[export] Instance M_bind : MBind M := fun A B f m st =>
  match m st with
  | None => None
  | Some (inl e, st) => Some (inl e, st)
  | Some (inr x, st) => f x st
  end.

(** [*Res2 = e; return NULL] *)
Definition fail {A} (e : Z) : M A := fun st => Some (inl e, st).
Definition undef {A} : M A := fun st => None.
Definition of_option {A} (o : option A) : M A := fun st => (x ← o; Some (inr x, st)).
Definition gets {A} (f : HState S -> A) : M A := fun st => Some (inr (f st), st).
Definition modify (f : HState S -> HState S) : M unit := fun st => Some (inr tt, f st).
(** The code a call left, in place of its failure. *)
Definition catch {A} (m : M A) : M (Z + A) := fun st =>
  ('(r, st) ← m st; Some (inr r, st)).

Definition set_h (h : Handler S) st : HState S :=
  MkHState h (hs_Attr st) (hs_Dir st) (hs_Locks st) (hs_ELock st) (hs_DH st) (hs_tick st).
Definition set_Attr (c : AttrCache) st : HState S :=
  MkHState (hs_h st) c (hs_Dir st) (hs_Locks st) (hs_ELock st) (hs_DH st) (hs_tick st).
Definition set_Dir (c : DirCache) st : HState S :=
  MkHState (hs_h st) (hs_Attr st) c (hs_Locks st) (hs_ELock st) (hs_DH st) (hs_tick st).
Definition set_Locks (l : list (addr * ELOCK)) st : HState S :=
  MkHState (hs_h st) (hs_Attr st) (hs_Dir st) l (hs_ELock st) (hs_DH st) (hs_tick st).
Definition set_ELock (l : list (Z * addr)) st : HState S :=
  MkHState (hs_h st) (hs_Attr st) (hs_Dir st) (hs_Locks st) l (hs_DH st) (hs_tick st).
Definition set_DH (l : list (addr * EDH)) st : HState S :=
  MkHState (hs_h st) (hs_Attr st) (hs_Dir st) (hs_Locks st) (hs_ELock st) l (hs_tick st).
Definition tick st : HState S :=
  MkHState (hs_h st) (hs_Attr st) (hs_Dir st) (hs_Locks st) (hs_ELock st) (hs_DH st) (Datatypes.S (hs_tick st)).
Definition hs_Clnt st : S := g_NFSClnt (h_g (hs_h st)).
Definition set_Clnt (s : S) st : HState S := set_h (set_g (set_NFSClnt s (h_g (hs_h st))) (hs_h st)) st.

(** A call of the server. *)
Definition rpc_call {A} (f : S -> rpc A * S) : M A := fun st =>
  let '(r, s) := f (hs_Clnt st) in Some (r, set_Clnt s st).
Definition rpc_call' {A} (f : S -> option (rpc A * S)) : M A := fun st =>
  ('(r, s) ← f (hs_Clnt st); Some (r, set_Clnt s st)).

Section Env.
Context (E : Env).

Definition now : M Z := fun st => Some (inr (env_now E (hs_tick st)), tick st).

(** Memory in use.  An offer of it by the environment counts as none. *)
Definition in_use st (a : addr) : bool :=
  bool_decide (is_Some (ca_heap (hs_Attr st) !! a)) || bool_decide (is_Some (ca_heap (hs_Dir st) !! a))
  || bool_decide (a ∈ (hs_Locks st).*1) || bool_decide (a ∈ (hs_DH st).*1)
  || existsb (fun d => bool_decide (a ∈ (dce_Entries (snd d)).*1)) (map_to_list (ca_heap (hs_Dir st))).
Definition AllocVec : M (option addr) := fun st =>
  let a := env_mem E (hs_tick st) in
  Some (inr (if bool_decide (is_Some a) && negb (default false (in_use st <$> a)) then a else None), tick st).
Definition mem_ok : M bool := (a ← AllocVec; mret (bool_decide (is_Some a))).

(** An operation of a cache. *)
Definition on_Attr {A} (f : AttrCache -> option (A * AttrCache)) : M A := fun st =>
  ('(x, c) ← f (hs_Attr st); Some (inr x, set_Attr c st)).
Definition on_Dir {A} (f : DirCache -> option (A * DirCache)) : M A := fun st =>
  ('(x, c) ← f (hs_Dir st); Some (inr x, set_Dir c st)).
Definition unit_op {C} (f : C -> option C) (c : C) : option (unit * C) := (c ← f c; Some (tt, c)).

(** The objects behind pointers. *)
Definition ac_get (a : addr) : M ACEntry := (c ← gets hs_Attr; of_option (ca_heap c !! a)).
Definition dc_get (a : addr) : M DCEntry := (c ← gets hs_Dir; of_option (ca_heap c !! a)).
End Env.
End Monad.
Arguments M : clear implicits.
#[export] Typeclasses Opaque M.

(** Computing one step of a program in [M]. *)
Lemma M_bind_eq {S A B} (m : M S A) (f : A -> M S B) st :
  (m ≫= f) st = match m st with
                | None => None
                | Some (inl e, st) => Some (inl e, st)
                | Some (inr x, st) => f x st
                end.
Proof. done. Qed.
