(* ===== verification/Walk.v ===== *)
(** * Paths to directories and locks (lock.c, locks.c)

    The list of locks, then the walk and the packets that lock objects.

    A path is followed name by name: [GetNameEntry] finds a name in a cached
    directory, [GetDirEntry] the directory behind it, both with the server's
    help where the caches do not know.  Pointers into the caches are addresses;
    a name entry is an address in the list of its directory. *)
From S2P Require Import Prelude NfsProt NfsSupp Nfs Global FileHandle FtHash DCache Fn NfsLookup HState.

(** ** Locks (locks.c)

    The handler's locks are in the chain of the volume node, in the order of
    [hs_Locks].  A lock that has been created is not in the chain yet: it is a
    pair of an address and its fields. *)

Section Locks.
Context {S : Type} (E : Env).

(** The strings are allocated behind the lock; a failure frees what there is. *)
Definition lock_Create (FullName : list byte) (FullNameLen : Z) (Name : list byte) (NameLen nfstype Mode : Z)
  : M S (option (addr * ELOCK)) :=
  elock ← AllocVec E;
  match elock with
  | None => mret None
  | Some a =>
      ok1 ← mem_ok E;
      s1 ← of_option (StrNDup ok1 FullName FullNameLen);
      ok2 ← mem_ok E;
      s2 ← of_option (StrNDup ok2 Name NameLen);
      mret (match s1, s2 with
            | Some s1, Some s2 => Some (a, MkELOCK 0 Mode [] nfstype s1 FullNameLen s2 NameLen)
            | _, _ => None
            end)
  end.

Definition lock_Dup (oel : ELOCK) : M S (option (addr * ELOCK)) :=
  elock ← AllocVec E;
  match elock with
  | None => mret None
  | Some a =>
      ok1 ← mem_ok E;
      s1 ← of_option (StrNDup ok1 (efl_FullName oel) (efl_FullNameLen oel));
      ok2 ← mem_ok E;
      s2 ← of_option (StrNDup ok2 (efl_Name oel) (efl_NameLen oel));
      mret (match s1, s2 with
            | Some s1, Some s2 =>
                Some (a, MkELOCK (fl_Key oel) (fl_Access oel) (efl_NFSFh oel) (efl_NFSType oel)
                           s1 (efl_FullNameLen oel) s2 (efl_NameLen oel))
            | _, _ => None
            end)
  end.

Fixpoint find_lock (l : list (addr * ELOCK)) (a : addr) : option ELOCK :=
  match l with
  | [] => None
  | (b, e) :: l => if bool_decide (b = a) then Some e else find_lock l a
  end.
Fixpoint find_fl_Key (l : list (addr * ELOCK)) (Key : Z) : option (addr * ELOCK) :=
  match l with
  | [] => None
  | (a, e) :: l => if Key =? fl_Key e then Some (a, e) else find_fl_Key l Key
  end.
Fixpoint num_key (l : list (addr * ELOCK)) (Key : Z) : Z :=
  match l with
  | [] => 0
  | (a, e) :: l => (if Key =? fl_Key e then 1 else 0) + num_key l Key
  end.
Fixpoint remove_lock (l : list (addr * ELOCK)) (a : addr) : list (addr * ELOCK) :=
  match l with
  | [] => []
  | (b, e) :: l => if bool_decide (b = a) then l else (b, e) :: remove_lock l a
  end.
Fixpoint store_lock (l : list (addr * ELOCK)) (a : addr) (e : ELOCK) : list (addr * ELOCK) :=
  match l with
  | [] => []
  | (b, e') :: l => if bool_decide (b = a) then (b, e) :: l else (b, e') :: store_lock l a e
  end.

Definition lock_Insert (elock : addr * ELOCK) : M S unit :=
  modify (fun st => set_Locks (elock :: hs_Locks st) st).
(** A NULL lock is never in the chain. *)
Definition lock_Lookup (l : option addr) : M S (option (addr * ELOCK)) :=
  gets (fun st => (a ← l; (e ← find_lock (hs_Locks st) a; Some (a, e)))).
Definition lock_LookupFromKey (Key : Z) : M S (option (addr * ELOCK)) :=
  gets (fun st => find_fl_Key (hs_Locks st) Key).
Definition lock_NumLocksFromKey (Key : Z) : M S Z := gets (fun st => num_key (hs_Locks st) Key).
(** The lock that was in the chain, if it was; lock_Delete then frees it. *)
Definition lock_Remove (l : addr) : M S (option ELOCK) := fun st =>
  Some (inr (find_lock (hs_Locks st) l), set_Locks (remove_lock (hs_Locks st) l) st).
(** A store to a lock of the chain. *)
Definition lock_store (a : addr) (e : ELOCK) : M S unit :=
  modify (fun st => set_Locks (store_lock (hs_Locks st) a e) st).
End Locks.

Definition MAX_LONGAMIGAFILENAMELEN : Z := 106.

(** Pointers to an nfs_fh: some other place, or the one in a cached entry. *)
Inductive fh_ptr := FhVal (fh : nfs_fh) | FhACE (a : addr).

(** A BPTR to a lock, as a result. *)
Definition MKBADDR (a : addr) : Z := Zpos a.

Section Walk.
Context {S : Type} `{NfsRpc S} `{DosNames} (E : Env) (cfg : Config).

Definition set_res (res1 res2 : Z) : M S unit := modify (fun st => set_h (SetRes (hs_h st) res1 res2) st).
Definition set_res1 (res1 : Z) : M S unit :=
  modify (fun st => set_h (SetRes (hs_h st) res1 (h_Res2 (hs_h st))) st).

Definition fh_get (p : fh_ptr) : M S nfs_fh :=
  match p with FhVal fh => mret fh | FhACE a => (ace ← ac_get a; mret (ace_NFSFh ace)) end.

(** The operations of the caches on the handler's state. *)
Definition attr_lookup (FileId : Z) : M S (option addr) :=
  t ← now E; on_Attr (fun c => attrs_LookupFromFileId t c FileId).
Definition attr_update (FH : nfs_fh) (FAttr : fattr) : M S (option addr) :=
  t ← now E; a ← AllocVec E; ok ← mem_ok E; on_Attr (fun c => attrs_Update a ok t c FH FAttr).
Definition attr_create (FH : nfs_fh) (FAttr : fattr) : M S (option addr) :=
  t ← now E; a ← AllocVec E; ok ← mem_ok E; on_Attr (fun c => attrs_CreateAndInsert a ok t c FH FAttr).
Definition attr_delete (FileId : Z) : M S unit := on_Attr (unit_op (fun c => attrs_Delete c FileId)).
Definition dir_lookup (Id : Z) : M S (option addr) :=
  t ← now E; on_Dir (fun c => dc_DCELookupFromFileId t c Id).
Definition dir_create (fileid : Z) (FH : nfs_fh) : M S (option addr) :=
  t ← now E; a ← AllocVec E; ok ← mem_ok E; on_Dir (fun c => dc_DCECreateAndInsert a ok t c fileid FH).
Definition ne_create (dcent : addr) (AName : list byte) (FType FileId : Z) : M S (option addr) :=
  a ← AllocVec E; ok ← mem_ok E; on_Dir (fun c => dc_NECreateAndInsert a ok c dcent AName FType FileId).

(** The node of a name entry. *)
Fixpoint ne_node (l : list (addr * NEntry)) (n : addr) : option NEntry :=
  match l with
  | [] => None
  | (m, e) :: l => if bool_decide (m = n) then Some e else ne_node l n
  end.
Fixpoint ne_store (l : list (addr * NEntry)) (n : addr) (FType FileId : Z) : list (addr * NEntry) :=
  match l with
  | [] => []
  | (m, e) :: l =>
      if bool_decide (m = n) then (m, MkNEntry (ne_Name e) (ne_Hash e) FType FileId) :: l
      else (m, e) :: ne_store l n FType FileId
  end.
Definition ne_get (p : addr * addr) : M S NEntry :=
  d ← dc_get p.1; of_option (ne_node (dce_Entries d) p.2).
Definition ne_set (p : addr * addr) (FType FileId : Z) : M S unit :=
  d ← dc_get p.1;
  _ ← of_option (ne_node (dce_Entries d) p.2);
  on_Dir (unit_op (fun c => ca_store c p.1
    (MkDCEntry (dce_FileId d) (dce_ParentId d) (dce_NFSFh d) (ne_store (dce_Entries d) p.2 FType FileId)))).

(** An entry for attributes just received: updated if there, else made. *)
Definition attr_renew (NFSFh : fh_ptr) (attr : fattr) : M S addr :=
  ACE ← attr_lookup (fa_fileid attr);
  ACE ← (match ACE with
         | Some _ => (fh ← fh_get NFSFh; attr_update fh attr)
         | None => mret None
         end);
  ACE ← (match ACE with
         | Some a => mret (Some a)
         | None => (fh ← fh_get NFSFh; attr_create fh attr)
         end);
  match ACE with Some a => mret a | None => fail ERROR_NO_FREE_STORE end.

Definition c_GetAttr (FileId : Z) (NFSFh : fh_ptr) : M S addr :=
  ACEnt ← (if FileId =? DCE_ID_UNUSED then mret None else attr_lookup FileId);
  match ACEnt with
  | Some a => mret a
  | None =>
      fh ← fh_get NFSFh;
      attr ← rpc_call (nfs_GetAttr fh);
      attr_renew NFSFh attr
  end.

(** Asking the server for a name, of which there may be an entry already. *)
Definition ask_name (ActDir : addr) (Name : list byte) (NEnt : option addr) : M S ((addr * addr) * addr) :=
  d ← dc_get ActDir;
  maxread ← gets (fun st => ng_MaxReadDirSize (g_NFSGlobal (h_g (hs_h st))));
  dirent ← rpc_call' (nfs_Lookup (env_fuel E) (dce_NFSFh d) Name maxread);
  a ← attr_renew (FhVal (do_file dirent)) (do_attributes dirent);
  ace ← ac_get a;
  match NEnt with
  | None =>
      n ← ne_create ActDir Name (fa_type (do_attributes dirent)) (ace_FileId ace);
      match n with Some n => mret ((ActDir, n), a) | None => fail ERROR_NO_FREE_STORE end
  | Some n =>
      _ ← ne_set (ActDir, n) (fa_type (do_attributes dirent)) (ace_FileId ace);
      mret ((ActDir, n), a)
  end.

(** The name entry and, in [*ACEP], its attributes. *)
Definition GetNameEntry (ActDir : addr) (Name : list byte) : M S ((addr * addr) * addr) :=
  NEnt ← on_Dir (fun c => dc_NELookup c ActDir Name);
  match NEnt with
  | Some (n, e) =>
      ACE ← attr_lookup (ne_FileId e);
      match ACE with Some a => mret ((ActDir, n), a) | None => ask_name ActDir Name (Some n) end
  | None => ask_name ActDir Name None
  end.

Definition GetDirEntry (ParName : option (addr * addr)) (ActDirId : Z) (ActDirFh : fh_ptr) : M S addr :=
  ActDirId ← (match ParName with Some p => (e ← ne_get p; mret (ne_FileId e)) | None => mret ActDirId end);
  ActDir ← (if ActDirId =? DCE_ID_UNUSED then mret None else dir_lookup ActDirId);
  match ActDir with
  | Some a => mret a
  | None =>
      ACEnt ← c_GetAttr ActDirId ActDirFh;
      ace ← ac_get ACEnt;
      fh ← fh_get ActDirFh;
      ActDir ← dir_create (ace_FileId ace) fh;
      match ActDir with Some a => mret a | None => fail ERROR_NO_FREE_STORE end
  end.

(** ** Names of files *)

Record FullPath := MkFullPath { fp_FullName : list byte; fp_FullNameLen : Z; fp_Name : list byte; fp_NameLen : Z }.

(** The name the path is relative to.  With "x:" in front of the path and a
    lock that is not that of the root, it is the root if "x" is our volume. *)
Definition old_name (fl : option addr) (cstr pathWithoutDev : list byte) (IsAbsolute : bool)
  (OldFullName : list byte) (OldFullNameLen : Z) : list byte * Z :=
  if (IsAbsolute && negb (bool_decide (pathWithoutDev = [])))
     && (bool_decide (is_Some fl) && negb (OldFullNameLen =? 0))
  then let n := (length cstr - length pathWithoutDev - 1)%nat in
       if strnicmp cstr (g_VolumeName cfg) n then ([], 0) else (OldFullName, OldFullNameLen)
  else (OldFullName, OldFullNameLen).

(** [u_path], of which only the existence matters; then FullName and Name with
    LocalRes2.  No lock is left in [*DirLock]. *)
Definition unify_name (OldFullName : list byte) (OldFullNameLen : Z) (pathWithoutDev : list byte)
  : M S (bool * option (list byte) * option (list byte * Z) * Z) :=
  ok ← mem_ok E;
  s ← of_option (fn_AddPart ok OldFullName OldFullNameLen pathWithoutDev (-1));
  '(u, FullName, LocalRes2) ←
    (match s with
     | None => mret (true, None, 0)
     | Some (s, _) =>
         ok ← mem_ok E;
         r ← of_option (fn_PathUnify ok s);
         match r with
         | inl e => mret (true, None, e)
         | inr (p, Stripped) =>
             if (Stripped : bool)
             then (ok ← mem_ok E; u ← of_option (fn_AM2UN ok p);
                   mret (bool_decide (is_Some u), Some p, 0))
             else mret (true, Some p, 0)
         end
     end);
  Name ← (match FullName with
          | Some p =>
              ok1 ← mem_ok E; ok2 ← mem_ok E; of_option (fn_FilePart ok1 ok2 p (zlen p))
          | None => mret None
          end);
  mret (u, FullName, Name, LocalRes2).

Definition CBuildFullName (fl : option addr) (cstr : list byte) : M S FullPath :=
  '(OldFullName, OldFullNameLen) ←
    (match fl with
     | None => mret ([], 0)
     | Some _ =>
         oldelock ← lock_Lookup fl;
         match oldelock with
         | None => fail ERROR_INVALID_LOCK
         | Some (_, e) => mret (efl_FullName e, efl_FullNameLen e)
         end
     end);
  ok ← mem_ok E;
  let '(r, IsAbsolute) := fn_PathWithoutDev ok cstr in
  match r with
  | inl e => fail e
  | inr pathWithoutDev =>
      let '(OldFullName, OldFullNameLen) :=
        old_name fl cstr pathWithoutDev IsAbsolute OldFullName OldFullNameLen in
      ok ← mem_ok E;
      u_path ← of_option (fn_AM2UN ok pathWithoutDev);
      '(u, FullName, Name, LocalRes2) ←
        (match u_path with
         | Some _ => unify_name OldFullName OldFullNameLen pathWithoutDev
         | None => mret (false, None, None, 0)
         end);
      match u, FullName, Name with
      | _, _, Some (n, NameLen) =>
          if NameLen >? MAX_LONGAMIGAFILENAMELEN then fail ERROR_INVALID_COMPONENT_NAME
          else match u, FullName with
               | true, Some p => mret (MkFullPath p (zlen p) n NameLen)
               | _, _ => fail (if LocalRes2 =? 0 then ERROR_NO_FREE_STORE else LocalRes2)
               end
      | _, _, _ => fail (if LocalRes2 =? 0 then ERROR_NO_FREE_STORE else LocalRes2)
      end
  end.

Definition BuildFullName (fl : option addr) (cbstr : list byte) : M S FullPath :=
  ok ← mem_ok E;
  '(s, _) ← of_option (fn_B2CStr ok cbstr);
  match s with
  | None => fail ERROR_NO_FREE_STORE
  | Some s => CBuildFullName fl s
  end.

(** ** Walking *)

(** The loop of RootLocateDir over the components, up to the last one. *)
Fixpoint walk_loop (fuel : nat) (WorkPath : list byte) (Pos : Z) (ParDir : addr) : M S addr :=
  match fuel with
  | O => undef
  | Datatypes.S fuel =>
      '(p, WorkPath, Pos, LastElement) ← of_option (fn_ScanPath WorkPath Pos);
      let PComp := cstr (drop (Z.to_nat p) WorkPath) in
      if (LastElement : bool) then mret ParDir
      else if bool_decide (at0 PComp = slash) then mret ParDir
      else
      '(ActNEnt, ACE) ← GetNameEntry ParDir PComp;
      e ← ne_get ActNEnt;
      if negb (ne_FType e =? NFDIR) && negb (ne_FType e =? NFLNK) then fail ERROR_INVALID_COMPONENT_NAME
      else if ne_FType e =? NFLNK then fail ERROR_IS_SOFT_LINK
      else
      ActDir ← GetDirEntry (Some ActNEnt) DCE_ID_UNUSED (FhACE ACE);
      walk_loop fuel WorkPath Pos ActDir
  end.

Definition RootLocateDir (FullName : list byte) (FullNameLen : Z) : M S addr :=
  ok ← mem_ok E;
  w ← of_option (StrNDup ok FullName FullNameLen);
  match w with
  | None => fail ERROR_NO_FREE_STORE
  | Some WorkPath =>
      ParDir ← GetDirEntry None (fa_fileid (g_MntAttr cfg)) (FhVal (g_MntFh cfg));
      if FullNameLen =? 0 then mret ParDir
      else walk_loop (length WorkPath + 1) (WorkPath ++ [x00]) 0 ParDir
  end.

Definition LRootLocateDir (fl : option addr) (RelPath : list byte) (IsCString : bool) : M S (addr * FullPath) :=
  f ← (if IsCString then CBuildFullName fl RelPath else BuildFullName fl RelPath);
  ParDir ← RootLocateDir (fp_FullName f) (fp_FullNameLen f);
  mret (ParDir, f).

(** ** Locks *)

Definition DupELock (OldLock : option ELOCK) (Name FullName : list byte) (Mode : Z) : M S (addr * ELOCK) :=
  if (match OldLock with Some o => negb (fl_Access o =? SHARED_LOCK) | None => false end)
     || negb (Mode =? SHARED_LOCK)
  then fail ERROR_OBJECT_IN_USE
  else
  NewELock ← lock_Create E FullName (zlen FullName) Name (zlen Name) NFNON Mode;
  match NewELock with
  | None => fail ERROR_NO_FREE_STORE
  | Some (a, e) =>
      let '(fh, key, type) :=
        match OldLock with
        | Some o => (efl_NFSFh o, fl_Key o, efl_NFSType o)
        | None => (g_MntFh cfg, fa_fileid (g_MntAttr cfg), fa_type (g_MntAttr cfg))
        end in
      mret (a, MkELOCK key (fl_Access e) fh type (efl_FullName e) (efl_FullNameLen e) (efl_Name e) (efl_NameLen e))
  end.

(** Handle, type and key of a lock. *)
Definition lock_set (e : ELOCK) (fh : nfs_fh) (type key : Z) : ELOCK :=
  MkELOCK key (fl_Access e) fh type (efl_FullName e) (efl_FullNameLen e) (efl_Name e) (efl_NameLen e).

(** The lock of the object with the attributes [ace], and of the root. *)
Definition new_lock (f : FullPath) (ace : ACEntry) (Mode : Z) : M S (addr * ELOCK) :=
  oldelock ← lock_LookupFromKey (fa_fileid (ace_FAttr ace));
  '(a, e) ←
    (match oldelock with
     | Some (_, o) => DupELock (Some o) (fp_Name f) (fp_FullName f) Mode
     | None =>
         if fa_type (ace_FAttr ace) =? NFLNK then fail ERROR_IS_SOFT_LINK
         else
         r ← lock_Create E (fp_FullName f) (fp_FullNameLen f) (fp_Name f) (fp_NameLen f)
               (fa_type (ace_FAttr ace)) Mode;
         match r with Some ae => mret ae | None => fail ERROR_NO_FREE_STORE end
     end);
  mret (a, lock_set e (ace_NFSFh ace) (fa_type (ace_FAttr ace)) (fa_fileid (ace_FAttr ace))).

Definition root_lock (f : FullPath) (Mode : Z) : M S (addr * ELOCK) :=
  '(a, e) ← DupELock None (fp_Name f) (fp_FullName f) Mode;
  ACEnt ← attr_lookup (fa_fileid (g_MntAttr cfg));
  attr ← (match ACEnt with
          | Some b => (ace ← ac_get b; mret (ace_FAttr ace))
          | None => rpc_call (nfs_GetAttr (g_MntFh cfg))
          end);
  mret (a, lock_set e (g_MntFh cfg) (fa_type attr) (fa_fileid attr)).

Definition RootLocateAndLock (fl : option addr) (RelPath : list byte) (Mode : Z) : M S addr :=
  if negb ((Mode =? SHARED_LOCK) || (Mode =? EXCLUSIVE_LOCK)) then fail ERROR_REQUIRED_ARG_MISSING
  else
  f ← CBuildFullName fl RelPath;
  ParDir ← RootLocateDir (fp_FullName f) (fp_FullNameLen f);
  newelock ←
    (if fp_FullNameLen f =? 0 then root_lock f Mode
     else ('(_, ACE) ← GetNameEntry ParDir (fp_Name f);
           ace ← ac_get ACE;
           new_lock f ace Mode));
  _ ← lock_Insert newelock;
  mret newelock.1.

(** ** The packets *)

Definition act_LOCATE_OBJECT (fl : option addr) (cbstr : list byte) (Mode : Z) : M S unit :=
  ok ← mem_ok E;
  '(Path, _) ← of_option (fn_B2CStr ok cbstr);
  match Path with
  | None => set_res DOSFALSE ERROR_NO_FREE_STORE
  | Some Path =>
      r ← catch (RootLocateAndLock fl Path Mode);
      match r with
      | inl Res2 => set_res DOSFALSE Res2
      | inr a => set_res (MKBADDR a) 0
      end
  end.

Definition act_FREE_LOCK (fl : option addr) : M S unit :=
  match fl with
  | None => set_res1 DOSTRUE
  | Some _ =>
      elock ← lock_Lookup fl;
      match elock with
      | None => set_res DOSFALSE ERROR_INVALID_LOCK
      | Some (a, _) => (_ ← lock_Remove a; set_res1 DOSTRUE)
      end
  end.

Definition do_act_COPY_DIR (elock : option (addr * ELOCK)) : M S unit :=
  match elock with
  | None => set_res DOSFALSE ERROR_INVALID_LOCK
  | Some (_, e) =>
      if negb (fl_Access e =? SHARED_LOCK) then set_res DOSFALSE ERROR_OBJECT_IN_USE
      else
      nel ← lock_Dup E e;
      match nel with
      | None => set_res DOSFALSE ERROR_NO_FREE_STORE
      | Some nel => (_ ← lock_Insert nel; set_res1 (MKBADDR nel.1))
      end
  end.

Definition act_COPY_DIR (fl : option addr) : M S unit :=
  match fl with
  | None => set_res 0 0
  | Some _ => (e ← lock_Lookup fl; do_act_COPY_DIR e)
  end.

Definition do_act_PARENT (oldelock : option (addr * ELOCK)) : M S unit :=
  match oldelock with
  | None => set_res DOSFALSE ERROR_INVALID_LOCK
  | Some (_, e) =>
      root ← (if efl_FullNameLen e =? 0 then mret true
              else (c ← of_option (efl_FullName e !! Z.to_nat (efl_FullNameLen e - 1));
                    mret (bool_decide (c = colon))));
      if (root : bool) then set_res 0 0
      else
      ok ← mem_ok E;
      '(DirName, _) ← of_option (fn_PathPart ok (efl_FullName e) (efl_FullNameLen e));
      match DirName with
      | None => set_res DOSFALSE ERROR_NO_FREE_STORE
      | Some DirName =>
          r ← catch (RootLocateAndLock None DirName SHARED_LOCK);
          match r with
          | inl Res2 => set_res DOSFALSE Res2
          | inr a => set_res (MKBADDR a) 0
          end
      end
  end.

Definition act_PARENT (fl : option addr) : M S unit := e ← lock_Lookup fl; do_act_PARENT e.

Definition act_SAME_LOCK (fl1 fl2 : option addr) : M S unit :=
  efl1 ← lock_Lookup fl1;
  efl2 ← lock_Lookup fl2;
  match efl1, efl2 with
  | Some (_, e1), Some (_, e2) => set_res (if fl_Key e1 =? fl_Key e2 then DOSTRUE else DOSFALSE) 0
  | _, _ => set_res DOSFALSE 0
  end.
End Walk.
