(* ===== verification/CacheSafe.v ===== *)
(** * Pointers into the caches

    A pointer that a lookup or an insertion gave stays valid while the packet
    that asked for it goes on: a lookup locks the cache, and what was inserted a
    moment ago is not old enough to die.  [safe] says that a pointer is of this
    kind, [kept] that an operation leaves such pointers valid and their objects
    the same ones.  The time a packet takes is the section's hypothesis. *)
From S2P Require Import Prelude NfsProt FtHash FtHashSpec FtHashOps DCache DCacheThm.

Section Safe.
Context {V : Type} (idf : V -> Z) (P : V -> Prop) (R : relation V) `{!PreOrder R} (t0 T : Z).
Hypothesis HT : 0 <= T <= t0.
Hypothesis Ht0 : t0 + T < 2 ^ 32.
Implicit Types (c : Cache V) (e : FTHashEntry u_int).

(** The moments of the packet. *)
Definition in_time (t : Z) : Prop := t0 <= t <= t0 + T.

Record cinv c : Prop := {
  ci_ok : cache_ok c ∅;
  ci_ttl : tht_TTL (ca_tab c) = T;
  ci_all a v : ca_heap c !! a = Some v -> P v;
  ci_key e a v : e ∈ concat (tht_Entries (ca_tab c)) -> the_Val e = Some a -> ca_heap c !! a = Some v ->
  to_u_int (idf v) = the_Key e
}.

(** The object is there, and the cache is locked or its entry young. *)
Definition safe c (a : addr) : Prop :=
  is_Some (ca_heap c !! a) /\
  (0 < tht_LockCnt (ca_tab c) \/
   exists e, e ∈ concat (tht_Entries (ca_tab c)) /\ the_Val e = Some a /\ in_time (the_Birth e)).

(** Safe pointers stay safe, and point to the same object, changed by [R]. *)
Definition kept c c' : Prop := forall a v, safe c a -> ca_heap c !! a = Some v ->
  safe c' a /\ exists v', ca_heap c' !! a = Some v' /\ R v v'.

Lemma kept_refl c : kept c c.
Proof. intros a v Ha Hv. split; [done|by exists v]. Qed.

Lemma kept_trans c1 c2 c3 : kept c1 c2 -> kept c2 c3 -> kept c1 c3.
Proof.
  intros H1 H2 a v Ha Hv. destruct (H1 a v Ha Hv) as (Ha2 & v2 & Hv2 & E2).
  destruct (H2 a v2 Ha2 Hv2) as (Ha3 & v3 & Hv3 & E3). split; [done|]. exists v3. split; [done|]. by etransitivity.
Qed.

Lemma safe_Some c a : safe c a -> exists v, ca_heap c !! a = Some v.
Proof. by intros [[v Hv] _]; exists v. Qed.

Lemma young_alive t now e : tht_TTL t = T -> in_time now -> in_time (the_Birth e) -> is_dead t now e = false.
Proof.
  intros Ht Hn Hb. unfold is_dead. rewrite Ht. unfold in_time in *. rewrite !u32_id by lia.
  rewrite Z.gtb_ltb. apply Z.ltb_ge. lia.
Qed.

(** The chains after a lookup and after an insertion. *)
Lemma lookup_entries now h t (k : u_int) r (h' : vheap V) t' : fthash_Lookup2 now h t k = Some (r, h', t') ->
  (forall e, e ∈ concat (tht_Entries t') -> e ∈ concat (tht_Entries t)) /\
  (forall e, e ∈ concat (tht_Entries t) -> is_dead t now e = false -> e ∈ concat (tht_Entries t')).
Proof.
  unfold fthash_Lookup2. cbv zeta. destruct (tht_Entries t !! _) as [thl|] eqn:Et; [|done]. cbn [mbind option_bind].
  destruct (find_key t k thl) as [[[l1 ent] l2]|] eqn:Ef; [|by intros [= <- <- <-]].
  apply find_key_Some in Ef as (-> & _ & _). destruct (concat_at _ _ _ Et) as (A1 & A2 & Hc & Hc').
  destruct (is_dead t now ent) eqn:Ed.
  - intros H. assert (tht_Entries t' = <[Z.to_nat (fthash_Hash t k) := l1 ++ l2]> (tht_Entries t)) as ->.
    { destruct (fthash_IsLocked _); [by injection H as <- <- <-|].
      destruct (fthash_FreeVal _ _) as [[? ?]|]; [|done]. simpl in H. by injection H as <- <- <-. }
    rewrite Hc, Hc'. split; intros e; rewrite !elem_of_app, ?elem_of_cons; [tauto|].
    intros He Ha. assert (e <> ent) by congruence. tauto.
  - intros [= <- <- <-]. simpl. rewrite Hc, Hc'. split; intros e; rewrite !elem_of_app, !elem_of_cons, !elem_of_app; tauto.
Qed.

Lemma insert_entries mem_ok now t (k : u_int) a ok t' : fthash_Insert mem_ok now t k a = Some (ok, t') ->
  forall e, e ∈ concat (tht_Entries t') <->
  e ∈ concat (tht_Entries t) \/ ((ok : bool) = true /\ e = FTEntry now k (Some a)).
Proof.
  unfold fthash_Insert. cbv zeta. destruct (GetFreeEnt mem_ok t) as [ok1 t1] eqn:Eg.
  assert (tht_Entries t1 = tht_Entries t) as E1.
  { unfold GetFreeEnt in Eg. repeat case_match; by injection Eg as <- <-. }
  destruct ok1; simpl; [|intros [= <- <-] e; rewrite E1; split; [by left|by intros [|[]]]].
  rewrite E1. destruct (tht_Entries t !! _) as [thl|] eqn:Et; [|done]. simpl. intros [= <- <-] e. simpl.
  destruct (concat_at _ _ _ Et) as (A1 & A2 & -> & ->). rewrite !elem_of_app, elem_of_cons. tauto.
Qed.

Lemma omap_inj {A B} (f : A -> option B) (l : list A) x y b : NoDup (omap f l) ->
  x ∈ l -> y ∈ l -> f x = Some b -> f y = Some b -> x = y.
Proof.
  induction l as [|z l IH]; [by intros _ ?%elem_of_nil|]. simpl. intros Hn Hx Hy Ex Ey.
  assert (Hin : forall w, w ∈ l -> f w = Some b -> b ∈ omap f l) by (intros w ??; apply list_elem_of_omap; by exists w).
  apply elem_of_cons in Hx as [->|Hx]; apply elem_of_cons in Hy as [->|Hy]; [done| | |].
  - rewrite Ex in Hn. apply NoDup_cons in Hn as [Hb _]. destruct Hb. by eapply Hin.
  - rewrite Ey in Hn. apply NoDup_cons in Hn as [Hb _]. destruct Hb. by eapply Hin.
  - apply IH; try done. destruct (f z); [by apply NoDup_cons in Hn as []|done].
Qed.

Lemma live_chain (t : FTHashTable u_int) e : e ∈ concat (tht_Entries t) -> e ∈ live t.
Proof. intros He. unfold live. apply elem_of_app. by left. Qed.

Lemma assoc_chain (t : FTHashTable u_int) k e : assoc t k = Some e -> e ∈ concat (tht_Entries t).
Proof.
  unfold assoc. destruct (tht_Entries t !! _) as [thl|] eqn:Et; [|done]. simpl. unfold find_entry.
  destruct (find_key t k thl) as [[[l1 x] l2]|] eqn:Ef; [|done]. simpl. intros [= ->].
  apply find_key_Some in Ef as (-> & _ & _). destruct (concat_at _ _ _ Et) as (A1 & A2 & -> & _). set_solver.
Qed.

(** A lookup: what it gives is safe and has the id; nothing safe is lost. *)
Lemma c_lookup now c Id : cinv c -> in_time now ->
  exists r c', ca_Lookup now c Id = Some (r, c') /\ cinv c' /\ kept c c' /\
    (forall a, ca_heap c !! a = None -> ca_heap c' !! a = None) /\
    match r with
    | Some a => safe c' a /\ exists v, ca_heap c' !! a = Some v /\ to_u_int (idf v) = to_u_int Id
    | None => True
    end.
Proof.
  intros Hc Hn. pose proof Hc as [Hok Httl Hall Hkey]. pose proof Hok as [Hft _].
  unfold ca_Lookup, fthash_Lookup.
  destruct (fthash_Lookup2_ok now (ca_heap c) (ca_tab c) ∅ (to_u_int Id) Hft (cache_law _ _ Hok))
    as (r & h' & t' & Hl & Hsh & Hft' & _ & Httl' & Hcase). rewrite Hl. cbn [mbind option_bind].
  destruct (lookup_entries _ _ _ _ _ _ _ Hl) as [Hent Halive].
  pose proof (own_nodup _ _ _ (ft_own _ _ _ Hft)) as Hnd.
  assert (Hsub : forall a v, h' !! a = Some v -> ca_heap c !! a = Some v).
  { intros a v. destruct (assoc _ _) as [e|]; [|by destruct Hcase as (_ & -> & _)].
    destruct (is_dead _ _ _); [|by destruct Hcase as (_ & -> & _)]. destruct Hcase as [_ Hcase].
    destruct (fthash_IsLocked _); [by destruct Hcase as [-> _]|]. destruct Hcase as (b & _ & -> & _).
    by intros [_ ?]%lookup_delete_Some. }
  assert (Hkept : kept c (MkCache h' t')).
  { intros a v [Ha Hs] Hv. unfold safe. simpl.
    assert (Hstay : h' !! a = Some v /\ (0 < tht_LockCnt (ca_tab c) -> 0 < tht_LockCnt t')).
    { destruct (assoc (ca_tab c) _) as [e|] eqn:Eas; [|by destruct Hcase as (_ & -> & ->)].
      destruct (is_dead _ _ _) eqn:Ed; [|destruct Hcase as (_ & -> & _ & ->); split; [done|lia]].
      destruct Hcase as [_ Hcase]. destruct (fthash_IsLocked _) eqn:El; [destruct Hcase as [-> ->]; split; [done|lia]|].
      unfold fthash_IsLocked in El. zbool. destruct Hcase as (b & Hb & -> & ->). split; [|lia].
      rewrite lookup_delete_ne; [done|]. intros ->. destruct Hs as [?|(e' & He' & Ha' & Hbirth)]; [lia|].
      assert (e' = e) as ->.
      { eapply omap_inj; [exact Hnd|by apply live_chain|by eapply assoc_live|done|done]. }
      rewrite young_alive in Ed; done. }
    destruct Hstay as [Hv' Hlk]. split; [|by exists v]. split; [by exists v|].
    destruct Hs as [?|(e & He & Hea & Hb)]; [left; by apply Hlk|]. right. exists e.
    split; [|done]. apply Halive; [done|]. by apply young_alive. }
  eexists _, _. split; [done|]. split.
  { constructor; simpl; [|by rewrite Httl'| |].
    - split; [done|]. destruct Hsh as (_ & _ & Es). simpl. rewrite Es. apply Hok.
    - intros a v Hv. eapply Hall. by apply Hsub.
    - intros e a v He Ha Hv. eapply Hkey; [by apply Hent|done|by apply Hsub]. }
  split; [done|]. split.
  { intros a Ha. simpl. destruct (h' !! a) as [v|] eqn:Ev; [|done]. apply Hsub in Ev. congruence. }
  destruct (assoc (ca_tab c) (to_u_int Id)) as [e|] eqn:Eas; [|by destruct Hcase as (-> & _)].
  destruct (is_dead _ _ _); [by destruct Hcase as [-> _]|]. destruct Hcase as (-> & -> & Eas' & Hlk). simpl.
  destruct (the_Val e) as [a|] eqn:Ea; [|done].
  destruct (heap_live _ _ _ _ _ _ Hft Eas Ea) as [v Hv].
  split; [split; [by exists v|left; simpl; rewrite Hlk; pose proof (ft_lock _ _ _ Hft); lia]|].
  exists v. split; [done|]. rewrite (Hkey e a v); [|by eapply assoc_chain|done|done].
  eapply assoc_key; [by eapply cache_law|done].
Qed.

Lemma safe_locked c a v : ca_heap c !! a = Some v -> 0 < tht_LockCnt (ca_tab c) -> safe c a.
Proof. intros Hv Hl. split; [by exists v|by left]. Qed.

(** An insertion: nothing is lost and the new pointer is safe. *)
Lemma c_insert alloc mem_ok now c Id v : cinv c -> in_time now ->
  (forall a, alloc = Some a -> ca_heap c !! a = None) -> P v -> to_u_int (idf v) = to_u_int Id ->
  exists r c', ca_Insert alloc mem_ok now c Id v = Some (r, c') /\ cinv c' /\ kept c c' /\
    match r with
    | Some a => alloc = Some a /\ ca_heap c' = <[a := v]> (ca_heap c) /\ safe c' a
    | None => c' = c
    end.
Proof.
  intros Hc Hn Hal HP Hid. pose proof Hc as [Hok Httl Hall Hkey]. pose proof Hok as [Hft _].
  destruct (ca_Insert_ok alloc mem_ok now c ∅ Id v Hok Hal) as (r & c' & Hi & Hok' & Httl' & _ & Hr).
  exists r, c'. split; [done|]. destruct r as [a|]; [|destruct Hr as [-> _]; by split; [|split; [apply kept_refl|]]].
  destruct Hr as (-> & _ & Hv & _). specialize (Hal a eq_refl). unfold ca_Insert in Hi.
  destruct (fthash_Insert _ _ _ _ _) as [[ok t']|] eqn:Ei; [|done]. simpl in Hi. destruct ok; [|done]. injection Hi as <-.
  pose proof (insert_entries _ _ _ _ _ _ _ Ei) as Hent. simpl in *.
  assert (Hold : forall e, e ∈ concat (tht_Entries (ca_tab c)) -> the_Val e <> Some a).
  { intros e He Ha. destruct (ft_own _ _ _ Hft) as [_ _ Hd _]. apply (is_Some_None (A := V)).
    rewrite <-Hal. apply Hd. left. apply list_elem_of_omap. exists e. split; [by apply live_chain|done]. }
  assert (Hlk : tht_LockCnt t' = tht_LockCnt (ca_tab c)).
  { unfold fthash_Insert, GetFreeEnt in Ei. repeat case_match; simplify_eq; simpl in *; try done;
      destruct (tht_Entries _ !! _); simplify_eq/=; done. }
  split; [|split; [|split; [done|split; [done|]]]].
  - constructor; simpl; [done|by rewrite Httl'| |].
    + intros b w Hb. destruct (decide (a = b)) as [<-|Hne]; [rewrite lookup_insert_eq in Hb; by injection Hb as <-|].
      rewrite lookup_insert_ne in Hb by done. by eapply Hall.
    + intros e b w He Hb Hw. apply Hent in He as [He|[_ ->]].
      * rewrite lookup_insert_ne in Hw by (intros ->; by eapply Hold). by eapply Hkey.
      * simpl in *. injection Hb as <-. rewrite lookup_insert_eq in Hw. by injection Hw as <-.
  - intros b w [Hb Hs] Hw. assert (a <> b) by congruence. unfold safe. simpl. rewrite lookup_insert_ne by done.
    split; [|by exists w]. split; [done|]. rewrite Hlk. destruct Hs as [?|(e & He & ?)]; [by left|].
    right. exists e. split; [apply Hent; by left|done].
  - split; simpl; [rewrite lookup_insert_eq; by eexists|]. right. exists (FTEntry now (to_u_int Id) (Some a)).
    split; [apply Hent; by right|done].
Qed.

(** A store to an object that stays the same one. *)
Lemma c_store c a v old : cinv c -> ca_heap c !! a = Some old -> P v -> idf v = idf old -> R old v ->
  exists c', ca_store c a v = Some c' /\ cinv c' /\ kept c c' /\ ca_tab c' = ca_tab c /\
    ca_heap c' = <[a := v]> (ca_heap c).
Proof.
  intros [[Hft Hkc] Httl Hall Hkey] Ha HP Hid HR. unfold ca_store. rewrite Ha. simpl. eexists. split; [done|].
  assert (Hdom : forall b, is_Some (<[a := v]> (ca_heap c) !! b) <-> is_Some (ca_heap c !! b)).
  { intros b. destruct (decide (a = b)) as [<-|Hne]; [rewrite lookup_insert_eq, Ha; by split; eauto|].
    by rewrite lookup_insert_ne. }
  split; [|split; [|done]].
  - constructor; simpl; [|done| |].
    + split; [|done]. destruct Hft as [? ? Ho ? ? ? ?]. constructor; try done. simpl.
      destruct Ho as [Hv Hn Hd Hj]. constructor; try done. intros b. by rewrite Hdom.
    + intros b w Hb. destruct (decide (a = b)) as [<-|Hne]; [rewrite lookup_insert_eq in Hb; by injection Hb as <-|].
      rewrite lookup_insert_ne in Hb by done. by eapply Hall.
    + intros e b w He Hb Hw. destruct (decide (a = b)) as [<-|Hne].
      * rewrite lookup_insert_eq in Hw. injection Hw as <-. rewrite Hid. by eapply Hkey.
      * rewrite lookup_insert_ne in Hw by done. by eapply Hkey.
  - intros b w [Hb Hs] Hw. split; [split; [by apply Hdom|done]|]. simpl.
    destruct (decide (a = b)) as [<-|Hne]; [|exists w; by rewrite lookup_insert_ne].
    exists v. rewrite lookup_insert_eq. split; [done|]. congruence.
Qed.

Lemma c_lock c : cinv c -> cinv (ca_Lock c) /\ kept c (ca_Lock c) /\ 0 < tht_LockCnt (ca_tab (ca_Lock c)).
Proof.
  intros [Hok Httl Hall Hkey]. destruct (lock_ok c ∅ Hok) as [Hok' Hlk]. unfold fthash_IsLocked in Hlk. zbool.
  split; [by constructor|]. split; [|done]. intros a v [Ha _] Hv. split; [split; [done|by left]|by exists v].
Qed.
End Safe.

(** ** Unlocking *)

Section Unlock.
Context {V K : Type}.
Implicit Types (h : vheap V) (e : FTHashEntry K).

Lemma FreeVal_sub h e h' e' : fthash_FreeVal h e = Some (h', e') -> h' ⊆ h.
Proof. unfold fthash_FreeVal. destruct (the_Val e) as [a|]; [|done]. simpl. destruct (h !! a); [|done]. intros [= <- _]. apply delete_subseteq. Qed.
Lemma FreeEntry_sub h e h' : fthash_FreeEntry h e = Some h' -> h' ⊆ h.
Proof.
  unfold fthash_FreeEntry. destruct (the_Val e); [|by intros [= <-]].
  destruct (fthash_FreeVal h e) as [[h1 e1]|] eqn:E; [|done]. intros [= <-]. by eapply FreeVal_sub.
Qed.
Lemma unlock_entries_sub l : forall h f h' f', unlock_entries (K := K) h l f = Some (h', f') -> h' ⊆ h.
Proof.
  induction l as [|e l IH]; simpl; intros h f h' f'; [by intros [= <- _]|].
  destruct (fthash_FreeVal h e) as [[h1 e1]|] eqn:E; [|done]. simpl. intros Hr. etrans; [by eapply IH|by eapply FreeVal_sub].
Qed.
Lemma trim_free_sub l : forall h n m h' n' f', trim_free (K := K) h n m l = Some (h', n', f') -> h' ⊆ h.
Proof.
  induction l as [|e l IH]; simpl; intros h n m h' n' f'; [by intros [= <- _ _]|].
  destruct (n >? m); [|by intros [= <- _ _]]. destruct (fthash_FreeEntry h e) as [h1|] eqn:E; [|done]. simpl. intros Hr.
  etrans; [by eapply IH|by eapply FreeEntry_sub].
Qed.
Lemma rem_tail_sub fuel : forall h i l h' i' l', rem_tail (K := K) fuel h i l = Some (h', i', l') -> h' ⊆ h.
Proof.
  induction fuel as [|fuel IH]; simpl; intros h i l h' i' l'; [by intros [= <- _ _]|].
  destruct (i >? 0); [|by intros [= <- _ _]]. destruct (last l) as [e|]; [|by intros [= <- _ _]].
  destruct (fthash_FreeEntry h e) as [h1|] eqn:E; [|done]. simpl. intros Hr. etrans; [by eapply IH|by eapply FreeEntry_sub].
Qed.
Lemma rem_entries_sub fuel : forall n h i r ls h' ls', rem_entries (K := K) fuel n h i r ls = Some (h', ls') -> h' ⊆ h.
Proof.
  induction fuel as [|fuel IH]; cbn [rem_entries]; intros n h i r ls h' ls'; [done|]. destruct (i >? 0); [|by intros [= <- _]].
  destruct (find_chain _ _ _ _) as [r1|]; [|done]. cbn [mbind option_bind]. destruct (ls !! _) as [l|]; [|done]. cbn [mbind option_bind].
  destruct (rem_tail (length l) h i l) as [[[h1 i1] l1]|] eqn:E; [|done]. cbn [mbind option_bind]. intros Hr.
  etrans; [by eapply IH|by eapply rem_tail_sub].
Qed.
Lemma UnLockAll_sub now h (t : FTHashTable K) h' t' : fthash_UnLockAll now h t = Some (h', t') -> h' ⊆ h.
Proof.
  unfold fthash_UnLockAll. destruct (unlock_entries _ _ _) as [[h1 f1]|] eqn:E1; [|done]. cbn [mbind option_bind].
  destruct (trim_free _ _ _ _) as [[[h2 n2] f2]|] eqn:E2; [|done]. cbn [mbind option_bind].
  assert (Hsub : h2 ⊆ h) by (etrans; [by eapply trim_free_sub|by eapply unlock_entries_sub]).
  destruct (_ >? _); [|by intros [= <- _]]. destruct (rem_entries _ _ _ _ _ _) as [[h3 ls]|] eqn:E3; [|done].
  cbn [mbind option_bind]. intros [= <- _]. etrans; [by eapply rem_entries_sub|done].
Qed.
End Unlock.

(** The invariant lasts from packet to packet. *)
Lemma c_unlock {V} (idf : V -> Z) P T t (c : Cache V) : cinv idf P T c ->
  exists c', ca_UnLockAll t c = Some c' /\ cinv idf P T c'.
Proof.
  intros [[Hft Hkc] Httl Hall Hkey]. unfold ca_UnLockAll.
  destruct (fthash_UnLockAll_ok t (ca_heap c) (ca_tab c) ∅ Hft) as (h' & t' & Hu & Hun). rewrite Hu.
  destruct Hun as ((Es1 & Es2 & Es3) & Hft' & _ & _ & Httl' & _ & _ & Htrim & _).
  pose proof (UnLockAll_sub _ _ _ _ _ Hu) as Hsub.
  assert (Hin : forall a v, h' !! a = Some v -> ca_heap c !! a = Some v) by (intros a v Hv; by eapply lookup_weaken).
  eexists. split; [done|]. constructor; simpl; [|congruence| |].
  - split; [done|]. simpl. by rewrite Es3.
  - intros a v Hv. eapply Hall. by apply Hin.
  - intros e a v He Ha Hv. eapply Hkey; [|done|by apply Hin]. apply list_elem_of_In, in_concat in He as (l' & Hl' & He).
    apply list_elem_of_In in Hl'. apply list_elem_of_lookup in Hl' as [i Hi].
    destruct (Forall2_lookup_r _ _ _ _ _ Htrim Hi) as (l & Hl & Hpre).
    apply list_elem_of_In, in_concat. exists l. split; [by apply list_elem_of_In, list_elem_of_lookup; exists i|].
    destruct Hpre as [k ->]. apply in_app_iff. by left.
Qed.
