(* ===== verification/WalkSpec.v ===== *)
(** * What the walk relies on and what it keeps

    The server's side is the class [NfsNameServer]: what a handle stands for
    and what a directory contains, as long as nobody changes the tree.  The
    caches are right about it ([winv]), and every function of the walk keeps
    them so, is defined, and leaves the pointers it was given valid. *)
From S2P Require Import Prelude NfsProt NfsSupp Nfs NfsLookup Global FtHash FtHashSpec DCache DCacheThm.
From S2P Require Import CacheSafe FileHandle HState Fn FnThm Walk.

(** [obj fh id ty]: the handle is that of file [id] of type [ty].
    [child d n id ty]: directory [d] has the name [n] for it.  Requests that
    only ask are [quiet]: what that means is up to the instance.  Requests may
    fail at any time; what they report is true.  Reading a directory comes to
    its end, and no name is longer than 254 bytes. *)
Class NfsNameServer (S : Type) `{NfsRpc S} := {
  obj : nfs_fh -> Z -> Z -> Prop;
  child : Z -> filename -> Z -> Z -> Prop;
  batches : nfs_fh -> nfscookie -> nat;
  quiet : relation S;
  quiet_pre :: PreOrder quiet;
  getattr_quiet fh s r s' : nfsproc_getattr_2 fh s = (r, s') -> quiet s s';
  lookup_quiet a s r s' : nfsproc_lookup_2 a s = (r, s') -> quiet s s';
  readdir_quiet a s r s' : nfsproc_readdir_2 a s = (r, s') -> quiet s s';
  obj_id fh id ty : obj fh id ty -> 0 < id < 2 ^ 32;
  child_type d n id ty fh ty' : child d n id ty -> obj fh id ty' -> ty = ty';
  obj_type fh fh' id ty ty' : obj fh id ty -> obj fh' id ty' -> ty = ty';
  child_id d n id ty : child d n id ty -> 0 < id < 2 ^ 32;
  getattr_law fh s attr s' id ty :
    nfsproc_getattr_2 fh s = (inr (NfsOk attr), s') -> obj fh id ty ->
    fa_fileid attr = id /\ fa_type attr = ty;
  lookup_law d n s res s' id ty :
    nfsproc_lookup_2 (DirOpArgs d n) s = (inr (NfsOk res), s') -> obj d id ty ->
    let attr := do_attributes res in
    child id n (fa_fileid attr) (fa_type attr) /\ obj (do_file res) (fa_fileid attr) (fa_type attr);
  readdir_law d c cnt s dl s' :
    nfsproc_readdir_2 (ReadDirArgs d c cnt) s = (inr (NfsOk dl), s') ->
    Forall (fun e => zlen (e_name e) < 255) (dl_entries dl) /\
    (dl_eof dl = false -> forall e, last (dl_entries dl) = Some e -> (batches d (e_cookie e) < batches d c)%nat)
}.

(** ** Looking up a name at the server *)

Section Lookup.
Context {S : Type} `{NS : NfsNameServer S}.

(** A name of a directory, the case aside. *)
Definition named (d : Z) (n : filename) (id ty : Z) : Prop :=
  exists n', (n' = n \/ same_name_nc n' n = true) /\ child d n' id ty.

Lemma named_id d n id ty : named d n id ty -> 0 < id < 2 ^ 32.
Proof. intros (n' & _ & Hc). by eapply child_id. Qed.

(** A reply tells a child with this name. *)
Definition answers (d : Z) (n : filename) (r : rpc diropokres) : Prop :=
  match r with
  | inr res => let attr := do_attributes res in
      named d n (fa_fileid attr) (fa_type attr) /\ obj (do_file res) (fa_fileid attr) (fa_type attr)
  | inl _ => True
  end.

Lemma nc_scan_ok entries n c : entries <> [] ->
  match nc_scan entries n c with
  | inl Name => same_name_nc Name n = true /\ exists e, e ∈ entries /\ e_name e = Name
  | inr c' => exists e, last entries = Some e /\ e_cookie e = c'
  end.
Proof.
  revert c. induction entries as [|e entries IH]; [done|]. intros c _. simpl.
  destruct (same_name_nc (e_name e) n) eqn:Es; [split; [done|]; exists e; by split; [left|]|].
  destruct entries as [|e2 entries]; [by exists e|]. specialize (IH c). destruct (nc_scan _ _ _) as [Name|c'].
  - destruct IH as (Hs & x & Hx & Ex); [done|]. split; [done|]. exists x. by split; [right|].
  - by apply IH.
Qed.

(** nfs_ILookup without a further search, for a name that stands for [n]. *)
Lemma ILookup_ok d id ty n n' s : obj d id ty -> n' = n \/ same_name_nc n' n = true ->
  exists r s', nfs_ILookup d n' None s = Some (r, s') /\ answers id n r /\ quiet s s'.
Proof.
  intros Hd Hn. unfold nfs_ILookup. destruct (nfsproc_lookup_2 _ _) as [res s'] eqn:El.
  pose proof (lookup_quiet _ _ _ _ El) as Hq.
  destruct res as [e|[res|st]]; eexists _, _; (split; [done|]); (split; [|exact Hq]); simpl; try done.
  destruct (lookup_law _ _ _ _ _ _ _ El Hd) as [Hc Ho]. split; [by exists n'|done].
Qed.

Lemma lookup_nc_ok d id ty n MaxRead fuel : forall c s, obj d id ty -> (batches d c < fuel)%nat ->
  exists r s', lookup_nc fuel d n MaxRead c s = Some (r, s') /\ answers id n r /\ quiet s s'.
Proof.
  induction fuel as [|fuel IH]; intros c s Hd Hf; [lia|]. cbn [lookup_nc]. unfold nfs_ReadDir.
  destruct (nfsproc_readdir_2 _ _) as [res s'] eqn:Er. pose proof (readdir_quiet _ _ _ _ Er) as Hq.
  destruct res as [e|[[entries Eof]|st]]; simpl; [by eexists _, _| |by eexists _, _].
  destruct (readdir_law _ _ _ _ _ _ Er) as [Hlen Hdec]. simpl in Hlen, Hdec.
  destruct entries as [|e1 entries]; [by eexists _, _|].
  pose proof (nc_scan_ok (e1 :: entries) n c ltac:(done)) as Hscan.
  destruct (nc_scan _ n c) as [Name|c'].
  - destruct Hscan as (Hs & x & Hx & <-). rewrite Forall_forall in Hlen. specialize (Hlen x Hx).
    destruct (Z.leb_spec (zlen (e_name x) + 1) 255); [|lia].
    destruct (ILookup_ok d id ty n (e_name x) s' Hd (or_intror Hs)) as (r & s2 & -> & Ha & Hq2).
    eexists _, _. split; [done|]. split; [done|]. by etrans.
  - destruct Hscan as (e & Hl & <-). destruct Eof; [by eexists _, _|].
    destruct (IH (e_cookie e) s' Hd) as (r & s2 & -> & Ha & Hq2); [specialize (Hdec eq_refl e Hl); lia|].
    eexists _, _. split; [done|]. split; [done|]. by etrans.
Qed.

Lemma nfs_Lookup_ok fuel d id ty n MaxRead s : obj d id ty -> (forall c, batches d c < fuel)%nat ->
  exists r s', nfs_Lookup fuel d n MaxRead s = Some (r, s') /\ answers id n r /\ quiet s s'.
Proof.
  intros Hd Hf. unfold nfs_Lookup, nfs_ILookup. destruct (nfsproc_lookup_2 _ _) as [res s'] eqn:El.
  pose proof (lookup_quiet _ _ _ _ El) as Hq.
  destruct res as [e|[res|st]]; [by eexists _, _| |].
  - eexists _, _. split; [done|]. simpl. destruct (lookup_law _ _ _ _ _ _ _ El Hd) as [Hc Ho].
    split; [|done]. split; [by exists n; split; [left|]|done].
  - destruct (st =? NFSERR_NOENT); [|by eexists _, _].
    unfold nfs_LookupNC. edestruct (lookup_nc_ok d id ty n) as (r & s2 & Hl & Ha & Hq2); [done|apply Hf|].
    rewrite Hl. eexists _, _. split; [done|]. split; [done|]. by etrans.
Qed.
End Lookup.

(** ** Total correctness in [M] *)

Section Wp.
Context {S : Type}.
Implicit Types (st : HState S).

Definition wp {A} (m : M S A) st (Q : Z + A -> HState S -> Prop) : Prop :=
  match m st with Some (r, st') => Q r st' | None => False end.

Lemma wp_bind {A B} (m : M S A) (f : A -> M S B) st Q :
  wp m st (fun r st' => match r with inl e => Q (inl e) st' | inr x => wp (f x) st' Q end) ->
  wp (m ≫= f) st Q.
Proof. unfold wp. rewrite M_bind_eq. destruct (m st) as [[[e|x] st']|]; done. Qed.

Lemma wp_mono {A} (m : M S A) st (Q Q' : Z + A -> HState S -> Prop) :
  wp m st Q -> (forall r st', Q r st' -> Q' r st') -> wp m st Q'.
Proof. unfold wp. destruct (m st) as [[r st']|]; [|done]. intros HQ H. by apply H. Qed.
End Wp.

(** ** The tree *)

(** The caches' times to live, [Ta] and [Td], cover the time that the packet
    takes from [t0] on, and the fuel every directory. *)
Class WalkTime {S} `{NfsNameServer S} (E : Env) (t0 Ta Td : Z) : Prop := {
  wt_Ta : 0 <= Ta <= t0;
  wt_Td : 0 <= Td <= t0;
  wt_max : t0 + Ta < 2 ^ 32 /\ t0 + Td < 2 ^ 32;
  wt_now n : t0 <= env_now E n <= t0 + Z.min Ta Td;
  wt_fuel d c : (batches d c < env_fuel E)%nat
}.

Section Spec.
Context {S : Type} `{NS : NfsNameServer S} `{DosNames} (E : Env) (cfg : Config).
Context (t0 Ta Td : Z) `{WT : !WalkTime E t0 Ta Td}.
Implicit Types (st : HState S).

Definition attr_ok (v : ACEntry) : Prop :=
  fa_fileid (ace_FAttr v) = ace_FileId v /\ obj (ace_NFSFh v) (ace_FileId v) (fa_type (ace_FAttr v)).
Definition dir_ok (d : DCEntry) : Prop :=
  (exists ty, obj (dce_NFSFh d) (dce_FileId d) ty) /\ nes_ok (dce_Entries d) /\
  Forall (fun x => named (dce_FileId d) (ne_Name x.2) (ne_FileId x.2) (ne_FType x.2)) (dce_Entries d).

(** What operations leave of an object: its id, and the nodes of a directory
    with their names. *)
Definition same_ace (v v' : ACEntry) : Prop := ace_FileId v' = ace_FileId v.
Definition same_dir (d d' : DCEntry) : Prop :=
  dce_FileId d' = dce_FileId d /\
  forall n e, ne_node (dce_Entries d) n = Some e ->
  exists e', ne_node (dce_Entries d') n = Some e' /\ ne_Name e' = ne_Name e.
#[export] Instance same_ace_PreOrder : PreOrder same_ace.
Proof. split; unfold same_ace; [done|]. intros ? ? ? -> ->. done. Qed.
#[export] Instance same_dir_PreOrder : PreOrder same_dir.
Proof.
  split; [intros d; split; [done|]; by eauto|].
  intros d1 d2 d3 [E1 N1] [E2 N2]. split; [congruence|]. intros n e He.
  destruct (N1 n e He) as (e' & He' & En). destruct (N2 n e' He') as (e'' & He'' & En').
  exists e''. split; [done|]. congruence.
Qed.

Definition ainv : AttrCache -> Prop := cinv ace_FileId attr_ok Ta.
Definition dinv : DirCache -> Prop := cinv dce_FileId dir_ok Td.
Definition winv st : Prop := ainv (hs_Attr st) /\ dinv (hs_Dir st).

(** The walk changes the caches and the state of the server only. *)
Record walks st st' : Prop := {
  wk_inv : winv st';
  wk_Attr : kept same_ace t0 Ta (hs_Attr st) (hs_Attr st');
  wk_Dir : kept same_dir t0 Td (hs_Dir st) (hs_Dir st');
  wk_Locks : hs_Locks st' = hs_Locks st;
  wk_ELock : hs_ELock st' = hs_ELock st;
  wk_DH : hs_DH st' = hs_DH st;
  wk_tick : (hs_tick st <= hs_tick st')%nat;
  wk_h : exists s, quiet (hs_Clnt st) s /\ hs_h st' = set_g (set_NFSClnt s (h_g (hs_h st))) (hs_h st)
}.

Lemma wk_FH st st' : walks st st' -> h_FH (hs_h st') = h_FH (hs_h st).
Proof. intros [_ _ _ _ _ _ _ (s & _ & ->)]. done. Qed.

(** Nothing happened to the handler. *)
Lemma same_h (h : Handler S) : exists s, quiet (g_NFSClnt (h_g h)) s /\ h = set_g (set_NFSClnt s (h_g h)) h.
Proof. exists (g_NFSClnt (h_g h)). split; [done|]. by destruct h as [[]]. Qed.

Lemma walks_refl st : winv st -> walks st st.
Proof. intros Hi. constructor; try done; first [apply same_h|apply kept_refl, _|simpl; lia]. Qed.

Lemma walks_trans st1 st2 st3 : walks st1 st2 -> walks st2 st3 -> walks st1 st3.
Proof.
  intros [? Ka Kd El Ee Ed Et (s & Hq & Ef)] [? Ka' Kd' El' Ee' Ed' Et' (s' & Hq' & Ef')].
  constructor; [done|eapply kept_trans; [apply _|done..]|eapply kept_trans; [apply _|done..]|congruence|congruence|congruence|lia|].
  exists s'. split; [|by rewrite Ef', Ef]. etrans; [exact Hq|]. unfold hs_Clnt in Hq'. by rewrite Ef in Hq'.
Qed.

(** A walk that gives an [x] with [R x], or fails. *)
Definition post {A} st (R : A -> HState S -> Prop) : Z + A -> HState S -> Prop :=
  fun r st' => walks st st' /\ match r with inr x => R x st' | inl _ => True end.

Lemma wp_seq {A B} (m : M S A) (f : A -> M S B) st R1 R2 :
  wp m st (post st R1) ->
  (forall x st', walks st st' -> R1 x st' -> wp (f x) st' (post st' R2)) ->
  wp (m ≫= f) st (post st R2).
Proof.
  intros Hm Hf. apply wp_bind. eapply wp_mono; [exact Hm|]. intros [e|x] st' [Hw HR]; [by split|].
  eapply wp_mono; [by apply Hf|]. intros r st'' [Hw' HR']. split; [by eapply walks_trans|done].
Qed.

Lemma wp_ret {A} (x : A) st (R : A -> HState S -> Prop) : winv st -> R x st -> wp (mret x) st (post st R).
Proof. intros Hi HR. split; [by apply walks_refl|done]. Qed.
Lemma wp_fail {A} e st (R : A -> HState S -> Prop) : winv st -> wp (fail e) st (post st R).
Proof. intros Hi. split; [by apply walks_refl|done]. Qed.

Lemma walks_tick st : winv st -> walks st (tick st).
Proof. intros Hi. constructor; try done; first [apply same_h|apply kept_refl, _|simpl; lia]. Qed.
Lemma walks_Clnt st s : winv st -> quiet (hs_Clnt st) s -> walks st (set_Clnt s st).
Proof. intros Hi Hq. constructor; try done; first [by exists s|apply kept_refl, _|simpl; lia]. Qed.

(** What the environment answers: a moment of the packet, memory that is free. *)
Definition moment (t : Z) : Prop := in_time t0 Ta t /\ in_time t0 Td t.
Definition fresh st (a : option addr) : Prop := forall x, a = Some x ->
  ca_heap (hs_Attr st) !! x = None /\ ca_heap (hs_Dir st) !! x = None /\ x ∉ (hs_Locks st).*1 /\
  forall b d, ca_heap (hs_Dir st) !! b = Some d -> x ∉ (dce_Entries d).*1.

Lemma moment_ok n : moment (env_now E n).
Proof. pose proof (wt_now (E := E) n). pose proof (wt_Ta (E := E)). unfold moment, in_time. lia. Qed.

Lemma AllocVec_fresh st a st' : AllocVec E st = Some (inr a, st') -> st' = tick st /\ fresh st a.
Proof.
  unfold AllocVec. intros [= <- <-]. split; [done|]. intros x. case_bool_decide as Hs; [|done]. simpl.
  destruct (env_mem E (hs_tick st)) as [y|]; [|done]. simpl. destruct (in_use st y) eqn:Eu; [done|].
  simpl. intros [= <-]. unfold in_use in Eu. apply orb_false_iff in Eu as [Eu Ee].
  apply orb_false_iff in Eu as [Eu _]. apply orb_false_iff in Eu as [Eu E3]. apply orb_false_iff in Eu as [E1 E2].
  apply bool_decide_eq_false in E1, E2, E3. rewrite <-!eq_None_not_Some in *. split; [done|]. split; [done|]. split; [done|].
  intros b d Hb Hin. apply not_true_iff_false in Ee. apply Ee. apply existsb_exists. exists (b, d).
  split; [by apply list_elem_of_In, elem_of_map_to_list|]. by apply bool_decide_eq_true.
Qed.

Lemma wp_now {A} (f : Z -> M S A) st Q : (forall t, moment t -> wp (f t) (tick st) Q) -> wp (t ← now E; f t) st Q.
Proof. intros Hf. apply wp_bind. apply Hf, moment_ok. Qed.

Lemma wp_alloc {A} (f : option addr -> bool -> M S A) st Q :
  (forall a ok, fresh st a -> wp (f a ok) (tick (tick st)) Q) ->
  wp (a ← AllocVec E; ok ← mem_ok E; f a ok) st Q.
Proof.
  intros Hq. apply wp_bind. destruct (AllocVec E st) as [[[e|a] st']|] eqn:Ea; [done| |done].
  pose proof (AllocVec_fresh _ _ _ Ea) as [-> Hf]. unfold wp at 1. rewrite Ea. apply wp_bind. unfold mem_ok.
  apply wp_bind. destruct (AllocVec E (tick st)) as [[[e|b] st']|] eqn:Eb; [done| |done].
  unfold wp at 1. rewrite Eb. pose proof (AllocVec_fresh _ _ _ Eb) as [-> _]. by apply Hq.
Qed.

Lemma mem_ok_eq st : exists ok, mem_ok E st = Some (inr ok, tick st).
Proof. unfold mem_ok. rewrite M_bind_eq. unfold AllocVec. by eexists. Qed.

Lemma wp_mem_ok st : winv st -> wp (mem_ok E) st (post st (fun _ _ => True)).
Proof.
  intros Hi. unfold mem_ok. apply wp_bind. destruct (AllocVec E st) as [[[e|b] st']|] eqn:Eb; [done| |done].
  unfold wp at 1. rewrite Eb. pose proof (AllocVec_fresh _ _ _ Eb) as [-> _]. split; [by apply walks_tick|done].
Qed.

Lemma walks_winv st st' : walks st st' -> winv st'.
Proof. by intros []. Qed.

(** ** Pointers into the caches *)

Definition ace_at st (a : addr) (id : Z) : Prop :=
  safe t0 Ta (hs_Attr st) a /\ exists v, ca_heap (hs_Attr st) !! a = Some v /\ ace_FileId v = id.
Definition dir_at st (a : addr) (id : Z) : Prop :=
  safe t0 Td (hs_Dir st) a /\ exists d, ca_heap (hs_Dir st) !! a = Some d /\ dce_FileId d = id.

Lemma ace_at_walks st st' a id : walks st st' -> ace_at st a id -> ace_at st' a id.
Proof.
  intros Hw (Hs & v & Hv & Hid). destruct (wk_Attr _ _ Hw a v Hs Hv) as (Hs' & v' & Hv' & E').
  split; [done|]. exists v'. split; [done|]. congruence.
Qed.
Lemma dir_at_walks st st' a id : walks st st' -> dir_at st a id -> dir_at st' a id.
Proof.
  intros Hw (Hs & v & Hv & Hid). destruct (wk_Dir _ _ Hw a v Hs Hv) as (Hs' & v' & Hv' & E' & _).
  split; [done|]. exists v'. split; [done|]. congruence.
Qed.

Lemma ace_at_ok st a id : winv st -> ace_at st a id ->
  exists v, ca_heap (hs_Attr st) !! a = Some v /\ ace_FileId v = id /\ attr_ok v.
Proof. intros [Hi _] (_ & v & Hv & Hid). exists v. split; [done|]. split; [done|]. by eapply ci_all. Qed.
Lemma dir_at_ok st a id : winv st -> dir_at st a id ->
  exists d, ca_heap (hs_Dir st) !! a = Some d /\ dce_FileId d = id /\ dir_ok d.
Proof. intros [_ Hi] (_ & v & Hv & Hid). exists v. split; [done|]. split; [done|]. by eapply ci_all. Qed.

Lemma wp_ac_get st a id : winv st -> ace_at st a id ->
  wp (ac_get a) st (fun r st' => st' = st /\ exists v, r = inr v /\ ace_FileId v = id /\ attr_ok v).
Proof.
  intros Hi Ha. destruct (ace_at_ok _ _ _ Hi Ha) as (v & Hv & Hid & Hok). unfold ac_get, wp.
  rewrite M_bind_eq. simpl. unfold of_option. rewrite Hv. simpl. split; [done|]. by exists v.
Qed.
Lemma wp_dc_get st a id : winv st -> dir_at st a id ->
  wp (dc_get a) st (fun r st' => st' = st /\ exists d, r = inr d /\ ca_heap (hs_Dir st) !! a = Some d /\ dce_FileId d = id /\ dir_ok d).
Proof.
  intros Hi Ha. destruct (dir_at_ok _ _ _ Hi Ha) as (v & Hv & Hid & Hok). unfold dc_get, wp.
  rewrite M_bind_eq. simpl. unfold of_option. rewrite Hv. simpl. split; [done|]. by exists v.
Qed.

(** A handle that is to be that of the file [id]. *)
Definition ptr_at st (p : fh_ptr) (id : Z) : Prop :=
  match p with FhVal fh => exists ty, obj fh id ty | FhACE a => ace_at st a id end.
Lemma ptr_at_walks st st' p id : walks st st' -> ptr_at st p id -> ptr_at st' p id.
Proof. destruct p; [done|]. apply ace_at_walks. Qed.

Lemma wp_fh_get st p id : winv st -> ptr_at st p id ->
  wp (fh_get p) st (fun r st' => st' = st /\ exists fh ty, r = inr fh /\ obj fh id ty).
Proof.
  intros Hi. destruct p as [fh|a]; simpl.
  - intros [ty Hty]. split; [done|]. by exists fh, ty.
  - intros Ha. apply wp_bind. eapply wp_mono; [by eapply wp_ac_get|].
    intros r st' (-> & v & -> & <- & Hok). split; [done|]. eexists _, _. split; [done|]. apply Hok.
Qed.

(** ** The operations of the caches *)

Lemma u32_inj a b : 0 <= a < 2 ^ 32 -> 0 <= b < 2 ^ 32 -> to_u_int a = to_u_int b -> a = b.
Proof. intros Ha Hb [= E1]%dsig_eq. simpl in E1. by rewrite !u32_id in E1. Qed.

(** A change of one of the caches. *)
Lemma walks_Attr st c : winv st -> ainv c -> kept same_ace t0 Ta (hs_Attr st) c -> walks st (set_Attr c st).
Proof. intros [_ Hd] Hc Hk. constructor; try done; first [apply same_h|apply kept_refl, _|simpl; lia]. Qed.
Lemma walks_Dir st c : winv st -> dinv c -> kept same_dir t0 Td (hs_Dir st) c -> walks st (set_Dir c st).
Proof. intros [Ha _] Hc Hk. constructor; try done; first [apply same_h|apply kept_refl, _|simpl; lia]. Qed.

Lemma attr_lookup_ok st id : winv st -> 0 <= id < 2 ^ 32 ->
  wp (attr_lookup E id) st (post st (fun r st' => hs_Dir st' = hs_Dir st /\
                                     match r with Some a => ace_at st' a id | None => True end)).
Proof.
  intros Hi Hid. apply wp_now. intros t [Ht _]. unfold wp, on_Attr. simpl.
  destruct (c_lookup ace_FileId attr_ok same_ace t0 Ta wt_Ta (proj1 wt_max) t (hs_Attr st) id (proj1 Hi) Ht)
    as (r & c' & Hl & Hc & Hk & _ & Hr). unfold attrs_LookupFromFileId. rewrite Hl. simpl.
  split; [by eapply walks_trans; [apply walks_tick|apply walks_Attr]|]. split; [done|]. destruct r as [a|]; [|done].
  destruct Hr as (Hs & v & Hv & Ev). split; [done|]. exists v. split; [done|].
  apply u32_inj; [|done|done]. assert (attr_ok v) as [_ Ho] by (by eapply ci_all).
  apply obj_id in Ho. lia.
Qed.

Lemma dir_lookup_ok st id : winv st -> 0 <= id < 2 ^ 32 ->
  wp (dir_lookup E id) st (post st (fun r st' => match r with Some a => dir_at st' a id | None => True end)).
Proof.
  intros Hi Hid. apply wp_now. intros t [_ Ht]. unfold wp, on_Dir. simpl.
  destruct (c_lookup dce_FileId dir_ok same_dir t0 Td wt_Td (proj2 wt_max) t (hs_Dir st) id (proj2 Hi) Ht)
    as (r & c' & Hl & Hc & Hk & _ & Hr). unfold dc_DCELookupFromFileId. rewrite Hl. simpl.
  split; [by eapply walks_trans; [apply walks_tick|apply walks_Dir]|]. destruct r as [a|]; [|done].
  destruct Hr as (Hs & v & Hv & Ev). split; [done|]. exists v. split; [done|].
  apply u32_inj; [|done|done]. assert (dir_ok v) as [[ty Ho] _] by (by eapply ci_all).
  apply obj_id in Ho. lia.
Qed.

Lemma walks_ticks st : winv st -> walks st (tick (tick (tick st))).
Proof. intros Hi. do 2 (eapply walks_trans; [by apply walks_tick|]). by apply walks_tick. Qed.

Lemma attr_create_ok st fh attr : winv st -> obj fh (fa_fileid attr) (fa_type attr) ->
  wp (attr_create E fh attr) st
  (post st (fun r st' => match r with Some a => ace_at st' a (fa_fileid attr) | None => True end)).
Proof.
  intros Hi Ho. apply wp_now. intros t [Ht _]. apply wp_alloc. intros a ok Hf. unfold wp, on_Attr. simpl.
  edestruct (c_insert ace_FileId attr_ok same_ace t0 Ta wt_Ta a ok t (hs_Attr st) (fa_fileid attr)
               (MkACEntry (fa_fileid attr) fh attr) (proj1 Hi) Ht) as (r & c' & Hl & Hc & Hk & Hr); [|done|done|].
  { intros x Hx. by apply (Hf x Hx). }
  unfold attrs_CreateAndInsert. rewrite Hl. simpl.
  split; [by eapply walks_trans; [apply walks_ticks|apply walks_Attr]|]. destruct r as [x|]; [|done].
  destruct Hr as (_ & Hh & Hs). split; [done|]. simpl. rewrite Hh. eexists. by rewrite lookup_insert_eq.
Qed.

Lemma attr_update_ok st fh attr : winv st -> obj fh (fa_fileid attr) (fa_type attr) ->
  wp (attr_update E fh attr) st
  (post st (fun r st' => match r with Some a => ace_at st' a (fa_fileid attr) | None => True end)).
Proof.
  intros Hi Ho. apply wp_now. intros t [Ht _]. apply wp_alloc. intros a ok Hf. unfold wp, on_Attr, attrs_Update. simpl.
  destruct (c_lookup ace_FileId attr_ok same_ace t0 Ta wt_Ta (proj1 wt_max) t (hs_Attr st) (fa_fileid attr) (proj1 Hi) Ht)
    as (r & c1 & Hl & Hc & Hk & Hn & Hr). unfold attrs_LookupFromFileId. rewrite Hl. simpl.
  destruct r as [x|].
  - destruct Hr as (Hs & v & Hv & Ev). rewrite Hv. simpl.
    assert (Hid : ace_FileId v = fa_fileid attr).
    { assert (attr_ok v) as [_ Hv'] by (by eapply ci_all). apply obj_id in Hv', Ho. apply u32_inj; [lia|lia|done]. }
    destruct (c_store ace_FileId attr_ok same_ace t0 Ta c1 x (MkACEntry (ace_FileId v) fh attr) v Hc Hv)
      as (c2 & Hst & Hc2 & Hk2 & _ & Hh); [|done|done|].
    { split; simpl; [done|]. by rewrite Hid. }
    rewrite Hst. simpl.
    split; [by eapply walks_trans; [apply walks_ticks|apply walks_Attr]; [..|eapply kept_trans; [apply _|done..]]|].
    destruct (Hk2 x v Hs Hv) as [Hs2 _]. split; [done|]. simpl. rewrite Hh. eexists. by rewrite lookup_insert_eq.
  - edestruct (c_insert ace_FileId attr_ok same_ace t0 Ta wt_Ta a ok t c1 (fa_fileid attr)
                 (MkACEntry (fa_fileid attr) fh attr) Hc Ht) as (r & c' & Hl' & Hc' & Hk' & Hr'); [|done|done|].
    { intros y Hy. apply Hn. by apply (Hf y Hy). }
    unfold attrs_CreateAndInsert. rewrite Hl'. simpl.
    split; [by eapply walks_trans; [apply walks_ticks|apply walks_Attr]; [..|eapply kept_trans; [apply _|done..]]|].
    destruct r as [x|]; [|done].
    destruct Hr' as (_ & Hh & Hs). split; [done|]. simpl. rewrite Hh. eexists. by rewrite lookup_insert_eq.
Qed.

Lemma dir_create_ok st id ty fh : winv st -> obj fh id ty ->
  wp (dir_create E id fh) st
  (post st (fun r st' => match r with Some a => dir_at st' a id | None => True end)).
Proof.
  intros Hi Ho. apply wp_now. intros t [_ Ht]. apply wp_alloc. intros a ok Hf. unfold wp, on_Dir. simpl.
  edestruct (c_insert dce_FileId dir_ok same_dir t0 Td wt_Td a ok t (hs_Dir st) id
               (MkDCEntry id DCE_ID_UNUSED fh []) (proj2 Hi) Ht) as (r & c' & Hl & Hc & Hk & Hr); [| |done|].
  { intros x Hx. by apply (Hf x Hx). }
  { split; [by exists ty|]. split; [|by constructor]. split; constructor. }
  unfold dc_DCECreateAndInsert. rewrite Hl. simpl.
  split; [by eapply walks_trans; [apply walks_ticks|apply walks_Dir]|]. destruct r as [x|]; [|done].
  destruct Hr as (_ & Hh & Hs). split; [done|]. simpl. rewrite Hh. eexists. by rewrite lookup_insert_eq.
Qed.
End Spec.
