(* ===== verification/WalkThm.v ===== *)
(** * Theorems about walking a path

    Every function of the walk is defined, keeps the caches right about the
    server and the pointers it was given valid, and gives what the server has
    for the name. *)
From S2P Require Import Prelude NfsProt NfsSupp Nfs NfsLookup Global FtHash FtHashSpec DCache DCacheThm.
From S2P Require Import CacheSafe FileHandle HState Fn FnThm Walk WalkSpec.

(** ** Nodes of a directory *)

Lemma ne_node_in l n e : ne_node l n = Some e -> (n, e) ∈ l.
Proof.
  induction l as [|[m x] l IH]; [done|]. simpl. case_bool_decide as Hm; [|set_solver].
  intros [= ->]. subst. by left.
Qed.

Lemma ne_in_node l n e : NoDup l.*1 -> (n, e) ∈ l -> ne_node l n = Some e.
Proof.
  induction l as [|[m x] l IH]; [by intros _ ?%elem_of_nil|]. simpl. intros [Hm Hn]%NoDup_cons [[= -> ->]|Hin]%elem_of_cons.
  - by rewrite bool_decide_eq_true_2.
  - rewrite bool_decide_eq_false_2; [by apply IH|]. intros ->. apply Hm. apply list_elem_of_fmap. by exists (n, e).
Qed.

Lemma ne_find_in Hash Name l n e : ne_find Hash Name l = Some (n, e) -> (n, e) ∈ l /\ ne_Name e = Name.
Proof.
  induction l as [|[m x] l IH]; [done|]. simpl. destruct (_ && _) eqn:Eb.
  - intros [= -> ->]. apply andb_true_iff in Eb as [_ ->%bool_decide_eq_true]. split; [by left|done].
  - intros Hf. destruct (IH Hf). split; [by right|done].
Qed.

Lemma ne_store_nodes l n ty id : (ne_store l n ty id).*1 = l.*1.
Proof. induction l as [|[m x] l IH]; [done|]. cbn [ne_store]. case_bool_decide; csimpl; [done|by rewrite IH]. Qed.

Lemma ne_store_node l n m e ty id : ne_node l m = Some e ->
  ne_node (ne_store l n ty id) m =
    Some (if bool_decide (m = n) then MkNEntry (ne_Name e) (ne_Hash e) ty id else e).
Proof.
  induction l as [|[k x] l IH]; [done|]. simpl. repeat (case_bool_decide; simplify_eq/=; try done).
  intros [= ->]. done.
Qed.

Lemma ne_store_Forall (P : addr * NEntry -> Prop) l n e ty id : ne_node l n = Some e -> Forall P l ->
  P (n, MkNEntry (ne_Name e) (ne_Hash e) ty id) -> Forall P (ne_store l n ty id).
Proof.
  induction l as [|[k x] l IH]; [done|]. simpl. intros Hn [Hx Hl]%Forall_cons He.
  case_bool_decide; simplify_eq/=; apply Forall_cons; [done|]. split; [done|]. by apply IH.
Qed.

Section Walk.
Context {S : Type} `{NS : NfsNameServer S} `{DosNames} (E : Env) (cfg : Config).
Context (t0 Ta Td : Z) `{WT : !WalkTime E t0 Ta Td}.
Implicit Types (st : HState S).

Abbreviation winv := (winv Ta Td).
Abbreviation walks := (walks t0 Ta Td).
Abbreviation post := (post t0 Ta Td).
Abbreviation ace_at := (ace_at t0 Ta).
Abbreviation dir_at := (dir_at t0 Td).
Abbreviation ptr_at := (ptr_at t0 Ta).

(** The node of name [n] in the cached directory [d], and what is in it. *)
Definition ne_at st (p : addr * addr) (d : Z) (n : filename) (id ty : Z) : Prop :=
  dir_at st p.1 d /\
  exists v e, ca_heap (hs_Dir st) !! p.1 = Some v /\ ne_node (dce_Entries v) p.2 = Some e /\
    ne_Name e = n /\ ne_FileId e = id /\ ne_FType e = ty.

Lemma ne_at_walks st st' p d n id ty : walks st st' -> ne_at st p d n id ty ->
  exists id' ty', ne_at st' p d n id' ty'.
Proof.
  intros Hw (Hd & v & e & Hv & He & Hn & _). destruct (wk_Dir _ _ _ _ _ Hw _ _ (proj1 Hd) Hv) as (_ & v' & Hv' & _ & Hk).
  destruct (Hk _ _ He) as (e' & He' & En). exists (ne_FileId e'), (ne_FType e').
  split; [by eapply dir_at_walks|]. exists v', e'. split; [done|]. split; [done|]. split; [congruence|done].
Qed.

Lemma ne_at_named st p d n id ty : winv st -> ne_at st p d n id ty -> named d n id ty.
Proof.
  intros [_ Hi] ((_ & v' & Hv' & Hd) & v & e & Hv & He & <- & <- & <-). simplify_eq.
  assert (dir_ok v') as (_ & _ & Hall) by (by eapply ci_all). rewrite Forall_forall in Hall.
  by apply (Hall (p.2, e)), ne_node_in.
Qed.

Lemma ne_get_eq st p d n id ty : ne_at st p d n id ty ->
  exists e, ne_get p st = Some (inr e, st) /\ ne_FileId e = id /\ ne_FType e = ty.
Proof.
  intros (_ & v & e & Hv & He & _ & Hid & Hty). exists e. split; [|done].
  unfold ne_get, dc_get. rewrite !M_bind_eq. simpl. unfold of_option. rewrite Hv. simpl. by rewrite He.
Qed.

Lemma NELookup_ok st a d n : winv st -> dir_at st a d ->
  wp (on_Dir (fun c => dc_NELookup c a n)) st
  (post st (fun r st' => match r with
                         | Some (m, e) => ne_at st' (a, m) d n (ne_FileId e) (ne_FType e)
                         | None => True
                         end)).
Proof.
  intros Hi (Hs & v & Hv & Hid). unfold wp, on_Dir, dc_NELookup. rewrite Hv. simpl.
  destruct (ne_find _ _ _) as [[m e]|] eqn:Ef; simpl; [|by split; [apply walks_Dir; [..|apply kept_refl, _]; try done; apply Hi|]].
  destruct (c_lock dce_FileId dir_ok same_dir t0 Td (hs_Dir st) (proj2 Hi)) as (Hc & Hk & Hl).
  split; [by apply walks_Dir|]. apply ne_find_in in Ef as [Hin Hn].
  assert (dir_ok v) as (_ & [_ Hnd] & _) by (by eapply ci_all; [apply Hi|]).
  split; [split; [by split; [exists v|left]|by exists v]|]. exists v, e. split; [done|].
  split; [by apply ne_in_node|done].
Qed.

(** A store to a directory that keeps its nodes. *)
Lemma dir_store_ok st a d v l : winv st -> dir_at st a d -> ca_heap (hs_Dir st) !! a = Some v ->
  (forall n e, ne_node (dce_Entries v) n = Some e ->
   exists e', ne_node l n = Some e' /\ ne_Name e' = ne_Name e) ->
  nes_ok l -> Forall (fun x => named d (ne_Name x.2) (ne_FileId x.2) (ne_FType x.2)) l ->
  let v' := MkDCEntry (dce_FileId v) (dce_ParentId v) (dce_NFSFh v) l in
  exists c, ca_store (hs_Dir st) a v' = Some c /\ dinv Td c /\ kept same_dir t0 Td (hs_Dir st) c /\
    safe t0 Td c a /\ ca_heap c !! a = Some v' /\ dce_FileId v' = d.
Proof.
  intros [_ Hi] (Hs & v0 & Hv0 & <-) Hv Hk Hl Hn. cbv zeta. assert (v0 = v) as -> by congruence.
  assert (dir_ok v) as (Hfh & _ & _) by (by eapply ci_all).
  destruct (c_store dce_FileId dir_ok same_dir t0 Td (hs_Dir st) a
              (MkDCEntry (dce_FileId v) (dce_ParentId v) (dce_NFSFh v) l) v Hi Hv) as (c & Hst & Hc & Hkept & _ & Hh); [done|done|done|].
  exists c. split; [done|]. split; [done|]. split; [done|]. split; [by apply (Hkept a v)|].
  rewrite Hh. split; [apply lookup_insert_eq|done].
Qed.

Lemma ne_create_ok st a d n ty id : winv st -> dir_at st a d -> named d n id ty ->
  wp (ne_create E a n ty id) st
  (post st (fun r st' => match r with Some m => ne_at st' (a, m) d n id ty | None => True end)).
Proof.
  intros Hi Ha Hn. unfold ne_create. apply wp_alloc. intros x ok Hf. unfold wp, on_Dir, dc_NECreateAndInsert. simpl.
  assert (Hi2 : winv (tick (tick st))) by done.
  assert (Hw : walks st (tick (tick st))) by (do 2 (eapply walks_trans; [by apply walks_tick|]); by apply walks_refl).
  assert (Hsame : walks st (set_Dir (hs_Dir st) (tick (tick st)))).
  { eapply walks_trans; [exact Hw|]. apply walks_Dir; [done|apply Hi|apply kept_refl, _]. }
  destruct x as [m|]; [|by split]. destruct ok; [|by split].
  destruct Ha as (Hs & v & Hv & Hid). rewrite Hv. simpl.
  assert (dir_ok v) as (_ & [Hh Hnd] & Hall) by (by eapply ci_all; [apply Hi|]).
  assert (Hm : m ∉ (dce_Entries v).*1) by (apply (Hf m eq_refl) with (b := a); done).
  destruct (dir_store_ok st a d v ((m, MkNEntry n (dc_NEStr2Hash n) ty id) :: dce_Entries v))
    as (c & Hst & Hc & Hk & Hsafe & Hca & Hdid); [done|by split; [|exists v]|done| | | |].
  { intros k e He. exists e. simpl. rewrite bool_decide_eq_false_2; [done|]. intros ->. apply Hm.
    apply ne_node_in in He. apply list_elem_of_fmap. by exists (k, e). }
  { split; [by apply Forall_cons|]. simpl. by apply NoDup_cons. }
  { apply Forall_cons. split; [done|]. by rewrite <-Hid. }
  rewrite Hst. simpl. destruct (c_lock dce_FileId dir_ok same_dir t0 Td c Hc) as (Hc' & Hk' & Hl).
  split.
  { eapply walks_trans; [exact Hw|]. apply walks_Dir; [done|done|]. eapply kept_trans; [apply _|done..]. }
  split; [split; [by split; [eexists|left]|by eexists]|]. eexists _, _. split; [done|]. simpl.
  rewrite bool_decide_eq_true_2 by done. done.
Qed.

Lemma ne_set_ok st p d n id0 ty0 ty id : winv st -> ne_at st p d n id0 ty0 -> named d n id ty ->
  wp (ne_set p ty id) st (post st (fun _ st' => ne_at st' p d n id ty)).
Proof.
  intros Hi Hne Hn. pose proof Hne as (Ha & v & e & Hv & He & Hnm & _).
  unfold wp, ne_set, dc_get. rewrite !M_bind_eq. simpl. unfold of_option. rewrite Hv. simpl. rewrite He. simpl.
  unfold on_Dir, unit_op. pose proof Ha as (_ & v0 & Hv0 & Hid). assert (v0 = v) as -> by congruence. subst d.
  assert (dir_ok v) as (_ & [Hh Hnd] & Hall) by (by eapply ci_all; [apply Hi|]).
  destruct (dir_store_ok st p.1 (dce_FileId v) v (ne_store (dce_Entries v) p.2 ty id))
    as (c & Hst & Hc & Hk & Hsafe & Hca & Hdid); [done|done|done| | | |].
  { intros k x Hx. erewrite ne_store_node by done. eexists. split; [done|]. by case_bool_decide. }
  { split; [|by rewrite ne_store_nodes]. eapply ne_store_Forall; [done|done|]. rewrite Forall_forall in Hh.
    by apply (Hh (p.2, e)), ne_node_in. }
  { eapply ne_store_Forall; [done|done|]. simpl. by rewrite Hnm. }
  rewrite !M_bind_eq.
  rewrite Hst. simpl. split; [by apply walks_Dir|].
  split; [by split; [|eexists]|]. eexists _, _. split; [done|]. simpl.
  erewrite ne_store_node by done. by rewrite bool_decide_eq_true_2.
Qed.

(** ** The functions of the walk *)

Lemma fh_get_ok st p id : winv st -> ptr_at st p id ->
  wp (fh_get p) st (post st (fun fh _ => exists ty, obj fh id ty)).
Proof.
  intros Hi Hp. eapply wp_mono; [by eapply wp_fh_get|]. intros r st' (-> & fh & ty & -> & Ho).
  split; [by apply walks_refl|by exists ty].
Qed.

Lemma ac_get_ok st a id : winv st -> ace_at st a id ->
  wp (ac_get a) st (post st (fun v st' => st' = st /\ ace_FileId v = id /\ attr_ok v)).
Proof.
  intros Hi Ha. eapply wp_mono; [by eapply wp_ac_get|]. intros r st' (-> & v & -> & Hv).
  split; [by apply walks_refl|done].
Qed.

Lemma attr_renew_ok st p attr fh : winv st -> ptr_at st p (fa_fileid attr) ->
  obj fh (fa_fileid attr) (fa_type attr) ->
  wp (attr_renew E p attr) st (post st (fun a st' => ace_at st' a (fa_fileid attr))).
Proof.
  intros Hi Hp Ho. pose proof (obj_id _ _ _ Ho) as Hid. unfold attr_renew.
  assert (Hobj : forall fh' ty, obj fh' (fa_fileid attr) ty -> obj fh' (fa_fileid attr) (fa_type attr)).
  { intros fh' ty Ho'. by rewrite (obj_type _ _ _ _ _ Ho Ho'). }
  eapply wp_seq; [apply attr_lookup_ok; [apply _|done|lia]|]. intros r st1 Hw1 [_ Hr].
  pose proof (walks_winv _ _ _ _ _ Hw1) as Hi1. assert (Hp1 : ptr_at st1 p (fa_fileid attr)) by (by eapply ptr_at_walks).
  set (R := fun (r : option addr) st => match r with Some a => ace_at st a (fa_fileid attr) | None => True end).
  eapply (wp_seq _ _ _ _ _ _ R).
  { destruct r as [a|]; [|by apply wp_ret]. eapply wp_seq; [by eapply fh_get_ok|]. intros fh' st2 Hw2 [ty Ho'].
    apply attr_update_ok; [apply _|by eapply walks_winv|by eapply Hobj]. }
  intros r2 st2 Hw2 Hr2. pose proof (walks_winv _ _ _ _ _ Hw2) as Hi2.
  assert (Hp2 : ptr_at st2 p (fa_fileid attr)) by (by eapply ptr_at_walks).
  eapply (wp_seq _ _ _ _ _ _ R).
  { destruct r2 as [a|]; [by apply wp_ret|]. eapply wp_seq; [by eapply fh_get_ok|]. intros fh' st3 Hw3 [ty Ho'].
    apply attr_create_ok; [apply _|by eapply walks_winv|by eapply Hobj]. }
  intros r3 st3 Hw3 Hr3. pose proof (walks_winv _ _ _ _ _ Hw3) as Hi3.
  destruct r3 as [a|]; [by apply wp_ret|by apply wp_fail].
Qed.

(** A call of the server. *)
Lemma rpc_call_ok {A} (f : S -> rpc A * S) (R : A -> Prop) st : winv st ->
  (forall s r s', f s = (r, s') -> quiet s s' /\ match r with inr x => R x | inl _ => True end) -> wp (rpc_call f) st (post st (fun x _ => R x)).
Proof.
  intros Hi Hf. unfold wp, rpc_call. destruct (f (hs_Clnt st)) as [r s] eqn:Ef.
  apply Hf in Ef as [Hq Hr]. split; [by apply walks_Clnt|]. by destruct r.
Qed.
Lemma rpc_call'_ok {A} (f : S -> option (rpc A * S)) (R : A -> Prop) st : winv st ->
  (forall s, exists r s', f s = Some (r, s') /\ match r with inr x => R x | inl _ => True end /\ quiet s s') ->
  wp (rpc_call' f) st (post st (fun x _ => R x)).
Proof.
  intros Hi Hf. unfold wp, rpc_call'. destruct (Hf (hs_Clnt st)) as (r & s' & -> & Hr & Hq). simpl.
  split; [by apply walks_Clnt|]. by destruct r.
Qed.

Lemma nfs_GetAttr_ok fh s r s' id ty : nfs_GetAttr fh s = (r, s') -> obj fh id ty ->
  quiet s s' /\ match r with inr attr => fa_fileid attr = id /\ fa_type attr = ty | inl _ => True end.
Proof.
  unfold nfs_GetAttr. destruct (nfsproc_getattr_2 fh s) as [res s1] eqn:Eg. pose proof (getattr_quiet _ _ _ _ Eg).
  destruct res as [e|[a|e]]; simpl; intros [= <- <-]; intros Ho; (split; [done|]); try done. by eapply getattr_law.
Qed.

Lemma c_GetAttr_ok st id p : winv st -> ptr_at st p id -> 0 < id < 2 ^ 32 ->
  wp (c_GetAttr E id p) st (post st (fun a st' => ace_at st' a id)).
Proof.
  intros Hi Hp Hid. unfold c_GetAttr. unfold DCE_ID_UNUSED. destruct (Z.eqb_spec id 0) as [->|_]; [lia|].
  eapply wp_seq; [apply attr_lookup_ok; [apply _|done|lia]|]. intros r st1 Hw1 [_ Hr].
  pose proof (walks_winv _ _ _ _ _ Hw1) as Hi1. destruct r as [a|]; [by apply wp_ret|].
  eapply wp_seq; [by eapply fh_get_ok; [|eapply ptr_at_walks]|]. intros fh st2 Hw2 [ty Ho].
  pose proof (walks_winv _ _ _ _ _ Hw2) as Hi2.
  eapply wp_seq; [apply (rpc_call_ok _ (fun attr => fa_fileid attr = id /\ fa_type attr = ty)); [done|]|].
  { intros s x s' Hx. by eapply nfs_GetAttr_ok. }
  intros attr st3 Hw3 [<- <-]. eapply attr_renew_ok; [by eapply walks_winv| |done].
  do 3 (eapply ptr_at_walks; [done|]). done.
Qed.

(** A directory, in a walk. *)
Lemma dc_get_ok st a d : winv st -> dir_at st a d ->
  wp (dc_get a) st (post st (fun v st' => st' = st /\ exists ty, obj (dce_NFSFh v) d ty)).
Proof.
  intros Hi Ha. eapply wp_mono; [by eapply wp_dc_get|]. intros r st' (-> & v & -> & _ & <- & [ty Ho] & _).
  split; [by apply walks_refl|]. split; [done|]. by exists ty.
Qed.

Definition found (ActDir : addr) (d : Z) (n : filename) (r : (addr * addr) * addr) st : Prop :=
  r.1.1 = ActDir /\ exists id ty, ne_at st r.1 d n id ty /\ ace_at st r.2 id.

Lemma ask_name_ok st ActDir d n NEnt : winv st -> dir_at st ActDir d ->
  match NEnt with Some m => exists id ty, ne_at st (ActDir, m) d n id ty | None => True end ->
  wp (ask_name E ActDir n NEnt) st (post st (found ActDir d n)).
Proof.
  intros Hi Hd Hne. unfold ask_name.
  eapply wp_seq; [by eapply dc_get_ok|]. intros dv ? Hw0 [-> [ty0 Ho0]].
  eapply (wp_seq _ _ _ _ _ _ (fun _ st' => st' = st)); [split; [by apply walks_refl|done]|].
  intros maxread ? _ ->.
  eapply wp_seq; [apply (rpc_call'_ok _ (fun res => answers d n (inr res))); [done|]|].
  { intros s. destruct (nfs_Lookup_ok (env_fuel E) _ _ _ n maxread s Ho0 (wt_fuel _)) as (r & s' & Hl & Hr & Hq).
    exists r, s'. split; [done|]. split; [by destruct r|done]. }
  intros dirent st1 Hw1 [Hnm Ho]. pose proof (walks_winv _ _ _ _ _ Hw1) as Hi1.
  eapply wp_seq; [eapply attr_renew_ok; [done|by eexists|done]|].
  intros a st2 Hw2 Hace. pose proof (walks_winv _ _ _ _ _ Hw2) as Hi2.
  cbv beta in Hace. eapply wp_seq; [by eapply ac_get_ok|]. intros ace ? Hw3 (-> & -> & _).
  assert (Hw : walks st st2) by (by eapply walks_trans).
  destruct NEnt as [m|].
  - destruct Hne as (id & ty & Hne). eapply ne_at_walks in Hne as (id' & ty' & Hne); [|exact Hw].
    eapply wp_seq; [by eapply ne_set_ok|]. intros ? st3 Hw4 Hne'; cbv beta in Hne'. apply wp_ret; [by eapply walks_winv|].
    split; [done|]. eexists _, _. split; [done|]. by eapply ace_at_walks.
  - eapply wp_seq; [eapply ne_create_ok; [done|by eapply dir_at_walks|done]|].
    intros m st3 Hw4 Hm. pose proof (walks_winv _ _ _ _ _ Hw4) as Hi4.
    destruct m as [m|]; [|by apply wp_fail]. apply wp_ret; [done|].
    split; [done|]. eexists _, _. split; [done|]. by eapply ace_at_walks.
Qed.

Lemma GetNameEntry_ok st ActDir d n : winv st -> dir_at st ActDir d ->
  wp (GetNameEntry E ActDir n) st (post st (found ActDir d n)).
Proof.
  intros Hi Ha. unfold GetNameEntry. eapply wp_seq; [by apply NELookup_ok|]. intros NEnt st1 Hw1 Hne.
  pose proof (walks_winv _ _ _ _ _ Hw1) as Hi1.
  assert (Hd1 : dir_at st1 ActDir d) by (by eapply dir_at_walks).
  destruct NEnt as [[m e]|]; [|by apply ask_name_ok].
  eapply wp_seq; [apply attr_lookup_ok; [apply _|done|]|].
  { pose proof (ne_at_named _ _ _ _ _ _ Hi1 Hne) as Hnm. apply named_id in Hnm. lia. }
  intros ACE st2 Hw2 [Hdir Hace]. pose proof (walks_winv _ _ _ _ _ Hw2) as Hi2.
  assert (Hne2 : ne_at st2 (ActDir, m) d n (ne_FileId e) (ne_FType e)).
  { unfold ne_at, WalkSpec.dir_at in *. by rewrite Hdir. }
  destruct ACE as [a|]; [by apply wp_ret; [|split; [|eauto]]|].
  apply ask_name_ok; [done|by eapply dir_at_walks|by eauto].
Qed.

(** The directory of the file [id]. *)
Lemma GetDirEntry_ok st id p : winv st -> ptr_at st p id -> 0 < id < 2 ^ 32 ->
  wp (GetDirEntry E None id p) st (post st (fun a st' => dir_at st' a id)).
Proof.
  intros Hi Hp Hid. unfold GetDirEntry.
  eapply (wp_seq _ _ _ _ _ _ (fun x st' => x = id /\ st' = st)); [by split; [apply walks_refl|]|].
  intros ? ? _ [-> ->]. unfold DCE_ID_UNUSED. destruct (Z.eqb_spec id 0) as [->|_]; [lia|].
  eapply wp_seq; [apply dir_lookup_ok; [apply _|done|lia]|]. intros r st1 Hw1 Hr.
  pose proof (walks_winv _ _ _ _ _ Hw1) as Hi1. destruct r as [a|]; [by apply wp_ret|].
  assert (Hp1 : ptr_at st1 p id) by (by eapply ptr_at_walks).
  eapply wp_seq; [by apply c_GetAttr_ok|]. intros a st2 Hw2 Ha. pose proof (walks_winv _ _ _ _ _ Hw2) as Hi2.
  cbv beta in Ha. eapply wp_seq; [by eapply ac_get_ok|]. intros ace ? Hw3 (-> & <- & _).
  eapply wp_seq; [eapply fh_get_ok; [done|eapply ptr_at_walks; [exact Hw2|done]]|]. intros fh st4 Hw4 [ty Ho].
  eapply wp_seq; [by eapply dir_create_ok; [apply _|eapply walks_winv|]|]. intros r st5 Hw5 Hr5.
  pose proof (walks_winv _ _ _ _ _ Hw5) as Hi5. destruct r as [b|]; [by apply wp_ret|by apply wp_fail].
Qed.

Lemma GetDirEntry_name st q d n id ty x p : ne_at st q d n id ty ->
  GetDirEntry E (Some q) x p st = GetDirEntry E None id p st.
Proof.
  intros Hq. destruct (ne_get_eq _ _ _ _ _ _ Hq) as (e & He & <- & _).
  unfold GetDirEntry. rewrite M_bind_eq, M_bind_eq, He. done.
Qed.

(** The directory that names lead to from directory [d], one by one. *)
Inductive reach (d : Z) : list filename -> Z -> Prop :=
  | reach_here : reach d [] d
  | reach_name n id ns e : named d n id NFDIR -> reach id ns e -> reach d (n :: ns) e.

Definition leads st (d : Z) (ns : list filename) (a : addr) : Prop := exists e, reach d ns e /\ dir_at st a e.

Lemma join_path_length n ns : plain n -> (length (join_path ns) < length (join_path (n :: ns)))%nat.
Proof.
  intros (_ & Hne & _). destruct ns as [|n2 ns]; cbn [join_path]; [destruct n; [done|]; simpl; lia|].
  rewrite length_app. simpl. lia.
Qed.

Lemma walk_loop_ok ns : forall fuel pre d ParDir st, ns <> [] -> Forall plain ns -> winv st ->
  dir_at st ParDir d -> (length (join_path ns) < fuel)%nat ->
  wp (walk_loop E fuel (pre ++ join_path ns ++ [x00]) (zlen pre) ParDir) st
  (post st (fun a st' => leads st' d (removelast ns) a)).
Proof.
  induction ns as [|n ns IH]; intros fuel pre d ParDir st Hne Hp Hi Hd Hf; [done|].
  destruct fuel as [|fuel]; [lia|]. cbn [walk_loop]. apply Forall_cons in Hp as [Hn Hp].
  destruct (scan_step pre n ns Hn Hp) as (buf & Pos & Hs & Hc & Hnext).
  eapply (wp_seq _ _ _ _ _ _ (fun r st' => r = (zlen pre, buf, Pos, bool_decide (ns = [])) /\ st' = st)).
  { unfold wp, of_option. rewrite Hs. simpl. split; [by apply walks_refl|done]. }
  intros ? ? _ [-> ->]. rewrite Hc. case_bool_decide as Hns.
  { apply wp_ret; [done|]. subst. exists d. split; [constructor|done]. }
  destruct (Hnext Hns) as (pre' & -> & ->).
  rewrite (bool_decide_eq_false_2 (at0 n = slash)).
  2:{ destruct Hn as ((Hsl & _) & Hne' & _). destruct n as [|c n]; [done|]. simpl. intros ->. apply Hsl. by left. }
  eapply wp_seq; [by apply GetNameEntry_ok|]. intros [q ACE] st1 Hw1 [Hq (id & ty & Hne1 & Hace)]. simpl in Hace.
  pose proof (walks_winv _ _ _ _ _ Hw1) as Hi1. pose proof (ne_at_named _ _ _ _ _ _ Hi1 Hne1) as Hnm.
  destruct (ne_get_eq _ _ _ _ _ _ Hne1) as (e & He & Heid & Hety). simpl in He.
  eapply (wp_seq _ _ _ _ _ _ (fun r st' => r = e /\ st' = st1)).
  { unfold wp. rewrite He. split; [by apply walks_refl|done]. }
  intros ? ? _ [-> ->]. rewrite Hety.
  destruct (Z.eqb_spec ty NFDIR) as [->|Hdir]; simpl.
  2:{ destruct (ty =? NFLNK); by apply wp_fail. }
  eapply (wp_seq _ _ _ _ _ _ (fun a st' => dir_at st' a id)).
  { unfold wp. erewrite GetDirEntry_name by done. apply GetDirEntry_ok; [done|done|by eapply named_id]. }
  intros ActDir st2 Hw2 Ha. eapply wp_mono; [apply (IH fuel pre' id); try done|].
  - by eapply walks_winv.
  - pose proof (join_path_length n ns Hn). lia.
  - intros r st3 [Hw3 Hr]. split; [done|]. destruct r as [a|a]; [done|]. destruct Hr as (e' & Hr & He').
    exists e'. split; [|done]. destruct ns as [|n2 ns]; [done|]. by econstructor.
Qed.

(** The mount point is what the configuration says. *)
Definition root_ok : Prop := exists ty, obj (g_MntFh cfg) (fa_fileid (g_MntAttr cfg)) ty.

Lemma RootLocateDir_ok st ns : winv st -> root_ok -> Forall plain ns ->
  wp (RootLocateDir E cfg (join_path ns) (zlen (join_path ns))) st
  (post st (fun a st' => leads st' (fa_fileid (g_MntAttr cfg)) (removelast ns) a)).
Proof.
  intros Hi [ty Ho] Hp. unfold RootLocateDir.
  eapply wp_seq; [by apply wp_mem_ok|]. intros ok st1 Hw1 _. pose proof (walks_winv _ _ _ _ _ Hw1) as Hi1.
  eapply (wp_seq _ _ _ _ _ _ (fun r st' => r = (if ok then Some (join_path ns) else None) /\ st' = st1)).
  { unfold wp, of_option. rewrite StrNDup_all. simpl. split; [by apply walks_refl|done]. }
  intros ? ? _ [-> ->]. destruct ok; [|by apply wp_fail].
  eapply wp_seq; [apply (GetDirEntry_ok _ (fa_fileid (g_MntAttr cfg))); [done|by exists ty|by eapply obj_id]|].
  intros ParDir st2 Hw2 Hd. pose proof (walks_winv _ _ _ _ _ Hw2) as Hi2.
  destruct ns as [|n ns]; [apply wp_ret; [done|]; eexists; split; [constructor|done]|].
  assert (Hz : zlen (join_path (n :: ns)) <> 0).
  { apply Forall_cons in Hp as [Hn _]. pose proof (join_path_length n ns Hn). unfold zlen. lia. }
  rewrite (proj2 (Z.eqb_neq _ _) Hz).
  apply (walk_loop_ok (n :: ns) _ [] _ _ _); [done|done|done|done|lia].
Qed.
End Walk.
