(* ===== verification/TreeServer.v ===== *)
(** * A server of names and the name functions of dos.library

    Instances that show that the interfaces of names can be kept: a server with
    a fixed tree, directory 2 with the directory "dir" (3), which has the file
    "f" (4), which tells one entry of a directory at a time, and functions that do to names what those of dos.library do. *)
From S2P Require Import Prelude NfsProt NfsSupp Nfs NfsLookup Global Fn FnThm Walk HState WalkSpec.

(** ** Names *)

Definition is_sep (c : byte) : bool := bool_decide (c = slash) || bool_decide (c = colon).

(** What follows the last separator. *)
Fixpoint file_part (s : list byte) : list byte :=
  match s with
  | [] => []
  | c :: s => if existsb is_sep s then file_part s else if is_sep c then s else c :: s
  end.

#[export] Instance simple_names : DosNames := {
  AddPart d n l :=
    let p := if existsb (fun c => bool_decide (c = colon)) n || bool_decide (d = []) then n
             else if bool_decide (n = []) then d
             else if default false (is_sep <$> last d) then d ++ n else d ++ slash :: n in
    if zlen p + 1 <=? l then Some p else None;
  FilePart s := zlen s - zlen (file_part s);
  PathPart s :=
    let p := take (length s - length (file_part s)) s in
    zlen p - (if bool_decide (last p = Some slash) then 1 else 0)
}.

Lemma existsb_none (f : byte -> bool) n : (forall c, c ∈ n -> f c = false) -> existsb f n = false.
Proof.
  intros Hf. apply not_true_iff_false. rewrite existsb_exists. intros (c & Hin & Hc).
  rewrite Hf in Hc; [done|]. by apply list_elem_of_In.
Qed.

Lemma amiga_sep n : amiga n -> existsb is_sep n = false.
Proof.
  intros [((Hs & _) & _) Hc]. apply existsb_none. intros c Hin. unfold is_sep.
  apply orb_false_iff; split; apply bool_decide_eq_false; intros ->; done.
Qed.

Lemma file_part_sep pre n : amiga n -> file_part (pre ++ slash :: n) = n.
Proof.
  intros Hn. pose proof (amiga_sep n Hn) as Hs. induction pre as [|c pre IH]; simpl; [by rewrite Hs|].
  assert (existsb is_sep (pre ++ slash :: n) = true) as ->; [|done].
  apply existsb_exists. exists slash. split; [|done]. apply list_elem_of_In. set_solver.
Qed.

Lemma file_part_name n : amiga n -> file_part n = n.
Proof.
  intros Hn. pose proof (amiga_sep n Hn) as Hs. destruct n as [|c n]; [done|]. simpl in *.
  apply orb_false_iff in Hs as [-> ->]. done.
Qed.

Lemma join_app ms ns : Forall plain ms -> ms <> [] -> ns <> [] ->
  join_path (ms ++ ns) = join_path ms ++ slash :: join_path ns.
Proof.
  induction ms as [|m ms IH]; [done|]. intros [_ Hm]%Forall_cons _ Hn.
  destruct ms as [|m2 ms]; [by destruct ns|].
  change ((m :: m2 :: ms) ++ ns) with (m :: (m2 :: ms) ++ ns). cbn [join_path].
  change ((m2 :: ms) ++ ns) with (m2 :: ms ++ ns) in *. rewrite IH by done. by rewrite <-app_assoc.
Qed.

Lemma join_nonempty n ns : plain n -> join_path (n :: ns) <> [].
Proof. intros (_ & Hne & _). destruct n as [|c n]; [done|]. by destruct ns. Qed.

Lemma join_last_sep ms : Forall amiga ms -> default false (is_sep <$> last (join_path ms)) = false.
Proof.
  intros Hm. induction ms as [|n ms _] using rev_ind; [done|].
  apply Forall_app in Hm as [_ Hn]. apply Forall_cons in Hn as [Hn _].
  assert (exists pre, join_path (ms ++ [n]) = pre ++ n) as [pre ->].
  { rewrite join_last. destruct ms; [by exists []|]. eexists (_ ++ [slash]). by rewrite <-app_assoc. }
  pose proof (amiga_sep n Hn) as Hs. destruct Hn as [(_ & Hne & _) _].
  rewrite last_app. destruct (last n) as [c|] eqn:El; [|by apply last_None in El]. simpl.
  apply not_true_iff_false. intros Hc. apply not_true_iff_false in Hs. apply Hs. apply existsb_exists. exists c.
  split; [|done]. apply list_elem_of_In. by apply last_Some_elem_of.
Qed.

#[export] Instance simple_laws : DosNamesLaws.
Proof.
  constructor.
  - intros ms ns l Hm Hn Hl. simpl.
    rewrite existsb_none by (intros c Hc; apply bool_decide_eq_false; intros ->; by apply (join_colon ns)).
    destruct ms as [|m ms].
    { simpl in *. change (zlen []) with 0 in Hl. rewrite (proj2 (Z.leb_le _ _)); [done|lia]. }
    rewrite (bool_decide_eq_false_2 (join_path (m :: ms) = [])).
    2:{ apply join_nonempty. by apply Forall_cons in Hm as [[? _] _]. }
    simpl orb. cbv iota. destruct ns as [|n ns].
    { rewrite bool_decide_eq_true_2, app_nil_r by done. rewrite (proj2 (Z.leb_le _ _)); [done|]. change (zlen (join_path [])) with 0 in Hl. lia. }
    rewrite bool_decide_eq_false_2.
    2:{ apply join_nonempty. by apply Forall_cons in Hn as [[? _] _]. }
    rewrite join_last_sep by done. rewrite join_app by (done || by apply amiga_plain).
    rewrite (proj2 (Z.leb_le _ _)); [done|]. rewrite zlen_app, zlen_cons. lia.
  - intros ns n Ha. simpl. apply Forall_app in Ha as [_ Hn]. apply Forall_cons in Hn as [Hn _].
    rewrite join_last. destruct ns as [|m ns]; [by rewrite file_part_name|by rewrite file_part_sep].
  - intros ns n Ha. simpl. apply Forall_app in Ha as [_ Hn]. apply Forall_cons in Hn as [Hn _].
    rewrite join_last. destruct ns as [|m ns]; [by rewrite file_part_name, Nat.sub_diag|]. rewrite file_part_sep by done.
    replace (length _ - length n)%nat with (length (join_path (m :: ns) ++ [slash]))
      by (rewrite !length_app; simpl; lia).
    replace (join_path (m :: ns) ++ slash :: n) with ((join_path (m :: ns) ++ [slash]) ++ n) by (by rewrite <-app_assoc).
    rewrite take_app_length, last_snoc, bool_decide_eq_true_2, zlen_app by done. change (zlen [slash]) with 1. lia.
Qed.

(** ** The server *)

Inductive treeserver := Tree.

Definition tree_objects : list (nfs_fh * Z * Z) := [([x02], 2, NFDIR); ([x03], 3, NFDIR); ([x04], 4, NFREG)].
Definition tree_names : list (Z * filename * Z * Z) :=
  [(2, [x64; x69; x72], 3, NFDIR); (3, [x66], 4, NFREG)].

(** The entries of a directory, each with the cookie that leads behind it. *)
Definition tree_listing (id : Z) : list entry :=
  match id with
  | 2 => [Entry 2 [dot] [x00; x00; x00; x01]; Entry 2 [dot; dot] [x00; x00; x00; x02];
          Entry 3 [x64; x69; x72] [x00; x00; x00; x03]]
  | 3 => [Entry 3 [dot] [x00; x00; x00; x01]; Entry 2 [dot; dot] [x00; x00; x00; x02];
          Entry 4 [x66] [x00; x00; x00; x03]]
  | _ => []
  end.
Definition cookie_pos (c : nfscookie) : nat := Z.to_nat (Z_of_byte (default x00 (last c))).

Lemma tree_listing_at id k e : tree_listing id !! k = Some e ->
  cookie_pos (e_cookie e) = Datatypes.S k /\ (k < 3)%nat /\ zlen (e_name e) < 255.
Proof.
  unfold tree_listing. repeat case_match; try done;
    (destruct k as [|[|[|k]]]; intros Hk; try done; injection Hk as <-; (split; [done|split; [lia|done]])).
Qed.
Lemma head_drop_lookup {A} (l : list A) k : head (drop k l) = l !! k.
Proof. revert k. induction l as [|x l IH]; intros [|k]; simpl; done. Qed.

Definition tree_attr (id ty : Z) : fattr :=
  FAttr ty 0x1ff 1 0 0 0 512 0 0 0 id (NfsTime 0 0) (NfsTime 0 0) (NfsTime 0 0).
Definition tree_id (fh : nfs_fh) : option (Z * Z) :=
  '(_, id, ty) ← head (filter (fun x => x.1.1 = fh) tree_objects); Some (id, ty).
Definition tree_child (d : Z) (n : filename) : option (Z * Z) :=
  '(_, _, id, ty) ← head (filter (fun x => x.1.1.1 = d /\ x.1.1.2 = n) tree_names); Some (id, ty).

#[export] Instance tree_rpc : NfsRpc treeserver := {
  nfsproc_getattr_2 fh s :=
    (inr match tree_id fh with Some (id, ty) => NfsOk (tree_attr id ty) | None => NfsErr NFSERR_STALE end, s);
  nfsproc_setattr_2 a s := (inr (NfsErr NFSERR_ROFS), s);
  nfsproc_lookup_2 a s :=
    (inr match tree_id (da_dir a) with
         | Some (d, _) =>
             match tree_child d (da_name a) with
             | Some (id, ty) => NfsOk (DirOpOkRes [byte_of_Z id] (tree_attr id ty))
             | None => NfsErr NFSERR_NOENT
             end
         | None => NfsErr NFSERR_STALE
         end, s);
  nfsproc_readlink_2 fh s := (inr (NfsErr NFSERR_STALE), s);
  nfsproc_read_buf a s := (inr (NfsErr NFSERR_STALE), s);
  nfsproc_write_2 a s := (inr (NfsErr NFSERR_ROFS), s);
  nfsproc_create_2 a s := (inr (NfsErr NFSERR_ROFS), s);
  nfsproc_remove_2 a s := (inr NFSERR_ROFS, s);
  nfsproc_rename_2 a s := (inr NFSERR_ROFS, s);
  nfsproc_link_2 a s := (inr NFSERR_ROFS, s);
  nfsproc_symlink_2 a s := (inr NFSERR_ROFS, s);
  nfsproc_mkdir_2 a s := (inr (NfsErr NFSERR_ROFS), s);
  nfsproc_rmdir_2 a s := (inr NFSERR_ROFS, s);
  nfsproc_readdir_2 a s :=
    (inr match tree_id (rda_dir a) with
         | Some (id, _) =>
             let l := drop (cookie_pos (rda_cookie a)) (tree_listing id) in
             NfsOk (DirList (take 1 l) (bool_decide (length l <= 1)%nat))
         | None => NfsErr NFSERR_STALE
         end, s);
  nfsproc_statfs_2 fh s := (inr (NfsErr NFSERR_STALE), s);
  nfsproc_send_writesb_2 a s := (None, s);
  nfsproc_wait_write_2 s := (inr (NfsErr NFSERR_ROFS), s);
  clnt_abort s := s;
  clnt_set_timeout _ s := s;
  clnt_get_timeout _ := 0;
  clnt_set_retry_timeout _ s := s;
  junk_u_int := 0
}.

#[export] Program Instance tree_server : NfsNameServer treeserver := {
  obj fh id ty := (fh, id, ty) ∈ tree_objects;
  child d n id ty := (d, n, id, ty) ∈ tree_names;
  batches _ c := (3 - cookie_pos c)%nat;
  quiet := eq
}.

(** Case analysis on the objects and names there are. *)
Ltac tree_cases :=
  intros; cbv beta in *;
  repeat match goal with
  | H : _ ∈ tree_objects |- _ => unfold tree_objects in H
  | H : _ ∈ tree_names |- _ => unfold tree_names in H
  | H : _ ∈ _ :: _ |- _ => apply elem_of_cons in H as [H|H]
  | H : _ ∈ [] |- _ => by apply elem_of_nil in H
  | H : (_, _, _) = (_, _, _) |- _ => injection H as ?; subst
  end.
Next Obligation. by intros fh [] r []. Qed.
Next Obligation. by intros a [] r []. Qed.
Next Obligation. by intros a [] r []. Qed.
Next Obligation. tree_cases; lia. Qed.
Next Obligation. tree_cases; lia. Qed.
Next Obligation. tree_cases; done. Qed.
Next Obligation. tree_cases; done. Qed.
Next Obligation.
  intros fh s attr s' id ty Hg Ho. cbn in Hg. tree_cases; vm_compute in Hg; simplify_eq; by split.
Qed.
Next Obligation.
  intros d n s res s' id ty Hl Ho. cbn -[tree_child tree_id] in Hl.
  assert (Hid : tree_id d = Some (id, ty)) by (tree_cases; done). rewrite Hid in Hl.
  destruct (tree_child id n) as [[id' ty']|] eqn:Ec; [|done]. simplify_eq. simpl.
  unfold tree_child in Ec. destruct (head _) as [x|] eqn:Eh; [|done]. destruct x as [[[d2 n2] id2] ty2].
  simpl in Ec. injection Ec as -> ->.
  assert (Hin : (d2, n2, id', ty') ∈ filter (fun x => x.1.1.1 = id /\ x.1.1.2 = n) tree_names).
  { destruct (filter _ tree_names); [done|]. injection Eh as ->. left. }
  apply list_elem_of_filter in Hin as [[Hd Hn] Hin]. simpl in Hd, Hn. subst. split; [done|].
  tree_cases; vm_compute; set_solver.
Qed.
Next Obligation.
  intros d c cnt s dl s' Hr. cbn -[tree_id tree_listing cookie_pos take drop bool_decide] in Hr.
  destruct (tree_id d) as [[id ty]|]; [|done]. apply (f_equal fst) in Hr. injection Hr as <-. simpl dl_entries.
  pose proof (tree_listing_at id (cookie_pos c)) as Hat. rewrite <-(head_drop_lookup _ (cookie_pos c)) in Hat.
  destruct (drop _ _) as [|e l]; [split; [constructor|done]|]. destruct (Hat e eq_refl) as (Hp & Hk & Hn).
  split; [by constructor|]. intros _ e' [= <-]. lia.
Qed.
