(* ===== verification/LockThm.v ===== *)
(** * Theorems about locks

    What locating an object gives.  The result of the walk, the names of the
    lock and the list of locks, for paths of names that need no change. *)
From S2P Require Import Prelude NfsProt NfsSupp Nfs NfsLookup Global FtHash FtHashSpec DCache DCacheThm.
From S2P Require Import CacheSafe MBuf FileHandle HState Fn FnThm Walk WalkSpec WalkThm TreeServer.

(** ** Steps that need no reasoning about the state *)

Section Steps.
Context {S : Type}.
Implicit Types (st : HState S).

Lemma wp_some {A B} (o : option A) x (f : A -> M S B) st Q :
  o = Some x -> wp (f x) st Q -> wp (of_option o ≫= f) st Q.
Proof. by intros ->. Qed.
Lemma wp_gets {A B} (g : HState S -> A) (f : A -> M S B) st Q : wp (f (g st)) st Q -> wp (gets g ≫= f) st Q.
Proof. done. Qed.
Lemma wp_pure {A B} (x : A) (f : A -> M S B) st Q : wp (f x) st Q -> wp (mret x ≫= f) st Q.
Proof. done. Qed.
End Steps.

Lemma find_lock_in l a e : find_lock l a = Some e -> (a, e) ∈ l.
Proof.
  induction l as [|[b x] l IH]; [done|]. simpl. case_bool_decide as Hb; [|intros Hf; right; by apply IH].
  intros [= ->]. subst. by left.
Qed.
Lemma find_lock_NoDup l a e : NoDup l.*1 -> (a, e) ∈ l -> find_lock l a = Some e.
Proof.
  induction l as [|[b x] l IH]; [by intros _ ?%elem_of_nil|]. simpl. intros [Hb Hn]%NoDup_cons [[= -> ->]|Hin]%elem_of_cons.
  - by rewrite bool_decide_eq_true_2.
  - rewrite bool_decide_eq_false_2; [by apply IH|]. intros ->. apply Hb. apply list_elem_of_fmap. by exists (a, e).
Qed.
Lemma find_fl_Key_in l k a e : find_fl_Key l k = Some (a, e) -> (a, e) ∈ l /\ fl_Key e = k.
Proof.
  induction l as [|[b x] l IH]; [done|]. simpl. destruct (Z.eqb_spec k (fl_Key x)) as [->|Hk].
  - intros [= -> ->]. split; [by left|done].
  - intros Hf. destruct (IH Hf). split; [by right|done].
Qed.
Lemma find_fl_Key_None l k : find_fl_Key l k = None -> forall a e, (a, e) ∈ l -> fl_Key e <> k.
Proof.
  induction l as [|[b x] l IH]; [by intros _ ?? ?%elem_of_nil|]. simpl. destruct (Z.eqb_spec k (fl_Key x)) as [->|Hk]; [done|].
  intros Hf a e [[= -> ->]|Hin]%elem_of_cons; [congruence|by eapply IH].
Qed.

Section Locks.
Context {S : Type} `{NS : NfsNameServer S} `{DL : DosNamesLaws} (E : Env) (cfg : Config).
Context (t0 Ta Td : Z) `{WT : !WalkTime E t0 Ta Td}.
Implicit Types (st : HState S).

Abbreviation winv := (winv Ta Td).
Abbreviation walks := (walks t0 Ta Td).
Abbreviation post := (post t0 Ta Td).
Abbreviation ace_at := (ace_at t0 Ta).
Abbreviation dir_at := (dir_at t0 Td).

Definition root_id : Z := fa_fileid (g_MntAttr cfg).

(** The names of the directory that a path is relative to. *)
Definition relative_to st (fl : option addr) (ms : list filename) : Prop :=
  match fl with
  | None => ms = []
  | Some a => exists e, find_lock (hs_Locks st) a = Some e /\
        efl_FullName e = join_path ms /\ efl_FullNameLen e = zlen (join_path ms) /\ Forall amiga ms
  end.

Definition full_path (ns : list filename) (f : FullPath) : Prop :=
  fp_FullName f = join_path ns /\ fp_FullNameLen f = zlen (join_path ns) /\
  fp_Name f = default [] (last ns) /\ fp_NameLen f = zlen (default [] (last ns)) /\ fp_NameLen f <= 106.

Lemma am2un_ok ok s : exists r, fn_AM2UN ok s = Some r /\ (r = None -> ok = false).
Proof.
  unfold fn_AM2UN. destruct ok; [|by exists None].
  assert (Hl : zlen (am2un_copy s) <= zlen s + am2un_extra s).
  { induction s as [|c s IH]; [done|]. cbn [am2un_copy am2un_extra].
    rewrite !zlen_cons, zlen_app. destruct (_ && _); rewrite ?zlen_nil; [change (zlen [dot; dot]) with 2|]; lia. }
  destruct (Z.leb_spec (zlen (am2un_copy s) + 1) (zlen s + 1 + am2un_extra s)); [|lia]. by eexists.
Qed.

Lemma unify_name_ok st ms ns : winv st -> Forall amiga ms -> Forall amiga ns ->
  wp (unify_name E (join_path ms) (zlen (join_path ms)) (join_path ns)) st
  (post st (fun r st' => let '(u, FullName, Name, LocalRes2) := r in
            (forall p, FullName = Some p -> p = join_path (ms ++ ns)) /\
            (forall n, Name = Some n -> n = (default [] (last (ms ++ ns)), zlen (default [] (last (ms ++ ns))))))).
Proof.
  intros Hi Hm Hn. assert (Ha : Forall amiga (ms ++ ns)) by (by apply Forall_app).
  unfold unify_name. eapply wp_seq; [by apply wp_mem_ok|]. intros ok st1 Hw1 _.
  pose proof (walks_winv _ _ _ _ _ Hw1) as Hi1. unfold fn_AddPart.
  rewrite (proj2 (Z.eqb_neq _ (-1))) by (pose proof (zlen_nonneg (join_path ms)); lia).
  rewrite Z.eqb_refl. simpl negb.
  eapply wp_some.
  { instantiate (1 := if ok then Some (join_path (ms ++ ns), zlen (join_path (ms ++ ns))) else None).
    destruct ok; [|done]. simpl. rewrite AddPart_law; [done|done|done|lia]. }
  eapply (wp_seq _ _ _ _ _ _ (fun r st' => let '(u, FullName, LocalRes2) := r in
                              forall p, FullName = Some p -> p = join_path (ms ++ ns))).
  { destruct ok; [|by apply wp_ret]. eapply wp_seq; [by apply wp_mem_ok|]. intros ok2 st2 Hw2 _.
    pose proof (walks_winv _ _ _ _ _ Hw2) as Hi2.
    destruct (fn_PathUnify_plain (ms ++ ns) (amiga_plain _ Ha)) as [Str Hu].
    eapply (wp_some _ (if ok2 then inr (join_path (ms ++ ns), Str) else inl (if bool_decide (at0 (join_path (ms ++ ns)) = slash) then ERROR_OBJECT_NOT_FOUND else ERROR_NO_FREE_STORE))).
    { destruct ok2; [done|]. unfold fn_PathUnify in *. destruct (_ || _) eqn:Eb; [done|].
      apply orb_false_iff in Eb as [-> _]. done. }
    destruct ok2; [|by apply wp_ret]. destruct Str; [|by apply wp_ret; [|congruence]].
    eapply wp_seq; [by apply wp_mem_ok|]. intros ok3 st3 Hw3 _.
    destruct (am2un_ok ok3 (join_path (ms ++ ns))) as (r & Hr & _). eapply wp_some; [exact Hr|].
    apply wp_ret; [by eapply walks_winv|congruence]. }
  intros [[u FullName] LocalRes2] st2 Hw2 HF. pose proof (walks_winv _ _ _ _ _ Hw2) as Hi2.
  eapply (wp_seq _ _ _ _ _ _ (fun Name st' => forall n, Name = Some n ->
                              n = (default [] (last (ms ++ ns)), zlen (default [] (last (ms ++ ns)))))).
  { destruct FullName as [p|]; [|by apply wp_ret]. rewrite (HF p eq_refl).
    eapply wp_seq; [by apply wp_mem_ok|]. intros ok1 st3 Hw3 _.
    eapply wp_seq; [apply wp_mem_ok; by eapply walks_winv|]. intros ok2 st4 Hw4 _.
    rewrite fn_FilePart_ok by done. split; [apply walks_refl; by eapply walks_winv|]. by destruct ok1; intros ? [= <-]. }
  intros Name st3 Hw3 HN. apply wp_ret; [by eapply walks_winv|]. by split.
Qed.

(** The name of a path relative to a lock. *)
Lemma CBuildFullName_ok st fl ms ns : winv st -> relative_to st fl ms -> Forall amiga ns ->
  wp (CBuildFullName E cfg fl (join_path ns)) st (post st (fun f _ => full_path (ms ++ ns) f)).
Proof.
  intros Hi Hrel Hn. assert (Hm : Forall amiga ms) by (destruct fl; [by destruct Hrel as (? & ? & ? & ? & ?)|by rewrite Hrel]).
  unfold CBuildFullName.
  eapply (wp_seq _ _ _ _ _ _ (fun r st' => r = (join_path ms, zlen (join_path ms)) /\ st' = st)).
  { destruct fl as [a|]; [|rewrite Hrel; apply wp_ret; [done|by split]]. destruct Hrel as (e & He & <- & <- & _).
    unfold lock_Lookup. apply wp_gets. simpl. rewrite He. simpl. by apply wp_ret. }
  intros ? ? _ [-> ->]. eapply wp_seq; [by apply wp_mem_ok|]. intros ok st1 Hw1 _.
  pose proof (walks_winv _ _ _ _ _ Hw1) as Hi1.
  unfold fn_PathWithoutDev. rewrite after_colon_None by (by apply join_colon).
  destruct ok; [|by apply wp_fail]. unfold old_name. simpl andb.
  eapply wp_seq; [by apply wp_mem_ok|]. intros ok2 st2 Hw2 _. pose proof (walks_winv _ _ _ _ _ Hw2) as Hi2.
  destruct (am2un_ok ok2 (join_path ns)) as (u_path & Hu & _). eapply wp_some; [exact Hu|].
  eapply (wp_seq _ _ _ _ _ _ (fun r _ => let '(u, FullName, Name, LocalRes2) := r in
                              (forall p, FullName = Some p -> p = join_path (ms ++ ns)) /\
                              (forall n, Name = Some n -> n = (default [] (last (ms ++ ns)), zlen (default [] (last (ms ++ ns))))))).
  { destruct u_path; [by apply unify_name_ok|by apply wp_ret]. }
  intros [[[u FullName] Name] LocalRes2] st3 Hw3 [HF HN]. pose proof (walks_winv _ _ _ _ _ Hw3) as Hi3.
  assert (Hfail : forall e, wp (fail e) st3 (post st3 (fun f _ => full_path (ms ++ ns) f))) by (intros; by apply wp_fail).
  destruct Name as [[n NameLen]|]; [|destruct u, FullName; apply Hfail].
  assert (Hmax : NameLen >? MAX_LONGAMIGAFILENAMELEN = false -> NameLen <= 106).
  { unfold MAX_LONGAMIGAFILENAMELEN. intros Hb. zbool. lia. }
  destruct (NameLen >? MAX_LONGAMIGAFILENAMELEN); [destruct u, FullName; apply Hfail|]. specialize (Hmax eq_refl).
  destruct u; [|destruct FullName; apply Hfail]. destruct FullName as [p|]; [|apply Hfail].
  apply wp_ret; [done|]. specialize (HF p eq_refl). specialize (HN _ eq_refl). simplify_eq. by split.
Qed.

(** ** New locks *)

(** The new lock: its address is that of no other lock, its names are those of
    the path. *)
Definition new_names (ns : list filename) (Mode : Z) (ae : addr * ELOCK) st : Prop :=
  ae.1 ∉ (hs_Locks st).*1 /\ efl_FullName ae.2 = join_path ns /\ efl_FullNameLen ae.2 = zlen (join_path ns) /\
  efl_Name ae.2 = default [] (last ns) /\ efl_NameLen ae.2 = zlen (default [] (last ns)) /\ fl_Access ae.2 = Mode.

Lemma lock_Create_ok st f ns type Mode : winv st -> full_path ns f ->
  wp (lock_Create E (fp_FullName f) (fp_FullNameLen f) (fp_Name f) (fp_NameLen f) type Mode) st
  (post st (fun r st' => match r with Some ae => new_names ns Mode ae st' | None => True end)).
Proof.
  intros Hi (H1 & H2 & H3 & H4 & _). unfold lock_Create.
  apply wp_bind. destruct (AllocVec E st) as [[[e|a] st1]|] eqn:Ea; [done| |done].
  pose proof (AllocVec_fresh _ _ _ _ Ea) as [-> Hf]. unfold wp at 1. rewrite Ea.
  assert (Hw0 : walks st (tick st)) by (by apply walks_tick).
  assert (Hmono : forall A (m : M S A) (R : A -> HState S -> Prop), wp m (tick st) (post (tick st) R) -> wp m (tick st) (post st R)).
  { intros A m R Hm. eapply wp_mono; [exact Hm|]. intros r st' [Hw Hr]. split; [by eapply walks_trans|done]. }
  apply Hmono. assert (Hi1 : winv (tick st)) by done.
  destruct a as [a|]; [|by apply wp_ret]. destruct (Hf a eq_refl) as (_ & _ & Hal & _).
  eapply wp_seq; [by apply wp_mem_ok|]. intros ok1 st2 Hw2 _. pose proof (walks_winv _ _ _ _ _ Hw2) as Hi2.
  eapply wp_some; [rewrite H2, H1; apply StrNDup_all|].
  eapply wp_seq; [by apply wp_mem_ok|]. intros ok2 st3 Hw3 _. pose proof (walks_winv _ _ _ _ _ Hw3) as Hi3.
  eapply wp_some; [rewrite H4, H3; apply StrNDup_all|].
  apply wp_ret; [done|]. destruct ok1, ok2; try done. unfold new_names. simpl.
  rewrite (wk_Locks _ _ _ _ _ Hw3), (wk_Locks _ _ _ _ _ Hw2). split; [done|]. by rewrite H2, H4.
Qed.

(** A lock may be given for a key: there is none yet, or both are shared. *)
Definition grantable st (Key Mode : Z) : Prop :=
  forall a o, find_fl_Key (hs_Locks st) Key = Some (a, o) -> fl_Access o = SHARED_LOCK /\ Mode = SHARED_LOCK.

Lemma DupELock_ok st o f ns Mode : winv st -> full_path ns f ->
  wp (DupELock E cfg o (fp_Name f) (fp_FullName f) Mode) st
  (post st (fun ae st' => new_names ns Mode ae st' /\ Mode = SHARED_LOCK /\
            (forall x, o = Some x -> fl_Access x = SHARED_LOCK))).
Proof.
  intros Hi Hf. unfold DupELock.
  destruct (_ || negb (Mode =? SHARED_LOCK)) eqn:Eb; [by apply wp_fail|]. apply orb_false_iff in Eb as [Eo Em].
  apply negb_false_iff, Z.eqb_eq in Em. pose proof Hf as (H1 & H2 & H3 & H4 & H5).
  replace (zlen (fp_FullName f)) with (fp_FullNameLen f) by congruence.
  replace (zlen (fp_Name f)) with (fp_NameLen f) by congruence.
  eapply wp_seq; [by apply lock_Create_ok|]. intros r st1 Hw1 Hr. pose proof (walks_winv _ _ _ _ _ Hw1) as Hi1.
  destruct r as [[a e]|]; [|by apply wp_fail]. destruct o as [x|].
  - apply wp_ret; [done|]. split; [done|]. split; [done|]. intros ? [= <-]. by apply negb_false_iff, Z.eqb_eq in Eo.
  - apply wp_ret; [done|]. by split.
Qed.

(** The object that the names lead to. *)
Definition object (ns : list filename) (id ty : Z) : Prop :=
  match last ns with
  | None => id = root_id /\ obj (g_MntFh cfg) id ty
  | Some n => exists d, reach root_id (removelast ns) d /\ named d n id ty
  end.

(** The lock that is given for the names [ns]. *)
Definition granted (ns : list filename) (Mode : Z) (ae : addr * ELOCK) st : Prop :=
  new_names ns Mode ae st /\ object ns (fl_Key ae.2) (efl_NFSType ae.2) /\
  obj (efl_NFSFh ae.2) (fl_Key ae.2) (efl_NFSType ae.2) /\
  if bool_decide (ns = []) then Mode = SHARED_LOCK
  else grantable st (fl_Key ae.2) Mode /\ (find_fl_Key (hs_Locks st) (fl_Key ae.2) = None -> efl_NFSType ae.2 <> NFLNK).

Lemma grantable_eq st st' k Mode : hs_Locks st' = hs_Locks st -> grantable st k Mode -> grantable st' k Mode.
Proof. unfold grantable. by intros ->. Qed.

Lemma new_lock_ok st f ns ace Mode ty : winv st -> full_path ns f -> ns <> [] -> attr_ok ace ->
  object ns (ace_FileId ace) ty -> ty = fa_type (ace_FAttr ace) ->
  wp (new_lock E cfg f ace Mode) st (post st (granted ns Mode)).
Proof.
  intros Hi Hf Hne [Hid Ho] Hobj ->. unfold new_lock. unfold lock_LookupFromKey. apply wp_gets.
  eapply (wp_seq _ _ _ _ _ _ (fun ae st' => new_names ns Mode ae st' /\
                              grantable st' (fa_fileid (ace_FAttr ace)) Mode /\
                              (find_fl_Key (hs_Locks st') (fa_fileid (ace_FAttr ace)) = None -> fa_type (ace_FAttr ace) <> NFLNK))).
  { destruct (find_fl_Key (hs_Locks st) _) as [[b o]|] eqn:Ek.
    - eapply wp_mono; [by apply DupELock_ok|]. intros r st1 [Hw Hr]. split; [done|]. destruct r as [e|ae]; [done|].
      destruct Hr as (Hn & Hm & Hx). split; [done|]. unfold grantable. rewrite (wk_Locks _ _ _ _ _ Hw), Ek.
      split; [|done]. intros ? ? [= <- <-]. split; [by apply Hx|done].
    - destruct (Z.eqb_spec (fa_type (ace_FAttr ace)) NFLNK); [by apply wp_fail|].
      eapply wp_seq; [by apply lock_Create_ok|]. intros r st1 Hw1 Hr. pose proof (walks_winv _ _ _ _ _ Hw1) as Hi1.
      destruct r as [ae|]; [|by apply wp_fail]. apply wp_ret; [done|]. split; [done|].
      unfold grantable. by rewrite (wk_Locks _ _ _ _ _ Hw1), Ek. }
  intros [a e] st1 Hw1 (Hn & Hg & Hl). apply wp_ret; [by eapply walks_winv|].
  unfold granted. simpl. rewrite Hid in *. rewrite bool_decide_eq_false_2 by done. by split.
Qed.

Lemma root_lock_ok st f Mode : winv st -> root_ok cfg -> full_path [] f ->
  wp (root_lock E cfg f Mode) st (post st (granted [] Mode)).
Proof.
  intros Hi [ty Ho] Hf. pose proof (obj_id _ _ _ Ho) as Hrid. unfold root_lock.
  eapply wp_seq; [by apply DupELock_ok|]. intros [a e] st1 Hw1 (Hn & Hm & _).
  pose proof (walks_winv _ _ _ _ _ Hw1) as Hi1.
  eapply wp_seq; [apply attr_lookup_ok; [apply _|done|lia]|]. intros ACEnt st2 Hw2 [_ Hr].
  pose proof (walks_winv _ _ _ _ _ Hw2) as Hi2.
  eapply (wp_seq _ _ _ _ _ _ (fun attr st' => fa_fileid attr = root_id /\ fa_type attr = ty)).
  { destruct ACEnt as [b|].
    - eapply wp_seq; [by eapply ac_get_ok|]. intros ace ? _ (-> & Hae & Hid & Hobj). apply wp_ret; [done|].
      rewrite Hae in *. split; [done|]. by eapply obj_type.
    - eapply rpc_call_ok; [done|]. intros s attr s' Hg. by eapply nfs_GetAttr_ok. }
  intros attr st3 Hw3 [Hid Hty]. apply wp_ret; [by eapply walks_winv|].
  unfold granted, new_names in *. simpl in *. rewrite Hid, Hty.
  rewrite (wk_Locks _ _ _ _ _ Hw3), (wk_Locks _ _ _ _ _ Hw2). destruct Hn as (? & ? & ? & ? & ? & ?).
  split; [done|]. unfold object. simpl. by split.
Qed.

(** Locating and locking: nothing but a new lock in front of the others. *)
Definition locked (ns : list filename) (Mode : Z) st (r : Z + addr) st' : Prop :=
  exists st1, walks st st1 /\
    match r with
    | inl _ => st' = st1
    | inr a => exists e, st' = set_Locks ((a, e) :: hs_Locks st) st1 /\ granted ns Mode (a, e) st1
    end.

Lemma RootLocateAndLock_ok st fl ms ns Mode : winv st -> root_ok cfg -> relative_to st fl ms -> Forall amiga ns ->
  wp (RootLocateAndLock E cfg fl (join_path ns) Mode) st (locked (ms ++ ns) Mode st).
Proof.
  intros Hi Hroot Hrel Hn. unfold RootLocateAndLock.
  assert (Hm : Forall amiga ms) by (destruct fl; [by destruct Hrel as (? & ? & ? & ? & ?)|by rewrite Hrel]).
  assert (Hall : Forall plain (ms ++ ns)) by (by apply amiga_plain, Forall_app).
  destruct (negb _); [exists st; by split; [apply walks_refl|]|].
  set (prog := f ← CBuildFullName E cfg fl (join_path ns);
       ParDir ← RootLocateDir E cfg (fp_FullName f) (fp_FullNameLen f);
       (if fp_FullNameLen f =? 0 then root_lock E cfg f Mode
        else ('(_, ACE) ← GetNameEntry E ParDir (fp_Name f); ace ← ac_get ACE; new_lock E cfg f ace Mode))).
  assert (Hnew : wp prog st (post st (granted (ms ++ ns) Mode))).
  { eapply wp_seq; [by apply CBuildFullName_ok|]. intros f st1 Hw1 Hf. pose proof (walks_winv _ _ _ _ _ Hw1) as Hi1.
    pose proof Hf as (H1 & H2 & H3 & H4 & H5). rewrite H1, H2.
    eapply wp_seq; [by apply RootLocateDir_ok|]. intros ParDir st2 Hw2 (d & Hr & Hd).
    pose proof (walks_winv _ _ _ _ _ Hw2) as Hi2.
    destruct (decide (ms ++ ns = [])) as [Hnil|Hnil].
    { rewrite Hnil in *. by apply root_lock_ok. }
    destruct (last (ms ++ ns)) as [n|] eqn:El; [|by apply last_None in El].
    assert (Hz : zlen (join_path (ms ++ ns)) <> 0).
    { destruct (ms ++ ns) as [|m l]; [done|]. apply Forall_cons in Hall as [Hp _].
      pose proof (join_path_length m l Hp). unfold zlen. lia. }
    rewrite (proj2 (Z.eqb_neq _ _) Hz), H3. simpl default.
    eapply wp_seq; [by apply GetNameEntry_ok|]. intros [p a] st3 Hw3 [_ (id & ty & Hne & Ha)]. simpl in Hne, Ha.
    pose proof (walks_winv _ _ _ _ _ Hw3) as Hi3. assert (Hnm : named d n id ty) by (by eapply ne_at_named).
    eapply wp_seq; [by eapply ac_get_ok|]. intros ace ? _ (-> & <- & Hace).
    eapply (new_lock_ok _ _ _ _ _ ty); [done|done|done|done| |].
    - unfold object. rewrite El. by exists d.
    - destruct Hace as [_ Ho]. destruct Hnm as (n' & _ & Hc). by eapply child_type. }
  assert (Heq : forall Q, wp (newelock ← prog; _ ← lock_Insert newelock; mret newelock.1) st Q ->
          wp (f ← CBuildFullName E cfg fl (join_path ns);
              ParDir ← RootLocateDir E cfg (fp_FullName f) (fp_FullNameLen f);
              newelock ← (if fp_FullNameLen f =? 0 then root_lock E cfg f Mode
                          else ('(_, ACE) ← GetNameEntry E ParDir (fp_Name f); ace ← ac_get ACE; new_lock E cfg f ace Mode));
              _ ← lock_Insert newelock; mret newelock.1) st Q).
  { intros Q. unfold wp, prog. rewrite !M_bind_eq.
    destruct (CBuildFullName _ _ _ _ _) as [[[e|f] st1]|]; [done| |done]. rewrite !M_bind_eq.
    by destruct (RootLocateDir _ _ _ _ _) as [[[e|d] st2]|]. }
  apply Heq, wp_bind. eapply wp_mono; [exact Hnew|]. intros [e|[a e]] st1 [Hw Hg]; [by exists st1|].
  exists st1. split; [done|]. exists e. simpl. by rewrite (wk_Locks _ _ _ _ _ Hw).
Qed.

(** ** The packets *)

(** The answer of a packet that locates the object of the names [ns]. *)
Definition answered (ns : list filename) (Mode : Z) st st' : Prop :=
  winv st' /\ h_FH (hs_h st') = h_FH (hs_h st) /\ hs_ELock st' = hs_ELock st /\
  ((h_Res1 (hs_h st') = DOSFALSE /\ hs_Locks st' = hs_Locks st) \/
   (exists a e, h_Res1 (hs_h st') = MKBADDR a /\ h_Res2 (hs_h st') = 0 /\
      hs_Locks st' = (a, e) :: hs_Locks st /\ granted ns Mode (a, e) st)).

Lemma set_res_answers st st1 ns Mode e : walks st st1 ->
  exists st', set_res DOSFALSE e st1 = Some (inr tt, st') /\ answered ns Mode st st'.
Proof.
  intros Hw. eexists. split; [done|]. split; [by destruct Hw as [[]]|]. split; [exact (wk_FH _ _ _ _ _ Hw)|]. split; [apply Hw|].
  left. split; [done|apply Hw].
Qed.

Lemma locate_answers st st0 (m : M S addr) ns Mode : walks st0 st -> wp m st (locked ns Mode st) ->
  exists st', (r ← catch m; match r with
                            | inl Res2 => set_res DOSFALSE Res2
                            | inr a => set_res (MKBADDR a) 0
                            end) st = Some (inr tt, st') /\ answered ns Mode st0 st'.
Proof.
  intros Hw0 Hm. unfold wp in Hm. rewrite M_bind_eq. unfold catch.
  destruct (m st) as [[r st1]|]; [|done]. destruct Hm as (st2 & Hw & Hr). simpl.
  assert (Hw2 : walks st0 st2) by (by eapply walks_trans). destruct r as [e|a].
  - rewrite Hr. by apply set_res_answers.
  - destruct Hr as (e & -> & (Hn & Ho & Hfh & Hg)). eexists. split; [done|].
    split; [by destruct Hw2 as [[]]|]. split; [exact (wk_FH _ _ _ _ _ Hw2)|]. split; [apply Hw2|]. right.
    exists a, e. split; [done|]. split; [done|]. simpl. rewrite (wk_Locks _ _ _ _ _ Hw0). split; [done|].
    assert (El : hs_Locks st2 = hs_Locks st0) by (apply Hw2).
    unfold granted, new_names, grantable in *. by rewrite El in *.
Qed.

(** C5: locating an object.  The caches are coherent with the server ([winv]), whose
    tree does not change meanwhile, and the path is one of ordinary names - none is
    empty, ".", ".." or ends with a dot, none has a colon ([amiga]) - joined by
    slashes, below 256 bytes, a BSTR, and relative to a lock that exists or to the
    root.  Then the packet has a result, whether the server answers or refuses and
    however much memory there is: either it fails and the list of locks is as before,
    or it returns a new lock, put in front of the others, whose key, handle and type
    are those of the object reached from the root by following the lock's and the
    path's names one after the other through directories, whose names are those of
    the full path, and which is compatible with the lock the object had: there was
    none or both are shared, and the root is only locked shared.  The caches stay
    coherent and the open files are not touched. *)
Theorem act_LOCATE_OBJECT_locates st fl ms ns rest Mode :
  winv st -> root_ok cfg -> relative_to st fl ms -> Forall amiga ns -> zlen (join_path ns) < 256 ->
  exists st', act_LOCATE_OBJECT E cfg fl (byte_of_Z (zlen (join_path ns)) :: join_path ns ++ rest) Mode st =
    Some (inr tt, st') /\
    answered (ms ++ ns) Mode st st'.
Proof.
  intros Hi Hroot Hrel Hn Hlen. unfold act_LOCATE_OBJECT.
  assert (Hb : forall ok, fn_B2CStr ok (byte_of_Z (zlen (join_path ns)) :: join_path ns ++ rest) =
            Some (if ok then Some (join_path ns) else None, zlen (join_path ns))).
  { intros ok. pose proof (zlen_nonneg (join_path ns)). pose proof (zlen_nonneg rest). unfold fn_B2CStr.
    rewrite Z_of_byte_of_Z, u8_id, zlen_app by lia.
    destruct (Z.ltb_spec (zlen (join_path ns) + zlen rest) (zlen (join_path ns))); [lia|].
    replace (take _ (join_path ns ++ rest)) with (join_path ns).
    2:{ rewrite take_app_length'; [done|]. unfold zlen. lia. }
    rewrite cstr_id; [done|]. by apply join_nul. }
  destruct (mem_ok_eq E st) as [ok Hok]. pose proof (walks_tick t0 Ta Td st Hi) as Hw.
  rewrite M_bind_eq, Hok, M_bind_eq. unfold of_option. rewrite Hb. simpl.
  destruct ok; [|by apply set_res_answers].
  apply locate_answers; [done|]. by apply RootLocateAndLock_ok.
Qed.

(** The parent of a lock.  For a lock of an object below the root the packet
    is answered like locating the names of the lock without the last one, from
    the root and shared; a lock of the root has no parent and gets 0. *)
Theorem act_PARENT_locates_parent st fl a e ns :
  winv st -> root_ok cfg -> fl = Some a -> find_lock (hs_Locks st) a = Some e -> Forall amiga ns ->
  efl_FullName e = join_path ns -> efl_FullNameLen e = zlen (join_path ns) ->
  exists st', act_PARENT E cfg fl st = Some (inr tt, st') /\
    (if bool_decide (ns = []) then h_Res1 (hs_h st') = 0 /\ h_Res2 (hs_h st') = 0 /\ hs_Locks st' = hs_Locks st
     else answered (removelast ns) SHARED_LOCK st st').
Proof.
  intros Hi Hroot -> He Ha Hname Hlen. unfold act_PARENT, lock_Lookup. rewrite M_bind_eq. unfold gets. simpl.
  rewrite He. simpl. unfold do_act_PARENT. rewrite M_bind_eq, Hlen, Hname.
  induction ns as [|n ns _] using rev_ind; [by eexists|].
  rewrite bool_decide_eq_false_2 by (by intros ?%app_nil_r_inv). rewrite removelast_last.
  assert (Hp : Forall plain (ns ++ [n])) by (by apply amiga_plain).
  assert (Hpos : 0 < zlen (join_path (ns ++ [n]))).
  { destruct (ns ++ [n]) as [|m l] eqn:Em; [by destruct ns|]. apply Forall_cons in Hp as [Hm _].
    pose proof (join_path_length m l Hm). unfold zlen. lia. }
  rewrite (proj2 (Z.eqb_neq _ _)) by lia. rewrite M_bind_eq.
  destruct (lookup_lt_is_Some_2 (join_path (ns ++ [n])) (Z.to_nat (zlen (join_path (ns ++ [n])) - 1))) as [c Hlk];
    [unfold zlen in *; lia|].
  assert (Hc : c <> colon).
  { intros ->. apply (join_colon _ Ha). by eapply list_elem_of_lookup_2. }
  unfold of_option at 1. rewrite Hlk. simpl. rewrite bool_decide_eq_false_2 by done.
  destruct (mem_ok_eq E st) as [ok Hok]. pose proof (walks_tick t0 Ta Td st Hi) as Hw.
  rewrite M_bind_eq, Hok, M_bind_eq. unfold of_option, fn_PathPart.
  rewrite (proj2 (Z.eqb_neq _ _)) by lia. rewrite Hlk. cbn [mbind option_bind].
  rewrite bool_decide_eq_false_2, PathPart_law by done.
  assert (Hdup : StrNDup ok (join_path (ns ++ [n])) (zlen (join_path ns)) = Some (if ok then Some (join_path ns) else None)).
  { unfold StrNDup. pose proof (zlen_nonneg (join_path ns)). rewrite (proj2 (Z.leb_le 0 _)) by lia.
    assert (Hpre : exists suf, join_path (ns ++ [n]) = join_path ns ++ suf).
    { rewrite join_last. destruct ns; [by exists n|]. by eexists. }
    destruct Hpre as [suf ->]. pose proof (zlen_nonneg suf). rewrite zlen_app, (proj2 (Z.leb_le _ _)) by lia. simpl.
    rewrite take_app_length'; [done|]. unfold zlen. lia. }
  rewrite Hdup. simpl. destruct ok; [|by apply set_res_answers]. apply locate_answers; [done|].
  apply Forall_app in Ha as [Ha _].
  by apply (RootLocateAndLock_ok (tick st) None []).
Qed.
End Locks.

(** ** A concrete run: locating "dir/f" on the server of TreeServer.v *)

Definition ex_env : Env := MkEnv (fun _ => 1000) (fun n => Some (Pos.of_succ_nat n)) 10.
Definition ex_cfg : Config := MkConfig [x02] (tree_attr 2 NFDIR) [x76] [x76] 255 0 0 0 0.
Definition ex_global : Global_T treeserver :=
  Global (MBPool 0 0 None ∅) 0 0 None ∅ (NFSGlobal 1 1 8192 4096 8192) 0 Tree.
Definition ex_cache {V} : Cache V :=
  MkCache ∅ (FTTable 256 100 10 id_HashFunc id_KeyCmp (replicate 256 []) [] [] 0 0).
Definition ex_state : HState treeserver := MkHState (MkHandler ex_global [] 0 0 0) ex_cache ex_cache [] [] [] 0.

Lemma ex_cache_Init {V} : ca_Init true true 100 10 = Some (ex_cache (V := V)).
Proof. done. Qed.

#[export] Instance ex_time : WalkTime ex_env 1000 10 10.
Proof. constructor; intros; simpl; lia. Qed.

Lemma ex_cache_ok {V} idf (P : V -> Prop) : cinv idf P 10 ex_cache.
Proof.
  destruct (ca_Init_ok (V := V) 100 10 ex_cache true true) as (Hok & Hh & Hn); [done|done|]. by constructor.
Qed.

Lemma ex_winv : winv 10 10 ex_state.
Proof. split; by apply ex_cache_ok. Qed.
Lemma ex_root : root_ok ex_cfg.
Proof. exists NFDIR. by left. Qed.

Definition ex_path : list filename := [[x64; x69; x72]; [x66]].
Lemma ex_path_ok : Forall amiga ex_path.
Proof. apply (bool_decide_unpack _). vm_compute. done. Qed.

Lemma act_LOCATE_OBJECT_locates_witness :
  exists st' a e, act_LOCATE_OBJECT ex_env ex_cfg None [x05; x64; x69; x72; slash; x66] SHARED_LOCK ex_state = Some (inr tt, st') /\
    hs_Locks st' = [(a, e)] /\ h_Res1 (hs_h st') = MKBADDR a /\
    object ex_cfg ex_path (fl_Key e) (efl_NFSType e) /\ fl_Key e = 4.
Proof.
  destruct (act_LOCATE_OBJECT_locates ex_env ex_cfg 1000 10 10 ex_state None [] ex_path [] SHARED_LOCK ex_winv ex_root eq_refl ex_path_ok eq_refl)
    as (st' & Hst & _ & _ & _ & Hcase).
  assert (Hp : (fun r => (h_Res1 (hs_h r.2), (fun x => fl_Key x.2) <$> hs_Locks r.2)) <$>
    act_LOCATE_OBJECT ex_env ex_cfg None (byte_of_Z (zlen (join_path ex_path)) :: join_path ex_path ++ []) SHARED_LOCK ex_state = Some (35, [4])).
  { vm_compute. reflexivity. }
  rewrite Hst in Hp. simpl in Hp. injection Hp as Hres Hkey.
  destruct Hcase as [[Hf _]|(a & e & Hr & _ & Hl & _ & Ho & _)]; [by rewrite Hf in Hres|].
  exists st', a, e. split; [exact Hst|]. split; [exact Hl|]. split; [exact Hr|]. split; [exact Ho|].
  rewrite Hl in Hkey. by injection Hkey.
Defined.

(** The same with a lock on the file: its parent is the directory "dir". *)
Definition ex_lock : ELOCK := MkELOCK 4 SHARED_LOCK [x04] NFREG (join_path ex_path) 5 [x66] 1.
Definition ex_state2 : HState treeserver := set_Locks [(100%positive, ex_lock)] ex_state.

Lemma act_PARENT_locates_parent_witness :
  exists st' a e, act_PARENT ex_env ex_cfg (Some 100%positive) ex_state2 = Some (inr tt, st') /\
    hs_Locks st' = [(a, e); (100%positive, ex_lock)] /\
    object ex_cfg [[x64; x69; x72]] (fl_Key e) (efl_NFSType e) /\ fl_Key e = 3.
Proof.
  destruct (act_PARENT_locates_parent ex_env ex_cfg 1000 10 10 ex_state2 (Some 100%positive) 100%positive ex_lock ex_path
    ex_winv ex_root eq_refl eq_refl ex_path_ok eq_refl eq_refl) as (st' & Hst & Hans).
  rewrite bool_decide_eq_false_2 in Hans by done. destruct Hans as (_ & _ & _ & Hcase).
  assert (Hp : (fun r => (h_Res1 (hs_h r.2), (fun x => fl_Key x.2) <$> hs_Locks r.2)) <$>
    act_PARENT ex_env ex_cfg (Some 100%positive) ex_state2 = Some (24, [3; 4])).
  { vm_compute. reflexivity. }
  rewrite Hst in Hp. simpl in Hp. injection Hp as Hres Hkey.
  destruct Hcase as [[Hf _]|(a & e & Hr & _ & Hl & _ & Ho & _)]; [by rewrite Hf in Hres|].
  exists st', a, e. split; [exact Hst|]. split; [exact Hl|]. split; [exact Ho|].
  rewrite Hl in Hkey. by injection Hkey.
Defined.
