(* ===== verification/Find.v ===== *)
(** * Opening and closing files (find.c)

    The packets that open a file look it up at the server, check the lock its
    id has, make a lock and a handle and put both into their lists.  A handle
    keeps a pointer to its lock, here in [hs_ELock] under the handle's id. *)
From S2P Require Import Prelude MBuf WBufInfo NfsProt NfsSupp Nfs NfsLookup Global WBuf RBuf FtHash DCache.
From S2P Require Import FileHandle HState Fn Walk.

(** nfsc_ApplyUMask *)
Definition nfsc_ApplyUMask (cfg : Config) (umode : Z) : Z :=
  Z.lxor (Z.lor umode (g_UMask cfg)) (g_UMask cfg).

Section Find.
Context {S : Type} `{NfsRpc S} `{DosNames} (E : Env) (cfg : Config).

(** Operations on the open files and on the part of Global_T they use. *)
Definition on_h {A} (f : Handler S -> A * Handler S) : M S A := fun st =>
  let '(x, h) := f (hs_h st) in Some (inr x, set_h h st).
Definition on_g {A} (f : Global_T S -> option (A * Global_T S)) : M S A := fun st =>
  ('(x, g) ← f (h_g (hs_h st)); Some (inr x, set_h (set_g g (hs_h st)) st)).

(** The result of a local Res2 that the code does not set. *)
Definition junk_Res2 : Z := s32 junk_u_int.

Definition wc_flush (efh : EFH) (Res2 : Z) : M S (Z * Z * EFH) :=
  on_g (fun g => '(ok, Res2, g, efh) ← wc_FlushCache g efh Res2; Some (ok, Res2, efh, g)).
Definition rb_release (efh : EFH) : M S EFH :=
  on_g (fun g => '(g, efh) ← rb_ReleaseRBufData g efh; Some (efh, g)).

(** A handle with its lock; stores to a handle of the list. *)
Definition fh_new (elock : addr) (NFSFh : nfs_fh) (Mode : Z) : M S (option EFH) :=
  ok ← mem_ok E; on_h (fun h => fh_Create ok h NFSFh Mode).
Definition fh_insert (efh : EFH) (elock : addr) : M S unit :=
  modify (fun st => set_ELock ((efh_Id efh, elock) :: hs_ELock st) (set_h (fh_Insert (hs_h st) efh) st)).
Definition fh_store (efh : EFH) : M S unit :=
  modify (fun st => set_h (set_FH (update_fh (h_FH (hs_h st)) efh) (hs_h st)) st).
Fixpoint find_ELock (l : list (Z * addr)) (Id : Z) : option addr :=
  match l with
  | [] => None
  | (i, a) :: l => if i =? Id then Some a else find_ELock l Id
  end.
Fixpoint remove_ELock (l : list (Z * addr)) (Id : Z) : list (Z * addr) :=
  match l with
  | [] => []
  | (i, a) :: l => if i =? Id then l else (i, a) :: remove_ELock l Id
  end.

(** [efh->efh_ELock] and the lock it points to, which has to be there. *)
Definition fh_lock (Id : Z) : M S (addr * ELOCK) := fun st =>
  (a ← find_ELock (hs_ELock st) Id; (e ← find_lock (hs_Locks st) a; Some (inr (a, e), st))).

(** The rest of the packets that open: lock, handle, lists.  The result is the
    new [fh_Arg1] and handle, or the error. *)
Definition open_file (f : FullPath) (dres : diropokres) (FileMode Mode : Z) : M S EFH :=
  elock ← lock_Create E (fp_FullName f) (fp_FullNameLen f) (fp_Name f) (fp_NameLen f)
    (fa_type (do_attributes dres)) Mode;
  match elock with
  | None => fail ERROR_NO_FREE_STORE
  | Some (a, e) =>
      let e := lock_set e (do_file dres) NFREG (fa_fileid (do_attributes dres)) in
      efh ← fh_new a (efl_NFSFh e) FileMode;
      match efh with
      | None => fail ERROR_NO_FREE_STORE
      | Some efh =>
          let efh := set_FileLen (s32 (fa_size (do_attributes dres))) efh in
          _ ← fh_insert efh a;
          _ ← lock_Insert (a, e);
          mret efh
      end
  end.

(** rb_CreateRBuf and wc_CreateCache on a handle of the list. *)
Definition fh_CreateRBuf (efh : EFH) : M S unit := ok ← mem_ok E; fh_store (rb_CreateRBuf ok efh).
Definition fh_CreateCache (efh : EFH) (MaxBufs : Z) : M S EFH :=
  ok ← mem_ok E;
  let efh := wc_CreateCache ok efh MaxBufs in
  _ ← fh_store efh; mret efh.

(** The name in its directory at the server. *)
Definition dir_fh (ParentDir : addr) : M S nfs_fh := d ← dc_get ParentDir; mret (dce_NFSFh d).
Definition srv_Lookup (fh : nfs_fh) (Name : filename) : M S diropokres :=
  maxread ← gets (fun st => ng_MaxReadDirSize (g_NFSGlobal (h_g (hs_h st))));
  rpc_call' (nfs_Lookup (env_fuel E) fh Name maxread).

(** The result is fh->fh_Arg1, when it is set. *)
Definition act_FINDREADWRITE (fl : option addr) (cbstr : list byte) (FileMode Mode : Z) : M S (option Z) :=
  r ← catch (LRootLocateDir E cfg fl cbstr false);
  match r with
  | inl Res2 => _ ← set_res DOSFALSE Res2; mret None
  | inr (ParentDir, f) =>
      r ← catch (
                   dirfh ← dir_fh ParentDir;
                 dres ← catch (srv_Lookup dirfh (fp_Name f));
                 dres ← (match dres with
                         | inr dres => mret dres
                         | inl Res2 =>
                             if (Res2 =? ERROR_OBJECT_NOT_FOUND) && (FileMode =? MODE_READWRITE)
                             then rpc_call (nfs_Create dirfh (fp_Name f) (g_UID cfg) (g_GID cfg) (nfsc_ApplyUMask cfg 511) u_minus1)
                             else fail Res2
                         end);
                 if negb (fa_type (do_attributes dres) =? NFREG)
                 then fail (if FileMode =? MODE_READWRITE then ERROR_OBJECT_WRONG_TYPE else ERROR_OBJECT_EXISTS)
                 else
                 elock ← lock_LookupFromKey (fa_fileid (do_attributes dres));
                 if match elock with
                    | Some (_, e) => (Mode =? EXCLUSIVE_LOCK) || (fl_Access e =? EXCLUSIVE_LOCK)
                    | None => false
                    end
                 then fail ERROR_OBJECT_IN_USE
                 else open_file f dres FileMode Mode);
      match r with
      | inl Res2 => _ ← set_res DOSFALSE Res2; mret None
      | inr efh => _ ← fh_CreateRBuf efh; _ ← set_res DOSTRUE 0; mret (Some (efh_Id efh))
      end
  end.

Definition act_FINDUPDATE (fl : option addr) (cbstr : list byte) : M S (option Z) :=
  act_FINDREADWRITE fl cbstr MODE_READWRITE EXCLUSIVE_LOCK.
Definition act_FINDINPUT (fl : option addr) (cbstr : list byte) : M S (option Z) :=
  act_FINDREADWRITE fl cbstr MODE_OLDFILE SHARED_LOCK.

Definition act_FH_FROM_LOCK (fl : option addr) : M S (option Z) :=
  elock ← lock_Lookup fl;
  match elock with
  | None => _ ← set_res DOSFALSE ERROR_INVALID_LOCK; mret None
  | Some (a, e) =>
      let FileMode := if fl_Access e =? EXCLUSIVE_LOCK then MODE_READWRITE else MODE_OLDFILE in
      r ← catch (
                   attr ← rpc_call (nfs_GetAttr (efl_NFSFh e));
                 if negb (fa_type attr =? NFREG) then fail ERROR_OBJECT_WRONG_TYPE
                 else
                 efh ← fh_new a (efl_NFSFh e) FileMode;
                 match efh with
                 | None => fail ERROR_NO_FREE_STORE
                 | Some efh =>
                     let efh := set_FileLen (s32 (fa_size attr)) efh in
                     _ ← fh_insert efh a; mret efh
                 end);
      match r with
      | inl Res2 => _ ← set_res DOSFALSE Res2; mret None
      | inr efh => _ ← set_res1 DOSTRUE; _ ← fh_CreateRBuf efh; mret (Some (efh_Id efh))
      end
  end.

Definition act_FINDOUTPUT (fl : option addr) (cbstr : list byte) : M S (option Z) :=
  let AMode := MODE_NEWFILE in
  r ← catch (LRootLocateDir E cfg fl cbstr false);
  match r with
  | inl Res2 => _ ← set_res DOSFALSE Res2; mret None
  | inr (ParentDir, f) =>
      r ← catch (
                   dirfh ← dir_fh ParentDir;
                 dres ← catch (srv_Lookup dirfh (fp_Name f));
                 _ ← (match dres with
                      | inl _ => mret tt
                      | inr dres =>
                          if negb (fa_type (do_attributes dres) =? NFREG) then fail ERROR_OBJECT_EXISTS
                          else
                          elock ← lock_LookupFromKey (fa_fileid (do_attributes dres));
                          match elock with
                          | Some _ => fail ERROR_OBJECT_IN_USE
                          | None => _ ← catch (rpc_call (nfs_Remove dirfh (fp_Name f))); mret tt
                          end
                      end);
                 dres ← rpc_call (nfs_Create dirfh (fp_Name f) (g_UID cfg) (g_GID cfg) (nfsc_ApplyUMask cfg 511) 0);
                 open_file f dres AMode AMode);
      match r with
      | inl Res2 => _ ← set_res DOSFALSE Res2; mret None
      | inr efh =>
          _ ← set_res1 DOSTRUE;
          efh ← (if negb (g_BufSizePerFile cfg =? 0)
                 then fh_CreateCache efh (g_BufSizePerFile cfg ÷ MBUFSIZE) else mret efh);
          _ ← fh_CreateRBuf efh; mret (Some (efh_Id efh))
      end
  end.

(** The buffers of a handle that is closed. *)
Definition end_buffers (efh : EFH) : M S EFH :=
  efh ← (if HasWBuf efh
         then efh ← (if HasBufferedWData efh
                     then '(ok, Res2, efh) ← wc_flush efh junk_Res2;
                     _ ← (if ok =? DOSFALSE then set_res DOSFALSE Res2 else set_res1 DOSTRUE);
                     mret efh
                     else _ ← set_res1 DOSTRUE; mret efh);
         mret (wc_DeleteCache efh)
         else _ ← set_res1 DOSTRUE; mret efh);
  if HasRBuf efh
  then efh ← (if HasBufferedRData efh then rb_release efh else mret efh); mret (rb_DeleteRBuf efh)
  else mret efh.

Definition act_END (Arg1 : Z) : M S unit :=
  efh ← gets (fun st => fh_Lookup (hs_h st) Arg1);
  match efh with
  | None => set_res DOSFALSE ERROR_FILE_NOT_OBJECT
  | Some efh =>
      let BufferError := efh_Res2 efh in
      efh ← end_buffers (set_Res2 0 efh);
      elock ← gets (fun st => find_ELock (hs_ELock st) (efh_Id efh));
      _ ← (match elock with Some a => _ ← lock_Remove a; mret tt | None => mret tt end);
      _ ← on_h (fun h => fh_Remove h efh);
      _ ← modify (fun st => set_ELock (remove_ELock (hs_ELock st) (efh_Id efh)) st);
      if negb (BufferError =? 0) then set_res DOSFALSE BufferError else mret tt
  end.

Definition act_SET_FILE_SIZE (Arg1 Offset Mode : Z) : M S unit :=
  efh ← gets (fun st => fh_Lookup (hs_h st) Arg1);
  match efh with
  | None => set_res (-1) ERROR_FILE_NOT_OBJECT
  | Some efh =>
      '(Abort, efh) ←
        (if HasBufferedWData efh
         then '(ok, Res2, efh) ← wc_flush efh junk_Res2;
         _ ← fh_store efh;
         if ok =? DOSFALSE then _ ← set_res (-1) Res2; mret (true, efh) else mret (false, efh)
         else mret (false, efh));
      InUse ← (if (Abort : bool) then mret false
               else '(_, e) ← fh_lock (efh_Id efh); n ← lock_NumLocksFromKey (fl_Key e); mret (n >? 1));
      if (InUse : bool) then set_res (-1) ERROR_OBJECT_IN_USE
      else
      let NewSize :=
      if Mode =? OFFSET_BEGINNING then Offset
      else if Mode =? OFFSET_CURRENT then s32 (efh_FilePos efh + Offset)
      else if Mode =? OFFSET_END then s32 (efh_FileLen efh + Offset)
      else -1 in
      if NewSize =? -1 then set_res (-1) ERROR_REQUIRED_ARG_MISSING
      else if NewSize <? 0 then set_res (-1) ERROR_SEEK_ERROR
      else
      '(_, e) ← fh_lock (efh_Id efh);
      NewAttr ← catch (rpc_call (nfs_SetSize (efl_NFSFh e) NewSize));
      match NewAttr with
      | inr NewAttr =>
          _ ← attr_update E (efl_NFSFh e) NewAttr;
          let efh := if fa_size NewAttr <? u32 (efh_FilePos efh) then set_FilePos (s32 (fa_size NewAttr)) efh else efh in
          let efh := set_FileLen (s32 (fa_size NewAttr)) efh in
          _ ← fh_store efh;
          set_res1 (efh_FileLen efh)
      | inl Res2 => set_res (-1) Res2
      end
  end.

Definition act_COPY_DIR_FH (Arg1 : Z) : M S unit :=
  efh ← gets (fun st => fh_Lookup (hs_h st) Arg1);
  match efh with
  | None => set_res (-1) ERROR_FILE_NOT_OBJECT
  | Some efh => e ← fh_lock (efh_Id efh); do_act_COPY_DIR E (Some e)
  end.

Definition act_PARENT_FH (Arg1 : Z) : M S unit :=
  efh ← gets (fun st => fh_Lookup (hs_h st) Arg1);
  match efh with
  | None => set_res (-1) ERROR_FILE_NOT_OBJECT
  | Some efh => e ← fh_lock (efh_Id efh); do_act_PARENT E cfg (Some e)
  end.
End Find.
