(* ===== verification/Fib.v ===== *)
(** * What AmigaDOS is told about an object (examine.c)

    File modes, types and times of the protocol in AmigaDOS's terms, and the
    FileInfoBlock they are stored in.  [FAttr2FIB] is [None] when it would
    write or read outside an array. *)
From S2P Require Import Prelude MBuf NfsProt NfsSupp Fn.

(** dos.h *)
Definition FIBF_DELETE : Z := Z.shiftl 1 0.
Definition FIBF_EXECUTE : Z := Z.shiftl 1 1.
Definition FIBF_WRITE : Z := Z.shiftl 1 2.
Definition FIBF_READ : Z := Z.shiftl 1 3.
Definition FIBF_GRP_DELETE : Z := Z.shiftl 1 8.
Definition FIBF_GRP_EXECUTE : Z := Z.shiftl 1 9.
Definition FIBF_GRP_WRITE : Z := Z.shiftl 1 10.
Definition FIBF_GRP_READ : Z := Z.shiftl 1 11.
Definition FIBF_OTR_DELETE : Z := Z.shiftl 1 12.
Definition FIBF_OTR_EXECUTE : Z := Z.shiftl 1 13.
Definition FIBF_OTR_WRITE : Z := Z.shiftl 1 14.
Definition FIBF_OTR_READ : Z := Z.shiftl 1 15.
Definition ST_USERDIR : Z := 2.
Definition ST_SOFTLINK : Z := 3.
Definition ST_FILE : Z := -3.
Definition ST_BDEVICE : Z := -10.
Definition ST_CDEVICE : Z := -11.
Definition ST_SOCKET : Z := -12.
Definition ST_FIFO : Z := -13.
Definition TICKS_PER_SECOND : Z := 50.
Definition ERROR_NO_MORE_ENTRIES : Z := 232.

(** [mode & m] as a condition. *)
Definition mode_bit (mode m : Z) : bool := negb (Z.land mode m =? 0).

(** The masks 0777, 0100, ... of the source are octal. *)
Definition NFSMode2Protection (mode : Z) : Z :=
  let mode := Z.land mode 511 in
  let amode := 0 in
  let amode := if negb (mode_bit mode 64) then Z.lor amode FIBF_EXECUTE else amode in
  let amode := if negb (mode_bit mode 128) then Z.lor amode (Z.lor FIBF_WRITE FIBF_DELETE) else amode in
  let amode := if negb (mode_bit mode 256) then Z.lor amode FIBF_READ else amode in
  let amode := if mode_bit mode 8 then Z.lor amode FIBF_GRP_EXECUTE else amode in
  let amode := if mode_bit mode 16 then Z.lor amode (Z.lor FIBF_GRP_WRITE FIBF_GRP_DELETE) else amode in
  let amode := if mode_bit mode 32 then Z.lor amode FIBF_GRP_READ else amode in
  let amode := if mode_bit mode 1 then Z.lor amode FIBF_OTR_EXECUTE else amode in
  let amode := if mode_bit mode 2 then Z.lor amode (Z.lor FIBF_OTR_WRITE FIBF_OTR_DELETE) else amode in
  let amode := if mode_bit mode 4 then Z.lor amode FIBF_OTR_READ else amode in
  amode.

Definition NFSType2EntryType (type : Z) : Z :=
  if type =? NFDIR then ST_USERDIR
  else if type =? NFREG then ST_FILE
  else if type =? NFLNK then ST_SOFTLINK
  else if type =? NFCHR then ST_CDEVICE
  else if type =? NFBLK then ST_BDEVICE
  else if type =? NFSOCK then ST_SOCKET
  else if type =? NFFIFO then ST_FIFO
  else 0.

(** The members are LONGs; C's division rounds to 0. *)
Record DateStamp := MkDateStamp { ds_Days : Z; ds_Minute : Z; ds_Tick : Z }.

Definition timeval2DateStamp (tv : nfstime) : DateStamp :=
  let seconds := s32 (nt_seconds tv + nt_useconds tv / 1000000) in
  MkDateStamp (seconds ÷ 86400) (Z.rem seconds 86400 ÷ 60)
    (s32 ((nt_seconds tv mod 60) * TICKS_PER_SECOND + nt_useconds tv / 20000)).

Definition DateStamp2timeval (ds : DateStamp) : nfstime :=
  NfsTime (u32 ((ds_Days ds * 24 * 60 + ds_Minute ds) * 60 + ds_Tick ds ÷ TICKS_PER_SECOND))
    (u32 (s32 (Z.rem (ds_Tick ds) TICKS_PER_SECOND * 1000000) ÷ TICKS_PER_SECOND)).

(** struct FileInfoBlock, without the members that are not used.  A key, a
    LONG, is kept as the file id that it comes from: equality is the same. *)
Record FIB := MkFIB {
  fib_DiskKey : Z;
  fib_DirEntryType : Z;
  fib_FileName : list byte;
  fib_Protection : Z;
  fib_Size : Z;
  fib_NumBlocks : Z;
  fib_Date : DateStamp;
  fib_Comment : list byte;
  fib_OwnerUID : Z;
  fib_OwnerGID : Z
}.

(** [Name] is the array that Name points to; -1 as [NameLen] asks for strlen,
    which needs a terminator that [Name] then has behind it. *)
Definition FAttr2FIB (a : fattr) (Name : list byte) (NameLen MaxFileNameLen : Z) (fib : FIB) : option FIB :=
  let NameLen := if NameLen =? -1 then zlen (cstr Name) else NameLen in
  let NameLen := if NameLen >? MaxFileNameLen then MaxFileNameLen else NameLen in
  if (0 <=? NameLen) && (NameLen <=? zlen Name)
  then (n ← copy_at (fib_FileName fib) 1 (take (Z.to_nat NameLen) Name);
        n ← arr_set n 0 (byte_of_Z NameLen);
        n ← arr_set n (NameLen + 1) x00;
        c ← arr_set (fib_Comment fib) 0 x00;
        Some (MkFIB (fa_fileid a) (NFSType2EntryType (fa_type a)) n (NFSMode2Protection (fa_mode a))
                (s32 (fa_size a)) (s32 (fa_blocks a)) (timeval2DateStamp (fa_mtime a)) c
                (nfsuid2UID (fa_uid a)) (nfsgid2GID (fa_gid a))))
  else None.
