(* ===== verification/Examine.v ===== *)
(** * Examining objects and directories (examine.c)

    EXAMINE_OBJECT fills a FileInfoBlock from the attributes of a lock's
    object; EXAMINE_NEXT gives the entries of a directory one after the other,
    reading them from the server in batches that the directory's handle keeps.
    A handle is in the list under its address, so a store to it is a store to
    the list. *)
From S2P Require Import Prelude MBuf WBufInfo NfsProt NfsSupp Nfs NfsLookup Global FtHash DCache.
From S2P Require Import FileHandle Dirs HState Fn Walk Find Fib.

Definition DSA_MODIFY_TIME : Z := 1.
Definition DSA_PROTECTION : Z := 2.
Definition DSA_OWNER_UID : Z := 3.
Definition DSA_OWNER_GID : Z := 4.
Definition DSA_CREATE_TIME : Z := 6.
Definition DSA_ACCESS_TIME : Z := 7.

(** "." and "..", and names that are too long for AmigaDOS. *)
Definition skipped (MaxFileNameLen : Z) (e : entry) : bool :=
  bool_decide (e_name e = [dot]) || bool_decide (e_name e = [dot; dot]) || (zlen (e_name e) >? MaxFileNameLen).
(** The entries skipped at the head of a batch leave their cookie. *)
Fixpoint skip_entries (MaxFileNameLen : Z) (l : list entry) (c : nfscookie) : list entry * nfscookie :=
  match l with
  | [] => ([], c)
  | e :: l => if skipped MaxFileNameLen e then skip_entries MaxFileNameLen l (e_cookie e) else (e :: l, c)
  end.

(** A tag is the number behind DSA_Dummy, [TAG_IGNORE] is [None]; the data of
    a time is the address of a DateStamp or NULL. *)
Record TagItem := MkTagItem { ti_Tag : option Z; ti_Data : Z }.

(** The stores a tag asks for: the item, a DateStamp at an address, and
    whether it was processed. *)
Definition attr_tag (attr : fattr) (t : TagItem) : TagItem * option (Z * DateStamp) * bool :=
  let time (tv : nfstime) :=
    (t, if ti_Data t =? 0 then None else Some (ti_Data t, timeval2DateStamp tv), true) in
  let data (d : Z) := (MkTagItem (ti_Tag t) d, None, true) in
  match ti_Tag t with
  | None => (t, None, false)
  | Some tag =>
      if tag =? DSA_MODIFY_TIME then time (fa_mtime attr)
      else if tag =? DSA_PROTECTION then data (NFSMode2Protection (fa_mode attr))
      else if tag =? DSA_OWNER_UID then data (fa_uid attr)
      else if tag =? DSA_OWNER_GID then data (fa_gid attr)
      else if tag =? DSA_CREATE_TIME then time (fa_ctime attr)
      else if tag =? DSA_ACCESS_TIME then time (fa_atime attr)
      else (MkTagItem None (ti_Data t), None, false)
  end.

Section Examine.
Context {S : Type} `{NfsRpc S} `{DosNames} (E : Env) (cfg : Config).

Definition do_act_EXAMINE_OBJECT (efl : option ELOCK) (fib : FIB) : M S FIB :=
  Res2 ← gets (fun st => h_Res2 (hs_h st));
  match efl with
  | None => _ ← set_res DOSFALSE ERROR_INVALID_LOCK; mret fib
  | Some e =>
      r ← catch (c_GetAttr E (fl_Key e) (FhVal (efl_NFSFh e)));
      match r with
      | inl Res2 => _ ← set_res DOSFALSE Res2; mret fib
      | inr a =>
          ace ← ac_get a;
          fib ← of_option (if efl_NameLen e =? 0
                           then FAttr2FIB (ace_FAttr ace) (dl_Name cfg) (zlen (dl_Name cfg)) (g_MaxFileNameLen cfg) fib
                           else FAttr2FIB (ace_FAttr ace) (efl_Name e) (efl_NameLen e) (g_MaxFileNameLen cfg) fib);
          _ ← set_res DOSTRUE Res2; mret fib
      end
  end.

Definition do_ExamineRoot (fib : FIB) : M S FIB :=
  r ← catch (c_GetAttr E (fa_fileid (g_MntAttr cfg)) (FhVal (g_MntFh cfg)));
  attr ← (match r with
          | inr a => (ace ← ac_get a; mret (ace_FAttr ace))
          | inl _ => mret (g_MntAttr cfg)
          end);
  fib ← of_option (FAttr2FIB attr (dl_Name cfg) (zlen (dl_Name cfg)) (g_MaxFileNameLen cfg) fib);
  _ ← set_res1 DOSTRUE; mret fib.

Definition act_EXAMINE_OBJECT (fl : option addr) (fib : FIB) : M S FIB :=
  match fl with
  | Some _ => (e ← lock_Lookup fl; do_act_EXAMINE_OBJECT (snd <$> e) fib)
  | None => do_ExamineRoot fib
  end.

Definition act_EXAMINE_FH (Arg1 : Z) (fib : FIB) : M S FIB :=
  efh ← gets (fun st => fh_Lookup (hs_h st) Arg1);
  match efh with
  | Some efh => '(_, e) ← fh_lock (efh_Id efh); do_act_EXAMINE_OBJECT (Some e) fib
  | None => _ ← set_res (-1) ERROR_FILE_NOT_OBJECT; mret fib
  end.

(** A pointer to the attributes, into the cache. *)
Definition LookupAttr (efl : ELOCK) (FileId : Z) (Name : list byte) : M S addr :=
  ACEnt ← attr_lookup E FileId;
  match ACEnt with
  | Some a => mret a
  | None =>
      DCEnt ← dir_lookup E (fl_Key efl);
      DCEnt ← (match DCEnt with
               | Some d => mret d
               | None => GetDirEntry E None (fl_Key efl) (FhVal (efl_NFSFh efl))
               end);
      '(_, ACEnt) ← GetNameEntry E DCEnt Name;
      mret ACEnt
  end.

(** ** Handles of directories *)

Definition dh_get (a : addr) : M S EDH :=
  l ← gets hs_DH; of_option (dir_LookupFromAddress l a).
Definition dh_put (a : addr) (edh : EDH) : M S unit :=
  modify (fun st => set_DH (dir_store (hs_DH st) a edh) st).
Definition dir_Insert (a : addr) (edh : EDH) : M S unit := modify (fun st => set_DH ((a, edh) :: hs_DH st) st).
(** dir_Remove and dir_Delete. *)
Definition dh_delete (a : addr) : M S unit := modify (fun st => set_DH (dir_Remove (hs_DH st) a) st).

(** dir_Create with the memory it gets. *)
Definition dh_create (Key cookie : Z) (fh : nfs_fh) (Name : option (list byte)) : M S (option (addr * EDH)) :=
  a ← AllocVec E;
  match a with
  | None => mret None
  | Some a =>
      edh ← of_option (dir_Create Key cookie fh (replicate (Z.to_nat NFS_COOKIESIZE) x00) Name (g_MaxFileNameLen cfg));
      mret (Some (a, edh))
  end.

(** An entry and its name; what has been copied is freed after a failure. *)
Fixpoint dir_DupEntries (l : list entry) : M S (option (list entry)) :=
  match l with
  | [] => mret (Some [])
  | e :: l =>
      newent ← mem_ok E; name ← mem_ok E;
      if (newent : bool) && (name : bool)
      then (r ← dir_DupEntries l; mret (cons e <$> r))
      else mret None
  end.

(** The loop around nextdir: the handle, the entries read, and the error that
    nfs_ReadDir left. *)
Fixpoint next_batch (fuel : nat) (edh : EDH) : M S (EDH * list entry * option Z) :=
  match fuel with
  | O => undef
  | Datatypes.S fuel =>
      maxread ← gets (fun st => ng_MaxReadDirSize (g_NFSGlobal (h_g (hs_h st))));
      r ← catch (rpc_call (nfs_ReadDir (edh_NFSDirFh edh) (edh_NFSCookie edh) maxread));
      match r with
      | inl Res2 => mret (edh, [], Some Res2)
      | inr (DirList entries Eof) =>
          let '(rest, c) := skip_entries (g_MaxFileNameLen cfg) entries (edh_NFSCookie edh) in
          let edh := set_edh_Read c Eof (edh_NFSEntries edh) edh in
          if bool_decide (entries <> []) && bool_decide (rest = []) && negb Eof
          then next_batch fuel edh
          else mret (edh, rest, None)
      end
  end.

(** Reading on, for EXAMINE_NEXT: the handle with its entries, or an error
    and no handle. *)
Definition next_entries (a : addr) (edh : EDH) : M S EDH :=
  if edh_Eof edh then _ ← dh_delete a; fail ERROR_NO_MORE_ENTRIES
  else
  '(edh, Entries, err) ← next_batch (env_fuel E) edh;
  dup ← (match Entries with [] => mret None | _ => dir_DupEntries Entries end);
  match dup with
  | Some Entries =>
      let edh := set_edh_Read (edh_NFSCookie edh) (edh_Eof edh) Entries edh in
      _ ← dh_put a edh; mret edh
  | None =>
      let Res2 := match Entries with [] => default 0 err | _ => ERROR_NO_FREE_STORE end in
      let Res2 := if edh_Eof edh then ERROR_NO_MORE_ENTRIES else Res2 in
      _ ← dh_delete a;
      fail (if Res2 >? 1000 then ERROR_NO_MORE_ENTRIES else Res2)
  end.

(** The handle a FileInfoBlock belongs to; a new one if it is the directory's own. *)
Definition next_handle (e : ELOCK) (fib : FIB) : M S (addr * EDH) :=
  l ← gets hs_DH;
  edh ← of_option (dir_LookupFromKeyAndCookieAndCBSTR l (fl_Key e) (fib_DiskKey fib) (fib_FileName fib));
  match edh with
  | Some ae => mret ae
  | None =>
      if negb (fl_Key e =? fib_DiskKey fib) then fail ERROR_NO_MORE_ENTRIES
      else
      ae ← dh_create (fl_Key e) (fib_DiskKey fib) (efl_NFSFh e) (Some (fib_FileName fib));
      match ae with
      | None => fail ERROR_NO_FREE_STORE
      | Some ae => _ ← dir_Insert ae.1 ae.2; mret ae
      end
  end.

(** The next entry goes to the FileInfoBlock and is remembered in the handle. *)
Definition give_entry (e : ELOCK) (a : addr) (edh : EDH) (fib : FIB) : M S FIB :=
  match dir_RemHeadEntry edh with
  | (None, _) => undef
  | (Some ent, edh) =>
      _ ← dh_put a edh;
      Attr ← LookupAttr e (e_fileid ent) (e_name ent);
      ace ← ac_get Attr;
      fib ← of_option (FAttr2FIB (ace_FAttr ace) (e_name ent) (-1) (g_MaxFileNameLen cfg) fib);
      n ← of_option (head (fib_FileName fib));
      Name ← of_option (put_name (edh_Name edh) (fib_FileName fib) (Z.min (Z_of_byte n + 2) (EDH_MAX_FILENAME_SIZE - 1)));
      _ ← dh_put a (set_edh_Last (fa_fileid (ace_FAttr ace)) (e_cookie ent) Name edh);
      mret fib
  end.

Definition act_EXAMINE_NEXT (fl : option addr) (fib : FIB) : M S FIB :=
  efl ← lock_Lookup fl;
  match efl with
  | None => _ ← set_res DOSFALSE ERROR_INVALID_LOCK; _ ← set_res DOSFALSE 0; mret fib
  | Some (_, e) =>
      r ← catch (
                   '(a, edh) ← next_handle e fib;
                 if IsSameFH (efl_NFSFh e) (edh_NFSDirFh edh)
                 then edh ← (match edh_NFSEntries edh with [] => next_entries a edh | _ => mret edh end);
                 give_entry e a edh fib
                 else fail ERROR_OBJECT_WRONG_TYPE);
      match r with
      | inl Res2 => _ ← set_res DOSFALSE Res2; mret fib
      | inr fib => _ ← set_res DOSTRUE 0; mret fib
      end
  end.

(** ** Attributes by tags *)

Definition act_GET_ATTRIBUTES (fl : option addr) (cbstr : list byte) (TagList : list TagItem)
  : M S (list TagItem * list (Z * DateStamp)) :=
  r ← catch ('(ParentDir, f) ← LRootLocateDir E cfg fl cbstr false;
             '(_, ACEnt) ← GetNameEntry E ParentDir (fp_Name f);
             ac_get ACEnt);
  match r with
  | inl Res2 => _ ← set_res DOSFALSE Res2; mret (TagList, [])
  | inr ace =>
      let l := attr_tag (ace_FAttr ace) <$> TagList in
      _ ← set_res (zlen (filter (fun x => x.2 = true) l)) 0;
      mret (fst ∘ fst <$> l, omap (snd ∘ fst) l)
  end.
End Examine.
