(* ===== verification/ExAll.v ===== *)
(** * Listing a directory into a buffer (examine.c)

    EXAMINE_ALL stores as many entries as fit into the caller's buffer, each
    an ExAllData with its name behind it.  The buffer is its bytes, big-endian
    numbers and pointers of four bytes; [Buf] is the address of its first
    byte.  Only the members up to the one of [EType] are stored. *)
From S2P Require Import Prelude MBuf WBufInfo NfsProt NfsSupp Nfs NfsLookup Global FtHash DCache.
From S2P Require Import FileHandle Dirs HState Fn Walk Find Xdr Fib Examine.

Definition ED_NAME : Z := 1.
Definition ED_TYPE : Z := 2.
Definition ED_SIZE : Z := 3.
Definition ED_PROTECTION : Z := 4.
Definition ED_DATE : Z := 5.
Definition ED_COMMENT : Z := 6.
Definition ED_OWNER : Z := 7.

(** Offsets in struct ExAllData (xexall.h); ed_Mins and ed_Ticks follow ed_Days. *)
Definition ed_Next : Z := 0.
Definition ed_Name : Z := 4.
Definition ed_Type : Z := 8.
Definition ed_Size : Z := 12.
Definition ed_Prot : Z := 16.
Definition ed_Days : Z := 20.
Definition ed_Comment : Z := 32.
Definition ed_OwnerUID : Z := 36.
Definition ed_OwnerGID : Z := 38.

Definition GetFixedSize (EType : Z) : Z :=
  if EType =? ED_NAME then ed_Type
  else if EType =? ED_TYPE then ed_Size
  else if EType =? ED_SIZE then ed_Prot
  else if EType =? ED_PROTECTION then ed_Days
  else if EType =? ED_DATE then ed_Comment
  else if EType =? ED_COMMENT then ed_OwnerUID
  else ed_OwnerUID + 2.

Definition be16 (z : Z) : list byte := [byte_of_Z (z / 2 ^ 8); byte_of_Z z].

(** Stores one after the other into the buffer. *)
Fixpoint stores (m : list byte) (l : list (Z * list byte)) : option (list byte) :=
  match l with
  | [] => Some m
  | (off, bs) :: l => (m ← copy_at m off bs; stores m l)
  end.

(** The stores of an entry at offset [off] of the buffer; the cases of the
    switch fall through, so those of a type are its own and all after it. *)
Definition ead_stores (Buf off EType FixedSize : Z) (realLen : nat) (name : list byte) (a : fattr)
  : list (Z * list byte) :=
  let ds := timeval2DateStamp (fa_mtime a) in
  [(off + ed_Next, be32 0)]
  ++ (if negb (EType <? ED_OWNER) then [(off + ed_OwnerUID, be16 (nfsuid2UID (fa_uid a))); (off + ed_OwnerGID, be16 (nfsgid2GID (fa_gid a)))] else [])
  ++ (if negb (EType <? ED_COMMENT) then [(off + ed_Comment, be32 0)] else [])
  ++ (if negb (EType <? ED_DATE) then [(off + ed_Days, be32 (ds_Days ds) ++ be32 (ds_Minute ds) ++ be32 (ds_Tick ds))] else [])
  ++ (if negb (EType <? ED_PROTECTION) then [(off + ed_Prot, be32 (NFSMode2Protection (fa_mode a)))] else [])
  ++ (if negb (EType <? ED_SIZE) then [(off + ed_Size, be32 (fa_size a))] else [])
  ++ (if negb (EType <? ED_TYPE) then [(off + ed_Type, be32 (NFSType2EntryType (fa_type a)))] else [])
  ++ [(off + ed_Name, be32 (Buf + off + FixedSize));
      (off + FixedSize, take realLen name);
      (off + FixedSize + Z.of_nat realLen, [x00])].

(** The size of the entry and the buffer, or -1; [off] is where Buf points.
    The attributes are not used for [ED_NAME]. *)
Definition PutExAllData (Buf : Z) (m : list byte) (off Size EType FixedSize MaxFileNameLen : Z)
  (name : list byte) (a : fattr) : option (Z * list byte) :=
  let realLen := Z.min (zlen name) MaxFileNameLen in
  let nameLen := Z.land (realLen + 1 + 3) 0xFFFFFFFC in
  let sizeNeeded := FixedSize + nameLen in
  if Size >=? sizeNeeded
  then m ← stores m (ead_stores Buf off EType FixedSize (Z.to_nat realLen) name a); Some (sizeNeeded, m)
  else Some (-1, m).

(** What the loops keep: the buffer, how far it is used, the offset of the
    last entry, the number of entries and [Res2]. *)
Record Listing := MkListing { x_m : list byte; x_off : Z; x_Size : Z; x_last : option Z; x_Num : Z; x_Res2 : Z }.

(** [*Res1] and [*Res2] when the loops end, and whether the handle is left. *)
Inductive ended := GoesOn (x : Listing) | Ended (x : Listing) (Res1 Res2 : Z).

Section ExAll.
Context {S : Type} `{NfsRpc S} `{DosNames} (E : Env) (cfg : Config).

(** dos.library's MatchPatternNoCase. *)
Context (MatchPatternNoCase : list byte -> list byte -> bool).

Definition unlock_caches : M S unit :=
  t ← now E; _ ← on_Attr (unit_op (attrs_UnLockAll t));
  t ← now E; on_Dir (unit_op (dc_UnLockAll t)).

(** LookupAttr, a second time after the caches are unlocked; the attributes and
    [Res2], which a first failure leaves there. *)
Definition lookup_again (e : ELOCK) (ent : entry) (Res2 : Z) : M S (addr * Z) :=
  r ← catch (LookupAttr E e (e_fileid ent) (e_name ent));
  match r with
  | inr a => mret (a, Res2)
  | inl Res2 =>
      if Res2 =? ERROR_NO_FREE_STORE
      then _ ← unlock_caches; a ← LookupAttr E e (e_fileid ent) (e_name ent); mret (a, Res2)
      else fail Res2
  end.

(** Reading on: the handle with its entries, or the error; the handle is gone then.
    [Res2] is what is in the caller's variable. *)
Definition GetNextEntries (a : addr) (edh : EDH) (Res2 : Z) : M S EDH :=
  if edh_Eof edh then _ ← dh_delete a; fail ERROR_NO_MORE_ENTRIES
  else
  '(edh, Entries, err) ← next_batch cfg (env_fuel E) edh;
  match Entries with
  | [] =>
      let Res2 := if edh_Eof edh then ERROR_NO_MORE_ENTRIES else default Res2 err in
      _ ← dh_delete a;
      fail (if Res2 >? 1000 then ERROR_NO_MORE_ENTRIES else Res2)
  | _ =>
      dup ← dir_DupEntries E Entries;
      match dup with
      | None => _ ← dh_delete a; fail ERROR_NO_FREE_STORE
      | Some Entries =>
          let edh := set_edh_Read (edh_NFSCookie edh) (edh_Eof edh) Entries edh in
          _ ← dh_put a edh; mret edh
      end
  end.

(** The pattern and the hook of the caller; the hook gets the type and what
    is in the buffer from the entry on. *)
Context (matchString : option (list byte)) (matchFunc : option (Z -> list byte -> bool)).

(** The stores of an entry that is taken; [link] is the one to the entry before. *)
Definition take_entry (Buf : Z) (x : Listing) (m : list byte) (entrySize : Z) : option Listing :=
  m ← (match x_last x with
       | Some l => copy_at m (l + ed_Next) (be32 (Buf + x_off x))
       | None => Some m
       end);
  Some (MkListing m (x_off x + entrySize) (u32 (x_Size x - entrySize)) (Some (x_off x)) (x_Num x + 1) (x_Res2 x)).

Definition rem_head (a : addr) : M S unit :=
  edh ← dh_get a;
  match dir_RemHeadEntry edh with
  | (None, _) => undef
  | (Some ent, edh) => dh_put a (set_edh_Read (e_cookie ent) (edh_Eof edh) (edh_NFSEntries edh) edh)
  end.

(** The entries of the handle, until one does not fit. *)
Fixpoint all_entries (Buf EType : Z) (e : ELOCK) (a : addr) (l : list entry) (x : Listing) : M S ended :=
  match l with
  | [] => mret (GoesOn x)
  | ent :: l =>
      if match matchString with Some p => negb (MatchPatternNoCase p (e_name ent)) | None => false end
      then _ ← rem_head a; all_entries Buf EType e a l x
      else
      Attr ← catch (if EType >? ED_NAME
                    then '(p, Res2) ← lookup_again e ent (x_Res2 x); ace ← ac_get p; mret (ace_FAttr ace, Res2)
                    else mret (g_MntAttr cfg, x_Res2 x));
      match Attr with
      | inl Res2 => _ ← dh_delete a; mret (Ended x DOSFALSE Res2)
      | inr (attr, Res2) =>
          '(entrySize, m) ← of_option (PutExAllData Buf (x_m x) (x_off x) (s32 (x_Size x)) EType (GetFixedSize EType)
                                         (g_MaxFileNameLen cfg) (e_name ent) attr);
          let x := MkListing m (x_off x) (x_Size x) (x_last x) (x_Num x) Res2 in
          if entrySize <? 0 then mret (Ended x DOSTRUE 0)
          else
          x ← (if match matchFunc with
                  | Some f => negb (f EType (drop (Z.to_nat (x_off x)) m))
                  | None => false
                  end
               then mret x
               else of_option (take_entry Buf x m entrySize));
          _ ← rem_head a; all_entries Buf EType e a l x
      end
  end.

Fixpoint all_batches (fuel : nat) (Buf EType : Z) (e : ELOCK) (a : addr) (x : Listing) : M S ended :=
  match fuel with
  | O => undef
  | Datatypes.S fuel =>
      edh ← dh_get a;
      edh ← catch (match edh_NFSEntries edh with [] => GetNextEntries a edh (x_Res2 x) | _ => mret edh end);
      match edh with
      | inl Res2 => mret (Ended x DOSFALSE Res2)
      | inr edh =>
          r ← all_entries Buf EType e a (edh_NFSEntries edh) x;
          match r with
          | GoesOn x => all_batches fuel Buf EType e a x
          | Ended x Res1 Res2 => mret (Ended x Res1 Res2)
          end
      end
  end.

(** The handle of the scan, new for LastKey NULL. *)
Definition all_handle (e : ELOCK) (LastKey : option addr) : M S addr :=
  match LastKey with
  | None =>
      ae ← dh_create E cfg (fl_Key e) (fl_Key e) (efl_NFSFh e) None;
      match ae with
      | None => fail ERROR_NO_FREE_STORE
      | Some ae => _ ← dir_Insert ae.1 ae.2; mret ae.1
      end
  | Some a =>
      l ← gets hs_DH;
      match dir_LookupFromAddress l a with
      | None => fail ERROR_NO_MORE_ENTRIES
      | Some _ => mret a
      end
  end.

(** The buffer, eac_Entries and eac_LastKey.  Every batch of the directory is
    read once, and the end of it once more. *)
Definition act_EXAMINE_ALL (fl : option addr) (Buf : Z) (m : list byte) (Size EType : Z)
  (eac_Entries : Z) (LastKey : option addr) : M S (list byte * Z * option addr) :=
  if (EType <? ED_NAME) || (EType >? ED_OWNER) || (Size <? 8)
  then _ ← set_res DOSFALSE ERROR_BAD_NUMBER; mret (m, eac_Entries, LastKey)
  else
  m ← of_option (copy_at m ed_Next (be32 0));
  efl ← lock_Lookup fl;
  match efl with
  | None => _ ← set_res DOSFALSE ERROR_INVALID_LOCK; _ ← set_res DOSFALSE 0; mret (m, 0, LastKey)
  | Some (_, e) =>
      a ← catch (all_handle e LastKey);
      match a with
      | inl Res2 => _ ← set_res DOSFALSE Res2; mret (m, 0, LastKey)
      | inr a =>
          r ← all_batches (2 + env_fuel E) Buf EType e a (MkListing m 0 Size None 0 0);
          match r with
          | GoesOn x => undef
          | Ended x Res1 Res2 => _ ← set_res Res1 Res2; mret (x_m x, x_Num x, Some a)
          end
      end
  end.
End ExAll.
