(* ===== verification/Object.v ===== *)
(** * Objects, links and attributes (object.c, link.c, attr.c)

    Everything that makes, renames, removes or describes an object; links first.

    READ_LINK follows a path like RootLocateDir, but up to the last name, and
    at a soft link gives the path with the link's contents in place of what
    was followed.  The caller's buffer is the string in it. *)
From S2P Require Import Prelude MBuf WBufInfo NfsProt NfsSupp Nfs Global FileHandle FtHash DCache Fn NfsLookup Dirs.
From S2P Require Import HState Walk Find Fib.

(** ** Objects and their attributes (object.c, attr.c)

    Deleting, renaming and creating objects, and setting protection, date and
    owner.  The server is asked first; what the caches say about the object is
    then forgotten or replaced. *)

(** dos.h *)
Definition CHANGE_LOCK : Z := 0.
Definition CHANGE_FH : Z := 1.

Section Object.
Context {S : Type} `{NfsRpc S} `{DosNames} (E : Env) (cfg : Config).

Definition dir_delete (FileId : Z) : M S unit := on_Dir (unit_op (fun c => dc_DCEDeleteFromFileId c FileId)).
Definition ne_delete (p : addr * addr) : M S unit := on_Dir (unit_op (fun c => dc_NERemove c p.1 p.2)).

(** A call of the server of which only success or failure matters. *)
Definition rpc_done (f : S -> rpc unit * S) : M S unit :=
  r ← catch (rpc_call f);
  match r with
  | inl Res2 => set_res DOSFALSE Res2
  | inr _ => set_res1 DOSTRUE
  end.

(** fn_Delete of a Name or FullName that is set by LRootLocateDir only when it
    succeeds: it frees whatever the variable holds. *)
Definition fn_Delete_unset : M S unit := undef.

(** [*Res2] of what fails before anything is done. *)
Definition or_error (m : M S unit) : M S unit :=
  r ← catch m;
  match r with
  | inl Res2 => set_res DOSFALSE Res2
  | inr _ => mret tt
  end.

Definition act_DELETE_OBJECT (fl : option addr) (cbstr : list byte) : M S unit :=
  loc ← catch (LRootLocateDir E cfg fl cbstr false);
  match loc with
  | inl Res2 => _ ← set_res DOSFALSE Res2; fn_Delete_unset
  | inr (ParentDir, f) =>
      or_error (
                  '(NEnt, _) ← GetNameEntry E ParentDir (fp_Name f);
                e ← ne_get NEnt;
                elock ← lock_LookupFromKey (ne_FileId e);
                match elock with
                | Some _ => fail ERROR_OBJECT_IN_USE
                | None =>
                    dirfh ← dir_fh ParentDir;
                    _ ← (if ne_FType e =? NFDIR
                         then _ ← rpc_done (nfs_RmDir dirfh (fp_Name f));
                         dir_delete (ne_FileId e)
                         else rpc_done (nfs_Remove dirfh (fp_Name f)));
                    _ ← attr_delete (ne_FileId e);
                    ne_delete NEnt
                end)
  end.

Definition act_CREATE_DIR (fl : option addr) (cbstr : list byte) : M S unit :=
  loc ← catch (LRootLocateDir E cfg fl cbstr false);
  match loc with
  | inl Res2 => _ ← set_res DOSFALSE Res2; fn_Delete_unset
  | inr (ParentDir, f) =>
      or_error (
                  dirfh ← dir_fh ParentDir;
                dir ← rpc_call (nfs_MkDir dirfh (fp_Name f) (g_UID cfg) (g_GID cfg) (nfsc_ApplyUMask cfg 511));
                newelock ← lock_Create E (fp_FullName f) (fp_FullNameLen f) (fp_Name f) (fp_NameLen f) NFDIR EXCLUSIVE_LOCK;
                match newelock with
                | None => fail ERROR_NO_FREE_STORE
                | Some (a, e) =>
                    _ ← lock_Insert (a, lock_set e (do_file dir) (efl_NFSType e) (fa_fileid (do_attributes dir)));
                    set_res1 (MKBADDR a)
                end)
  end.

Definition act_RENAME_OBJECT (fl1 : option addr) (cbstr1 : list byte) (fl2 : option addr) (cbstr2 : list byte)
  : M S unit :=
  or_error (
              '(ParentDir1, f1) ← LRootLocateDir E cfg fl1 cbstr1 false;
            '(ParentDir2, f2) ← LRootLocateDir E cfg fl2 cbstr2 false;
            '(NEnt, _) ← GetNameEntry E ParentDir1 (fp_Name f1);
            e ← ne_get NEnt;
            elock ← lock_LookupFromKey (ne_FileId e);
            match elock with
            | Some _ => fail ERROR_OBJECT_IN_USE
            | None =>
                dirfh1 ← dir_fh ParentDir1;
                dirfh2 ← dir_fh ParentDir2;
                _ ← rpc_call (nfs_Rename dirfh1 (fp_Name f1) dirfh2 (fp_Name f2));
                _ ← dir_delete (ne_FileId e);
                _ ← attr_delete (ne_FileId e);
                _ ← ne_delete NEnt;
                set_res1 DOSTRUE
            end).

(** The two cases of CHANGE_MODE for the lock at [a] of the list. *)
Definition change_access (a : addr) (e : ELOCK) (NewMode : Z) : M S unit :=
  let store (Mode : Z) :=
  lock_store a (MkELOCK (fl_Key e) Mode (efl_NFSFh e) (efl_NFSType e)
                  (efl_FullName e) (efl_FullNameLen e) (efl_Name e) (efl_NameLen e)) in
  if NewMode =? SHARED_LOCK
  then if fl_Access e =? SHARED_LOCK then set_res1 DOSTRUE
  else n ← lock_NumLocksFromKey (fl_Key e);
  if n >? 1 then set_res DOSFALSE ERROR_OBJECT_IN_USE
  else _ ← set_res1 DOSTRUE; store SHARED_LOCK
  else if fl_Access e =? EXCLUSIVE_LOCK then set_res1 DOSTRUE
  else n ← lock_NumLocksFromKey (fl_Key e);
  if n >? 1 then set_res DOSFALSE ERROR_OBJECT_IN_USE
  else _ ← set_res1 DOSTRUE; store EXCLUSIVE_LOCK.

(** [fh_Arg1]: that of the handle if the object is one; [fl]: the lock. *)
Definition act_CHANGE_MODE (ObjType : Z) (fh_Arg1 : Z) (fl : option addr) (NewMode : Z) : M S unit :=
  if negb ((ObjType =? CHANGE_FH) || negb (ObjType =? CHANGE_LOCK))
  || negb ((NewMode =? SHARED_LOCK) || (NewMode =? EXCLUSIVE_LOCK))
  then set_res DOSFALSE ERROR_OBJECT_WRONG_TYPE
  else if ObjType =? CHANGE_FH
  then efh ← gets (fun st => fh_Lookup (hs_h st) fh_Arg1);
  match efh with
  | Some efh => '(a, e) ← fh_lock (efh_Id efh); change_access a e NewMode
  | None => set_res DOSFALSE ERROR_FILE_NOT_OBJECT
  end
  else if ObjType =? CHANGE_LOCK
  then efl ← lock_Lookup fl;
  match efl with
  | Some (a, e) => change_access a e NewMode
  | None => set_res DOSFALSE ERROR_FILE_NOT_OBJECT
  end
  else mret tt.

Definition act_CREATE_OBJECT (fl : option addr) (cbstr : list byte) (OType subtype1 : Z) : M S unit :=
  if negb (OType =? ST_BDEVICE) && negb (OType =? ST_CDEVICE)
  then set_res DOSFALSE ERROR_BAD_NUMBER
  else
  loc ← catch (LRootLocateDir E cfg fl cbstr false);
  match loc with
  | inl Res2 => _ ← set_res DOSFALSE Res2; fn_Delete_unset
  | inr (ParentDir, f) =>
      or_error (
                let UMode := nfsc_ApplyUMask cfg 511 in
                let ULen := subtype1 in
                dirfh ← dir_fh ParentDir;
                _ ← rpc_call (nfs_Create dirfh (fp_Name f) (g_UID cfg) (g_GID cfg) UMode (u32 ULen));
                set_res1 DOSTRUE)
  end.

(** ** attr.c *)

(** The three packets differ in the call of the server only. *)
Definition set_attributes (fl : option addr) (cbstr : list byte) (call : nfs_fh -> S -> rpc fattr * S) : M S unit :=
  r ← catch (LRootLocateDir E cfg fl cbstr false);
  match r with
  | inl Res2 => set_res DOSFALSE Res2
  | inr (ParentDir, f) =>
      dirfh ← dir_fh ParentDir;
      file ← catch (srv_Lookup E dirfh (fp_Name f));
      match file with
      | inr file =>
          newattr ← catch (rpc_call (call (do_file file)));
          match newattr with
          | inr newattr => _ ← attr_update E (do_file file) newattr; set_res1 DOSTRUE
          | inl Res2 => _ ← attr_delete (fa_fileid (do_attributes file)); set_res DOSFALSE Res2
          end
      | inl Res2 =>
          d ← dc_get ParentDir;
          _ ← attr_delete (dce_FileId d);
          set_res DOSFALSE Res2
      end
  end.

(** aulib's conversion of protection bits, which is not part of the program. *)
Context (au_Protection2umode : Z -> Z).

Definition act_SET_PROTECT (fl : option addr) (cbstr : list byte) (Mask : Z) : M S unit :=
  set_attributes fl cbstr (fun fh => nfs_Chmod fh (au_Protection2umode Mask)).
Definition act_SET_DATE (fl : option addr) (cbstr : list byte) (ds : DateStamp) : M S unit :=
  set_attributes fl cbstr (fun fh => nfs_SetTimes fh (DateStamp2timeval ds)).
Definition act_SET_OWNER (fl : option addr) (cbstr : list byte) (OwnerGroup : Z) : M S unit :=
  let Owner := Z.land (Z.shiftr OwnerGroup 16) 0xFFFF in
  let Group := Z.land OwnerGroup 0xFFFF in
  set_attributes fl cbstr (fun fh => nfs_SetUidGid fh Owner Group).
End Object.

(** dos.h *)
Definition LINK_HARD : Z := 0.
Definition LINK_SOFT : Z := 1.

(** The results 1, 2, 0 and -1 of PathWalk. *)
Inductive walked :=
| PathOk
| PathLink (Buf : list byte)
| PathError (Res2 : Z)
| PathTooSmall.

Section Link.
Context {S : Type} `{NfsRpc S} `{DosNames} (E : Env) (cfg : Config).

(** The case of a link. *)
Definition read_link (FullName : list byte) (From Len : Z) (BufLen : Z) (fh : nfs_fh) : M S walked :=
  u_lpath ← catch (rpc_call (nfs_ReadLink fh));
  match u_lpath with
  | inl Res2 => mret (PathError Res2)
  | inr u_lpath =>
      r ← of_option (fn_InsertLink [] BufLen (Some (g_VolumeName cfg)) FullName From Len u_lpath);
      mret (match r with
            | inl Res2 => if Res2 =? ERROR_NO_FREE_STORE then PathTooSmall else PathError Res2
            | inr Buf => PathLink Buf
            end)
  end.

(** The loop; a directory that cannot be had ends it with the result 1. *)
Fixpoint path_loop (fuel : nat) (FullName : list byte) (BufLen : Z) (WorkPath : list byte) (Pos : Z) (ParDir : addr)
  : M S walked :=
  match fuel with
  | O => undef
  | Datatypes.S fuel =>
      '(p, WorkPath, Pos, LastElement) ← of_option (fn_ScanPath WorkPath Pos);
      let PComp := cstr (drop (Z.to_nat p) WorkPath) in
      if bool_decide (at0 PComp = slash) then mret (PathError junk_Res2)
      else
      r ← catch (GetNameEntry E ParDir PComp);
      match r with
      | inl Res2 => mret (PathError Res2)
      | inr (ActNEnt, ACE) =>
          e ← ne_get ActNEnt;
          if negb (ne_FType e =? NFDIR) && negb (ne_FType e =? NFLNK)
          then mret (PathError ERROR_INVALID_COMPONENT_NAME)
          else if ne_FType e =? NFLNK
          then fh ← fh_get (FhACE ACE); read_link FullName p (zlen PComp) BufLen fh
          else
          ActDir ← catch (GetDirEntry E (Some ActNEnt) DCE_ID_UNUSED (FhACE ACE));
          match ActDir with
          | inl _ => mret PathOk
          | inr ActDir =>
              if (LastElement : bool) then mret PathOk
              else path_loop fuel FullName BufLen WorkPath Pos ActDir
          end
      end
  end.

Definition PathWalk (FullName : list byte) (FullNameLen BufLen : Z) : M S walked :=
  ok ← mem_ok E;
  w ← of_option (StrNDup ok FullName FullNameLen);
  match w with
  | None => mret (PathError ERROR_NO_FREE_STORE)
  | Some WorkPath =>
      ParDir ← catch (GetDirEntry E None (fa_fileid (g_MntAttr cfg)) (FhVal (g_MntFh cfg)));
      match ParDir with
      | inl Res2 => mret (PathError Res2)
      | inr ParDir =>
          if FullNameLen =? 0 then mret PathOk
          else path_loop (length WorkPath + 1) FullName BufLen (WorkPath ++ [x00]) 0 ParDir
      end
  end.

(** The string left in the buffer, if one is. *)
Definition act_READ_LINK (fl : option addr) (Path : list byte) (BufSize : Z) : M S (option (list byte)) :=
  f ← catch (CBuildFullName E cfg fl Path);
  match f with
  | inl Res2 => _ ← set_res DOSFALSE Res2; mret None
  | inr f =>
      Res ← PathWalk (fp_FullName f) (fp_FullNameLen f) BufSize;
      match Res with
      | PathLink Buf => _ ← set_res (zlen Buf) 0; mret (Some Buf)
      | PathOk => _ ← set_res DOSFALSE ERROR_OBJECT_NOT_FOUND; mret None
      | PathError Res2 => _ ← set_res DOSFALSE Res2; mret None
      | PathTooSmall => _ ← set_res (-2) 0; mret None
      end
  end.

Definition do_act_MAKE_HARD_LINK (fl1 : option addr) (cbstr1 : list byte) (fl2 : option addr) : M S unit :=
  destelock ← lock_Lookup fl2;
  match destelock with
  | None => set_res DOSFALSE ERROR_INVALID_LOCK
  | Some (_, e) =>
      or_error (
                  '(ParentDir1, f) ← LRootLocateDir E cfg fl1 cbstr1 false;
                dirfh ← dir_fh ParentDir1;
                rpc_done (nfs_Link (efl_NFSFh e) dirfh (fp_Name f)))
  end.

Definition do_act_MAKE_SOFT_LINK (fl : option addr) (cbstr Path : list byte) : M S unit :=
  loc ← catch (LRootLocateDir E cfg fl cbstr false);
  match loc with
  | inl Res2 => _ ← set_res DOSFALSE Res2; fn_Delete_unset
  | inr (ParentDir, f) =>
      dirfh ← dir_fh ParentDir;
      rpc_done (nfs_Symlink dirfh (fp_Name f) (g_UID cfg) (g_GID cfg) Path)
  end.

(** Arg3 is a lock for a hard link, a path for a soft one. *)
Definition act_MAKE_LINK (fl : option addr) (cbstr : list byte) (fl2 : option addr) (Path : list byte) (Mode : Z)
  : M S unit :=
  if Mode =? LINK_SOFT then do_act_MAKE_SOFT_LINK fl cbstr Path
  else if Mode =? LINK_HARD then do_act_MAKE_HARD_LINK fl cbstr fl2
  else set_res DOSFALSE ERROR_REQUIRED_ARG_MISSING.
End Link.
