(* ===== verification/Cred.v ===== *)
(** * Credentials (cred.c)

    The user whose rights the calls have: fixed by name, or taken from the
    task that sent a packet.  The user and group database and the credentials
    of tasks belong to the network library; [UserGroup] is what it answers at
    the time of a call.  A task is the address of its structure. *)
From S2P Require Import Prelude.

Definition CR_DEFAULT_UMASK : Z := 18.
Definition CRF_USER : Z := 1.
Definition CRF_UMASK : Z := 2.
(** libraries/usergroup.h *)
Definition NGROUPS : Z := 32.

(** struct UserGroupCredentials *)
Record UGCred := MkUGCred { cr_euid : Z; cr_rgid : Z; cr_umask : Z; cr_groups : list Z }.

(** [ug_passwd] is getpwnam, [ug_groups] what getgrent gives: the id of each
    group and its members; [ug_creds] is getcredentials. *)
Record UserGroup := MkUserGroup {
  ug_passwd : list byte -> option (Z * Z);
  ug_groups : list (Z * list (list byte));
  ug_creds : addr -> option UGCred
}.

(** The AUTH of the rpc library: what authunix_create was given. *)
Record AUTH := MkAUTH { au_uid : Z; au_gid : Z; au_gids : list Z }.

(** CRED; [cr_NGroups] is the number of [cr_GIDS] that are set. *)
Record CRED := MkCRED {
  cr_Flags : Z;
  cr_UserName : option (list byte);
  cr_UID : Z;
  cr_GID : Z;
  cr_GIDS : list Z;
  cr_NGroups : Z;
  cr_UMask : Z;
  cr_Auth : option AUTH;
  cr_ClientCache : option addr;
  cr_ClientCacheUMask : option addr
}.

Definition set_cr_user (flags : Z) (name : option (list byte)) (uid gid : Z) (cr : CRED) : CRED :=
  MkCRED flags name uid gid (cr_GIDS cr) (cr_NGroups cr) (cr_UMask cr) (cr_Auth cr) (cr_ClientCache cr) (cr_ClientCacheUMask cr).
Definition set_cr_groups (gids : list Z) (n : Z) (cr : CRED) : CRED :=
  MkCRED (cr_Flags cr) (cr_UserName cr) (cr_UID cr) (cr_GID cr) gids n (cr_UMask cr) (cr_Auth cr) (cr_ClientCache cr) (cr_ClientCacheUMask cr).
Definition set_cr_umask (flags umask : Z) (client : option addr) (cr : CRED) : CRED :=
  MkCRED flags (cr_UserName cr) (cr_UID cr) (cr_GID cr) (cr_GIDS cr) (cr_NGroups cr) umask (cr_Auth cr) (cr_ClientCache cr) client.
Definition set_cr_auth (a : option AUTH) (cr : CRED) : CRED :=
  MkCRED (cr_Flags cr) (cr_UserName cr) (cr_UID cr) (cr_GID cr) (cr_GIDS cr) (cr_NGroups cr) (cr_UMask cr) a (cr_ClientCache cr) (cr_ClientCacheUMask cr).
Definition set_cr_cache (client umask_client : option addr) (cr : CRED) : CRED :=
  MkCRED (cr_Flags cr) (cr_UserName cr) (cr_UID cr) (cr_GID cr) (cr_GIDS cr) (cr_NGroups cr) (cr_UMask cr) (cr_Auth cr) client umask_client.

(** [cr->cr_Flags & f] *)
Definition cr_flag (cr : CRED) (f : Z) : bool := negb (Z.land (cr_Flags cr) f =? 0).

(** Of a CRED that main() has cleared. *)
Definition cr_Init (cr : CRED) : CRED :=
  MkCRED 0 (cr_UserName cr) (cr_UID cr) (cr_GID cr) (cr_GIDS cr) (cr_NGroups cr) (cr_UMask cr)
    None None (cr_ClientCacheUMask cr).
Definition cr_InvalidateCache (cr : CRED) : CRED := set_cr_cache None None cr.
Definition cr_Flush (cr : CRED) : CRED := cr_InvalidateCache cr.
Definition cr_CleanUp (cr : CRED) : CRED :=
  match cr_Auth cr with
  | Some _ => cr_InvalidateCache (set_cr_auth None cr)
  | None => cr
  end.

Section Cred.
Context (ug : UserGroup).

Definition cr_SetUser (mem_ok : bool) (cr : CRED) (user : list byte) : bool * CRED :=
  if mem_ok
  then match ug_passwd ug user with
       | Some (uid, gid) =>
           (true, set_cr_cache None (cr_ClientCacheUMask cr)
              (set_cr_user (Z.lor (cr_Flags cr) CRF_USER) (Some user) uid gid cr))
       | None => (false, cr)
       end
  else (false, cr).

Definition cr_UMaskWasSet (cr : CRED) : bool := cr_flag cr CRF_UMASK.

Definition cr_UpdateCreds (cr : CRED) (client : addr) : CRED :=
  if cr_flag cr CRF_UMASK then cr
  else if bool_decide (Some client = cr_ClientCacheUMask cr) then cr
  else match ug_creds ug client with
       | Some creds => set_cr_umask (cr_Flags cr) (cr_umask creds) (Some client) cr
       | None => set_cr_umask (cr_Flags cr) CR_DEFAULT_UMASK None cr
       end.

Definition cr_SetUMask (cr : CRED) (umask : Z) : CRED :=
  set_cr_umask (Z.lor (cr_Flags cr) CRF_UMASK) umask None cr.

Definition cr_GetUser (cr : CRED) : option (list byte) :=
  if cr_flag cr CRF_USER then cr_UserName cr else None.

(** The ids of the groups the name is in; -1, if they are more than fit, is [None]. *)
Fixpoint cr_getgroups (name : list byte) (gidsetlen : Z) (groups : list (Z * list (list byte))) (gidset : list Z)
  : option (list Z) :=
  match groups with
  | [] => Some gidset
  | (gid, mem) :: groups =>
      if bool_decide (name ∈ mem)
      then if zlen gidset =? gidsetlen then None
      else cr_getgroups name gidsetlen groups (gidset ++ [gid])
      else cr_getgroups name gidsetlen groups gidset
  end.

(** The credentials to use from now on; [auth_ok]: authunix_create succeeds.
    The result tells whether cr_Auth is returned; [None] is a store outside of
    cr_GIDS or a name that is not set. *)
Definition cr_SetAuth (auth_ok : bool) (cr : CRED) (client : addr) : option (bool * CRED) :=
  if cr_flag cr CRF_USER
  then (name ← cr_UserName cr;
        match ug_passwd ug name with
        | None => Some (false, cr)
        | Some (uid, gid) =>
            match cr_getgroups name NGROUPS (ug_groups ug) [] with
            | None => Some (false, cr)
            | Some groups =>
                (gids ← copy_at (cr_GIDS cr) 0 groups;
                 let cr := set_cr_groups gids (zlen groups) (set_cr_user (cr_Flags cr) (cr_UserName cr) uid gid cr) in
                 let cr := if auth_ok then set_cr_auth (Some (MkAUTH uid gid groups)) cr else cr in
                 Some (auth_ok, set_cr_cache None (cr_ClientCacheUMask cr) cr))
            end
        end)
  else match ug_creds ug client with
       | None => Some (false, cr)
       | Some creds =>
           if auth_ok
           then (gids ← copy_at (cr_GIDS cr) 0 (cr_groups creds);
                 let cr := set_cr_auth (Some (MkAUTH (cr_euid creds) (cr_rgid creds) (cr_groups creds))) cr in
                 let cr := set_cr_user (cr_Flags cr) (cr_UserName cr) (cr_euid creds) (cr_rgid creds) cr in
                 Some (true, set_cr_cache (Some client) (cr_ClientCacheUMask cr)
                         (set_cr_groups gids (zlen (cr_groups creds)) cr)))
           else Some (false, cr)
       end.

Definition cr_UpdateAuth (auth_ok : bool) (cr : CRED) (client : addr) : option (bool * CRED) :=
  match cr_Auth cr with
  | None => cr_SetAuth auth_ok cr client
  | Some _ =>
      if cr_flag cr CRF_USER then Some (true, cr)
      else if bool_decide (Some client = cr_ClientCache cr) then Some (true, cr)
      else cr_SetAuth auth_ok cr client
  end.

Definition cr_AuthNeedsUpdate (cr : CRED) (client : addr) : bool * CRED :=
  match cr_Auth cr with
  | None => (true, cr)
  | Some _ =>
      if cr_flag cr CRF_USER then (false, cr)
      else if negb (bool_decide (Some client = cr_ClientCache cr)) then (true, cr)
      else match ug_creds ug client with
           | Some creds =>
               if negb (cr_euid creds =? cr_UID cr) then (true, cr_InvalidateCache cr) else (false, cr)
           | None => (false, cr)
           end
  end.
End Cred.
