(* ===== verification/Volume.v ===== *)
(** * The volume (filesys.c, info.c, timer.c)

    The members of Global_T that only the packets about the volume and the
    main loop change are in [Vol]; the packets on names get them as a
    [Config].  Flushing goes through the list of open files. *)
From S2P Require Import Prelude MBuf WBufInfo NfsProt NfsSupp Nfs NfsLookup Global WBuf RBuf FtHash DCache.
From S2P Require Import FileHandle Dirs HState Fn Walk Find ExAll Cred.

(** g_Flags *)
Definition GF_IS_MOUNTED : Z := 1.
Definition GF_IS_WRITE_PROTECTED : Z := 2.
Definition GF_USE_TIMEOUT_REQ : Z := 4.
Definition GF_SLOW_MEDIUM : Z := 0x20.
Definition GF_ASYNC_RPC : Z := 0x40.
Definition ATTR_CACHE_TIMEOUT_DEFAULT : Z := 30.
Definition DIR_CACHE_TIMEOUT_DEFAULT : Z := 60.

(** [v_Mnt] is what does not change after start-up; [v_Running] is
    GF_STATE_RUNNING. *)
Record Mounted := MkMounted {
  m_MntFh : nfs_fh;
  m_MntAttr : fattr;
  m_MaxFileNameLen : Z;
  m_BufSizePerFile : Z;
  m_Host : list byte;
  m_RootDir : list byte;
  m_Dev : addr
}.
Record Vol := MkVol {
  v_Mnt : Mounted;
  v_VolumeName : list byte;
  v_DlName : list byte;
  v_Flags : Z;
  v_LockKey : Z;
  v_NumBuffers : Z;
  v_AttrCacheTimeout : Z;
  v_AttrCacheMaxEntries : Z;
  v_DirCacheTimeout : Z;
  v_DirCacheMaxEntries : Z;
  v_RPCTimeout : Z;
  v_Creds : CRED;
  v_Running : bool;
  v_DoReply : bool
}.

Definition config (v : Vol) : Config :=
  MkConfig (m_MntFh (v_Mnt v)) (m_MntAttr (v_Mnt v)) (v_VolumeName v) (v_DlName v)
    (m_MaxFileNameLen (v_Mnt v)) (m_BufSizePerFile (v_Mnt v))
    (cr_UID (v_Creds v)) (cr_GID (v_Creds v)) (cr_UMask (v_Creds v)).

Definition set_names (VolumeName DlName : list byte) (v : Vol) : Vol :=
  MkVol (v_Mnt v) VolumeName DlName (v_Flags v) (v_LockKey v) (v_NumBuffers v) (v_AttrCacheTimeout v)
    (v_AttrCacheMaxEntries v) (v_DirCacheTimeout v) (v_DirCacheMaxEntries v) (v_RPCTimeout v) (v_Creds v)
    (v_Running v) (v_DoReply v).
Definition set_protect (Flags Key : Z) (v : Vol) : Vol :=
  MkVol (v_Mnt v) (v_VolumeName v) (v_DlName v) Flags Key (v_NumBuffers v) (v_AttrCacheTimeout v)
    (v_AttrCacheMaxEntries v) (v_DirCacheTimeout v) (v_DirCacheMaxEntries v) (v_RPCTimeout v) (v_Creds v)
    (v_Running v) (v_DoReply v).
Definition set_buffers (NumBuffers Attrs Dirs : Z) (v : Vol) : Vol :=
  MkVol (v_Mnt v) (v_VolumeName v) (v_DlName v) (v_Flags v) (v_LockKey v) NumBuffers (v_AttrCacheTimeout v)
    Attrs (v_DirCacheTimeout v) Dirs (v_RPCTimeout v) (v_Creds v) (v_Running v) (v_DoReply v).
Definition set_timeouts (AttrTO DirTO RPCTO : Z) (v : Vol) : Vol :=
  MkVol (v_Mnt v) (v_VolumeName v) (v_DlName v) (v_Flags v) (v_LockKey v) (v_NumBuffers v) AttrTO
    (v_AttrCacheMaxEntries v) DirTO (v_DirCacheMaxEntries v) RPCTO (v_Creds v) (v_Running v) (v_DoReply v).
Definition set_Creds (cr : CRED) (v : Vol) : Vol :=
  MkVol (v_Mnt v) (v_VolumeName v) (v_DlName v) (v_Flags v) (v_LockKey v) (v_NumBuffers v) (v_AttrCacheTimeout v)
    (v_AttrCacheMaxEntries v) (v_DirCacheTimeout v) (v_DirCacheMaxEntries v) (v_RPCTimeout v) cr
    (v_Running v) (v_DoReply v).
Definition set_running (Running DoReply : bool) (v : Vol) : Vol :=
  MkVol (v_Mnt v) (v_VolumeName v) (v_DlName v) (v_Flags v) (v_LockKey v) (v_NumBuffers v) (v_AttrCacheTimeout v)
    (v_AttrCacheMaxEntries v) (v_DirCacheTimeout v) (v_DirCacheMaxEntries v) (v_RPCTimeout v) (v_Creds v)
    Running DoReply.

(** [g->g_Flags & f], and the flag set or cleared. *)
Definition v_flag (v : Vol) (f : Z) : bool := negb (Z.land (v_Flags v) f =? 0).
Definition set_flag (v : Vol) (f : Z) (on : bool) : Z :=
  if on then Z.lor (v_Flags v) f else Z.land (v_Flags v) (Z.lnot f).

(** ** Distribution of the buffers *)

Definition ATTRENTRYSIZE : Z := 8 + 4 + 4 + 112.
Definition DIRENTRYSIZE : Z := 16 + 44 + 10 + 2 * 20.

(** The loop that gives the rest of the memory to the caches. *)
Fixpoint spread_rest (fuel : nat) (BufMem Attrs Dirs : Z) : option (Z * Z) :=
  if 0 <=? BufMem
  then match fuel with
       | O => None
       | S fuel => spread_rest fuel (s32 (BufMem - (ATTRENTRYSIZE + DIRENTRYSIZE))) (Attrs + 1) (Dirs + 1)
       end
  else Some (Attrs, Dirs).

Definition DistributeBuffers (v : Vol) (NumBufs : Z) : option (Z * Z * Z) :=
  let BufMem := s32 (NumBufs * 512) in
  let BigTimeout := (v_AttrCacheTimeout v >=? 4 * ATTR_CACHE_TIMEOUT_DEFAULT)
                    || (v_DirCacheTimeout v >=? 4 * DIR_CACHE_TIMEOUT_DEFAULT) in
  let MBufs := (BufMem ÷ 2) ÷ MBUFSIZE in
  let Attrs := (BufMem ÷ 4) ÷ ATTRENTRYSIZE in
  let Dirs := (BufMem ÷ 4) ÷ DIRENTRYSIZE in
  let Attrs := if negb BigTimeout && (Attrs >? 200) then 200 else Attrs in
  let Dirs := if negb BigTimeout && (Dirs >? 200) then 200 else Dirs in
  let MBufs := if v_flag v GF_SLOW_MEDIUM && ((MBufs * MBUFSIZE) ÷ 8192 >? 50) then 50 else MBufs in
  let BufMem := BufMem - MBufs * MBUFSIZE in
  let BufMem := BufMem - Attrs * ATTRENTRYSIZE in
  let BufMem := BufMem - Dirs * DIRENTRYSIZE in
  let '(MBufs, BufMem) :=
    if negb BigTimeout && negb (v_flag v GF_SLOW_MEDIUM)
    then let l := BufMem ÷ MBUFSIZE in
         if l =? 0 then (MBufs, BufMem) else (MBufs + l, BufMem - l * MBUFSIZE)
    else (MBufs, BufMem) in
  '(Attrs, Dirs) ← spread_rest (Z.to_nat (BufMem / (ATTRENTRYSIZE + DIRENTRYSIZE) + 1)) BufMem Attrs Dirs;
  Some (MBufs, if Attrs <? 20 then 20 else Attrs, if Dirs <? 20 then 20 else Dirs).

(** struct InfoData *)
Record InfoData := MkInfoData {
  id_NumSoftErrors : Z;
  id_UnitNumber : Z;
  id_DiskState : Z;
  id_NumBlocks : Z;
  id_NumBlocksUsed : Z;
  id_BytesPerBlock : Z;
  id_DiskType : Z;
  id_VolumeNode : Z;
  id_InUse : bool
}.
Definition ID_WRITE_PROTECTED : Z := 80.
Definition ID_VALIDATED : Z := 82.
(** "DOS" and a zero byte *)
Definition ID_DOS_DISK : Z := 0x444F5300.

Section Volume.
Context {S : Type} `{NfsRpc S} (E : Env).

Definition act_IS_FILESYSTEM : M S unit := set_res1 DOSTRUE.
Definition act_CURRENT_VOLUME (v : Vol) : M S unit := set_res (MKBADDR (m_Dev (v_Mnt v))) 0.

Definition act_WRITE_PROTECT (v : Vol) (Flag Key : Z) : M S Vol :=
  let DoLock := Flag =? DOSTRUE in
  if DoLock
  then if v_flag v GF_IS_WRITE_PROTECTED
  then _ ← set_res DOSFALSE ERROR_DISK_WRITE_PROTECTED; mret v
  else _ ← set_res1 DOSTRUE; mret (set_protect (set_flag v GF_IS_WRITE_PROTECTED true) Key v)
  else if v_flag v GF_IS_WRITE_PROTECTED
  then if negb (Key =? v_LockKey v)
  then _ ← set_res DOSFALSE ERROR_REQUIRED_ARG_MISSING; mret v
  else _ ← set_res1 DOSTRUE; mret (set_protect (set_flag v GF_IS_WRITE_PROTECTED false) (v_LockKey v) v)
  else _ ← set_res1 DOSTRUE; mret v.

(** The handle is one of the list; its result is 1, to go on. *)
Definition FlushProc (efh : EFH) (h : option (Handler S)) : Z * option (Handler S) :=
  (1, h ← h;
   if HasBufferedWData efh
   then '(ok, Res2, g, efh) ← wc_FlushCache (h_g h) efh junk_Res2;
   let failed := ok =? DOSFALSE in
   let h := set_FH (update_fh (h_FH h) (if failed then set_Res2 Res2 efh else efh)) (set_g g h) in
   Some (if failed then SetRes h DOSFALSE Res2 else h)
   else Some h).
Definition flush_all (h : Handler S) : option (Handler S) := fh_ForEach (h_FH h) FlushProc (Some h).
Definition on_handler (f : Handler S -> option (Handler S)) : M S unit := fun st =>
  (h ← f (hs_h st); Some (inr tt, set_h h st)).

Definition act_FLUSH : M S unit := _ ← on_handler flush_all; set_res1 DOSTRUE.

(** As the code has it: the read buffers stay. *)
Definition RemReadBufs : M S unit := on_handler flush_all.

Definition num_free : M S (Z * Z) :=
  gets (fun st => let m := g_MBufs (h_g (hs_h st)) in (g_NumMBufs m, g_NumFreeMBufs m)).
Definition on_MBufs {A} (f : mbpool -> option (A * mbpool)) : M S A :=
  on_g (fun g => '(x, m) ← f (g_MBufs g); Some (x, set_MBufs m g)).

(** What AllocMem gives to mb_AllocMoreMBufs is [rs], fresh memory has [junk] in it. *)
Definition act_MORE_CACHE (rs : nat -> option addr) (junk : list byte) (v : Vol) (Num : Z) : M S Vol :=
  if Num =? 0 then _ ← set_res DOSTRUE (s32 (v_NumBuffers v)); mret v
  else
  let NumBufs := s32 (v_NumBuffers v + Num) in
  let NumBufs := if NumBufs <? 0 then 0 else NumBufs in
  '(MBufs, Attrs, Dirs) ← of_option (DistributeBuffers v NumBufs);
  '(n, free) ← num_free;
  let DiffMBufs := MBufs - n in
  ok ← (if DiffMBufs <? 0
        then _ ← (if n - MBufs >? free then act_FLUSH else mret tt);
        '(n, free) ← num_free;
        _ ← (if n - MBufs >? free then RemReadBufs else mret tt);
        '(n, _) ← num_free;
        on_MBufs (fun m => m ← mb_FreeSomeMBufs m (n - MBufs); Some (true, m))
        else if DiffMBufs >? 0
        then on_MBufs (fun m => mb_AllocMoreMBufs rs junk m DiffMBufs)
        else mret true);
  if (ok : bool)
  then t ← now E; _ ← on_Attr (unit_op (fun c => attrs_SetCacheSize t c Attrs));
  t ← now E; _ ← on_Dir (unit_op (fun c => dc_SetCacheSize t c Dirs));
  _ ← set_res DOSTRUE NumBufs; mret (set_buffers NumBufs Attrs Dirs v)
  else _ ← set_res DOSFALSE ERROR_NO_FREE_STORE; mret v.

(** [mem p]: the client's memory from address [p] on; [Arg1] is the address of
    a BSTR.  [newname] is a BPTR, a quarter of it: DupBSTR makes an address of
    it again, the call of StrNDup uses it as it is. *)
Definition act_RENAME_DISK (v : Vol) (mem : Z -> list byte) (Arg1 : Z) : M S Vol :=
  let newname := Arg1 / 4 in
  v ← (if newname =? 0 then mret v
       else
       ok1 ← mem_ok E;
       n ← of_option (head (mem (4 * newname)));
       bnewvolname ← of_option (StrNDup ok1 (tail (mem (4 * newname))) (Z_of_byte n));
       ok2 ← mem_ok E;
       n ← of_option (head (mem newname));
       newvolname ← of_option (StrNDup ok2 (tail (mem newname)) (Z_of_byte n));
       mret (match bnewvolname, newvolname with
             | Some b, Some s => set_names (cstr s) b v
             | _, _ => v
             end));
  _ ← set_res1 DOSTRUE; mret v.

(** ** timer.c *)

(** [own]: the packet is the handler's.  The second result: ti_StartTimer has sent
    the request of the timer again, to come back as an ACTION_TIMER. *)
Definition act_TIMER (v : Vol) (own : bool) : M S (Vol * bool) :=
  if own
  then t ← now E; _ ← on_Dir (unit_op (dc_Bury t));
  t ← now E; _ ← on_Attr (unit_op (attrs_Bury t));
  _ ← act_FLUSH;
  mret (set_running (v_Running v) false v, true)
  else _ ← set_res DOSFALSE ERROR_OBJECT_WRONG_TYPE; mret (v, false).

(** ** info.c *)

Definition IsInUse (st : HState S) : bool :=
  negb (bool_decide (hs_Locks st = [])) || negb (bool_decide (h_FH (hs_h st) = [])).

(** [id]: what is in the InfoData before. *)
Definition do_act_INFO (v : Vol) (fh : nfs_fh) (id : InfoData) : M S InfoData :=
  r ← catch (rpc_call (nfs_statfs fh));
  match r with
  | inl Res2 => _ ← set_res DOSFALSE Res2; mret id
  | inr sf =>
      inuse ← gets IsInUse;
      _ ← set_res1 DOSTRUE;
      mret (MkInfoData 0 0 (if v_flag v GF_IS_WRITE_PROTECTED then ID_WRITE_PROTECTED else ID_VALIDATED)
              (s32 (sf_blocks sf)) (s32 (sf_blocks sf - sf_bavail sf)) (s32 (sf_bsize sf))
              ID_DOS_DISK (MKBADDR (m_Dev (v_Mnt v))) inuse)
  end.

Definition act_INFO (v : Vol) (fl : option addr) (id : InfoData) : M S InfoData :=
  match fl with
  | None => do_act_INFO v (m_MntFh (v_Mnt v)) id
  | Some _ =>
      elock ← lock_Lookup fl;
      match elock with
      | None => _ ← set_res DOSFALSE ERROR_INVALID_LOCK; mret id
      | Some (_, e) => do_act_INFO v (efl_NFSFh e) id
      end
  end.

Definition act_DISK_INFO (v : Vol) (id : InfoData) : M S InfoData := do_act_INFO v (m_MntFh (v_Mnt v)) id.
End Volume.
