(* ===== verification/IoCtl.v ===== *)
(** * Control commands (iocontrol.c)

    Commands that come through the ARexx port: "GET name" and "SET name value".
    [stptok], [atoi] and [strtol8] (strtol to base 8) are functions of the
    compiler's library.  A reply is a string, numbers that SPrintf prints with
    spaces between, or an error code. *)
From Stdlib Require Import Strings.String.
From S2P Require Import Prelude MBuf WBufInfo NfsProt NfsSupp Nfs NfsLookup Global WBuf RBuf FtHash DCache.
From S2P Require Import FileHandle Dirs HState Fn Walk Find ExAll Cred Volume.

Definition ERROR_ACTION_NOT_KNOWN : Z := 209.
(** rexx/errors.h *)
Definition ERR10_015 : Z := 15.
Definition ERR10_041 : Z := 41.

Definition CG_DEBUG : Z := 0.
Definition CS_DEBUG : Z := 1.
Definition CG_UMASK : Z := 2.
Definition CS_UMASK : Z := 3.
Definition CG_USER : Z := 4.
Definition CS_USER : Z := 5.
Definition CG_MR : Z := 6.
Definition CS_MR : Z := 7.
Definition CG_MD : Z := 8.
Definition CS_MD : Z := 9.
Definition CG_MW : Z := 10.
Definition CS_MW : Z := 11.
Definition CG_WL : Z := 12.
Definition CS_WL : Z := 13.
Definition CG_ACTO : Z := 14.
Definition CS_ACTO : Z := 15.
Definition CG_DCTO : Z := 16.
Definition CS_DCTO : Z := 17.
Definition CG_RPCTO : Z := 18.
Definition CS_RPCTO : Z := 19.
Definition CG_TR : Z := 20.
Definition CS_TR : Z := 21.
Definition CG_SM : Z := 22.
Definition CS_SM : Z := 23.
Definition CG_ARPC : Z := 24.
Definition CS_ARPC : Z := 25.
Definition CG_CMDS : Z := 100.
Definition CG_VOLUME : Z := 102.
Definition CG_MNTHOST : Z := 103.
Definition CG_MNTDIR : Z := 104.

Definition ATTR_CACHE_TIMEOUT_MIN : Z := 0.
Definition ATTR_CACHE_TIMEOUT_MAX : Z := 60 * 60.
Definition DIR_CACHE_TIMEOUT_MIN : Z := 0.
Definition DIR_CACHE_TIMEOUT_MAX : Z := 60 * 60.
Definition RPC_TIMEOUT_MIN : Z := 25.
Definition RPC_TIMEOUT_MAX : Z := 10 * 60.

Definition bytes_of (s : string) : list byte := list_byte_of_string s.

(** struct Code *)
Record Code := MkCode { code_Cmd : list byte; code_Get : Z; code_Set : Z }.
Definition Codes : list Code := [
  MkCode (bytes_of "COMMANDS") CG_CMDS (-1);
  MkCode (bytes_of "VOLUME") CG_VOLUME (-1);
  MkCode (bytes_of "MNTHOST") CG_MNTHOST (-1);
  MkCode (bytes_of "MNTDIR") CG_MNTDIR (-1);
  MkCode (bytes_of "DEBUG") 0 1;
  MkCode (bytes_of "UMASK") 2 3;
  MkCode (bytes_of "USER") 4 5;
  MkCode (bytes_of "MAX_READSIZE") CG_MR CS_MR;
  MkCode (bytes_of "MAX_READDIRSIZE") CG_MD CS_MD;
  MkCode (bytes_of "MAX_WRITESIZE") CG_MW CS_MW;
  MkCode (bytes_of "WRITEBUFFERLIMIT") CG_WL CS_WL;
  MkCode (bytes_of "ATTRCACHE_TIMEOUT") CG_ACTO CS_ACTO;
  MkCode (bytes_of "DIRCACHE_TIMEOUT") CG_DCTO CS_DCTO;
  MkCode (bytes_of "RPC_TIMEOUT") CG_RPCTO CS_RPCTO;
  MkCode (bytes_of "TIMEOUTREQ") CG_TR CS_TR;
  MkCode (bytes_of "SLOW_MEDIUM") CG_SM CS_SM;
  MkCode (bytes_of "ASYNC_RPC") CG_ARPC CS_ARPC ].

(** The first command of this name, the case aside. *)
Fixpoint find_code (l : list Code) (Get : bool) (Buf : list byte) : Z :=
  match l with
  | [] => -1
  | c :: l => if stricmp (code_Cmd c) Buf then (if Get then code_Get c else code_Set c) else find_code l Get Buf
  end.

Inductive reply := RxString (Buf : list byte) | RxNums (l : list Z) | RxErr (code : Z).

Definition octal3 (i : Z) : list byte :=
  [byte_of_Z (48 + Z.rem (i ÷ 8 ÷ 8) 8); byte_of_Z (48 + Z.rem (i ÷ 8) 8); byte_of_Z (48 + Z.rem i 8)].

Definition commands : list byte :=
  concat ((fun c => bytes_of "(" ++ code_Cmd c ++ (if code_Get c =? -1 then [] else bytes_of ",GET")
                    ++ (if code_Set c =? -1 then [] else bytes_of ",SET") ++ bytes_of ")") <$> Codes).

(** [max(lo, min(hi, i))] *)
Definition clamp (lo hi i : Z) : Z := Z.max lo (Z.min hi i).

Section IoCtl.
Context {S : Type} `{NfsRpc S} (E : Env).
Context (stptok : list byte -> Z -> list byte * list byte) (atoi strtol8 : list byte -> Z).

Definition ctl_get (v : Vol) (g : Global_T S) (code : Z) : option reply :=
  let cr := v_Creds v in
  let ng := g_NFSGlobal g in
  let b (f : Z) := RxNums [if v_flag v f then 1 else 0] in
  let str (s : list byte) := RxString (take 511 s) in
  if code =? CG_DEBUG then Some (RxString (bytes_of "-1 -1 -1"))
  else if code =? CG_UMASK
  then Some (RxString (if cr_UMaskWasSet cr then octal3 (cr_UMask cr) else bytes_of "<unset>"))
  else if code =? CG_USER
  then Some (match cr_GetUser cr with Some s => str s | None => RxString (bytes_of "<unset>") end)
  else if code =? CG_MR then Some (RxNums [0x100; ng_MaxReadSize ng; NFS_MAXDATA])
  else if code =? CG_MD then Some (RxNums [0x100; ng_MaxReadDirSize ng; NFS_MAXDATA])
  else if code =? CG_MW then Some (RxNums [0x100; ng_MaxWriteSize ng; NFS_MAXDATA])
  else if code =? CG_WL then Some (RxNums [0; g_WriteBufferLimit g; 10000])
  else if code =? CG_ACTO then Some (RxNums [ATTR_CACHE_TIMEOUT_MIN; v_AttrCacheTimeout v; ATTR_CACHE_TIMEOUT_MAX])
  else if code =? CG_DCTO then Some (RxNums [DIR_CACHE_TIMEOUT_MIN; v_DirCacheTimeout v; DIR_CACHE_TIMEOUT_MAX])
  else if code =? CG_RPCTO then Some (RxNums [RPC_TIMEOUT_MIN; v_RPCTimeout v; RPC_TIMEOUT_MAX])
  else if code =? CG_TR then Some (b GF_USE_TIMEOUT_REQ)
  else if code =? CG_SM then Some (b GF_SLOW_MEDIUM)
  else if code =? CG_ARPC then Some (b GF_ASYNC_RPC)
  else if code =? CG_CMDS then Some (RxString commands)
  else if code =? CG_VOLUME then Some (str (v_VolumeName v))
  else if code =? CG_MNTHOST then Some (str (m_Host (v_Mnt v)))
  else if code =? CG_MNTDIR then Some (str (m_RootDir (v_Mnt v)))
  else None.

Definition set_ng (f : NFSGlobal_T -> NFSGlobal_T) : M S unit :=
  on_g (fun g => Some (tt, Global (g_MBufs g) (g_NumWBufHdrs g) (g_NumFreeWBufHdrs g) (g_FreeWBufHdr g) (g_WBufHdrs g)
                         (f (g_NFSGlobal g)) (g_WriteBufferLimit g) (g_NFSClnt g))).
Definition set_wl (WriteBufferLimit : Z) : M S unit :=
  on_g (fun g => Some (tt, Global (g_MBufs g) (g_NumWBufHdrs g) (g_NumFreeWBufHdrs g) (g_FreeWBufHdr g) (g_WBufHdrs g)
                         (g_NFSGlobal g) WriteBufferLimit (g_NFSClnt g))).

Definition on_clnt (f : S -> S) : M S unit := on_g (fun g => Some (tt, set_NFSClnt (f (g_NFSClnt g)) g)).

(** The value is [Buf]; a failure is the code for the reply. *)
Definition ctl_set (ug : UserGroup) (v : Vol) (code : Z) (Buf : list byte) : M S Vol :=
  let i := atoi Buf in
  let flag (f : Z) := set_protect (set_flag v f (negb (i =? 0))) (v_LockKey v) v in
  if code =? CS_UMASK then mret (set_Creds (cr_SetUMask (v_Creds v) (Z.land (strtol8 Buf) 511)) v)
  else if code =? CS_USER
  then ok ← mem_ok E;
  let '(r, cr) := cr_SetUser ug ok (v_Creds v) Buf in
  if (r : bool) then mret (set_Creds cr v) else fail ERR10_041
  else if code =? CS_MR
  then _ ← set_ng (fun n => NFSGlobal (ng_NumRRPCs n) (ng_NumWRPCs n) (clamp 0x100 NFS_MAXDATA i) (ng_MaxReadDirSize n) (ng_MaxWriteSize n)); mret v
  else if code =? CS_MD
  then _ ← set_ng (fun n => NFSGlobal (ng_NumRRPCs n) (ng_NumWRPCs n) (ng_MaxReadSize n) (clamp 0x100 NFS_MAXDATA i) (ng_MaxWriteSize n)); mret v
  else if code =? CS_MW
  then _ ← set_ng (fun n => NFSGlobal (ng_NumRRPCs n) (ng_NumWRPCs n) (ng_MaxReadSize n) (ng_MaxReadDirSize n) (clamp 0x100 NFS_MAXDATA i)); mret v
  else if code =? CS_WL then _ ← set_wl (clamp 0 10000 i); mret v
  else if code =? CS_ACTO
  then let ui := clamp ATTR_CACHE_TIMEOUT_MIN ATTR_CACHE_TIMEOUT_MAX i in
  r ← on_Attr (fun c => Some (attrs_SetCacheTimeout c ui));
  if r =? -1 then fail ERR10_041 else mret (set_timeouts ui (v_DirCacheTimeout v) (v_RPCTimeout v) v)
  else if code =? CS_DCTO
  then let ui := clamp DIR_CACHE_TIMEOUT_MIN DIR_CACHE_TIMEOUT_MAX i in
  r ← on_Dir (fun c => Some (dc_SetCacheTimeout c ui));
  if r =? -1 then fail ERR10_041 else mret (set_timeouts (v_AttrCacheTimeout v) ui (v_RPCTimeout v) v)
  else if code =? CS_RPCTO
  then _ ← on_clnt (clnt_set_timeout (clamp RPC_TIMEOUT_MIN RPC_TIMEOUT_MAX i));
  secs ← gets (fun st => clnt_get_timeout (g_NFSClnt (h_g (hs_h st))));
  _ ← on_clnt (clnt_set_retry_timeout (secs ÷ 5));
  mret (set_timeouts (v_AttrCacheTimeout v) (v_DirCacheTimeout v) secs v)
  else if code =? CS_TR then mret (flag GF_USE_TIMEOUT_REQ)
  else if code =? CS_SM then mret (flag GF_SLOW_MEDIUM)
  else if code =? CS_ARPC
  then let n := if i =? 0 then 1 else 2 in
  _ ← set_ng (fun g => NFSGlobal n n (ng_MaxReadSize g) (ng_MaxReadDirSize g) (ng_MaxWriteSize g));
  mret (flag GF_ASYNC_RPC)
  else fail ERR10_015.

Fixpoint skip_spaces (s : list byte) : list byte :=
  match s with
  | c :: s' => if bool_decide (c = x20) then skip_spaces s' else s
  | [] => []
  end.
Definition next_word (s : list byte) : list byte * list byte :=
  let '(Buf, rest) := stptok s 512 in (Buf, skip_spaces rest).

(** [arg0]: the command, if the packet is the handler's own. *)
Definition act_IOCONTROL (ug : UserGroup) (v : Vol) (arg0 : option (list byte))
  : M S (Vol * option reply) :=
  match arg0 with
  | None => _ ← set_res DOSFALSE ERROR_ACTION_NOT_KNOWN; mret (v, None)
  | Some arg0 =>
      let v := set_running (v_Running v) false v in
      let '(Buf, s) := next_word arg0 in
      r ← catch (
                 if stricmp Buf (bytes_of "GET")
                 then let '(Buf, s) := next_word s in
                 g ← gets (fun st => h_g (hs_h st));
                 match ctl_get v g (find_code Codes true Buf) with
                 | Some r => mret (v, r)
                 | None => fail ERR10_015
                 end
                 else if stricmp Buf (bytes_of "SET")
                 then let '(Buf, s) := next_word s in
                 let code := find_code Codes false Buf in
                 if code =? -1 then fail ERR10_015
                 else
                 let '(Buf, _) := stptok s 512 in
                 if bool_decide (at0 Buf = x00) then fail ERR10_041
                 else v ← ctl_set ug v code Buf; mret (v, RxString Buf)
                 else fail ERR10_015);
      _ ← set_res1 DOSTRUE;
      mret (match r with
            | inr (v, r) => (v, Some r)
            | inl code => (v, Some (RxErr code))
            end)
  end.
End IoCtl.
