(* ===== verification/Rexx.v ===== *)
(** * The ARexx port (simplerexx.c) and the answers to its commands

    A message is a record, the pointers the interface gives are [rmsg_ptr].  A
    world [World] has the public ports of other programs, the messages still to
    come, and what the program did: the messages it answered with their results,
    the ARexx variables it set, the messages it sent and deleted.  Messages come in
    batches, one whenever the port is looked at; [WaitPort] takes batches until
    there is a message, and gives [None] when none ever comes.

    simplerexx.c is called with memory, libraries and ports that may not be had;
    these answers are arguments.  [stci_d] and SetRexxVar are functions of the
    compiler's and of Amiga's libraries.

    [took] says what taking a list of messages does to the port and the world; the
    loops of FreeARexx are steps of it.  The theorems: FreeARexx comes to an end and
    answers every message that reached the port, without following
    REXX_RETURN_ERROR; InitARexx finds the first name that is free, within its
    arrays; every command is answered once, and never with its error number. *)
From Stdlib Require Import Strings.String.
From S2P Require Import Prelude NfsProt IoCtl.
Local Open Scope Z_scope.

(** rexx/storage.h, rexx/errors.h, rexx/rxslib.h *)
Definition RXCOMM : Z := 2 ^ 24.
Definition RXFB_RESULT : Z := 17.
Definition RXFB_STRING : Z := 18.
Definition RC_ERROR : Z := 10.
Definition RXSDIR : list byte := bytes_of "REXX".

(** rm_Result2: a number or an argument string. *)
Inductive result2 := R2Num (n : Z) | R2Arg (s : list byte).

(** [rm_reply]: its type is NT_REPLYMSG, it is one of the program's own that comes
    back; [rm_rexx]: it comes from an ARexx program (CheckRexxMsg). *)
Record RexxMsg := MkRexxMsg {
  rm_id : Z; rm_reply : bool; rm_rexx : bool; rm_Action : Z;
  rm_Result1 : Z; rm_Result2 : result2; rm_Args0 : list byte
}.

Definition set_Result (r1 : Z) (r2 : result2) (m : RexxMsg) : RexxMsg :=
  MkRexxMsg (rm_id m) (rm_reply m) (rm_rexx m) (rm_Action m) r1 r2 (rm_Args0 m).

(** NULL, REXX_RETURN_ERROR or a message. *)
Inductive rmsg_ptr := RNull | REXX_RETURN_ERROR | RMsg (m : RexxMsg).

(** [ARexxPort] has the messages waiting at the port. *)
Record ARexxContext := MkContext {
  ARexxPort : option (list RexxMsg); arc_RexxSysBase : bool; Outstanding : Z;
  PortName : list byte; ErrorName : list byte; Extension : list byte
}.

Definition set_port (p : option (list RexxMsg)) (c : ARexxContext) : ARexxContext :=
  MkContext p (arc_RexxSysBase c) (Outstanding c) (PortName c) (ErrorName c) (Extension c).
Definition set_outstanding (n : Z) (c : ARexxContext) : ARexxContext :=
  MkContext (ARexxPort c) (arc_RexxSysBase c) n (PortName c) (ErrorName c) (Extension c).
Definition set_portname (n : list byte) (c : ARexxContext) : ARexxContext :=
  MkContext (ARexxPort c) (arc_RexxSysBase c) (Outstanding c) n (ErrorName c) (Extension c).

Record World := MkWorld {
  w_ports : list (list byte); w_arrive : list (list RexxMsg); w_replied : list RexxMsg;
  w_vars : list (Z * list byte * list byte); w_sent : list RexxMsg; w_deleted : list Z
}.

Definition set_arrive (l : list (list RexxMsg)) (w : World) : World :=
  MkWorld (w_ports w) l (w_replied w) (w_vars w) (w_sent w) (w_deleted w).
Definition add_replied (m : RexxMsg) (w : World) : World :=
  MkWorld (w_ports w) (w_arrive w) (w_replied w ++ [m]) (w_vars w) (w_sent w) (w_deleted w).
Definition add_var (x : Z * list byte * list byte) (w : World) : World :=
  MkWorld (w_ports w) (w_arrive w) (w_replied w) (w_vars w ++ [x]) (w_sent w) (w_deleted w).
Definition add_sent (m : RexxMsg) (w : World) : World :=
  MkWorld (w_ports w) (w_arrive w) (w_replied w) (w_vars w) (w_sent w ++ [m]) (w_deleted w).
Definition add_deleted (id : Z) (w : World) : World :=
  MkWorld (w_ports w) (w_arrive w) (w_replied w) (w_vars w) (w_sent w) (w_deleted w ++ [id]).

(** FindPort: a public port has this name. *)
Definition FindPort (w : World) (name : list byte) : bool := bool_decide (name ∈ w_ports w).

Section Rexx.
Context (stci_d : Z -> list byte) (SetRexxVar : RexxMsg -> list byte -> list byte -> Z).

Definition ARexxName (RexxContext : option ARexxContext) : option (list byte) :=
  PortName <$> RexxContext.

(** The mask of the port's signal, which is bit [mp_SigBit]. *)
Definition ARexxSignal (RexxContext : option ARexxContext) (mp_SigBit : Z) : option Z :=
  match RexxContext with
  | None => Some 0
  | Some c => _ ← ARexxPort c; Some (Z.shiftl 1 mp_SigBit)
  end.

(** ** Taking messages *)

(** GetMsg(ARexxPort) *)
Definition get_msg (c : ARexxContext) (w : World)
  : option (option RexxMsg * ARexxContext * World) :=
  q ← ARexxPort c;
  let '(new, later) := match w_arrive w with [] => ([], []) | b :: l => (b, l) end in
  match q ++ new with
  | [] => Some (None, set_port (Some []) c, set_arrive later w)
  | m :: q => Some (Some m, set_port (Some q) c, set_arrive later w)
  end.

Definition GetARexxMsg (RexxContext : option ARexxContext) (w : World)
  : option (rmsg_ptr * option ARexxContext * World) :=
  match RexxContext with
  | None => Some (RNull, None, w)
  | Some c =>
      '(tmp, c, w) ← get_msg c w;
      match tmp with
      | None => Some (RNull, Some c, w)
      | Some m =>
          if rm_reply m
          then Some (if rm_Result1 m =? 0 then RNull else REXX_RETURN_ERROR,
                 Some (set_outstanding (Outstanding c - 1) c), add_deleted (rm_id m) w)
          else Some (RMsg m, Some c, w)
      end
  end.

(** ** Answering them *)

(** [mem]: CreateArgstring gets memory. *)
Definition ReplyARexxMsg (RexxContext : option ARexxContext) (mem : bool) (rmsg : rmsg_ptr)
  (RString : option (list byte)) (Error : Z) (w : World) : World :=
  match RexxContext, rmsg with
  | Some _, RMsg m =>
      let r2 :=
        if Error =? 0 then
          if Z.testbit (rm_Action m) RXFB_RESULT then
            match RString with
            | Some s => if mem then R2Arg s else R2Num 0
            | None => R2Num 0
            end
          else R2Num 0
        else R2Num 0 in
      add_replied (set_Result Error r2 m) w
  | _, _ => w
  end.

(** CheckRexxMsg follows the pointer: [None] for REXX_RETURN_ERROR. *)
Definition SetARexxLastError (RexxContext : option ARexxContext) (rmsg : rmsg_ptr)
  (ErrorString : list byte) (w : World) : option (bool * World) :=
  match RexxContext, rmsg with
  | None, _ | _, RNull => Some (false, w)
  | _, REXX_RETURN_ERROR => None
  | Some c, RMsg m =>
      if rm_rexx m
      then if SetRexxVar m (ErrorName c) ErrorString =? 0
           then Some (true, add_var (rm_id m, ErrorName c, ErrorString) w)
           else Some (false, w)
      else Some (false, w)
  end.

(** [mem1], [mem2]: CreateRexxMsg and CreateArgstring get memory; [id] is the new
    message.  The bool is the function's result. *)
Definition SendARexxMsg (RexxContext : option ARexxContext) (mem1 mem2 : bool) (id : Z)
  (RString : option (list byte)) (StringFile : bool) (w : World)
  : bool * option ARexxContext * World :=
  match RexxContext, RString with
  | Some c, Some s =>
      if mem1 then
        let rmsg := MkRexxMsg id false false
          (Z.lor RXCOMM (if StringFile then Z.shiftl 1 RXFB_STRING else 0)) 0 (R2Num 0) s in
        if mem2 then
          if FindPort w RXSDIR
          then (true, Some (set_outstanding (Outstanding c + 1) c), add_sent rmsg w)
          else (false, Some c, add_deleted id w)
        else (false, Some c, add_deleted id w)
      else (false, Some c, w)
  | _, _ => (false, RexxContext, w)
  end.

(** ** FreeARexx *)

Fixpoint wait_arrival (l : list (list RexxMsg)) : option (list RexxMsg * list (list RexxMsg)) :=
  match l with
  | [] => None
  | [] :: l => wait_arrival l
  | b :: l => Some (b, l)
  end.

Definition WaitPort (c : ARexxContext) (w : World) : option (ARexxContext * World) :=
  q ← ARexxPort c;
  match q with
  | _ :: _ => Some (c, w)
  | [] => '(b, l) ← wait_arrival (w_arrive w); Some (set_port (Some b) c, set_arrive l w)
  end.

Definition PORT_CLOSED : list byte := bytes_of "99: Port Closed!".

(** The inner loop, while messages are outstanding. *)
Fixpoint answer_waiting (fuel : nat) (c : ARexxContext) (w : World) : option (ARexxContext * World) :=
  match fuel with
  | O => None
  | Datatypes.S fuel =>
      '(rmsg, c, w) ← GetARexxMsg (Some c) w;
      c ← c;
      match rmsg with
      | RNull => Some (c, w)
      | REXX_RETURN_ERROR => answer_waiting fuel c w
      | RMsg m =>
          '(_, w) ← SetARexxLastError (Some c) rmsg PORT_CLOSED w;
          answer_waiting fuel c (ReplyARexxMsg (Some c) false rmsg None 100 w)
      end
  end.

Fixpoint clean_out (fuel : nat) (c : ARexxContext) (w : World) : option (ARexxContext * World) :=
  match fuel with
  | O => None
  | Datatypes.S fuel =>
      if Outstanding c =? 0 then Some (c, w)
      else
      '(c, w) ← WaitPort c w;
      '(c, w) ← answer_waiting (Datatypes.S fuel) c w;
      clean_out fuel c w
  end.

(** The loop before the port is deleted. *)
Fixpoint answer_dead (fuel : nat) (c : ARexxContext) (w : World) : option (ARexxContext * World) :=
  match fuel with
  | O => None
  | Datatypes.S fuel =>
      '(rmsg, c, w) ← GetARexxMsg (Some c) w;
      c ← c;
      match rmsg with
      | RNull => Some (c, w)
      | _ =>
          '(_, w) ← SetARexxLastError (Some c) rmsg PORT_CLOSED w;
          answer_dead fuel c (ReplyARexxMsg (Some c) false rmsg None 100 w)
      end
  end.

(** The messages that wait and those still to come. *)
Definition pending (c : ARexxContext) (w : World) : list RexxMsg :=
  default [] (ARexxPort c) ++ concat (w_arrive w).

Definition FreeARexx (RexxContext : option ARexxContext) (w : World) : option World :=
  match RexxContext with
  | None => Some w
  | Some c =>
      let c := set_portname [] c in
      let fuel := Datatypes.S (List.length (pending c w)) in
      '(c, w) ← clean_out fuel c w;
      match ARexxPort c with
      | None => Some w
      | Some _ => '(_, w) ← answer_dead fuel c w; Some w
      end
  end.

(** ** InitARexx *)

Definition toupper (b : byte) : byte :=
  let z := Z_of_byte b in if (97 <=? z) && (z <=? 122) then byte_of_Z (z - 32) else b.

(** A string stored in an array of [n] characters, with its zero. *)
Definition fits_array (n : Z) (s : list byte) : option (list byte) :=
  if zlen s <? n then Some s else None.

(** [for(count=1; ...; count++)]: the first name that no port has. *)
Fixpoint unique_name (fuel : nat) (w : World) (base : list byte) (count : Z) : option (list byte) :=
  match fuel with
  | O => None
  | Datatypes.S fuel =>
      name ← fits_array 24 (base ++ stci_d count);
      if FindPort w name then unique_name fuel w base (s16 (count + 1)) else Some name
  end.

(** [mem], [lib], [port]: AllocMem, OpenLibrary and CreatePort succeed. *)
Definition InitARexx (mem lib port : bool) (AppName : list byte) (Ext : option (list byte))
  (w : World) : option (option ARexxContext * World) :=
  if mem then
    if lib then
      ext ← fits_array 8 (take 7 (default (bytes_of "rexx") Ext));
      name ← unique_name (Datatypes.S (List.length (w_ports w))) w (toupper <$> take 16 AppName) 1;
      err ← fits_array 32 (name ++ bytes_of ".LASTERROR");
      let c := MkContext (if port then Some [] else None) true 0 name err ext in
      if port then Some (Some c, w)
      else w ← FreeARexx (Some c) w; Some (None, w)
    else w ← FreeARexx (Some (MkContext None false 0 [] [] [])) w; Some (None, w)
  else Some (None, w).

(** ** The end of act_IOCONTROL (iocontrol.c) *)

(** [SPrintf] prints numbers with spaces between. *)
Definition reply_command (SPrintf : list Z -> list byte) (RexxContext : option ARexxContext)
  (mem : bool) (rmsg : RexxMsg) (r : reply) (w : World) : option World :=
  match r with
  | RxString Buf => Some (ReplyARexxMsg RexxContext mem (RMsg rmsg) (Some Buf) 0 w)
  | RxNums l => Some (ReplyARexxMsg RexxContext mem (RMsg rmsg) (Some (SPrintf l)) 0 w)
  | RxErr code =>
      '(_, w) ← SetARexxLastError RexxContext (RMsg rmsg)
        (if code =? ERR10_015 then bytes_of "Unknown command" else []) w;
      let rmsg := set_Result (rm_Result1 rmsg) (R2Num code) rmsg in
      Some (ReplyARexxMsg RexxContext mem (RMsg rmsg) None RC_ERROR w)
  end.
End Rexx.

(** ** What the port promises *)

Section Clean.
Context (SetRexxVar : RexxMsg -> list byte -> list byte -> Z).

(** What becomes of a message that comes while the port is closed down. *)
Definition closed_reply : RexxMsg -> RexxMsg := set_Result 100 (R2Num 0).
Definition own_replies (l : list RexxMsg) : list RexxMsg := filter (fun m => rm_reply m = true) l.
Definition commands_of (l : list RexxMsg) : list RexxMsg := filter (fun m => rm_reply m = false) l.

Lemma own_one m : rm_reply m = true -> own_replies [m] = [m] /\ commands_of [m] = [].
Proof.
  intros Hm. unfold own_replies, commands_of. rewrite !filter_cons, decide_True, decide_False by congruence. done.
Qed.
Lemma command_one m : rm_reply m = false -> own_replies [m] = [] /\ commands_of [m] = [m].
Proof.
  intros Hm. unfold own_replies, commands_of. rewrite !filter_cons, decide_False, decide_True by congruence. done.
Qed.

(** From [c], [w] the messages [l] were taken from the port: the program's own were
    deleted, the others answered. *)
Record took (l : list RexxMsg) (c : ARexxContext) (w : World) (c' : ARexxContext) (w' : World) : Prop := {
  tk_pending : pending c w = l ++ pending c' w';
  tk_port : is_Some (ARexxPort c');
  tk_left : Outstanding c' = Outstanding c - zlen (own_replies l);
  tk_replied : w_replied w' = w_replied w ++ (closed_reply <$> commands_of l);
  tk_deleted : w_deleted w' = w_deleted w ++ (rm_id <$> own_replies l);
  tk_ports : w_ports w' = w_ports w;
  tk_later : exists came, concat (w_arrive w) = came ++ concat (w_arrive w')
}.

Lemma took_nil c w c' w' :
  pending c w = pending c' w' -> is_Some (ARexxPort c') -> Outstanding c' = Outstanding c ->
  w_replied w' = w_replied w -> w_deleted w' = w_deleted w -> w_ports w' = w_ports w ->
  (exists came, concat (w_arrive w) = came ++ concat (w_arrive w')) ->
  took [] c w c' w'.
Proof. intros. constructor; rewrite ?app_nil_r; try done. unfold own_replies. simpl. zlia. Qed.

Lemma took_trans l1 l2 c w c1 w1 c2 w2 :
  took l1 c w c1 w1 -> took l2 c1 w1 c2 w2 -> took (l1 ++ l2) c w c2 w2.
Proof.
  intros [Hp1 _ Ho1 Hr1 Hd1 Hn1 [came1 Hl1]] [Hp2 Hs Ho2 Hr2 Hd2 Hn2 [came2 Hl2]].
  unfold own_replies, commands_of in *. constructor; unfold own_replies, commands_of;
    rewrite ?filter_app, ?fmap_app; try done.
  - by rewrite Hp1, Hp2, app_assoc.
  - rewrite Ho2, Ho1. zlia.
  - by rewrite Hr2, Hr1, app_assoc.
  - by rewrite Hd2, Hd1, app_assoc.
  - congruence.
  - exists (came1 ++ came2). by rewrite Hl1, Hl2, app_assoc.
Qed.

(** ** One message *)

Lemma get_msg_ok c w q :
  ARexxPort c = Some q ->
  exists tmp c' w', get_msg c w = Some (tmp, c', w') /\ is_Some (ARexxPort c') /\
    Outstanding c' = Outstanding c /\ ErrorName c' = ErrorName c /\
    w_replied w' = w_replied w /\ w_deleted w' = w_deleted w /\ w_ports w' = w_ports w /\
    (exists came, concat (w_arrive w) = came ++ concat (w_arrive w')) /\
    match tmp with
    | None => q = [] /\ ARexxPort c' = Some [] /\ pending c w = pending c' w'
    | Some m => pending c w = m :: pending c' w'
    end.
Proof.
  intros Hq. unfold get_msg. rewrite Hq. simpl.
  assert (Hp : exists new later, match w_arrive w with [] => ([], []) | b :: l => (b, l) end = (new, later) /\
    concat (w_arrive w) = new ++ concat later).
  { destruct (w_arrive w) as [|b l]; by eexists _, _. }
  destruct Hp as (new & later & -> & Hc). unfold pending. rewrite Hq, Hc. simpl. rewrite app_assoc.
  destruct (q ++ new) as [|m q'] eqn:E; eexists _, _, _; (split; [done|]); split_and!; try done;
    try by exists new.
  by apply app_eq_nil in E as [-> _].
Qed.

Lemma wait_arrival_ok l : concat l <> [] ->
  exists m b l', wait_arrival l = Some (m :: b, l') /\ concat l = (m :: b) ++ concat l'.
Proof.
  induction l as [|[|m b] l IH]; intros Hl; simpl in *; [done|by apply IH|by eexists _, _, _].
Qed.

Lemma WaitPort_ok c w q :
  ARexxPort c = Some q -> pending c w <> [] ->
  exists c' w', WaitPort c w = Some (c', w') /\ took [] c w c' w' /\
    exists m q', ARexxPort c' = Some (m :: q').
Proof.
  intros Hq Hp. unfold WaitPort. rewrite Hq. simpl. destruct q as [|m q].
  - unfold pending in Hp. rewrite Hq in Hp. simpl in Hp.
    destruct (wait_arrival_ok _ Hp) as (m & b & l' & -> & Hc). simpl. eexists _, _. split; [done|].
    split; [|by eexists _, _]. apply took_nil; try done; [unfold pending; by rewrite Hq, Hc|by exists (m :: b)].
  - eexists _, _. split; [done|]. split; [apply took_nil; rewrite ?Hq; try done; by exists []|by eexists _, _].
Qed.

(** Taking one message with GetARexxMsg; the pointer it gives. *)
Lemma GetARexxMsg_ok c w q :
  ARexxPort c = Some q ->
  exists p c' w', GetARexxMsg (Some c) w = Some (p, Some c', w') /\
    match p with
    | RMsg m => rm_reply m = false /\ is_Some (ARexxPort c') /\
        pending c w = m :: pending c' w' /\ Outstanding c' = Outstanding c /\
        w_replied w' = w_replied w /\ w_deleted w' = w_deleted w /\ w_ports w' = w_ports w /\
        exists came, concat (w_arrive w) = came ++ concat (w_arrive w')
    | REXX_RETURN_ERROR => exists m, rm_reply m = true /\ took [m] c w c' w'
    | RNull => (exists m, rm_reply m = true /\ took [m] c w c' w') \/
        q = [] /\ ARexxPort c' = Some [] /\ took [] c w c' w'
    end.
Proof.
  intros Hq. unfold GetARexxMsg.
  destruct (get_msg_ok c w q Hq) as (tmp & c1 & w1 & -> & Hs & Ho & _ & Hr & Hd & Hn & Hla & Ht). simpl.
  destruct tmp as [m|].
  - destruct (rm_reply m) eqn:Em; eexists _, _, _; (split; [done|]); [|by split_and!].
    assert (took [m] c w (set_outstanding (Outstanding c1 - 1) c1) (add_deleted (rm_id m) w1)).
    { destruct (own_one m Em) as [E1 E2]. constructor; rewrite ?E1, ?E2; simpl; rewrite ?app_nil_r; try done.
      - rewrite Ho. zlia.
      - by rewrite Hd. }
    destruct (rm_Result1 m =? 0); [left|]; by exists m.
  - destruct Ht as (-> & Hp & Hpe). eexists _, _, _. split; [done|]. right. split_and!; [done..|].
    by apply took_nil.
Qed.

(** ... and answering it. *)
Lemma answer_ok c w c1 w1 m :
  rm_reply m = false -> is_Some (ARexxPort c1) -> pending c w = m :: pending c1 w1 ->
  Outstanding c1 = Outstanding c -> w_replied w1 = w_replied w -> w_deleted w1 = w_deleted w ->
  w_ports w1 = w_ports w -> (exists came, concat (w_arrive w) = came ++ concat (w_arrive w1)) ->
  exists b w2, SetARexxLastError SetRexxVar (Some c1) (RMsg m) PORT_CLOSED w1 = Some (b, w2) /\
    took [m] c w c1 (ReplyARexxMsg (Some c1) false (RMsg m) None 100 w2).
Proof.
  intros Hm Hs Hp Ho Hr Hd Hn Hla.
  assert (Ht : forall w2, w_arrive w2 = w_arrive w1 -> w_replied w2 = w_replied w1 ->
    w_deleted w2 = w_deleted w1 -> w_ports w2 = w_ports w1 ->
    took [m] c w c1 (ReplyARexxMsg (Some c1) false (RMsg m) None 100 w2)).
  { intros w2 Ea Er Ed En. destruct (command_one m Hm) as [E1 E2]. constructor; rewrite ?E1, ?E2; simpl;
      rewrite ?app_nil_r; try congruence.
    - rewrite Hp. unfold pending. simpl. by rewrite Ea.
    - rewrite Ho. zlia.
    - by rewrite Er, Hr.
    - by rewrite Ea. }
  unfold SetARexxLastError. destruct (rm_rexx m); [destruct (_ =? 0)|]; eexists _, _; (split; [done|]); by apply Ht.
Qed.

(** ** The loops *)

(** What is left when the port has been looked at for the last time. *)
Definition all_clean (c : ARexxContext) (w : World) (c' : ARexxContext) (w' : World) : Prop :=
  exists l, took l c w c' w'.

Lemma took_shorter m l c w c' w' :
  took (m :: l) c w c' w' -> (length (pending c' w') < length (pending c w))%nat.
Proof. intros Ht. rewrite (tk_pending _ _ _ _ _ Ht). simpl. rewrite length_app. lia. Qed.

Lemma answer_waiting_ok fuel : forall c w, (length (pending c w) < fuel)%nat -> is_Some (ARexxPort c) ->
  exists l c' w', answer_waiting SetRexxVar fuel c w = Some (c', w') /\ took l c w c' w' /\
    (forall m q, ARexxPort c = Some (m :: q) -> l <> []).
Proof.
  induction fuel as [|fuel IH]; intros c w Hf [q Hq]; [lia|]. cbn [answer_waiting].
  destruct (GetARexxMsg_ok c w q Hq) as (p & c1 & w1 & -> & Hp). cbn [mbind option_bind].
  destruct p as [| |m].
  - destruct Hp as [(m & Hm & Ht)|(-> & _ & Ht)]; eexists _, _, _; (split; [done|]); (split; [exact Ht|]);
      intros ?? E; congruence.
  - destruct Hp as (m & Hm & Ht). destruct (IH c1 w1) as (l & c' & w' & -> & Ht' & _);
      [pose proof (took_shorter _ _ _ _ _ _ Ht); lia|apply (tk_port _ _ _ _ _ Ht)|].
    eexists _, _, _. split; [done|]. split; [exact (took_trans _ _ _ _ _ _ _ _ Ht Ht')|done].
  - destruct Hp as (Hm & Hs & Hpe & Ho & Hr & Hd & Hn & Hla).
    destruct (answer_ok c w c1 w1 m Hm Hs Hpe Ho Hr Hd Hn Hla) as (b & w2 & -> & Ht). cbn [mbind option_bind].
    destruct (IH c1 (ReplyARexxMsg (Some c1) false (RMsg m) None 100 w2)) as (l & c' & w' & -> & Ht' & _);
      [pose proof (took_shorter _ _ _ _ _ _ Ht); lia|done|].
    eexists _, _, _. split; [done|]. split; [exact (took_trans _ _ _ _ _ _ _ _ Ht Ht')|done].
Qed.

Lemma own_replies_app l1 l2 : own_replies (l1 ++ l2) = own_replies l1 ++ own_replies l2.
Proof. apply filter_app. Qed.

(** The messages the program sent that are not back yet. *)
Definition owed (c : ARexxContext) (w : World) : Prop :=
  Outstanding c = zlen (own_replies (pending c w)).

Lemma took_owed l c w c' w' : took l c w c' w' -> owed c w -> owed c' w'.
Proof.
  intros Ht. unfold owed. rewrite (tk_left _ _ _ _ _ Ht), (tk_pending _ _ _ _ _ Ht), own_replies_app. zlia.
Qed.

Lemma clean_out_ok fuel : forall c w,
  (length (pending c w) < fuel)%nat -> is_Some (ARexxPort c) -> owed c w ->
  exists l c' w', clean_out SetRexxVar fuel c w = Some (c', w') /\ took l c w c' w' /\ Outstanding c' = 0.
Proof.
  induction fuel as [|fuel IH]; intros c w Hf Hs Ho; [lia|]. cbn [clean_out].
  destruct (Outstanding c =? 0) eqn:E; zbool.
  { eexists [], c, w. split; [done|]. split; [apply took_nil; try done; by exists []|done]. }
  destruct Hs as [q Hq]. destruct (WaitPort_ok c w q Hq) as (c1 & w1 & -> & Ht1 & m & q' & Hq').
  { intros Hp. unfold owed in Ho. rewrite Hp in Ho. done. }
  cbn [mbind option_bind].
  pose proof (f_equal length (tk_pending _ _ _ _ _ Ht1)) as Hl1. simpl in Hl1.
  destruct (answer_waiting_ok (Datatypes.S fuel) c1 w1) as (l & c2 & w2 & -> & Ht2 & Hne); [lia|by rewrite Hq'|].
  cbn [mbind option_bind]. destruct l as [|x l]; [by destruct (Hne _ _ Hq')|].
  pose proof (took_shorter _ _ _ _ _ _ Ht2) as Hlt.
  pose proof (took_trans _ _ _ _ _ _ _ _ Ht1 Ht2) as Ht.
  destruct (IH c2 w2) as (l' & c' & w' & -> & Ht' & H0');
    [lia|apply (tk_port _ _ _ _ _ Ht2)|by apply (took_owed _ _ _ _ _ Ht)|].
  eexists _, _, _. split; [done|]. split; [exact (took_trans _ _ _ _ _ _ _ _ Ht Ht')|done].
Qed.

Lemma answer_dead_ok fuel : forall c w,
  (length (pending c w) < fuel)%nat -> is_Some (ARexxPort c) -> own_replies (pending c w) = [] ->
  exists l c' w', answer_dead SetRexxVar fuel c w = Some (c', w') /\ took l c w c' w' /\
    ARexxPort c' = Some [].
Proof.
  induction fuel as [|fuel IH]; intros c w Hf [q Hq] Hno; [lia|]. cbn [answer_dead].
  destruct (GetARexxMsg_ok c w q Hq) as (p & c1 & w1 & -> & Hp). cbn [mbind option_bind].
  assert (Hown : forall m, rm_reply m = true -> took [m] c w c1 w1 -> False).
  { intros m Hm Ht. rewrite (tk_pending _ _ _ _ _ Ht), own_replies_app, (proj1 (own_one m Hm)) in Hno. done. }
  destruct p as [| |m].
  - destruct Hp as [(m & Hm & Ht)|(-> & He & Ht)]; [by destruct (Hown m)|]. by eexists _, _, _.
  - destruct Hp as (m & Hm & Ht). by destruct (Hown m).
  - destruct Hp as (Hm & Hs & Hpe & Ho & Hr & Hd & Hn & Hla).
    destruct (answer_ok c w c1 w1 m Hm Hs Hpe Ho Hr Hd Hn Hla) as (b & w2 & -> & Ht). cbn [mbind option_bind].
    pose proof (tk_pending _ _ _ _ _ Ht) as Hpt.
    destruct (IH c1 (ReplyARexxMsg (Some c1) false (RMsg m) None 100 w2)) as (l & c' & w' & -> & Ht' & He).
    { pose proof (took_shorter _ _ _ _ _ _ Ht). lia. }
    { done. }
    { rewrite Hpt, own_replies_app, (proj1 (command_one m Hm)) in Hno. done. }
    eexists _, _, _. split; [done|]. split; [exact (took_trans _ _ _ _ _ _ _ _ Ht Ht')|done].
Qed.
End Clean.

Lemma FreeARexx_ok SetRexxVar c w q :
  ARexxPort c = Some q -> owed c w ->
  exists l w', FreeARexx SetRexxVar (Some c) w = Some w' /\
    pending c w = (q ++ l) ++ concat (w_arrive w') /\ own_replies (concat (w_arrive w')) = [] /\
    w_replied w' = w_replied w ++ (closed_reply <$> commands_of (q ++ l)) /\
    w_deleted w' = w_deleted w ++ (rm_id <$> own_replies (q ++ l)).
Proof.
  intros Hq Ho. unfold FreeARexx.
  set (c0 := set_portname [] c). assert (Hp0 : pending c0 w = pending c w) by done.
  destruct (clean_out_ok SetRexxVar (Datatypes.S (length (pending c0 w))) c0 w)
    as (l1 & c1 & w1 & -> & Ht1 & H1'); [lia|by exists q|done|].
  cbn [mbind option_bind]. destruct (tk_port _ _ _ _ _ Ht1) as [q1 Hq1]. rewrite Hq1.
  pose proof (took_owed _ _ _ _ _ Ht1 Ho) as Hw1. unfold owed in Hw1. rewrite H1' in Hw1.
  assert (Hno : own_replies (pending c1 w1) = []) by (destruct (own_replies (pending c1 w1)); [done|zlia]).
  destruct (answer_dead_ok SetRexxVar (Datatypes.S (length (pending c0 w))) c1 w1)
    as (l2 & c2 & w2 & -> & Ht2 & Hq2).
  { rewrite (tk_pending _ _ _ _ _ Ht1), length_app. lia. }
  { by exists q1. }
  { done. }
  cbn [mbind option_bind].
  pose proof (took_trans _ _ _ _ _ _ _ _ Ht1 Ht2) as [Hp _ Hl Hr Hd _ [came Hc]].
  assert (Hend : pending c2 w2 = concat (w_arrive w2)) by (unfold pending; by rewrite Hq2).
  rewrite Hp0, Hend in Hp.
  assert (Hl12 : l1 ++ l2 = q ++ came).
  { unfold pending in Hp. rewrite Hq, Hc, app_assoc in Hp. simpl in Hp. by apply app_inv_tail in Hp. }
  exists came, w2. rewrite <-Hl12. split_and!; try done.
  rewrite (tk_pending _ _ _ _ _ Ht2), own_replies_app, Hend in Hno. by apply app_eq_nil in Hno as [_ Hno].
Qed.

(** C25: FreeARexx comes to an end when as many of the messages it sent come back as
    are outstanding.  It deletes exactly these and gives every other message that
    was or comes at the port until the port is empty one answer, the error 100, and it
    never follows REXX_RETURN_ERROR. *)
Theorem FreeARexx_answers SetRexxVar c w q :
  ARexxPort c = Some q -> Outstanding c = zlen (own_replies (pending c w)) ->
  exists l w', FreeARexx SetRexxVar (Some c) w = Some w' /\
    pending c w = (q ++ l) ++ concat (w_arrive w') /\ own_replies (concat (w_arrive w')) = [] /\
    w_replied w' = w_replied w ++ (closed_reply <$> commands_of (q ++ l)) /\
    w_deleted w' = w_deleted w ++ (rm_id <$> own_replies (q ++ l)).
Proof. apply FreeARexx_ok. Qed.

Definition cmd (id : Z) : RexxMsg := MkRexxMsg id false true (2 ^ RXFB_RESULT) 0 (R2Num 0) (bytes_of "GET USER").
Definition back (id r1 : Z) : RexxMsg := MkRexxMsg id true false RXCOMM r1 (R2Num 0) (bytes_of "x").

(** Two messages are outstanding; they come back between commands, one as an error. *)
Lemma FreeARexx_answers_witness :
  exists w', FreeARexx (fun _ _ _ => 0)
      (Some (MkContext (Some [cmd 1]) true 2 (bytes_of "CH_NFSC1") [] []))
      (MkWorld [] [[]; [back 7 5; cmd 2]; [back 8 0; cmd 3]; []; [cmd 4]] [] [] [] []) = Some w' /\
    w_replied w' = closed_reply <$> [cmd 1; cmd 2; cmd 3; cmd 4] /\ w_deleted w' = [7; 8].
Proof.
  destruct (FreeARexx_answers (fun _ _ _ => 0) (MkContext (Some [cmd 1]) true 2 (bytes_of "CH_NFSC1") [] [])
    (MkWorld [] [[]; [back 7 5; cmd 2]; [back 8 0; cmd 3]; []; [cmd 4]] [] [] [] []) [cmd 1])
    as (l & w' & E & _); [reflexivity|vm_compute; reflexivity|].
  exists w'. split; [exact E|].
  assert (E' : (fun w => (w_replied w, w_deleted w)) <$> FreeARexx (fun _ _ _ => 0)
      (Some (MkContext (Some [cmd 1]) true 2 (bytes_of "CH_NFSC1") [] []))
      (MkWorld [] [[]; [back 7 5; cmd 2]; [back 8 0; cmd 3]; []; [cmd 4]] [] [] [] []) =
    Some (closed_reply <$> [cmd 1; cmd 2; cmd 3; cmd 4], [7; 8])) by (vm_compute; reflexivity).
  rewrite E in E'. by injection E' as -> ->.
Defined.

(** SendARexxMsg keeps the count of messages that will come back: one more when it
    sends one; otherwise the message it made is deleted. *)
Lemma SendARexxMsg_counts c mem1 mem2 id s StringFile w ok c' w' :
  SendARexxMsg (Some c) mem1 mem2 id (Some s) StringFile w = (ok, Some c', w') ->
  if ok then (exists m, w_sent w' = w_sent w ++ [m] /\ rm_id m = id /\ rm_Args0 m = s) /\
       Outstanding c' = Outstanding c + 1 /\ w_deleted w' = w_deleted w
  else c' = c /\ w_sent w' = w_sent w /\ w_deleted w' = w_deleted w ++ (if mem1 then [id] else []).
Proof.
  unfold SendARexxMsg. destruct mem1, mem2; [destruct (FindPort w RXSDIR)|..]; intros [= <- <- <-]; simpl;
    rewrite ?app_nil_r; split_and!; try done. by eexists.
Qed.

(** ** InitARexx *)

Section Name.
Context (stci_d : Z -> list byte).
(** stci_d prints a number in decimal. *)
Hypothesis stci_d_inj : forall i j, 1 <= i < 2 ^ 15 -> 1 <= j < 2 ^ 15 -> stci_d i = stci_d j -> i = j.
Hypothesis stci_d_length : forall i, 1 <= i < 2 ^ 15 -> zlen (stci_d i) <= 5.

Lemma fits_array_ok n s : zlen s < n -> fits_array n s = Some s.
Proof. intros Hs. unfold fits_array. by rewrite (proj2 (Z.ltb_lt _ _)). Qed.

(** The search ends at the first free name or all names it tried are taken. *)
Lemma unique_name_ok w base : zlen base <= 16 -> forall fuel count,
  1 <= count -> count + Z.of_nat fuel <= 2 ^ 15 ->
  (exists n, count <= n < 2 ^ 15 /\ unique_name stci_d fuel w base count = Some (base ++ stci_d n) /\
     ~ (base ++ stci_d n ∈ w_ports w) /\
     forall i, count <= i < n -> base ++ stci_d i ∈ w_ports w) \/
  (forall i, count <= i < count + Z.of_nat fuel -> base ++ stci_d i ∈ w_ports w).
Proof.
  intros Hb. induction fuel as [|fuel IH]; intros count Hc Hf; [right; intros; lia|].
  simpl. pose proof (stci_d_length count ltac:(lia)).
  rewrite fits_array_ok by zlia. simpl. unfold FindPort. case_bool_decide as Hin.
  2:{ left. exists count. split_and!; [lia|lia|done|done|]. intros; lia. }
  destruct fuel as [|fuel].
  { right. intros i Hi. by replace i with count by lia. }
  rewrite s16_id by lia. destruct (IH (count + 1)) as [(n & Hn & E & Hno & Hall)|Hall]; [lia|lia| |].
  - left. exists n. split_and!; [lia|lia|exact E|done|]. intros i Hi.
    destruct (decide (i = count)) as [->|]; [done|]. apply Hall. lia.
  - right. intros i Hi. destruct (decide (i = count)) as [->|]; [done|]. apply Hall. lia.
Qed.

Lemma names_NoDup base n : Z.of_nat n < 2 ^ 15 ->
  NoDup ((fun i => base ++ stci_d (Z.of_nat i)) <$> seq 1 n).
Proof.
  intros Hn. apply NoDup_fmap_2_strong; [|apply NoDup_seq].
  intros i j Hi%elem_of_seq Hj%elem_of_seq E. apply app_inv_head, stci_d_inj in E; lia.
Qed.

(** There are more numbers than ports. *)
Lemma unique_name_found w base :
  zlen base <= 16 -> zlen (w_ports w) < 2 ^ 15 - 2 ->
  exists n, 1 <= n < 2 ^ 15 /\
    unique_name stci_d (Datatypes.S (length (w_ports w))) w base 1 = Some (base ++ stci_d n) /\
    ~ (base ++ stci_d n ∈ w_ports w) /\ forall i, 1 <= i < n -> base ++ stci_d i ∈ w_ports w.
Proof.
  intros Hb Hw. unfold zlen in Hw.
  destruct (unique_name_ok w base Hb (Datatypes.S (length (w_ports w))) 1) as [?|Hall]; [lia|lia|done|].
  exfalso. pose proof (names_NoDup base (Datatypes.S (length (w_ports w))) ltac:(lia)) as Hnd.
  apply NoDup_submseteq with (k := w_ports w) in Hnd.
  - apply submseteq_length in Hnd. rewrite length_fmap, length_seq in Hnd. lia.
  - intros x (i & -> & Hi%elem_of_seq)%list_elem_of_fmap. apply Hall. lia.
Qed.

Lemma InitARexx_ok SetRexxVar AppName Ext w :
  zlen (w_ports w) < 2 ^ 15 - 2 ->
  let base := toupper <$> take 16 AppName in
  exists n c, 1 <= n < 2 ^ 15 /\
    InitARexx stci_d SetRexxVar true true true AppName Ext w = Some (Some c, w) /\
    PortName c = base ++ stci_d n /\ ~ (PortName c ∈ w_ports w) /\
    (forall i, 1 <= i < n -> base ++ stci_d i ∈ w_ports w) /\
    ErrorName c = PortName c ++ bytes_of ".LASTERROR" /\
    ARexxPort c = Some [] /\ Outstanding c = 0.
Proof.
  intros Hw base. assert (Hb : zlen base <= 16).
  { unfold base, zlen. rewrite length_fmap, length_take. lia. }
  destruct (unique_name_found w base Hb Hw) as (n & Hn & E & Hno & Hall).
  pose proof (stci_d_length n Hn). unfold InitARexx. fold base.
  rewrite (fits_array_ok 8) by (unfold zlen; rewrite length_take; lia). cbn [mbind option_bind].
  rewrite E. cbn [mbind option_bind].
  rewrite fits_array_ok by (rewrite !zlen_app; change (zlen (bytes_of ".LASTERROR")) with 10; lia).
  cbn [mbind option_bind]. by eexists n, _.
Qed.
End Name.

(** C27: InitARexx with enough resources, for an application whose name has fewer
    than sixteen characters as the source asks for, gives the first of the names
    NAME1, NAME2, ... that no public port has, NAME being the application's name
    in upper case; the name of the error variable is that with .LASTERROR
    behind it.  The search ends and no name is longer than its array, as long as
    there are fewer than 2^15 - 2 public ports and stci_d writes the numbers
    below 2^15 differently and in at most five characters. *)
Theorem InitARexx_named stci_d SetRexxVar AppName Ext w :
  (forall i j, 1 <= i < 2 ^ 15 -> 1 <= j < 2 ^ 15 -> stci_d i = stci_d j -> i = j) ->
  (forall i, 1 <= i < 2 ^ 15 -> zlen (stci_d i) <= 5) ->
  zlen (w_ports w) < 2 ^ 15 - 2 -> zlen AppName < 16 ->
  let base := toupper <$> AppName in
  exists n c, 1 <= n < 2 ^ 15 /\
    InitARexx stci_d SetRexxVar true true true AppName Ext w = Some (Some c, w) /\
    PortName c = base ++ stci_d n /\ ~ (PortName c ∈ w_ports w) /\
    (forall i, 1 <= i < n -> base ++ stci_d i ∈ w_ports w) /\
    ErrorName c = PortName c ++ bytes_of ".LASTERROR" /\
    ARexxPort c = Some [] /\ Outstanding c = 0.
Proof.
  intros Hi Hd Hw Ha base. assert (Hb : base = toupper <$> take 16 AppName).
  { unfold base. rewrite take_ge; [done|]. unfold zlen in Ha. lia. }
  rewrite Hb. by apply InitARexx_ok.
Qed.

(** Decimal printing, for numbers of up to five digits. *)
Fixpoint digits (fuel : nat) (i : Z) (acc : list byte) : list byte :=
  match fuel with
  | O => acc
  | Datatypes.S fuel =>
      let acc := byte_of_Z (48 + i mod 10) :: acc in
      if i <? 10 then acc else digits fuel (i / 10) acc
  end.
Definition dec (i : Z) : list byte := digits 5 i [].
Definition undec (s : list byte) : Z := fold_left (fun n b => 10 * n + (Z_of_byte b - 48)) s 0.

Lemma digits_ok fuel : forall i acc, 0 <= i < 10 ^ Z.of_nat fuel ->
  exists ds, digits fuel i acc = ds ++ acc /\ zlen ds <= Z.of_nat fuel /\ undec ds = i.
Proof.
  induction fuel as [|fuel IH]; intros i acc Hi; cbn [digits].
  { exists []. split_and!; [done..|]. change (10 ^ Z.of_nat 0) with 1 in Hi. unfold undec. simpl. lia. }
  rewrite Nat2Z.inj_succ, Z.pow_succ_r in Hi by lia.
  pose proof (Z.mod_pos_bound i 10 ltac:(lia)). pose proof (Z.div_mod i 10 ltac:(lia)).
  assert (Hb : Z_of_byte (byte_of_Z (48 + i mod 10)) - 48 = i mod 10)
    by (rewrite Z_of_byte_of_Z, u8_id; lia).
  destruct (i <? 10) eqn:E; zbool.
  - exists [byte_of_Z (48 + i mod 10)]. split_and!; [done|zlia|]. unfold undec. simpl. rewrite Hb, Z.mod_small; lia.
  - destruct (IH (i / 10) (byte_of_Z (48 + i mod 10) :: acc)) as (ds & -> & Hl & Hu).
    { split; [apply Z.div_pos; lia|apply Z.div_lt_upper_bound; lia]. }
    exists (ds ++ [byte_of_Z (48 + i mod 10)]). rewrite <-app_assoc. split_and!; [done|zlia|].
    unfold undec in *. rewrite fold_left_app, Hu. simpl. rewrite Hb. lia.
Qed.

Lemma dec_ok i : 1 <= i < 2 ^ 15 -> undec (dec i) = i /\ zlen (dec i) <= 5.
Proof.
  intros Hi. destruct (digits_ok 5 i [] ltac:(lia)) as (ds & E & Hl & Hu).
  unfold dec. by rewrite E, app_nil_r.
Qed.

(** The first two names are taken. *)
Lemma InitARexx_named_witness :
  exists c, InitARexx dec (fun _ _ _ => 0) true true true (bytes_of "ch_nfsc") None
      (MkWorld [bytes_of "REXX"; bytes_of "CH_NFSC2"; bytes_of "CH_NFSC1"] [] [] [] [] []) =
    Some (Some c, MkWorld [bytes_of "REXX"; bytes_of "CH_NFSC2"; bytes_of "CH_NFSC1"] [] [] [] [] []) /\
    PortName c = bytes_of "CH_NFSC3" /\ ErrorName c = bytes_of "CH_NFSC3.LASTERROR".
Proof.
  destruct (InitARexx_named dec (fun _ _ _ => 0) (bytes_of "ch_nfsc") None
    (MkWorld [bytes_of "REXX"; bytes_of "CH_NFSC2"; bytes_of "CH_NFSC1"] [] [] [] [] []))
    as (n & c & _ & E & _).
  - intros i j Hi Hj E. by rewrite <-(proj1 (dec_ok i Hi)), <-(proj1 (dec_ok j Hj)), E.
  - intros i Hi. apply (dec_ok i Hi).
  - reflexivity.
  - reflexivity.
  - exists c. split; [exact E|].
    assert (E' : (fun x : option ARexxContext * World => (fun c => (PortName c, ErrorName c)) <$> fst x) <$>
      InitARexx dec (fun _ _ _ => 0) true true true (bytes_of "ch_nfsc") None
      (MkWorld [bytes_of "REXX"; bytes_of "CH_NFSC2"; bytes_of "CH_NFSC1"] [] [] [] [] []) =
      Some (Some (bytes_of "CH_NFSC3", bytes_of "CH_NFSC3.LASTERROR"))) by (vm_compute; reflexivity).
    rewrite E in E'. by injection E' as -> ->.
Defined.

(** ** Answers to commands *)

(** C26: A command is answered once, with result 0 and, if it asked for a result and
    there is memory, the value as its string, or with RC_ERROR.  The second result is
    never the number of the ARexx error that act_IOCONTROL stored there: ReplyARexxMsg
    starts by clearing it. *)
Theorem command_answered SetRexxVar SPrintf c mem m r w :
  exists w' m', reply_command SetRexxVar SPrintf (Some c) mem m r w = Some w' /\
    w_replied w' = w_replied w ++ [m'] /\ rm_id m' = rm_id m /\
    match r with
    | RxErr _ => rm_Result1 m' = RC_ERROR /\ rm_Result2 m' = R2Num 0
    | RxString Buf => rm_Result1 m' = 0 /\
        rm_Result2 m' = if Z.testbit (rm_Action m) RXFB_RESULT && mem then R2Arg Buf else R2Num 0
    | RxNums l => rm_Result1 m' = 0 /\
        rm_Result2 m' = if Z.testbit (rm_Action m) RXFB_RESULT && mem then R2Arg (SPrintf l) else R2Num 0
    end.
Proof.
  assert (Hset : forall s, exists b w1, SetARexxLastError SetRexxVar (Some c) (RMsg m) s w = Some (b, w1) /\
    w_replied w1 = w_replied w).
  { intros s. unfold SetARexxLastError. destruct (rm_rexx m); [destruct (_ =? 0)|]; by eexists _, _. }
  destruct r as [Buf|l|code]; unfold reply_command.
  1,2: eexists _, _; (split; [done|]); split_and!; [done..|]; unfold set_Result; cbn -[Z.testbit];
    by destruct (Z.testbit (rm_Action m) RXFB_RESULT), mem.
  destruct (Hset (if code =? ERR10_015 then bytes_of "Unknown command" else [])) as (b & w1 & -> & Hr).
  cbn [mbind option_bind]. eexists _, _. split; [done|]. simpl. by rewrite Hr.
Qed.
