(* ===== verification/Actions.v ===== *)
(** * The table of packets (actions.c)

    Each packet type has a function, flags for the arguments that are BCPL
    pointers, and flags for packets that are internal or that write.  The
    types are found through an index of the blocks of consecutive numbers,
    which [act_Init] makes. *)
From S2P Require Import Prelude.

Inductive ActionFunc :=
| act_Unknown | act_IS_WRITE_PROTECTED | A_DIE | A_CURRENT_VOLUME | A_LOCATE_OBJECT | A_RENAME_DISK
| A_FREE_LOCK | A_DELETE_OBJECT | A_RENAME_OBJECT | A_MORE_CACHE | A_COPY_DIR | A_SET_PROTECT
| A_CREATE_DIR | A_EXAMINE_OBJECT | A_EXAMINE_NEXT | A_DISK_INFO | A_INFO | A_FLUSH | A_PARENT | A_TIMER
| A_SET_DATE | A_SAME_LOCK | A_READ | A_WRITE | A_IOCONTROL | A_FINDUPDATE | A_FINDINPUT | A_FINDOUTPUT
| A_END | A_SEEK | A_MAKE_LINK | A_SET_FILE_SIZE | A_WRITE_PROTECT | A_READ_LINK | A_FH_FROM_LOCK
| A_IS_FILESYSTEM | A_CHANGE_MODE | A_COPY_DIR_FH | A_PARENT_FH | A_EXAMINE_ALL | A_EXAMINE_FH
| A_SET_OWNER | A_CREATE_OBJECT | A_GET_ATTRIBUTES.
#[export] Instance ActionFunc_eq_dec : EqDecision ActionFunc.
Proof. solve_decision. Defined.

Definition BP1 : Z := 1.
Definition BP2 : Z := 2.
Definition BP3 : Z := 4.
Definition BP4 : Z := 8.
Definition INTF : Z := 64.
Definition WF : Z := 128.

Record ATEntry := MkATEntry { ate_Action : Z; ate_Func : ActionFunc; ate_BPArgs : Z }.
Definition ATE (action : Z) (f : ActionFunc) (args : Z) : ATEntry := MkATEntry action f args.
Definition UN (action : Z) : ATEntry := MkATEntry action act_Unknown 0.

(** The numbers are those of dosextens.h, nfsc_iocontrol.h and xdos.h. *)
Definition ActionTable : list ATEntry := [
  ATE 5 A_DIE 0;
  UN 6;
  ATE 7 A_CURRENT_VOLUME 0;
  ATE 8 A_LOCATE_OBJECT (Z.lor BP1 BP2);
  ATE 9 A_RENAME_DISK (Z.lor WF BP1);
  UN 10; UN 11; UN 12; UN 13; UN 14;
  ATE 15 A_FREE_LOCK BP1;
  ATE 16 A_DELETE_OBJECT (Z.lor WF (Z.lor BP1 BP2));
  ATE 17 A_RENAME_OBJECT (Z.lor WF (Z.lor BP1 (Z.lor BP2 (Z.lor BP3 BP4))));
  ATE 18 A_MORE_CACHE 0;
  ATE 19 A_COPY_DIR BP1;
  UN 20;
  ATE 21 A_SET_PROTECT (Z.lor WF (Z.lor BP2 BP3));
  ATE 22 A_CREATE_DIR (Z.lor WF (Z.lor BP1 BP2));
  ATE 23 A_EXAMINE_OBJECT (Z.lor BP1 BP2);
  ATE 24 A_EXAMINE_NEXT (Z.lor BP1 BP2);
  ATE 25 A_DISK_INFO BP1;
  ATE 26 A_INFO (Z.lor BP1 BP2);
  ATE 27 A_FLUSH 0;
  UN 28;
  ATE 29 A_PARENT BP1;
  ATE 30 A_TIMER INTF;
  UN 31; UN 32; UN 33;
  ATE 34 A_SET_DATE (Z.lor WF (Z.lor BP2 BP3));
  ATE 40 A_SAME_LOCK (Z.lor BP1 BP2);
  ATE 82 A_READ 0;
  ATE 87 A_WRITE WF;
  ATE 142 A_IOCONTROL 0;
  UN 1001; UN 1002; UN 1003;
  ATE 1004 A_FINDUPDATE (Z.lor BP1 (Z.lor BP2 BP3));
  ATE 1005 A_FINDINPUT (Z.lor BP1 (Z.lor BP2 BP3));
  ATE 1006 A_FINDOUTPUT (Z.lor WF (Z.lor BP1 (Z.lor BP2 BP3)));
  ATE 1007 A_END 0;
  ATE 1008 A_SEEK 0;
  UN 1020;
  ATE 1021 A_MAKE_LINK (Z.lor WF (Z.lor BP1 BP2));
  ATE 1022 A_SET_FILE_SIZE WF;
  ATE 1023 A_WRITE_PROTECT 0;
  ATE 1024 A_READ_LINK BP1;
  UN 1025;
  ATE 1026 A_FH_FROM_LOCK (Z.lor BP1 BP2);
  ATE 1027 A_IS_FILESYSTEM 0;
  ATE 1028 A_CHANGE_MODE BP2;
  UN 1029;
  ATE 1030 A_COPY_DIR_FH 0;
  ATE 1031 A_PARENT_FH 0;
  UN 1032;
  ATE 1033 A_EXAMINE_ALL BP1;
  ATE 1034 A_EXAMINE_FH BP2;
  UN 1035;
  ATE 1036 A_SET_OWNER (Z.lor WF (Z.lor BP2 BP3));
  UN 2008; UN 2009;
  ATE 2346 A_CREATE_OBJECT (Z.lor WF (Z.lor BP1 BP2));
  UN 2347;
  ATE 2348 A_GET_ATTRIBUTES (Z.lor BP2 BP3);
  UN 4097; UN 4098;
  UN 4200 ].

Record ATIEntry := MkATIEntry { ati_Low : Z; ati_High : Z; ati_Index : Z }.

(** The size of ATIndex. *)
Definition iSize : Z := 13.

Section Index.
Context (Table : list ATEntry).

Definition set_high (ATIndex : list ATIEntry) (i High : Z) : option (list ATIEntry) :=
  (e ← arr_get ATIndex i; arr_set ATIndex i (MkATIEntry (ati_Low e) High (ati_Index e))).
Definition set_low (ATIndex : list ATIEntry) (i Low Index : Z) : option (list ATIEntry) :=
  (e ← arr_get ATIndex i; arr_set ATIndex i (MkATIEntry Low (ati_High e) Index)).

(** The loop of act_Init over the entries from [Index] on: RetVal, the index,
    IIndex and Act. *)
Fixpoint init_loop (l : list ATEntry) (Index Act IIndex : Z) (ATIndex : list ATIEntry)
  : option (bool * list ATIEntry * Z * Z) :=
  match l with
  | [] => Some (true, ATIndex, IIndex, Act)
  | e :: l =>
      let New := ate_Action e in
      if New <=? Act then Some (false, ATIndex, IIndex, Act)
      else if New =? Act + 1 then init_loop l (Index + 1) (Act + 1) IIndex ATIndex
      else
      (ATIndex ← set_high ATIndex (IIndex - 1) Act;
       ATIndex ← set_low ATIndex IIndex New Index;
       if IIndex + 1 >=? iSize - 1 then Some (false, ATIndex, 0, New)
       else init_loop l (Index + 1) New (IIndex + 1) ATIndex)
  end.

(** The index and the result. *)
Definition act_Init : option (bool * list ATIEntry) :=
  (e ← head Table;
   ATIndex ← set_low (replicate (Z.to_nat iSize) (MkATIEntry 0 0 0)) 0 (ate_Action e) 0;
   '(RetVal, ATIndex, IIndex, Act) ← init_loop (tail Table) 1 (ate_Action e) 1 ATIndex;
   ATIndex ← set_high ATIndex (IIndex - 1) Act;
   z ← last Table;
   ATIndex ← set_low ATIndex IIndex (ate_Action z + 1) (-1);
   Some (RetVal, ATIndex)).

(** The block with the number: the index of the first block that begins
    behind it, or [None] at the end mark. *)
Fixpoint find_block (fuel : nat) (ATIndex : list ATIEntry) (action i : Z) : option (option Z) :=
  match fuel with
  | O => None
  | S fuel =>
      (e ← arr_get ATIndex i;
       if ati_Low e <=? action
       then if ati_Index e =? -1 then Some None else find_block fuel ATIndex action (i + 1)
       else Some (Some i))
  end.

Definition act_Lookup (ATIndex : list ATIEntry) (action : Z) : option (option ATEntry) :=
  (i ← find_block (Z.to_nat iSize + 1) ATIndex action 0;
   match i with
   | None => Some None
   | Some i =>
       if i =? 0 then Some None
       else
       (e ← arr_get ATIndex (i - 1);
        if action >? ati_High e then Some None
        else (x ← arr_get Table (ati_Index e + (action - ati_Low e)); Some (Some x)))
   end).
End Index.

(** struct DosPacket *)
Record DOSPKT := MkDOSPKT { dp_Type : Z; dp_Arg1 : Z; dp_Arg2 : Z; dp_Arg3 : Z; dp_Arg4 : Z; dp_Arg5 : Z }.

Definition MYBADDR (a : Z) : Z := Z.shiftl a 2.

(** The entries of 'R' and 'W' are looked up once. *)
Record Dispatch := MkDispatch {
  ATIndex : list ATIEntry; ATEntryRead : option ATEntry; ATEntryWrite : option ATEntry }.

(** The function, whether the packet is internal, and the packet with its
    arguments prepared; NULL is [Some None]. *)
Definition act_Prepare (d : Dispatch) (IsWriteProtected : bool) (pkt : DOSPKT)
  : option (option (ActionFunc * bool * DOSPKT)) :=
  let action := dp_Type pkt in
  (ent ← (if action =? 82 then Some (ATEntryRead d)
          else if action =? 87 then Some (ATEntryWrite d)
          else act_Lookup ActionTable (ATIndex d) action);
   match ent with
   | None => Some None
   | Some ent =>
       let BPArgs := ate_BPArgs ent in
       let flag (f : Z) := negb (Z.land BPArgs f =? 0) in
       let Internal := flag INTF in
       if IsWriteProtected && flag WF then Some (Some (act_IS_WRITE_PROTECTED, Internal, pkt))
       else
       let arg (f a : Z) := if flag f then s32 (MYBADDR a) else a in
       Some (Some (ate_Func ent, Internal,
         MkDOSPKT action (arg BP1 (dp_Arg1 pkt)) (arg BP2 (dp_Arg2 pkt)) (arg BP3 (dp_Arg3 pkt))
           (arg BP4 (dp_Arg4 pkt)) (dp_Arg5 pkt)))
   end).

Definition init_dispatch : option Dispatch :=
  ('(RetVal, ATI) ← act_Init ActionTable;
   if (RetVal : bool)
   then (r ← act_Lookup ActionTable ATI 82; w ← act_Lookup ActionTable ATI 87; Some (MkDispatch ATI r w))
   else None).
