(* ===== verification/Main.v ===== *)
(** * The handler's loop (nfs_handler.c)

    One turn of the loop in main(): the packet's function is looked up, the
    credentials are brought up to date, the function is called, and the caches
    are unlocked.  What a packet's arguments point to is in the client's
    memory, [Client]; what is stored there, and what is sent besides the reply to
    the packet, is a list of [store]s. *)
From S2P Require Import Prelude MBuf WBufInfo NfsProt NfsSupp Nfs NfsLookup Global WBuf RBuf FtHash DCache.
From S2P Require Import FileHandle Dirs HState Fn Walk Find Fib Examine ExAll Object Cred Volume IoCtl Actions.

(** Functions of libraries. *)
Class External := {
  MatchPatternNoCase : list byte -> list byte -> bool;
  au_Protection2umode : Z -> Z;
  stptok : list byte -> Z -> list byte * list byte;
  atoi : list byte -> Z;
  strtol8 : list byte -> Z
}.

(** struct ExAllControl; a key is the address of a handle. *)
Record ExAllControl := MkExAllControl {
  eac_Entries : Z;
  eac_LastKey : option addr;
  eac_MatchString : option (list byte);
  eac_MatchFunc : option (Z -> list byte -> bool)
}.

(** [cl_mem p] is the memory from address [p] on; the other members are what
    is at an address, by type.  [cl_own]: the packet is that of the timer;
    [cl_arg0]: the command of a packet made for the ARexx port. *)
Record Client := MkClient {
  cl_task : addr;
  cl_mem : Z -> list byte;
  cl_fib : Z -> FIB;
  cl_ds : Z -> DateStamp;
  cl_fh_Arg1 : Z -> Z;
  cl_info : Z -> InfoData;
  cl_tags : Z -> list TagItem;
  cl_eac : Z -> ExAllControl;
  cl_own : bool;
  cl_arg0 : option (list byte)
}.

(** What is stored in a client's memory, the reply to an ARexx message, and the
    request of the timer, sent again. *)
Inductive store :=
| StMem (p : Z) (bs : list byte)
| StFIB (p : Z) (fib : FIB)
| StDate (p : Z) (ds : DateStamp)
| StTags (p : Z) (l : list TagItem)
| StArg1 (p : Z) (Arg1 : Z)
| StInfo (p : Z) (id : InfoData)
| StEac (p : Z) (Entries : Z) (LastKey : option addr)
| StReply (r : reply)
| StTimer.

(** A pointer to a lock, of four times the address that stands for it. *)
Definition lock_ptr (p : Z) : option addr :=
  if p =? 0 then None else Some (Z.to_pos (u32 p / 4)).

Section Main.
Context {S : Type} `{NfsRpc S} `{DosNames} `{External} (E : Env).
(** Memory for mb_AllocMoreMBufs. *)
Context (rs : nat -> option addr) (junk : list byte).

Definition of_handler {A} (f : Handler S -> option (A * Handler S)) : M S A := fun st =>
  ('(x, h) ← f (hs_h st); Some (inr x, set_h h st)).

(** The result of act_DIE, which is not in [g_Res1], is DOSTRUE. *)
Definition act_DIE (v : Vol) : M S (Vol * bool) :=
  inuse ← gets IsInUse;
  if (inuse : bool) then _ ← set_res DOSFALSE ERROR_OBJECT_IN_USE; mret (v, false)
  else _ ← act_FLUSH; mret (set_running false (v_DoReply v) v, true).

(** The call of a packet's function: the volume and the stores. *)
Definition call_action (ug : UserGroup) (c : Client) (v : Vol) (F : ActionFunc) (pkt : DOSPKT)
  : M S (Vol * list store) :=
  let cfg := config v in
  let A1 := dp_Arg1 pkt in
  let A2 := dp_Arg2 pkt in
  let A3 := dp_Arg3 pkt in
  let A4 := dp_Arg4 pkt in
  let mem := cl_mem c in
  let only (m : M S unit) := _ ← m; mret (v, []) in
  let vol (m : M S Vol) := v ← m; mret (v, []) in
  let fib (p : Z) (m : FIB -> M S FIB) := f ← m (cl_fib c p); mret (v, [StFIB p f]) in
  let open (m : M S (option Z)) :=
  a ← m; mret (v, match a with Some Arg1 => [StArg1 A1 Arg1] | None => [] end) in
  match F with
  | act_Unknown => only (set_res DOSFALSE ERROR_ACTION_NOT_KNOWN)
  | act_IS_WRITE_PROTECTED => only (set_res DOSFALSE ERROR_DISK_WRITE_PROTECTED)
  | A_DIE => '(v, _) ← act_DIE v; mret (v, [])
  | A_CURRENT_VOLUME => only (act_CURRENT_VOLUME v)
  | A_LOCATE_OBJECT => only (act_LOCATE_OBJECT E cfg (lock_ptr A1) (mem A2) A3)
  | A_RENAME_DISK => vol (act_RENAME_DISK E v mem A1)
  | A_FREE_LOCK => only (act_FREE_LOCK (lock_ptr A1))
  | A_DELETE_OBJECT => only (act_DELETE_OBJECT E cfg (lock_ptr A1) (mem A2))
  | A_RENAME_OBJECT => only (act_RENAME_OBJECT E cfg (lock_ptr A1) (mem A2) (lock_ptr A3) (mem A4))
  | A_MORE_CACHE => vol (act_MORE_CACHE E rs junk v A1)
  | A_COPY_DIR => only (act_COPY_DIR E (lock_ptr A1))
  | A_SET_PROTECT => only (act_SET_PROTECT E cfg au_Protection2umode (lock_ptr A2) (mem A3) A4)
  | A_CREATE_DIR => only (act_CREATE_DIR E cfg (lock_ptr A1) (mem A2))
  | A_EXAMINE_OBJECT => fib A2 (act_EXAMINE_OBJECT E cfg (lock_ptr A1))
  | A_EXAMINE_NEXT => fib A2 (act_EXAMINE_NEXT E cfg (lock_ptr A1))
  | A_DISK_INFO => id ← act_DISK_INFO v (cl_info c A1); mret (v, [StInfo A1 id])
  | A_INFO => id ← act_INFO v (lock_ptr A1) (cl_info c A2); mret (v, [StInfo A2 id])
  | A_FLUSH => only act_FLUSH
  | A_PARENT => only (act_PARENT E cfg (lock_ptr A1))
  | A_TIMER => '(v, again) ← act_TIMER E v (cl_own c); mret (v, if (again : bool) then [StTimer] else [])
  | A_SET_DATE => only (act_SET_DATE E cfg (lock_ptr A2) (mem A3) (cl_ds c A4))
  | A_SAME_LOCK => only (act_SAME_LOCK (lock_ptr A1) (lock_ptr A2))
  | A_READ =>
      bs ← of_handler (fun h => '(_, bs, h) ← act_READ h A1 A3; Some (bs, h));
      mret (v, [StMem A2 bs])
  | A_WRITE => only (of_handler (fun h => '(_, h) ← act_WRITE h A1 (take (Z.to_nat A3) (mem A2)) A3; Some (tt, h)))
  | A_IOCONTROL =>
      '(v, r) ← act_IOCONTROL E stptok atoi strtol8 ug v (cl_arg0 c);
      mret (v, match r with Some r => [StReply r] | None => [] end)
  | A_FINDUPDATE => open (act_FINDUPDATE E cfg (lock_ptr A2) (mem A3))
  | A_FINDINPUT => open (act_FINDINPUT E cfg (lock_ptr A2) (mem A3))
  | A_FINDOUTPUT => open (act_FINDOUTPUT E cfg (lock_ptr A2) (mem A3))
  | A_END => only (act_END A1)
  | A_SEEK => only (of_handler (fun h => let '(_, h) := act_SEEK h A1 A2 A3 in Some (tt, h)))
  | A_MAKE_LINK => only (act_MAKE_LINK E cfg (lock_ptr A1) (mem A2) (lock_ptr (s32 (4 * A3))) (cstr (mem A3)) A4)
  | A_SET_FILE_SIZE => only (act_SET_FILE_SIZE E A1 A2 A3)
  | A_WRITE_PROTECT => vol (act_WRITE_PROTECT v A1 (u32 A2))
  | A_READ_LINK =>
      r ← act_READ_LINK E cfg (lock_ptr A1) (cstr (mem A2)) A4;
      mret (v, match r with Some bs => [StMem A3 (bs ++ [x00])] | None => [] end)
  | A_FH_FROM_LOCK => open (act_FH_FROM_LOCK E (lock_ptr A2))
  | A_IS_FILESYSTEM => only act_IS_FILESYSTEM
  | A_CHANGE_MODE => only (act_CHANGE_MODE A1 (cl_fh_Arg1 c A2) (lock_ptr A2) A3)
  | A_COPY_DIR_FH => only (act_COPY_DIR_FH E A1)
  | A_PARENT_FH => only (act_PARENT_FH E cfg A1)
  | A_EXAMINE_ALL =>
      let A5 := dp_Arg5 pkt in
      let eac := cl_eac c A5 in
      '(m, n, key) ← act_EXAMINE_ALL E cfg MatchPatternNoCase (eac_MatchString eac) (eac_MatchFunc eac)
        (lock_ptr A1) A2 (take (Z.to_nat (u32 A3)) (mem A2)) (u32 A3) (u32 A4) (eac_Entries eac) (eac_LastKey eac);
      mret (v, [StMem A2 m; StEac A5 n key])
  | A_EXAMINE_FH => fib A2 (act_EXAMINE_FH E cfg A1)
  | A_SET_OWNER => only (act_SET_OWNER E cfg (lock_ptr A2) (mem A3) A4)
  | A_CREATE_OBJECT => only (act_CREATE_OBJECT E cfg (lock_ptr A1) (mem A2) A3 A4)
  | A_GET_ATTRIBUTES =>
      '(l, ds) ← act_GET_ATTRIBUTES E cfg (lock_ptr A2) (mem A3) (cl_tags c A4);
      mret (v, StTags A4 l :: ((fun x => StDate x.1 x.2) <$> ds))
  end.

(** What the function returns. *)
Definition action_result (F : ActionFunc) : M S Z :=
  st ← gets id;
  mret (match F with
        | A_DIE => if IsInUse st then h_Res1 (hs_h st) else DOSTRUE
        | _ => h_Res1 (hs_h st)
        end).

(** The credentials for the packet of [client]; false if they cannot be had. *)
Definition update_auth (ug : UserGroup) (auth_ok : bool) (client : addr) (v : Vol) : M S (bool * Vol) :=
  let v := set_Creds (cr_UpdateCreds ug (v_Creds v) client) v in
  let '(Needed, cr) := cr_AuthNeedsUpdate ug (v_Creds v) client in
  let v := set_Creds cr v in
  if (Needed : bool)
  then _ ← act_FLUSH;
  '(ok, cr) ← of_option (cr_UpdateAuth ug auth_ok cr client);
  let v := set_Creds cr v in
  _ ← (if (ok : bool) then mret tt else set_res DOSFALSE ERROR_NO_FREE_STORE);
  mret (ok, v)
  else mret (true, v).

(** One turn of the loop; the reply is [g_Res1] and [g_Res2], if [v_DoReply]. *)
Definition handle_packet (ug : UserGroup) (auth_ok : bool) (c : Client) (d : Dispatch) (v : Vol) (pkt : DOSPKT)
  : M S (Vol * list store) :=
  let v := set_running (v_Running v) true v in
  prep ← of_option (act_Prepare d (v_flag v GF_IS_WRITE_PROTECTED) pkt);
  match prep with
  | None => _ ← set_res DOSFALSE ERROR_ACTION_NOT_KNOWN; mret (v, [])
  | Some (Func, Internal, pkt) =>
      '(ok, v) ← (if negb Internal && negb (bool_decide (Func = A_IOCONTROL))
                  then update_auth ug auth_ok (cl_task c) v
                  else mret (true, v));
      if (ok : bool)
      then '(v, out) ← call_action ug c v Func pkt;
      Res1 ← action_result Func;
      _ ← unlock_caches E;
      _ ← (if Res1 =? DOSTRUE then set_res1 Res1 else mret tt);
      mret (v, out)
      else mret (v, [])
  end.

(** A control-C in place of a packet. *)
Definition handle_break (v : Vol) : M S Vol :=
  '(v, died) ← act_DIE v;
  mret (if (died : bool) then set_running false (v_DoReply v) v else v).
End Main.
