(* ===== verification/FibThm.v ===== *)
(** * Theorems about FileInfoBlocks (examine.c)

    The bits of a protection word, times there and back, and that a
    FileInfoBlock is filled within its arrays. *)
From S2P Require Import Prelude MBuf NfsProt NfsSupp Fn Fib.

(** The bit of the mode that bit [k] of the protection shows, and whether it
    shows its absence. *)
Definition protection_bit (mode k : Z) : bool :=
  if (k =? 1) then negb (Z.testbit mode 6)
  else if (k =? 0) || (k =? 2) then negb (Z.testbit mode 7)
  else if (k =? 3) then negb (Z.testbit mode 8)
  else if (k =? 9) then Z.testbit mode 3
  else if (k =? 8) || (k =? 10) then Z.testbit mode 4
  else if (k =? 11) then Z.testbit mode 5
  else if (k =? 13) then Z.testbit mode 0
  else if (k =? 12) || (k =? 14) then Z.testbit mode 1
  else if (k =? 15) then Z.testbit mode 2
  else false.

Definition upto (n : nat) : list Z := Z.of_nat <$> seq 0 n.
Lemma upto_in n z : 0 <= z < Z.of_nat n -> z ∈ upto n.
Proof. intros Hz. apply list_elem_of_fmap. exists (Z.to_nat z). split; [lia|]. apply elem_of_seq. lia. Qed.

Definition protections_agree : bool :=
  forallb (fun mode => forallb (fun k => Bool.eqb (Z.testbit (NFSMode2Protection mode) k) (protection_bit mode k)) (upto 16)
                       && (NFSMode2Protection mode <? 65536) && (0 <=? NFSMode2Protection mode)) (upto 512).

Lemma low_bits mode k : 0 <= k < 9 -> Z.testbit (Z.land mode 511) k = Z.testbit mode k.
Proof.
  intros Hk. change 511 with (Z.ones 9). rewrite Z.land_spec, Z.ones_spec_low by lia. by rewrite andb_true_r.
Qed.

Lemma protection_bit_low mode k : protection_bit (Z.land mode 511) k = protection_bit mode k.
Proof. unfold protection_bit. by rewrite !low_bits by lia. Qed.

Lemma NFSMode2Protection_low mode : NFSMode2Protection (Z.land mode 511) = NFSMode2Protection mode.
Proof. unfold NFSMode2Protection. by rewrite <-Z.land_assoc. Qed.

Lemma NFSMode2Protection_ok mode k : 0 <= k ->
  Z.testbit (NFSMode2Protection mode) k = protection_bit mode k /\ 0 <= NFSMode2Protection mode < 65536.
Proof.
  intros Hk. rewrite <-NFSMode2Protection_low, <-protection_bit_low. set (m := Z.land mode 511).
  assert (Hm : 0 <= m < 512).
  { unfold m. change 511 with (Z.ones 9). rewrite Z.land_ones by lia. apply Z.mod_pos_bound. lia. }
  assert (Hall : protections_agree = true) by (by vm_compute).
  unfold protections_agree in Hall. rewrite forallb_forall in Hall.
  specialize (Hall m (proj1 (list_elem_of_In _ _) (upto_in 512 m Hm))).
  apply andb_true_iff in Hall as [Hall H0]. apply andb_true_iff in Hall as [Hall H1]. zbool.
  split; [|lia]. destruct (Z.ltb_spec k 16) as [Hk2|Hk2].
  - rewrite forallb_forall in Hall. apply Bool.eqb_prop, Hall, list_elem_of_In, upto_in. lia.
  - rewrite Z.bits_above_log2; [|lia|].
    + unfold protection_bit. repeat (rewrite (proj2 (Z.eqb_neq k _)) by lia). done.
    + destruct (Z.eq_dec (NFSMode2Protection m) 0) as [->|Hn]; [simpl; lia|].
      apply Z.log2_lt_pow2; [lia|]. apply Z.lt_le_trans with (2 ^ 16); [lia|]. apply Z.pow_le_mono_r; lia.
Qed.

(** Protection bits.  Bit by bit, the protection word shows the rights of
    the mode: a set bit of the owner's denies what the mode allows, one of
    the group's and of others' grants it, delete goes with write, and no other
    bit is set, whatever else the mode has. *)
Theorem NFSMode2Protection_bits mode k :
  0 <= k -> Z.testbit (NFSMode2Protection mode) k = protection_bit mode k.
Proof. intros Hk. by apply NFSMode2Protection_ok. Qed.

Lemma NFSMode2Protection_bits_witness :
  Z.testbit (NFSMode2Protection 420) 0 = false /\ protection_bit 420 11 = true.
Proof. split; [exact (NFSMode2Protection_bits 420 0 (Z.le_refl 0))|reflexivity]. Defined.

(** ** Times *)

Definition date_ok (ds : DateStamp) : Prop :=
  0 <= ds_Days ds /\ 0 <= ds_Minute ds < 24 * 60 /\ 0 <= ds_Tick ds < 60 * TICKS_PER_SECOND /\
  (ds_Days ds * 24 * 60 + ds_Minute ds) * 60 + ds_Tick ds / TICKS_PER_SECOND < 2 ^ 31.
Definition time_ok (tv : nfstime) : Prop := 0 <= nt_seconds tv < 2 ^ 31 /\ 0 <= nt_useconds tv < 1000000.

Lemma tick_useconds r : 0 <= r < 50 -> u32 (s32 (r * 1000000) ÷ 50) = r * 20000.
Proof.
  intros Hr. rewrite s32_id, Z.quot_div_nonneg by lia. replace (r * 1000000) with (r * 20000 * 50) by lia.
  rewrite Z.div_mul, u32_id by lia. done.
Qed.

Lemma day_split d m s : 0 <= m < 1440 -> 0 <= s < 60 ->
  ((d * 24 * 60 + m) * 60 + s) / 86400 = d /\
  ((d * 24 * 60 + m) * 60 + s) mod 86400 / 60 = m /\ ((d * 24 * 60 + m) * 60 + s) mod 60 = s.
Proof.
  intros Hm Hs.
  assert (E : ((d * 24 * 60 + m) * 60 + s) mod 86400 = m * 60 + s) by (symmetry; apply (Z.mod_unique _ _ d); lia).
  rewrite E. split; [symmetry; apply (Z.div_unique _ _ d (m * 60 + s)); lia|]. split.
  - symmetry. apply (Z.div_unique _ _ m s); lia.
  - symmetry. apply (Z.mod_unique _ _ (d * 1440 + m)); lia.
Qed.

(** Times.  A date within the range of the protocol's seconds is the same
    after it was sent to the server and comes back, to the tick; a time comes
    back with its microseconds rounded down to ticks. *)
Theorem times_roundtrip ds tv : date_ok ds -> time_ok tv ->
  timeval2DateStamp (DateStamp2timeval ds) = ds /\
  DateStamp2timeval (timeval2DateStamp tv) = NfsTime (nt_seconds tv) (nt_useconds tv / 20000 * 20000).
Proof.
  destruct ds as [d m t], tv as [s us]. unfold date_ok, time_ok, TICKS_PER_SECOND. simpl.
  intros (Hd & Hm & Ht & Hs) [Hsec Hus]. unfold timeval2DateStamp, DateStamp2timeval, TICKS_PER_SECOND. simpl. split.
  - rewrite (Z.quot_div_nonneg t 50), (Z.rem_mod_nonneg t 50) by lia. pose proof (Z.mod_pos_bound t 50). pose proof (Z.div_mod t 50).
    assert (0 <= t / 50 < 60) by (split; [apply Z.div_pos|apply Z.div_lt_upper_bound]; lia).
    rewrite tick_useconds by lia. set (sec := (d * 24 * 60 + m) * 60 + t / 50) in *.
    rewrite (u32_id sec) by lia. rewrite (Z.div_small (t mod 50 * 20000)) by lia. rewrite Z.add_0_r, s32_id by lia.
    pose proof (Z.mod_pos_bound sec 86400). rewrite (Z.quot_div_nonneg sec), (Z.rem_mod_nonneg sec), (Z.quot_div_nonneg (sec mod 86400)) by lia.
    destruct (day_split d m (t / 50)) as (E1 & E2 & E3); [lia|lia|]. fold sec in E1, E2, E3.
    rewrite E1, E2, E3, Z.div_mul, s32_id by lia. f_equal. lia.
  - rewrite (Z.div_small us 1000000), Z.add_0_r by lia. rewrite s32_id by lia.
    pose proof (Z.mod_pos_bound s 86400). rewrite (Z.quot_div_nonneg s), (Z.rem_mod_nonneg s), (Z.quot_div_nonneg (s mod 86400)) by lia.
    assert (0 <= us / 20000 < 50) by (split; [apply Z.div_pos|apply Z.div_lt_upper_bound]; lia).
    pose proof (Z.mod_pos_bound s 60). rewrite s32_id by lia.
    set (tick := s mod 60 * 50 + us / 20000). rewrite (Z.quot_div_nonneg tick), (Z.rem_mod_nonneg tick) by (unfold tick; lia).
    assert (E1 : tick / 50 = s mod 60) by (symmetry; apply (Z.div_unique _ _ _ (us / 20000)); unfold tick; lia).
    assert (E2 : tick mod 50 = us / 20000) by (symmetry; apply (Z.mod_unique _ _ (s mod 60)); unfold tick; lia).
    rewrite E1, E2, tick_useconds by lia. f_equal.
    pose proof (Z.div_mod s 86400). pose proof (Z.div_mod (s mod 86400) 60). pose proof (Z.mod_pos_bound (s mod 86400) 60).
    assert (E : s mod 60 = s mod 86400 mod 60) by (symmetry; apply (Z.mod_unique _ _ (s mod 86400 / 60 + s / 86400 * 1440)); lia).
    rewrite u32_id by lia. lia.
Qed.

Definition ex_date : DateStamp := MkDateStamp 5844 1439 2999.
Definition ex_time : nfstime := NfsTime 1000000000 999999.
Lemma times_roundtrip_witness :
  timeval2DateStamp (DateStamp2timeval ex_date) = ex_date /\
  DateStamp2timeval (timeval2DateStamp ex_time) = NfsTime 1000000000 980000.
Proof.
  assert (H1 : date_ok ex_date) by (unfold date_ok, ex_date, TICKS_PER_SECOND; simpl; repeat split; lia).
  assert (H2 : time_ok ex_time) by (unfold time_ok, ex_time; simpl; lia).
  exact (times_roundtrip ex_date ex_time H1 H2).
Defined.

(** ** FileInfoBlocks *)

Record fib_ok (fib : FIB) : Prop := {
  fib_name_len : zlen (fib_FileName fib) = 108;
  fib_comment_len : zlen (fib_Comment fib) = 80
}.

(** The name is [n], as a BSTR that ends with a zero byte. *)
Definition fib_named (fib : FIB) (n : list byte) : Prop :=
  exists junk, fib_FileName fib = byte_of_Z (zlen n) :: n ++ x00 :: junk.

(** The members that show the attributes. *)
Definition fib_shows (fib : FIB) (a : fattr) : Prop :=
  fib_DiskKey fib = fa_fileid a /\ fib_DirEntryType fib = NFSType2EntryType (fa_type a) /\
  fib_Protection fib = NFSMode2Protection (fa_mode a) /\ fib_Size fib = s32 (fa_size a) /\
  fib_NumBlocks fib = s32 (fa_blocks a) /\ fib_Date fib = timeval2DateStamp (fa_mtime a) /\
  fib_OwnerUID fib = nfsuid2UID (fa_uid a) /\ fib_OwnerGID fib = nfsgid2GID (fa_gid a).

(** A store of [n] behind the first byte of an array, of its length there and
    of a zero byte behind it. *)
Lemma put_bstr c F n : zlen n < zlen F -> exists junk,
  (l ← copy_at (c :: F) 1 n; l ← arr_set l 0 (byte_of_Z (zlen n)); arr_set l (zlen n + 1) x00) =
    Some (byte_of_Z (zlen n) :: n ++ x00 :: junk) /\ zlen (n ++ x00 :: junk) = zlen F.
Proof.
  intros Hl. destruct (drop (length n) F) as [|z junk] eqn:Ed.
  { apply (f_equal length) in Ed. rewrite length_drop in Ed. unfold zlen in *. simpl in Ed. lia. }
  assert (Hz : zlen F = zlen n + 1 + zlen junk).
  { rewrite <-(take_drop (length n) F), Ed, zlen_app, zlen_cons. unfold zlen in *. rewrite length_take. lia. }
  exists junk. split; [|rewrite zlen_app, zlen_cons; lia].
  unfold copy_at. simpl. rewrite Ed, (proj2 (Z.leb_le _ _)) by (unfold zlen in *; lia). simpl.
  change (arr_set (c :: n ++ z :: junk) 0 (byte_of_Z (zlen n))) with (Some (byte_of_Z (zlen n) :: n ++ z :: junk)). simpl.
  replace (zlen n + 1) with (zlen (byte_of_Z (zlen n) :: n)) by (rewrite zlen_cons; lia).
  exact (arr_set_app_r (byte_of_Z (zlen n) :: n) junk z x00).
Qed.

Lemma FAttr2FIB_ok a Name MaxFileNameLen fib :
  fib_ok fib -> 0 <= MaxFileNameLen <= 106 ->
  exists fib', FAttr2FIB a Name (zlen Name) MaxFileNameLen fib = Some fib' /\
    fib_ok fib' /\ fib_named fib' (take (Z.to_nat MaxFileNameLen) Name) /\ fib_shows fib' a /\
    (cstr Name = Name -> FAttr2FIB a Name (-1) MaxFileNameLen fib = Some fib').
Proof.
  intros [Hn Hc] Hm. set (n := take (Z.to_nat MaxFileNameLen) Name). pose proof (zlen_nonneg Name) as H0.
  assert (Hmin : zlen n = Z.min (zlen Name) MaxFileNameLen) by (unfold n, zlen in *; rewrite length_take; lia).
  assert (Hlen : (if zlen Name >? MaxFileNameLen then MaxFileNameLen else zlen Name) = zlen n).
  { destruct (Z.gtb_spec (zlen Name) MaxFileNameLen); lia. }
  assert (Htake : take (Z.to_nat (zlen n)) Name = n).
  { unfold zlen. rewrite Nat2Z.id. unfold n. rewrite length_take. destruct (Nat.min_spec (Z.to_nat MaxFileNameLen) (length Name)) as [[_ ->]|[? ->]]; [done|].
    by rewrite !take_ge by lia. }
  destruct (fib_FileName fib) as [|c F] eqn:EF; [done|]. rewrite zlen_cons in Hn.
  destruct (fib_Comment fib) as [|cc C] eqn:EC; [done|].
  destruct (put_bstr c F n) as (junk & Hput & Hjunk); [lia|].
  set (fib' := MkFIB (fa_fileid a) (NFSType2EntryType (fa_type a)) (byte_of_Z (zlen n) :: n ++ x00 :: junk)
                 (NFSMode2Protection (fa_mode a)) (s32 (fa_size a)) (s32 (fa_blocks a)) (timeval2DateStamp (fa_mtime a)) (x00 :: C)
                 (nfsuid2UID (fa_uid a)) (nfsgid2GID (fa_gid a))).
  exists fib'. assert (Hrun : FAttr2FIB a Name (zlen Name) MaxFileNameLen fib = Some fib').
  { unfold FAttr2FIB. rewrite (proj2 (Z.eqb_neq (zlen Name) (-1))), Hlen by lia.
    rewrite (proj2 (Z.leb_le 0 _)), (proj2 (Z.leb_le _ _)) by lia. rewrite Htake, EF, EC. simpl.
    destruct (copy_at (c :: F) 1 n) as [l1|]; [|done]. simpl in *.
    destruct (arr_set l1 0 _) as [l2|]; [|done]. simpl in *. rewrite Hput. simpl. reflexivity. }
  split; [exact Hrun|]. split; [constructor; simpl; rewrite ?zlen_cons in *; lia|]. split; [by exists junk|]. split; [done|].
  intros Hs. rewrite <-Hrun. unfold FAttr2FIB. rewrite Hs. simpl.
  by rewrite (proj2 (Z.eqb_neq (zlen Name) (-1))) by lia.
Qed.

(** C40: a FileInfoBlock is filled within its arrays, for every name the volume
    allows: the name cut to the volume's maximum becomes a BSTR with a zero
    byte behind it, and the other members are those of the attributes. *)
Theorem FAttr2FIB_fits a Name MaxFileNameLen fib :
  fib_ok fib -> 0 <= MaxFileNameLen <= 106 ->
  exists fib', FAttr2FIB a Name (zlen Name) MaxFileNameLen fib = Some fib' /\
    fib_ok fib' /\ fib_named fib' (take (Z.to_nat MaxFileNameLen) Name) /\ fib_shows fib' a /\
    (cstr Name = Name -> FAttr2FIB a Name (-1) MaxFileNameLen fib = Some fib').
Proof. apply FAttr2FIB_ok. Qed.

Definition fib0 : FIB :=
  MkFIB 0 0 (replicate 108 x00) 0 0 0 (MkDateStamp 0 0 0) (replicate 80 x00) 0 0.
Lemma fib0_ok : fib_ok fib0.
Proof. by constructor. Qed.

Lemma FAttr2FIB_fits_witness : exists fib',
  FAttr2FIB (FAttr 1 420 1 1000 100 5000 512 0 10 0 7 ex_time ex_time ex_time) [x61; x62] 2 30 fib0 = Some fib' /\
  fib_named fib' [x61; x62].
Proof.
  destruct (FAttr2FIB_fits (FAttr 1 420 1 1000 100 5000 512 0 10 0 7 ex_time ex_time ex_time) [x61; x62] 30 fib0 fib0_ok
              ltac:(lia)) as (fib' & Hr & _ & Hn & _).
  exists fib'. split; [exact Hr|exact Hn].
Defined.
