(* ===== verification/CredThm.v ===== *)
(** * Theorems about credentials (cred.c)

    Unless a user is set, a packet's calls are made for the user of the task
    that sent it. *)
From S2P Require Import Prelude MBuf WBufInfo NfsProt NfsSupp Nfs NfsLookup Global WBuf RBuf FtHash DCache.
From S2P Require Import FileHandle Dirs HState Fn Walk Find ExAll Cred Volume IoCtl Actions Main TreeServer LockThm.

(** The cached AUTH is the one of the user and groups in the CRED. *)
Definition auth_of (cr : CRED) (a : AUTH) : Prop :=
  au_uid a = cr_UID cr /\ au_gid a = cr_GID cr /\ au_gids a = take (Z.to_nat (cr_NGroups cr)) (cr_GIDS cr).

(** [cred_ok]: a cached AUTH that belongs to a task is up to date. *)
Record cred_ok (cr : CRED) : Prop := {
  co_gids : zlen (cr_GIDS cr) = NGROUPS;
  co_auth : forall a t, cr_Auth cr = Some a -> cr_ClientCache cr = Some t -> auth_of cr a
}.

(** The steps of [update_auth] on the CRED. *)
Definition cred_step (ug : UserGroup) (auth_ok : bool) (client : addr) (cr : CRED) : option (bool * CRED) :=
  let '(Needed, cr) := cr_AuthNeedsUpdate ug (cr_UpdateCreds ug cr client) client in
  if Needed then cr_UpdateAuth ug auth_ok cr client else Some (true, cr).

Lemma cr_Init_ok cr : zlen (cr_GIDS cr) = NGROUPS -> cred_ok (cr_Init cr).
Proof. intros Hg. by constructor. Qed.

Lemma UpdateCreds_ok ug cr client : cred_ok cr -> let cr' := cr_UpdateCreds ug cr client in
  cred_ok cr' /\ cr_Flags cr' = cr_Flags cr /\ cr_Auth cr' = cr_Auth cr /\ cr_ClientCache cr' = cr_ClientCache cr /\
  cr_UID cr' = cr_UID cr.
Proof.
  intros [Hg Ha]. unfold cr_UpdateCreds. destruct (cr_flag cr CRF_UMASK); [done|]. case_bool_decide; [done|].
  by destruct (ug_creds ug client).
Qed.

Lemma SetUMask_ok cr umask : cred_ok cr -> cred_ok (cr_SetUMask cr umask).
Proof. by intros [Hg Ha]. Qed.
Lemma InvalidateCache_ok cr : cred_ok cr -> cred_ok (cr_InvalidateCache cr).
Proof. by intros [Hg Ha]. Qed.
Lemma CleanUp_ok cr : cred_ok cr -> cred_ok (cr_CleanUp cr).
Proof. intros [Hg Ha]. unfold cr_CleanUp. by destruct (cr_Auth cr) eqn:E; [|constructor; rewrite ?E]. Qed.
Lemma SetUser_ok ug mem_ok cr user : cred_ok cr -> cred_ok (cr_SetUser ug mem_ok cr user).2.
Proof.
  intros [Hg Ha]. unfold cr_SetUser. destruct mem_ok; [|done]. by destruct (ug_passwd ug user) as [[uid gid]|].
Qed.

Lemma copy_head {A} (l src : list A) : zlen src <= zlen l ->
  exists l', copy_at l 0 src = Some l' /\ zlen l' = zlen l /\ take (Z.to_nat (zlen src)) l' = src.
Proof.
  intros Hl. unfold copy_at, zlen in *. simpl. rewrite (proj2 (Z.leb_le _ _)) by lia.
  eexists. split; [done|]. split; [rewrite length_app, length_drop; lia|].
  by rewrite Nat2Z.id, take_app_length.
Qed.

Lemma getgroups_len name n groups gidset r :
  cr_getgroups name n groups gidset = Some r -> zlen gidset <= n -> zlen r <= n.
Proof.
  revert gidset. induction groups as [|[gid mem] groups IH]; simpl; intros gidset; [by intros [= ->]|].
  case_bool_decide; [|by apply IH]. destruct (Z.eqb_spec (zlen gidset) n); [done|].
  intros Hr Hl. apply IH in Hr; [done|]. rewrite zlen_app, zlen_cons, zlen_nil. lia.
Qed.

(** A new AUTH, for the user that is set or that of the task. *)
Lemma SetAuth_ok ug auth_ok cr client : cred_ok cr -> (cr_flag cr CRF_USER = true -> is_Some (cr_UserName cr)) ->
  (forall creds, ug_creds ug client = Some creds -> zlen (cr_groups creds) <= NGROUPS) ->
  exists ok cr', cr_SetAuth ug auth_ok cr client = Some (ok, cr') /\ cred_ok cr' /\ cr_Flags cr' = cr_Flags cr /\
    (ok = true -> exists a, cr_Auth cr' = Some a /\ auth_of cr' a /\
      (cr_flag cr CRF_USER = false -> exists creds, ug_creds ug client = Some creds /\
         a = MkAUTH (cr_euid creds) (cr_rgid creds) (cr_groups creds))).
Proof.
  intros [Hg Ha] Hu Hc. unfold cr_SetAuth. destruct (cr_flag cr CRF_USER) eqn:Ef.
  - destruct (Hu eq_refl) as [name ->]. simpl.
    destruct (ug_passwd ug name) as [[uid gid]|]; [|by eexists _, _].
    destruct (cr_getgroups name NGROUPS (ug_groups ug) []) as [groups|] eqn:Eg; [|by eexists _, _].
    apply getgroups_len in Eg; [|done]. destruct (copy_head (cr_GIDS cr) groups) as (gids & -> & Hl & Ht); [lia|].
    simpl. eexists _, _. split; [done|]. split; [destruct auth_ok; constructor; simpl; congruence|].
    split; [by destruct auth_ok|]. intros ->. by eexists.
  - destruct (ug_creds ug client) as [creds|]; [|by eexists _, _]. destruct auth_ok; [|by eexists _, _].
    destruct (copy_head (cr_GIDS cr) (cr_groups creds)) as (gids & -> & Hl & Ht); [rewrite Hg; by apply Hc|].
    simpl. eexists _, _. split; [done|]. split; [constructor; simpl; [congruence|]; by intros a t [= <-] _|].
    split; [done|]. intros _. eexists. split; [done|]. split; [done|]. by exists creds.
Qed.

(** The AUTH [a] for a packet of [client]: made of the credentials of the task,
    or the one made for it before, if its effective user is still the same as
    far as the network library knows. *)
Definition auth_for (ug : UserGroup) (client : addr) (cr : CRED) (a : AUTH) : Prop :=
  (exists creds, ug_creds ug client = Some creds /\ a = MkAUTH (cr_euid creds) (cr_rgid creds) (cr_groups creds)) \/
  (cr_Auth cr = Some a /\ cr_ClientCache cr = Some client /\
   forall creds, ug_creds ug client = Some creds -> cr_euid creds = au_uid a).
(** The umask that cr_UpdateCreds leaves. *)
Definition umask_for (ug : UserGroup) (client : addr) (cr : CRED) (umask : Z) : Prop :=
  if cr_flag cr CRF_UMASK || bool_decide (cr_ClientCacheUMask cr = Some client) then umask = cr_UMask cr
  else umask = match ug_creds ug client with Some creds => cr_umask creds | None => CR_DEFAULT_UMASK end.

Lemma UpdateCreds_umask ug cr client : umask_for ug client cr (cr_UMask (cr_UpdateCreds ug cr client)).
Proof.
  unfold umask_for, cr_UpdateCreds. destruct (cr_flag cr CRF_UMASK); [done|]. simpl.
  rewrite (bool_decide_ext (Some client = cr_ClientCacheUMask cr) (cr_ClientCacheUMask cr = Some client)) by done.
  case_bool_decide; [done|]. by destruct (ug_creds ug client).
Qed.
Lemma SetAuth_umask ug auth_ok cr client ok cr' : cr_SetAuth ug auth_ok cr client = Some (ok, cr') -> cr_UMask cr' = cr_UMask cr.
Proof.
  unfold cr_SetAuth. destruct (cr_flag cr CRF_USER).
  - destruct (cr_UserName cr); [|done]. simpl. repeat case_match; simpl; try (by intros [= _ <-]); destruct (copy_at _ _ _); simpl; intros [=]; subst; done.
  - repeat case_match; try (by intros [= _ <-]). destruct (copy_at _ _ _); simpl; intros [=]; by subst.
Qed.

Lemma cred_step_ok ug auth_ok client cr : cred_ok cr -> cr_flag cr CRF_USER = false ->
  (forall creds, ug_creds ug client = Some creds -> zlen (cr_groups creds) <= NGROUPS) ->
  exists ok cr', cred_step ug auth_ok client cr = Some (ok, cr') /\ cred_ok cr' /\ umask_for ug client cr (cr_UMask cr') /\
    (ok = true -> exists a, cr_Auth cr' = Some a /\ auth_of cr' a /\ auth_for ug client cr a).
Proof.
  intros Hok Hf Hc. destruct (UpdateCreds_ok ug cr client Hok) as (Hok1 & Ef & Ea & Ec & Eu).
  pose proof (UpdateCreds_umask ug cr client) as Hum.
  unfold cred_step. set (cr1 := cr_UpdateCreds ug cr client) in *.
  assert (Hf1 : forall c, cr_Flags c = cr_Flags cr1 -> cr_flag c CRF_USER = false).
  { intros c Hc'. unfold cr_flag in *. by rewrite Hc', Ef. }
  assert (Hset : forall c, cred_ok c -> cr_Flags c = cr_Flags cr1 -> cr_UMask c = cr_UMask cr1 ->
            exists ok cr', cr_SetAuth ug auth_ok c client = Some (ok, cr') /\ cred_ok cr' /\ umask_for ug client cr (cr_UMask cr') /\
              (ok = true -> exists a, cr_Auth cr' = Some a /\ auth_of cr' a /\ auth_for ug client cr a)).
  { intros c Hcok Hcf Hcu. pose proof (Hf1 c Hcf) as Hcf'.
    destruct (SetAuth_ok ug auth_ok c client Hcok) as (ok & cr' & Hr & Hok' & _ & Ha); [by rewrite Hcf'|done|].
    exists ok, cr'. split; [done|]. split; [done|]. split; [by rewrite (SetAuth_umask _ _ _ _ _ _ Hr), Hcu|].
    intros Hk. destruct (Ha Hk) as (a & Hau & Hof & Hcr).
    exists a. split; [done|]. split; [done|]. left. by apply Hcr. }
  unfold cr_AuthNeedsUpdate. destruct (cr_Auth cr1) as [a|] eqn:Eau.
  - rewrite Hf1 by done. destruct (decide (Some client = cr_ClientCache cr1)) as [Hcl|Hcl].
    + rewrite bool_decide_eq_true_2 by done. simpl.
      pose proof (co_auth _ Hok1 a client Eau (eq_sym Hcl)) as Hof.
      destruct (ug_creds ug client) as [creds|] eqn:Eug.
      * destruct (Z.eqb_spec (cr_euid creds) (cr_UID cr1)) as [He|He]; simpl.
        -- exists true, cr1. split; [done|]. split; [done|]. split; [done|]. intros _. exists a. split; [done|]. split; [done|].
           right. split; [by rewrite <-Ea|]. split; [by rewrite <-Ec|]. rewrite Eug. intros c [= <-]. rewrite He. symmetry. apply Hof.
        -- unfold cr_UpdateAuth. simpl. rewrite Eau. rewrite (Hf1 (cr_InvalidateCache cr1)) by done. simpl.
           apply Hset; [by apply InvalidateCache_ok|done|done].
      * exists true, cr1. split; [done|]. split; [done|]. split; [done|]. intros _. exists a. split; [done|]. split; [done|].
        right. split; [by rewrite <-Ea|]. split; [by rewrite <-Ec|]. by rewrite Eug.
    + rewrite bool_decide_eq_false_2 by done. simpl. unfold cr_UpdateAuth. rewrite Eau, Hf1 by done.
      rewrite bool_decide_eq_false_2 by done. by apply Hset.
  - unfold cr_UpdateAuth. rewrite Eau. by apply Hset.
Qed.

(** A flag that has been set. *)
Lemma flag_lor cr flags f : 0 < f -> cr_Flags cr = Z.lor flags f -> cr_flag cr f = true.
Proof.
  intros Hf Hfl. unfold cr_flag. rewrite Hfl. apply negb_true_iff, Z.eqb_neq. intros H0.
  assert (Hz : forall i, Z.testbit (Z.land (Z.lor flags f) f) i = false) by (intros i; by rewrite H0, Z.bits_0).
  assert (f = 0); [|lia]. apply Z.bits_inj'. intros i _. specialize (Hz i).
  rewrite Z.land_spec, Z.lor_spec in Hz. rewrite Z.bits_0. by destruct (Z.testbit f i), (Z.testbit flags i).
Qed.

(** The state of [update_auth] in a volume. *)
Lemma set_Creds_twice cr1 cr2 v : set_Creds cr2 (set_Creds cr1 v) = set_Creds cr2 v.
Proof. by destruct v. Qed.
Lemma v_Creds_set cr v : v_Creds (set_Creds cr v) = cr.
Proof. done. Qed.

Section Auth.
Context {S : Type} `{NfsRpc S}.

(** [update_auth] takes the steps of [cred_step]. *)
Lemma update_auth_step ug auth_ok client v ok cr' (st st1 : HState S) :
  cred_step ug auth_ok client (v_Creds v) = Some (ok, cr') -> act_FLUSH st = Some (inr tt, st1) ->
  exists st', update_auth ug auth_ok client v st = Some (inr (ok, set_Creds cr' v), st').
Proof.
  intros Hs Hf. unfold update_auth, cred_step in *. cbv zeta. cbn [v_Creds set_Creds].
  destruct (cr_AuthNeedsUpdate ug _ client) as [[] cr1].
  - rewrite set_Creds_twice. rewrite M_bind_eq, Hf, M_bind_eq. unfold of_option.
    change (v_Creds (set_Creds cr1 v)) with cr1. rewrite Hs. cbn [mbind option_bind]. rewrite set_Creds_twice. destruct ok; by eexists.
  - injection Hs as <- <-. rewrite set_Creds_twice. by eexists.
Qed.

(** C36: unless a user is set, a packet's calls are made for the task that sent it.
    If the task is in no more groups than the CRED has room for and the flush
    in update_auth comes to an end, update_auth does.  When it succeeds there is
    an AUTH, the one the fields of the CRED tell, and it is either made of the
    effective user, group and groups of the task, or it is the one made for
    this task before, which is kept as long as the effective user of the task
    is that of the AUTH or the network library does not know the task: a change
    of the groups alone goes unseen.  The umask is the fixed one, that of the
    same task before, the task's, or the default when the task is not known. *)
Theorem update_auth_for_client ug auth_ok client v (st st1 : HState S) :
  cred_ok (v_Creds v) -> cr_flag (v_Creds v) CRF_USER = false ->
  (forall creds, ug_creds ug client = Some creds -> zlen (cr_groups creds) <= NGROUPS) ->
  act_FLUSH st = Some (inr tt, st1) ->
  exists ok v' st', update_auth ug auth_ok client v st = Some (inr (ok, v'), st') /\ cred_ok (v_Creds v') /\
    umask_for ug client (v_Creds v) (cr_UMask (v_Creds v')) /\
    (ok = true -> exists a, cr_Auth (v_Creds v') = Some a /\ auth_of (v_Creds v') a /\ auth_for ug client (v_Creds v) a).
Proof.
  intros Hok Hu Hg Hf. destruct (cred_step_ok ug auth_ok client _ Hok Hu Hg) as (ok & cr' & Hs & Hok' & Ha).
  destruct (update_auth_step ug auth_ok client v ok cr' st st1 Hs Hf) as [st' Hr]. by exists ok, (set_Creds cr' v), st'.
Qed.

(** Whoever sends a packet, the AUTH that exists is used when a user is set. *)
Lemma user_set_auth ug auth_ok client v a (st : HState S) :
  cr_Auth (v_Creds v) = Some a -> cr_flag (v_Creds v) CRF_USER = true ->
  exists v', update_auth ug auth_ok client v st = Some (inr (true, v'), st) /\
    cr_Auth (v_Creds v') = Some a /\ cr_GetUser (v_Creds v') = cr_GetUser (v_Creds v).
Proof.
  intros Ha Hf. unfold update_auth. cbv zeta. set (cr := cr_UpdateCreds ug (v_Creds v) client).
  assert (cr_Auth cr = Some a /\ cr_flag cr CRF_USER = true /\ cr_GetUser cr = cr_GetUser (v_Creds v)) as (Ea & Ef & Eu).
  { unfold cr, cr_UpdateCreds, cr_GetUser, cr_flag in *. rewrite Hf.
    destruct (negb (Z.land (cr_Flags (v_Creds v)) CRF_UMASK =? 0)); [by rewrite Hf|].
    case_bool_decide; [by rewrite Hf|]. destruct (ug_creds ug client); simpl; by rewrite Hf. }
  change (v_Creds (set_Creds cr v)) with cr. cbn [v_Creds set_Creds]. unfold cr_AuthNeedsUpdate. rewrite Ea, Ef.
  rewrite set_Creds_twice. eexists. split; [reflexivity|]. by split.
Qed.

(** an error: setting the user comes too late once there is an AUTH.  After
    the command SET USER has succeeded, every packet of every task is still
    sent with the AUTH of the task before, while the command GET USER answers
    with the new name. *)
Theorem set_user_keeps_auth E atoi strtol8 ug v a user v' auth_ok client (st st' : HState S) :
  cr_Auth (v_Creds v) = Some a ->
  ctl_set E atoi strtol8 ug v CS_USER user st = Some (inr v', st') ->
  exists v'', update_auth ug auth_ok client v' st' = Some (inr (true, v''), st') /\
    cr_Auth (v_Creds v'') = Some a /\ cr_GetUser (v_Creds v'') = Some user.
Proof.
  intros Ha Hs. unfold ctl_set in Hs. simpl in Hs. unfold mem_ok in Hs. rewrite !M_bind_eq in Hs. unfold AllocVec in Hs.
  cbn -[cr_SetUser] in Hs. unfold cr_SetUser in Hs. destruct (bool_decide _); [|done].
  destruct (ug_passwd ug user) as [[uid gid]|]; [|done]. injection Hs as <- _.
  destruct (user_set_auth ug auth_ok client (set_Creds (set_cr_cache None (cr_ClientCacheUMask (v_Creds v))
                                                          (set_cr_user (Z.lor (cr_Flags (v_Creds v)) CRF_USER) (Some user) uid gid (v_Creds v))) v) a st')
    as (v'' & Hu & Ha'' & Hg); [done|by eapply flag_lor|].
  exists v''. split; [done|]. split; [done|]. rewrite Hg. unfold cr_GetUser. by erewrite flag_lor.
Qed.
End Auth.

(** ** Concrete runs *)

Definition ex_ug : UserGroup := MkUserGroup
  (fun name => if bool_decide (name = [x72]) then Some (0, 0) else None) []
  (fun t => if bool_decide (t = 7%positive) then Some (MkUGCred 100 20 18 [20; 21]) else None).
Definition ex_cred (a : option AUTH) : CRED := MkCRED 0 None 5 5 (replicate 32 0) 0 18 a None None.
Definition ex_vol (a : option AUTH) : Vol :=
  MkVol (MkMounted [x02] (tree_attr 2 NFDIR) 30 8192 [] [] 1) [x76] [x76] 0 0 512 30 100 60 100 25 (ex_cred a) true true.

Lemma update_auth_for_client_witness : exists v' st' a,
  update_auth ex_ug true 7 (ex_vol None) ex_state = Some (inr (true, v'), st') /\ cr_Auth (v_Creds v') = Some a /\
  a = MkAUTH 100 20 [20; 21] /\ cr_UMask (v_Creds v') = 18.
Proof.
  destruct (update_auth_for_client ex_ug true 7 (ex_vol None) ex_state
    (set_h (SetRes (hs_h ex_state) DOSTRUE 0) ex_state)) as (ok & v' & st' & Hr & _ & Hu & Ha).
  - constructor; [by vm_compute|by intros a t].
  - by vm_compute.
  - intros creds Hc. vm_compute in Hc. injection Hc as <-. by vm_compute.
  - reflexivity.
  - assert (ok = true) as ->.
    { assert (Hp : (fun r => match r.1 with inr x => x.1 | _ => false end) <$> update_auth ex_ug true 7 (ex_vol None) ex_state = Some true)
        by (vm_compute; reflexivity).
      rewrite Hr in Hp. by injection Hp. }
    destruct (Ha eq_refl) as (a & Hau & _ & Hfor). exists v', st', a. split; [exact Hr|]. split; [exact Hau|]. split; [|exact Hu].
    destruct Hfor as [(creds & Hc & ->)|(Hn & _)]; [|discriminate Hn]. vm_compute in Hc. by injection Hc as <-.
Defined.

Definition ex_auth : AUTH := MkAUTH 100 20 [20; 21].

Lemma set_user_keeps_auth_witness : exists v' st' v'',
  ctl_set ex_env (fun _ => 0) (fun _ => 0) ex_ug (ex_vol (Some ex_auth)) CS_USER [x72] ex_state = Some (inr v', st') /\
  update_auth ex_ug true 9 v' st' = Some (inr (true, v''), st') /\ cr_Auth (v_Creds v'') = Some ex_auth /\
  cr_GetUser (v_Creds v'') = Some [x72].
Proof.
  assert (Hp : (fun r => bool_decide (is_Some (match r.1 with inr x => Some x | inl _ => None end))) <$>
    ctl_set ex_env (fun _ => 0) (fun _ => 0) ex_ug (ex_vol (Some ex_auth)) CS_USER [x72] ex_state = Some true)
    by (vm_compute; reflexivity).
  destruct (ctl_set ex_env (fun _ => 0) (fun _ => 0) ex_ug (ex_vol (Some ex_auth)) CS_USER [x72] ex_state)
    as [[[e|v'] st']|] eqn:Es; [discriminate Hp| |discriminate Hp].
  destruct (set_user_keeps_auth ex_env (fun _ => 0) (fun _ => 0) ex_ug (ex_vol (Some ex_auth)) ex_auth [x72] v' true 9
    ex_state st' eq_refl Es) as (v'' & Hu & Ha & Hg).
  by exists v', st', v''.
Defined.
