(* ===== verification/ActionsThm.v ===== *)
(** * Theorems about the table of packets (actions.c, nfs_handler.c)

    The index finds what a search of the table finds, and a write-protected
    volume refuses the packets that are marked as writing. *)
From S2P Require Import Prelude MBuf WBufInfo NfsProt NfsSupp Nfs NfsLookup Global WBuf RBuf FtHash FtHashSpec FtHashOps DCache DCacheThm CacheSafe.
From S2P Require Import FileHandle Dirs HState Fn Walk Find Fib Examine ExAll Object Cred Volume IoCtl Actions Main.
From S2P Require Import TreeServer LockThm FibThm CredThm.

(** ** The index *)

(** The reference: the first entry with the number. *)
Definition find_action (Table : list ATEntry) (action : Z) : option ATEntry :=
  head (filter (fun e => ate_Action e = action) Table).

(** The index that [act_Init] makes. *)
Definition the_index : list ATIEntry := default [] (r ← act_Init ActionTable; Some r.2).

(** The range of the numbers in the table. *)
Definition first_action : Z := 5.
Definition last_action : Z := 4200.

Lemma index_eq : exists l, the_index = l /\ length l = 13%nat.
Proof. by eexists. Qed.

Ltac leb_all := repeat match goal with
  |- context[?a <=? ?b] => destruct (Z.leb_spec a b); [try lia|try lia]
end.

(** Outside of the range there is nothing. *)
Lemma lookup_outside action : action < first_action \/ last_action < action ->
  act_Lookup ActionTable the_index action = Some None.
Proof.
  unfold first_action, last_action. intros Ha.
  assert (find_block 14 the_index action 0 = Some (if action <? 5 then Some 0 else None)) as Hb.
  { unfold the_index. set (l := default [] _). vm_compute in l. subst l. unfold find_block, arr_get. simpl.
    destruct (Z.ltb_spec action 5); leb_all; done. }
  unfold act_Lookup. change (Z.to_nat iSize + 1)%nat with 14%nat. rewrite Hb.
  by destruct (action <? 5).
Qed.

Lemma find_outside action : action < first_action \/ last_action < action -> find_action ActionTable action = None.
Proof.
  unfold first_action, last_action. intros Ha. unfold find_action.
  assert (Hn : Forall (fun e => ~ ate_Action e = action) ActionTable).
  { assert (Hall : Forall (fun e => 5 <= ate_Action e <= 4200) ActionTable).
    { apply Forall_forall. intros e He. assert (forallb (fun e => (5 <=? ate_Action e) && (ate_Action e <=? 4200)) ActionTable = true)
        as Hf by (vm_compute; reflexivity). rewrite forallb_forall in Hf.
      specialize (Hf e (proj1 (list_elem_of_In _ _) He)). simpl in Hf. zbool. lia. }
    eapply Forall_impl; [exact Hall|]. simpl. lia. }
  induction Hn as [|e l He _ IH]; [done|]. by rewrite filter_cons_False.
Qed.

Definition same_entry (x : option (option ATEntry)) (y : option ATEntry) : bool :=
  match x, y with
  | Some None, None => true
  | Some (Some a), Some b => (ate_Action a =? ate_Action b) && bool_decide (ate_Func a = ate_Func b) && (ate_BPArgs a =? ate_BPArgs b)
  | _, _ => false
  end.

Lemma same_entry_eq x y : same_entry x y = true -> x = Some y.
Proof.
  destruct x as [[[a f b]|]|], y as [[a' f' b']|]; simpl; try done.
  intros [[H1%Z.eqb_eq H2%bool_decide_eq_true]%andb_prop H3%Z.eqb_eq]%andb_prop. by subst.
Qed.

(** Every number is found as by the search. *)
Lemma lookup_find action : act_Lookup ActionTable the_index action = Some (find_action ActionTable action).
Proof.
  destruct (decide (first_action <= action <= last_action)) as [Ha|Ha].
  2:{ rewrite lookup_outside, find_outside; [done|lia|lia]. }
  assert (Hall : forallb (fun n => same_entry (act_Lookup ActionTable the_index (Z.of_nat n)) (find_action ActionTable (Z.of_nat n)))
    (seq 5 4196) = true) by (vm_compute; reflexivity).
  rewrite forallb_forall in Hall. unfold first_action, last_action in Ha.
  specialize (Hall (Z.to_nat action)). rewrite Z2Nat.id in Hall by lia. apply same_entry_eq, Hall, in_seq. lia.
Qed.

(** [init_dispatch]: the index, and the entries of 'R' and 'W'. *)
Lemma init_dispatch_ok : exists d, init_dispatch = Some d /\ ATIndex d = the_index /\
  ATEntryRead d = find_action ActionTable 82 /\ ATEntryWrite d = find_action ActionTable 87.
Proof. eexists. by vm_compute. Qed.

(** the index made by act_Init finds for every number, those outside of the
    table included, the entry that a search of the table from its front finds,
    and nothing for a number without an entry; the two entries that are kept
    aside are those of ACTION_READ and ACTION_WRITE. *)
Theorem act_Lookup_searches_table : exists d, init_dispatch = Some d /\
  ATEntryRead d = find_action ActionTable 82 /\ ATEntryWrite d = find_action ActionTable 87 /\
  forall action, act_Lookup ActionTable (ATIndex d) action = Some (find_action ActionTable action).
Proof.
  destruct init_dispatch_ok as (d & Hd & Hi & Hr & Hw). exists d. rewrite Hi. repeat split; [done..|apply lookup_find].
Qed.

(** ** The write protection *)

(** The flag f of an entry. *)
Definition ate_flag (e : ATEntry) (f : Z) : bool := negb (Z.land (ate_BPArgs e) f =? 0).

Lemma act_Prepare_ok d wp pkt : init_dispatch = Some d ->
  act_Prepare d wp pkt = Some (
    e ← find_action ActionTable (dp_Type pkt);
    if wp && ate_flag e WF then Some (act_IS_WRITE_PROTECTED, ate_flag e INTF, pkt)
    else let arg (f a : Z) := if ate_flag e f then s32 (MYBADDR a) else a in
         Some (ate_Func e, ate_flag e INTF,
           MkDOSPKT (dp_Type pkt) (arg BP1 (dp_Arg1 pkt)) (arg BP2 (dp_Arg2 pkt)) (arg BP3 (dp_Arg3 pkt))
             (arg BP4 (dp_Arg4 pkt)) (dp_Arg5 pkt))).
Proof.
  intros Hd. destruct init_dispatch_ok as (d' & Hd' & Hi & Hr & Hw). rewrite Hd in Hd'. injection Hd' as <-.
  unfold act_Prepare. rewrite Hi, Hr, Hw, lookup_find.
  assert ((if dp_Type pkt =? 82 then Some (find_action ActionTable 82)
           else if dp_Type pkt =? 87 then Some (find_action ActionTable 87)
           else Some (find_action ActionTable (dp_Type pkt))) = Some (find_action ActionTable (dp_Type pkt))) as ->.
  { destruct (Z.eqb_spec (dp_Type pkt) 82) as [->|_]; [done|]. by destruct (Z.eqb_spec (dp_Type pkt) 87) as [->|_]. }
  cbn [mbind option_bind]. destruct (find_action ActionTable (dp_Type pkt)) as [e|]; [|done]. simpl. unfold ate_flag.
  by destruct (wp && _).
Qed.

(** The packets that write, by number: RENAME_DISK, DELETE_OBJECT,
    RENAME_OBJECT, SET_PROTECT, CREATE_DIR, SET_DATE, WRITE, FINDOUTPUT,
    MAKE_LINK, SET_FILE_SIZE, SET_OWNER, CREATE_OBJECT. *)
Definition writing_packets : list Z := [9; 16; 17; 21; 22; 34; 87; 1006; 1021; 1022; 1036; 2346].

Lemma writing_flags action : action ∈ writing_packets ->
  exists e, find_action ActionTable action = Some e /\ ate_flag e WF = true /\ ate_flag e INTF = false.
Proof.
  intros Ha. assert (Hall : Forall (fun a => match find_action ActionTable a with
      | Some e => ate_flag e WF = true /\ ate_flag e INTF = false | None => False end) writing_packets)
    by (repeat constructor).
  rewrite Forall_forall in Hall. specialize (Hall action Ha). destruct (find_action _ _) as [e|]; [|done]. by exists e.
Qed.

Section Protected.
Context {S : Type} `{NfsRpc S} `{DosNames} `{External} (E : Env) (rs : nat -> option addr) (junk : list byte).
Context (ug : UserGroup) (auth_ok : bool) (c : Client) (d : Dispatch) (Hd : init_dispatch = Some d).

(** Unlocking a cache that is in order. *)
Lemma ca_UnLockAll_ok {V} t (k : Cache V) : cache_ok k ∅ -> exists k', ca_UnLockAll t k = Some k' /\ cache_ok k' ∅.
Proof.
  intros [Hft Hk]. unfold ca_UnLockAll.
  destruct (fthash_UnLockAll_ok t (ca_heap k) (ca_tab k) ∅ Hft) as (h' & t' & -> & (_ & _ & Es) & Hft' & _).
  eexists. split; [done|]. split; [done|]. simpl in *. by rewrite Es.
Qed.

(** Unlocking the caches changes nothing else. *)
Lemma unlock_caches_ok (st : HState S) : cache_ok (hs_Attr st) ∅ -> cache_ok (hs_Dir st) ∅ ->
  exists st', unlock_caches E st = Some (inr tt, st') /\ hs_h st' = hs_h st /\ hs_Locks st' = hs_Locks st /\
    hs_ELock st' = hs_ELock st /\ hs_DH st' = hs_DH st.
Proof.
  intros Ha Hdir. unfold unlock_caches. rewrite M_bind_eq. cbn [now]. rewrite M_bind_eq. unfold on_Attr, unit_op.
  destruct (ca_UnLockAll_ok (env_now E (hs_tick st)) _ Ha) as (ca & Hca & _). unfold attrs_UnLockAll. cbn [hs_Attr tick].
  rewrite Hca. cbn [mbind option_bind]. rewrite M_bind_eq. cbn [now]. unfold on_Dir, unit_op, dc_UnLockAll.
  cbn [hs_Dir tick set_Attr].
  destruct (ca_UnLockAll_ok (env_now E (hs_tick (set_Attr ca (tick st)))) _ Hdir) as (cd & Hcd & _). rewrite Hcd. by eexists.
Qed.

(** C21: a write-protected volume: each of the twelve packets that write and are
    marked so (RENAME_DISK, DELETE_OBJECT, RENAME_OBJECT, SET_PROTECT,
    CREATE_DIR, SET_DATE, WRITE, FINDOUTPUT, MAKE_LINK, SET_FILE_SIZE,
    SET_OWNER, CREATE_OBJECT) is answered with ERROR_DISK_WRITE_PROTECTED,
    whatever its arguments are, when update_auth has succeeded before: from then on
    nothing but the answer and the locks of the caches changes, so the packet itself
    calls no procedure of the server and stores nothing into the client's memory.
    (update_auth comes before the test: when the client has changed it flushes the
    buffers, and that may call the server, [update_auth_for_client].) *)
Theorem write_protected_refuses (v v1 : Vol) pkt (st st1 : HState S) :
  v_flag v GF_IS_WRITE_PROTECTED = true -> dp_Type pkt ∈ writing_packets ->
  update_auth ug auth_ok (cl_task c) (set_running (v_Running v) true v) st = Some (inr (true, v1), st1) ->
  cache_ok (hs_Attr st1) ∅ -> cache_ok (hs_Dir st1) ∅ ->
  exists st2, handle_packet E rs junk ug auth_ok c d v pkt st = Some (inr (v1, []), st2) /\
    hs_h st2 = SetRes (hs_h st1) DOSFALSE ERROR_DISK_WRITE_PROTECTED /\
    hs_Locks st2 = hs_Locks st1 /\ hs_ELock st2 = hs_ELock st1 /\ hs_DH st2 = hs_DH st1.
Proof.
  intros Hwp Ht Hu Ha Hdir. destruct (writing_flags _ Ht) as (e & He & Hf & Hi). unfold handle_packet.
  rewrite act_Prepare_ok, He by done. cbn [mbind option_bind].
  change (v_flag (set_running (v_Running v) true v) GF_IS_WRITE_PROTECTED) with (v_flag v GF_IS_WRITE_PROTECTED).
  rewrite Hwp, Hf, Hi. rewrite M_bind_eq. cbn -[update_auth call_action action_result unlock_caches].
  rewrite bool_decide_eq_false_2 by done. simpl negb. cbv iota. rewrite M_bind_eq, Hu, M_bind_eq. cbn -[unlock_caches]. rewrite M_bind_eq.
  destruct (unlock_caches_ok (set_h (SetRes (hs_h st1) DOSFALSE ERROR_DISK_WRITE_PROTECTED) st1) Ha Hdir)
    as (st3 & Hst & Eh & El & Ee & Ed).
  cbn -[unlock_caches]. rewrite M_bind_eq. unfold action_result, gets. rewrite M_bind_eq. cbn -[unlock_caches].
  rewrite M_bind_eq, Hst. cbn. by eexists.
Qed.
End Protected.

(** ** A concrete run: DELETE_OBJECT on a protected volume *)

#[export] Instance ex_external : External := {
  MatchPatternNoCase _ _ := true; au_Protection2umode p := p; stptok s _ := ([], s); atoi _ := 0; strtol8 _ := 0 }.
Definition ex_client : Client :=
  MkClient 7 (fun _ => []) (fun _ => fib0) (fun _ => MkDateStamp 0 0 0) (fun _ => 0)
    (fun _ => MkInfoData 0 0 0 0 0 0 0 0 false) (fun _ => []) (fun _ => MkExAllControl 0 None None None) false None.
Definition ex_user_cred : CRED := MkCRED (Z.lor CRF_USER CRF_UMASK) (Some [x72]) 0 0 (replicate 32 0) 0 18 (Some ex_auth) None None.
Definition ex_protected : Vol := set_protect GF_IS_WRITE_PROTECTED 0 (set_Creds ex_user_cred (ex_vol None)).
Definition ex_delete : DOSPKT := MkDOSPKT 16 0 0 0 0 0.

Lemma write_protected_refuses_witness : exists d v1 st2,
  handle_packet ex_env (fun _ => None) [] ex_ug true ex_client d ex_protected ex_delete ex_state = Some (inr (v1, []), st2) /\
  h_Res2 (hs_h st2) = ERROR_DISK_WRITE_PROTECTED.
Proof.
  destruct init_dispatch as [d|] eqn:Ed; [|discriminate Ed].
  destruct (write_protected_refuses ex_env (fun _ => None) [] ex_ug true ex_client d Ed ex_protected ex_protected ex_delete ex_state ex_state)
    as (st2 & Hst & Hh & _).
  - reflexivity.
  - apply (bool_decide_unpack _). vm_compute. exact Logic.I.
  - reflexivity.
  - exact (ci_ok _ _ _ _ (ex_cache_ok (fun _ => 0) (fun _ => True))).
  - exact (ci_ok _ _ _ _ (ex_cache_ok (fun _ => 0) (fun _ => True))).
  - exists d, ex_protected, st2. split; [exact Hst|]. by rewrite Hh.
Defined.
