(* ===== verification/ExAllThm.v ===== *)
(** * Theorems about the entries of EXAMINE_ALL (examine.c)

    An entry that fits is stored with all members of its type inside the part
    of the buffer that is free, but for the type with the owner: its size does
    not count all members. *)
From S2P Require Import Prelude MBuf WBufInfo NfsProt NfsSupp Nfs NfsLookup Global FtHash DCache.
From S2P Require Import FileHandle Dirs HState Fn Walk Find Xdr Fib Examine ExAll.

(** ** Stores into a buffer *)

Definition inside (m : list byte) (x : Z * list byte) : Prop := 0 <= x.1 /\ x.1 + zlen x.2 <= zlen m.
Definition stored (m : list byte) (x : Z * list byte) : Prop := sub_list m x.1 (zlen x.2) = x.2.
Definition apart (x y : Z * list byte) : Prop := x.1 + zlen x.2 <= y.1 \/ y.1 + zlen y.2 <= x.1.

Lemma sub_list_ext {A} (l l' : list A) o n : 0 <= o ->
  (forall i, o <= Z.of_nat i < o + n -> l' !! i = l !! i) -> sub_list l' o n = sub_list l o n.
Proof.
  intros Ho Hl. apply list_eq. intros i. unfold sub_list. destruct (decide (i < Z.to_nat n)%nat) as [Hi|Hi].
  - rewrite !lookup_take_lt by done. rewrite !lookup_drop. apply Hl. lia.
  - by rewrite !lookup_take_ge by lia.
Qed.

Lemma copy_stored m m' o bs : 0 <= o -> copy_at m o bs = Some m' -> o + zlen bs <= zlen m -> stored m' (o, bs).
Proof.
  intros Ho Hc Hl. destruct (copy_at_Some m o bs Ho Hl) as (d & Hd & _ & _ & Hin). rewrite Hc in Hd. injection Hd as <-.
  unfold stored, sub_list, zlen. simpl. rewrite Nat2Z.id. apply list_eq. intros i.
  destruct (decide (i < length bs)%nat) as [Hi|Hi].
  - rewrite lookup_take_lt, lookup_drop, Hin by done. by rewrite decide_True.
  - rewrite lookup_take_ge by lia. by rewrite lookup_ge_None_2 by lia.
Qed.

(** Stores inside of the buffer succeed, and what they do not touch stays. *)
Lemma stores_ok m l : Forall (inside m) l -> exists m', stores m l = Some m' /\ zlen m' = zlen m /\
  forall i, Forall (fun x => Z.of_nat i < x.1 \/ x.1 + zlen x.2 <= Z.of_nat i) l -> m' !! i = m !! i.
Proof.
  intros Hl. revert m Hl. induction l as [|[o bs] l IH]; simpl; intros m Hl; [by exists m|].
  apply Forall_cons in Hl as [[Ho Hb] Hl]. simpl in *. destruct (copy_at_Some m o bs Ho Hb) as (m1 & -> & Hlen & Hout & _).
  cbn [mbind option_bind]. destruct (IH m1) as (m' & -> & Hlen' & Hout').
  - eapply Forall_impl; [exact Hl|]. intros x Hx. unfold inside, zlen in *. by rewrite Hlen.
  - exists m'. split; [done|]. split; [unfold zlen in *; lia|]. intros i [Hi Hil]%Forall_cons. by rewrite Hout', Hout.
Qed.

(** A store is there in the end when no later one touches it. *)
Lemma stores_stored m l1 x l2 m' : Forall (inside m) (l1 ++ x :: l2) -> Forall (apart x) l2 ->
  stores m (l1 ++ x :: l2) = Some m' -> stored m' x.
Proof.
  revert m. induction l1 as [|[o bs] l1 IH]; simpl; intros m Hl Ha Hs.
  - apply Forall_cons in Hl as [[Ho Hb] Hl]. destruct x as [o bs]. simpl in *.
    destruct (copy_at_Some m o bs Ho Hb) as (m1 & Hc & Hlen & _). rewrite Hc in Hs. cbn [mbind option_bind] in Hs.
    pose proof (copy_stored _ _ _ _ Ho Hc Hb) as Hst. destruct (stores_ok m1 l2) as (m2 & Hm & _ & Hout).
    { eapply Forall_impl; [exact Hl|]. intros x Hx. unfold inside, zlen in *. by rewrite Hlen. }
    rewrite Hm in Hs. injection Hs as ->. unfold stored in *. simpl in *. rewrite <-Hst at 2. apply sub_list_ext; [done|].
    intros i Hi. apply Hout. eapply Forall_impl; [exact Ha|]. intros y [Hy|Hy]; simpl in *; lia.
  - apply Forall_cons in Hl as [[Ho Hb] Hl]. simpl in *. destruct (copy_at_Some m o bs Ho Hb) as (m1 & Hc & Hlen & _).
    rewrite Hc in Hs. cbn [mbind option_bind] in Hs. eapply IH; [|exact Ha|exact Hs].
    eapply Forall_impl; [exact Hl|]. intros y Hy. unfold inside, zlen in *. by rewrite Hlen.
Qed.

(** All of them, when they are pairwise apart. *)
Fixpoint all_apart (l : list (Z * list byte)) : Prop :=
  match l with [] => True | x :: l => Forall (apart x) l /\ all_apart l end.

Lemma stores_all m l m' : Forall (inside m) l -> all_apart l -> stores m l = Some m' -> Forall (stored m') l.
Proof.
  intros Hl Ha Hs. apply Forall_forall. intros x Hx. apply list_elem_of_split in Hx as (l1 & l2 & ->).
  eapply stores_stored; [exact Hl| |exact Hs]. clear Hl Hs. induction l1 as [|y l1 IH]; simpl in Ha; [apply Ha|].
  destruct Ha as [_ Ha]. by apply IH.
Qed.

(** ** Sizes *)

(** Rounding up to a multiple of four. *)
Lemma land_mask4 x : 0 <= x < 2 ^ 32 -> Z.land x 0xFFFFFFFC = x / 4 * 4.
Proof.
  intros Hx. transitivity (Z.ldiff (Z.land x (Z.ones 32)) (Z.ones 2)).
  - apply Z.bits_inj'. intros i _. change 0xFFFFFFFC with (Z.ldiff (Z.ones 32) (Z.ones 2)).
    by rewrite !Z.ldiff_spec, !Z.land_spec, Z.ldiff_spec, andb_assoc.
  - rewrite Z.land_ones, Z.ldiff_ones_r by lia. rewrite Z.mod_small by lia.
    rewrite Z.shiftl_mul_pow2, Z.shiftr_div_pow2 by lia. done.
Qed.

Lemma be32_len z : zlen (be32 z) = 4.
Proof. done. Qed.
Lemma be16_len z : zlen (be16 z) = 2.
Proof. done. Qed.

(** What is to be seen of an entry of type [EType] at [off]: its own members
    and no others, the name behind them. *)
Definition ead_field (m : list byte) (off EType : Z) (member least : Z) (bs : list byte) : Prop :=
  least <= EType -> sub_list m (off + member) (zlen bs) = bs.

Record ead_shows (Buf : Z) (m : list byte) (off EType FixedSize : Z) (name : list byte) (a : fattr) : Prop := {
  sh_Next : ead_field m off EType ed_Next ED_NAME (be32 0);
  sh_Name : ead_field m off EType ed_Name ED_NAME (be32 (Buf + off + FixedSize));
  sh_chars : ead_field m off EType FixedSize ED_NAME (name ++ [x00]);
  sh_Type : ead_field m off EType ed_Type ED_TYPE (be32 (NFSType2EntryType (fa_type a)));
  sh_Size : ead_field m off EType ed_Size ED_SIZE (be32 (fa_size a));
  sh_Prot : ead_field m off EType ed_Prot ED_PROTECTION (be32 (NFSMode2Protection (fa_mode a)));
  sh_Days : let ds := timeval2DateStamp (fa_mtime a) in
    ead_field m off EType ed_Days ED_DATE (be32 (ds_Days ds) ++ be32 (ds_Minute ds) ++ be32 (ds_Tick ds));
  sh_Comment : ead_field m off EType ed_Comment ED_COMMENT (be32 0)
}.

(** The length of the name that is stored, and the bytes it takes. *)
Definition real_len (name : list byte) (MaxFileNameLen : Z) : Z := Z.min (zlen name) MaxFileNameLen.
Definition name_len (n : Z) : Z := Z.land (n + 1 + 3) 0xFFFFFFFC.

Lemma name_len_fits n : 0 <= n < 2 ^ 31 -> n + 1 <= name_len n <= n + 4 /\ 4 <= name_len n /\ name_len n mod 4 = 0.
Proof.
  intros Hn. unfold name_len. rewrite land_mask4 by lia.
  pose proof (Z.div_mod (n + 1 + 3) 4). pose proof (Z.mod_pos_bound (n + 1 + 3) 4). split; [lia|]. split; [lia|].
  by rewrite Z_mod_mult.
Qed.

Lemma by_type (P : Z -> Prop) EType : ED_NAME <= EType <= ED_OWNER ->
  P 1 -> P 2 -> P 3 -> P 4 -> P 5 -> P 6 -> P 7 -> P EType.
Proof.
  unfold ED_NAME, ED_OWNER. intros Ht. intros.
  assert (EType = 1 \/ EType = 2 \/ EType = 3 \/ EType = 4 \/ EType = 5 \/ EType = 6 \/ EType = 7) as Hc by lia.
  by destruct Hc as [->|[->|[->|[->|[->|[->| ->]]]]]].
Qed.

(** Computing the stores of a type that is known. *)
Ltac ead_simpl :=
  unfold ead_stores, GetFixedSize, ED_NAME, ED_TYPE, ED_SIZE, ED_PROTECTION, ED_DATE, ED_COMMENT, ED_OWNER,
    ed_Next, ed_Name, ed_Type, ed_Size, ed_Prot, ed_Days, ed_Comment, ed_OwnerUID, ed_OwnerGID in *;
  cbn -[be32 be16 timeval2DateStamp Z.add]; simpl Z.eqb; cbv iota.

Ltac ead_lia := cbn [fst snd]; rewrite ?zlen_app, ?be32_len, ?be16_len, ?zlen_cons, ?zlen_nil; lia.

(** The stores of an entry are between its beginning and its end. *)
Lemma ead_inside Buf off EType (k : nat) name a : ED_NAME <= EType <= ED_OWNER ->
  zlen (take k name) = Z.of_nat k -> Z.of_nat k < 2 ^ 31 ->
  Forall (fun x => off <= x.1 /\ x.1 + zlen x.2 <= off + GetFixedSize EType + name_len (Z.of_nat k))
    (ead_stores Buf off EType (GetFixedSize EType) k name a).
Proof.
  intros Ht Hk Hk2. destruct (name_len_fits (Z.of_nat k)) as (Hnl & H4 & _); [lia|].
  pattern EType. apply by_type; [done|..].
  all: ead_simpl; repeat apply Forall_cons_2; try apply Forall_nil_2; ead_lia.
Qed.

(** Those of the types up to [ED_COMMENT] do not touch each other. *)
Lemma ead_apart Buf off EType (k : nat) name a : ED_NAME <= EType <= ED_COMMENT -> zlen (take k name) = Z.of_nat k ->
  all_apart (ead_stores Buf off EType (GetFixedSize EType) k name a).
Proof.
  intros Ht Hk. assert (Hc : EType <= ED_COMMENT) by lia. revert Hc. pattern EType.
  apply by_type; [unfold ED_COMMENT, ED_OWNER in *; lia|..].
  all: unfold ED_COMMENT; intros Hc; try lia; ead_simpl; cbn [all_apart].
  all: repeat split; repeat apply Forall_cons_2; try apply Forall_nil_2; unfold apart; ead_lia.
Qed.

(** An entry that fits: the buffer keeps its length and its other parts. *)
Lemma PutExAllData_fits Buf m off Size EType MaxFileNameLen name a :
  ED_NAME <= EType <= ED_OWNER -> 0 <= off -> off + Size <= zlen m -> 0 <= MaxFileNameLen -> zlen name < 2 ^ 31 ->
  let n := real_len name MaxFileNameLen in
  let need := GetFixedSize EType + name_len n in
  let l := ead_stores Buf off EType (GetFixedSize EType) (Z.to_nat n) name a in
  zlen (take (Z.to_nat n) name) = Z.of_nat (Z.to_nat n) /\
  if Size >=? need
  then exists m', PutExAllData Buf m off Size EType (GetFixedSize EType) MaxFileNameLen name a = Some (need, m') /\
    stores m l = Some m' /\ Forall (inside m) l /\ zlen m' = zlen m /\
    forall i, Z.of_nat i < off \/ off + need <= Z.of_nat i -> m' !! i = m !! i
  else PutExAllData Buf m off Size EType (GetFixedSize EType) MaxFileNameLen name a = Some (-1, m).
Proof.
  intros Ht Ho Hs HM Hn n need l. pose proof (zlen_nonneg name).
  assert (Hr : 0 <= n <= zlen name) by (unfold n, real_len; lia).
  assert (Hk : zlen (take (Z.to_nat n) name) = Z.of_nat (Z.to_nat n)) by (unfold zlen in *; rewrite length_take; lia).
  split; [done|]. unfold PutExAllData. fold (real_len name MaxFileNameLen). fold n. fold (name_len n). fold need. fold l.
  destruct (Size >=? need) eqn:Efit; [|done]. zbool.
  assert (Hin : Forall (fun x => off <= x.1 /\ x.1 + zlen x.2 <= off + need) l).
  { pose proof (ead_inside Buf off EType (Z.to_nat n) name a Ht) as Hi. rewrite Z2Nat.id in Hi by lia.
    eapply Forall_impl; [apply Hi; lia || done|]. intros x. unfold need. lia. }
  assert (Hins : Forall (inside m) l).
  { eapply Forall_impl; [exact Hin|]. intros x. unfold inside. lia. }
  destruct (stores_ok m l Hins) as (m' & Hm & Hlen & Hout). rewrite Hm. exists m'. split; [done|]. split; [done|].
  split; [done|]. split; [done|]. intros i Hi. apply Hout. eapply Forall_impl; [exact Hin|]. simpl. lia.
Qed.

(** The members can be read from the stores that are there in the end. *)
Lemma ead_shown Buf (m : list byte) off EType FixedSize k name a :
  Forall (stored m) (ead_stores Buf off EType FixedSize k name a) -> zlen (take k name) = Z.of_nat k ->
  stored m (off + FixedSize, take k name ++ [x00]) -> ead_shows Buf m off EType FixedSize (take k name) a.
Proof.
  intros Hst Hk Hnm. unfold ead_stores in Hst. cbv zeta in Hst. rewrite !Forall_app in Hst.
  destruct Hst as (Hn & Ho & Hc & Hd & Hp & Hs & Ht & Hl).
  apply Forall_cons in Hn as [Hn _]. apply Forall_cons in Hl as [Hl _].
  assert (Hcond : forall least member bs, Forall (stored m) (if negb (EType <? least) then [(off + member, bs)] else []) ->
            ead_field m off EType member least bs).
  { intros least member bs Hf Hle. rewrite (proj2 (Z.ltb_ge _ _)) in Hf by lia. by apply Forall_cons in Hf as [Hf _]. }
  constructor; [| | |by apply Hcond..]; by intros _.
Qed.

(** Two stores next to each other are one. *)
Lemma stored_app (m : list byte) o a b : 0 <= o -> stored m (o, a) -> stored m (o + zlen a, b) -> stored m (o, a ++ b).
Proof.
  unfold stored, sub_list, zlen. simpl. intros Ho Ha Hb. rewrite Nat2Z.id in *.
  rewrite length_app, <-take_take_drop, Ha. f_equal.
  rewrite drop_drop. rewrite <-Hb at 2. do 2 f_equal. lia.
Qed.

Lemma stored_last (m : list byte) pre x1 x2 x3 m' : Forall (inside m) (pre ++ [x1; x2; x3]) -> apart x2 x3 ->
  stores m (pre ++ [x1; x2; x3]) = Some m' -> stored m' x2 /\ stored m' x3.
Proof.
  intros Hin Ha Hs. split.
  - apply (stores_stored m (pre ++ [x1]) x2 [x3]); rewrite <-?app_assoc; [done|by apply Forall_singleton|done].
  - apply (stores_stored m (pre ++ [x1; x2]) x3 []); rewrite <-?app_assoc; [done|by apply Forall_nil|done].
Qed.

Lemma ead_name Buf m off EType FixedSize k name a m' : 0 <= off + FixedSize -> zlen (take k name) = Z.of_nat k ->
  Forall (inside m) (ead_stores Buf off EType FixedSize k name a) ->
  stores m (ead_stores Buf off EType FixedSize k name a) = Some m' -> stored m' (off + FixedSize, take k name ++ [x00]).
Proof.
  intros Ho Hk Hin Hs. unfold ead_stores in Hin, Hs. cbv zeta in Hin, Hs. rewrite !app_assoc in Hin, Hs.
  destruct (stored_last m _ _ _ _ m' Hin) as [Hc Hz]; [unfold apart; simpl; rewrite Hk; lia|done|].
  apply stored_app; [done|done|by rewrite Hk].
Qed.

(** C37: an entry of EXAMINE_ALL of one of the types ED_NAME to ED_COMMENT that fits
    into the rest of the buffer is stored completely: the size that is returned is a
    multiple of four behind the fixed part and at most the rest, nothing outside of it
    changes, and in it are exactly the members that belong to the type, the pointer to
    the name and the name with its zero byte, no longer than the limit; an entry that
    does not fit changes nothing.  (Of ED_OWNER, the one type above, the name is stored
    over a member: [PutExAllData_owner_overwritten].) *)
Theorem PutExAllData_stores Buf m off Size EType MaxFileNameLen name a :
  ED_NAME <= EType <= ED_COMMENT -> 0 <= off -> off + Size <= zlen m -> 0 <= MaxFileNameLen -> zlen name < 2 ^ 31 ->
  let FixedSize := GetFixedSize EType in
  let n := Z.min (zlen name) MaxFileNameLen in
  exists size m', PutExAllData Buf m off Size EType FixedSize MaxFileNameLen name a = Some (size, m') /\ zlen m' = zlen m /\
    (size = -1 /\ m' = m /\ Size < FixedSize + n + 4 \/
     FixedSize + n + 1 <= size <= Size /\ (size - FixedSize) mod 4 = 0 /\
     (forall i, Z.of_nat i < off \/ off + size <= Z.of_nat i -> m' !! i = m !! i) /\
     ead_shows Buf m' off EType FixedSize (take (Z.to_nat n) name) a).
Proof.
  intros Ht Ho Hs HM Hn FixedSize n. pose proof (zlen_nonneg name).
  destruct (PutExAllData_fits Buf m off Size EType MaxFileNameLen name a) as [Hk Hfit];
    [unfold ED_COMMENT, ED_OWNER in *; lia|done..|].
  fold n in Hk, Hfit. unfold real_len in *. fold n in Hk, Hfit. fold FixedSize in Hfit.
  destruct (name_len_fits n) as (Hnl & _ & Hmod); [unfold n; lia|].
  destruct (Size >=? FixedSize + name_len n) eqn:Efit; zbool.
  - destruct Hfit as (m' & Hput & Hst & Hin & Hlen & Hout). exists (FixedSize + name_len n), m'.
    split; [done|]. split; [done|]. right. split; [lia|]. split; [by replace (_ - _) with (name_len n) by lia|].
    split; [done|].
    apply ead_shown; [|done|].
    + eapply stores_all; [done|by apply ead_apart|done].
    + eapply ead_name; [|done|done|done]. unfold FixedSize, GetFixedSize.
      repeat match goal with |- context[if ?b then _ else _] => destruct b end;
        unfold ed_Type, ed_Size, ed_Prot, ed_Days, ed_Comment, ed_OwnerUID; lia.
  - exists (-1), m. split; [done|]. split; [done|]. left. split; [done|]. split; [done|]. lia.
Qed.

(** an error: with ED_OWNER the size of the fixed part counts ed_OwnerUID
    but not ed_OwnerGID, so the name starts in the place of ed_OwnerGID: what
    the caller reads there is the beginning of the name, whatever the group of
    the file is. *)
Theorem PutExAllData_owner_overwritten Buf m off Size MaxFileNameLen name a size m' :
  0 <= off -> off + Size <= zlen m -> 2 <= MaxFileNameLen -> 2 <= zlen name < 2 ^ 31 ->
  PutExAllData Buf m off Size ED_OWNER (GetFixedSize ED_OWNER) MaxFileNameLen name a = Some (size, m') -> size <> -1 ->
  sub_list m' (off + ed_OwnerGID) 2 = take 2 name.
Proof.
  intros Ho Hs HM Hn Hput Hsz.
  destruct (PutExAllData_fits Buf m off Size ED_OWNER MaxFileNameLen name a) as [Hk Hfit];
    [unfold ED_NAME, ED_OWNER; lia|done|done|lia|lia|].
  destruct (Size >=? _); [|congruence]. destruct Hfit as (m2 & Hput2 & Hst & Hin & _).
  rewrite Hput in Hput2. injection Hput2 as _ <-.
  assert (Hname : stored m' (off + ed_OwnerGID, take (Z.to_nat (real_len name MaxFileNameLen)) name ++ [x00])).
  { eapply ead_name; [|done|done|done]. unfold ed_OwnerGID. lia. }
  unfold stored in Hname. simpl in Hname. unfold real_len in *.
  transitivity (take 2 (take (Z.to_nat (Z.min (zlen name) MaxFileNameLen)) name ++ [x00])).
  - rewrite <-Hname. unfold sub_list. rewrite take_take. f_equal. rewrite zlen_app, zlen_cons, zlen_nil. lia.
  - unfold zlen in *. rewrite take_app_le by (rewrite length_take; lia). rewrite take_take. f_equal. lia.
Qed.

(** ** Concrete runs *)

Definition ex_fattr : fattr :=
  FAttr NFREG 420 1 1000 100 5000 512 0 10 0 7 (NfsTime 0 0) (NfsTime 0 0) (NfsTime 0 0).
Definition ex_buffer : list byte := replicate 64 xff.

Lemma PutExAllData_stores_witness : exists m',
  PutExAllData 1000 ex_buffer 8 56 ED_SIZE (GetFixedSize ED_SIZE) 30 [x61; x62] ex_fattr = Some (20, m') /\
  ead_shows 1000 m' 8 ED_SIZE 16 [x61; x62] ex_fattr.
Proof.
  destruct (PutExAllData_stores 1000 ex_buffer 8 56 ED_SIZE 30 [x61; x62] ex_fattr) as (size & m' & Hput & _ & Hcase).
  - by split.
  - lia.
  - by vm_compute.
  - lia.
  - by vm_compute.
  - assert (Hp : fst <$> PutExAllData 1000 ex_buffer 8 56 ED_SIZE (GetFixedSize ED_SIZE) 30 [x61; x62] ex_fattr = Some 20)
      by (vm_compute; reflexivity).
    rewrite Hput in Hp. injection Hp as ->. destruct Hcase as [[Hc _]|(_ & _ & _ & Hsh)]; [done|].
    exists m'. split; [exact Hput|exact Hsh].
Defined.

Lemma PutExAllData_owner_overwritten_witness : exists m',
  PutExAllData 1000 ex_buffer 0 64 ED_OWNER (GetFixedSize ED_OWNER) 30 [x61; x62] ex_fattr = Some (42, m') /\
  sub_list m' ed_OwnerGID 2 = [x61; x62].
Proof.
  destruct (PutExAllData 1000 ex_buffer 0 64 ED_OWNER (GetFixedSize ED_OWNER) 30 [x61; x62] ex_fattr) as [[size m']|] eqn:Hput.
  2:{ by vm_compute in Hput. }
  assert (Hp : fst <$> PutExAllData 1000 ex_buffer 0 64 ED_OWNER (GetFixedSize ED_OWNER) 30 [x61; x62] ex_fattr = Some 42)
    by (vm_compute; reflexivity).
  rewrite Hput in Hp. injection Hp as ->. exists m'. split; [done|].
  apply (PutExAllData_owner_overwritten 1000 ex_buffer 0 64 30 [x61; x62] ex_fattr 42 m'); [lia|by vm_compute|lia|by vm_compute|exact Hput|done].
Defined.
