(* ===== verification/Keeps.v ===== *)
(** * What leaves the locks alone

    Most of what a packet does does not touch the list of locks: walking,
    asking the server, the caches, the open files.  [keeps] says so of a program;
    the tactic [keeps] proves it from the lemmas in the hint database of this
    name.  [yields m P]: whatever the state, the results of [m] are in [P]. *)
From S2P Require Import Prelude MBuf WBufInfo NfsProt NfsSupp Nfs NfsLookup Global WBuf RBuf FtHash DCache.
From S2P Require Import FileHandle Dirs HState Fn Walk Find Fib Examine ExAll Object Cred Volume IoCtl Actions Main.

Create HintDb keeps.

Section Keeps.
Context {S : Type}.

Definition keeps {A} (m : M S A) : Prop := forall st r st', m st = Some (r, st') -> hs_Locks st' = hs_Locks st.

Lemma keeps_ret {A} (x : A) : keeps (mret x).
Proof. by intros st r st' [= <- <-]. Qed.
Lemma keeps_fail {A} e : keeps (@fail S A e).
Proof. by intros st r st' [= <- <-]. Qed.
Lemma keeps_undef {A} : keeps (@undef S A).
Proof. by intros st r st'. Qed.
Lemma keeps_of_option {A} (o : option A) : keeps (@of_option S A o).
Proof. intros st r st'. unfold of_option. destruct o; [|done]. by intros [= <- <-]. Qed.
Lemma keeps_gets {A} (f : HState S -> A) : keeps (gets f).
Proof. by intros st r st' [= <- <-]. Qed.
Lemma keeps_modify f : (forall st, hs_Locks (f st) = hs_Locks st) -> keeps (@modify S f).
Proof. intros Hf st r st' [= <- <-]. apply Hf. Qed.

Lemma keeps_bind {A B} (m : M S A) (f : A -> M S B) : keeps m -> (forall x, keeps (f x)) -> keeps (m ≫= f).
Proof.
  intros Hm Hf st r st'. rewrite M_bind_eq. destruct (m st) as [[[e|x] st1]|] eqn:E; [| |done].
  - intros [= <- <-]. by eapply Hm.
  - intros Hr. rewrite (Hf x _ _ _ Hr). by eapply Hm.
Qed.
Lemma keeps_catch {A} (m : M S A) : keeps m -> keeps (catch m).
Proof. intros Hm st r st'. unfold catch. destruct (m st) as [[r1 st1]|] eqn:E; [|done]. intros [= <- <-]. by eapply Hm. Qed.

Lemma keeps_rpc_call {A} (f : S -> rpc A * S) : keeps (rpc_call f).
Proof. intros st r st'. unfold rpc_call. destruct (f _). by intros [= <- <-]. Qed.
Lemma keeps_rpc_call' {A} (f : S -> option (rpc A * S)) : keeps (rpc_call' f).
Proof. intros st r st'. unfold rpc_call'. destruct (f _) as [[? ?]|]; [|done]. by intros [= <- <-]. Qed.
Lemma keeps_on_Attr {A} (f : AttrCache -> option (A * AttrCache)) : keeps (on_Attr f).
Proof. intros st r st'. unfold on_Attr. destruct (f _) as [[? ?]|]; [|done]. by intros [= <- <-]. Qed.
Lemma keeps_on_Dir {A} (f : DirCache -> option (A * DirCache)) : keeps (on_Dir f).
Proof. intros st r st'. unfold on_Dir. destruct (f _) as [[? ?]|]; [|done]. by intros [= <- <-]. Qed.
Lemma keeps_on_h {A} (f : Handler S -> A * Handler S) : keeps (on_h f).
Proof. intros st r st'. unfold on_h. destruct (f _). by intros [= <- <-]. Qed.
Lemma keeps_on_g {A} (f : Global_T S -> option (A * Global_T S)) : keeps (on_g f).
Proof. intros st r st'. unfold on_g. destruct (f _) as [[? ?]|]; [|done]. by intros [= <- <-]. Qed.
Lemma keeps_on_handler (f : Handler S -> option (Handler S)) : keeps (on_handler f).
Proof. intros st r st'. unfold on_handler. destruct (f _); [|done]. by intros [= <- <-]. Qed.
Lemma keeps_of_handler {A} (f : Handler S -> option (A * Handler S)) : keeps (of_handler f).
Proof. intros st r st'. unfold of_handler. destruct (f _) as [[? ?]|]; [|done]. by intros [= <- <-]. Qed.

Context (E : Env).
Lemma keeps_now : keeps (now E).
Proof. by intros st r st' [= <- <-]. Qed.
Lemma keeps_AllocVec : keeps (AllocVec E).
Proof. by intros st r st' [= <- <-]. Qed.
End Keeps.

#[export] Hint Resolve keeps_ret keeps_fail keeps_undef keeps_of_option keeps_gets keeps_rpc_call keeps_rpc_call'
  keeps_on_Attr keeps_on_Dir keeps_on_h keeps_on_g keeps_on_handler keeps_of_handler keeps_now keeps_AllocVec : keeps.

(** Going through a program: what is known of a call, else its parts. *)
Ltac keeps_step :=
  cbv beta zeta;
  lazymatch goal with
  | |- keeps (match ?x with _ => _ end) => destruct x
  | |- keeps (match ?x with _ => _ end _) => destruct x
  | |- keeps (_ ≫= _) => apply keeps_bind; [|intros ?]
  | |- keeps (catch _) => apply keeps_catch
  | |- keeps (modify _) => apply keeps_modify; done
  end.
Ltac keeps := repeat (first [solve [auto 2 with keeps nocore] | keeps_step]).

(** What a result has, whatever the state is. *)
Section Yields.
Context {S : Type}.

Definition yields {A} (m : M S A) (P : A -> Prop) : Prop := forall st x st', m st = Some (inr x, st') -> P x.

Lemma yields_ret {A} (x : A) (P : A -> Prop) : P x -> yields (mret x) P.
Proof. by intros HP st y st' [= <- _]. Qed.
Lemma yields_fail {A} e (P : A -> Prop) : yields (@fail S A e) P.
Proof. by intros st y st'. Qed.
Lemma yields_any {A} (m : M S A) : yields m (fun _ => True).
Proof. done. Qed.
Lemma yields_bind_of {A B} (Q : A -> Prop) (m : M S A) (f : A -> M S B) P :
  yields m Q -> (forall x, Q x -> yields (f x) P) -> yields (m ≫= f) P.
Proof. intros Hm Hf st y st'. rewrite M_bind_eq. destruct (m st) as [[[e|x] st1]|] eqn:E; [done| |done]. apply Hf. by eapply Hm. Qed.
Lemma yields_bind {A B} (m : M S A) (f : A -> M S B) P : (forall x, yields (f x) P) -> yields (m ≫= f) P.
Proof. intros Hf. eapply yields_bind_of; [apply yields_any|by intros x _]. Qed.
Lemma yields_catch {A} (P : A -> Prop) (m : M S A) : yields m P -> yields (catch m) (fun r => match r with inr x => P x | inl _ => True end).
Proof. intros Hm st x st'. unfold catch. destruct (m st) as [[[e|y] st1]|] eqn:E; [by intros [= <- <-]| |done]. intros [= <- <-]. by eapply Hm. Qed.
End Yields.

Ltac yields := repeat (cbv beta zeta; lazymatch goal with
  | |- yields (match ?x with _ => _ end) _ => destruct x
  | |- yields (_ ≫= _) _ => apply yields_bind; intros ?
  | |- yields (fail _) _ => apply yields_fail
  | |- yields (mret _) _ => apply yields_ret
  end).

Section Programs.
Context {S : Type} `{NfsRpc S} `{DosNames} (E : Env) (cfg : Config).

Lemma keeps_mem_ok : keeps (S := S) (mem_ok E).
Proof. unfold mem_ok. keeps. Qed.
Lemma keeps_ac_get a : keeps (S := S) (ac_get a).
Proof. unfold ac_get. keeps. Qed.
Lemma keeps_dc_get a : keeps (S := S) (dc_get a).
Proof. unfold dc_get. keeps. Qed.
Hint Resolve keeps_mem_ok keeps_ac_get keeps_dc_get : keeps.

(** Walk.v *)
Lemma keeps_set_res r1 r2 : keeps (S := S) (set_res r1 r2).
Proof. unfold set_res. keeps. Qed.
Lemma keeps_set_res1 r1 : keeps (S := S) (set_res1 r1).
Proof. unfold set_res1. keeps. Qed.
Lemma keeps_fh_get p : keeps (S := S) (fh_get p).
Proof. unfold fh_get. keeps. Qed.
Lemma keeps_attr_lookup i : keeps (S := S) (attr_lookup E i).
Proof. unfold attr_lookup. keeps. Qed.
Lemma keeps_attr_update fh a : keeps (S := S) (attr_update E fh a).
Proof. unfold attr_update. keeps. Qed.
Lemma keeps_attr_create fh a : keeps (S := S) (attr_create E fh a).
Proof. unfold attr_create. keeps. Qed.
Lemma keeps_attr_delete i : keeps (S := S) (attr_delete i).
Proof. unfold attr_delete. keeps. Qed.
Lemma keeps_dir_lookup i : keeps (S := S) (dir_lookup E i).
Proof. unfold dir_lookup. keeps. Qed.
Lemma keeps_dir_create i fh : keeps (S := S) (dir_create E i fh).
Proof. unfold dir_create. keeps. Qed.
Lemma keeps_ne_create d n t i : keeps (S := S) (ne_create E d n t i).
Proof. unfold ne_create. keeps. Qed.
Lemma keeps_ne_get p : keeps (S := S) (ne_get p).
Proof. unfold ne_get. keeps. Qed.
Lemma keeps_ne_set p t i : keeps (S := S) (ne_set p t i).
Proof. unfold ne_set. keeps. Qed.
Hint Resolve keeps_set_res keeps_set_res1 keeps_fh_get keeps_attr_lookup keeps_attr_update keeps_attr_create
  keeps_attr_delete keeps_dir_lookup keeps_dir_create keeps_ne_create keeps_ne_get keeps_ne_set : keeps.

Lemma keeps_attr_renew p a : keeps (S := S) (attr_renew E p a).
Proof. unfold attr_renew. keeps. Qed.
Hint Resolve keeps_attr_renew : keeps.
Lemma keeps_c_GetAttr i p : keeps (S := S) (c_GetAttr E i p).
Proof. unfold c_GetAttr. keeps. Qed.
Lemma keeps_ask_name d n e : keeps (S := S) (ask_name E d n e).
Proof. unfold ask_name. keeps. Qed.
Hint Resolve keeps_c_GetAttr keeps_ask_name : keeps.
Lemma keeps_GetNameEntry d n : keeps (S := S) (GetNameEntry E d n).
Proof. unfold GetNameEntry. keeps. Qed.
Lemma keeps_GetDirEntry p i fh : keeps (S := S) (GetDirEntry E p i fh).
Proof. unfold GetDirEntry. keeps. Qed.
Lemma keeps_unify_name o l p : keeps (S := S) (unify_name E o l p).
Proof. unfold unify_name. keeps. Qed.
Lemma keeps_lock_Lookup fl : keeps (S := S) (lock_Lookup fl).
Proof. unfold lock_Lookup. keeps. Qed.
Lemma keeps_lock_LookupFromKey k : keeps (S := S) (lock_LookupFromKey k).
Proof. unfold lock_LookupFromKey. keeps. Qed.
Lemma keeps_lock_Create a b c d e f : keeps (S := S) (lock_Create E a b c d e f).
Proof. unfold lock_Create. keeps. Qed.
Lemma keeps_lock_Dup e : keeps (S := S) (lock_Dup E e).
Proof. unfold lock_Dup. keeps. Qed.
Hint Resolve keeps_GetNameEntry keeps_GetDirEntry keeps_unify_name keeps_lock_Lookup keeps_lock_LookupFromKey
  keeps_lock_Create keeps_lock_Dup : keeps.
Lemma keeps_CBuildFullName fl s : keeps (S := S) (CBuildFullName E cfg fl s).
Proof. unfold CBuildFullName. keeps. Qed.
Hint Resolve keeps_CBuildFullName : keeps.
Lemma keeps_BuildFullName fl s : keeps (S := S) (BuildFullName E cfg fl s).
Proof. unfold BuildFullName. keeps. Qed.
Lemma keeps_walk_loop fuel w p d : keeps (S := S) (walk_loop E fuel w p d).
Proof. revert w p d. induction fuel as [|fuel IH]; intros w p d; simpl; keeps. Qed.
Hint Resolve keeps_BuildFullName keeps_walk_loop : keeps.
Lemma keeps_RootLocateDir f l : keeps (S := S) (RootLocateDir E cfg f l).
Proof. unfold RootLocateDir. keeps. Qed.
Hint Resolve keeps_RootLocateDir : keeps.
Lemma keeps_LRootLocateDir fl s b : keeps (S := S) (LRootLocateDir E cfg fl s b).
Proof. unfold LRootLocateDir. keeps. Qed.
Lemma keeps_DupELock o n f m : keeps (S := S) (DupELock E cfg o n f m).
Proof. unfold DupELock. keeps. Qed.
Hint Resolve keeps_LRootLocateDir keeps_DupELock : keeps.
Lemma keeps_new_lock f a m : keeps (S := S) (new_lock E cfg f a m).
Proof. unfold new_lock. keeps. Qed.
Lemma keeps_root_lock f m : keeps (root_lock E cfg f m).
Proof. unfold root_lock. keeps. Qed.
Lemma keeps_act_SAME_LOCK a b : keeps (S := S) (act_SAME_LOCK a b).
Proof. unfold act_SAME_LOCK. keeps. Qed.
Hint Resolve keeps_new_lock keeps_root_lock keeps_act_SAME_LOCK : keeps.

(** Find.v *)
Lemma keeps_wc_flush e r : keeps (S := S) (wc_flush e r).
Proof. unfold wc_flush. keeps. Qed.
Lemma keeps_rb_release e : keeps (S := S) (rb_release e).
Proof. unfold rb_release. keeps. Qed.
Lemma keeps_fh_new a fh m : keeps (S := S) (fh_new E a fh m).
Proof. unfold fh_new. keeps. Qed.
Lemma keeps_fh_insert e a : keeps (S := S) (fh_insert e a).
Proof. unfold fh_insert. keeps. Qed.
Lemma keeps_fh_store e : keeps (S := S) (fh_store e).
Proof. unfold fh_store. keeps. Qed.
Lemma keeps_fh_lock i : keeps (S := S) (fh_lock i).
Proof.
  intros st r st'. unfold fh_lock. destruct (find_ELock _ _); [|done]. simpl. destruct (find_lock _ _); [|done].
  by intros [= <- <-].
Qed.
Lemma keeps_dir_fh d : keeps (S := S) (dir_fh d).
Proof. unfold dir_fh. keeps. Qed.
Lemma keeps_srv_Lookup fh n : keeps (S := S) (srv_Lookup E fh n).
Proof. unfold srv_Lookup. keeps. Qed.
Hint Resolve keeps_wc_flush keeps_rb_release keeps_fh_new keeps_fh_insert keeps_fh_store keeps_fh_lock keeps_dir_fh
  keeps_srv_Lookup : keeps.
Lemma keeps_fh_CreateRBuf e : keeps (S := S) (fh_CreateRBuf E e).
Proof. unfold fh_CreateRBuf. keeps. Qed.
Lemma keeps_fh_CreateCache e n : keeps (S := S) (fh_CreateCache E e n).
Proof. unfold fh_CreateCache. keeps. Qed.
Lemma keeps_end_buffers e : keeps (S := S) (end_buffers e).
Proof. unfold end_buffers. keeps. Qed.
Hint Resolve keeps_fh_CreateRBuf keeps_fh_CreateCache keeps_end_buffers : keeps.
Lemma keeps_lock_NumLocksFromKey k : keeps (S := S) (lock_NumLocksFromKey k).
Proof. unfold lock_NumLocksFromKey. keeps. Qed.
Hint Resolve keeps_lock_NumLocksFromKey : keeps.
Lemma keeps_act_FH_FROM_LOCK fl : keeps (S := S) (act_FH_FROM_LOCK E fl).
Proof. unfold act_FH_FROM_LOCK. keeps. Qed.
Lemma keeps_act_SET_FILE_SIZE a o m : keeps (S := S) (act_SET_FILE_SIZE E a o m).
Proof. unfold act_SET_FILE_SIZE. keeps. Qed.

(** Examine.v *)
Lemma keeps_do_act_EXAMINE_OBJECT l fib : keeps (S := S) (do_act_EXAMINE_OBJECT E cfg l fib).
Proof. unfold do_act_EXAMINE_OBJECT. keeps. Qed.
Lemma keeps_do_ExamineRoot fib : keeps (S := S) (do_ExamineRoot E cfg fib).
Proof. unfold do_ExamineRoot. keeps. Qed.
Hint Resolve keeps_do_act_EXAMINE_OBJECT keeps_do_ExamineRoot : keeps.
Lemma keeps_act_EXAMINE_OBJECT fl fib : keeps (S := S) (act_EXAMINE_OBJECT E cfg fl fib).
Proof. unfold act_EXAMINE_OBJECT. keeps. Qed.
Lemma keeps_act_EXAMINE_FH a fib : keeps (S := S) (act_EXAMINE_FH E cfg a fib).
Proof. unfold act_EXAMINE_FH. keeps. Qed.
Lemma keeps_LookupAttr e i n : keeps (S := S) (LookupAttr E e i n).
Proof. unfold LookupAttr. keeps. Qed.
Lemma keeps_dh_get a : keeps (S := S) (dh_get a).
Proof. unfold dh_get. keeps. Qed.
Lemma keeps_dh_put a e : keeps (S := S) (dh_put a e).
Proof. unfold dh_put. keeps. Qed.
Lemma keeps_dir_Insert a e : keeps (S := S) (dir_Insert a e).
Proof. unfold dir_Insert. keeps. Qed.
Lemma keeps_dh_delete a : keeps (S := S) (dh_delete a).
Proof. unfold dh_delete. keeps. Qed.
Lemma keeps_dh_create k c fh n : keeps (S := S) (dh_create E cfg k c fh n).
Proof. unfold dh_create. keeps. Qed.
Lemma keeps_dir_DupEntries l : keeps (S := S) (dir_DupEntries E l).
Proof. induction l as [|e l IH]; simpl; keeps. Qed.
Lemma keeps_next_batch fuel e : keeps (S := S) (next_batch cfg fuel e).
Proof. revert e. induction fuel as [|fuel IH]; intros e; simpl; keeps. Qed.
Hint Resolve keeps_LookupAttr keeps_dh_get keeps_dh_put keeps_dir_Insert keeps_dh_delete keeps_dh_create
  keeps_dir_DupEntries keeps_next_batch : keeps.
Lemma keeps_next_entries a e : keeps (S := S) (next_entries E cfg a e).
Proof. unfold next_entries. keeps. Qed.
Lemma keeps_next_handle e fib : keeps (S := S) (next_handle E cfg e fib).
Proof. unfold next_handle. keeps. Qed.
Lemma keeps_give_entry e a d fib : keeps (S := S) (give_entry E cfg e a d fib).
Proof. unfold give_entry. keeps. Qed.
Hint Resolve keeps_next_entries keeps_next_handle keeps_give_entry : keeps.
Lemma keeps_act_EXAMINE_NEXT fl fib : keeps (S := S) (act_EXAMINE_NEXT E cfg fl fib).
Proof. unfold act_EXAMINE_NEXT. keeps. Qed.
Lemma keeps_act_GET_ATTRIBUTES fl s l : keeps (S := S) (act_GET_ATTRIBUTES E cfg fl s l).
Proof. unfold act_GET_ATTRIBUTES. keeps. Qed.

(** ExAll.v *)
Lemma keeps_unlock_caches : keeps (S := S) (unlock_caches E).
Proof. unfold unlock_caches. keeps. Qed.
Hint Resolve keeps_unlock_caches : keeps.
Lemma keeps_lookup_again e ent r : keeps (S := S) (lookup_again E e ent r).
Proof. unfold lookup_again. keeps. Qed.
Lemma keeps_GetNextEntries a e r : keeps (S := S) (GetNextEntries E cfg a e r).
Proof. unfold GetNextEntries. keeps. Qed.
Lemma keeps_rem_head a : keeps (S := S) (rem_head a).
Proof. unfold rem_head. keeps. Qed.
Hint Resolve keeps_lookup_again keeps_GetNextEntries keeps_rem_head : keeps.
Lemma keeps_all_entries mp ms mf b t e a l x : keeps (S := S) (all_entries E cfg mp ms mf b t e a l x).
Proof. revert x. induction l as [|ent l IH]; intros x; simpl; keeps. Qed.
Hint Resolve keeps_all_entries : keeps.
Lemma keeps_all_batches mp ms mf fuel b t e a x : keeps (S := S) (all_batches E cfg mp ms mf fuel b t e a x).
Proof. revert x. induction fuel as [|fuel IH]; intros x; simpl; keeps. Qed.
Lemma keeps_all_handle e k : keeps (S := S) (all_handle E cfg e k).
Proof. unfold all_handle. keeps. Qed.
Hint Resolve keeps_all_batches keeps_all_handle : keeps.
Lemma keeps_act_EXAMINE_ALL mp ms mf fl b m n t c k : keeps (S := S) (act_EXAMINE_ALL E cfg mp ms mf fl b m n t c k).
Proof. unfold act_EXAMINE_ALL. keeps. Qed.
Hint Resolve keeps_act_FH_FROM_LOCK keeps_act_SET_FILE_SIZE keeps_act_EXAMINE_OBJECT keeps_act_EXAMINE_FH
  keeps_act_EXAMINE_NEXT keeps_act_GET_ATTRIBUTES keeps_act_EXAMINE_ALL : keeps.

(** Object.v *)
Lemma keeps_dir_delete i : keeps (S := S) (dir_delete i).
Proof. unfold dir_delete. keeps. Qed.
Lemma keeps_ne_delete p : keeps (S := S) (ne_delete p).
Proof. unfold ne_delete. keeps. Qed.
Lemma keeps_rpc_done f : keeps (S := S) (rpc_done f).
Proof. unfold rpc_done. keeps. Qed.
Lemma keeps_fn_Delete_unset : keeps (S := S) fn_Delete_unset.
Proof. unfold fn_Delete_unset. keeps. Qed.
Lemma keeps_or_error m : keeps (S := S) m -> keeps (or_error m).
Proof. intros Hm. unfold or_error. keeps. Qed.
Hint Resolve keeps_dir_delete keeps_ne_delete keeps_rpc_done keeps_fn_Delete_unset : keeps.
Lemma keeps_act_DELETE_OBJECT fl s : keeps (S := S) (act_DELETE_OBJECT E cfg fl s).
Proof. unfold act_DELETE_OBJECT. keeps. apply keeps_or_error. keeps. Qed.
Lemma keeps_act_RENAME_OBJECT fl s fl' s' : keeps (S := S) (act_RENAME_OBJECT E cfg fl s fl' s').
Proof. unfold act_RENAME_OBJECT. apply keeps_or_error. keeps. Qed.
Lemma keeps_act_CREATE_OBJECT fl s o t : keeps (S := S) (act_CREATE_OBJECT E cfg fl s o t).
Proof. unfold act_CREATE_OBJECT. keeps. apply keeps_or_error. keeps. Qed.
Lemma keeps_set_attributes fl s c : keeps (S := S) (set_attributes E cfg fl s c).
Proof. unfold set_attributes. keeps. Qed.
Hint Resolve keeps_act_DELETE_OBJECT keeps_act_RENAME_OBJECT keeps_act_CREATE_OBJECT keeps_set_attributes : keeps.
Lemma keeps_act_SET_PROTECT p fl s m : keeps (S := S) (act_SET_PROTECT E cfg p fl s m).
Proof. unfold act_SET_PROTECT. keeps. Qed.
Lemma keeps_act_SET_DATE fl s d : keeps (S := S) (act_SET_DATE E cfg fl s d).
Proof. unfold act_SET_DATE. keeps. Qed.
Lemma keeps_act_SET_OWNER fl s o : keeps (S := S) (act_SET_OWNER E cfg fl s o).
Proof. unfold act_SET_OWNER. keeps. Qed.
Lemma keeps_read_link f a l b fh : keeps (S := S) (read_link cfg f a l b fh).
Proof. unfold read_link. keeps. Qed.
Hint Resolve keeps_act_SET_PROTECT keeps_act_SET_DATE keeps_act_SET_OWNER keeps_read_link : keeps.
Lemma keeps_path_loop fuel f b w p d : keeps (S := S) (path_loop E cfg fuel f b w p d).
Proof. revert w p d. induction fuel as [|fuel IH]; intros w p d; simpl; keeps. Qed.
Hint Resolve keeps_path_loop : keeps.
Lemma keeps_PathWalk f l b : keeps (S := S) (PathWalk E cfg f l b).
Proof. unfold PathWalk. keeps. Qed.
Hint Resolve keeps_PathWalk : keeps.
Lemma keeps_act_READ_LINK fl p b : keeps (S := S) (act_READ_LINK E cfg fl p b).
Proof. unfold act_READ_LINK. keeps. Qed.
Lemma keeps_act_MAKE_LINK fl s fl2 p m : keeps (S := S) (act_MAKE_LINK E cfg fl s fl2 p m).
Proof. unfold act_MAKE_LINK, do_act_MAKE_SOFT_LINK, do_act_MAKE_HARD_LINK. keeps. apply keeps_or_error. keeps. Qed.
Hint Resolve keeps_act_READ_LINK keeps_act_MAKE_LINK : keeps.

(** Volume.v *)
Lemma keeps_act_FLUSH : keeps (S := S) act_FLUSH.
Proof. unfold act_FLUSH. keeps. Qed.
Hint Resolve keeps_act_FLUSH : keeps.
Lemma keeps_on_MBufs {A} (f : mbpool -> option (A * mbpool)) : keeps (S := S) (on_MBufs f).
Proof. unfold on_MBufs. keeps. Qed.
Lemma keeps_RemReadBufs : keeps (S := S) RemReadBufs.
Proof. unfold RemReadBufs. keeps. Qed.
Lemma keeps_num_free : keeps (S := S) num_free.
Proof. unfold num_free. keeps. Qed.
Hint Resolve keeps_on_MBufs keeps_RemReadBufs keeps_num_free : keeps.
Lemma keeps_act_MORE_CACHE rs junk v n : keeps (S := S) (act_MORE_CACHE E rs junk v n).
Proof. unfold act_MORE_CACHE. keeps. Qed.
Lemma keeps_act_RENAME_DISK v m a : keeps (S := S) (act_RENAME_DISK E v m a).
Proof. unfold act_RENAME_DISK. keeps. Qed.
Lemma keeps_act_TIMER v o : keeps (S := S) (act_TIMER E v o).
Proof. unfold act_TIMER. keeps. Qed.
Lemma keeps_do_act_INFO v fh i : keeps (S := S) (do_act_INFO v fh i).
Proof. unfold do_act_INFO. keeps. Qed.
Hint Resolve keeps_act_MORE_CACHE keeps_act_RENAME_DISK keeps_act_TIMER keeps_do_act_INFO : keeps.
Lemma keeps_act_INFO v fl i : keeps (S := S) (act_INFO v fl i).
Proof. unfold act_INFO. keeps. Qed.
Lemma keeps_act_WRITE_PROTECT v f k : keeps (S := S) (act_WRITE_PROTECT v f k).
Proof. unfold act_WRITE_PROTECT. keeps. Qed.
Hint Resolve keeps_act_INFO keeps_act_WRITE_PROTECT : keeps.

(** IoCtl.v and Main.v *)
Lemma keeps_set_ng f : keeps (S := S) (set_ng f).
Proof. unfold set_ng. keeps. Qed.
Lemma keeps_set_wl n : keeps (S := S) (set_wl n).
Proof. unfold set_wl. keeps. Qed.
Lemma keeps_on_clnt f : keeps (S := S) (on_clnt f).
Proof. unfold on_clnt. keeps. Qed.
Hint Resolve keeps_set_ng keeps_set_wl keeps_on_clnt : keeps.
Lemma keeps_ctl_set a b ug v c s : keeps (S := S) (ctl_set E a b ug v c s).
Proof. unfold ctl_set. keeps. Qed.
Hint Resolve keeps_ctl_set : keeps.
Lemma keeps_act_IOCONTROL t a b ug v s : keeps (S := S) (act_IOCONTROL E t a b ug v s).
Proof. unfold act_IOCONTROL. keeps. Qed.
Lemma keeps_act_DIE v : keeps (S := S) (act_DIE v).
Proof. unfold act_DIE. keeps. Qed.
Lemma keeps_action_result F : keeps (S := S) (action_result F).
Proof. unfold action_result. keeps. Qed.
Lemma keeps_update_auth ug ok c v : keeps (S := S) (update_auth ug ok c v).
Proof. unfold update_auth. keeps. Qed.
End Programs.

#[export] Hint Resolve keeps_mem_ok keeps_ac_get keeps_dc_get keeps_set_res keeps_set_res1 keeps_attr_lookup
  keeps_attr_update keeps_ne_get keeps_GetNameEntry keeps_lock_Lookup keeps_lock_LookupFromKey keeps_lock_NumLocksFromKey
  keeps_lock_Create keeps_lock_Dup keeps_CBuildFullName keeps_RootLocateDir keeps_LRootLocateDir keeps_DupELock
  keeps_new_lock keeps_root_lock keeps_act_SAME_LOCK keeps_fh_new keeps_fh_insert keeps_fh_store keeps_fh_lock
  keeps_dir_fh keeps_srv_Lookup keeps_fh_CreateRBuf keeps_fh_CreateCache keeps_end_buffers keeps_act_FH_FROM_LOCK
  keeps_act_SET_FILE_SIZE keeps_act_EXAMINE_OBJECT keeps_act_EXAMINE_FH keeps_act_EXAMINE_NEXT
  keeps_act_GET_ATTRIBUTES keeps_act_EXAMINE_ALL keeps_unlock_caches keeps_act_DELETE_OBJECT keeps_act_RENAME_OBJECT
  keeps_act_CREATE_OBJECT keeps_act_SET_PROTECT keeps_act_SET_DATE keeps_act_SET_OWNER keeps_act_READ_LINK
  keeps_act_MAKE_LINK keeps_act_FLUSH keeps_act_MORE_CACHE keeps_act_RENAME_DISK keeps_act_TIMER keeps_do_act_INFO
  keeps_act_INFO keeps_act_WRITE_PROTECT keeps_act_IOCONTROL keeps_act_DIE keeps_action_result keeps_update_auth
  keeps_fn_Delete_unset : keeps.
