(* ===== verification/LockMgr.v ===== *)
(** * The locks as a lock manager

    What the packets may do to the list of locks, as a relation on the list
    alone: [lock_step].  Every packet makes one such step, and the steps of the
    packets that create nothing keep exclusive locks exclusive. *)
From S2P Require Import Prelude MBuf WBufInfo NfsProt NfsSupp Nfs NfsLookup Global WBuf RBuf FtHash FtHashSpec FtHashOps DCache DCacheThm CacheSafe.
From S2P Require Import FileHandle Dirs HState Fn Walk Find Fib Examine ExAll Object Cred Volume IoCtl Actions Main.
From S2P Require Import TreeServer LockThm FibThm CredThm ActionsThm Keeps.

(** ** The lock manager *)

Definition is_root (x : addr * ELOCK) : Prop := efl_FullNameLen x.2 = 0.

(** A lock on a name may be given: nobody has a lock of the key, or the first
    one that is found and the new one are not exclusive.  The lock of the root
    is given without asking. *)
Definition may_give (l : list (addr * ELOCK)) (e : ELOCK) : Prop :=
  efl_FullNameLen e = 0 \/
  forall a o, find_fl_Key l (fl_Key e) = Some (a, o) -> fl_Access o <> EXCLUSIVE_LOCK /\ fl_Access e <> EXCLUSIVE_LOCK.

Definition set_Access (e : ELOCK) (Mode : Z) : ELOCK :=
  MkELOCK (fl_Key e) Mode (efl_NFSFh e) (efl_NFSType e) (efl_FullName e) (efl_FullNameLen e) (efl_Name e) (efl_NameLen e).

(** [created]: the packet makes a new object and a lock of it. *)
Inductive lock_step (created : bool) (l : list (addr * ELOCK)) : list (addr * ELOCK) -> Prop :=
| LsSame : lock_step created l l
| LsFree a : lock_step created l (remove_lock l a)
| LsGive a e : may_give l e -> lock_step created l ((a, e) :: l)
| LsCopy a b e e' : find_lock l b = Some e -> fl_Access e = SHARED_LOCK -> fl_Key e' = fl_Key e ->
    fl_Access e' = fl_Access e -> efl_FullNameLen e' = efl_FullNameLen e -> lock_step created l ((a, e') :: l)
| LsMode a e Mode : find_lock l a = Some e -> num_key l (fl_Key e) <= 1 ->
    lock_step created l (store_lock l a (set_Access e Mode))
| LsNew a e : created = true -> lock_step created l ((a, e) :: l).

(** Two locks of the object [k]: neither is exclusive. *)
Definition compat (k : Z) (x y : addr * ELOCK) : Prop :=
  fl_Key x.2 = k -> fl_Key y.2 = k -> fl_Access x.2 <> EXCLUSIVE_LOCK /\ fl_Access y.2 <> EXCLUSIVE_LOCK.
Definition exclusive (k : Z) (l : list (addr * ELOCK)) : Prop := ForallOrdPairs (compat k) l.
(** The object is not the root. *)
Definition no_root (k : Z) (l : list (addr * ELOCK)) : Prop := forall x, x ∈ l -> is_root x -> fl_Key x.2 <> k.

#[export] Instance compat_sym k : Symmetric (compat k).
Proof. intros x y H Hx Hy. destruct (H Hy Hx). by split. Qed.

Lemma exclusive_cons k x l : exclusive k (x :: l) <-> Forall (compat k x) l /\ exclusive k l.
Proof. split; [by inversion 1|]. intros [H1 H2]. by constructor. Qed.

Lemma remove_lock_sub l a x : x ∈ remove_lock l a -> x ∈ l.
Proof.
  induction l as [|[b e] l IH]; [done|]. simpl. case_bool_decide; [by right|].
  intros [->|Hx]%elem_of_cons; [by left|right; by apply IH].
Qed.

Lemma exclusive_remove k l a : exclusive k l -> exclusive k (remove_lock l a).
Proof.
  induction l as [|[b e] l IH]; [done|]. rewrite exclusive_cons. intros [Hf Hl]. simpl. case_bool_decide; [done|].
  apply exclusive_cons. split; [|by apply IH]. rewrite Forall_forall in *. intros x Hx. eapply Hf, remove_lock_sub, Hx.
Qed.

(** With a lock of the list that is not exclusive no other of its key is. *)
Lemma exclusive_elem k l x y : exclusive k l -> x ∈ l -> y ∈ l -> fl_Key x.2 = k -> fl_Key y.2 = k ->
  fl_Access x.2 <> EXCLUSIVE_LOCK -> fl_Access y.2 <> EXCLUSIVE_LOCK.
Proof.
  induction l as [|z l IH]; [by intros _ ?%elem_of_nil|]. rewrite exclusive_cons. intros [Hf Hl] Hx Hy Hkx Hky Ha.
  rewrite Forall_forall in Hf. apply elem_of_cons in Hx as [->|Hx]; apply elem_of_cons in Hy as [->|Hy]; [done| | |by apply IH].
  - by apply (Hf y Hy).
  - by apply (Hf x Hx).
Qed.

Lemma find_key_some l k x : x ∈ l -> fl_Key x.2 = k -> exists a o, find_fl_Key l k = Some (a, o).
Proof.
  intros Hx Hk. destruct (find_fl_Key l k) as [[a o]|] eqn:E; [by exists a, o|].
  destruct x as [a e]. by destruct (find_fl_Key_None _ _ E a e Hx).
Qed.

(** A new lock beside the others. *)
Lemma exclusive_give k l a e : exclusive k l -> (is_root (a, e) -> fl_Key e <> k) -> may_give l e -> exclusive k ((a, e) :: l).
Proof.
  intros Hl Hr Hg. apply exclusive_cons. split; [|done]. apply Forall_forall. intros y Hy Hkx Hky. simpl in *.
  destruct Hg as [Hg|Hg]; [by destruct (Hr Hg)|]. destruct (find_key_some l (fl_Key e) y Hy) as (b & o & Ho); [congruence|].
  destruct (Hg b o Ho) as [Hao Hae]. split; [done|]. apply find_fl_Key_in in Ho as [Hin Hko].
  eapply (exclusive_elem k l (b, o) y); try done. simpl. congruence.
Qed.

Lemma num_key_nonneg l k : 0 <= num_key l k.
Proof. induction l as [|[a e] l IH]; simpl; [done|]. destruct (_ =? _); lia. Qed.
Lemma num_key_pos l k x : x ∈ l -> fl_Key x.2 = k -> 1 <= num_key l k.
Proof.
  intros Hx <-. induction l as [|[a e] l IH]; [by apply elem_of_nil in Hx|]. simpl. pose proof (num_key_nonneg l (fl_Key x.2)).
  apply elem_of_cons in Hx as [->|Hx]; [simpl in *; rewrite Z.eqb_refl; lia|]. specialize (IH Hx). destruct (_ =? _); lia.
Qed.

(** The mode of the only lock of its key. *)
Lemma exclusive_mode k l a e Mode : exclusive k l -> find_lock l a = Some e -> num_key l (fl_Key e) <= 1 ->
  exclusive k (store_lock l a (set_Access e Mode)).
Proof.
  induction l as [|[b x] l IH]; [done|]. rewrite exclusive_cons. simpl. intros [Hf Hl]. case_bool_decide as Hb.
  - intros [= ->] Hn. subst. rewrite Z.eqb_refl in Hn. apply exclusive_cons. split; [|done].
    rewrite Forall_forall in *. intros y Hy Hk Hky. simpl in Hk.
    pose proof (num_key_pos l (fl_Key e) y Hy (eq_trans Hky (eq_sym Hk))). lia.
  - intros Hfind Hn. pose proof (find_lock_in _ _ _ Hfind) as Hin.
    pose proof (num_key_pos l (fl_Key e) (a, e) Hin eq_refl) as Hpos.
    revert Hn. destruct (Z.eqb_spec (fl_Key e) (fl_Key x)) as [He|He]; intros Hn; [lia|].
    apply exclusive_cons. split; [|apply IH; [done|done|lia]].
    rewrite Forall_forall in *. intros y Hy.
    assert (Hcase : y = (a, set_Access e Mode) \/ y ∈ l).
    { clear -Hy Hfind. induction l as [|[c z] l IHl]; [done|]. simpl in *. case_bool_decide; subst.
      - apply elem_of_cons in Hy as [->|Hy]; [by left|right; by right].
      - apply elem_of_cons in Hy as [->|Hy]; [right; by left|]. destruct (IHl Hfind Hy) as [?|?]; [by left|right; by right]. }
    destruct Hcase as [->|Hy']; [|by apply Hf]. intros Hk Hky. simpl in Hk, Hky. congruence.
Qed.

(** The steps of packets that create nothing keep exclusive locks exclusive. *)
Lemma lock_step_exclusive k l l' : lock_step false l l' -> exclusive k l -> no_root k l' -> exclusive k l'.
Proof.
  intros Hs Hl Hr. destruct Hs as [|a|a e Hg|a b e e' Hf Ha Hk Ha' Hn|a e Mode Hf Hn|a e Hc]; [done| | | | |done].
  - by apply exclusive_remove.
  - apply exclusive_give; [done| |done]. apply (Hr (a, e)). left.
  - apply exclusive_cons. split; [|done]. apply Forall_forall. intros y Hy Hkx Hky. simpl in *.
    rewrite Ha', Ha. split; [done|]. eapply (exclusive_elem k l (b, e) y); try done.
    + by apply find_lock_in.
    + simpl. congruence.
    + simpl. by rewrite Ha.
  - by apply exclusive_mode.
Qed.

(** ** Programs that make one step *)

Section Steps.
Context {S : Type}.
Implicit Types (st : HState S).

Definition steps (created : bool) {A} (m : M S A) : Prop :=
  forall st r st', m st = Some (r, st') -> lock_step created (hs_Locks st) (hs_Locks st').
(** A program that leaves the locks and makes a lock that may be given. *)
Definition gives (m : M S (addr * ELOCK)) : Prop :=
  forall st r st', m st = Some (r, st') ->
  hs_Locks st' = hs_Locks st /\ forall ae, r = inr ae -> may_give (hs_Locks st) ae.2.

Lemma bind_Some {A B} (m : M S A) (f : A -> M S B) st r st' : (m ≫= f) st = Some (r, st') ->
  (exists e, m st = Some (inl e, st') /\ r = inl e) \/
  (exists x st1, m st = Some (inr x, st1) /\ f x st1 = Some (r, st')).
Proof.
  rewrite M_bind_eq. destruct (m st) as [[[e|x] st1]|]; [| |done].
  - intros [= <- <-]. left. by exists e.
  - intros Hr. right. by exists x, st1.
Qed.

Context (created : bool).

Lemma steps_keeps {A} (m : M S A) : keeps m -> steps created m.
Proof. intros Hm st r st' Hr. rewrite (Hm _ _ _ Hr). constructor. Qed.

(** A step in the second part, or in the first. *)
Lemma steps_second {A B} (m : M S A) (f : A -> M S B) : keeps m -> (forall x, steps created (f x)) -> steps created (m ≫= f).
Proof.
  intros Hm Hf st r st' Hr. apply bind_Some in Hr as [(e & Hr & _)|(x & st1 & Hr & Hx)]; rewrite <-(Hm _ _ _ Hr).
  - constructor.
  - by apply (Hf x _ _ _ Hx).
Qed.
Lemma steps_yield {A B} (m : M S A) P (f : A -> M S B) :
  keeps m -> yields m P -> (forall x, P x -> steps created (f x)) -> steps created (m ≫= f).
Proof.
  intros Hm Hy Hf st r st' Hr. apply bind_Some in Hr as [(e & Hr & _)|(x & st1 & Hr & Hx)]; rewrite <-(Hm _ _ _ Hr).
  - constructor.
  - by apply (Hf x (Hy _ _ _ Hr) _ _ _ Hx).
Qed.
Lemma steps_first {A B} (m : M S A) (f : A -> M S B) : steps created m -> (forall x, keeps (f x)) -> steps created (m ≫= f).
Proof.
  intros Hm Hf st r st' Hr. apply bind_Some in Hr as [(e & Hr & _)|(x & st1 & Hr & Hx)].
  - by apply (Hm _ _ _ Hr).
  - rewrite (Hf x _ _ _ Hx). by apply (Hm _ _ _ Hr).
Qed.
Lemma steps_option {A B} (o : option A) (f : A -> M S B) : (forall x, o = Some x -> steps created (f x)) ->
  steps created (of_option o ≫= f).
Proof. intros Hf st r st' Hr. destruct o as [x|]; [|done]. by apply (Hf x eq_refl _ _ _ Hr). Qed.
Lemma steps_catch {A} (m : M S A) : steps created m -> steps created (catch m).
Proof. intros Hm st r st'. unfold catch. destruct (m st) as [[r1 st1]|] eqn:E; [|done]. intros [= <- <-]. by apply (Hm _ _ _ E). Qed.
Lemma steps_give m : gives m -> steps created (ae ← m; _ ← lock_Insert ae; mret ae.1).
Proof.
  intros Hm st r st' Hr. apply bind_Some in Hr as [(e & Hr & _)|(ae & st1 & Hr & Hx)].
  - destruct (Hm _ _ _ Hr) as [-> _]. constructor.
  - destruct (Hm _ _ _ Hr) as [Hl Hg]. injection Hx as _ <-. simpl. rewrite Hl. destruct ae as [a e].
    by apply LsGive, (Hg (a, e)).
Qed.
Lemma steps_Remove a : steps created (lock_Remove a).
Proof. intros st r st' [= _ <-]. apply LsFree. Qed.

Lemma gives_second {A} (m : M S A) (f : A -> M S (addr * ELOCK)) : keeps m -> (forall x, gives (f x)) -> gives (m ≫= f).
Proof.
  intros Hm Hf st r st' Hr. apply bind_Some in Hr as [(e & Hr & ->)|(x & st1 & Hr & Hx)].
  - by rewrite (Hm _ _ _ Hr).
  - rewrite <-(Hm _ _ _ Hr). by apply (Hf x _ _ _ Hx).
Qed.
End Steps.

Section Packets.
Context {S : Type} `{NfsRpc S} `{DosNames} `{External} (E : Env) (cfg : Config).

Lemma yields_CBuildFullName fl s : yields (S := S) (CBuildFullName E cfg fl s) (fun f => fp_FullNameLen f = zlen (fp_FullName f)).
Proof. unfold CBuildFullName. yields; done. Qed.

Lemma yields_DupELock o n f m : yields (S := S) (DupELock E cfg o n f m)
  (fun ae => fl_Access ae.2 = m /\ m = SHARED_LOCK /\ (forall x, o = Some x -> fl_Access x = SHARED_LOCK) /\
   efl_FullNameLen ae.2 = zlen f).
Proof.
  unfold DupELock. destruct (_ || _) eqn:Eb; [apply yields_fail|]. apply orb_false_iff in Eb as [Eo Em].
  apply negb_false_iff, Z.eqb_eq in Em. intros st x st' Hr.
  apply bind_Some in Hr as [(e & _ & ?)|(r & st1 & Hc & Hx)]; [done|].
  assert (Hcr : forall a e, r = Some (a, e) -> fl_Access e = m /\ efl_FullNameLen e = zlen f).
  { clear Hx. assert (Hy : yields (S := S) (lock_Create E f (zlen f) n (zlen n) NFNON m)
                        (fun r => forall a e, r = Some (a, e) -> fl_Access e = m /\ efl_FullNameLen e = zlen f)).
    { unfold lock_Create. yields; intros ? ? Heq; repeat case_match; simplify_eq; done. }
    exact (Hy _ _ _ Hc). }
  destruct r as [[a e]|]; [|done]. destruct (Hcr a e eq_refl) as [Ha Hl].
  assert (Ho : forall x, o = Some x -> fl_Access x = SHARED_LOCK).
  { intros y ->. by apply negb_false_iff, Z.eqb_eq in Eo. }
  destruct o as [o|]; injection Hx as <- _; simpl; (split; [done|]; split; [done|]; split; done).
Qed.

(** The lock of a name that was found. *)
Lemma gives_new_lock f ace Mode : gives (S := S) (new_lock E cfg f ace Mode).
Proof.
  intros st r st' Hr. split; [by apply (keeps_new_lock E cfg f ace Mode _ _ _ Hr)|]. intros ae ->. right. intros a o Ho.
  unfold new_lock in Hr. apply bind_Some in Hr as [(e & _ & ?)|(old & st1 & Hold & Hx)]; [done|]. injection Hold as <- <-.
  apply bind_Some in Hx as [(e & _ & ?)|([a1 e1] & st2 & Hm & Hx)]; [done|]. injection Hx as <- _. simpl in *.
  rewrite Ho in Hm. apply yields_DupELock in Hm as (Hacc & Hmode & Hold & _).
  simpl in *. by rewrite Hacc, Hmode, (Hold o eq_refl).
Qed.

Lemma gives_root_lock f Mode : fp_FullNameLen f = 0 -> fp_FullNameLen f = zlen (fp_FullName f) -> gives (root_lock E cfg f Mode).
Proof.
  intros Hn Hz st r st' Hr. split; [by apply (keeps_root_lock E cfg f Mode _ _ _ Hr)|]. intros ae ->. left.
  unfold root_lock in Hr. apply bind_Some in Hr as [(e & _ & ?)|([a1 e1] & st1 & Hd & Hx)]; [done|].
  apply yields_DupELock in Hd as (_ & _ & _ & Hl). simpl in Hl.
  apply bind_Some in Hx as [(e & _ & ?)|(ace & st2 & _ & Hx)]; [done|].
  apply bind_Some in Hx as [(e & _ & ?)|(attr & st3 & _ & Hx)]; [done|]. injection Hx as <- _. simpl. congruence.
Qed.

Context (created : bool).

Lemma steps_RootLocateAndLock fl s Mode : steps created (RootLocateAndLock E cfg fl s Mode).
Proof.
  unfold RootLocateAndLock. destruct (negb _); [apply steps_keeps; keeps|].
  eapply steps_yield; [keeps|apply yields_CBuildFullName|]. intros f Hf. simpl in Hf.
  apply steps_second; [keeps|]. intros ParDir. apply steps_give.
  destruct (Z.eqb_spec (fp_FullNameLen f) 0); [by apply gives_root_lock|].
  apply gives_second; [keeps|]. intros [? ACE]. apply gives_second; [keeps|]. intros ace. apply gives_new_lock.
Qed.

(** The packets that change the list. *)
Lemma steps_act_LOCATE_OBJECT fl s Mode : steps created (act_LOCATE_OBJECT E cfg fl s Mode).
Proof.
  unfold act_LOCATE_OBJECT. apply steps_second; [keeps|]. intros ok. apply steps_second; [keeps|]. intros [Path ?].
  destruct Path; [|apply steps_keeps; keeps]. apply steps_first; [apply steps_catch, steps_RootLocateAndLock|].
  intros r. keeps.
Qed.
Lemma steps_act_FREE_LOCK fl : steps (S := S) created (act_FREE_LOCK fl).
Proof.
  unfold act_FREE_LOCK. destruct fl; [|apply steps_keeps; keeps]. apply steps_second; [keeps|]. intros elock.
  destruct elock as [[a e]|]; [|apply steps_keeps; keeps]. apply steps_first; [apply steps_Remove|]. intros x. keeps.
Qed.

Lemma yields_lock_Dup oe : yields (S := S) (lock_Dup E oe) (fun r => forall a e, r = Some (a, e) ->
                                                            fl_Key e = fl_Key oe /\ fl_Access e = fl_Access oe /\ efl_FullNameLen e = efl_FullNameLen oe).
Proof. unfold lock_Dup. yields; intros ? ? Heq; repeat case_match; simplify_eq; done. Qed.

(** [do_act_COPY_DIR] on a lock of the list. *)
Lemma steps_do_act_COPY_DIR x st r st' : (forall a e, x = Some (a, e) -> find_lock (hs_Locks st) a = Some e) ->
  do_act_COPY_DIR (S := S) E x st = Some (r, st') -> lock_step created (hs_Locks st) (hs_Locks st').
Proof.
  intros Hx Hr. unfold do_act_COPY_DIR in Hr. destruct x as [[a e]|]; [|by apply (steps_keeps created _ (keeps_set_res _ _) _ _ _ Hr)].
  specialize (Hx a e eq_refl). destruct (Z.eqb_spec (fl_Access e) SHARED_LOCK) as [Ha|Ha]; simpl in Hr;
    [|by apply (steps_keeps created _ (keeps_set_res _ _) _ _ _ Hr)].
  apply bind_Some in Hr as [(e1 & Hd & ->)|(nel & st1 & Hd & Hr)]; rewrite <-(keeps_lock_Dup E e _ _ _ Hd); [constructor|].
  pose proof (yields_lock_Dup e _ _ _ Hd) as Hy. rewrite <-(keeps_lock_Dup E e _ _ _ Hd) in Hx.
  destruct nel as [[b e']|]; [|by apply (steps_keeps created _ (keeps_set_res _ _) _ _ _ Hr)].
  destruct (Hy b e' eq_refl) as (Hk & Hacc & Hlen). injection Hr as _ <-. simpl.
  by apply (LsCopy created _ b a e e').
Qed.
Lemma lock_Lookup_Some fl st x st1 : lock_Lookup (S := S) fl st = Some (inr x, st1) ->
  st1 = st /\ forall a e, x = Some (a, e) -> find_lock (hs_Locks st) a = Some e.
Proof.
  unfold lock_Lookup, gets. intros [= <- <-]. split; [done|]. intros a e. destruct fl as [b|]; [|done]. simpl.
  destruct (find_lock (hs_Locks st) b) eqn:Ef; [|done]. simpl. by intros [= <- <-].
Qed.
Lemma fh_lock_Some i st x st1 : fh_lock (S := S) i st = Some (x, st1) ->
  st1 = st /\ exists a e, x = inr (a, e) /\ find_lock (hs_Locks st) a = Some e.
Proof.
  unfold fh_lock. destruct (find_ELock _ _) as [a|]; [|done]. simpl. destruct (find_lock _ a) as [e|] eqn:Ef; [|done].
  simpl. intros [= <- <-]. split; [done|]. by exists a, e.
Qed.

Lemma steps_act_COPY_DIR fl : steps (S := S) created (act_COPY_DIR E fl).
Proof.
  unfold act_COPY_DIR. destruct fl; [|apply steps_keeps; keeps]. intros st r st' Hr.
  apply bind_Some in Hr as [(e & Hl & ->)|(x & st1 & Hl & Hx)]; [done|]. apply lock_Lookup_Some in Hl as [-> Hf].
  by eapply steps_do_act_COPY_DIR.
Qed.
Lemma steps_act_COPY_DIR_FH Arg1 : steps (S := S) created (act_COPY_DIR_FH E Arg1).
Proof.
  unfold act_COPY_DIR_FH. apply steps_second; [keeps|]. intros efh. destruct efh as [efh|]; [|apply steps_keeps; keeps].
  intros st r st' Hr. apply bind_Some in Hr as [(e & Hl & ->)|(x & st1 & Hl & Hx)].
  - apply fh_lock_Some in Hl as (-> & _). constructor.
  - apply fh_lock_Some in Hl as (-> & a & e & [= ->] & Hf). eapply steps_do_act_COPY_DIR; [|exact Hx]. by intros ? ? [= <- <-].
Qed.

Lemma steps_do_act_PARENT x : steps created (do_act_PARENT E cfg x).
Proof.
  unfold do_act_PARENT. destruct x as [[a e]|]; [|apply steps_keeps; keeps]. apply steps_second; [keeps|]. intros root.
  destruct root; [apply steps_keeps; keeps|]. apply steps_second; [keeps|]. intros ok. apply steps_second; [keeps|].
  intros [d ?]. destruct d; [|apply steps_keeps; keeps]. apply steps_first; [apply steps_catch, steps_RootLocateAndLock|].
  intros r. keeps.
Qed.
Lemma steps_act_PARENT fl : steps created (act_PARENT E cfg fl).
Proof. unfold act_PARENT. apply steps_second; [keeps|]. intros e. apply steps_do_act_PARENT. Qed.
Lemma steps_act_PARENT_FH Arg1 : steps created (act_PARENT_FH E cfg Arg1).
Proof.
  unfold act_PARENT_FH. apply steps_second; [keeps|]. intros [efh|]; [|apply steps_keeps; keeps].
  apply steps_second; [keeps|]. intros e. apply steps_do_act_PARENT.
Qed.

(** Opening. *)
Lemma open_file_ok f dres FileMode Mode (st : HState S) r st' : open_file E f dres FileMode Mode st = Some (r, st') ->
  hs_Locks st' = hs_Locks st \/
  exists a e, hs_Locks st' = (a, e) :: hs_Locks st /\ fl_Key e = fa_fileid (do_attributes dres) /\ fl_Access e = Mode.
Proof.
  intros Hr. unfold open_file in Hr. apply bind_Some in Hr as [(e & Hl & _)|(x & st1 & Hl & Hr)];
    pose proof (keeps_lock_Create E _ _ _ _ _ _ _ _ _ Hl) as E1; [by left|].
  assert (Hy : yields (S := S) (lock_Create E (fp_FullName f) (fp_FullNameLen f) (fp_Name f) (fp_NameLen f) (fa_type (do_attributes dres)) Mode)
            (fun r => forall a e, r = Some (a, e) -> fl_Access e = Mode)).
  { unfold lock_Create. yields; intros ? ? Heq; repeat case_match; simplify_eq; done. }
  specialize (Hy _ _ _ Hl). destruct x as [[a e]|]; [|injection Hr as _ <-; by left]. specialize (Hy a e eq_refl).
  apply bind_Some in Hr as [(e1 & Hn & _)|(efh & st2 & Hn & Hr)]; pose proof (keeps_fh_new E _ _ _ _ _ _ Hn) as E2;
    [left; congruence|].
  destruct efh as [efh|]; [|injection Hr as _ <-; left; congruence]. injection Hr as _ <-. simpl.
  right. eexists a, _. split; [by rewrite E2, E1|]. by split.
Qed.

Lemma steps_act_FINDREADWRITE fl s FileMode Mode : steps created (act_FINDREADWRITE E cfg fl s FileMode Mode).
Proof.
  unfold act_FINDREADWRITE. apply steps_second; [keeps|]. intros [Res2|[ParentDir f]]; [apply steps_keeps; keeps|].
  apply steps_first; [apply steps_catch|intros r; keeps]. apply steps_second; [keeps|]. intros dirfh.
  apply steps_second; [keeps|]. intros dres. apply steps_second; [destruct dres; keeps|]. clear dres. intros dres.
  destruct (negb _); [apply steps_keeps; keeps|]. intros st r st' Hr.
  apply bind_Some in Hr as [(e & Hl & _)|(elock & st1 & Hl & Hr)]; [done|]. injection Hl as <- <-.
  destruct (find_fl_Key (hs_Locks st) (fa_fileid (do_attributes dres))) as [[b o]|] eqn:Ef.
  - destruct (_ || _) eqn:Eb; [by injection Hr as _ <-; constructor|]. apply orb_false_iff in Eb as [Em%Z.eqb_neq Eo%Z.eqb_neq].
    apply open_file_ok in Hr as [->|(a & e & -> & Hk & Ha)]; [constructor|]. apply LsGive. right. rewrite Hk, Ef.
    intros ? ? [= <- <-]. by rewrite Ha.
  - apply open_file_ok in Hr as [->|(a & e & -> & Hk & Ha)]; [constructor|]. apply LsGive. right. by rewrite Hk, Ef.
Qed.

Lemma steps_act_FINDOUTPUT fl s : steps true (act_FINDOUTPUT E cfg fl s).
Proof.
  unfold act_FINDOUTPUT. apply steps_second; [keeps|]. intros [Res2|[ParentDir f]]; [apply steps_keeps; keeps|].
  apply steps_first; [apply steps_catch|intros r; keeps]. apply steps_second; [keeps|]. intros dirfh.
  apply steps_second; [keeps|]. intros dres. apply steps_second; [destruct dres; keeps|]. intros _.
  apply steps_second; [keeps|]. intros dres'. intros st r st' Hr.
  apply open_file_ok in Hr as [->|(a & e & -> & _)]; [constructor|by apply LsNew].
Qed.

Lemma steps_act_END Arg1 : steps created (act_END (S := S) Arg1).
Proof.
  unfold act_END. apply steps_second; [keeps|]. intros [efh|]; [|apply steps_keeps; keeps]. cbv zeta.
  apply steps_second; [keeps|]. intros efh'. apply steps_second; [keeps|]. intros elock.
  apply steps_first; [|intros _; keeps]. destruct elock as [a|]; [|apply steps_keeps; keeps].
  apply steps_first; [apply steps_Remove|]. intros x. keeps.
Qed.

Lemma steps_act_CREATE_DIR fl s : steps true (act_CREATE_DIR E cfg fl s).
Proof.
  unfold act_CREATE_DIR. apply steps_second; [keeps|]. intros [Res2|[ParentDir f]]; [apply steps_keeps; keeps|].
  unfold or_error. apply steps_first; [apply steps_catch|intros r; keeps]. apply steps_second; [keeps|]. intros dirfh.
  apply steps_second; [keeps|]. intros dir. apply steps_second; [keeps|]. intros [[a e]|]; [|apply steps_keeps; keeps].
  apply steps_first; [|intros x; keeps]. intros st r st' [= _ <-]. by apply LsNew.
Qed.

Lemma change_access_ok a e NewMode (st : HState S) r st' : find_lock (hs_Locks st) a = Some e ->
  change_access a e NewMode st = Some (r, st') -> lock_step created (hs_Locks st) (hs_Locks st').
Proof.
  intros Hf Hr. unfold change_access in Hr. cbv zeta in Hr.
  assert (Hset : forall Mode (st1 : HState S) r1 st2, (_ ← set_res1 DOSTRUE; lock_store a (set_Access e Mode)) st1 = Some (r1, st2) ->
          hs_Locks st1 = hs_Locks st -> num_key (hs_Locks st) (fl_Key e) <= 1 -> lock_step created (hs_Locks st) (hs_Locks st2)).
  { intros Mode st1 r1 st2 [= _ <-] Hl Hn. simpl. rewrite Hl. by apply LsMode. }
  assert (Hdone : forall m : M S unit, keeps m -> m st = Some (r, st') -> lock_step created (hs_Locks st) (hs_Locks st')).
  { intros m Hm Hr'. by apply (steps_keeps created m Hm _ _ _ Hr'). }
  assert (Hnum : forall Mode,
          (n ← lock_NumLocksFromKey (fl_Key e);
           if n >? 1 then set_res DOSFALSE ERROR_OBJECT_IN_USE else _ ← set_res1 DOSTRUE; lock_store a (set_Access e Mode)) st
            = Some (r, st') -> lock_step created (hs_Locks st) (hs_Locks st')).
  { intros Mode Hr'. apply bind_Some in Hr' as [(? & ? & _)|(n & st1 & Hn & Hr')]; [done|]. injection Hn as <- <-.
    destruct (_ >? 1) eqn:En; [eapply Hdone; [|exact Hr']; keeps|]. zbool. by eapply Hset. }
  destruct (NewMode =? SHARED_LOCK), (fl_Access e =? SHARED_LOCK), (fl_Access e =? EXCLUSIVE_LOCK);
    first [by eapply (Hdone (set_res1 DOSTRUE)); [keeps|exact Hr]|by eapply Hnum].
Qed.

Lemma steps_act_CHANGE_MODE o h fl m : steps (S := S) created (act_CHANGE_MODE o h fl m).
Proof.
  unfold act_CHANGE_MODE. destruct (_ || _); [apply steps_keeps; keeps|]. destruct (_ =? _).
  { apply steps_second; [keeps|]. intros [efh|]; [|apply steps_keeps; keeps]. intros st r st' Hr.
    apply bind_Some in Hr as [(e & Hl & _)|(x & st1 & Hl & Hr)]; apply fh_lock_Some in Hl as (-> & a & e' & Hx & Hf); [done|].
    injection Hx as ->. by eapply change_access_ok. }
  destruct (_ =? _); [|apply steps_keeps; keeps]. intros st r st' Hr.
  apply bind_Some in Hr as [(e & Hl & _)|(x & st1 & Hl & Hr)]; [done|]. apply lock_Lookup_Some in Hl as [-> Hf].
  destruct x as [[a e]|]; [by eapply change_access_ok; [apply Hf|exact Hr]|].
  by apply (steps_keeps created _ (keeps_set_res _ _) _ _ _ Hr).
Qed.
End Packets.

Section Handler.
Context {S : Type} `{NfsRpc S} `{DosNames} `{External} (E : Env) (rs : nat -> option addr) (junk : list byte).

(** The packets that lock an object they have just created. *)
Definition creates (F : ActionFunc) : bool := bool_decide (F = A_CREATE_DIR \/ F = A_FINDOUTPUT).

Lemma steps_call_action ug c v F pkt : steps (creates F) (call_action E rs junk ug c v F pkt).
Proof.
  unfold call_action, act_CURRENT_VOLUME, act_IS_FILESYSTEM, act_DISK_INFO, act_FINDUPDATE, act_FINDINPUT. destruct F.
  all: try solve [apply steps_keeps; keeps].
  all: apply steps_first; [|intros ?; keeps].
  - apply steps_act_LOCATE_OBJECT.
  - apply steps_act_FREE_LOCK.
  - apply steps_act_COPY_DIR.
  - apply steps_act_CREATE_DIR.
  - apply steps_act_PARENT.
  - apply steps_act_FINDREADWRITE.
  - apply steps_act_FINDREADWRITE.
  - apply steps_act_FINDOUTPUT.
  - apply steps_act_END.
  - apply steps_act_CHANGE_MODE.
  - apply steps_act_COPY_DIR_FH.
  - apply steps_act_PARENT_FH.
Qed.

(** The packets that create, by number; none of them is internal. *)
Definition creating_packets : list Z := [22; 1006].

Lemma creating_find action e : find_action ActionTable action = Some e -> creates (ate_Func e) = true ->
  action ∈ creating_packets /\ ate_flag e INTF = false.
Proof.
  intros Hf Hc. unfold find_action in Hf.
  assert (He : e ∈ filter (fun e => ate_Action e = action) ActionTable).
  { destruct (filter _ _); [done|]. injection Hf as ->. by left. }
  apply list_elem_of_filter in He as [<- He].
  assert (Hb : forallb (fun e => negb (creates (ate_Func e)) ||
                  bool_decide (ate_Action e ∈ creating_packets) && negb (ate_flag e INTF)) ActionTable = true)
    by (vm_compute; reflexivity).
  rewrite forallb_forall in Hb. specialize (Hb e (proj1 (list_elem_of_In _ _) He)). rewrite Hc in Hb. simpl in Hb.
  apply andb_true_iff in Hb as [Hb Hi]. split; [by apply bool_decide_eq_true in Hb|by apply negb_true_iff in Hi].
Qed.

Lemma act_Prepare_func d wp pkt F i p : init_dispatch = Some d -> act_Prepare d wp pkt = Some (Some (F, i, p)) ->
  creates F = true -> dp_Type pkt ∈ creating_packets /\ i = false.
Proof.
  intros Hd. rewrite act_Prepare_ok by done. destruct (find_action _ _) as [e|] eqn:Ef; [|done]. simpl.
  destruct (_ && _); intros [= <- <- <-]; [done|]. by apply creating_find.
Qed.

Lemma lock_step_mono c c' l l' : (c = true -> c' = true) -> lock_step c l l' -> lock_step c' l l'.
Proof. intros Hc []; try by econstructor. apply LsNew. by apply Hc. Qed.

(** A packet makes one step. *)
Lemma handle_packet_step d ug auth_ok c v pkt : init_dispatch = Some d ->
  steps (bool_decide (dp_Type pkt ∈ creating_packets)) (handle_packet E rs junk ug auth_ok c d v pkt).
Proof.
  intros Hd. unfold handle_packet. cbv zeta. apply steps_option. intros prep Hp.
  destruct prep as [[[F i] p]|]; [|apply steps_keeps; keeps].
  apply steps_second; [keeps|]. intros [ok v']. destruct ok; [|apply steps_keeps; keeps].
  apply steps_first; [|intros ?; keeps]. intros st r st' Hr.
  eapply lock_step_mono; [|by apply (steps_call_action ug c v' F p _ _ _ Hr)].
  intros Hc. apply bool_decide_eq_true. by eapply act_Prepare_func in Hc as [? _].
Qed.
Lemma keeps_handle_break v : keeps (S := S) (handle_break v).
Proof. unfold handle_break. keeps. Qed.
End Handler.
