(* ===== verification/LockMgrThm.v ===== *)
(** * Theorems about the locks of all packets

    Every packet does to the list of locks what the lock manager allows, and in
    every run an exclusive lock of an object is the only one, as far as the server
    is consistent about the objects it makes: [NfsObjects], with the instance
    [dirserver].  The programs between the beginning of a packet and its CREATE
    only ask the server ([asks]). *)
From S2P Require Import Prelude MBuf WBufInfo NfsProt NfsSupp Nfs NfsLookup Global WBuf RBuf FtHash FtHashSpec FtHashOps DCache DCacheThm CacheSafe.
From S2P Require Import FileHandle Dirs HState Fn Walk Find Fib Examine ExAll Object Cred Volume IoCtl Actions Main.
From S2P Require Import WalkSpec WalkThm TreeServer LockThm FibThm CredThm ActionsThm Keeps LockMgr.

Section Packets.
Context {S : Type} `{NfsRpc S} `{DosNames} `{External} (E : Env) (d : Dispatch) (Hd : init_dispatch = Some d).

(** C6: the handler is a lock manager: whatever a packet is and however it ends,
    it leaves the list of locks as it is, or does one thing to it: take a lock
    out, put one in front that may be given (nobody has a lock of its key, or
    neither the first one of its key nor the new one is exclusive, or it is a
    lock of the root), copy a shared lock, change the mode of a lock that is
    the only one of its key, or, for CREATE_DIR and FINDOUTPUT only, put in the
    lock of an object just created. *)
Theorem handle_packet_manages_locks rs junk ug auth_ok c v pkt (st : HState S) r st' :
  handle_packet E rs junk ug auth_ok c d v pkt st = Some (r, st') ->
  lock_step (bool_decide (dp_Type pkt ∈ creating_packets)) (hs_Locks st) (hs_Locks st').
Proof using Hd. intros Hp. by apply (handle_packet_step E rs junk d ug auth_ok c v pkt Hd _ _ _ Hp). Qed.

End Packets.

(** ** What FINDOUTPUT and CREATE_DIR rely on

    The two packets make an object and lock it, going by the answers of the
    server.  [no_exists s k]: there is an object with the id [k]; [no_named s d
    n]: the id of the name [n] in the directory [d].  The laws: questions change
    nothing, LOOKUP tells the id of the name and fails only when there is none,
    as act_FINDOUTPUT assumes (find.c:460), REMOVE takes away at most the name
    and its object, CREATE answers with the object of the name or with one that
    was not there, MKDIR with one that was not there. *)
Class NfsObjects (S : Type) `{NfsRpc S} := {
  no_exists : S -> Z -> Prop;
  no_named : S -> nfs_fh -> filename -> option Z;
  no_asked (s s' : S) : Prop := (forall k, no_exists s k -> no_exists s' k) /\ forall d n, no_named s' d n = no_named s d n;
  no_getattr fh s : no_asked s (nfsproc_getattr_2 fh s).2;
  no_readdir a s : no_asked s (nfsproc_readdir_2 a s).2;
  no_lookup a s : no_asked s (nfsproc_lookup_2 a s).2;
  no_lookup_id a s : no_named s (da_dir a) (da_name a) =
    match (nfsproc_lookup_2 a s).1 with inr (NfsOk d) => Some (fa_fileid (do_attributes d)) | _ => None end;
  no_remove a s : let s' := (nfsproc_remove_2 a s).2 in
    (forall k, no_exists s k -> no_exists s' k \/ no_named s (da_dir a) (da_name a) = Some k) /\
    (no_named s' (da_dir a) (da_name a) = no_named s (da_dir a) (da_name a) \/ no_named s' (da_dir a) (da_name a) = None);
  no_create a s d : (nfsproc_create_2 a s).1 = inr (NfsOk d) ->
    no_named s (da_dir (ca_where a)) (da_name (ca_where a)) = Some (fa_fileid (do_attributes d)) \/
    ~ no_exists s (fa_fileid (do_attributes d));
  no_mkdir a s d : (nfsproc_mkdir_2 a s).1 = inr (NfsOk d) -> ~ no_exists s (fa_fileid (do_attributes d))
}.

(** ** Programs that only ask the server *)

Create HintDb asks.

Section Asks.
Context {S : Type} `{NfsObjects S} (E : Env) (cfg : Config).

#[export] Instance no_asked_preorder : PreOrder no_asked.
Proof.
  split; [by intros s; split; auto|]. intros s1 s2 s3 [E1 N1] [E2 N2]. split; [auto|].
  intros d n. by rewrite N2.
Qed.

Definition asks {A} (m : M S A) : Prop := forall st r st', m st = Some (r, st') -> no_asked (hs_Clnt st) (hs_Clnt st').

Lemma asks_clnt {A} (m : M S A) : (forall st r st', m st = Some (r, st') -> hs_Clnt st' = hs_Clnt st) -> asks m.
Proof. intros Hm st r st' Hr. by rewrite (Hm _ _ _ Hr). Qed.
Lemma asks_ret {A} (x : A) : asks (mret x).
Proof. apply asks_clnt. by intros st r st' [= <- <-]. Qed.
Lemma asks_fail {A} e : asks (@fail S A e).
Proof. apply asks_clnt. by intros st r st' [= <- <-]. Qed.
Lemma asks_undef {A} : asks (@undef S A).
Proof. by intros st r st'. Qed.
Lemma asks_of_option {A} (o : option A) : asks (@of_option S A o).
Proof. apply asks_clnt. intros st r st'. unfold of_option. destruct o; [|done]. by intros [= <- <-]. Qed.
Lemma asks_gets {A} (f : HState S -> A) : asks (gets f).
Proof. apply asks_clnt. by intros st r st' [= <- <-]. Qed.
Lemma asks_on_Attr {A} (f : AttrCache -> option (A * AttrCache)) : asks (on_Attr f).
Proof. apply asks_clnt. intros st r st'. unfold on_Attr. destruct (f _) as [[? ?]|]; [|done]. by intros [= <- <-]. Qed.
Lemma asks_on_Dir {A} (f : DirCache -> option (A * DirCache)) : asks (on_Dir f).
Proof. apply asks_clnt. intros st r st'. unfold on_Dir. destruct (f _) as [[? ?]|]; [|done]. by intros [= <- <-]. Qed.
Lemma asks_now : asks (now E).
Proof. apply asks_clnt. by intros st r st' [= <- <-]. Qed.
Lemma asks_AllocVec : asks (AllocVec E).
Proof. apply asks_clnt. by intros st r st' [= <- <-]. Qed.
Lemma asks_bind {A B} (m : M S A) (f : A -> M S B) : asks m -> (forall x, asks (f x)) -> asks (m ≫= f).
Proof.
  intros Hm Hf st r st'. rewrite M_bind_eq. destruct (m st) as [[[e|x] st1]|] eqn:Er; [| |done].
  - intros [= <- <-]. by eapply Hm.
  - intros Hr. etrans; [by eapply Hm|by eapply Hf].
Qed.

(** The calls. *)
Lemma nfs_GetAttr_asks fh s : no_asked s (nfs_GetAttr fh s).2.
Proof. unfold nfs_GetAttr. pose proof (no_getattr fh s). by destruct (nfsproc_getattr_2 fh s). Qed.
Lemma nfs_ReadDir_asks d c n s : no_asked s (nfs_ReadDir d c n s).2.
Proof. unfold nfs_ReadDir. pose proof (no_readdir (ReadDirArgs d c n) s). by destruct (nfsproc_readdir_2 _ s). Qed.
Lemma lookup_nc_asks fuel d n k c s r s' : lookup_nc fuel d n k c s = Some (r, s') -> no_asked s s'.
Proof.
  revert c s. induction fuel as [|fuel IH]; [done|]. intros c s. simpl.
  pose proof (nfs_ReadDir_asks d c k s) as Hd. destruct (nfs_ReadDir d c k s) as [[e|[[|ent l] eof]] s1]; simpl in Hd.
  1,2: by intros [= <- <-].
  destruct (nc_scan _ _ _) as [Name|c'].
  - destruct (_ <=? _); [|done]. unfold nfs_ILookup. pose proof (no_lookup (DirOpArgs d Name) s1) as Hl.
    destruct (nfsproc_lookup_2 _ s1) as [res s2]. simpl in Hl. repeat case_match; intros [= <- <-]; by etrans.
  - destruct eof; [by intros [= <- <-]|]. intros Hr. etrans; [done|]. by eapply IH.
Qed.

(** After nfs_Lookup nothing has changed, and a name with an object was found. *)
Lemma nfs_Lookup_asks fuel d n k s r s' : nfs_Lookup fuel d n k s = Some (r, s') ->
  no_asked s s' /\ forall id, no_named s d n = Some id -> exists res, r = inr res /\ fa_fileid (do_attributes res) = id.
Proof.
  unfold nfs_Lookup, nfs_ILookup. pose proof (no_lookup (DirOpArgs d n) s) as Ha. pose proof (no_lookup_id (DirOpArgs d n) s) as Hi.
  simpl in Hi. destruct (nfsproc_lookup_2 _ s) as [[e|[res|st]] s1]; simpl in Ha, Hi; rewrite Hi.
  - by intros [= <- <-].
  - intros [= <- <-]. split; [done|]. intros id [= <-]. by exists res.
  - destruct (st =? NFSERR_NOENT); [|by intros [= <- <-]]. intros Hr. split; [|done]. etrans; [done|]. by eapply lookup_nc_asks.
Qed.

Lemma asks_rpc_call {A} (f : S -> rpc A * S) : (forall s, no_asked s (f s).2) -> asks (rpc_call f).
Proof. intros Hf st r st'. unfold rpc_call. specialize (Hf (hs_Clnt st)). destruct (f _). by intros [= <- <-]. Qed.
Lemma asks_GetAttr fh : asks (rpc_call (nfs_GetAttr fh)).
Proof. apply asks_rpc_call, nfs_GetAttr_asks. Qed.
Lemma asks_Lookup d n k : asks (rpc_call' (nfs_Lookup (env_fuel E) d n k)).
Proof.
  intros st r st'. unfold rpc_call'. destruct (nfs_Lookup _ _ _ _ _) as [[? ?]|] eqn:El; [|done].
  intros [= <- <-]. by apply nfs_Lookup_asks in El as [Hl _].
Qed.
End Asks.

#[export] Hint Resolve asks_ret asks_fail asks_undef asks_of_option asks_gets asks_on_Attr asks_on_Dir asks_now asks_AllocVec
  asks_GetAttr asks_Lookup : asks.

Ltac asks := repeat (first [solve [auto 2 with asks nocore] |
  cbv beta zeta; lazymatch goal with
  | |- asks (match ?x with _ => _ end) => destruct x
  | |- asks (match ?x with _ => _ end _) => destruct x
  | |- asks (_ ≫= _) => apply asks_bind; [|intros ?]
  end]).

Section Walks.
Context {S : Type} `{NfsObjects S} `{DosNames} (E : Env) (cfg : Config).

Lemma asks_mem_ok : asks (S := S) (mem_ok E).
Proof. unfold mem_ok. asks. Qed.
Lemma asks_ac_get a : asks (S := S) (ac_get a).
Proof. unfold ac_get. asks. Qed.
Lemma asks_dc_get a : asks (S := S) (dc_get a).
Proof. unfold dc_get. asks. Qed.
Hint Resolve asks_mem_ok asks_ac_get asks_dc_get : asks.
Lemma asks_fh_get p : asks (S := S) (fh_get p).
Proof. unfold fh_get. asks. Qed.
Lemma asks_attr_lookup i : asks (S := S) (attr_lookup E i).
Proof. unfold attr_lookup. asks. Qed.
Lemma asks_attr_update fh a : asks (S := S) (attr_update E fh a).
Proof. unfold attr_update. asks. Qed.
Lemma asks_attr_create fh a : asks (S := S) (attr_create E fh a).
Proof. unfold attr_create. asks. Qed.
Lemma asks_ne_get p : asks (S := S) (ne_get p).
Proof. unfold ne_get. asks. Qed.
Hint Resolve asks_fh_get asks_attr_lookup asks_attr_update asks_attr_create asks_ne_get : asks.
Lemma asks_attr_renew p a : asks (S := S) (attr_renew E p a).
Proof. unfold attr_renew. asks. Qed.
Hint Resolve asks_attr_renew : asks.
Lemma asks_ask_name d n e : asks (S := S) (ask_name E d n e).
Proof. unfold ask_name, ne_create, ne_set. asks. Qed.
Hint Resolve asks_ask_name : asks.
Lemma asks_GetNameEntry d n : asks (S := S) (GetNameEntry E d n).
Proof. unfold GetNameEntry. asks. Qed.
Lemma asks_GetDirEntry p i fh : asks (S := S) (GetDirEntry E p i fh).
Proof. unfold GetDirEntry, c_GetAttr, dir_lookup, dir_create. asks. Qed.
Hint Resolve asks_GetNameEntry asks_GetDirEntry : asks.
Lemma asks_CBuildFullName fl s : asks (S := S) (CBuildFullName E cfg fl s).
Proof. unfold CBuildFullName, lock_Lookup, unify_name. asks. Qed.
Lemma asks_walk_loop fuel w p d : asks (S := S) (walk_loop E fuel w p d).
Proof. revert w p d. induction fuel as [|fuel IH]; intros w p d; simpl; asks. Qed.
Hint Resolve asks_CBuildFullName asks_walk_loop : asks.
Lemma asks_LRootLocateDir fl s b : asks (S := S) (LRootLocateDir E cfg fl s b).
Proof. unfold LRootLocateDir, BuildFullName, RootLocateDir. asks. Qed.
Lemma asks_dir_fh d : asks (S := S) (dir_fh d).
Proof. unfold dir_fh. asks. Qed.
End Walks.

(** ** The locks of new objects *)

Definition locked (k : Z) (l : list (addr * ELOCK)) : Prop := exists x, x ∈ l /\ fl_Key x.2 = k.
(** Nothing is done to the list, or a lock is put in front, whose key is not
    [k] if there is a lock of [k]. *)
Definition new_step (k : Z) (l l' : list (addr * ELOCK)) : Prop :=
  l' = l \/ exists a e, l' = (a, e) :: l /\ (fl_Key e = k -> ~ locked k l).

Section Creates.
Context {S : Type} `{NfsObjects S} `{DosNames} `{External} (E : Env) (cfg : Config) (k : Z).

(** The object [k], if it is locked, is at the server. *)
Definition there (st : HState S) : Prop := locked k (hs_Locks st) -> no_exists (hs_Clnt st) k.
Definition news {A} (m : M S A) : Prop := forall st r st', there st -> m st = Some (r, st') -> new_step k (hs_Locks st) (hs_Locks st').

Lemma there_asks {A} (m : M S A) st r st' : keeps m -> asks m -> m st = Some (r, st') -> there st -> there st'.
Proof.
  intros Hk Ha Hr Ht Hl. rewrite (Hk _ _ _ Hr) in Hl. destruct (Ha _ _ _ Hr) as [He _]. by apply He, Ht.
Qed.
Lemma news_keeps {A} (m : M S A) : keeps m -> news m.
Proof. intros Hm st r st' _ Hr. left. by apply (Hm _ _ _ Hr). Qed.
Lemma news_first {A B} (m : M S A) (f : A -> M S B) : news m -> (forall x, keeps (f x)) -> news (m ≫= f).
Proof.
  intros Hm Hf st r st' Ht Hr. apply bind_Some in Hr as [(e & Hr & _)|(x & st1 & Hr & Hx)]; [by eapply Hm|].
  rewrite (Hf x _ _ _ Hx). by eapply Hm.
Qed.
Lemma news_second {A B} (m : M S A) (f : A -> M S B) : keeps m -> asks m -> (forall x, news (f x)) -> news (m ≫= f).
Proof.
  intros Hk Ha Hf st r st' Ht Hr. apply bind_Some in Hr as [(e & Hr & _)|(x & st1 & Hr & Hx)].
  - left. by apply (Hk _ _ _ Hr).
  - rewrite <-(Hk _ _ _ Hr). by eapply (Hf x), Hx; [eapply there_asks].
Qed.
Lemma news_catch {A} (m : M S A) : news m -> news (catch m).
Proof. intros Hm st r st' Ht. unfold catch. destruct (m st) as [[r1 st1]|] eqn:Er; [|done]. intros [= _ <-]. by eapply Hm. Qed.
Lemma asks_catch {A} (m : M S A) : asks m -> asks (catch m).
Proof. intros Hm st r st'. unfold catch. destruct (m st) as [[r1 st1]|] eqn:Er; [|done]. intros [= _ <-]. by eapply Hm. Qed.

Lemma catch_Some {A} (m : M S A) st r st' : catch m st = Some (r, st') -> exists r1, m st = Some (r1, st') /\ r = inr r1.
Proof. unfold catch. destruct (m st) as [[r1 st1]|]; [|done]. intros [= <- <-]. by exists r1. Qed.

(** The object that MKDIR has made is not [k]. *)
Lemma news_act_CREATE_DIR fl s : news (act_CREATE_DIR E cfg fl s).
Proof.
  unfold act_CREATE_DIR. apply news_second; [keeps|apply asks_catch, asks_LRootLocateDir|].
  intros [Res2|[ParentDir f]]; [apply news_keeps; keeps|]. unfold or_error.
  apply news_first; [apply news_catch|intros r; keeps]. apply news_second; [keeps|apply asks_dir_fh|]. intros dirfh.
  intros st r st' Ht Hr. apply bind_Some in Hr as [(e & Hr & _)|(dir & st1 & Hr & Hx)].
  { left. exact (keeps_rpc_call _ _ _ _ Hr). }
  rewrite <-(keeps_rpc_call _ _ _ _ Hr).
  assert (Hn : locked k (hs_Locks st1) -> fa_fileid (do_attributes dir) <> k).
  { rewrite (keeps_rpc_call _ _ _ _ Hr). intros Hl Hk. revert Hr. unfold rpc_call, nfs_MkDir.
    pose proof (no_mkdir (CreateArgs (DirOpArgs dirfh (fp_Name f)) (SAttr (nfsc_ApplyUMask cfg 511) (g_UID cfg) (g_GID cfg) u_minus1 time_unset time_unset))
                  (hs_Clnt st)) as Hm.
    destruct (nfsproc_mkdir_2 _ _) as [[?|[d|?]] s1]; try done. intros [= -> _].
    apply (Hm dir eq_refl). rewrite Hk. by apply Ht. }
  clear Hr Ht. apply bind_Some in Hx as [(e & Hr & _)|(nel & st2 & Hr & Hx)].
  { left. exact (keeps_lock_Create _ _ _ _ _ _ _ _ _ _ Hr). }
  rewrite <-(keeps_lock_Create _ _ _ _ _ _ _ _ _ _ Hr) in *. destruct nel as [[a e]|]; [|left; by injection Hx as _ <-].
  injection Hx as _ <-. right. eexists a, _. split; [done|]. simpl. intros Hk Hl. by apply Hn.
Qed.

(** The name does not belong to [k], if it is locked. *)
Definition other_name (d : nfs_fh) (n : filename) (st : HState S) : Prop :=
  locked k (hs_Locks st) -> no_exists (hs_Clnt st) k /\ no_named (hs_Clnt st) d n <> Some k.

(** CREATE and the lock. *)
Lemma create_new d f UID GID Mode st r st' : other_name d (fp_Name f) st ->
  (dres ← rpc_call (nfs_Create d (fp_Name f) UID GID Mode 0); open_file E f dres MODE_NEWFILE MODE_NEWFILE) st = Some (r, st') ->
  new_step k (hs_Locks st) (hs_Locks st').
Proof.
  intros Ho Hr. apply bind_Some in Hr as [(e & Hr & _)|(dres & st1 & Hr & Hx)].
  { left. exact (keeps_rpc_call _ _ _ _ Hr). }
  rewrite <-(keeps_rpc_call _ _ _ _ Hr) in *.
  assert (Hn : locked k (hs_Locks st1) -> fa_fileid (do_attributes dres) <> k).
  { rewrite (keeps_rpc_call _ _ _ _ Hr). intros Hl Hk. destruct (Ho Hl) as [He Hname]. revert Hr. unfold rpc_call, nfs_Create.
    pose proof (no_create (CreateArgs (DirOpArgs d (fp_Name f)) (SAttr Mode UID GID 0 time_unset time_unset)) (hs_Clnt st)) as Hm.
    destruct (nfsproc_create_2 _ _) as [[?|[x|?]] s1]; try done. intros [= -> _].
    destruct (Hm dres eq_refl) as [Hy|Hy]; rewrite Hk in Hy; [by destruct (Hname Hy)|by destruct (Hy He)]. }
  apply open_file_ok in Hx as [->|(a & e & -> & Hk & _)]; [by left|]. right. exists a, e. split; [done|].
  rewrite Hk. intros He Hl. by apply Hn.
Qed.

(** REMOVE of another name. *)
Lemma remove_other d n st r st' : other_name d n st -> rpc_call (nfs_Remove d n) st = Some (r, st') -> other_name d n st'.
Proof.
  intros Ho Hr Hl. rewrite (keeps_rpc_call _ _ _ _ Hr) in Hl. destruct (Ho Hl) as [He Hn]. revert Hr. unfold rpc_call, nfs_Remove.
  pose proof (no_remove (DirOpArgs d n) (hs_Clnt st)) as [Hx Hy]. destruct (nfsproc_remove_2 _ _) as [res s1].
  intros [= _ <-]. simpl in *. split; [by destruct (Hx k He)|]. unfold hs_Clnt. simpl. by destruct Hy as [->| ->].
Qed.

(** A file is only made anew when nobody has a lock of it. *)
Lemma news_act_FINDOUTPUT fl s : news (act_FINDOUTPUT E cfg fl s).
Proof.
  unfold act_FINDOUTPUT. apply news_second; [keeps|apply asks_catch, asks_LRootLocateDir|].
  intros [Res2|[ParentDir f]]; [apply news_keeps; keeps|].
  apply news_first; [apply news_catch|intros r; keeps]. apply news_second; [keeps|apply asks_dir_fh|]. intros dirfh.
  intros st r st' Ht Hr. apply bind_Some in Hr as [(e & Hr & _)|(dres & st1 & Hr & Hx)].
  { left. revert Hr. unfold catch. destruct (srv_Lookup _ _ _ _) as [[? ?]|]; by simplify_eq. }
  assert (El : hs_Locks st1 = hs_Locks st) by (by eapply keeps_catch, Hr; [keeps]). rewrite <-El in *.
  apply catch_Some in Hr as (dres1 & Hr & [= ->]). unfold srv_Lookup in Hr. apply bind_Some in Hr as [(e & Hr & _)|(mr & st0 & Hm & Hr)]; [done|].
  injection Hm as _ <-. unfold rpc_call' in Hr. destruct (nfs_Lookup _ _ _ _ _) as [[r1 s1]|] eqn:Er; [|done]. injection Hr as <- <-.
  clear El. apply nfs_Lookup_asks in Er as [[He Hn] Hid].
  set (st1 := set_Clnt s1 st) in *. change (hs_Locks st) with (hs_Locks st1) in *.
  assert (Ho : (forall id, r1 = inr id -> locked k (hs_Locks st1) -> fa_fileid (do_attributes id) <> k) -> other_name dirfh (fp_Name f) st1).
  { intros Hr Hl. split; [by apply He, Ht|]. simpl. rewrite Hn. intros Hk. apply Hid in Hk as (res & -> & Hk). by apply (Hr res). }
  clear He Hn Hid Ht. destruct r1 as [Res2|res].
  { by eapply create_new, Hx; apply Ho. }
  destruct (negb _); [left; by injection Hx as _ <-|].
  apply bind_Some in Hx as [(e & Hr & _)|(u & st2 & Hr & Hx)]; apply bind_Some in Hr as [(e1 & Hr & ?)|(elock & st3 & Hl & Hr)]; try done.
  { injection Hl as <- <-. destruct (find_fl_Key _ _); [left; by injection Hr as _ <-|].
    apply bind_Some in Hr as [(e1 & Hr & ?)|(? & ? & _ & Hr)]; [|done]. apply catch_Some in Hr as (? & _ & ?). done. }
  injection Hl as <- <-. destruct (find_fl_Key _ _) eqn:Ef; [done|].
  apply bind_Some in Hr as [(e1 & Hr & ?)|(u1 & st3 & Hr & Hu)]; [done|]. injection Hu as _ ->.
  apply catch_Some in Hr as (r1 & Hr & _). rewrite <-(keeps_rpc_call _ _ _ _ Hr).
  eapply create_new, Hx. eapply remove_other, Hr. apply Ho. intros id [= <-] (x & Hx1 & Hx2) Hk.
  destruct x as [a e]. apply (find_fl_Key_None _ _ Ef a e Hx1). simpl in Hx2. congruence.
Qed.
End Creates.

Section Runs.
Context {S : Type} `{NfsObjects S} `{DosNames} `{External} (E : Env) (d : Dispatch) (Hd : init_dispatch = Some d).

(** When the action of a packet that creates begins, after the credentials have
    been seen to, the object [k] is at the server if it is locked. *)
Definition kept_there (k : Z) (ug : UserGroup) (auth_ok : bool) (c : Client) (v : Vol) (pkt : DOSPKT) (st : HState S) : Prop :=
  dp_Type pkt ∈ creating_packets -> forall v1 st1,
  update_auth ug auth_ok (cl_task c) (set_running (v_Running v) true v) st = Some (inr (true, v1), st1) -> there k st1.

Lemma handle_packet_new k rs junk ug auth_ok c v pkt (st : HState S) r st' :
  handle_packet E rs junk ug auth_ok c d v pkt st = Some (r, st') -> kept_there k ug auth_ok c v pkt st ->
  lock_step false (hs_Locks st) (hs_Locks st') \/ new_step k (hs_Locks st) (hs_Locks st').
Proof using Hd.
  intros Hr Ht. unfold handle_packet in Hr. cbv zeta in Hr. set (v0 := set_running (v_Running v) true v) in *.
  destruct (act_Prepare d (v_flag v0 GF_IS_WRITE_PROTECTED) pkt) as [[[[F i] p]|]|] eqn:Ep; [| |done]; rewrite M_bind_eq in Hr; simpl in Hr.
  2:{ left. revert Hr. apply (steps_keeps false). keeps. }
  destruct (creates F) eqn:Ec.
  - right. destruct (act_Prepare_func _ _ _ _ _ _ Hd Ep Ec) as [Hin ->].
    assert (Hio : bool_decide (F = A_IOCONTROL) = false).
    { apply bool_decide_eq_false. intros ->. by apply bool_decide_eq_true in Ec as [?|?]. }
    rewrite Hio in Hr. simpl in Hr. apply bind_Some in Hr as [(e & Hr & _)|([ok v1] & st1 & Hu & Hr)].
    { left. exact (keeps_update_auth _ _ _ _ _ _ _ Hr). }
    rewrite <-(keeps_update_auth _ _ _ _ _ _ _ Hu). destruct ok; [|by injection Hr as _ <-; left].
    specialize (Ht Hin v1 st1 Hu). clear Hu. revert Ht Hr. apply news_first; [|intros x; keeps].
    apply bool_decide_eq_true in Ec as [-> | ->]; unfold call_action; (apply news_first; [|intros x; keeps]).
    + apply news_act_CREATE_DIR.
    + apply news_act_FINDOUTPUT.
  - left. revert Hr. apply (steps_second false); [keeps|]. intros [ok v1]. destruct ok; [|apply steps_keeps; keeps].
    apply steps_first; [|intros x; keeps]. rewrite <-Ec. apply steps_call_action.
Qed.

Lemma new_step_exclusive k l l' : new_step k l l' -> exclusive k l -> exclusive k l'.
Proof.
  intros [->|(a & e & -> & Hn)] Hl; [done|]. apply exclusive_cons. split; [|done]. apply Forall_forall.
  intros y Hy Hke Hky. destruct (Hn Hke). by exists y.
Qed.

(** The states of the handler between two packets, for an object [k] that no
    lock of the root has and that stays at the server while it is locked.
    Others may change the server at any time between two packets. *)
Inductive reachable (k : Z) : Vol -> HState S -> Prop :=
  | r_start v st : hs_Locks st = [] -> reachable k v st
  | r_packet v st rs junk ug auth_ok c pkt v' out st' :
    reachable k v st -> kept_there k ug auth_ok c v pkt st ->
    handle_packet E rs junk ug auth_ok c d v pkt st = Some (inr (v', out), st') ->
    no_root k (hs_Locks st') -> reachable k v' st'
  | r_break v st v' st' : reachable k v st -> handle_break v st = Some (inr v', st') -> reachable k v' st'
  | r_server v st s : reachable k v st -> reachable k v (set_Clnt s st).

Lemma reachable_exclusive k v st : reachable k v st -> exclusive k (hs_Locks st).
Proof using Hd.
  induction 1 as [v st Hl|v st rs junk ug auth_ok c pkt v' out st' _ IH Ht Hp Hr|v st v' st' _ IH Hb|v st s _ IH].
  - rewrite Hl. constructor.
  - destruct (handle_packet_new k _ _ _ _ _ _ _ _ _ _ Hp Ht) as [Hs|Hs].
    + by eapply lock_step_exclusive.
    + by eapply new_step_exclusive.
  - by rewrite (keeps_handle_break v _ _ _ Hb).
  - done.
Qed.

(** C7: an exclusive lock of an object is the only lock of it, in every state the
    handler can reach by packets of any kind, breaks and changes that others
    make at the server between two packets, beginning without locks.  The
    object is any one but the root's: no lock of the root gets its id.  When a
    packet that creates begins and somebody has a lock of the object, it still
    is at the server, which answers as [NfsObjects] says: CREATE gives the
    object of the name or one that was not there, and LOOKUP fails only for a
    name that is not there.  FINDOUTPUT's own look for a lock is what keeps it
    from making a file anew that somebody has locked. *)
Theorem locks_exclusive k v st l1 l2 x y : reachable k v st -> hs_Locks st = l1 ++ x :: l2 ->
  fl_Key x.2 = k -> fl_Access x.2 = EXCLUSIVE_LOCK -> y ∈ l1 ++ l2 -> fl_Key y.2 <> k.
Proof using Hd.
  intros Hr Hl Hk Ha Hy Hky. apply reachable_exclusive in Hr as He. rewrite Hl in He. clear Hl Hr.
  induction l1 as [|z l1 IH]; simpl in He, Hy; apply exclusive_cons in He as [Hf He]; rewrite Forall_forall in Hf.
  - by destruct (Hf y Hy Hk Hky) as [Hn _].
  - apply elem_of_cons in Hy as [->|Hy]; [|by apply IH]. assert (Hx : x ∈ l1 ++ x :: l2) by set_solver.
    by destruct (Hf x Hx Hky Hk) as [_ Hn].
Qed.
End Runs.

(** ** A concrete run: two shared locks of one file *)

Definition ex_mem : list byte := [x05; x64; x69; x72; slash; x66].
Definition ex_locate_client : Client :=
  MkClient 7 (fun _ => ex_mem) (fun _ => fib0) (fun _ => MkDateStamp 0 0 0) (fun _ => 0)
    (fun _ => MkInfoData 0 0 0 0 0 0 0 0 false) (fun _ => []) (fun _ => MkExAllControl 0 None None None) false None.
Definition ex_locate : DOSPKT := MkDOSPKT 8 0 5 SHARED_LOCK 0 0.
Definition ex_volume : Vol := set_Creds ex_user_cred (ex_vol None).
Definition ex_dispatch : Dispatch := default (MkDispatch [] None None) init_dispatch.
Lemma ex_dispatch_ok : init_dispatch = Some ex_dispatch.
Proof. reflexivity. Qed.

Definition ex_handle (v : Vol) (pkt : DOSPKT) : M treeserver (Vol * list store) :=
  handle_packet ex_env (fun _ => None) [] ex_ug true ex_locate_client ex_dispatch v pkt.

(** What is to be seen of the locks after a packet. *)
Definition lock_view (r : option ((Z + (Vol * list store)) * HState treeserver)) : option (Z * list (Z * Z * Z)) :=
  (r ← r; Some (h_Res1 (hs_h r.2), (fun x => (fl_Key x.2, fl_Access x.2, efl_FullNameLen x.2)) <$> hs_Locks r.2)).

Lemma handle_packet_manages_locks_witness : exists r st', ex_handle ex_volume ex_locate ex_state = Some (r, st') /\
  lock_step false [] (hs_Locks st').
Proof.
  assert (Hp : lock_view (ex_handle ex_volume ex_locate ex_state) = Some (35, [(4, -2, 5)])) by (vm_compute; reflexivity).
  destruct (ex_handle ex_volume ex_locate ex_state) as [[r st']|] eqn:Er; [|discriminate Hp].
  exists r, st'. split; [done|].
  exact (handle_packet_manages_locks ex_env ex_dispatch ex_dispatch_ok (fun _ => None) [] ex_ug true ex_locate_client
    ex_volume ex_locate ex_state r st' Er).
Defined.

(** ** A concrete run: a new directory and a new file *)

(** A server of one directory, which the clients can add names to. *)
Definition dirserver : Type := list (filename * (Z * Z)).
Definition ds_named (s : dirserver) (n : filename) : option (Z * Z) := snd <$> head (filter (fun x => x.1 = n) s).
Definition ds_ids (s : dirserver) : list Z := 2 :: ((fun x => x.2.1) <$> s).
Definition ds_fresh (s : dirserver) : Z := 1 + foldr Z.max 0 (ds_ids s).
Definition ds_res (x : Z * Z) : diropres := NfsOk (DirOpOkRes [byte_of_Z x.1] (tree_attr x.1 x.2)).
Definition ds_type (s : dirserver) (fh : nfs_fh) : option (Z * Z) :=
  if bool_decide (fh = [x02]) then Some (2, NFDIR)
  else snd <$> head (filter (fun x => [byte_of_Z x.2.1] = fh) s).

#[export] Instance dir_rpc : NfsRpc dirserver := {
  nfsproc_getattr_2 fh s := (inr match ds_type s fh with Some x => NfsOk (tree_attr x.1 x.2) | None => NfsErr NFSERR_STALE end, s);
  nfsproc_setattr_2 a s := (inr (NfsErr NFSERR_ROFS), s);
  nfsproc_lookup_2 a s :=
    (inr (if bool_decide (da_dir a = [x02])
          then match ds_named s (da_name a) with Some x => ds_res x | None => NfsErr NFSERR_NOENT end
          else NfsErr NFSERR_NOTDIR), s);
  nfsproc_readlink_2 fh s := (inr (NfsErr NFSERR_STALE), s);
  nfsproc_read_buf a s := (inr (NfsErr NFSERR_STALE), s);
  nfsproc_write_2 a s := (inr (NfsErr NFSERR_ROFS), s);
  nfsproc_create_2 a s :=
    if bool_decide (da_dir (ca_where a) = [x02])
    then match ds_named s (da_name (ca_where a)) with
         | Some x => (inr (ds_res x), s)
         | None => (inr (ds_res (ds_fresh s, NFREG)), (da_name (ca_where a), (ds_fresh s, NFREG)) :: s)
         end
    else (inr (NfsErr NFSERR_NOTDIR), s);
  nfsproc_remove_2 a s := (inr NFSERR_ROFS, s);
  nfsproc_rename_2 a s := (inr NFSERR_ROFS, s);
  nfsproc_link_2 a s := (inr NFSERR_ROFS, s);
  nfsproc_symlink_2 a s := (inr NFSERR_ROFS, s);
  nfsproc_mkdir_2 a s :=
    if bool_decide (da_dir (ca_where a) = [x02] /\ ds_named s (da_name (ca_where a)) = None)
    then (inr (ds_res (ds_fresh s, NFDIR)), (da_name (ca_where a), (ds_fresh s, NFDIR)) :: s)
    else (inr (NfsErr NFSERR_EXIST), s);
  nfsproc_rmdir_2 a s := (inr NFSERR_ROFS, s);
  nfsproc_readdir_2 a s := (inr (NfsOk (DirList [] true)), s);
  nfsproc_statfs_2 fh s := (inr (NfsErr NFSERR_STALE), s);
  nfsproc_send_writesb_2 a s := (None, s);
  nfsproc_wait_write_2 s := (inr (NfsErr NFSERR_ROFS), s);
  clnt_abort s := s;
  clnt_set_timeout _ s := s;
  clnt_get_timeout _ := 0;
  clnt_set_retry_timeout _ s := s;
  junk_u_int := 0
}.

Lemma ds_fresh_new s : ~ ds_fresh s ∈ ds_ids s.
Proof.
  assert (Hm : forall l x, x ∈ l -> x <= foldr Z.max 0 l).
  { intros l x. induction l as [|y l IH]; [by intros ?%elem_of_nil|]. simpl. intros [->|Hx]%elem_of_cons; [lia|]. specialize (IH Hx). lia. }
  intros Hin%Hm. unfold ds_fresh in Hin. lia.
Qed.

#[export] Program Instance dir_objects : NfsObjects dirserver := {
  no_exists s k := k ∈ ds_ids s;
  no_named s d n := if bool_decide (d = [x02]) then fst <$> ds_named s n else None
}.
Next Obligation. done. Qed.
Next Obligation. done. Qed.
Next Obligation. done. Qed.
Next Obligation. intros a s. cbn. case_bool_decide; [|done]. by destruct (ds_named s (da_name a)). Qed.
Next Obligation. intros a s. cbn. split; [by left|by left]. Qed.
Next Obligation.
  intros a s d. cbn. case_bool_decide; [|done]. destruct (ds_named s _) as [x|] eqn:En; intros [= <-]; [by left|].
  right. apply ds_fresh_new.
Qed.
Next Obligation. intros a s d. cbn. case_bool_decide; [|done]. intros [= <-]. apply ds_fresh_new. Qed.

(** CREATE_DIR of "dir", then FINDOUTPUT of "f". *)
Definition ex_dir_state : HState dirserver :=
  MkHState (MkHandler (Global (MBPool 0 0 None ∅) 0 0 None ∅ (NFSGlobal 1 1 8192 4096 8192) 0 []) [] 0 0 0) ex_cache ex_cache [] [] [] 0.
Definition ex_make_client (name : list byte) : Client :=
  MkClient 7 (fun _ => name) (fun _ => fib0) (fun _ => MkDateStamp 0 0 0) (fun _ => 0)
    (fun _ => MkInfoData 0 0 0 0 0 0 0 0 false) (fun _ => []) (fun _ => MkExAllControl 0 None None None) false None.
Definition ex_make (v : Vol) (type : Z) (name : list byte) : M dirserver (Vol * list store) :=
  handle_packet ex_env (fun _ => None) [] ex_ug true (ex_make_client name) ex_dispatch v (MkDOSPKT type 0 0 0 0 0).
(** What is to be seen of a state. *)
Definition dir_view (st : HState dirserver) : list (Z * Z * bool) :=
  (fun x => (fl_Key x.2, fl_Access x.2, efl_FullNameLen x.2 =? 0)) <$> hs_Locks st.
Definition result_view (r : option ((Z + (Vol * list store)) * HState dirserver)) : option (list (Z * Z * bool)) :=
  match r with Some (inr _, st) => Some (dir_view st) | _ => None end.
Definition ex_made1 := ex_make ex_volume 22 [x03; x64; x69; x72] ex_dir_state.
Definition ex_made2 :=
  match ex_made1 with Some (inr (v1, _), st1) => ex_make v1 1006 [x01; x66] st1 | _ => None end.
(** The directory is there when FINDOUTPUT begins. *)
Definition ex_there : bool :=
  match ex_made1 with
  | Some (inr (v1, _), st1) =>
      match update_auth ex_ug true 7 (set_running (v_Running v1) true v1) st1 with
      | Some (_, st2) => bool_decide (3 ∈ ds_ids (hs_Clnt st2))
      | None => false
      end
  | _ => false
  end.

Lemma view_no_root k st : forallb (fun x => negb x.2) (dir_view st) = true -> no_root k (hs_Locks st).
Proof.
  intros Hf x Hx Hr. rewrite forallb_forall in Hf. unfold dir_view in Hf.
  assert (Hin : In (fl_Key x.2, fl_Access x.2, efl_FullNameLen x.2 =? 0) (dir_view st)).
  { apply list_elem_of_In, list_elem_of_fmap. by exists x. }
  apply Hf in Hin. unfold is_root in Hr. rewrite Hr in Hin. done.
Qed.

Lemma locks_exclusive_witness : exists v st x y, reachable ex_env ex_dispatch 3 v st /\ hs_Locks st = [x; y] /\
  fl_Key y.2 = 3 /\ fl_Access y.2 = EXCLUSIVE_LOCK /\ fl_Key x.2 <> 3.
Proof.
  assert (Hv1 : result_view ex_made1 = Some [(3, EXCLUSIVE_LOCK, false)]) by (vm_compute; reflexivity).
  assert (Hv2 : result_view ex_made2 = Some [(4, MODE_NEWFILE, false); (3, EXCLUSIVE_LOCK, false)]) by (vm_compute; reflexivity).
  assert (Ht : ex_there = true) by (vm_compute; reflexivity).
  unfold ex_made2, ex_there in *. destruct ex_made1 as [[[?|[v1 out1]] st1]|] eqn:E1; [discriminate Hv1| |discriminate Hv1].
  destruct (ex_make v1 1006 [x01; x66] st1) as [[[?|[v2 out2]] st2]|] eqn:E2; [discriminate Hv2| |discriminate Hv2].
  simpl in Hv1, Hv2. injection Hv1 as Hv1. injection Hv2 as Hv2.
  assert (Hr1 : reachable ex_env ex_dispatch 3 v1 st1).
  { refine (r_packet ex_env ex_dispatch 3 ex_volume ex_dir_state _ _ _ _ _ _ v1 out1 st1 _ _ E1 _); [by apply r_start| |].
    - intros _ v0 st0 Hu (x & Hx & _). rewrite (keeps_update_auth _ _ _ _ _ _ _ Hu) in Hx. by apply elem_of_nil in Hx.
    - apply view_no_root. by rewrite Hv1. }
  assert (Hr2 : reachable ex_env ex_dispatch 3 v2 st2).
  { refine (r_packet ex_env ex_dispatch 3 v1 st1 _ _ _ _ _ _ v2 out2 st2 Hr1 _ E2 _).
    - intros _ v0 st0 Hu _. simpl in Hu. rewrite Hu in Ht. by apply bool_decide_eq_true in Ht.
    - apply view_no_root. by rewrite Hv2. }
  unfold dir_view in Hv2. destruct (hs_Locks st2) as [|x [|y [|? ?]]] eqn:El; [discriminate Hv2|discriminate Hv2| |discriminate Hv2].
  simpl in Hv2. injection Hv2 as _ _ _ Ky Ay _. clear E1 E2 Hr1 Ht Hv1.
  exists v2, st2, x, y. split; [exact Hr2|]. split; [exact El|]. split; [exact Ky|]. split; [exact Ay|].
  apply (locks_exclusive ex_env ex_dispatch ex_dispatch_ok 3 v2 st2 [x] [] y x Hr2 El Ky Ay). left.
Defined.

(** ** CHANGE_MODE and locks *)

(** The test of the object's type is wrong: every lock is refused, so the code
    for locks is never reached and only the lock of an open file can change
    its mode. *)
Lemma change_lock_refused {S} (fh_Arg1 NewMode : Z) fl (st : HState S) :
  act_CHANGE_MODE CHANGE_LOCK fh_Arg1 fl NewMode st
  = Some (inr tt, set_h (SetRes (hs_h st) DOSFALSE ERROR_OBJECT_WRONG_TYPE) st).
Proof. done. Qed.
