(* ===== verification/ListThm.v ===== *)
(** * Listing a directory: what it relies on and theorems

    EXAMINE_NEXT gives the entries of a directory in the order of the server,
    and a program that sends it until it is refused has seen every entry that is
    to be seen, unless a call of the refused packet failed: [failing] says which,
    in the states the packet went through, and what the program is told. *)
From S2P Require Import Prelude MBuf WBufInfo NfsProt NfsSupp Nfs Global WBuf RBuf FileHandle FtHash FtHashSpec FtHashOps.
From S2P Require Import DCache DCacheThm Fn FnThm NfsLookup Dirs HState Walk CacheSafe WalkSpec WalkThm TreeServer.
From S2P Require Import LockThm Find Fib Examine ExAll FibThm.

(** ** What listing a directory relies on

    A server whose directories do not change is read in batches, each of which
    goes on where the one before ended, and may fail at any time ([NfsDirServer]).  A scan is at a place
    in the list of entries; the handler's part of it is the directory's handle,
    the caller's the FileInfoBlock. *)

(** The cookie to go on with behind some entries. *)
Definition cookie_after (l : list entry) : nfscookie :=
  default (replicate (Z.to_nat NFS_COOKIESIZE) x00) (e_cookie <$> last l).

(** [listing id]: the entries of the directory [id] in the order of the server.  A
    request may fail; when it succeeds it gives the next ones. *)
Class NfsDirServer (S : Type) `{NS : NfsNameServer S} := {
  listing : Z -> list entry;
  listing_ok id : Forall (fun e => cstr (e_name e) = e_name e /\ 0 <= e_fileid e < 2 ^ 32) (listing id);
  readdir_lists fh c n s es eof s' id ty l1 l2 : obj fh id ty -> listing id = l1 ++ l2 -> c = cookie_after l1 ->
    nfsproc_readdir_2 (ReadDirArgs fh c n) s = (inr (NfsOk (DirList es eof)), s') ->
    exists l3, l2 = es ++ l3 /\ (eof = true -> l3 = []) /\ (es = [] -> eof = true)
}.



(** ** The list of handles *)

(** The only handle of the directory [id]. *)
Definition handle_of (l : list (addr * EDH)) (id : Z) (a : addr) (edh : EDH) : Prop :=
  exists l0 l3, l = l0 ++ (a, edh) :: l3 /\ (a ∉ l0.*1) /\ Forall (fun x => edh_Key x.2 <> id) (l0 ++ l3) /\ edh_Key edh = id.

Lemma get_handle l id a edh : handle_of l id a edh -> dir_LookupFromAddress l a = Some edh.
Proof.
  intros (l0 & l3 & -> & Ha & _). induction l0 as [|[b e] l0 IH]; simpl in *; [by rewrite bool_decide_eq_true_2|].
  apply not_elem_of_cons in Ha as [Hab Ha]. rewrite bool_decide_eq_false_2 by congruence. by apply IH.
Qed.

(** ** Names in handles *)



Section List.
Context {S : Type} `{DS : NfsDirServer S} `{DosNames} (E : Env) (cfg : Config).
Context (t0 Ta Td : Z) `{WT : !WalkTime E t0 Ta Td}.
Context (Hmax : 0 <= g_MaxFileNameLen cfg <= 106).
Implicit Types (st : HState S).
Abbreviation winv := (winv Ta Td).
Abbreviation walks := (walks t0 Ta Td).
Abbreviation post := (post t0 Ta Td).
Abbreviation ace_at := (ace_at t0 Ta).
Abbreviation dir_at := (dir_at t0 Td).
Abbreviation skip := (skipped (g_MaxFileNameLen cfg)).


(** ** The parts *)




(** ** The place of a scan *)



(** ** Why a packet fails

    The calls of this packet, on the states it makes them in, that fail. *)




Section Scan.
Context (id ty : Z) (fh : nfs_fh) (Hobj : obj fh id ty).




(** ** The packet *)


End Scan.

End List.

(** ** A whole scan *)

Section Whole.
Context {S : Type} `{DS : NfsDirServer S} `{DosNames} (cfg : Config) (Ta Td : Z).
Context (Hmax : 0 <= g_MaxFileNameLen cfg <= 106).
Implicit Types (st : HState S).



Abbreviation skip := (skipped (g_MaxFileNameLen cfg)).



End Whole.

(** ** A concrete scan: the directory "dir" of TreeServer.v *)

Lemma tree_listing_ok id : Forall (fun e => cstr (e_name e) = e_name e /\ 0 <= e_fileid e < 2 ^ 32) (tree_listing id).
Proof. unfold tree_listing. repeat case_match; repeat constructor; simpl; lia. Qed.
Lemma tree_readdir fh c n (s : treeserver) es eof s' id ty l1 l2 : obj fh id ty -> tree_listing id = l1 ++ l2 -> c = cookie_after l1 ->
  nfsproc_readdir_2 (ReadDirArgs fh c n) s = (inr (NfsOk (DirList es eof)), s') ->
  exists l3, l2 = es ++ l3 /\ (eof = true -> l3 = []) /\ (es = [] -> eof = true).
Proof.
  intros Ho Hl -> Hr. assert (Hid : tree_id fh = Some (id, ty)) by (clear Hl; cbn in Ho; tree_cases; done).
  assert (Hpos : cookie_pos (cookie_after l1) = length l1).
  { unfold cookie_after. destruct (last l1) as [e|] eqn:El; [|by apply last_None in El as ->].
    pose proof (last_lookup l1) as Hk. rewrite El in Hk. destruct l1 as [|x l1]; [done|].
    assert (He : tree_listing id !! length l1 = Some e) by (rewrite Hl; by apply lookup_app_l_Some).
    change (cookie_pos (e_cookie e) = length (x :: l1)). by destruct (tree_listing_at id (length l1) e He) as (-> & _). }
  cbn -[tree_id tree_listing cookie_pos take drop bool_decide length] in Hr. rewrite Hid, Hpos, Hl, drop_app_length in Hr.
  injection Hr as <- <-. exists (drop 1 l2). split; [|split].
  - by rewrite take_drop.
  - intros Hb%bool_decide_eq_true. apply nil_length_inv. rewrite length_drop. lia.
  - intros Ht. apply bool_decide_eq_true. destruct l2; [simpl; lia|done].
Qed.
#[export] Instance tree_dirs : NfsDirServer treeserver :=
  {| listing := tree_listing; listing_ok := tree_listing_ok; readdir_lists := tree_readdir |}.


