(* ===== verification/Udp.v ===== *)
(** * Remote procedure calls over UDP (rpc/clnt_audp.c)

    A client handle has a few slots, each with the buffer of one request.  A
    call sends the request of the first slot and waits for its reply, sending
    it again when none comes; requests can also be sent from several slots and
    their replies waited for one by one.  A reply belongs to the request whose
    transaction id it starts with.

    The sockets are the interface [Net], the routines of the RPC library
    [RpcLib].  What went over the wire is recorded in the state, which no
    function reads. *)
From S2P Require Import Prelude NfsSupp Xdr.

(** ** Time *)

(** Times are sums of waits below a timeout, far from the width of a long. *)
Record timeval := TV { tv_sec : Z; tv_usec : Z }.

(** [n] is the number of turns of the loop. *)
Fixpoint carry (n : nat) (t : timeval) : timeval :=
  match n with
  | O => t
  | S n => if tv_usec t >=? 1000000 then carry n (TV (tv_sec t + 1) (tv_usec t - 1000000)) else t
  end.
Definition add_timeval (t1 t2 : timeval) : timeval :=
  let t := TV (tv_sec t1 + tv_sec t2) (tv_usec t1 + tv_usec t2) in
  carry (Z.to_nat (tv_usec t / 1000000)) t.
Definition less_timeval (t1 t2 : timeval) : bool :=
  (tv_sec t1 <? tv_sec t2) || ((tv_sec t1 =? tv_sec t2) && (tv_usec t1 <? tv_usec t2)).
Definition is_zero (t : timeval) : bool := (tv_sec t =? 0) && (tv_usec t =? 0).

(** ** Status *)

Definition RPC_CANTENCODEARGS : Z := 1.
Definition RPC_CANTDECODERES : Z := 2.
Definition RPC_CANTSEND : Z := 3.
Definition RPC_CANTRECV : Z := 4.
Definition RPC_TIMEDOUT : Z := 5.
Definition RPC_AUTHERROR : Z := 7.
Definition RPC_CANTDECODEARGS : Z := 11.
Definition AUTH_INVALIDRESP : Z := 6.

(** [re_u] is the union: [re_errno] and [re_why] are its first word. *)
Record rpc_err := MkErr { re_status : Z; re_u : Z * Z }.

(** ** What is not part of the program *)

(** The answer of select. *)
Inductive selres := SelTimeout | SelError (errno : Z) | SelReady.

(** A state [N] of the network and the rest of the machine.  select waits for
    the time given; recvfrom gives a datagram or errno; sendto and sendmsg give
    the number of bytes sent and errno, sendmsg for the bytes of its vectors
    one behind the other; [net_mem] says how many allocations will succeed;
    [timeout_cb] is the callback for timeouts. *)
Class Net (N : Type) := {
  net_select : timeval -> N -> selres * N;
  net_recvfrom : Z -> N -> (Z + list byte) * N;
  net_sendto : list byte -> N -> (Z * Z) * N;
  net_mem : N -> nat * N;
  timeout_cb : N -> bool * N;
  EWOULDBLOCK : Z
}.

(** The header of a call, its credentials, the verifier and refreshing of them,
    and the routine for a reply with what it tells about the call. *)
Class RpcLib (AUTH : Type) := {
  REPLY : Type -> Type;
  xdr_callhdr : Z -> Z -> Z -> ENC;
  auth_marshall : AUTH -> ENC;
  auth_validate : AUTH -> list byte -> bool * AUTH;
  auth_refresh : AUTH -> bool * AUTH;
  xdr_replymsg {A} : DEC A -> DEC (REPLY A);
  seterr_reply {A} : REPLY A -> rpc_err -> rpc_err;
  ar_verf {A} : REPLY A -> list byte;
  ar_results {A} : REPLY A -> option A
}.

(** What was sent and heard, the last first. *)
Inductive event := Sent (packet : list byte) | Heard (inbuf : list byte).
Record World (N : Type) := MkWorld { w_net : N; w_log : list event }.
Arguments MkWorld {N}.
Arguments w_net {N}.
Arguments w_log {N}.

(** ** The handle *)

Definition MAXASYNC : Z := 5.

(** The buffer up to the place where arguments are put, and behind it what was
    put there last, [None] when that failed.  A pointer of the caller is a
    number. *)
Record scu_data := MkScu {
  scu_inuse : bool;
  scu_hdr : list byte;
  scu_args : option (list byte);
  scu_resultsp : Z;
  scu_userdata : Z;
  scu_time_waited : timeval;
  scu_nrefreshes : nat
}.

Record mcu_data (xdrproc : Type) := MkMcu {
  mcu_numscu : Z;
  mcu_numfreescu : Z;
  mcu_xid : Z;
  mcu_scu : list scu_data;
  mcu_cb : bool;
  mcu_wait : timeval;
  mcu_total : timeval;
  mcu_error : rpc_err;
  mcu_xresults : option xdrproc;
  mcu_sendsz : Z;
  mcu_recvsz : Z;
  mcu_raddr : Z * Z
}.
Arguments MkMcu {xdrproc}.
Arguments mcu_numscu {xdrproc}.
Arguments mcu_numfreescu {xdrproc}.
Arguments mcu_xid {xdrproc}.
Arguments mcu_scu {xdrproc}.
Arguments mcu_cb {xdrproc}.
Arguments mcu_wait {xdrproc}.
Arguments mcu_total {xdrproc}.
Arguments mcu_error {xdrproc}.
Arguments mcu_xresults {xdrproc}.
Arguments mcu_sendsz {xdrproc}.
Arguments mcu_recvsz {xdrproc}.
Arguments mcu_raddr {xdrproc}.

Record CLIENT (AUTH xdrproc : Type) := MkCLIENT {
  cl_auth : AUTH;
  cl_cu : mcu_data xdrproc;
  cla_resp : Z;
  cla_userdata : Z
}.
Arguments MkCLIENT {AUTH xdrproc}.
Arguments cl_auth {AUTH xdrproc}.
Arguments cl_cu {AUTH xdrproc}.
Arguments cla_resp {AUTH xdrproc}.
Arguments cla_userdata {AUTH xdrproc}.

Definition set_cu {A P} (cu : mcu_data P) (cl : CLIENT A P) : CLIENT A P :=
  MkCLIENT (cl_auth cl) cu (cla_resp cl) (cla_userdata cl).
Definition set_auth {A P} (auth : A) (cl : CLIENT A P) : CLIENT A P :=
  MkCLIENT auth (cl_cu cl) (cla_resp cl) (cla_userdata cl).
Definition set_wait {A P} (scu : scu_data) (cl : CLIENT A P) : CLIENT A P :=
  MkCLIENT (cl_auth cl) (cl_cu cl) (scu_resultsp scu) (scu_userdata scu).

Section Setters.
Context {P : Type}.
Implicit Types cu : mcu_data P.
Definition set_numfree n cu := MkMcu (mcu_numscu cu) n (mcu_xid cu) (mcu_scu cu) (mcu_cb cu) (mcu_wait cu)
  (mcu_total cu) (mcu_error cu) (mcu_xresults cu) (mcu_sendsz cu) (mcu_recvsz cu) (mcu_raddr cu).
Definition set_xid x cu := MkMcu (mcu_numscu cu) (mcu_numfreescu cu) x (mcu_scu cu) (mcu_cb cu) (mcu_wait cu)
  (mcu_total cu) (mcu_error cu) (mcu_xresults cu) (mcu_sendsz cu) (mcu_recvsz cu) (mcu_raddr cu).
Definition set_scus l cu := MkMcu (mcu_numscu cu) (mcu_numfreescu cu) (mcu_xid cu) l (mcu_cb cu) (mcu_wait cu)
  (mcu_total cu) (mcu_error cu) (mcu_xresults cu) (mcu_sendsz cu) (mcu_recvsz cu) (mcu_raddr cu).
Definition set_mwait t cu := MkMcu (mcu_numscu cu) (mcu_numfreescu cu) (mcu_xid cu) (mcu_scu cu) (mcu_cb cu) t
  (mcu_total cu) (mcu_error cu) (mcu_xresults cu) (mcu_sendsz cu) (mcu_recvsz cu) (mcu_raddr cu).
Definition set_total t cu := MkMcu (mcu_numscu cu) (mcu_numfreescu cu) (mcu_xid cu) (mcu_scu cu) (mcu_cb cu) (mcu_wait cu)
  t (mcu_error cu) (mcu_xresults cu) (mcu_sendsz cu) (mcu_recvsz cu) (mcu_raddr cu).
Definition set_error e cu := MkMcu (mcu_numscu cu) (mcu_numfreescu cu) (mcu_xid cu) (mcu_scu cu) (mcu_cb cu) (mcu_wait cu)
  (mcu_total cu) e (mcu_xresults cu) (mcu_sendsz cu) (mcu_recvsz cu) (mcu_raddr cu).
Definition set_xresults (x : P) cu := MkMcu (mcu_numscu cu) (mcu_numfreescu cu) (mcu_xid cu) (mcu_scu cu) (mcu_cb cu) (mcu_wait cu)
  (mcu_total cu) (mcu_error cu) (Some x) (mcu_sendsz cu) (mcu_recvsz cu) (mcu_raddr cu).

Definition set_re_status st cu := set_error (MkErr st (re_u (mcu_error cu))) cu.
Definition set_re_errno e cu := set_error (MkErr (re_status (mcu_error cu)) (e, snd (re_u (mcu_error cu)))) cu.
End Setters.

Definition set_inuse b (s : scu_data) : scu_data :=
  MkScu b (scu_hdr s) (scu_args s) (scu_resultsp s) (scu_userdata s) (scu_time_waited s) (scu_nrefreshes s).
Definition set_packet h a (s : scu_data) : scu_data :=
  MkScu (scu_inuse s) h a (scu_resultsp s) (scu_userdata s) (scu_time_waited s) (scu_nrefreshes s).
Definition set_send r u (s : scu_data) : scu_data :=
  MkScu (scu_inuse s) (scu_hdr s) (scu_args s) r u (TV 0 0) 2.
Definition set_waited t (s : scu_data) : scu_data :=
  MkScu (scu_inuse s) (scu_hdr s) (scu_args s) (scu_resultsp s) (scu_userdata s) t (scu_nrefreshes s).
Definition set_nrefreshes n (s : scu_data) : scu_data :=
  MkScu (scu_inuse s) (scu_hdr s) (scu_args s) (scu_resultsp s) (scu_userdata s) (scu_time_waited s) n.

(** The increment of the first halfword of the transaction id. *)
Definition next_xid (xid : Z) : Z := u16 (xid / 2 ^ 16 + 1) * 2 ^ 16 + xid mod 2 ^ 16.

(** The id a datagram, or a request, starts with. *)
Definition xid_of (p : list byte) : Z :=
  match p with
  | a :: b :: c :: d :: _ => of_be32 a b c d
  | _ => 0
  end.

(** ** The operations *)

Section Ops.
Context {AUTH N xdrproc result : Type} `{EqDecision xdrproc} `{RpcLib AUTH} `{Net N}.
(** What an XDR routine for results decodes. *)
Context (xdr_dec : xdrproc -> DEC result).
Abbreviation CLIENT := (CLIENT AUTH xdrproc).
Abbreviation World := (World N).

(** A status, the results if there are any, and what has changed. *)
Definition outcome : Type := (Z * option result) * CLIENT * World.

(** mcu_error.re_status = st, and return st. *)
Definition give (st : Z) (cl : CLIENT) (w : World) : outcome :=
  ((st, None), set_cu (set_re_status st (cl_cu cl)) cl, w).
Definition give_errno (st errno : Z) (cl : CLIENT) (w : World) : outcome :=
  give st (set_cu (set_re_errno errno (cl_cu cl)) cl) w.

Definition sendto (p : list byte) (w : World) : (Z * Z) * World :=
  let '(r, n) := net_sendto p (w_net w) in (r, MkWorld n (Sent p :: w_log w)).

(** Sending [p]: [None] if all of it went, else errno. *)
Definition send_all (p : list byte) (w : World) : option Z * World :=
  let '((n, errno), w) := sendto p w in (if n =? zlen p then None else Some errno, w).

(** The request of a slot is put in its buffer, with the next id. *)
Definition put_request (proc : Z) (xargs : ENC) (scu : scu_data) (cl : CLIENT) : scu_data * CLIENT :=
  let cu := cl_cu cl in
  let cu := set_xid (next_xid (mcu_xid cu)) cu in
  let hdr := be32 (mcu_xid cu) ++ drop 4 (scu_hdr scu) in
  let xdrs := (xdrmem_putlong proc >>> auth_marshall (cl_auth cl) >>> xargs)
                (MkXDRE [] (mcu_sendsz cu - zlen hdr)) in
  (set_packet hdr (xe_out <$> xdrs) scu, set_cu cu cl).

Definition store_scu (i : nat) (scu : scu_data) (cl : CLIENT) : CLIENT :=
  set_cu (set_scus (<[i := scu]> (mcu_scu (cl_cu cl))) (cl_cu cl)) cl.

(** One turn of the loops that receive: none in time; an error; nothing that
    is waited for; or a datagram that is. *)
Inductive turn := TTimeout | TError (errno : Z) | TAgain | TGot (inbuf : list byte).
Definition recv_turn (mine : Z -> bool) (cu : mcu_data xdrproc) (w : World) : turn * World :=
  let '(s, n) := net_select (mcu_wait cu) (w_net w) in
  match s with
  | SelTimeout => (TTimeout, MkWorld n (w_log w))
  | SelError errno => (TError errno, MkWorld n (w_log w))
  | SelReady =>
      let '(r, n) := net_recvfrom (mcu_recvsz cu) n in
      match r with
      | inl errno => (if errno =? EWOULDBLOCK then TAgain else TError errno, MkWorld n (w_log w))
      | inr inbuf =>
          (if zlen inbuf <? 4 then TAgain else if mine (xid_of inbuf) then TGot inbuf else TAgain,
           MkWorld n (Heard inbuf :: w_log w))
      end
  end.

(** The reply is decoded; what is told about the call is in [mcu_error]. *)
Definition decode_reply (xresults : xdrproc) (inbuf : list byte) (cl : CLIENT) (w : World) :
  option (REPLY result) * CLIENT * World :=
  let '(mem, n) := net_mem (w_net w) in
  let w := MkWorld n (w_log w) in
  match xdr_replymsg (xdr_dec xresults) (MkXDRD inbuf mem) with
  | Some (reply, _) => (Some reply, set_cu (set_error (seterr_reply reply (mcu_error (cl_cu cl))) (cl_cu cl)) cl, w)
  | None => (None, set_cu (set_re_status RPC_CANTDECODERES (cl_cu cl)) cl, w)
  end.

(** The end of a call that succeeded: the verifier of the server. *)
Definition validate (reply : REPLY result) (cl : CLIENT) : CLIENT :=
  let '(ok, auth) := auth_validate (cl_auth cl) (ar_verf reply) in
  let cl := set_auth auth cl in
  if ok then cl
  else set_cu (set_re_errno AUTH_INVALIDRESP (set_re_status RPC_AUTHERROR (cl_cu cl))) cl.

Definition status (cl : CLIENT) : Z := re_status (mcu_error (cl_cu cl)).

(** The time to wait at most. *)
Definition the_timeout (cl : CLIENT) (utimeout : timeval) : timeval :=
  if tv_usec (mcu_total (cl_cu cl)) =? -1 then utimeout else mcu_total (cl_cu cl).

(** *** clntaudp_call *)

(** send_again: [Some] is the status of giving up, with errno. *)
Definition send_again (p : list byte) (timeout : timeval) (w : World) : option (Z * option Z) * World :=
  let '(failed, w) := send_all p w in
  match failed with
  | Some errno => (Some (RPC_CANTSEND, Some errno), w)
  | None => (if is_zero timeout then Some (RPC_TIMEDOUT, None) else None, w)
  end.

(** Waiting for the reply of [p], which has been sent. *)
Fixpoint call_recv (fuel : nat) (p : list byte) (timeout time_waited : timeval) (cu : mcu_data xdrproc) (w : World) :
  option ((Z * option Z + list byte) * timeval * World) :=
  match fuel with
  | O => None
  | S fuel =>
      let '(t, w) := recv_turn (Z.eqb (xid_of p)) cu w in
      match t with
      | TTimeout =>
          let time_waited := add_timeval time_waited (mcu_wait cu) in
          if less_timeval time_waited timeout then
            let '(st, w) := send_again p timeout w in
            match st with
            | Some st => Some (inl st, time_waited, w)
            | None => call_recv fuel p timeout time_waited cu w
            end
          else Some (inl (RPC_TIMEDOUT, None), time_waited, w)
      | TError errno => Some (inl (RPC_CANTRECV, Some errno), time_waited, w)
      | TAgain => call_recv fuel p timeout time_waited cu w
      | TGot inbuf => Some (inr inbuf, time_waited, w)
      end
  end.

(** Sending [p] and waiting for its reply. *)
Definition call_send (fuel : nat) (p : list byte) (timeout time_waited : timeval) (cu : mcu_data xdrproc) (w : World) :
  option ((Z * option Z + list byte) * timeval * World) :=
  let '(st, w) := send_again p timeout w in
  match st with
  | Some st => Some (inl st, time_waited, w)
  | None => call_recv fuel p timeout time_waited cu w
  end.

Definition give_failed (st : Z * option Z) (cl : CLIENT) (w : World) : outcome :=
  match st with
  | (st, Some errno) => give_errno st errno cl w
  | (st, None) => give st cl w
  end.

(** From call_again to the reply; [inr] when the server did not do the call. *)
Definition call_round (fuel : nat) (proc : Z) (xargs : ENC) (xresults : xdrproc)
  (timeout time_waited : timeval) (cl : CLIENT) (w : World) : option (outcome + timeval * CLIENT * World) :=
  scu ← mcu_scu (cl_cu cl) !! 0%nat;
  let '(scu, cl) := put_request proc xargs scu cl in
  let cl := store_scu 0 scu cl in
  match scu_args scu with
  | None => Some (inl (give RPC_CANTENCODEARGS cl w))
  | Some args =>
      '(r, time_waited, w) ← call_send fuel (scu_hdr scu ++ args) timeout time_waited (cl_cu cl) w;
      match r with
      | inl st => Some (inl (give_failed st cl w))
      | inr inbuf =>
          let '(reply, cl, w) := decode_reply xresults inbuf cl w in
          match reply with
          | None => Some (inl ((status cl, None), cl, w))
          | Some reply =>
              if status cl =? RPC_SUCCESS then
                let cl := validate reply cl in
                Some (inl ((status cl, if status cl =? RPC_SUCCESS then ar_results reply else None), cl, w))
              else Some (inr (time_waited, cl, w))
          end
      end
  end.

(** The credentials may need to be refreshed. *)
Fixpoint call_again (nrefreshes : nat) (fuel : nat) (proc : Z) (xargs : ENC) (xresults : xdrproc)
  (timeout time_waited : timeval) (cl : CLIENT) (w : World) : option outcome :=
  r ← call_round fuel proc xargs xresults timeout time_waited cl w;
  match r with
  | inl out => Some out
  | inr (time_waited, cl, w) =>
      match nrefreshes with
      | O => Some ((status cl, None), cl, w)
      | S nrefreshes =>
          let '(ok, auth) := auth_refresh (cl_auth cl) in
          let cl := set_auth auth cl in
          if ok then call_again nrefreshes fuel proc xargs xresults timeout time_waited cl w
          else Some ((status cl, None), cl, w)
      end
  end.

Definition clntaudp_call (fuel : nat) (cl : CLIENT) (proc : Z) (xargs : ENC) (xresults : xdrproc)
  (utimeout : timeval) (w : World) : option outcome :=
  call_again 2 fuel proc xargs xresults (the_timeout cl utimeout) (TV 0 0) cl w.

(** *** clntaudp_sendsb *)

(** The first slot that is not in use. *)
Fixpoint find_slot (p : scu_data -> bool) (l : list scu_data) : option (nat * scu_data) :=
  match l with
  | [] => None
  | scu :: l => if p scu then Some (0%nat, scu) else '(i, scu) ← find_slot p l; Some (S i, scu)
  end.

(** [block] is NULL for [None]; RPC_TIMEDOUT means that the request was sent. *)
Definition clntaudp_sendsb (cl : CLIENT) (proc : Z) (xargs : ENC) (xresults : xdrproc) (resultsp userdata : Z)
  (block : option (list byte)) (w : World) : outcome :=
  let cu := cl_cu cl in
  if mcu_numfreescu cu =? 0 then give RPC_CANTENCODEARGS cl w
  else
    match find_slot (fun scu => negb (scu_inuse scu)) (mcu_scu cu) with
    | None => give RPC_CANTENCODEARGS cl w
    | Some (i, scu) =>
        let cl := if mcu_numfreescu cu =? mcu_numscu cu then set_cu (set_xresults xresults cu) cl else cl in
        if negb (bool_decide (mcu_xresults (cl_cu cl) = Some xresults)) then give RPC_CANTDECODEARGS cl w
        else
          let '(scu, cl) := put_request proc xargs (set_send resultsp userdata scu) cl in
          let cl := store_scu i scu cl in
          match scu_args scu with
          | None => give RPC_CANTENCODEARGS cl w
          | Some args =>
              let '(failed, w) := send_all (scu_hdr scu ++ args ++ default [] block) w in
              match failed with
              | Some errno => give_errno RPC_CANTSEND errno cl w
              | None =>
                  let cl := store_scu i (set_inuse true scu) cl in
                  give RPC_TIMEDOUT (set_cu (set_numfree (u32 (mcu_numfreescu (cl_cu cl) - 1)) (cl_cu cl)) cl) w
              end
          end
    end.

Definition clntaudp_send (cl : CLIENT) (proc : Z) (xargs : ENC) (xresults : xdrproc) (resultsp userdata : Z) (w : World) : outcome :=
  clntaudp_sendsb cl proc xargs xresults resultsp userdata None w.

(** *** clntaudp_wait *)

(** No datagram came in time: the first slot in use that has time left, or
    that the callback gives some, is to be sent again. *)
Fixpoint timed_out (cb : bool) (wait timeout : timeval) (l : list scu_data) (w : World) :
  list scu_data * option scu_data * World :=
  match l with
  | [] => ([], None, w)
  | scu :: l =>
      if scu_inuse scu then
        let scu := set_waited (add_timeval (scu_time_waited scu) wait) scu in
        if less_timeval (scu_time_waited scu) timeout then (scu :: l, Some scu, w)
        else
          let '(again, w) := (if cb then let '(b, n) := timeout_cb (w_net w) in (b, MkWorld n (w_log w)) else (false, w)) in
          if again then (scu :: l, Some scu, w)
          else let '(l, r, w) := timed_out cb wait timeout l w in (scu :: l, r, w)
      else let '(l, r, w) := timed_out cb wait timeout l w in (scu :: l, r, w)
  end.

Definition is_reply (xid : Z) (scu : scu_data) : bool := scu_inuse scu && (xid =? xid_of (scu_hdr scu)).

(** The loop up to a reply: the slot it is for. *)
Fixpoint wait_recv (fuel : nat) (timeout : timeval) (cl : CLIENT) (w : World) :
  option ((Z * option Z + nat * scu_data * list byte) * CLIENT * World) :=
  match fuel with
  | O => None
  | S fuel =>
      let cu := cl_cu cl in
      let '(t, w) := recv_turn (fun xid => existsb (is_reply xid) (mcu_scu cu)) cu w in
      match t with
      | TTimeout =>
          let '(l, r, w) := timed_out (mcu_cb cu) (mcu_wait cu) timeout (mcu_scu cu) w in
          let cl := set_cu (set_scus l cu) cl in
          match r with
          | None => Some (inl (RPC_TIMEDOUT, None), cl, w)
          | Some scu =>
              args ← scu_args scu;
              let '(failed, w) := send_all (scu_hdr scu ++ args) w in
              match failed with
              | Some errno => Some (inl (RPC_CANTSEND, Some errno), cl, w)
              | None => wait_recv fuel timeout cl w
              end
          end
      | TError errno => Some (inl (RPC_CANTRECV, Some errno), cl, w)
      | TAgain => wait_recv fuel timeout cl w
      | TGot inbuf =>
          '(i, scu) ← find_slot (is_reply (xid_of inbuf)) (mcu_scu cu);
          Some (inr (i, scu, inbuf), cl, w)
      end
  end.

(** The slot is given back. *)
Definition free_slot (i : nat) (scu : scu_data) (cl : CLIENT) : CLIENT :=
  let cl := store_scu i (set_inuse false scu) cl in
  set_cu (set_numfree (u32 (mcu_numfreescu (cl_cu cl) + 1)) (cl_cu cl)) cl.

(** The reply [inbuf] to slot [i] is decoded and checked; a request whose credentials
    were refreshed is not sent again: the result is RPC_CANTENCODEARGS and its slot
    stays in use. *)
Definition take_reply (i : nat) (scu : scu_data) (inbuf : list byte) (cl : CLIENT) (w : World) : option outcome :=
  let cl := set_wait scu cl in
  xresults ← mcu_xresults (cl_cu cl);
  let '(reply, cl, w) := decode_reply xresults inbuf cl w in
  match reply with
  | None => Some ((status cl, None), free_slot i scu cl, w)
  | Some reply =>
      if status cl =? RPC_SUCCESS then
        let cl := validate reply cl in
        Some ((status cl, if status cl =? RPC_SUCCESS then ar_results reply else None), free_slot i scu cl, w)
      else
        match scu_nrefreshes scu with
        | O => Some ((status cl, None), free_slot i scu cl, w)
        | S nrefreshes =>
            let '(ok, auth) := auth_refresh (cl_auth cl) in
            let cl := set_auth auth cl in
            if ok then Some (give RPC_CANTENCODEARGS (store_scu i (set_nrefreshes nrefreshes scu) cl) w)
            else Some ((status cl, None), free_slot i scu cl, w)
        end
  end.

(** One reply. *)
Definition clntaudp_wait (fuel : nat) (cl : CLIENT) (utimeout : timeval) (w : World) : option outcome :=
  '(r, cl, w) ← wait_recv fuel (the_timeout cl utimeout) cl w;
  match r with
  | inl st => Some (give_failed st cl w)
  | inr (i, scu, inbuf) => take_reply i scu inbuf cl w
  end.

Definition clntaudp_geterr (cl : CLIENT) : rpc_err := mcu_error (cl_cu cl).

(** Memory of results is not freed. *)
Definition clntaudp_freeres (cl : CLIENT) : bool := false.

Fixpoint abort_slots (l : list scu_data) (numfree : Z) : list scu_data * Z :=
  match l with
  | [] => ([], numfree)
  | scu :: l =>
      let '(scu, numfree) := if scu_inuse scu then (set_inuse false scu, u32 (numfree + 1)) else (scu, numfree) in
      let '(l, numfree) := abort_slots l numfree in (scu :: l, numfree)
  end.
Definition clntaudp_abort (cl : CLIENT) : CLIENT :=
  let cu := cl_cu cl in
  let '(l, n) := abort_slots (mcu_scu cu) (mcu_numfreescu cu) in
  set_cu (set_numfree n (set_scus l cu)) cl.

(** *** clntaudp_control *)

Definition CLSET_TIMEOUT : Z := 1.
Definition CLGET_TIMEOUT : Z := 2.
Definition CLGET_SERVER_ADDR : Z := 3.
Definition CLSET_RETRY_TIMEOUT : Z := 4.
Definition CLGET_RETRY_TIMEOUT : Z := 5.
Definition CLSET_TIMEOUT_CB : Z := 6.

(** What [info] points to; [None] for an object of the wrong type. *)
Inductive Info := InfoTime (t : timeval) | InfoAddr (a : Z * Z).
Definition clntaudp_control (cl : CLIENT) (request : Z) (info : Info) : option (bool * Info * CLIENT) :=
  let cu := cl_cu cl in
  if request =? CLSET_TIMEOUT then
    match info with InfoTime t => Some (true, info, set_cu (set_total t cu) cl) | _ => None end
  else if request =? CLGET_TIMEOUT then
    match info with InfoTime _ => Some (true, InfoTime (mcu_total cu), cl) | _ => None end
  else if request =? CLSET_RETRY_TIMEOUT then
    match info with InfoTime t => Some (true, info, set_cu (set_mwait t cu) cl) | _ => None end
  else if request =? CLGET_RETRY_TIMEOUT then
    match info with InfoTime _ => Some (true, InfoTime (mcu_wait cu), cl) | _ => None end
  else if request =? CLGET_SERVER_ADDR then
    match info with InfoAddr _ => Some (true, InfoAddr (mcu_raddr cu), cl) | _ => None end
  else Some (false, info, cl).
End Ops.

(** ** Creation *)

Definition UDPMSGSIZE : Z := 8800.
Definition RPC_ANYSOCK : Z := -1.
Definition AF_INET : Z := 2.
Definition round4 (n : Z) : Z := u32 (n + 3) / 4 * 4.

(** What creation asks the system for: three pieces of memory, the time, the
    task's address, the port of a program, a new socket (negative: failed) and
    the credentials of authnone_create. *)
Record System (AUTH : Type) := MkSystem {
  sys_mem : bool * bool * bool;
  sys_now : timeval;
  sys_task : Z;
  sys_getport : Z * Z -> Z -> Z -> Z;
  sys_socket : Z;
  sys_authnone : AUTH
}.
Arguments MkSystem {AUTH}.
Arguments sys_mem {AUTH}.
Arguments sys_now {AUTH}.
Arguments sys_task {AUTH}.
Arguments sys_getport {AUTH}.
Arguments sys_socket {AUTH}.
Arguments sys_authnone {AUTH}.

Section Create.
Context {AUTH xdrproc : Type} `{RpcLib AUTH}.
Abbreviation CLIENT := (CLIENT AUTH xdrproc).

(** A slot that has not been used. *)
Definition new_scu (hdr : list byte) : scu_data := MkScu false hdr None 0 0 (TV 0 0) 0.

(** [Some None] is NULL.  Two of the early failures free what the pointers [cu]
    and [cl] contain before they are set. *)
Definition clntaudp_bufcreate (sys : System AUTH) (raddr : Z * Z) (program version : Z) (wait : timeval)
  (sock : Z) (sendsz recvsz numasync : Z) : option (option CLIENT) :=
  let '(mem_cl, mem_cu, mem_out) := sys_mem sys in
  if numasync >? MAXASYNC then None
  else if negb mem_cl then None
  else
    let sendsz := round4 sendsz in
    let recvsz := round4 recvsz in
    if negb (mem_cu && mem_out) then Some None
    else
      let port := if snd raddr =? 0 then sys_getport sys raddr program version else snd raddr in
      if port =? 0 then Some None
      else
        let raddr := (fst raddr, port) in
        let xid := u32 (Z.lxor (Z.lxor (sys_task sys) (tv_sec (sys_now sys))) (tv_usec (sys_now sys))) in
        match (if numasync =? 0 then Some (MkXDRE [] sendsz) else xdr_callhdr xid program version (MkXDRE [] sendsz)) with
        | None => Some None
        | Some xdrs =>
            if (sock <? 0) && (sys_socket sys <? 0) then Some None
            else
              Some (Some (MkCLIENT (sys_authnone sys)
                (MkMcu numasync numasync xid (replicate (Z.to_nat numasync) (new_scu (xe_out xdrs))) false wait
                   (TV (-1) (-1)) (MkErr 0 (0, 0)) None sendsz recvsz raddr) 0 0))
        end.

Definition clntaudp_create (sys : System AUTH) (raddr : Z * Z) (program version : Z) (wait : timeval)
  (sock numasync : Z) : option (option CLIENT) :=
  clntaudp_bufcreate sys raddr program version wait sock UDPMSGSIZE UDPMSGSIZE numasync.

(** clnt_acreate (rpc/clnt_ageneric.c); [h] is the host found, its type of
    address and its address. *)
Definition clnt_acreate (sys : System AUTH) (h : option (Z * Z)) (prog vers numasync : Z) : option (option CLIENT) :=
  match h with
  | None => Some None
  | Some (addrtype, addr) =>
      if negb (addrtype =? AF_INET) then Some None
      else
        cl ← clntaudp_create sys (addr, 0) prog vers (TV 5 0) RPC_ANYSOCK numasync;
        match cl with
        | None => Some None
        | Some cl => '(_, _, cl) ← clntaudp_control cl CLSET_TIMEOUT (InfoTime (TV 25 0)); Some (Some cl)
        end
  end.
End Create.
