(* ===== verification/UdpSpec.v ===== *)
(** * What the transport keeps

    Times in microseconds, transaction ids and their age, the slots of a
    handle as a map from the ids of the requests under way, and how long the
    loops run. *)
From S2P Require Import Prelude NfsSupp Xdr XdrSpec Udp.

(** ** Time *)

Definition usecs (t : timeval) : Z := tv_sec t * 1000000 + tv_usec t.
Definition time_ok (t : timeval) : Prop := 0 <= tv_sec t /\ 0 <= tv_usec t < 1000000.

Lemma carry_ok n : forall t, 0 <= tv_usec t -> Z.to_nat (tv_usec t / 1000000) = n ->
  carry n t = TV (tv_sec t + tv_usec t / 1000000) (tv_usec t mod 1000000).
Proof.
  induction n as [|n IH]; intros [s u] Hu Hn; simpl in *.
  - assert (u / 1000000 = 0) as E by (pose proof (Z.div_pos u 1000000); lia).
    rewrite E, Z.mod_small by (apply Z.div_small_iff in E; lia). f_equal; lia.
  - assert (1000000 <= u) by (apply Z.nlt_ge; intros Hlt; rewrite Z.div_small in Hn by lia; done).
    rewrite Z.geb_leb, (proj2 (Z.leb_le _ _)) by lia.
    assert (E : u / 1000000 = (u - 1000000) / 1000000 + 1).
    { replace u with ((u - 1000000) + 1 * 1000000) at 1 by lia. by rewrite Z.div_add. }
    rewrite IH; simpl; [|lia|lia]. f_equal; [lia|].
    replace u with ((u - 1000000) + 1 * 1000000) at 2 by lia. by rewrite Z.mod_add.
Qed.

Lemma usecs_add t1 t2 : time_ok t1 -> time_ok t2 ->
  usecs (add_timeval t1 t2) = usecs t1 + usecs t2 /\ time_ok (add_timeval t1 t2).
Proof.
  intros [Hs1 Hu1] [Hs2 Hu2]. unfold add_timeval. rewrite carry_ok by (simpl; lia). unfold usecs, time_ok. simpl.
  pose proof (Z.div_mod (tv_usec t1 + tv_usec t2) 1000000). pose proof (Z.mod_pos_bound (tv_usec t1 + tv_usec t2) 1000000).
  pose proof (Z.div_pos (tv_usec t1 + tv_usec t2) 1000000). lia.
Qed.

Lemma less_ok t1 t2 : time_ok t1 -> time_ok t2 -> less_timeval t1 t2 = (usecs t1 <? usecs t2).
Proof.
  intros [Hs1 Hu1] [Hs2 Hu2]. unfold less_timeval, usecs. apply eq_bool_prop_intro. rewrite orb_True, andb_True.
  rewrite !Is_true_true, !Z.ltb_lt, Z.eqb_eq. lia.
Qed.

(** ** Transaction ids *)

Lemma xid_of_be32 x l : 0 <= x < 2 ^ 32 -> xid_of (be32 x ++ l) = x.
Proof. intros Hx. simpl. by rewrite of_be32_be32, u32_id. Qed.

(** The calls made since the one with the id [x], if there are not too many. *)
Definition age (xid x : Z) : Z := (xid / 2 ^ 16 - x / 2 ^ 16) mod 2 ^ 16.
Definition same_low (xid x : Z) : Prop := x mod 2 ^ 16 = xid mod 2 ^ 16.

Lemma next_xid_range xid : 0 <= xid < 2 ^ 32 -> 0 <= next_xid xid < 2 ^ 32.
Proof. unfold next_xid, u16. intros Hx. pose proof (Z.mod_pos_bound (xid / 2 ^ 16 + 1) (2 ^ 16)). pose proof (Z.mod_pos_bound xid (2 ^ 16)). lia. Qed.
Lemma next_xid_parts xid : next_xid xid / 2 ^ 16 = (xid / 2 ^ 16 + 1) mod 2 ^ 16 /\ next_xid xid mod 2 ^ 16 = xid mod 2 ^ 16.
Proof.
  unfold next_xid, u16. pose proof (Z.mod_pos_bound xid (2 ^ 16)).
  rewrite Z.add_comm. split; [rewrite Z.div_add, Z.div_small by lia; lia|by rewrite Z.mod_add, Z.mod_mod by lia].
Qed.
Lemma age_next xid x : age xid x < 2 ^ 16 - 1 -> age (next_xid xid) x = age xid x + 1.
Proof.
  unfold age. destruct (next_xid_parts xid) as [-> _]. intros Ha. rewrite Zminus_mod_idemp_l.
  replace (xid / 2 ^ 16 + 1 - x / 2 ^ 16) with ((xid / 2 ^ 16 - x / 2 ^ 16) + 1) by lia.
  rewrite <-Zplus_mod_idemp_l. apply Z.mod_small. pose proof (Z.mod_pos_bound (xid / 2 ^ 16 - x / 2 ^ 16) (2 ^ 16)). lia.
Qed.
Lemma age_refl xid : age xid xid = 0.
Proof. unfold age. by rewrite Z.sub_diag. Qed.
Lemma age_nonneg xid x : 0 <= age xid x.
Proof. unfold age. apply Z.mod_pos_bound. lia. Qed.
(** An id that has not been in use for long is not given out again. *)
Lemma next_xid_fresh xid x : age xid x < 2 ^ 16 - 1 -> next_xid xid <> x.
Proof. intros Ha <-. pose proof (age_next xid _ Ha) as E. rewrite age_refl in E. pose proof (age_nonneg xid (next_xid xid)). lia. Qed.

(** ** Slots *)

(** The requests under way: the id, and what the caller gave with it. *)
Definition request (s : scu_data) : option (Z * (Z * Z)) :=
  if scu_inuse s then Some (xid_of (scu_hdr s), (scu_resultsp s, scu_userdata s)) else None.
Definition under_way (l : list scu_data) : list (Z * (Z * Z)) := omap request l.
Arguments under_way : simpl never.
Definition outstanding {P} (cu : mcu_data P) : gmap Z (Z * Z) := list_to_map (under_way (mcu_scu cu)).

Definition slot_ok (s : scu_data) : Prop :=
  4 <= zlen (scu_hdr s) /\ time_ok (scu_time_waited s) /\ (scu_inuse s = true -> is_Some (scu_args s)).
Definition times_ok (l : list scu_data) : Prop := Forall (fun s => time_ok (scu_time_waited s)) l.

Record mcu_ok {P} (cu : mcu_data P) : Prop := {
  mo_num : mcu_numscu cu = zlen (mcu_scu cu);
  mo_max : zlen (mcu_scu cu) <= MAXASYNC;
  mo_free : mcu_numfreescu cu = zlen (mcu_scu cu) - zlen (under_way (mcu_scu cu));
  mo_xid : 0 <= mcu_xid cu < 2 ^ 32;
  mo_slots : Forall slot_ok (mcu_scu cu);
  mo_ids : NoDup (under_way (mcu_scu cu)).*1;
  mo_results : under_way (mcu_scu cu) <> [] -> is_Some (mcu_xresults cu)
}.

(** No request under way is older than [k] calls. *)
Definition young {P} (k : Z) (cu : mcu_data P) : Prop := Forall (fun r => age (mcu_xid cu) r.1 < k) (under_way (mcu_scu cu)).

Lemma mcu_ok_error {P} e (cu : mcu_data P) : mcu_ok cu -> mcu_ok (set_error e cu).
Proof. by intros [? ? ? ? ? ? ?]. Qed.

Lemma under_way_app l k : under_way (l ++ k) = under_way l ++ under_way k.
Proof. apply omap_app. Qed.
Lemma under_way_cons s l : under_way (s :: l) = option_list (request s) ++ under_way l.
Proof. unfold under_way at 1. simpl. by destruct (request s). Qed.

Lemma find_slot_ok p l : match find_slot p l with
  | Some (i, s) => p s = true /\ exists l1 l2, l = l1 ++ s :: l2 /\ length l1 = i
  | None => Forall (fun s => p s = false) l
  end.
Proof.
  induction l as [|s l IH]; simpl; [constructor|]. destruct (p s) eqn:Ep; [split; [done|]; by exists [], l|].
  destruct (find_slot p l) as [[i s']|]; simpl; [|by constructor]. destruct IH as (Hs & l1 & l2 & -> & <-).
  split; [done|]. by exists (s :: l1), l2.
Qed.
Lemma insert_slot l1 l2 (s s' : scu_data) : <[length l1 := s']> (l1 ++ s :: l2) = l1 ++ s' :: l2.
Proof. by rewrite insert_app_r_alt, Nat.sub_diag by done. Qed.

Lemma under_way_le l : (length (under_way l) <= length l)%nat.
Proof. induction l as [|x l IH]; [done|]. rewrite under_way_cons, length_app, length_cons. destruct (request x); simpl; lia. Qed.
Lemma under_way_lt l1 s l2 : request s = None -> zlen (under_way (l1 ++ s :: l2)) < zlen (l1 ++ s :: l2).
Proof.
  intros Hs. unfold zlen. apply Nat2Z.inj_lt. rewrite under_way_app, under_way_cons, Hs, !length_app, length_cons. simpl.
  pose proof (under_way_le l1). pose proof (under_way_le l2). lia.
Qed.

(** A slot gets a new request. *)
Lemma outstanding_new l1 l2 s s' r : request s = None -> request s' = Some r -> (r.1 ∉ (under_way (l1 ++ s :: l2)).*1) ->
  NoDup (under_way (l1 ++ s :: l2)).*1 ->
  NoDup (under_way (l1 ++ s' :: l2)).*1 /\
  list_to_map (under_way (l1 ++ s' :: l2)) = <[r.1 := r.2]> (list_to_map (under_way (l1 ++ s :: l2)) : gmap Z (Z * Z)).
Proof.
  intros Hs Hs' Hn Hd. rewrite !under_way_app, !under_way_cons, Hs, Hs' in *. simpl in *.
  assert (Hp : under_way l1 ++ r :: under_way l2 ≡ₚ r :: under_way l1 ++ under_way l2) by (symmetry; apply Permutation_middle).
  assert (Hd' : NoDup (under_way l1 ++ r :: under_way l2).*1) by (rewrite Hp; by constructor).
  split; [done|]. destruct r as [x v]. rewrite (list_to_map_proper _ _ Hd' Hp). done.
Qed.
(** The request of a slot is given up. *)
Lemma outstanding_del l1 l2 s s' r : request s = Some r -> request s' = None ->
  NoDup (under_way (l1 ++ s :: l2)).*1 ->
  NoDup (under_way (l1 ++ s' :: l2)).*1 /\
  (list_to_map (under_way (l1 ++ s :: l2)) : gmap Z (Z * Z)) !! r.1 = Some r.2 /\
  list_to_map (under_way (l1 ++ s' :: l2)) = delete r.1 (list_to_map (under_way (l1 ++ s :: l2)) : gmap Z (Z * Z)).
Proof.
  intros Hs Hs' Hd. rewrite !under_way_app, !under_way_cons, Hs, Hs' in *. simpl in *.
  assert (Hp : under_way l1 ++ r :: under_way l2 ≡ₚ r :: under_way l1 ++ under_way l2) by (symmetry; apply Permutation_middle).
  rewrite (list_to_map_proper _ _ Hd Hp). rewrite Hp in Hd. destruct r as [x v]. apply NoDup_cons in Hd as [Hn Hd].
  split; [done|]. simpl. split; [by rewrite lookup_insert_eq|]. rewrite delete_insert_id; [done|].
  by apply not_elem_of_list_to_map_1.
Qed.

(** Slots that differ in the time waited only. *)
Definition same_reqs (l l' : list scu_data) : Prop :=
  Forall2 (fun s s' => s' = set_waited (scu_time_waited s') s) l l'.
#[export] Instance same_reqs_PreOrder : PreOrder same_reqs.
Proof.
  split.
  - intros l. unfold same_reqs. induction l as [|[] l IH]; constructor; done.
  - intros l1 l2 l3 H12. revert l3. induction H12 as [|s1 s2 l1 l2 E12 _ IH]; intros l3 H23; [done|].
    apply Forall2_cons_inv_l in H23 as (s3 & l3' & E23 & H23 & ->). constructor; [rewrite E23, E12; done|by apply IH].
Qed.
Lemma same_reqs_request l l' : same_reqs l l' -> under_way l' = under_way l /\ zlen l' = zlen l /\ (Forall slot_ok l -> times_ok l' -> Forall slot_ok l').
Proof.
  induction 1 as [|s s' l l' E _ (IHu & IHl & IHf)]; [done|]. rewrite !under_way_cons, !zlen_cons, IHu, IHl, E.
  split; [done|]. split; [done|]. intros [(Hh & _ & Ha) Hl]%Forall_cons [Ht Hts]%Forall_cons. rewrite E in Ht.
  constructor; [done|by apply IHf].
Qed.
Lemma mcu_ok_same {P} l (cu : mcu_data P) : same_reqs (mcu_scu cu) l -> times_ok l -> mcu_ok cu -> mcu_ok (set_scus l cu).
Proof.
  intros Hs Hts [Hn Hm Hf Hx Hsl Hi Hr]. apply same_reqs_request in Hs as (Hu & Hl & Ho).
  constructor; simpl; rewrite ?Hu, ?Hl; try done. by apply Ho.
Qed.
Lemma mcu_ok_times {P} (cu : mcu_data P) : mcu_ok cu -> times_ok (mcu_scu cu).
Proof. intros Ho. eapply Forall_impl; [apply (mo_slots _ Ho)|]. by intros s (_ & Ht & _). Qed.

Lemma under_way_in l s : s ∈ l -> scu_inuse s = true -> xid_of (scu_hdr s) ∈ (under_way l).*1.
Proof.
  intros Hin Hu. apply list_elem_of_fmap. exists (xid_of (scu_hdr s), (scu_resultsp s, scu_userdata s)). split; [done|].
  apply list_elem_of_omap. exists s. split; [done|]. unfold request. by rewrite Hu.
Qed.
Lemma ids_distinct l : NoDup (under_way l).*1 -> forall i j s t, l !! i = Some s -> l !! j = Some t ->
  scu_inuse s = true -> scu_inuse t = true -> xid_of (scu_hdr s) = xid_of (scu_hdr t) -> i = j.
Proof.
  induction l as [|x l IH]; [done|]. rewrite under_way_cons, fmap_app. intros (_ & Hd & Hl)%NoDup_app i j s t Hi Hj Hs Ht Hx.
  assert (Hhd : forall k u, l !! k = Some u -> scu_inuse u = true -> scu_inuse x = true -> xid_of (scu_hdr x) <> xid_of (scu_hdr u)).
  { intros k u Hk Hu Hxu E. apply (Hd (xid_of (scu_hdr x))).
    - unfold request. rewrite Hxu. left.
    - rewrite E. apply under_way_in; [by eapply list_elem_of_lookup_2|done]. }
  destruct i as [|i], j as [|j]; simpl in Hi, Hj; [done| | |f_equal; by eapply IH]; simplify_eq; exfalso; by eapply Hhd.
Qed.
