(* ===== verification/UdpRun.v ===== *)
(** * Runs of the transport

    What calls, requests sent together and waiting do to the handle and on the
    wire, and that they come to an end. *)
From S2P Require Import Prelude NfsSupp Xdr XdrSpec Udp UdpSpec.

(** A network that is silent in the end: [arrivals] bounds the datagrams that
    will still be heard if nothing more is sent, [replies] how many a request
    brings about at most. *)
Class NetFinite (N : Type) `{Net N} := {
  arrivals : N -> nat;
  replies : nat;
  select_some t n n' : net_select t n = (SelReady, n') -> forall sz, (arrivals (net_recvfrom sz n').2 < arrivals n)%nat;
  select_none t n r n' : net_select t n = (r, n') -> r <> SelReady -> (arrivals n' <= arrivals n)%nat;
  sendto_arrivals p n : (arrivals (net_sendto p n).2 <= arrivals n + replies)%nat;
  mem_arrivals n : (arrivals (net_mem n).2 <= arrivals n)%nat
}.

(** The header of a call starts with its id; a reply that tells success comes
    with results, and results are what the routine for them decodes. *)
Class RpcLibLaws (AUTH : Type) `{RpcLib AUTH} := {
  callhdr_xid xid prog vers room xdrs : xdr_callhdr xid prog vers (MkXDRE [] room) = Some xdrs ->
    exists l, xe_out xdrs = be32 xid ++ l;
  success_results {A} (reply : REPLY A) e : re_status (seterr_reply reply e) = RPC_SUCCESS -> is_Some (ar_results reply);
  results_decoded {A} (d : DEC A) (Q : A -> Prop) x y reply r : (forall s a s', d s = Some (a, s') -> Q a) ->
    xdr_replymsg d x = Some (reply, y) -> ar_results reply = Some r -> Q r
}.

Section Transport.
Context {AUTH N xdrproc result : Type} `{EqDecision xdrproc} `{LL : RpcLibLaws AUTH} `{NF : NetFinite N}.
Context (xdr_dec : xdrproc -> DEC result).
Abbreviation CLIENT := (CLIENT AUTH xdrproc).
Abbreviation World := (World N).
Implicit Types (cl : CLIENT) (w : World).

(** ** The wire *)

(** The packets among some events. *)
Definition sends (l : list event) : list (list byte) := omap (fun e => match e with Sent p => Some p | Heard _ => None end) l.
Definition arr w : nat := arrivals (w_net w).

Lemma sends_app l k : sends (l ++ k) = sends l ++ sends k.
Proof. apply omap_app. Qed.

Lemma send_all_ok p w : exists f w', send_all p w = (f, w') /\ w_log w' = Sent p :: w_log w /\ (arr w' <= arr w + replies)%nat.
Proof.
  unfold send_all, sendto. pose proof (sendto_arrivals p (w_net w)) as Ha. destruct (net_sendto p (w_net w)) as [[n e] n'].
  by eexists _, _.
Qed.

Lemma recv_turn_ok mine (cu : mcu_data xdrproc) w : exists t w', recv_turn mine cu w = (t, w') /\ 
  exists new, w_log w' = new ++ w_log w /\ sends new = [] /\
  match t with
  | TGot d => new = [Heard d] /\ mine (xid_of d) = true /\ (arr w' < arr w)%nat
  | TAgain => (arr w' < arr w)%nat
  | TTimeout | TError _ => (arr w' <= arr w)%nat
  end.
Proof.
  unfold recv_turn, arr. destruct (net_select (mcu_wait cu) (w_net w)) as [s n] eqn:Es. destruct s as [|e|].
  - eexists _, _. split; [done|]. exists []. split; [done|]. split; [done|]. by eapply select_none.
  - eexists _, _. split; [done|]. exists []. split; [done|]. split; [done|]. by eapply select_none.
  - pose proof (select_some _ _ _ Es (mcu_recvsz cu)) as Ha. destruct (net_recvfrom (mcu_recvsz cu) n) as [[e|d] n'].
    + eexists _, _. split; [done|]. exists []. split; [done|]. split; [done|]. simpl in *. destruct (e =? EWOULDBLOCK); lia.
    + eexists _, _. split; [done|]. exists [Heard d]. split; [done|]. split; [done|]. simpl in *.
      destruct (zlen d <? 4); [lia|]. by destruct (mine (xid_of d)) eqn:Em.
Qed.

(** ** clntaudp_call *)

(** How often a request is repeated at most. *)
Definition repeats (wait timeout waited : timeval) : nat := Z.to_nat ((usecs timeout - usecs waited) / usecs wait).
(** What the loop of a call takes up. *)
Definition effort (wait timeout waited : timeval) w : nat := (arr w + (replies + 1) * repeats wait timeout waited)%nat.

Lemma repeats_step wait timeout waited : 0 < usecs wait -> usecs waited + usecs wait < usecs timeout ->
  forall waited', usecs waited' = usecs waited + usecs wait ->
  repeats wait timeout waited = S (repeats wait timeout waited').
Proof.
  intros Hw Hlt waited' E. unfold repeats. rewrite E.
  replace (usecs timeout - usecs waited) with ((usecs timeout - (usecs waited + usecs wait)) + 1 * usecs wait) by lia.
  rewrite Z.div_add by lia. pose proof (Z.div_pos (usecs timeout - (usecs waited + usecs wait)) (usecs wait)). lia.
Qed.

Lemma repeats_anti wait timeout waited waited' : 0 < usecs wait -> usecs waited <= usecs waited' ->
  (repeats wait timeout waited' <= repeats wait timeout waited)%nat.
Proof.
  intros Hw Hle. unfold repeats. pose proof (Z.div_le_mono (usecs timeout - usecs waited') (usecs timeout - usecs waited) (usecs wait)). lia.
Qed.

Lemma send_again_ok p timeout w : exists st w', send_again p timeout w = (st, w') /\ w_log w' = Sent p :: w_log w /\
  (arr w' <= arr w + replies)%nat /\
  (forall e, st = Some e -> e.1 = RPC_CANTSEND \/ e.1 = RPC_TIMEDOUT).
Proof.
  unfold send_again. destruct (send_all_ok p w) as (f & w' & -> & Hl & Ha). destruct f as [e|].
  - eexists _, _. split; [done|]. split; [done|]. split; [done|]. intros ? [= <-]. by left.
  - eexists _, _. split; [done|]. split; [done|]. split; [done|]. intros ?. destruct (is_zero timeout); [|done].
    intros [= <-]. by right.
Qed.

(** What waiting for the reply of [p] leaves: its events, all of whose packets
    are [p]; and a status that is not success, or the datagram heard last. *)
Definition call_result (p : list byte) (k : nat) (w w' : World) (r : Z * option Z + list byte) : Prop :=
  exists new, w_log w' = new ++ w_log w /\ Forall (eq p) (sends new) /\ (length (sends new) <= k)%nat /\
  match r with
  | inl st => st.1 = RPC_CANTSEND \/ st.1 = RPC_TIMEDOUT \/ st.1 = RPC_CANTRECV
  | inr d => head new = Some (Heard d) /\ xid_of d = xid_of p
  end.

Lemma call_result_more p k1 k2 w w1 w2 r new : w_log w1 = new ++ w_log w -> Forall (eq p) (sends new) ->
  (length (sends new) <= k1)%nat -> call_result p k2 w1 w2 r -> call_result p (k1 + k2) w w2 r.
Proof.
  intros Hl Hf Hn (new' & Hl' & Hf' & Hn' & Hr). exists (new' ++ new). rewrite sends_app, length_app.
  split; [by rewrite Hl', Hl, app_assoc|]. split; [by apply Forall_app|]. split; [lia|].
  destruct r; [done|]. destruct Hr as [Hh Hx]. split; [|done]. by destruct new'.
Qed.

Lemma call_recv_ok fuel p timeout (cu : mcu_data xdrproc) : time_ok timeout -> time_ok (mcu_wait cu) -> 0 < usecs (mcu_wait cu) ->
  forall waited w, time_ok waited -> (effort (mcu_wait cu) timeout waited w < fuel)%nat ->
  exists r waited' w', call_recv fuel p timeout waited cu w = Some (r, waited', w') /\ time_ok waited' /\
    call_result p (repeats (mcu_wait cu) timeout waited) w w' r /\
    (forall d, r = inr d -> (effort (mcu_wait cu) timeout waited' w' <= effort (mcu_wait cu) timeout waited w)%nat /\
      usecs waited <= usecs waited').
Proof.
  intros Ht Hw Hpos. induction fuel as [|fuel IH]; intros waited w Hwd Hf; [lia|]. cbn [call_recv].
  destruct (recv_turn_ok (Z.eqb (xid_of p)) cu w) as (t & w1 & -> & new & Hl & Hs & Hcase).
  assert (Hnil : Forall (eq p) (sends new) /\ length (sends new) = 0%nat) by (by rewrite Hs). destruct Hnil as [Hall Hlen].
  destruct t as [|e| |d].
  - destruct (usecs_add waited (mcu_wait cu) Hwd Hw) as [Eu Hwd']. rewrite less_ok by done.
    destruct (Z.ltb_spec (usecs (add_timeval waited (mcu_wait cu))) (usecs timeout)) as [Hlt|Hge].
    + pose proof (repeats_step (mcu_wait cu) timeout waited Hpos ltac:(lia) _ Eu) as Hrep.
      destruct (send_again_ok p timeout w1) as (st & w2 & -> & Hl2 & Ha2 & Hst).
      assert (Hl2' : w_log w2 = (Sent p :: new) ++ w_log w) by (by rewrite Hl2, Hl).
      assert (Hall2 : Forall (eq p) (sends (Sent p :: new))) by (by constructor).
      destruct st as [st|].
      * eexists _, _, _. split; [done|]. split; [done|]. split; [|done]. exists (Sent p :: new). split; [done|]. split; [done|].
        simpl. rewrite Hrep, Hs. simpl. split; [lia|]. destruct (Hst _ eq_refl) as [-> | ->]; tauto.
      * destruct (IH (add_timeval waited (mcu_wait cu)) w2 Hwd') as (r & wd & w3 & -> & Hwd3 & Hres & Heff).
        { unfold effort in *. rewrite Hrep in Hf. lia. }
        eexists _, _, _. split; [done|]. split; [done|]. split.
        { rewrite Hrep. change (Datatypes.S ?n) with (1 + n)%nat. eapply call_result_more; [done|done| |done]. simpl. rewrite Hs. simpl. lia. }
        intros d Hd. destruct (Heff d Hd) as [He Hu]. unfold effort in *. rewrite Hrep. lia.
    + eexists _, _, _. split; [done|]. split; [done|]. split; [|done]. exists new. repeat (split; [done || lia|]). tauto.
  - eexists _, _, _. split; [done|]. split; [done|]. split; [|done]. exists new. repeat (split; [done || lia|]). tauto.
  - destruct (IH waited w1 Hwd) as (r & wd & w3 & -> & Hwd3 & Hres & Heff); [unfold effort in *; lia|].
    eexists _, _, _. split; [done|]. split; [done|]. split.
    { change (repeats _ _ _) with (0 + repeats (mcu_wait cu) timeout waited)%nat. eapply call_result_more; [done|done|lia|done]. }
    intros d Hd. destruct (Heff d Hd) as [He Hu]. unfold effort in *. lia.
  - destruct Hcase as (-> & Hx & Ha). eexists _, _, _. split; [done|]. split; [done|]. split.
    + exists [Heard d]. split; [done|]. split; [done|]. split; [simpl; lia|]. split; [done|]. apply Z.eqb_eq in Hx. done.
    + intros ? _. unfold effort. lia.
Qed.

(** ** Requests and replies *)

(** A request of the procedure with the arguments, as it is put behind the
    header [hdr] in a buffer of [sendsz] bytes, with any id and credentials. *)
Definition is_call (hdr : list byte) (sendsz proc : Z) (xargs : ENC) (q : list byte) : Prop :=
  exists xid auth xdrs, 0 <= xid < 2 ^ 32 /\
    (xdrmem_putlong proc >>> auth_marshall auth >>> xargs) (MkXDRE [] (sendsz - zlen hdr)) = Some xdrs /\
    q = be32 xid ++ drop 4 hdr ++ xe_out xdrs.
Definition decodes (xresults : xdrproc) (d : list byte) (reply : REPLY result) : Prop :=
  exists mem x, xdr_replymsg (xdr_dec xresults) (MkXDRD d mem) = Some (reply, x).

Lemma is_call_hdr hdr hdr' sendsz proc xargs q : zlen hdr' = zlen hdr -> drop 4 hdr' = drop 4 hdr ->
  is_call hdr' sendsz proc xargs q -> is_call hdr sendsz proc xargs q.
Proof. intros Hl Hd (x & auth & xd & Hx & Hm & ->). exists x, auth, xd. by rewrite Hd, <-Hl. Qed.

(** The buffer with a new request. *)
Lemma put_request_ok proc xargs scu cl : mcu_ok (cl_cu cl) -> slot_ok scu ->
  exists hdr a, put_request proc xargs scu cl = (set_packet hdr a scu, set_cu (set_xid (next_xid (mcu_xid (cl_cu cl))) (cl_cu cl)) cl) /\
    xid_of hdr = next_xid (mcu_xid (cl_cu cl)) /\ zlen hdr = zlen (scu_hdr scu) /\ drop 4 hdr = drop 4 (scu_hdr scu) /\
    (forall args, a = Some args -> is_call (scu_hdr scu) (mcu_sendsz (cl_cu cl)) proc xargs (hdr ++ args)) /\
    (forall args, xid_of (hdr ++ args) = xid_of hdr).
Proof.
  intros Ho [Hh _]. pose proof (next_xid_range _ (mo_xid _ Ho)) as Hx. unfold put_request.
  cbn [mcu_xid set_xid mcu_sendsz]. set (x := next_xid _) in *. set (hdr := be32 x ++ drop 4 (scu_hdr scu)).
  assert (Hl : zlen hdr = zlen (scu_hdr scu)).
  { unfold hdr. rewrite zlen_app. unfold zlen in *. rewrite length_drop. simpl. lia. }
  eexists hdr, _. split; [done|]. split; [by apply xid_of_be32|]. split; [done|]. split; [done|]. split; [|done].
  intros args Ha. fold hdr in Ha. rewrite Hl in Ha.
  destruct ((xdrmem_putlong proc >>> _) _) as [xd|] eqn:Exd in Ha; [|done]. injection Ha as <-.
  exists x, (cl_auth cl), xd. split; [done|]. split; [done|]. unfold hdr. by rewrite <-app_assoc.
Qed.

Lemma decode_reply_ok xresults d cl w : exists reply e w', decode_reply xdr_dec xresults d cl w =
  (reply, set_cu (set_error e (cl_cu cl)) cl, w') /\ w_log w' = w_log w /\ (arr w' <= arr w)%nat /\
  match reply with
  | None => re_status e = RPC_CANTDECODERES
  | Some reply => decodes xresults d reply /\ (re_status e = RPC_SUCCESS -> is_Some (ar_results reply))
  end.
Proof.
  unfold decode_reply, arr. pose proof (mem_arrivals (w_net w)) as Ha. destruct (net_mem (w_net w)) as [mem n].
  destruct (xdr_replymsg _ _) as [[reply x]|] eqn:Er.
  - eexists _, _, _. split; [done|]. split; [done|]. split; [done|]. split; [by eexists _, _|]. apply success_results.
  - by eexists _, _, _.
Qed.

Lemma validate_ok (reply : REPLY result) cl : status cl = RPC_SUCCESS -> exists auth e,
  validate reply cl = set_cu (set_error e (cl_cu cl)) (set_auth auth cl) /\
  (re_status e = RPC_SUCCESS \/ re_status e = RPC_AUTHERROR).
Proof.
  intros Hs. unfold validate. destruct (auth_validate _ _) as [[] auth].
  - exists auth, (mcu_error (cl_cu cl)). split; [by destruct cl as [? [] ? ?]|]. by left.
  - eexists auth, _. split; [done|]. by right.
Qed.

(** What a call leaves of a handle whose first slot is free. *)
Record called (n : Z) (hdr : list byte) cl cl' : Prop := {
  cd_ok : mcu_ok (cl_cu cl');
  cd_reqs : under_way (mcu_scu (cl_cu cl')) = under_way (mcu_scu (cl_cu cl));
  cd_young k : young k (cl_cu cl) -> k + n <= 2 ^ 16 -> young (k + n) (cl_cu cl');
  cd_wait : mcu_wait (cl_cu cl') = mcu_wait (cl_cu cl);
  cd_total : mcu_total (cl_cu cl') = mcu_total (cl_cu cl);
  cd_sendsz : mcu_sendsz (cl_cu cl') = mcu_sendsz (cl_cu cl);
  cd_slot : exists s l, mcu_scu (cl_cu cl') = s :: l /\ scu_inuse s = false /\
              zlen (scu_hdr s) = zlen hdr /\ drop 4 (scu_hdr s) = drop 4 hdr
}.
Lemma called_error n hdr cl cl' cl2 : called n hdr cl cl' -> (exists e, cl_cu cl2 = set_error e (cl_cu cl')) -> called n hdr cl cl2.
Proof. intros [Ho Hr Hy Hw Ht Hz Hs] [e He]. constructor; rewrite ?He; try done. by apply mcu_ok_error. Qed.
Lemma called_trans n1 n2 hdr hdr2 cl1 cl2 cl3 : 0 <= n2 -> zlen hdr2 = zlen hdr -> drop 4 hdr2 = drop 4 hdr ->
  called n1 hdr cl1 cl2 -> called n2 hdr2 cl2 cl3 -> called (n1 + n2) hdr cl1 cl3.
Proof.
  intros Hn2 Hz2 Hd2 [Ho Hr Hy Hw Ht Hz _] [Ho2 Hr2 Hy2 Hw2 Ht2 Hzz2 (s & l & Hs & Hu & Hl & Hd)].
  constructor; try congruence; try done.
  - intros k Hk Hle. rewrite Z.add_assoc. apply Hy2; [|lia]. apply Hy; [done|lia].
  - exists s, l. split; [done|]. split; [done|]. split; congruence.
Qed.

Lemma young_next k (cu : mcu_data xdrproc) : young k cu -> k + 1 <= 2 ^ 16 -> young (k + 1) (set_xid (next_xid (mcu_xid cu)) cu).
Proof.
  unfold young. simpl. intros Hy Hk. eapply Forall_impl; [exact Hy|]. intros r Hr. simpl in *. rewrite age_next; lia.
Qed.

(** The new request in the first slot. *)
Lemma called_put proc xargs scu l cl : mcu_ok (cl_cu cl) -> mcu_scu (cl_cu cl) = scu :: l -> scu_inuse scu = false ->
  exists hdr a, let scu' := set_packet hdr a scu in
    put_request proc xargs scu cl = (scu', set_cu (set_xid (next_xid (mcu_xid (cl_cu cl))) (cl_cu cl)) cl) /\
    called 1 (scu_hdr scu) cl (store_scu 0 scu' (set_cu (set_xid (next_xid (mcu_xid (cl_cu cl))) (cl_cu cl)) cl)) /\
    (forall args, a = Some args -> is_call (scu_hdr scu) (mcu_sendsz (cl_cu cl)) proc xargs (hdr ++ args)).
Proof.
  intros Ho Hl Hu. pose proof (mo_slots _ Ho) as Hsl. rewrite Hl in Hsl. apply Forall_cons in Hsl as [Hs Hsl].
  destruct (put_request_ok proc xargs scu cl Ho Hs) as (hdr & a & Hp & Hx & Hz & Hd & Hc & _).
  exists hdr, a. split; [done|]. split; [|done].
  assert (Hreq : request scu = None /\ request (set_packet hdr a scu) = None) by (unfold request; simpl; by rewrite Hu).
  assert (Hun : under_way (set_packet hdr a scu :: l) = under_way (scu :: l)) by (rewrite !under_way_cons; by destruct Hreq as [-> ->]).
  destruct Ho as [Hn Hm Hf Hxi _ Hi Hr]. rewrite Hl in *.
  constructor; simpl; rewrite ?Hl; simpl; try done.
  - constructor; simpl; rewrite ?Hl; simpl; try done.
    + by rewrite Hun, zlen_cons, <-(zlen_cons scu).
    + by apply next_xid_range.
    + constructor; [|done]. destruct Hs as (Hs & Ht & _). split; [simpl; by rewrite Hz|]. split; [done|]. simpl. by rewrite Hu.
    + by rewrite Hun.
    + by rewrite Hun.
  - intros k Hk Hle. apply young_next in Hk; [|lia]. unfold young in *. simpl in *. rewrite Hl in *. simpl. by rewrite Hun.
  - eexists _, l. split; [done|]. done.
Qed.

Lemma called_mono n1 n2 hdr cl cl' : n1 <= n2 -> called n1 hdr cl cl' -> called n2 hdr cl cl'.
Proof.
  intros Hle [Ho Hr Hy Hw Ht Hz Hs]. constructor; try done. intros k Hk Hk2. eapply Forall_impl; [apply (Hy k); [done|lia]|].
  simpl. lia.
Qed.

(** Sending a request and waiting for its reply. *)
Lemma call_send_ok fuel p timeout waited (cu : mcu_data xdrproc) w : time_ok timeout -> time_ok waited ->
  time_ok (mcu_wait cu) -> 0 < usecs (mcu_wait cu) -> (effort (mcu_wait cu) timeout waited w + replies < fuel)%nat ->
  exists r waited' w', call_send fuel p timeout waited cu w = Some (r, waited', w') /\ time_ok waited' /\
    exists new, w_log w' = new ++ w_log w /\ Forall (eq p) (sends new) /\
      (length (sends new) <= repeats (mcu_wait cu) timeout waited + 1)%nat /\
      match r with
      | inl st => st.1 = RPC_CANTSEND \/ st.1 = RPC_TIMEDOUT \/ st.1 = RPC_CANTRECV
      | inr d => (exists rest, new = Heard d :: rest /\ head (sends rest) = Some p) /\ xid_of d = xid_of p /\
          (effort (mcu_wait cu) timeout waited' w' <= effort (mcu_wait cu) timeout waited w + replies)%nat /\
          usecs waited <= usecs waited'
      end.
Proof.
  intros Ht Hwd Hw Hpos Hf. unfold call_send. destruct (send_again_ok p timeout w) as (st & w1 & -> & Hl & Ha & Hst).
  destruct st as [st|].
  - eexists _, _, _. split; [done|]. split; [done|]. exists [Sent p]. split; [done|]. split; [by repeat constructor|]. split; [simpl; lia|].
    destruct (Hst _ eq_refl) as [-> | ->]; tauto.
  - destruct (call_recv_ok fuel p timeout cu Ht Hw Hpos waited w1 Hwd) as (r & wd & w2 & -> & Hwd2 & Hres & Heff).
    { unfold effort in *. lia. }
    eexists _, _, _. split; [done|]. split; [done|]. destruct Hres as (new & Hl2 & Hall & Hn & Hr). exists (new ++ [Sent p]).
    rewrite sends_app, length_app. split; [by rewrite Hl2, Hl, <-app_assoc|]. split; [apply Forall_app; split; [done|by repeat constructor]|]. split; [simpl; lia|].
    destruct r as [st|d]; [done|]. destruct Hr as [Hh Hx]. split; [|split; [done|]].
    + destruct new as [|e new]; [done|]. injection Hh as ->. exists (new ++ [Sent p]). split; [done|].
      rewrite sends_app. change (sends (Heard d :: new)) with (sends new) in Hall.
      destruct (sends new) as [|q qs]; [done|]. by apply Forall_cons in Hall as [<- _].
    + destruct (Heff d eq_refl) as [He Hu]. unfold effort in *. lia.
Qed.

(** What a call did on the wire, and what it gave: the results of the
    datagram heard last, which has the id of the request sent last. *)
Definition call_done (hdr : list byte) (sendsz proc : Z) (xargs : ENC) (xresults : xdrproc) (k : nat) (w w' : World)
  (r : Z * option result) : Prop :=
  exists new, w_log w' = new ++ w_log w /\ Forall (is_call hdr sendsz proc xargs) (sends new) /\
    (length (sends new) <= k)%nat /\
    (r.1 = RPC_SUCCESS -> exists d q rest reply, new = Heard d :: rest /\ head (sends rest) = Some q /\
       xid_of d = xid_of q /\ decodes xresults d reply /\ r.2 = ar_results reply /\ is_Some r.2) /\
    (r.1 <> RPC_SUCCESS -> r.2 = None).

Lemma call_done_fails hdr sendsz proc xargs xresults k w w' new st : w_log w' = new ++ w_log w ->
  Forall (is_call hdr sendsz proc xargs) (sends new) -> (length (sends new) <= k)%nat -> st <> RPC_SUCCESS ->
  call_done hdr sendsz proc xargs xresults k w w' (st, None).
Proof. intros Hl Ha Hk Hst. exists new. done. Qed.

Lemma call_done_more hdr hdr2 sendsz proc xargs xresults k1 k2 w w1 w2 r new : zlen hdr2 = zlen hdr -> drop 4 hdr2 = drop 4 hdr ->
  w_log w1 = new ++ w_log w -> Forall (is_call hdr sendsz proc xargs) (sends new) -> (length (sends new) <= k1)%nat ->
  call_done hdr2 sendsz proc xargs xresults k2 w1 w2 r -> call_done hdr sendsz proc xargs xresults (k1 + k2) w w2 r.
Proof.
  intros Hz Hd Hl Ha Hk (new' & Hl' & Ha' & Hk' & Hs & Hf). exists (new' ++ new). rewrite sends_app, length_app.
  split; [by rewrite Hl', Hl, app_assoc|]. split.
  { apply Forall_app. split; [|done]. eapply Forall_impl; [exact Ha'|]. intros q. by apply is_call_hdr. }
  split; [lia|]. split; [|done]. intros HS. destruct (Hs HS) as (d & q & rest & reply & -> & Hh & Hrest).
  exists d, q, (rest ++ new), reply. split; [done|]. split; [|done]. rewrite sends_app. by destruct (sends rest).
Qed.

Lemma call_round_ok fuel proc xargs xresults timeout waited cl w scu l :
  mcu_ok (cl_cu cl) -> mcu_scu (cl_cu cl) = scu :: l -> scu_inuse scu = false ->
  time_ok timeout -> time_ok waited -> time_ok (mcu_wait (cl_cu cl)) -> 0 < usecs (mcu_wait (cl_cu cl)) ->
  (effort (mcu_wait (cl_cu cl)) timeout waited w + replies < fuel)%nat ->
  exists o, call_round xdr_dec fuel proc xargs xresults timeout waited cl w = Some o /\
  let k := (repeats (mcu_wait (cl_cu cl)) timeout waited + 1)%nat in
  match o with
  | inl (r, cl', w') => called 1 (scu_hdr scu) cl cl' /\
      call_done (scu_hdr scu) (mcu_sendsz (cl_cu cl)) proc xargs xresults k w w' r
  | inr (waited', cl', w') => called 1 (scu_hdr scu) cl cl' /\ status cl' <> RPC_SUCCESS /\ time_ok waited' /\
      usecs waited <= usecs waited' /\
      (effort (mcu_wait (cl_cu cl)) timeout waited' w' <= effort (mcu_wait (cl_cu cl)) timeout waited w + replies)%nat /\
      exists new, w_log w' = new ++ w_log w /\
        Forall (is_call (scu_hdr scu) (mcu_sendsz (cl_cu cl)) proc xargs) (sends new) /\ (length (sends new) <= k)%nat
  end.
Proof.
  intros Ho Hl Hu Ht Hwd Hw Hpos Hf. unfold call_round. rewrite Hl. cbn [lookup list_lookup mbind option_bind].
  destruct (called_put proc xargs scu l cl Ho Hl Hu) as (hdr & a & Hp & Hcd & Hc). rewrite Hp. cbn [scu_args set_packet scu_hdr].
  set (cl1 := store_scu 0 _ _) in *. destruct a as [args|].
  2:{ eexists. split; [done|]. split; [eapply called_error; [done|by eexists]|]. by apply (call_done_fails _ _ _ _ _ _ _ _ []); [|constructor|simpl; lia|]. }
  specialize (Hc args eq_refl). set (p := hdr ++ args) in *.
  assert (Hw1 : mcu_wait (cl_cu cl1) = mcu_wait (cl_cu cl)) by apply Hcd. rewrite <-Hw1 in *.
  destruct (call_send_ok fuel p timeout waited (cl_cu cl1) w Ht Hwd Hw Hpos Hf) as (r & wd & w1 & -> & Hwd1 & new & Hlog & Hall & Hn & Hr).
  cbn [mbind option_bind].
  assert (Hcalls : Forall (is_call (scu_hdr scu) (mcu_sendsz (cl_cu cl)) proc xargs) (sends new))
    by (eapply Forall_impl; [exact Hall|by intros ? <-]).
  destruct r as [[st errno]|d].
  - eexists. split; [done|]. unfold give_failed, give_errno, give.
    assert (Hst : st <> RPC_SUCCESS) by (simpl in Hr; intros ->; by destruct Hr as [?|[?|?]]).
    destruct errno; (split; [eapply called_error; [done|by eexists]|by eapply call_done_fails]).
  - destruct Hr as ((rest & -> & Hhead) & Hx & Heff & Hus).
    destruct (decode_reply_ok xresults d cl1 w1) as (reply & e & w2 & -> & Hl2 & Ha2 & Hrep). rewrite <-Hl2 in Hlog.
    assert (Hcd2 : called 1 (scu_hdr scu) cl (set_cu (set_error e (cl_cu cl1)) cl1)) by (eapply called_error; [done|by eexists]).
    destruct reply as [reply|].
    2:{ eexists. split; [done|]. split; [done|]. eapply call_done_fails; [done|done|done|]. change (re_status e <> RPC_SUCCESS). by rewrite Hrep. }
    change (status (set_cu _ _)) with (re_status e). destruct Hrep as [Hdec Hres].
    destruct (Z.eqb_spec (re_status e) RPC_SUCCESS) as [HS|HS].
    + destruct (validate_ok reply (set_cu (set_error e (cl_cu cl1)) cl1) HS) as (auth & e2 & -> & He2).
      eexists. split; [done|]. split; [eapply called_error; [done|by eexists]|].
      change (status (set_cu _ _)) with (re_status e2). destruct He2 as [-> | ->]; [|by eapply call_done_fails].
      exists (Heard d :: rest). split; [done|]. split; [done|]. split; [done|]. split; [|done]. intros _.
      exists d, p, rest, reply. split; [done|]. split; [done|]. split; [done|]. split; [done|]. split; [done|]. by apply Hres.
    + eexists. split; [done|]. split; [done|]. split; [done|]. split; [done|]. split; [done|].
      split; [unfold effort in *; lia|]. by exists (Heard d :: rest).
Qed.

Lemma call_again_ok n : forall fuel proc xargs xresults timeout waited cl w scu l,
  mcu_ok (cl_cu cl) -> mcu_scu (cl_cu cl) = scu :: l -> scu_inuse scu = false ->
  time_ok timeout -> time_ok waited -> time_ok (mcu_wait (cl_cu cl)) -> 0 < usecs (mcu_wait (cl_cu cl)) ->
  (effort (mcu_wait (cl_cu cl)) timeout waited w + replies * (n + 1) < fuel)%nat ->
  exists r cl' w', call_again xdr_dec n fuel proc xargs xresults timeout waited cl w = Some (r, cl', w') /\
    called (Z.of_nat n + 1) (scu_hdr scu) cl cl' /\
    call_done (scu_hdr scu) (mcu_sendsz (cl_cu cl)) proc xargs xresults
      ((n + 1) * (repeats (mcu_wait (cl_cu cl)) timeout waited + 1)) w w' r.
Proof.
  induction n as [|n IH]; intros fuel proc xargs xresults timeout waited cl w scu l Ho Hl Hu Ht Hwd Hw Hpos Hf; cbn [call_again];
    (destruct (call_round_ok fuel proc xargs xresults timeout waited cl w scu l Ho Hl Hu Ht Hwd Hw Hpos) as (o & -> & Hr); [lia|]);
    cbn [mbind option_bind]; destruct o as [[[r cl1] w1]|[[wd cl1] w1]].
  - destruct Hr as [Hcd Hd]. eexists _, _, _. split; [done|]. split; [done|].
    by replace ((0 + 1) * _)%nat with (repeats (mcu_wait (cl_cu cl)) timeout waited + 1)%nat by lia.
  - destruct Hr as (Hcd & Hst & _ & _ & _ & new & Hlog & Hall & Hn). eexists _, _, _. split; [done|]. split; [done|].
    eapply call_done_fails; [done|done|lia|done].
  - destruct Hr as [Hcd (new & ? & ? & ? & ?)]. eexists _, _, _. split; [done|]. split; [by eapply called_mono; [|done]; lia|].
    exists new. repeat (split; [done || lia|]). done.
  - destruct Hr as (Hcd & Hst & Hwd1 & Hus & Heff & new & Hlog & Hall & Hn).
    assert (Hcd' : forall auth, called 1 (scu_hdr scu) cl (set_auth auth cl1)) by (intros auth; by destruct Hcd).
    destruct (auth_refresh (cl_auth cl1)) as [ok auth].
    destruct ok.
    + specialize (Hcd' auth). pose proof Hcd' as [Ho1 _ _ Hw1 _ Hz1 (s1 & l1 & Hl1 & Hu1 & Hz & Hd)].
      rewrite <-Hw1 in *. destruct (IH fuel proc xargs xresults timeout wd (set_auth auth cl1) w1 s1 l1) as (r & cl2 & w2 & -> & Hcd2 & Hdone);
        try done. { lia. }
      eexists _, _, _. split; [done|]. split.
      { replace (Z.of_nat (Datatypes.S n) + 1) with (1 + (Z.of_nat n + 1)) by lia. by eapply called_trans; [lia|..]. }
      rewrite Hz1 in Hdone. replace ((Datatypes.S n + 1) * (repeats (mcu_wait (cl_cu (set_auth auth cl1))) timeout waited + 1))%nat
        with ((repeats (mcu_wait (cl_cu (set_auth auth cl1))) timeout waited + 1) +
              (n + 1) * (repeats (mcu_wait (cl_cu (set_auth auth cl1))) timeout waited + 1))%nat by lia.
      eapply call_done_more; [done|done|done|done|done|]. destruct Hdone as (new2 & ? & ? & Hn2 & ?). exists new2.
      split; [done|]. split; [done|]. split; [|done]. etrans; [exact Hn2|]. apply Nat.mul_le_mono_l, Nat.add_le_mono_r.
      by apply repeats_anti.
    + eexists _, _, _. split; [done|]. split; [eapply called_mono; [|apply Hcd']; lia|].
      eapply call_done_fails; [done|done|lia|done].
Qed.

(** ** Requests sent together *)

(** What sending and waiting leave alone. *)
Record held cl cl' : Prop := {
  kp_ok : mcu_ok (cl_cu cl');
  kp_num : mcu_numscu (cl_cu cl') = mcu_numscu (cl_cu cl);
  kp_wait : mcu_wait (cl_cu cl') = mcu_wait (cl_cu cl);
  kp_total : mcu_total (cl_cu cl') = mcu_total (cl_cu cl);
  kp_cb : mcu_cb (cl_cu cl') = mcu_cb (cl_cu cl);
  kp_sendsz : mcu_sendsz (cl_cu cl') = mcu_sendsz (cl_cu cl)
}.
Lemma held_refl cl : mcu_ok (cl_cu cl) -> held cl cl.
Proof. by constructor. Qed.
Lemma held_trans cl1 cl2 cl3 : held cl1 cl2 -> held cl2 cl3 -> held cl1 cl3.
Proof. intros [? ? ? ? ? ?] [? ? ? ? ? ?]. constructor; congruence. Qed.
Lemma held_error cl cl' cl2 : held cl cl' -> (exists e, cl_cu cl2 = set_error e (cl_cu cl')) -> held cl cl2.
Proof. intros [Ho Hn Hw Ht Hc Hz] [e He]. constructor; rewrite ?He; try done. by apply mcu_ok_error. Qed.

(** A slot that is not in use has got other contents. *)
Lemma held_store l1 s s' l2 cl (x : option xdrproc) xid : mcu_ok (cl_cu cl) -> mcu_scu (cl_cu cl) = l1 ++ s :: l2 ->
  request s = None -> request s' = None -> slot_ok s' -> 0 <= xid < 2 ^ 32 ->
  (under_way (l1 ++ s :: l2) <> [] -> is_Some x) ->
  forall cu', cu' = MkMcu (mcu_numscu (cl_cu cl)) (mcu_numfreescu (cl_cu cl)) xid (l1 ++ s' :: l2) (mcu_cb (cl_cu cl)) (mcu_wait (cl_cu cl))
    (mcu_total (cl_cu cl)) (mcu_error (cl_cu cl)) x (mcu_sendsz (cl_cu cl)) (mcu_recvsz (cl_cu cl)) (mcu_raddr (cl_cu cl)) ->
  mcu_ok cu' /\ under_way (mcu_scu cu') = under_way (mcu_scu (cl_cu cl)).
Proof.
  intros [Hn Hm Hf Hx Hs Hi Hr] Hl Hrq Hrq' Hs' Hxid Hxr cu' ->. rewrite Hl in *. simpl.
  assert (Hu : under_way (l1 ++ s' :: l2) = under_way (l1 ++ s :: l2)) by (by rewrite !under_way_app, !under_way_cons, Hrq, Hrq').
  assert (Hz : zlen (l1 ++ s' :: l2) = zlen (l1 ++ s :: l2)) by (unfold zlen; by rewrite !length_app).
  split; [|done]. constructor; simpl; rewrite ?Hu, ?Hz; try done.
  apply Forall_app in Hs as [Hs1 Hs2]. apply Forall_cons in Hs2 as [_ Hs2]. apply Forall_app. split; [done|by constructor].
Qed.

(** A packet that is sent when a request is repeated: what is in its buffer. *)
Definition resend cl (q : list byte) : Prop :=
  exists s args, s ∈ mcu_scu (cl_cu cl) /\ scu_inuse s = true /\ scu_args s = Some args /\ q = scu_hdr s ++ args.

(** A request is sent and is under way, or it is not and nothing is. *)
Definition sent cl (proc : Z) (xargs : ENC) (resultsp userdata : Z) (block : option (list byte)) w (st : Z) cl' w' : Prop :=
  let xid := next_xid (mcu_xid (cl_cu cl)) in
  held cl cl' /\ (forall k, young k (cl_cu cl) -> 0 <= k < 2 ^ 16 -> young (k + 1) (cl_cu cl')) /\
  ((st = RPC_TIMEDOUT /\ outstanding (cl_cu cl) !! xid = None /\
    outstanding (cl_cu cl') = <[xid := (resultsp, userdata)]> (outstanding (cl_cu cl)) /\
    exists s q, s ∈ mcu_scu (cl_cu cl) /\ scu_inuse s = false /\ w_log w' = Sent (q ++ default [] block) :: w_log w /\
      is_call (scu_hdr s) (mcu_sendsz (cl_cu cl)) proc xargs q /\ xid_of q = xid /\
      (forall p, resend cl' p -> resend cl p \/ p = q)) \/
   (st <> RPC_TIMEDOUT /\ outstanding (cl_cu cl') = outstanding (cl_cu cl))).

Lemma young_mono (cu cu' : mcu_data xdrproc) k k' : k <= k' -> mcu_xid cu' = mcu_xid cu ->
  under_way (mcu_scu cu') = under_way (mcu_scu cu) -> young k cu -> young k' cu'.
Proof. unfold young. intros Hk -> -> Hy. eapply Forall_impl; [exact Hy|]. simpl. lia. Qed.

Lemma sent_fails cl proc xargs resultsp userdata block w st cl' w' : held cl cl' ->
  under_way (mcu_scu (cl_cu cl')) = under_way (mcu_scu (cl_cu cl)) ->
  mcu_xid (cl_cu cl') = mcu_xid (cl_cu cl) \/ mcu_xid (cl_cu cl') = next_xid (mcu_xid (cl_cu cl)) ->
  st <> RPC_TIMEDOUT -> sent cl proc xargs resultsp userdata block w st cl' w'.
Proof.
  intros Hk Hu Hx Hst. split; [done|]. split.
  - intros k Hy Hkk. destruct Hx as [Hx|Hx]; [by eapply young_mono; [| | |exact Hy]; [lia|..]|].
    eapply young_mono; [| | |apply young_next; [exact Hy|lia]]; [lia|done|done].
  - right. split; [done|]. unfold outstanding. by rewrite Hu.
Qed.

(** The request is under way. *)
Lemma held_under_way l1 s l2 cl xid (x : xdrproc) n : mcu_ok (cl_cu cl) -> mcu_scu (cl_cu cl) = l1 ++ s :: l2 -> scu_inuse s = false ->
  xid = next_xid (mcu_xid (cl_cu cl)) -> young (2 ^ 16 - 1) (cl_cu cl) ->
  forall s', scu_inuse s' = true -> xid_of (scu_hdr s') = xid -> slot_ok s' ->
  n = mcu_numfreescu (cl_cu cl) - 1 ->
  forall cu', cu' = MkMcu (mcu_numscu (cl_cu cl)) n xid (l1 ++ s' :: l2) (mcu_cb (cl_cu cl)) (mcu_wait (cl_cu cl))
    (mcu_total (cl_cu cl)) (mcu_error (cl_cu cl)) (Some x) (mcu_sendsz (cl_cu cl)) (mcu_recvsz (cl_cu cl)) (mcu_raddr (cl_cu cl)) ->
  mcu_ok cu' /\ outstanding (cl_cu cl) !! xid = None /\
  outstanding cu' = <[xid := (scu_resultsp s', scu_userdata s')]> (outstanding (cl_cu cl)) /\
  (forall k, young k (cl_cu cl) -> 0 <= k < 2 ^ 16 -> young (k + 1) cu').
Proof.
  intros [Hn Hm Hf Hx Hs Hi Hr] Hl Hu Hxid Hy s' Hu' Hid Hs' -> cu' ->. unfold outstanding, young in *. rewrite Hl in *. simpl.
  assert (Hrq : request s = None) by (unfold request; by rewrite Hu).
  assert (Hrq' : request s' = Some (xid, (scu_resultsp s', scu_userdata s'))) by (unfold request; by rewrite Hu', Hid).
  assert (Hfresh : xid ∉ (under_way (l1 ++ s :: l2)).*1).
  { intros ((y & v) & -> & Hin)%list_elem_of_fmap. rewrite Forall_forall in Hy. specialize (Hy _ Hin). simpl in *.
    by eapply next_xid_fresh. }
  destruct (outstanding_new l1 l2 s s' _ Hrq Hrq' Hfresh Hi) as [Hd Hmap].
  pose proof (next_xid_range _ Hx) as Hxr.
  split; [|split; [by apply not_elem_of_list_to_map_1|split; [done|]]].
  - constructor; simpl; try done.
    + unfold zlen in *. rewrite !length_app in *. done.
    + unfold zlen in *. rewrite !length_app in *. done.
    + rewrite Hf. rewrite !under_way_app, !under_way_cons, Hrq, Hrq'. unfold zlen. rewrite !length_app. simpl. lia.
    + by rewrite Hxid.
    + apply Forall_app in Hs as [Hs1 Hs2]. apply Forall_cons in Hs2 as [_ Hs2]. apply Forall_app. split; [done|by constructor].
  - intros k Hk Hkk. rewrite under_way_app, under_way_cons, Hrq in Hk. rewrite under_way_app, under_way_cons, Hrq'.
    apply Forall_app in Hk as [Hk1 Hk2]. subst xid.
    assert (Himp : forall l, Forall (fun r : Z * (Z * Z) => age (mcu_xid (cl_cu cl)) r.1 < k) l ->
      Forall (fun r : Z * (Z * Z) => age (next_xid (mcu_xid (cl_cu cl))) r.1 < k + 1) l).
    { intros l Hall. eapply Forall_impl; [exact Hall|]. intros r Hr1. simpl in *. rewrite age_next; lia. }
    apply Forall_app. split; [by apply Himp|]. simpl. constructor; [simpl; rewrite age_refl; lia|by apply Himp].
Qed.

(** The packets of the slots after one is stored. *)
Lemma packets_stored l1 s s2 l2 args cl cl' p : mcu_scu (cl_cu cl) = l1 ++ s :: l2 ->
  mcu_scu (cl_cu cl') = l1 ++ s2 :: l2 -> scu_args s2 = Some args -> resend cl' p ->
  resend cl p \/ p = scu_hdr s2 ++ args.
Proof.
  intros Hl Hl' Ha (s3 & a3 & Hin & Hu3 & Ha3 & ->). rewrite Hl', elem_of_app, elem_of_cons in Hin. destruct Hin as [Hin|[->|Hin]].
  - left. exists s3, a3. split; [rewrite Hl; apply elem_of_app; by left|done].
  - right. rewrite Ha in Ha3. by injection Ha3 as <-.
  - left. exists s3, a3. split; [rewrite Hl; apply elem_of_app; right; by right|done].
Qed.

Lemma clntaudp_sendsb_ok cl proc xargs xresults resultsp userdata block w : mcu_ok (cl_cu cl) -> young (2 ^ 16 - 1) (cl_cu cl) ->
  exists st cl' w', clntaudp_sendsb cl proc xargs xresults resultsp userdata block w = ((st, @None result), cl', w') /\
    sent cl proc xargs resultsp userdata block w st cl' w'.
Proof.
  intros Ho Hy. assert (Hgive : forall st, st <> RPC_TIMEDOUT -> exists st' cl' w', give (result := result) st cl w = ((st', None), cl', w') /\
    sent cl proc xargs resultsp userdata block w st' cl' w').
  { intros st Hst. eexists _, _, _. split; [done|]. apply sent_fails; [by eapply held_error; [apply held_refl|by eexists]|done|by left|done]. }
  unfold clntaudp_sendsb. destruct (Z.eqb_spec (mcu_numfreescu (cl_cu cl)) 0) as [Hz|Hz]; [by apply Hgive|].
  pose proof (find_slot_ok (fun scu => negb (scu_inuse scu)) (mcu_scu (cl_cu cl))) as Hfs.
  destruct (find_slot _ _) as [[i s]|]; [|by apply Hgive]. destruct Hfs as (Hu & l1 & l2 & Hl & <-). apply negb_true_iff in Hu.
  set (cl0 := if mcu_numfreescu (cl_cu cl) =? mcu_numscu (cl_cu cl) then _ else cl).
  destruct (bool_decide (mcu_xresults (cl_cu cl0) = Some xresults)) eqn:Eb; cbn [negb].
  2:{ unfold cl0 in *. destruct (_ =? _); [by rewrite bool_decide_eq_true_2 in Eb|by apply Hgive]. }
  apply bool_decide_eq_true in Eb.
  assert (Hcl0 : cl_auth cl0 = cl_auth cl /\ cl_cu cl0 = set_xresults xresults (cl_cu cl)).
  { unfold cl0 in *. destruct (_ =? _); [done|]. split; [done|]. destruct (cl_cu cl). simpl in *. by rewrite Eb. }
  assert (Ho0 : mcu_ok (cl_cu cl0)) by (destruct Hcl0 as [_ ->]; by destruct Ho).
  pose proof (mo_slots _ Ho) as Hsl. rewrite Hl in Hsl. apply Forall_app in Hsl as [_ Hsl]. apply Forall_cons in Hsl as [Hs _].
  destruct (put_request_ok proc xargs (set_send resultsp userdata s) cl0 Ho0) as (hdr & a & Hp & Hx & Hzl & Hd & Hc & Hxa).
  { destruct Hs as [Hs _]. split; [done|]. split; [done|]. simpl. by rewrite Hu. }
  rewrite Hp. cbn [scu_args set_packet]. set (s1 := set_packet hdr a (set_send resultsp userdata s)).
  set (xid := next_xid (mcu_xid (cl_cu cl0))) in *. assert (Exid : xid = next_xid (mcu_xid (cl_cu cl))) by (unfold xid; by destruct Hcl0 as [_ ->]).
  assert (Hzs : mcu_sendsz (cl_cu cl0) = mcu_sendsz (cl_cu cl)) by (by destruct Hcl0 as [_ ->]).
  set (cl1 := store_scu (length l1) s1 (set_cu (set_xid xid (cl_cu cl0)) cl0)).
  assert (Hrq : request s = None /\ request s1 = None) by (unfold request; simpl; by rewrite Hu). destruct Hrq as [Hrq Hrq1].
  assert (E1 : cl_cu cl1 = MkMcu (mcu_numscu (cl_cu cl)) (mcu_numfreescu (cl_cu cl)) xid (l1 ++ s1 :: l2) (mcu_cb (cl_cu cl)) (mcu_wait (cl_cu cl))
    (mcu_total (cl_cu cl)) (mcu_error (cl_cu cl)) (Some xresults) (mcu_sendsz (cl_cu cl)) (mcu_recvsz (cl_cu cl)) (mcu_raddr (cl_cu cl))).
  { unfold cl1. simpl. destruct Hcl0 as [_ ->]. simpl. by rewrite Hl, insert_slot. }
  clearbody cl1.
  assert (Hs1 : 4 <= zlen hdr) by (destruct Hs as [Hs _]; by rewrite Hzl).
  destruct (held_store l1 s s1 l2 cl (Some xresults) xid Ho Hl Hrq Hrq1) with (cu' := cl_cu cl1) as [Ho1 Hu1]; try done.
  { split; [done|]. split; [done|]. simpl. by rewrite Hu. }
  { rewrite Exid. apply next_xid_range, Ho. }
  assert (Hk1 : held cl cl1) by (constructor; [done|by rewrite E1..]).
  assert (Hfail : forall st cl2 w', st <> RPC_TIMEDOUT -> (exists e, cl_cu cl2 = set_error e (cl_cu cl1)) ->
    sent cl proc xargs resultsp userdata block w st cl2 w').
  { intros st cl2 w' Hst [e He]. apply sent_fails; [by eapply held_error; [|by eexists]|by rewrite He| |done].
    right. rewrite He. simpl. by rewrite E1. }
  destruct a as [args|]; [|eexists _, _, _; split; [done|]; by apply Hfail; [|by eexists]].
  change (scu_hdr s1) with hdr. destruct (send_all_ok (hdr ++ args ++ default [] block) w) as (f & w' & -> & Hlog & _).
  destruct f as [errno|]; [eexists _, _, _; split; [done|]; by apply Hfail; [|by eexists]|].
  eexists _, _, _. split; [done|].
  assert (Hnf : u32 (mcu_numfreescu (cl_cu cl) - 1) = mcu_numfreescu (cl_cu cl) - 1).
  { apply u32_id. pose proof (mo_free _ Ho) as Hf. pose proof (mo_max _ Ho) as Hm. rewrite Hl in Hf, Hm.
    pose proof (under_way_lt l1 s l2 Hrq). pose proof (zlen_nonneg (under_way (l1 ++ s :: l2))). unfold MAXASYNC in Hm. lia. }
  set (s2 := set_inuse true s1).
  match goal with |- sent _ _ _ _ _ _ _ _ ?c _ => set (cl2 := c) end.
  assert (Hs2 : slot_ok s2) by (split; [done|split; [done|by eexists]]).
  assert (E2 : set_error (mcu_error (cl_cu cl)) (cl_cu cl2) = MkMcu (mcu_numscu (cl_cu cl)) (mcu_numfreescu (cl_cu cl) - 1) xid
    (l1 ++ s2 :: l2) (mcu_cb (cl_cu cl)) (mcu_wait (cl_cu cl)) (mcu_total (cl_cu cl)) (mcu_error (cl_cu cl)) (Some xresults)
    (mcu_sendsz (cl_cu cl)) (mcu_recvsz (cl_cu cl)) (mcu_raddr (cl_cu cl))).
  { unfold cl2. simpl. rewrite E1. simpl. by rewrite Hnf, insert_slot. }
  destruct (held_under_way l1 s l2 cl xid xresults _ Ho Hl Hu Exid Hy s2 eq_refl Hx Hs2 eq_refl _ E2) as (Ho2 & Hn2 & Hm2 & Hy2).
  split; [constructor; [by apply (mcu_ok_error (mcu_error (cl_cu cl2))) in Ho2; destruct (cl_cu cl2) as [? ? ? ? ? ? ? [] ? ? ? ?]| | | | |]; unfold cl2; simpl; by rewrite E1|].
  split; [exact Hy2|]. left. rewrite <-Exid. split; [done|]. split; [done|]. split; [done|].
  exists s, (hdr ++ args). split; [rewrite Hl; apply elem_of_app; right; left|]. split; [done|].
  split; [by rewrite Hlog, <-app_assoc|]. rewrite <-Hzs. split; [by apply Hc|]. split; [by rewrite Hxa|].
  intros p Hrs. eapply (packets_stored l1 s s2 l2); [exact Hl| |done|exact Hrs].
  apply (f_equal mcu_scu) in E2. simpl in E2. by rewrite <-E2.
Qed.

(** ** clntaudp_wait *)

(** How often the requests under way are repeated at most. *)
Definition slot_repeats (wait timeout : timeval) (s : scu_data) : nat :=
  if scu_inuse s then repeats wait timeout (scu_time_waited s) else 0.
Definition all_repeats (wait timeout : timeval) (l : list scu_data) : nat := sum_list_with (slot_repeats wait timeout) l.

Lemma timed_out_ok wait timeout l w : time_ok wait -> time_ok timeout -> 0 < usecs wait -> times_ok l ->
  exists l' r, timed_out false wait timeout l w = (l', r, w) /\ same_reqs l l' /\ times_ok l' /\
  match r with
  | Some s => s ∈ l' /\ scu_inuse s = true /\ (all_repeats wait timeout l' < all_repeats wait timeout l)%nat
  | None => True
  end.
Proof.
  intros Hw Ht Hpos. unfold times_ok, all_repeats. induction l as [|s l IH]; intros Hl; [by exists [], None|].
  apply Forall_cons in Hl as [Hs Hl]. destruct (IH Hl) as (l' & r & E & Hsame & Hl' & Hr). cbn [timed_out]. rewrite E.
  destruct (scu_inuse s) eqn:Eu.
  2:{ exists (s :: l'), r. split; [done|]. split; [constructor; [by destruct s|done]|]. split; [by constructor|].
      destruct r as [s'|]; [|done]. destruct Hr as (Hin & Hu & Hlt). split; [by right|]. split; [done|]. simpl. lia. }
  set (s1 := set_waited (add_timeval (scu_time_waited s) wait) s).
  destruct (usecs_add (scu_time_waited s) wait Hs Hw) as [Eus Hok]. change (scu_time_waited s1) with (add_timeval (scu_time_waited s) wait).
  rewrite less_ok by done. destruct (Z.ltb_spec (usecs (add_timeval (scu_time_waited s) wait)) (usecs timeout)) as [Hlt|Hge].
  - exists (s1 :: l), (Some s1). split; [done|]. split; [constructor; [by destruct s|reflexivity]|]. split; [by constructor|].
    split; [left|]. split; [done|]. simpl. unfold slot_repeats at 1 3. simpl. rewrite Eu.
    rewrite (repeats_step wait timeout (scu_time_waited s) Hpos ltac:(lia) _ Eus). lia.
  - exists (s1 :: l'), r. split; [done|]. split; [constructor; [by destruct s|done]|]. split; [by constructor|].
    destruct r as [s'|]; [|done]. destruct Hr as (Hin & Hu & Hlt). split; [by right|]. split; [done|]. simpl.
    unfold slot_repeats at 1 3. simpl. rewrite Eu. pose proof (repeats_anti wait timeout _ _ Hpos (ltac:(lia) : usecs (scu_time_waited s) <= usecs (add_timeval (scu_time_waited s) wait))). lia.
Qed.

Lemma same_reqs_in l l' s' : same_reqs l l' -> s' ∈ l' -> exists s, s ∈ l /\ s' = set_waited (scu_time_waited s') s.
Proof.
  intros Hs Hin. apply list_elem_of_lookup in Hin as [i Hi]. destruct (Forall2_lookup_r _ _ _ _ _ Hs Hi) as (s & Hsi & E).
  exists s. split; [by eapply list_elem_of_lookup_2|done].
Qed.
Lemma existsb_find p l : existsb p l = true -> exists i s, find_slot p l = Some (i, s) /\ p s = true /\ l !! i = Some s.
Proof.
  intros Hex. pose proof (find_slot_ok p l) as Hf. destruct (find_slot p l) as [[i s]|].
  - destruct Hf as (Hp & l1 & l2 & -> & <-). exists (length l1), s. split; [done|]. split; [done|]. by apply list_lookup_middle.
  - apply existsb_exists in Hex as (s & Hin & Hp). rewrite Forall_forall in Hf. apply list_elem_of_In in Hin. by rewrite Hf in Hp.
Qed.

Lemma wait_recv_ok fuel timeout : forall cl w, mcu_ok (cl_cu cl) -> mcu_cb (cl_cu cl) = false ->
  time_ok timeout -> time_ok (mcu_wait (cl_cu cl)) -> 0 < usecs (mcu_wait (cl_cu cl)) -> times_ok (mcu_scu (cl_cu cl)) ->
  (arr w + (replies + 1) * all_repeats (mcu_wait (cl_cu cl)) timeout (mcu_scu (cl_cu cl)) < fuel)%nat ->
  exists r l' w', wait_recv fuel timeout cl w = Some (r, set_cu (set_scus l' (cl_cu cl)) cl, w') /\
    same_reqs (mcu_scu (cl_cu cl)) l' /\ times_ok l' /\
    exists new, w_log w' = new ++ w_log w /\ Forall (resend cl) (sends new) /\
      (length (sends new) <= all_repeats (mcu_wait (cl_cu cl)) timeout (mcu_scu (cl_cu cl)))%nat /\
      match r with
      | inl st => st.1 = RPC_CANTSEND \/ st.1 = RPC_TIMEDOUT \/ st.1 = RPC_CANTRECV
      | inr (i, s, d) => head new = Some (Heard d) /\ l' !! i = Some s /\ is_reply (xid_of d) s = true
      end.
Proof.
  induction fuel as [|fuel IH]; intros cl w Ho Hcb Ht Hw Hpos Hts Hf; [lia|]. cbn [wait_recv].
  destruct (recv_turn_ok (fun xid => existsb (is_reply xid) (mcu_scu (cl_cu cl))) (cl_cu cl) w) as (t & w1 & -> & new & Hl & Hs & Hcase).
  assert (Hall : Forall (resend cl) (sends new) /\ length (sends new) = 0%nat) by (by rewrite Hs). destruct Hall as [Hall Hlen].
  assert (Hid : set_cu (set_scus (mcu_scu (cl_cu cl)) (cl_cu cl)) cl = cl) by (by destruct cl as [? [] ? ?]).
  destruct t as [|e| |d].
  - rewrite Hcb. destruct (timed_out_ok (mcu_wait (cl_cu cl)) timeout (mcu_scu (cl_cu cl)) w1 Hw Ht Hpos Hts) as (l1 & r & -> & Hsame & Hts1 & Hr).
    destruct r as [s|].
    2:{ eexists _, l1, _. split; [done|]. split; [done|]. split; [done|]. exists new. repeat (split; [done || lia|]). tauto. }
    destruct Hr as (Hin & Hu & Hlt). set (cl1 := set_cu (set_scus l1 (cl_cu cl)) cl).
    assert (Ho1 : mcu_ok (cl_cu cl1)) by (by apply mcu_ok_same).
    pose proof (mo_slots _ Ho1) as Hsl. rewrite Forall_forall in Hsl. destruct (Hsl _ Hin) as (_ & _ & [args Ha]); [done|].
    rewrite Ha. cbn [mbind option_bind]. destruct (send_all_ok (scu_hdr s ++ args) w1) as (f & w2 & -> & Hl2 & Ha2).
    assert (Hres : Forall (resend cl) (sends (Sent (scu_hdr s ++ args) :: new))).
    { constructor; [|done]. destruct (same_reqs_in _ _ _ Hsame Hin) as (s0 & Hin0 & E). rewrite E in Hu, Ha |- *.
      by exists s0, args. }
    destruct f as [errno|].
    + eexists _, l1, _. split; [done|]. split; [done|]. split; [done|]. exists (Sent (scu_hdr s ++ args) :: new).
      split; [by rewrite Hl2, Hl|]. split; [done|]. split; [simpl; rewrite Hs; simpl; lia|]. by left.
    + destruct (IH cl1 w2 Ho1 Hcb Ht Hw Hpos Hts1) as (r & l2 & w3 & -> & Hsame2 & Hts2 & new2 & Hl3 & Hall2 & Hn2 & Hr2).
      { pose proof (Nat.mul_le_mono_l _ _ (replies + 1) Hlt). simpl in *. lia. }
      exists r, l2, w3. split; [done|]. split; [by etrans|]. split; [done|]. exists (new2 ++ Sent (scu_hdr s ++ args) :: new).
      rewrite sends_app, length_app. split; [by rewrite Hl3, Hl2, Hl, <-app_assoc|]. split.
      { apply Forall_app. split; [|done]. eapply Forall_impl; [exact Hall2|]. intros q (s0 & a0 & Hin0 & Hu0 & Ha0 & ->).
        simpl in Hin0. destruct (same_reqs_in _ _ _ Hsame Hin0) as (s3 & Hin3 & E). rewrite E in Hu0, Ha0 |- *. by exists s3, a0. }
      split; [simpl in *; rewrite Hs; simpl; lia|]. destruct r as [st|[[i s3] d]]; [done|]. destruct Hr2 as (Hh & Hrest).
      split; [by destruct new2|done].
  - eexists _, _, _. split; [by rewrite Hid|]. split; [done|]. split; [done|]. exists new. repeat (split; [done || lia|]). tauto.
  - destruct (IH cl w1 Ho Hcb Ht Hw Hpos Hts) as (r & l2 & w3 & -> & Hsame2 & Hts2 & new2 & Hl3 & Hall2 & Hn2 & Hr2); [lia|].
    exists r, l2, w3. split; [done|]. split; [done|]. split; [done|]. exists (new2 ++ new).
    rewrite sends_app, length_app, Hs. split; [by rewrite Hl3, Hl, <-app_assoc|]. split; [by rewrite app_nil_r|].
    split; [simpl; lia|]. destruct r as [st|[[i s3] d]]; [done|]. destruct Hr2 as (Hh & Hrest). split; [by destruct new2|done].
  - destruct Hcase as (-> & Hx & Ha). destruct (existsb_find _ _ Hx) as (i & s & -> & Hp & Hi). cbn [mbind option_bind].
    eexists _, _, _. split; [by rewrite Hid|]. split; [done|]. split; [done|]. exists [Heard d].
    split; [done|]. split; [done|]. split; [simpl; lia|]. done.
Qed.

Lemma free_slot_ok cl l i s cl0 : mcu_ok (cl_cu cl) -> same_reqs (mcu_scu (cl_cu cl)) l -> times_ok l ->
  l !! i = Some s -> scu_inuse s = true ->
  (exists e, cl_cu cl0 = set_error e (set_scus l (cl_cu cl))) ->
  forall cl', cl' = free_slot i s cl0 ->
  held cl cl' /\ mcu_xid (cl_cu cl') = mcu_xid (cl_cu cl) /\
  outstanding (cl_cu cl) !! xid_of (scu_hdr s) = Some (scu_resultsp s, scu_userdata s) /\
  outstanding (cl_cu cl') = delete (xid_of (scu_hdr s)) (outstanding (cl_cu cl)) /\
  (forall k, young k (cl_cu cl) -> young k (cl_cu cl')).
Proof.
  intros Ho Hsame Hts Hi Hu [e He] cl' Ecl. pose proof (mcu_ok_same l _ Hsame Hts Ho) as Ho1.
  destruct (same_reqs_request _ _ Hsame) as (Hun & Hlen & _).
  apply list_elem_of_split_length in Hi as (l1 & l2 & -> & ->).
  assert (Hrq : request s = Some (xid_of (scu_hdr s), (scu_resultsp s, scu_userdata s))) by (unfold request; by rewrite Hu).
  destruct (outstanding_del l1 l2 s (set_inuse false s) _ Hrq eq_refl (mo_ids _ Ho1)) as (Hnd & Hlk & Hdel).
  assert (E : mcu_scu (cl_cu cl') = l1 ++ set_inuse false s :: l2) by (rewrite Ecl; unfold free_slot; simpl; rewrite He; simpl; by rewrite insert_slot).
  assert (Ux : under_way (l1 ++ s :: l2) = under_way l1 ++ (xid_of (scu_hdr s), (scu_resultsp s, scu_userdata s)) :: under_way l2 /\
    under_way (l1 ++ set_inuse false s :: l2) = under_way l1 ++ under_way l2) by (rewrite !under_way_app, !under_way_cons, Hrq; done).
  destruct Ux as [U1 U2].
  destruct Ho1 as [Hn Hm Hf Hx Hs _ Hr]. simpl in *.
  assert (Hnf : mcu_numfreescu (cl_cu cl') = mcu_numfreescu (cl_cu cl) + 1).
  { rewrite Ecl. unfold free_slot. simpl. rewrite He. simpl. apply u32_id. pose proof (under_way_le (l1 ++ s :: l2)) as Hle.
    rewrite U1 in Hf, Hle. unfold MAXASYNC, zlen in *. rewrite !length_app in *. simpl in *. lia. }
  assert (E' : cl_cu cl' = MkMcu (mcu_numscu (cl_cu cl)) (mcu_numfreescu (cl_cu cl) + 1) (mcu_xid (cl_cu cl))
    (l1 ++ set_inuse false s :: l2) (mcu_cb (cl_cu cl)) (mcu_wait (cl_cu cl)) (mcu_total (cl_cu cl)) e (mcu_xresults (cl_cu cl))
    (mcu_sendsz (cl_cu cl)) (mcu_recvsz (cl_cu cl)) (mcu_raddr (cl_cu cl))).
  { rewrite <-E, <-Hnf, Ecl. unfold free_slot. simpl. by rewrite He. }
  clear Ecl. split; [constructor; [|by rewrite E'..]|split; [by rewrite E'|]].
  - rewrite E'. constructor; simpl; try done.
    + unfold zlen in *. rewrite !length_app in *. done.
    + unfold zlen in *. rewrite !length_app in *. done.
    + rewrite Hf, U1, U2. unfold zlen. rewrite !length_app. simpl. lia.
    + apply Forall_app in Hs as [Hs1 Hs2]. apply Forall_cons in Hs2 as [(Hs3 & Ht3 & _) Hs2]. apply Forall_app. split; [done|].
      constructor; [|done]. by split_and!.
    + intros _. apply Hr. rewrite U1. by destruct (under_way l1).
  - unfold outstanding, young. rewrite E', <-Hun. simpl. split; [done|]. split; [done|].
    intros k. rewrite U1, U2, !Forall_app, Forall_cons. tauto.
Qed.

(** What waiting for one reply told, [new] being the events.  No reply: all
    requests stay under way.  The reply heard last belongs to the request with
    its id, whose pointers are handed to the caller and which is not under way
    any longer, unless its credentials were refreshed. *)
Inductive wait_result cl (new : list event) : Z * option result -> CLIENT -> Prop :=
  | wait_none st cl' : st = RPC_CANTSEND \/ st = RPC_TIMEDOUT \/ st = RPC_CANTRECV ->
      outstanding (cl_cu cl') = outstanding (cl_cu cl) -> wait_result cl new (st, None) cl'
  | wait_refreshed d cl' : head new = Some (Heard d) ->
      outstanding (cl_cu cl) !! xid_of d = Some (cla_resp cl', cla_userdata cl') ->
      outstanding (cl_cu cl') = outstanding (cl_cu cl) -> wait_result cl new (RPC_CANTENCODEARGS, None) cl'
  | wait_reply d st res cl' : head new = Some (Heard d) ->
      outstanding (cl_cu cl) !! xid_of d = Some (cla_resp cl', cla_userdata cl') ->
      outstanding (cl_cu cl') = delete (xid_of d) (outstanding (cl_cu cl)) ->
      (st = RPC_SUCCESS -> exists xresults reply, mcu_xresults (cl_cu cl) = Some xresults /\ decodes xresults d reply /\
         res = ar_results reply /\ is_Some res) ->
      (st <> RPC_SUCCESS -> res = None) -> wait_result cl new (st, res) cl'.

Definition waited cl (timeout : timeval) w (r : Z * option result) cl' w' : Prop :=
  held cl cl' /\ mcu_xid (cl_cu cl') = mcu_xid (cl_cu cl) /\ (forall k, young k (cl_cu cl) -> young k (cl_cu cl')) /\
  exists new, w_log w' = new ++ w_log w /\ Forall (resend cl) (sends new) /\
    (length (sends new) <= all_repeats (mcu_wait (cl_cu cl)) timeout (mcu_scu (cl_cu cl)))%nat /\ wait_result cl new r cl'.

(** Slots whose times and counts of refreshes differ only. *)
Lemma same_waited cl l cl' : mcu_ok (cl_cu cl) -> same_reqs (mcu_scu (cl_cu cl)) l -> times_ok l ->
  (exists e, cl_cu cl' = set_error e (set_scus l (cl_cu cl))) ->
  held cl cl' /\ mcu_xid (cl_cu cl') = mcu_xid (cl_cu cl) /\ (forall k, young k (cl_cu cl) -> young k (cl_cu cl')) /\
  outstanding (cl_cu cl') = outstanding (cl_cu cl).
Proof.
  intros Ho Hs Hts [e He]. pose proof (mcu_ok_same l _ Hs Hts Ho) as Ho1. destruct (same_reqs_request _ _ Hs) as (Hu & _ & _).
  split; [constructor; rewrite He; [by apply mcu_ok_error|done..]|]. unfold young, outstanding. rewrite He. simpl. by rewrite Hu.
Qed.
Lemma refresh_ok cl l i s n cl0 : mcu_ok (cl_cu cl) -> same_reqs (mcu_scu (cl_cu cl)) l -> times_ok l -> l !! i = Some s ->
  (exists e, cl_cu cl0 = set_error e (set_scus l (cl_cu cl))) ->
  forall cl', (exists e, cl_cu cl' = set_error e (cl_cu (store_scu i (set_nrefreshes n s) cl0))) ->
  held cl cl' /\ mcu_xid (cl_cu cl') = mcu_xid (cl_cu cl) /\ (forall k, young k (cl_cu cl) -> young k (cl_cu cl')) /\
  outstanding (cl_cu cl') = outstanding (cl_cu cl).
Proof.
  intros Ho Hs Hts Hi [e He] cl' [e' He']. pose proof (mcu_ok_same l _ Hs Hts Ho) as Ho1. destruct (same_reqs_request _ _ Hs) as (Hu & _ & _).
  apply list_elem_of_split_length in Hi as (l1 & l2 & -> & ->). simpl in He'. rewrite He in He'. simpl in He'. rewrite insert_slot in He'.
  assert (Hrq : request (set_nrefreshes n s) = request s) by done.
  assert (Hu2 : under_way (l1 ++ set_nrefreshes n s :: l2) = under_way (l1 ++ s :: l2)) by (by rewrite !under_way_app, !under_way_cons, Hrq).
  split; [|unfold young, outstanding; rewrite He'; simpl; by rewrite Hu2, Hu].
  constructor; rewrite He'; try done. apply mcu_ok_error. destruct Ho1 as [Hn Hm Hf Hx Hsl Hid Hr]. simpl in *.
  constructor; simpl; rewrite ?Hu2; try done.
  - unfold zlen in *. rewrite !length_app in *. done.
  - unfold zlen in *. rewrite !length_app in *. done.
  - rewrite Hf. unfold zlen. by rewrite !length_app.
  - apply Forall_app in Hsl as [Hs1 Hs2]. apply Forall_cons in Hs2 as [Hs3 Hs2]. apply Forall_app. split; [done|by constructor].
Qed.

Lemma clntaudp_wait_ok fuel cl utimeout w : mcu_ok (cl_cu cl) -> mcu_cb (cl_cu cl) = false ->
  time_ok (the_timeout cl utimeout) -> time_ok (mcu_wait (cl_cu cl)) -> 0 < usecs (mcu_wait (cl_cu cl)) ->
  (arr w + (replies + 1) * all_repeats (mcu_wait (cl_cu cl)) (the_timeout cl utimeout) (mcu_scu (cl_cu cl)) < fuel)%nat ->
  exists r cl' w', clntaudp_wait xdr_dec fuel cl utimeout w = Some (r, cl', w') /\ waited cl (the_timeout cl utimeout) w r cl' w'.
Proof.
  intros Ho Hcb Ht Hw Hpos Hf. unfold clntaudp_wait, take_reply.
  destruct (wait_recv_ok fuel (the_timeout cl utimeout) cl w Ho Hcb Ht Hw Hpos (mcu_ok_times _ Ho) Hf)
    as (r & l & w1 & -> & Hsame & Hts & new & Hl & Hall & Hn & Hr). cbn [mbind option_bind].
  destruct r as [[st errno]|[[i s] d]].
  { assert (Hk : forall cl', (exists e, cl_cu cl' = set_error e (set_scus l (cl_cu cl))) -> waited cl (the_timeout cl utimeout) w (st, None) cl' w1).
    { intros cl' He. destruct (same_waited cl l cl' Ho Hsame Hts He) as (? & ? & ? & ?). split; [done|]. split; [done|]. split; [done|].
      exists new. split; [done|]. split; [done|]. split; [done|]. by apply wait_none. }
    destruct errno; (eexists _, _, _; split; [done|]; apply Hk; by eexists). }
  destruct Hr as (Hh & Hi & Hp). unfold is_reply in Hp. apply andb_true_iff in Hp as [Hu Hx%Z.eqb_eq].
  assert (Hxr : exists xresults, mcu_xresults (cl_cu cl) = Some xresults).
  { apply (mo_results _ Ho). destruct (same_reqs_request _ _ Hsame) as (<- & _ & _).
    apply list_elem_of_split_length in Hi as (l1 & l2 & -> & ->). rewrite under_way_app, under_way_cons. unfold request. rewrite Hu.
    by destruct (under_way l1). }
  destruct Hxr as [xresults Hxr]. cbn [cl_cu set_wait set_cu mcu_xresults set_scus]. rewrite Hxr. cbn [mbind option_bind].
  match goal with |- context [decode_reply _ _ _ ?c _] => set (cl1 := c) end.
  destruct (decode_reply_ok xresults d cl1 w1) as (reply & e & w2 & -> & Hl2 & _ & Hrep). rewrite <-Hl2 in Hl.
  set (cl2 := set_cu (set_error e (cl_cu cl1)) cl1).
  assert (H2 : cl_cu cl2 = set_error e (set_scus l (cl_cu cl)) /\ cla_resp cl2 = scu_resultsp s /\ cla_userdata cl2 = scu_userdata s) by done.
  assert (Hfree : forall st res cl3, (exists e, cl_cu cl3 = set_error e (set_scus l (cl_cu cl))) ->
    cla_resp cl3 = scu_resultsp s -> cla_userdata cl3 = scu_userdata s ->
    (st = RPC_SUCCESS -> exists xresults reply, mcu_xresults (cl_cu cl) = Some xresults /\ decodes xresults d reply /\
         res = ar_results reply /\ is_Some res) -> (st <> RPC_SUCCESS -> res = None) ->
    waited cl (the_timeout cl utimeout) w (st, res) (free_slot i s cl3) w2).
  { intros st res cl3 He Hrp Hud HS HF.
    destruct (free_slot_ok cl l i s cl3 Ho Hsame Hts Hi Hu He _ eq_refl) as (Hk & Hxid & Hlk & Hdel & Hy).
    split; [done|]. split; [done|]. split; [done|]. exists new. split; [done|]. split; [done|]. split; [done|].
    eapply wait_reply; [done| | |done|done]; rewrite Hx; [by rewrite Hlk, <-Hrp, <-Hud|done]. }
  destruct reply as [reply|].
  2:{ eexists _, _, _. split; [done|]. apply Hfree; [by eexists|done|done| |done].
      change (re_status e = RPC_SUCCESS -> exists xresults reply, mcu_xresults (cl_cu cl) = Some xresults /\ decodes xresults d reply /\
         None = ar_results reply /\ is_Some (@None result)). by rewrite Hrep. }
  destruct Hrep as [Hdec Hres]. change (status cl2) with (re_status e).
  destruct (Z.eqb_spec (re_status e) RPC_SUCCESS) as [HS|HS].
  - destruct (validate_ok reply cl2 HS) as (auth & e2 & -> & He2). eexists _, _, _. split; [done|].
    change (status (set_cu _ _)) with (re_status e2). apply Hfree; [by eexists|done|done| |].
    + intros ->. exists xresults, reply. split; [done|]. split; [done|]. split; [done|]. by apply Hres.
    + intros Hne. by rewrite (proj2 (Z.eqb_neq _ _) Hne).
  - assert (Hfail : waited cl (the_timeout cl utimeout) w (re_status e, None) (free_slot i s cl2) w2) by (by apply Hfree; [by eexists|..]).
    destruct (scu_nrefreshes s) as [|n]; [by eexists _, _, _|].
    destruct (auth_refresh (cl_auth cl2)) as [ok auth].
    destruct ok; [|eexists _, _, _; split; [done|]; by apply Hfree; [by eexists|..]].
    eexists _, _, _. split; [done|].
    destruct (refresh_ok cl l i s n (set_auth auth cl2) Ho Hsame Hts Hi) with (cl' := set_cu (set_re_status RPC_CANTENCODEARGS
      (cl_cu (store_scu i (set_nrefreshes n s) (set_auth auth cl2)))) (store_scu i (set_nrefreshes n s) (set_auth auth cl2)))
      as (Hk & Hxid & Hy & Hout); [by eexists|by eexists|].
    split; [done|]. split; [done|]. split; [done|]. exists new. split; [done|]. split; [done|]. split; [done|].
    eapply wait_refreshed; [done| |done]. destruct (free_slot_ok cl l i s cl2 Ho Hsame Hts Hi Hu ltac:(by eexists) _ eq_refl) as (_ & _ & Hlk & _).
    by rewrite Hx, Hlk.
Qed.
(** ** Enough turns *)

(** The timeouts of a handle are times, and it does not poll. *)
Record timeouts_ok cl : Prop := {
  to_wait : time_ok (mcu_wait (cl_cu cl));
  to_pos : 0 < usecs (mcu_wait (cl_cu cl));
  to_cb : mcu_cb (cl_cu cl) = false
}.

(** The turns of the loops of a call, and of waiting. *)
Definition call_fuel cl (timeout : timeval) w : nat := effort (mcu_wait (cl_cu cl)) timeout (TV 0 0) w + replies * 3 + 1.
Definition wait_fuel cl (timeout : timeval) w : nat :=
  (arr w + (replies + 1) * all_repeats (mcu_wait (cl_cu cl)) timeout (mcu_scu (cl_cu cl)) + 1)%nat.

(** ** clntaudp_abort *)

Lemma abort_slots_ok l : forall n, 0 <= n -> n + zlen (under_way l) < 2 ^ 32 ->
  exists l', abort_slots l n = (l', n + zlen (under_way l)) /\ zlen l' = zlen l /\ under_way l' = [] /\ (Forall slot_ok l -> Forall slot_ok l').
Proof.
  induction l as [|s l IH]; intros n Hn Hlt; [exists []; split; [|done]; simpl; f_equal; change (zlen (under_way [])) with 0; lia|].
  cbn [abort_slots]. rewrite under_way_cons, zlen_app in *. unfold request in *. pose proof (zlen_nonneg (under_way l)).
  destruct (scu_inuse s) eqn:Eu; simpl in Hlt |- *; [change (zlen [_]) with 1 in *|change (zlen (@nil (Z * (Z * Z)))) with 0 in *].
  - rewrite u32_id by lia. destruct (IH (n + 1)) as (l' & -> & Hl & Hun & Hs); [lia|lia|].
    exists (set_inuse false s :: l'). split; [f_equal; lia|]. split; [by rewrite !zlen_cons, Hl|].
    split; [by rewrite under_way_cons|]. intros [(Hh & Ht & _) Hf]%Forall_cons. constructor; [by split_and!|by apply Hs].
  - destruct (IH n) as (l' & -> & Hl & Hun & Hs); [lia|lia|].
    exists (s :: l'). split; [f_equal; lia|]. split; [by rewrite !zlen_cons, Hl|].
    split; [rewrite under_way_cons, Hun; unfold request; by rewrite Eu|]. intros [Hh Hf]%Forall_cons. constructor; [done|by apply Hs].
Qed.

Lemma clntaudp_abort_ok cl : mcu_ok (cl_cu cl) -> mcu_ok (cl_cu (clntaudp_abort cl)) /\
  outstanding (cl_cu (clntaudp_abort cl)) = ∅ /\ mcu_numfreescu (cl_cu (clntaudp_abort cl)) = mcu_numscu (cl_cu cl) /\
  under_way (mcu_scu (cl_cu (clntaudp_abort cl))) = [].
Proof.
  intros [Hn Hm Hf Hx Hs Hi Hr]. pose proof (under_way_le (mcu_scu (cl_cu cl))) as Hle.
  pose proof (zlen_nonneg (under_way (mcu_scu (cl_cu cl)))) as Hnn.
  destruct (abort_slots_ok (mcu_scu (cl_cu cl)) (mcu_numfreescu (cl_cu cl))) as (l' & E & Hl & Hun & Hs').
  { unfold zlen in *. lia. } { unfold MAXASYNC in Hm. lia. }
  unfold clntaudp_abort. rewrite E. simpl. unfold outstanding. simpl. rewrite Hun. split; [|split; [done|split; [lia|done]]].
  constructor; simpl; rewrite ?Hl, ?Hun; try done; [|by apply Hs'|constructor]. change (zlen (@nil (Z * (Z * Z)))) with 0. lia.
Qed.

End Transport.
