(* ===== verification/UdpThm.v ===== *)
(** * Theorems about the transport, and a network that follows a script

    A call comes to an end and gives the reply to the request it sent; the
    replies to requests sent together are told apart; a request with a block
    of data is not repeated as it was sent. *)
From S2P Require Import Prelude NfsSupp Xdr XdrSpec Udp UdpSpec UdpRun.

(** ** A network that follows a script

    Instances that show that the interfaces of the transport can be kept, on
    which it can be run: the answers of the network are given in advance, and
    the library's part of a message is an id and a status. *)

(** What happens in the order of the script; then it is silent. *)
Inductive answer := Silence | Broken (errno : Z) | NoDatagram (errno : Z) | Datagram (d : list byte).
Record script := Script { sc_answers : list answer; sc_send : bool }.

#[export] Instance script_net : Net script := {
  net_select t n :=
    match sc_answers n with
    | [] => (SelTimeout, n)
    | Silence :: l => (SelTimeout, Script l (sc_send n))
    | Broken e :: l => (SelError e, Script l (sc_send n))
    | _ => (SelReady, n)
    end;
  net_recvfrom sz n :=
    match sc_answers n with
    | Datagram d :: l => (inr (take (Z.to_nat sz) d), Script l (sc_send n))
    | NoDatagram e :: l => (inl e, Script l (sc_send n))
    | _ => (inl 35, n)
    end;
  net_sendto p n := ((if sc_send n then zlen p else -1, 64), n);
  net_mem n := (10%nat, n);
  timeout_cb n := (false, n);
  EWOULDBLOCK := 35
}.

#[export] Program Instance script_finite : NetFinite script := {
  arrivals n := length (sc_answers n);
  replies := 0
}.
Next Obligation.
  intros t [[|a l] b] n' Hs sz; [done|]. destruct a; simpl in Hs; simplify_eq; simpl; lia.
Qed.
Next Obligation.
  intros t [[|a l] b] r n' Hs Hr; simpl in Hs; [by simplify_eq|]. destruct a; simplify_eq; simpl; lia.
Qed.
Next Obligation. simpl. lia. Qed.
Next Obligation. simpl. lia. Qed.

(** A reply: the id, a status, and the results when it is success. *)
Record simple_reply (A : Type) := SimpleReply { sr_status : Z; sr_results : option A }.
Arguments SimpleReply {A}.
Arguments sr_status {A}.
Arguments sr_results {A}.

#[export] Program Instance simple_rpc {A : Type} : RpcLib A := {
  REPLY := simple_reply;
  xdr_callhdr xid prog vers := xdrmem_putlong xid >>> xdrmem_putlong prog >>> xdrmem_putlong vers;
  auth_marshall _ := enop;
  auth_validate a _ := (true, a);
  auth_refresh a := (false, a);
  xdr_replymsg B d := xid <~ xdrmem_getlong; st <~ xdrmem_getlong;
    (if st =? RPC_SUCCESS then x <~ d; dret (SimpleReply RPC_SUCCESS (Some x)) else dret (SimpleReply st None));
  seterr_reply B r e := MkErr (match sr_results r with Some _ => RPC_SUCCESS | None => Z.max 6 (sr_status r) end) (0, 0);
  ar_verf B _ := [];
  ar_results A := sr_results
}.

#[export] Instance simple_rpc_laws {A : Type} : RpcLibLaws A.
Proof.
  constructor.
  - intros xid prog vers room xdrs Hx. simpl in Hx. unfold eseq, xdrmem_putlong in Hx. simpl in Hx.
    repeat (case_match; [done|]; simpl in Hx). injection Hx as <-. simpl. by eexists.
  - intros B [st [x|]] e; [by eexists|]. unfold RPC_SUCCESS. simpl. lia.
  - intros B d Q x y reply r Hd. simpl. unfold dbind. destruct (xdrmem_getlong x) as [[xid x1]|]; [|done]. simpl.
    destruct (xdrmem_getlong x1) as [[st x2]|]; [|done]. simpl. destruct (st =? RPC_SUCCESS); [|by intros [= <- <-]].
    destruct (d x2) as [[a x3]|] eqn:Ed; [|done]. simpl. intros [= <- <-] [= <-]. by eapply Hd.
Qed.

Section Theorems.
Context {AUTH N xdrproc result : Type} `{EqDecision xdrproc} `{LL : RpcLibLaws AUTH} `{NF : NetFinite N}.
Context (xdr_dec : xdrproc -> DEC result).
Abbreviation CLIENT := (CLIENT AUTH xdrproc).
Abbreviation World := (World N).
Implicit Types (cl : CLIENT) (w : World).

(** ** Calls *)

(** C18: a call on a handle whose first slot is free comes to an end, on every
    network that falls silent in the end.  All it sends are requests of the
    procedure with the arguments, the same one again each time the retry
    timeout has passed without the reply, and with new credentials after the
    server refused them, so at most three times the number of retry timeouts in
    the timeout and one more.  When it succeeds the results are those of the
    datagram heard last, and this has the id of the request sent last; when it
    fails there are none.  The requests under way are not touched. *)
Theorem clntaudp_call_replies fuel cl proc xargs xresults utimeout w scu l :
  mcu_ok (cl_cu cl) -> timeouts_ok cl -> mcu_scu (cl_cu cl) = scu :: l -> scu_inuse scu = false ->
  let timeout := the_timeout cl utimeout in
  time_ok timeout -> (call_fuel cl timeout w <= fuel)%nat ->
  exists r cl' w', clntaudp_call xdr_dec fuel cl proc xargs xresults utimeout w = Some (r, cl', w') /\
    mcu_ok (cl_cu cl') /\ outstanding (cl_cu cl') = outstanding (cl_cu cl) /\
    exists new, w_log w' = new ++ w_log w /\
      Forall (is_call (scu_hdr scu) (mcu_sendsz (cl_cu cl)) proc xargs) (sends new) /\
      Z.of_nat (length (sends new)) <= 3 * (Z.max 0 (usecs timeout / usecs (mcu_wait (cl_cu cl))) + 1) /\
      (r.1 = RPC_SUCCESS -> exists d q rest reply, new = Heard d :: rest /\ head (sends rest) = Some q /\
         xid_of d = xid_of q /\ decodes xdr_dec xresults d reply /\ r.2 = ar_results reply /\ is_Some r.2) /\
      (r.1 <> RPC_SUCCESS -> r.2 = None).
Proof.
  intros Ho [Hw Hpos _] Hl Hu timeout Ht Hf. unfold clntaudp_call. fold timeout.
  destruct (call_again_ok xdr_dec 2 fuel proc xargs xresults timeout (TV 0 0) cl w scu l Ho Hl Hu Ht) as (r & cl' & w' & -> & Hcd & Hd);
    try done. { unfold call_fuel in Hf. lia. }
  exists r, cl', w'. split; [done|]. split; [apply Hcd|]. split; [unfold outstanding; by rewrite (cd_reqs _ _ _ _ Hcd)|].
  destruct Hd as (new & Hlog & Hall & Hn & Hrest). exists new. split; [done|]. split; [done|]. split; [|done].
  unfold repeats in Hn. change (usecs (TV 0 0)) with 0 in Hn. rewrite Z.sub_0_r in Hn. lia.
Qed.

(** ** Requests sent together *)

(** C19: waiting for a reply comes to an end, on every network that falls silent
    in the end; all it sends are requests under way.  Either no reply came and
    all requests stay under way, or the datagram heard last has the id of a
    request under way; then the pointers given with this request are handed out,
    it and no other is under way no longer (but if its credentials were
    refreshed), and the results are those of the datagram, decoded with the
    routine given with the requests. *)
Theorem clntaudp_wait_matches fuel cl utimeout w : mcu_ok (cl_cu cl) -> timeouts_ok cl ->
  let timeout := the_timeout cl utimeout in
  time_ok timeout -> (wait_fuel cl timeout w <= fuel)%nat ->
  exists r cl' w' new, clntaudp_wait xdr_dec fuel cl utimeout w = Some (r, cl', w') /\ mcu_ok (cl_cu cl') /\
    w_log w' = new ++ w_log w /\ Forall (resend cl) (sends new) /\
    (length (sends new) <= all_repeats (mcu_wait (cl_cu cl)) timeout (mcu_scu (cl_cu cl)))%nat /\
    wait_result xdr_dec cl new r cl'.
Proof.
  intros Ho [Hw Hpos Hcb] timeout Ht Hf.
  destruct (clntaudp_wait_ok xdr_dec fuel cl utimeout w Ho Hcb Ht Hw Hpos) as (r & cl' & w' & Hr & Hk & _ & _ & new & Hrest).
  { unfold wait_fuel in Hf. fold timeout. lia. }
  exists r, cl', w', new. split; [done|]. split; [apply Hk|]. done.
Qed.

(** ** Every handle *)

Lemma clntaudp_bufcreate_ok sys raddr prog vers wait sock sendsz recvsz numasync cl : 0 <= numasync -> time_ok wait -> 0 < usecs wait ->
  clntaudp_bufcreate (xdrproc := xdrproc) sys raddr prog vers wait sock sendsz recvsz numasync = Some (Some cl) ->
  mcu_ok (cl_cu cl) /\ under_way (mcu_scu (cl_cu cl)) = [] /\ timeouts_ok cl.
Proof.
  intros Hna Hw Hpos. unfold clntaudp_bufcreate. destruct (sys_mem sys) as [[m1 m2] m3]. unfold MAXASYNC.
  destruct (Z.gtb_spec numasync 5) as [|Hle]; [done|]. destruct m1; [|done]. cbn [negb]. destruct (negb _); [done|].
  destruct (_ =? 0); [done|]. set (xid := u32 _).
  destruct (if numasync =? 0 then _ else _) as [xd|] eqn:Ex; [|done]. destruct (_ && _); [done|]. intros [= <-].
  assert (Hun : under_way (replicate (Z.to_nat numasync) (new_scu (xe_out xd))) = [])
    by (induction (Z.to_nat numasync) as [|n IH]; [done|]; simpl; by rewrite under_way_cons, IH).
  simpl. split; [|split; [done|by constructor]]. constructor; simpl; rewrite ?Hun; try done.
  - unfold zlen. rewrite length_replicate. lia.
  - unfold zlen. rewrite length_replicate. unfold MAXASYNC. lia.
  - unfold zlen. rewrite length_replicate. simpl. lia.
  - apply u32_range.
  - destruct (Z.eqb_spec numasync 0) as [-> | Hne]; [constructor|]. apply Forall_replicate. split_and!; simpl; try done.
    destruct (callhdr_xid _ _ _ _ _ Ex) as [l ->]. rewrite zlen_app. pose proof (zlen_nonneg l). change (zlen (be32 xid)) with 4. lia.
  - constructor.
Qed.

Lemma clntaudp_control_ok cl request info ok info' cl' : mcu_ok (cl_cu cl) ->
  clntaudp_control cl request info = Some (ok, info', cl') ->
  mcu_ok (cl_cu cl') /\ under_way (mcu_scu (cl_cu cl')) = under_way (mcu_scu (cl_cu cl)).
Proof.
  intros [Hn Hm Hf Hx Hs Hi Hr]. unfold clntaudp_control. repeat case_match; intros E; simplify_eq; split; done.
Qed.

(** The handles that can arise: from creation by requests sent when none under
    way is older than 2^16 - 2 requests, by waiting, by calls when none is under
    way in the first slot, by giving up and by setting the timeouts. *)
Inductive reached : CLIENT -> Prop :=
  | reached_create sys raddr prog vers wait sock sendsz recvsz numasync cl : 0 <= numasync -> time_ok wait -> 0 < usecs wait ->
      clntaudp_bufcreate sys raddr prog vers wait sock sendsz recvsz numasync = Some (Some cl) -> reached cl
  | reached_send cl proc xargs xresults resultsp userdata block w r cl' w' : reached cl -> young (2 ^ 16 - 1) (cl_cu cl) ->
      clntaudp_sendsb cl proc xargs xresults resultsp userdata block w = ((r, @None result), cl', w') -> reached cl'
  | reached_wait fuel cl utimeout w r cl' w' : reached cl -> timeouts_ok cl -> time_ok (the_timeout cl utimeout) ->
      (wait_fuel cl (the_timeout cl utimeout) w <= fuel)%nat ->
      clntaudp_wait xdr_dec fuel cl utimeout w = Some (r, cl', w') -> reached cl'
  | reached_call fuel cl proc xargs xresults utimeout w scu l r cl' w' : reached cl -> timeouts_ok cl ->
      mcu_scu (cl_cu cl) = scu :: l -> scu_inuse scu = false -> time_ok (the_timeout cl utimeout) ->
      (call_fuel cl (the_timeout cl utimeout) w <= fuel)%nat ->
      clntaudp_call xdr_dec fuel cl proc xargs xresults utimeout w = Some (r, cl', w') -> reached cl'
  | reached_abort cl : reached cl -> reached (clntaudp_abort cl)
  | reached_control cl request info ok info' cl' : reached cl -> clntaudp_control cl request info = Some (ok, info', cl') -> reached cl'.

Lemma reached_ok cl : reached cl -> mcu_ok (cl_cu cl).
Proof.
  induction 1 as [? ? ? ? ? ? ? ? ? ? Hna Hw Hp Hc|cl ? ? ? ? ? ? w ? ? ? _ Ho Hy Hr|fuel cl ? w ? ? ? _ Ho [Hw Hp Hcb] Ht Hf Hr|
    fuel cl proc xargs xresults utimeout w scu l ? ? ? _ Ho [Hw Hp Hcb] Hl Hu Ht Hf Hr|cl _ Ho|cl ? ? ? ? ? _ Ho Hr].
  - by eapply clntaudp_bufcreate_ok in Hc as [? _].
  - edestruct (clntaudp_sendsb_ok (result := result) cl) as (st & cl2 & w2 & E & Hk & _); [done|done|].
    rewrite E in Hr. injection Hr as _ <- _. apply Hk.
  - edestruct (clntaudp_wait_ok xdr_dec fuel cl) as (r2 & cl2 & w2 & E & Hk & _); try done.
    { unfold wait_fuel in Hf. instantiate (1 := w). lia. } rewrite E in Hr. injection Hr as _ <- _. apply Hk.
  - destruct (call_again_ok xdr_dec 2 fuel proc xargs xresults (the_timeout cl utimeout) (TV 0 0) cl w scu l Ho Hl Hu Ht) as (r2 & cl2 & w2 & E & Hk & _); try done.
    { unfold call_fuel in Hf. lia. } unfold clntaudp_call in Hr. rewrite E in Hr. injection Hr as _ <- _. apply Hk.
  - by apply clntaudp_abort_ok.
  - by eapply clntaudp_control_ok in Hr as [? _].
Qed.

(** C20: On every handle that can arise the ids of the requests under way are
    pairwise different, so that a reply tells its request; the count of free
    slots is right; and each slot in use has a complete request in its buffer. *)
Theorem requests_told_apart cl : reached cl ->
  (forall i j s t, mcu_scu (cl_cu cl) !! i = Some s -> mcu_scu (cl_cu cl) !! j = Some t ->
     scu_inuse s = true -> scu_inuse t = true -> xid_of (scu_hdr s) = xid_of (scu_hdr t) -> i = j) /\
  mcu_numfreescu (cl_cu cl) = mcu_numscu (cl_cu cl) - Z.of_nat (size (outstanding (cl_cu cl))) /\
  0 <= mcu_numfreescu (cl_cu cl) <= MAXASYNC /\
  (forall s, s ∈ mcu_scu (cl_cu cl) -> scu_inuse s = true -> is_Some (scu_args s)).
Proof.
  intros [Hn Hm Hf Hx Hs Hi Hr]%reached_ok. split; [by apply ids_distinct|].
  assert (Hsz : size (outstanding (cl_cu cl)) = length (under_way (mcu_scu (cl_cu cl)))) by (by apply map_size_list_to_map).
  pose proof (under_way_le (mcu_scu (cl_cu cl))). rewrite Hsz, Hn, Hf. unfold zlen in *. split; [lia|]. split; [lia|].
  intros s Hin Hu. rewrite Forall_forall in Hs. by apply (Hs s Hin).
Qed.

(** ** Sending again *)

(** a request sent with a block of data is not sent again as it was: when
    it is the only one under way, whatever waiting sends is the request without
    its data. *)
Theorem repeated_without_block fuel cl proc xargs xresults resultsp userdata block w w1 st cl1 utimeout r cl2 w2 :
  mcu_ok (cl_cu cl) -> under_way (mcu_scu (cl_cu cl)) = [] ->
  clntaudp_sendsb cl proc xargs xresults resultsp userdata (Some block) w = ((st, @None result), cl1, w1) ->
  st = RPC_TIMEDOUT -> timeouts_ok cl1 -> time_ok (the_timeout cl1 utimeout) ->
  (wait_fuel cl1 (the_timeout cl1 utimeout) w1 <= fuel)%nat ->
  clntaudp_wait xdr_dec fuel cl1 utimeout w1 = Some (r, cl2, w2) ->
  exists q new, w_log w1 = Sent (q ++ block) :: w_log w /\ w_log w2 = new ++ w_log w1 /\ Forall (eq q) (sends new).
Proof.
  intros Ho Hun Hs Hst [Hw Hpos Hcb] Ht Hf Hwait.
  assert (Hy : young (2 ^ 16 - 1) (cl_cu cl)) by (unfold young; rewrite Hun; constructor).
  destruct (clntaudp_sendsb_ok (result := result) cl proc xargs xresults resultsp userdata (Some block) w Ho Hy)
    as (st' & cl' & w' & E & Hk & Hy' & Hcase).
  rewrite Hs in E. injection E as <- <- <-. destruct Hcase as [(_ & Hn & Hm & Hex)|[Hne _]]; [|done].
  destruct Hex as (s & q & _ & _ & Hlog & _ & Hq & Hre). assert (Ho1 : mcu_ok (cl_cu cl1)) by apply Hk.
  destruct (clntaudp_wait_ok xdr_dec fuel cl1 utimeout w1 Ho1 Hcb Ht Hw Hpos) as (r' & cl' & w' & E & _ & _ & _ & new & Hl2 & Hall & _).
  { unfold wait_fuel in Hf. lia. }
  rewrite Hwait in E. injection E as <- <- <-. exists q, new. split; [done|]. split; [done|].
  eapply Forall_impl; [exact Hall|]. intros p Hp. destruct (Hre p Hp) as [(s1 & args & Hin & Hu1 & _)| ->]; [|done].
  apply (under_way_in _ _ Hin) in Hu1. rewrite Hun in Hu1. by apply elem_of_nil in Hu1.
Qed.
End Theorems.

(** ** Concrete runs on the network of the script *)

Definition ex_sys : System unit := MkSystem (true, true, true) (TV 100 0) 0x1234 (fun _ _ _ => 2049) 3 tt.
Definition ex_create : option (option (CLIENT unit unit)) := clnt_acreate ex_sys (Some (AF_INET, 0x7f000001)) 100003 2 3.
Definition ex_client : CLIENT unit unit :=
  match ex_create with
  | Some (Some cl) => cl
  | _ => MkCLIENT tt (MkMcu 0 0 0 [] false (TV 1 0) (TV 1 0) (MkErr 0 (0, 0)) None 0 0 (0, 0)) 0 0
  end.
Definition ex_dec (_ : unit) : DEC Z := xdrmem_getlong.
Definition ex_args : ENC := xdrmem_putlong 7.

Lemma ex_client_ok : mcu_ok (cl_cu ex_client) /\ under_way (mcu_scu (cl_cu ex_client)) = [] /\ timeouts_ok ex_client.
Proof.
  assert (He : exists cl, clntaudp_create (xdrproc := unit) ex_sys (0x7f000001, 0) 100003 2 (TV 5 0) RPC_ANYSOCK 3 = Some (Some cl)
    /\ ex_client = set_cu (set_total (TV 25 0) (cl_cu cl)) cl) by (by eexists).
  destruct He as (cl & Hc & ->). apply clntaudp_bufcreate_ok in Hc as (Ho & Hun & [Hw Hp Hcb]); [|done..].
  split; [by destruct Ho|]. split; [done|]. by constructor.
Qed.

(** No reply in time, a stray datagram, then the reply. *)
Definition ex_script : World script := MkWorld (Script [Silence; Datagram (be32 0x999 ++ be32 0); Datagram (be32 0x11250 ++ be32 0 ++ be32 42)] true) [].

Lemma clntaudp_call_replies_witness : exists cl' w',
  clntaudp_call ex_dec 100 ex_client 4 ex_args tt (TV 25 0) ex_script = Some ((RPC_SUCCESS, Some 42), cl', w') /\
  length (sends (w_log w')) = 2%nat /\ outstanding (cl_cu cl') = ∅.
Proof.
  destruct ex_client_ok as (Ho & Hun & Hto).
  destruct (clntaudp_call_replies ex_dec 100 ex_client 4 ex_args tt (TV 25 0) ex_script (default (new_scu []) (head (mcu_scu (cl_cu ex_client))))
    (tail (mcu_scu (cl_cu ex_client))) Ho Hto eq_refl eq_refl) as (r & cl' & w' & Hr & _ & Hout & _).
  1: repeat split; vm_compute; congruence.
  1: apply Nat.leb_le; reflexivity.
  assert (Hp : (fun x => (x.1.1, length (sends (w_log x.2)))) <$> clntaudp_call ex_dec 100 ex_client 4 ex_args tt (TV 25 0) ex_script =
    Some ((RPC_SUCCESS, Some 42), 2%nat)).
  { vm_compute. reflexivity. }
  rewrite Hr in Hp. simpl in Hp. injection Hp as -> Hn. exists cl', w'. split; [exact Hr|]. split; [exact Hn|].
  rewrite Hout. reflexivity.
Defined.

(** Two requests sent one behind the other; the reply to the second comes
    first. *)
Definition ex_send (block : option (list byte)) (u : Z) (x : CLIENT unit unit * World script) : CLIENT unit unit * World script :=
  let '(_, cl, w) := clntaudp_sendsb (result := Z) x.1 4 ex_args tt (100 + u) u block x.2 in (cl, w).
Definition ex_net (l : list answer) : World script := MkWorld (Script l true) [].
Definition ex_two : CLIENT unit unit * World script :=
  ex_send None 2 (ex_send None 1 (ex_client, ex_net [Datagram (be32 0x21250 ++ be32 0 ++ be32 43)])).

Definition ex_first : CLIENT unit unit * World script :=
  ex_send None 1 (ex_client, ex_net [Datagram (be32 0x21250 ++ be32 0 ++ be32 43)]).
Lemma ex_two_reached : reached (N := script) ex_dec ex_two.1.
Proof.
  assert (He : exists cl, clntaudp_create (xdrproc := unit) ex_sys (0x7f000001, 0) 100003 2 (TV 5 0) RPC_ANYSOCK 3 = Some (Some cl)
    /\ clntaudp_control cl CLSET_TIMEOUT (InfoTime (TV 25 0)) = Some (true, InfoTime (TV 25 0), ex_client)) by (by eexists).
  destruct He as (cl & Hc & Ht).
  assert (H0 : reached (N := script) ex_dec ex_client).
  { eapply reached_control; [|exact Ht]. eapply reached_create; [| | |exact Hc]; [done|by repeat split|done]. }
  assert (H1 : reached (N := script) ex_dec ex_first.1).
  { apply (reached_send ex_dec ex_client 4 ex_args tt 101 1 None (ex_net [Datagram (be32 0x21250 ++ be32 0 ++ be32 43)]) RPC_TIMEDOUT _ ex_first.2 H0).
    - constructor.
    - vm_compute. reflexivity. }
  apply (reached_send ex_dec ex_first.1 4 ex_args tt 102 2 None ex_first.2 RPC_TIMEDOUT _ ex_two.2 H1).
  - unfold young. vm_compute. repeat constructor.
  - vm_compute. reflexivity.
Qed.
Lemma ex_two_times : timeouts_ok ex_two.1.
Proof. constructor; [repeat split; vm_compute; congruence|by vm_compute|reflexivity]. Qed.

Lemma clntaudp_wait_matches_witness : exists cl' w',
  clntaudp_wait ex_dec 100 ex_two.1 (TV 25 0) ex_two.2 = Some ((RPC_SUCCESS, Some 43), cl', w') /\
  cla_userdata cl' = 2 /\ cla_resp cl' = 102 /\ outstanding (cl_cu cl') = {[ 0x11250 := (101, 1) ]}.
Proof.
  destruct (clntaudp_wait_matches ex_dec 100 ex_two.1 (TV 25 0) ex_two.2 (reached_ok _ _ ex_two_reached) ex_two_times)
    as (r & cl' & w' & new & Hr & _).
  1: repeat split; vm_compute; congruence.
  1: apply Nat.leb_le; reflexivity.
  assert (Hp : (fun x => (x.1.1, cla_userdata x.1.2, cla_resp x.1.2, map_to_list (outstanding (cl_cu x.1.2)))) <$>
    clntaudp_wait ex_dec 100 ex_two.1 (TV 25 0) ex_two.2 = Some ((RPC_SUCCESS, Some 43), 2, 102, [(0x11250, (101, 1))])).
  { vm_compute. reflexivity. }
  rewrite Hr in Hp. cbn [fmap option_fmap option_map fst snd] in Hp. injection Hp as Hr2 Hu Hc Hm.
  exists cl', w'. split; [rewrite Hr; repeat f_equal; exact Hr2|]. split; [exact Hu|]. split; [exact Hc|].
  rewrite <-(list_to_map_to_list (outstanding (cl_cu cl'))), Hm. reflexivity.
Defined.

Lemma requests_told_apart_witness : (forall i j s t, mcu_scu (cl_cu ex_two.1) !! i = Some s -> mcu_scu (cl_cu ex_two.1) !! j = Some t ->
    scu_inuse s = true -> scu_inuse t = true -> xid_of (scu_hdr s) = xid_of (scu_hdr t) -> i = j) /\
  mcu_numfreescu (cl_cu ex_two.1) = 1.
Proof. destruct (requests_told_apart ex_dec ex_two.1 ex_two_reached) as [Hd _]. split; [exact Hd|reflexivity]. Defined.

(** A request of 7 with five bytes of data, and silence. *)
Definition ex_block : list byte := [x01; x02; x03; x04; x05].
Definition ex_one : CLIENT unit unit * World script := ex_send (Some ex_block) 1 (ex_client, ex_net []).

Lemma repeated_without_block_witness : exists q new r cl' w',
  clntaudp_wait ex_dec 100 ex_one.1 (TV 25 0) ex_one.2 = Some (r, cl', w') /\
  w_log ex_one.2 = [Sent (q ++ ex_block)] /\ w_log w' = new ++ w_log ex_one.2 /\ Forall (eq q) (sends new) /\
  length (sends (w_log w')) = 5%nat.
Proof.
  assert (Hs : clntaudp_sendsb (result := Z) ex_client 4 ex_args tt 101 1 (Some ex_block) (ex_net []) = ((RPC_TIMEDOUT, None), ex_one.1, ex_one.2)).
  { vm_compute. reflexivity. }
  assert (Hp : (fun x => length (sends (w_log x.2))) <$> clntaudp_wait ex_dec 100 ex_one.1 (TV 25 0) ex_one.2 = Some 5%nat).
  { vm_compute. reflexivity. }
  destruct (clntaudp_wait ex_dec 100 ex_one.1 (TV 25 0) ex_one.2) as [[[r cl'] w']|] eqn:Hw; [|discriminate].
  destruct (repeated_without_block ex_dec 100 ex_client 4 ex_args tt 101 1 ex_block (ex_net []) ex_one.2 RPC_TIMEDOUT ex_one.1 (TV 25 0) r cl' w'
    (proj1 ex_client_ok) (proj1 (proj2 ex_client_ok)) Hs eq_refl) as (q & new & Hl1 & Hl2 & Hall).
  1: constructor; [repeat split; vm_compute; congruence|vm_compute; reflexivity|reflexivity].
  1: repeat split; vm_compute; congruence.
  1: apply Nat.leb_le; reflexivity.
  1: exact Hw.
  exists q, new, r, cl', w'. injection Hp as Hn. split; [reflexivity|]. split; [exact Hl1|]. split; [exact Hl2|]. split; [exact Hall|exact Hn].
Defined.
