(* ===== verification/Stubs.v ===== *)
(** * The call stubs (ch_nfs_prot_clnt.c)

    Every procedure of the protocol as a call over the transport (Udp.v) with
    the routines for its arguments and results (NfsXdr.v).  A stub gives what
    its result points to, NULL is [None]; [None] outside that is a transport
    that does not come to an end.  A call that times out can be repeated by
    the user, whom RPCTimeoutReq (nfs_handler.c) asks. *)
From S2P Require Import Prelude NfsProt NfsSupp Xdr NfsXdr Udp.

(** ** Results *)

(** The routines that results are decoded with; those for reads always get a
    buffer. *)
Inductive xdrproc :=
  xdr_void | xdr_nfsstat | xdr_attrstat | xdr_diropres | xdr_readlinkres | xdr_readres | xdr_readdirres | xdr_statfsres.
#[export] Instance xdrproc_eq : EqDecision xdrproc.
Proof. solve_decision. Defined.

(** The object a result pointer points to. *)
Inductive result :=
  | Void
  | Nfsstat (r : Z)
  | Attrstat (r : attrstat)
  | Diropres (r : diropres)
  | Readlinkres (r : readlinkres)
  | Readres (r : readres)
  | Readdirres (r : readdirres)
  | Statfsres (r : statfsres).

Definition xdr_dec (xres : xdrproc) : DEC result :=
  match xres with
  | xdr_void => dret Void
  | xdr_nfsstat => r <~ xdr_nfsstat_dec; dret (Nfsstat r)
  | xdr_attrstat => r <~ xdr_attrstat_dec; dret (Attrstat r)
  | xdr_diropres => r <~ xdr_diropres_dec; dret (Diropres r)
  | xdr_readlinkres => r <~ xdr_readlinkres_dec; dret (Readlinkres r)
  | xdr_readres => r <~ xdr_readres_dec false; dret (Readres r)
  | xdr_readdirres => r <~ xdr_readdirres_dec; dret (Readdirres r)
  | xdr_statfsres => r <~ xdr_statfsres_dec; dret (Statfsres r)
  end.

Definition as_nfsstat (r : result) : option Z := match r with Nfsstat r => Some r | _ => None end.
Definition as_attrstat (r : result) : option attrstat := match r with Attrstat r => Some r | _ => None end.
Definition as_diropres (r : result) : option diropres := match r with Diropres r => Some r | _ => None end.
Definition as_readlinkres (r : result) : option readlinkres := match r with Readlinkres r => Some r | _ => None end.
Definition as_readres (r : result) : option readres := match r with Readres r => Some r | _ => None end.
Definition as_readdirres (r : result) : option readdirres := match r with Readdirres r => Some r | _ => None end.
Definition as_statfsres (r : result) : option statfsres := match r with Statfsres r => Some r | _ => None end.

(** ** Procedures *)

Definition NFSPROC_GETATTR : Z := 1.
Definition NFSPROC_SETATTR : Z := 2.
Definition NFSPROC_ROOT : Z := 3.
Definition NFSPROC_LOOKUP : Z := 4.
Definition NFSPROC_READLINK : Z := 5.
Definition NFSPROC_READ : Z := 6.
Definition NFSPROC_WRITECACHE : Z := 7.
Definition NFSPROC_WRITE : Z := 8.
Definition NFSPROC_CREATE : Z := 9.
Definition NFSPROC_REMOVE : Z := 10.
Definition NFSPROC_RENAME : Z := 11.
Definition NFSPROC_LINK : Z := 12.
Definition NFSPROC_SYMLINK : Z := 13.
Definition NFSPROC_MKDIR : Z := 14.
Definition NFSPROC_RMDIR : Z := 15.
Definition NFSPROC_READDIR : Z := 16.
Definition NFSPROC_STATFS : Z := 17.

Definition TIMEOUT : timeval := TV 25 0.

(** The attrstat of the asynchronous writes, as a pointer, and what clearing
    its memory makes of it. *)
Definition clnt_res : Z := 1.
Definition cleared_attrstat : attrstat :=
  NfsOk (FAttr 0 0 0 0 0 0 0 0 0 0 0 (NfsTime 0 0) (NfsTime 0 0) (NfsTime 0 0)).

(** ** The user *)

(** GF_USE_TIMEOUT_REQ in SGlobals->g_Flags, and the requester, whose answer is
    0 for the button on the right. *)
Class Requester (N : Type) := {
  use_timeout_req : N -> bool;
  APrintReq2 : N -> Z * N
}.

Section Stubs.
Context {AUTH N : Type} `{RpcLib AUTH} `{Net N} `{Requester N}.
Abbreviation CLIENT := (CLIENT AUTH xdrproc).
Abbreviation World := (World N).
Abbreviation outcome := (@outcome AUTH N xdrproc result).
(** How often the user is asked at most, and the turns of the loops of a call
    and of waiting. *)
Context (tries : World -> nat) (call_turns wait_turns : CLIENT -> timeval -> World -> nat).

Definition RPCTimeoutReq (w : World) : bool * World :=
  if use_timeout_req (w_net w) then
    let '(answer, n) := APrintReq2 (w_net w) in (answer =? 0, MkWorld n (w_log w))
  else (false, w).

Fixpoint ch_clnt_call_loop (fuel : nat) (rh : CLIENT) (proc : Z) (xargs : ENC) (xres : xdrproc)
  (timeout : timeval) (w : World) : option outcome :=
  match fuel with
  | O => None
  | S fuel =>
      '((val, res), rh, w) ← clntaudp_call xdr_dec (call_turns rh timeout w) rh proc xargs xres timeout w;
      if val =? RPC_SUCCESS then Some ((val, res), rh, w)
      else if negb (re_status (clntaudp_geterr rh) =? RPC_TIMEDOUT) then Some ((val, res), rh, w)
      else
        let '(again, w) := RPCTimeoutReq w in
        if again then ch_clnt_call_loop fuel rh proc xargs xres timeout w else Some ((val, res), rh, w)
  end.
Definition ch_clnt_call (rh : CLIENT) (proc : Z) (xargs : ENC) (xres : xdrproc) (timeout : timeval) (w : World) :
  option outcome :=
  ch_clnt_call_loop (tries w) rh proc xargs xres timeout w.

(** What every stub makes of a call: the object its result points to. *)
Definition call_res {A} (get : result -> option A) (out : option outcome) : option (option A * CLIENT * World) :=
  '((st, res), cl, w) ← out;
  if negb (st =? RPC_SUCCESS) then Some (None, cl, w) else r ← res; a ← get r; Some (Some a, cl, w).

Definition nfsproc_getattr_2 (argp : nfs_fh) (clnt : CLIENT) (w : World) :=
  call_res as_attrstat (ch_clnt_call clnt NFSPROC_GETATTR (xdr_nfs_fh_enc argp) xdr_attrstat TIMEOUT w).
Definition nfsproc_setattr_2 (argp : sattrargs) (clnt : CLIENT) (w : World) :=
  call_res as_attrstat (ch_clnt_call clnt NFSPROC_SETATTR (xdr_sattrargs_enc argp) xdr_attrstat TIMEOUT w).
Definition nfsproc_root_2 (clnt : CLIENT) (w : World) :=
  call_res (fun _ => Some tt) (ch_clnt_call clnt NFSPROC_ROOT enop xdr_void TIMEOUT w).
Definition nfsproc_lookup_2 (argp : diropargs) (clnt : CLIENT) (w : World) :=
  call_res as_diropres (ch_clnt_call clnt NFSPROC_LOOKUP (xdr_diropargs_enc argp) xdr_diropres TIMEOUT w).
Definition nfsproc_readlink_2 (argp : nfs_fh) (clnt : CLIENT) (w : World) :=
  call_res as_readlinkres (ch_clnt_call clnt NFSPROC_READLINK (xdr_nfs_fh_enc argp) xdr_readlinkres TIMEOUT w).
(** The two reads differ in whose buffer gets the data. *)
Definition nfsproc_read_2 (argp : readargs) (clnt : CLIENT) (w : World) :=
  call_res as_readres (ch_clnt_call clnt NFSPROC_READ (xdr_readargs_enc argp) xdr_readres TIMEOUT w).
Definition nfsproc_read_buf (argp : readargs) (clnt : CLIENT) (w : World) :=
  call_res as_readres (ch_clnt_call clnt NFSPROC_READ (xdr_readargs_enc argp) xdr_readres TIMEOUT w).
Definition nfsproc_writecache_2 (clnt : CLIENT) (w : World) :=
  call_res (fun _ => Some tt) (ch_clnt_call clnt NFSPROC_WRITECACHE enop xdr_void TIMEOUT w).
Definition nfsproc_write_2 (argp : writeargs) (clnt : CLIENT) (w : World) :=
  call_res as_attrstat (ch_clnt_call clnt NFSPROC_WRITE (xdr_writeargs_enc argp) xdr_attrstat TIMEOUT w).
Definition nfsproc_create_2 (argp : createargs) (clnt : CLIENT) (w : World) :=
  call_res as_diropres (ch_clnt_call clnt NFSPROC_CREATE (xdr_createargs_enc argp) xdr_diropres TIMEOUT w).
Definition nfsproc_remove_2 (argp : diropargs) (clnt : CLIENT) (w : World) :=
  call_res as_nfsstat (ch_clnt_call clnt NFSPROC_REMOVE (xdr_diropargs_enc argp) xdr_nfsstat TIMEOUT w).
Definition nfsproc_rename_2 (argp : renameargs) (clnt : CLIENT) (w : World) :=
  call_res as_nfsstat (ch_clnt_call clnt NFSPROC_RENAME (xdr_renameargs_enc argp) xdr_nfsstat TIMEOUT w).
Definition nfsproc_link_2 (argp : linkargs) (clnt : CLIENT) (w : World) :=
  call_res as_nfsstat (ch_clnt_call clnt NFSPROC_LINK (xdr_linkargs_enc argp) xdr_nfsstat TIMEOUT w).
Definition nfsproc_symlink_2 (argp : symlinkargs) (clnt : CLIENT) (w : World) :=
  call_res as_nfsstat (ch_clnt_call clnt NFSPROC_SYMLINK (xdr_symlinkargs_enc argp) xdr_nfsstat TIMEOUT w).
Definition nfsproc_mkdir_2 (argp : createargs) (clnt : CLIENT) (w : World) :=
  call_res as_diropres (ch_clnt_call clnt NFSPROC_MKDIR (xdr_createargs_enc argp) xdr_diropres TIMEOUT w).
Definition nfsproc_rmdir_2 (argp : diropargs) (clnt : CLIENT) (w : World) :=
  call_res as_nfsstat (ch_clnt_call clnt NFSPROC_RMDIR (xdr_diropargs_enc argp) xdr_nfsstat TIMEOUT w).
(** The entries of the result before are freed: a result is good until the
    next call. *)
Definition nfsproc_readdir_2 (argp : readdirargs) (clnt : CLIENT) (w : World) :=
  call_res as_readdirres (ch_clnt_call clnt NFSPROC_READDIR (xdr_readdirargs_enc argp) xdr_readdirres TIMEOUT w).
Definition nfsproc_statfs_2 (argp : nfs_fh) (clnt : CLIENT) (w : World) :=
  call_res as_statfsres (ch_clnt_call clnt NFSPROC_STATFS (xdr_nfs_fh_enc argp) xdr_statfsres TIMEOUT w).

(** ** Requests sent together *)

(** Sending: whether the request is under way. *)
Definition sent_ok (out : outcome) : bool * CLIENT * World :=
  let '((st, _), clnt, w) := out in (st =? RPC_TIMEDOUT, clnt, w).

(** [res] is the pointer to the result; the buffer its data goes to hangs off
    it. *)
Definition nfsproc_send_read_buf (argp : readargs) (clnt : CLIENT) (res userdata : Z) (w : World) : bool * CLIENT * World :=
  sent_ok (clntaudp_send clnt NFSPROC_READ (xdr_readargs_enc argp) xdr_readres res userdata w).

(** The pointer handed out, what it points to, and the caller's pointer. *)
Definition nfsproc_wait_read_buf (clnt : CLIENT) (w : World) : option (option (Z * Z * result) * CLIENT * World) :=
  '((st, res), clnt, w) ← clntaudp_wait xdr_dec (wait_turns clnt TIMEOUT w) clnt TIMEOUT w;
  if negb (st =? RPC_SUCCESS) then Some (None, clnt, w)
  else r ← res; Some (Some (cla_resp clnt, cla_userdata clnt, r), clnt, w).

(** [clnt_res] after a wait: the request may have had another result pointer. *)
Definition waited_res (clnt : CLIENT) (res : option result) : option attrstat :=
  if cla_resp clnt =? clnt_res then r ← res; as_attrstat r else Some cleared_attrstat.

Definition nfsproc_wait_write_2 (clnt : CLIENT) (w : World) : option (option attrstat * CLIENT * World) :=
  '((st, res), clnt, w) ← clntaudp_wait xdr_dec (wait_turns clnt TIMEOUT w) clnt TIMEOUT w;
  if negb (st =? RPC_SUCCESS) then Some (None, clnt, w)
  else a ← waited_res clnt res; Some (Some a, clnt, w).

(** The flag is set for an error other than the timeout. *)
Definition nfsproc_check_write_2 (clnt : CLIENT) (error_flag : bool) (w : World) :
  option (option attrstat * bool * CLIENT * World) :=
  let NOTIMEOUT := TV 0 0 in
  '((st, res), clnt, w) ← clntaudp_wait xdr_dec (wait_turns clnt NOTIMEOUT w) clnt NOTIMEOUT w;
  if negb (st =? RPC_SUCCESS) then Some (None, negb (st =? RPC_TIMEDOUT), clnt, w)
  else a ← waited_res clnt res; Some (Some a, error_flag, clnt, w).

(** The data goes as a block behind the rest. *)
Definition nfsproc_send_writesb_2 (argp : writeargs) (clnt : CLIENT) (w : World) : bool * CLIENT * World :=
  sent_ok (clntaudp_sendsb clnt NFSPROC_WRITE (xdr_writeargssb_enc argp) xdr_attrstat clnt_res 0
             (Some (wa_data argp)) w).
Definition nfsproc_send_write_2 (argp : writeargs) (clnt : CLIENT) (w : World) : bool * CLIENT * World :=
  sent_ok (clntaudp_send clnt NFSPROC_WRITE (xdr_writeargs_enc argp) xdr_attrstat clnt_res 0 w).
End Stubs.
