(* ===== verification/Wire.v ===== *)
(** * What the transport does on the wire

    Whatever becomes of a call or of waiting, the network and the record of
    what went over it change by steps of a few kinds, and the settings of the
    handle stay. *)
From S2P Require Import Prelude NfsSupp Xdr Udp UdpSpec UdpRun Stubs.

(** ** Steps *)

Section Steps.
Context {N : Type} `{Net N} `{Requester N}.
Abbreviation World := (World N).

(** [sz] is the size of the buffer for replies. *)
Inductive wstep (sz : Z) : World -> World -> Prop :=
  | ws_select t n r n' l : net_select t n = (r, n') -> wstep sz (MkWorld n l) (MkWorld n' l)
  | ws_nothing n e n' l : net_recvfrom sz n = (inl e, n') -> wstep sz (MkWorld n l) (MkWorld n' l)
  | ws_hear n d n' l : net_recvfrom sz n = (inr d, n') -> wstep sz (MkWorld n l) (MkWorld n' (Heard d :: l))
  | ws_send p n r n' l : net_sendto p n = (r, n') -> wstep sz (MkWorld n l) (MkWorld n' (Sent p :: l))
  | ws_mem n m n' l : net_mem n = (m, n') -> wstep sz (MkWorld n l) (MkWorld n' l)
  | ws_cb n b n' l : timeout_cb n = (b, n') -> wstep sz (MkWorld n l) (MkWorld n' l)
  | ws_ask n a n' l : APrintReq2 n = (a, n') -> wstep sz (MkWorld n l) (MkWorld n' l).
Definition wsteps (sz : Z) : World -> World -> Prop := rtc (wstep sz).

Lemma send_all_steps sz p w f w' : send_all p w = (f, w') -> wsteps sz w w'.
Proof.
  unfold send_all, sendto. destruct w as [n l]. simpl. destruct (net_sendto p n) as [[k e] n'] eqn:E. intros [= _ <-].
  by eapply rtc_once, ws_send.
Qed.
Lemma recv_turn_steps {P} mine (cu : mcu_data P) w t w' : recv_turn mine cu w = (t, w') -> wsteps (mcu_recvsz cu) w w'.
Proof.
  unfold recv_turn. destruct w as [n l]. simpl. destruct (net_select _ n) as [s n1] eqn:Es.
  assert (H1 : wsteps (mcu_recvsz cu) (MkWorld n l) (MkWorld n1 l)) by (by eapply rtc_once, ws_select).
  destruct s; [by intros [= _ <-]|by intros [= _ <-]|]. destruct (net_recvfrom _ n1) as [[e|d] n2] eqn:Er; intros [= _ <-].
  - eapply rtc_r; [exact H1|]. by eapply ws_nothing.
  - eapply rtc_r; [exact H1|]. by apply ws_hear.
Qed.
Lemma RPCTimeoutReq_steps sz w b w' : RPCTimeoutReq w = (b, w') -> wsteps sz w w'.
Proof.
  unfold RPCTimeoutReq. destruct w as [n l]. simpl. destruct (use_timeout_req n); [|by intros [= _ <-]].
  destruct (APrintReq2 n) as [a n'] eqn:E. intros [= _ <-]. by eapply rtc_once, ws_ask.
Qed.
End Steps.

(** ** Settings *)

Section Conf.
Context {AUTH N result P : Type} `{EqDecision P} `{RpcLib AUTH} `{Net N} `{Requester N}.
Context (xdr_dec : P -> DEC result).
(** What is known of the headers in the slots, whatever the id. *)
Context (hdr_ok : list byte -> Prop).
Hypothesis hdr_ok_xid : forall hdr xid, hdr_ok hdr -> hdr_ok (be32 xid ++ drop 4 hdr).
Abbreviation CLIENT := (CLIENT AUTH P).
Abbreviation World := (World N).
Implicit Types (cl : CLIENT) (w : World).

Definition hdrs_ok (l : list scu_data) : Prop := Forall (fun s => hdr_ok (scu_hdr s)) l.

Record conf cl cl' : Prop := {
  cf_num : mcu_numscu (cl_cu cl') = mcu_numscu (cl_cu cl);
  cf_len : zlen (mcu_scu (cl_cu cl')) = zlen (mcu_scu (cl_cu cl));
  cf_cb : mcu_cb (cl_cu cl') = mcu_cb (cl_cu cl);
  cf_wait : mcu_wait (cl_cu cl') = mcu_wait (cl_cu cl);
  cf_total : mcu_total (cl_cu cl') = mcu_total (cl_cu cl);
  cf_sendsz : mcu_sendsz (cl_cu cl') = mcu_sendsz (cl_cu cl);
  cf_recvsz : mcu_recvsz (cl_cu cl') = mcu_recvsz (cl_cu cl);
  cf_hdrs : hdrs_ok (mcu_scu (cl_cu cl)) -> hdrs_ok (mcu_scu (cl_cu cl'))
}.
#[export] Instance conf_PreOrder : PreOrder conf.
Proof.
  split; [by constructor|]. intros c1 c2 c3 [] []. constructor; try congruence. auto.
Qed.

(** Handles that differ in what the settings do not name. *)
Lemma conf_same cl cl' : mcu_numscu (cl_cu cl') = mcu_numscu (cl_cu cl) -> mcu_scu (cl_cu cl') = mcu_scu (cl_cu cl) ->
  mcu_cb (cl_cu cl') = mcu_cb (cl_cu cl) -> mcu_wait (cl_cu cl') = mcu_wait (cl_cu cl) ->
  mcu_total (cl_cu cl') = mcu_total (cl_cu cl) -> mcu_sendsz (cl_cu cl') = mcu_sendsz (cl_cu cl) ->
  mcu_recvsz (cl_cu cl') = mcu_recvsz (cl_cu cl) -> conf cl cl'.
Proof. intros Hn Hs Hc Hw Ht Hz Hr. constructor; rewrite ?Hs; done. Qed.
Lemma conf_scus cl l : zlen l = zlen (mcu_scu (cl_cu cl)) -> (hdrs_ok (mcu_scu (cl_cu cl)) -> hdrs_ok l) ->
  conf cl (set_cu (set_scus l (cl_cu cl)) cl).
Proof. by constructor. Qed.
Lemma conf_store cl i s s' : mcu_scu (cl_cu cl) !! i = Some s -> (hdr_ok (scu_hdr s) -> hdr_ok (scu_hdr s')) ->
  conf cl (store_scu i s' cl).
Proof.
  intros Hi Hs. apply conf_scus; [unfold zlen; by rewrite length_insert|]. unfold hdrs_ok. intros Hl.
  apply Forall_insert; [done|]. apply Hs. by eapply (Forall_lookup_1 (fun s => hdr_ok (scu_hdr s))).
Qed.

Lemma find_slot_lookup p (l : list scu_data) i s : find_slot p l = Some (i, s) -> l !! i = Some s /\ p s = true.
Proof.
  intros Hf. pose proof (find_slot_ok p l) as Hok. rewrite Hf in Hok. destruct Hok as (Hp & l1 & l2 & -> & <-).
  split; [by apply list_lookup_middle|done].
Qed.

Ltac same := by apply conf_same.

Lemma put_request_conf proc xargs scu cl scu' cl' : put_request proc xargs scu cl = (scu', cl') ->
  conf cl cl' /\ mcu_scu (cl_cu cl') = mcu_scu (cl_cu cl) /\ (hdr_ok (scu_hdr scu) -> hdr_ok (scu_hdr scu')).
Proof.
  unfold put_request. intros [= <- <-]. split; [same|]. split; [done|]. simpl. apply hdr_ok_xid.
Qed.

Lemma decode_reply_steps sz xres d cl w r cl' w' : decode_reply xdr_dec xres d cl w = (r, cl', w') -> conf cl cl' /\ wsteps sz w w' /\ mcu_scu (cl_cu cl') = mcu_scu (cl_cu cl).
Proof.
  unfold decode_reply. destruct w as [n l]. simpl. destruct (net_mem n) as [m n'] eqn:E.
  assert (Hs : wsteps sz (MkWorld n l) (MkWorld n' l)) by (by eapply rtc_once, ws_mem).
  destruct (xdr_replymsg _ _) as [[reply x]|]; intros [= _ <- <-]; (split; [same|done]).
Qed.
Lemma validate_conf (reply : REPLY result) cl : conf cl (validate reply cl) /\ mcu_scu (cl_cu (validate reply cl)) = mcu_scu (cl_cu cl).
Proof. unfold validate. destruct (auth_validate _ _) as [[] auth]; (split; [same|done]). Qed.

Lemma call_recv_steps fuel p timeout (cu : mcu_data P) : forall waited w r wd w',
  call_recv fuel p timeout waited cu w = Some (r, wd, w') -> wsteps (mcu_recvsz cu) w w'.
Proof.
  induction fuel as [|fuel IH]; intros waited w r wd w'; [done|]. cbn [call_recv].
  destruct (recv_turn _ cu w) as [t w1] eqn:Et. apply recv_turn_steps in Et.
  destruct t; [|by intros [= _ _ <-]| |by intros [= _ _ <-]].
  - destruct (less_timeval _ _); [|by intros [= _ _ <-]]. unfold send_again. destruct (send_all p w1) as [f w2] eqn:Es.
    apply (send_all_steps (mcu_recvsz cu)) in Es. assert (H2 : wsteps (mcu_recvsz cu) w w2) by (etrans; done).
    destruct f; [by intros [= _ _ <-]|]. destruct (is_zero timeout); [by intros [= _ _ <-]|].
    intros Hr%IH. by etrans.
  - intros Hr%IH. by etrans.
Qed.
Lemma call_send_steps fuel p timeout waited (cu : mcu_data P) w r wd w' :
  call_send fuel p timeout waited cu w = Some (r, wd, w') -> wsteps (mcu_recvsz cu) w w'.
Proof.
  unfold call_send, send_again. destruct (send_all p w) as [f w1] eqn:Es. apply (send_all_steps (mcu_recvsz cu)) in Es.
  destruct f; [by intros [= _ _ <-]|]. destruct (is_zero timeout); [by intros [= _ _ <-]|]. intros Hr%call_recv_steps. by etrans.
Qed.

(** [call_round], of either result. *)
Definition round_end (o : outcome (result := result) + timeval * CLIENT * World) : CLIENT * World :=
  match o with inl (_, cl, w) => (cl, w) | inr (_, cl, w) => (cl, w) end.

Lemma call_round_steps fuel proc xargs xres timeout waited cl w o :
  call_round xdr_dec fuel proc xargs xres timeout waited cl w = Some o ->
  conf cl (round_end o).1 /\ wsteps (mcu_recvsz (cl_cu cl)) w (round_end o).2.
Proof.
  unfold call_round. destruct (mcu_scu (cl_cu cl) !! 0%nat) as [scu|] eqn:Hl; [|done]. cbn [mbind option_bind].
  destruct (put_request proc xargs scu cl) as [scu' cl1] eqn:Ep. apply put_request_conf in Ep as (Hc1 & Hs1 & Hh).
  assert (Hc2 : conf cl (store_scu 0 scu' cl1)) by (etrans; [exact Hc1|]; eapply conf_store; [by rewrite Hs1|done]).
  set (cl2 := store_scu 0 scu' cl1) in *. destruct (scu_args scu') as [args|].
  2:{ intros [= <-]. split; [|done]. simpl. etrans; [exact Hc2|]. same. }
  destruct (call_send _ _ _ _ _ w) as [[[r wd] w1]|] eqn:Er; [|done]. apply call_send_steps in Er.
  rewrite (cf_recvsz _ _ Hc2) in Er. cbn [mbind option_bind]. destruct r as [st|d].
  { intros [= <-]. destruct st as [st [e|]]; (split; [|done]); (etrans; [exact Hc2|same]). }
  destruct (decode_reply xdr_dec xres d cl2 w1) as [[reply cl3] w2] eqn:Ed.
  apply (decode_reply_steps (mcu_recvsz (cl_cu cl))) in Ed as (Hc3 & Hw2 & _).
  assert (Hc : conf cl cl3) by (etrans; done). assert (Hw : wsteps (mcu_recvsz (cl_cu cl)) w w2) by (etrans; done).
  destruct reply as [reply|]; [|by intros [= <-]]. destruct (_ =? _); intros [= <-]; [|done].
  split; [|done]. simpl. etrans; [exact Hc|]. apply validate_conf.
Qed.

Lemma call_again_steps n fuel proc xargs xres timeout : forall waited cl w r cl' w',
  call_again xdr_dec n fuel proc xargs xres timeout waited cl w = Some (r, cl', w') ->
  conf cl cl' /\ wsteps (mcu_recvsz (cl_cu cl)) w w'.
Proof.
  induction n as [|n IH]; intros waited cl w r cl' w'; cbn [call_again];
    destruct (call_round _ _ _ _ _ _ _ cl w) as [o|] eqn:Eo; try done; apply call_round_steps in Eo as [Hc Hw]; cbn [mbind option_bind];
    destruct o as [[[r1 cl1] w1]|[[wd cl1] w1]]; simpl in Hc, Hw; try (by intros [= _ <- <-]).
  destruct (auth_refresh (cl_auth cl1)) as [ok auth]. assert (Hc1 : conf cl (set_auth auth cl1)) by (etrans; [exact Hc|same]).
  destruct ok; [|by intros [= _ <- <-]]. intros [Hc2 Hw2]%IH. split; [by etrans|]. etrans; [exact Hw|].
  by rewrite (cf_recvsz _ _ Hc1) in Hw2.
Qed.

Lemma clntaudp_sendsb_steps cl proc xargs xres resultsp userdata block w r cl' w' :
  clntaudp_sendsb (result := result) cl proc xargs xres resultsp userdata block w = ((r, cl'), w') ->
  conf cl cl' /\ wsteps (mcu_recvsz (cl_cu cl)) w w'.
Proof.
  unfold clntaudp_sendsb, give_errno, give. destruct (_ =? 0); [intros [= _ <- <-]; split; [same|done]|].
  destruct (find_slot _ _) as [[i scu]|] eqn:Ef; [|intros [= _ <- <-]; split; [same|done]].
  apply find_slot_lookup in Ef as [Hi _].
  set (cl0 := if mcu_numfreescu (cl_cu cl) =? mcu_numscu (cl_cu cl) then _ else cl).
  assert (Hcl0 : conf cl cl0 /\ mcu_scu (cl_cu cl0) = mcu_scu (cl_cu cl)) by (unfold cl0; destruct (_ =? _); (split; [same|done])).
  destruct Hcl0 as [Hcl0 Hs0]. destruct (negb _); [intros [= _ <- <-]; split; [|done]; etrans; [exact Hcl0|same]|].
  destruct (put_request _ _ _ cl0) as [scu' cl1] eqn:Ep. apply put_request_conf in Ep as (Hc1 & Hs1 & Hh).
  assert (Hc2 : conf cl (store_scu i scu' cl1)).
  { etrans; [exact Hcl0|]. etrans; [exact Hc1|]. eapply conf_store; [by rewrite Hs1, Hs0|]. exact Hh. }
  assert (Hi2 : mcu_scu (cl_cu (store_scu i scu' cl1)) !! i = Some scu').
  { simpl. rewrite list_lookup_insert_eq; [done|]. rewrite Hs1, Hs0. by eapply lookup_lt_Some. }
  set (cl2 := store_scu i scu' cl1) in *. clearbody cl2. destruct (scu_args scu') as [args|]; [|intros [= _ <- <-]; split; [|done]; etrans; [exact Hc2|same]].
  destruct (send_all _ w) as [f w1] eqn:Es. apply (send_all_steps (mcu_recvsz (cl_cu cl))) in Es.
  destruct f; intros [= _ <- <-]; (split; [etrans; [exact Hc2|]|done]); [same|].
  etrans; [eapply (conf_store _ i scu' (set_inuse true scu')); [exact Hi2|done]|same].
Qed.

Lemma timed_out_steps sz cb wait timeout l : forall w l' r w', timed_out cb wait timeout l w = (l', r, w') ->
  wsteps sz w w' /\ zlen l' = zlen l /\ (hdrs_ok l -> hdrs_ok l').
Proof.
  induction l as [|s l IH]; intros w l' r w'; cbn [timed_out]; [by intros [= <- _ <-]|].
  assert (Hcons : forall s' w1 l1 r1 w2, (hdr_ok (scu_hdr s) -> hdr_ok (scu_hdr s')) -> wsteps sz w w1 ->
    timed_out cb wait timeout l w1 = (l1, r1, w2) -> wsteps sz w w2 /\ zlen (s' :: l1) = zlen (s :: l) /\ (hdrs_ok (s :: l) -> hdrs_ok (s' :: l1))).
  { intros s' w1 l1 r1 w2 Hh Hw1 (Hw & Hz & Hl)%IH. split; [by etrans|]. split; [by rewrite !zlen_cons, Hz|].
    unfold hdrs_ok in *. rewrite !Forall_cons. tauto. }
  destruct (scu_inuse s).
  2:{ destruct (timed_out cb wait timeout l w) as [[l1 r1] w1] eqn:E. intros [= <- _ <-]. by eapply Hcons. }
  destruct (less_timeval _ _); [intros [= <- _ <-]; split; [done|]; split; [done|]; unfold hdrs_ok; by rewrite !Forall_cons|].
  destruct (if cb then _ else _) as [again w1] eqn:Ea.
  assert (Hw1 : wsteps sz w w1).
  { destruct cb; [|by injection Ea as _ <-]. destruct w as [n lg]. simpl in Ea. destruct (timeout_cb n) as [b n'] eqn:E. injection Ea as _ <-.
    by eapply rtc_once, ws_cb. }
  destruct again; [intros [= <- _ <-]; split; [done|]; split; [done|]; unfold hdrs_ok; by rewrite !Forall_cons|].
  destruct (timed_out cb wait timeout l w1) as [[l1 r1] w2] eqn:E. intros [= <- _ <-]. by eapply Hcons.
Qed.

Lemma wait_recv_steps fuel timeout : forall cl w r cl' w', wait_recv fuel timeout cl w = Some (r, cl', w') ->
  conf cl cl' /\ wsteps (mcu_recvsz (cl_cu cl)) w w' /\
  (forall i s d, r = inr (i, s, d) -> mcu_scu (cl_cu cl') !! i = Some s).
Proof.
  induction fuel as [|fuel IH]; intros cl w r cl' w'; [done|]. cbn [wait_recv].
  destruct (recv_turn _ (cl_cu cl) w) as [t w1] eqn:Et. apply recv_turn_steps in Et. destruct t as [|e| |d].
  - destruct (timed_out _ _ _ _ w1) as [[l1 r1] w2] eqn:Eo. apply (timed_out_steps (mcu_recvsz (cl_cu cl))) in Eo as (Hw2 & Hz & Hh).
    assert (Hc : conf cl (set_cu (set_scus l1 (cl_cu cl)) cl)) by (by apply conf_scus).
    set (cl1 := set_cu _ cl) in *. assert (H2 : wsteps (mcu_recvsz (cl_cu cl)) w w2) by (etrans; done).
    destruct r1 as [s|]; [|by intros [= <- <- <-]]. destruct (scu_args s) as [args|]; [|done]. cbn [mbind option_bind].
    destruct (send_all _ w2) as [f w3] eqn:Es. apply (send_all_steps (mcu_recvsz (cl_cu cl))) in Es.
    assert (H3 : wsteps (mcu_recvsz (cl_cu cl)) w w3) by (etrans; done).
    destruct f; [by intros [= <- <- <-]|]. intros (Hc2 & Hw4 & Hr)%IH. split; [by etrans|]. split; [|done].
    rewrite (cf_recvsz _ _ Hc) in Hw4. by etrans.
  - by intros [= <- <- <-].
  - intros (Hc2 & Hw4 & Hr)%IH. split; [done|]. split; [by etrans|done].
  - destruct (find_slot _ _) as [[i s]|] eqn:Ef; [|done]. cbn [mbind option_bind]. intros [= <- <- <-].
    split; [done|]. split; [done|]. intros i' s' d' [= <- <- _]. by apply find_slot_lookup in Ef as [? _].
Qed.

Lemma clntaudp_wait_steps fuel cl utimeout w r cl' w' : clntaudp_wait xdr_dec fuel cl utimeout w = Some (r, cl', w') ->
  conf cl cl' /\ wsteps (mcu_recvsz (cl_cu cl)) w w'.
Proof.
  unfold clntaudp_wait, take_reply. destruct (wait_recv _ _ cl w) as [[[r1 cl1] w1]|] eqn:Er; [|done].
  apply wait_recv_steps in Er as (Hc1 & Hw1 & Hi). cbn [mbind option_bind]. destruct r1 as [st|[[i s] d]].
  { destruct st as [st [e|]]; intros [= _ <- <-]; (split; [|done]); (etrans; [exact Hc1|same]). }
  specialize (Hi _ _ _ eq_refl). assert (Hc2 : conf cl (set_wait s cl1)) by (etrans; [exact Hc1|same]).
  change (mcu_scu (cl_cu cl1)) with (mcu_scu (cl_cu (set_wait s cl1))) in Hi. set (cl2 := set_wait s cl1) in *. clearbody cl2.
  destruct (mcu_xresults (cl_cu cl2)) as [xres|]; [|done]. cbn [mbind option_bind].
  destruct (decode_reply xdr_dec xres d cl2 w1) as [[reply cl3] w2] eqn:Ed.
  apply (decode_reply_steps (mcu_recvsz (cl_cu cl))) in Ed as (Hc3 & Hw2 & Hs3). rewrite <-Hs3 in Hi.
  assert (Hc : conf cl cl3) by (etrans; done). assert (Hw : wsteps (mcu_recvsz (cl_cu cl)) w w2) by (etrans; done).
  assert (Hfree : forall c, conf cl c -> mcu_scu (cl_cu c) !! i = Some s -> conf cl (free_slot i s c)).
  { intros c Hcc Hic. unfold free_slot. etrans; [exact Hcc|]. etrans; [eapply (conf_store _ i s (set_inuse false s)); done|same]. }
  destruct reply as [reply|]; [|intros [= _ <- <-]; split; [by apply Hfree|done]].
  destruct (_ =? _).
  { intros [= _ <- <-]. split; [|done]. destruct (validate_conf reply cl3) as [Hv Hvs].
    apply Hfree; [by etrans|by rewrite Hvs]. }
  destruct (scu_nrefreshes s) as [|nr]; [intros [= _ <- <-]; split; [by apply Hfree|done]|].
  destruct (auth_refresh (cl_auth cl3)) as [ok auth].
  assert (Hca : conf cl (set_auth auth cl3)) by (etrans; [exact Hc|same]).
  destruct ok; intros [= _ <- <-]; (split; [|done]); [|by apply Hfree].
  etrans; [exact Hca|]. etrans; [eapply (conf_store _ i s (set_nrefreshes nr s)); done|same].
Qed.

Lemma clntaudp_abort_conf cl : conf cl (clntaudp_abort cl).
Proof.
  unfold clntaudp_abort. destruct (abort_slots (mcu_scu (cl_cu cl)) (mcu_numfreescu (cl_cu cl))) as [l n] eqn:E.
  assert (Hl : zlen l = zlen (mcu_scu (cl_cu cl)) /\ (hdrs_ok (mcu_scu (cl_cu cl)) -> hdrs_ok l)).
  { clear -E. revert l n E. generalize (mcu_numfreescu (cl_cu cl)). induction (mcu_scu (cl_cu cl)) as [|s l0 IH]; intros k l n; simpl; [by intros [= <- _]|].
    destruct (if scu_inuse s then _ else _) as [s' k'] eqn:Es. destruct (abort_slots l0 k') as [l1 n1] eqn:El. intros [= <- _].
    destruct (IH _ _ _ El) as [Hz Hh]. split; [by rewrite !zlen_cons, Hz|]. unfold hdrs_ok in *. rewrite !Forall_cons. intros [? ?].
    split; [|by apply Hh]. destruct (scu_inuse s); by injection Es as <- _. }
  destruct Hl as [Hz Hh]. etrans; [by apply (conf_scus _ l)|]. by apply conf_same.
Qed.
End Conf.
