(* ===== verification/NfsNet.v ===== *)
(** * A network with a file server behind it

    What the transport relies on of the network when the datagrams it sends
    are requests to an NFS server: [NfsNetwork].  No datagram is promised to
    arrive: a request may be lost, and it may be carried out at any later time,
    any number of times and behind requests that were sent after it; so may a
    reply be lost, late, out of order or doubled.  Datagrams are not damaged or
    made up: what is carried out was sent, what is heard is the answer to a request
    that was carried out, with its id, and not to one so old that the id has come
    round again ([lifetime]).  The section [History] has what
    a reply that is heard tells about the server. *)
From S2P Require Import Prelude NfsProt NfsSupp Nfs NfsServer Xdr XdrSpec NfsXdr NfsXdrSpec Udp UdpSpec UdpRun Stubs Wire.

Definition NFS_PROGRAM : Z := 100003.
Definition NFS_VERSION : Z := 2.

Definition Files : Type := nfs_fh -> Z -> byte.

(** ** Requests *)

Section Requests.
Context {AUTH : Type} `{RpcLib AUTH}.

(** The header of a call of the program with any id, and a call of one of its
    procedures. *)
Definition nfs_hdr (hdr : list byte) : Prop :=
  exists xid room xdrs, xdr_callhdr xid NFS_PROGRAM NFS_VERSION (MkXDRE [] room) = Some xdrs /\
    zlen hdr = zlen (xe_out xdrs) /\ drop 4 hdr = drop 4 (xe_out xdrs).
Definition nfs_call (proc : Z) (xargs : ENC) (q : list byte) : Prop :=
  exists hdr sendsz, nfs_hdr hdr /\ is_call hdr sendsz proc xargs q.

(** A request to write: the data are part of the arguments or a block behind
    them.  It may be cut off before the block. *)
Definition write_request (q : list byte) (a : writeargs) : Prop :=
  nfs_call NFSPROC_WRITE (xdr_writeargs_enc a) q \/
  exists q0, nfs_call NFSPROC_WRITE (xdr_writeargssb_enc a) q0 /\ q = q0 ++ wa_data a.
Definition cut_request (q : list byte) (a : writeargs) : Prop :=
  nfs_call NFSPROC_WRITE (xdr_writeargssb_enc a) q /\ wa_data a <> [].
Definition read_request (q : list byte) (a : readargs) : Prop := nfs_call NFSPROC_READ (xdr_readargs_enc a) q.

(** A datagram is a reply with the results [r]. *)
Definition gives (xres : xdrproc) (d : list byte) (r : result) : Prop :=
  exists reply, decodes xdr_dec xres d reply /\ ar_results reply = Some r.

(** What a request that arrives may do to the files: a write puts its bytes in
    place, all or some of them; what is cut off, a read and a question for attributes
    change nothing. *)
Record effect (q : list byte) (F F' : Files) : Prop := {
  ef_write a : write_request q a -> writeargs_ok a ->
    forall f o, F' f o = F f o \/ (wrange a f o /\ F' f o = write_to F a f o);
  ef_cut a : cut_request q a -> writeargs_ok a -> forall f o, F' f o = F f o;
  ef_read a : read_request q a -> readargs_ok a -> forall f o, F' f o = F f o;
  ef_attr f0 : nfs_call NFSPROC_GETATTR (xdr_nfs_fh_enc f0) q -> fh_ok f0 -> forall f o, F' f o = F f o
}.

(** What the reply [d] to it tells. *)
Record answer (q d : list byte) (F F' : Files) : Prop := {
  an_write a attr : write_request q a -> writeargs_ok a -> gives xdr_attrstat d (Attrstat (NfsOk attr)) ->
    forall f o, F' f o = write_to F a f o;
  an_cut a attr : cut_request q a -> writeargs_ok a -> ~ gives xdr_attrstat d (Attrstat (NfsOk attr));
  an_read a res : read_request q a -> readargs_ok a -> gives xdr_readres d (Readres (NfsOk res)) ->
    zlen (ro_data res) <= ra_count a /\
    forall i b, ro_data res !! i = Some b -> b = F (ra_file a) (ra_offset a + Z.of_nat i)
}.
End Requests.

(** ** The network *)

(** A request that was carried out, and the files before and after it. *)
Record entry_ := MkEntry { en_packet : list byte; en_before : Files; en_after : Files }.

(** From the files [F0] over the requests of [new], the last first, to the files [F]. *)
Fixpoint joined {AUTH} `{RpcLib AUTH} (F : Files) (new : list entry_) (F0 : Files) : Prop :=
  match new with
  | [] => forall f o, F f o = F0 f o
  | e :: new => (forall f o, F f o = en_after e f o) /\ effect (en_packet e) (en_before e) (en_after e) /\
                joined (en_before e) new F0
  end.

(** A reply that comes is not to a request this old: the ids of requests repeat. *)
Definition lifetime : Z := 2 ^ 15 - 2.

(** [pending n q k]: the request [q], which was sent [k] requests ago, may still be
    carried out, once more or at all.  [in_transit n q d k]: the reply [d] to it may
    still be heard. *)
Class NfsNetwork (N AUTH : Type) `{Net N} `{Requester N} `{RpcLib AUTH} := {
  files : N -> Files;
  pending : N -> list byte -> nat -> Prop;
  in_transit : N -> list byte -> list byte -> nat -> Prop;
  (** Time passes: some of the requests [P] are carried out, and replies to them are
      on their way besides those that were. *)
  passes (P : list byte -> nat -> Prop) (T : list byte -> list byte -> nat -> Prop) (n n' : N) : Prop := exists new,
    joined (files n') new (files n) /\ (forall e, e ∈ new -> exists k, P (en_packet e) k) /\
    (forall q k, pending n' q k -> P q k) /\
    (forall q d k, in_transit n' q d k -> T q d k \/
       (P q k /\ exists e, e ∈ new /\ en_packet e = q /\ answer q d (en_before e) (en_after e)));
  transit_law n q d k : in_transit n q d k -> Z.of_nat k < lifetime /\ xid_of d = xid_of q;
  select_passes t n r n' : net_select t n = (r, n') -> passes (pending n) (in_transit n) n n';
  mem_passes n r n' : net_mem n = (r, n') -> passes (pending n) (in_transit n) n n';
  cb_passes n r n' : timeout_cb n = (r, n') -> passes (pending n) (in_transit n) n n';
  ask_passes n r n' : APrintReq2 n = (r, n') -> passes (pending n) (in_transit n) n n';
  recv_law sz n r n' : net_recvfrom sz n = (r, n') -> UDPMSGSIZE <= sz -> passes (pending n) (in_transit n) n n' /\
    forall d, r = inr d -> exists q k, in_transit n q d k;
  sendto_law p n r n' : net_sendto p n = (r, n') ->
    passes (fun q k => (k = 0%nat /\ q = p) \/ exists k0, k = S k0 /\ pending n q k0)
           (fun q d k => exists k0, k = S k0 /\ in_transit n q d k0) n n'
}.

(** Nothing was sent yet. *)
Definition silent {N AUTH} `{NfsNetwork N AUTH} (n : N) : Prop :=
  (forall q k, ~ pending n q k) /\ (forall q d k, ~ in_transit n q d k).

(** ** History *)

Section History.
Context {N AUTH : Type} `{Net N} `{Requester N} `{RpcLib AUTH} `{!NfsNetwork N AUTH}.
Abbreviation World := (World N).
Implicit Types w : World.

Lemma joined_app F F1 F0 new2 new1 : joined F new2 F1 -> joined F1 new1 F0 -> joined F (new2 ++ new1) F0.
Proof.
  revert F. induction new2 as [|e new2 IH]; intros F; simpl.
  - intros HF. destruct new1 as [|e new1]; simpl; [intros Hj1 f o; by rewrite HF, Hj1|].
    intros (Ha & Hrest). split; [|done]. intros f o. by rewrite HF, Ha.
  - intros (Ha & He & Hj) Hj1. split; [done|]. split; [done|]. by apply IH.
Qed.
(** A byte that none of the requests changes. *)
Lemma joined_same F new F0 f o : joined F new F0 ->
  (forall e, e ∈ new -> en_after e f o = en_before e f o) -> F f o = F0 f o.
Proof.
  revert F. induction new as [|e new IH]; intros F; simpl; [done|]. intros (Ha & _ & Hj) Hn.
  rewrite Ha, (Hn e) by left. apply IH; [done|]. intros e' He'. apply Hn. by right.
Qed.
Lemma joined_effect F new F0 e : joined F new F0 -> e ∈ new -> effect (en_packet e) (en_before e) (en_after e).
Proof.
  revert F. induction new as [|e0 new IH]; intros F; simpl; [by intros _ ?%elem_of_nil|].
  intros (_ & He & Hj) [->|Hin]%elem_of_cons; [done|by eapply IH].
Qed.
(** The state of a byte since an entry. *)
Lemma joined_since F new F0 f o k e : joined F new F0 -> new !! k = Some e ->
  (forall j e', (j < k)%nat -> new !! j = Some e' -> en_after e' f o = en_before e' f o) -> F f o = en_after e f o.
Proof.
  revert F k. induction new as [|e0 new IH]; intros F k; simpl; [done|]. intros (Ha & _ & Hj) Hk Hn.
  destruct k as [|k]; simpl in Hk; [injection Hk as <-; apply Ha|]. rewrite Ha, (Hn 0%nat e0) by (lia || done).
  eapply IH; [done|exact Hk|]. intros j e' Hlt Hj'. by apply (Hn (S j)); [lia|].
Qed.

Lemma joined_ext F F' new F0 : (forall f o, F' f o = F f o) -> joined F new F0 -> joined F' new F0.
Proof.
  intros HF. destruct new as [|e new]; simpl; [intros Hj f o; by rewrite HF|]. intros (Ha & Hrest). split; [|done].
  intros f o. by rewrite HF.
Qed.

(** What happened: requests were sent, and were carried out. *)
Inductive happening := Asked (q : list byte) | Carried (e : entry_).
Definition asked (hist : list happening) : list (list byte) := omap (fun h => match h with Asked q => Some q | _ => None end) hist.
Definition carried (hist : list happening) : list entry_ := omap (fun h => match h with Carried e => Some e | _ => None end) hist.

Lemma asked_app h1 h2 : asked (h1 ++ h2) = asked h1 ++ asked h2.
Proof. apply omap_app. Qed.
Lemma carried_app h1 h2 : carried (h1 ++ h2) = carried h1 ++ carried h2.
Proof. apply omap_app. Qed.
Lemma asked_carried new : asked (Carried <$> new) = [].
Proof. by induction new. Qed.
Lemma carried_carried new : carried (Carried <$> new) = new.
Proof. induction new as [|e new IH]; [done|]. simpl. by f_equal. Qed.
Lemma carried_in e hist : e ∈ carried hist <-> Carried e ∈ hist.
Proof.
  unfold carried. rewrite list_elem_of_omap. split.
  - intros ([q|e'] & Hin & [=]). by subst.
  - intros Hin. by exists (Carried e).
Qed.

(** The request [q], sent [k] requests ago, has been carried out since, and [d] is
    a reply to that. *)
Definition replied (hist : list happening) (q d : list byte) (k : nat) : Prop :=
  asked hist !! k = Some q /\ exists h1 e h2, hist = h1 ++ Carried e :: h2 /\ (length (asked h1) <= k)%nat /\
    en_packet e = q /\ answer q d (en_before e) (en_after e).

Lemma replied_more new hist q d k : replied hist q d k -> replied (new ++ hist) q d (length (asked new) + k).
Proof.
  intros (Hq & h1 & e & h2 & -> & Hk & He & Ha). split; [by rewrite asked_app, lookup_app_r, Nat.add_comm, Nat.add_sub by lia|].
  exists (new ++ h1), e, h2. rewrite asked_app, length_app, <-app_assoc. split_and!; [done|lia|done..].
Qed.
(** If the request is a late one, so is its being carried out. *)
Lemma replied_late new hist q d k : replied (new ++ hist) q d k -> (k < length (asked new))%nat ->
  q ∈ asked new /\ exists e, e ∈ carried new /\ en_packet e = q /\ answer q d (en_before e) (en_after e).
Proof.
  intros (Hq & h1 & e & h2 & Eh & Hk & He & Ha) Hlt. split.
  { rewrite asked_app, lookup_app_l in Hq by done. by eapply list_elem_of_lookup_2. }
  exists e. split; [|done]. apply carried_in. apply app_eq_inv in Eh as [(l & -> & El)|(l & -> & El)].
  - destruct l as [|h l]; simpl in El; [rewrite app_nil_r in *; lia|]. injection El as <- _. set_solver.
  - rewrite asked_app, length_app in Hk. lia.
Qed.
Lemma replied_carried hist q d k : replied hist q d k ->
  exists e, e ∈ carried hist /\ en_packet e = q /\ answer q d (en_before e) (en_after e).
Proof. intros (_ & h1 & e & h2 & -> & _ & He & Ha). exists e. split; [|done]. apply carried_in. set_solver. Qed.

(** The history, from the files [F0], accounts for the record [w_log] of a world, for
    what may still happen and for what was heard. *)
Record explained (F0 : Files) w (hist : list happening) : Prop := {
  ex_sends : asked hist = sends (w_log w);
  ex_linked : joined (files (w_net w)) (carried hist) F0;
  ex_carried e : e ∈ carried hist -> en_packet e ∈ asked hist;
  ex_pending q k : pending (w_net w) q k -> asked hist !! k = Some q;
  ex_transit q d k : in_transit (w_net w) q d k -> replied hist q d k;
  ex_heard l1 d l2 : w_log w = l1 ++ Heard d :: l2 -> exists q k, Z.of_nat k < lifetime /\ xid_of d = xid_of q /\
    replied hist q d (length (sends l1) + k)
}.

(** Time passes over some history [new], which has the request sent if there was one. *)
Lemma explained_passes F0 (P : list byte -> nat -> Prop) T n n' l hist sent : passes P T n n' ->
  explained F0 (MkWorld n l) hist ->
  (forall q k, P q k -> (sent ++ asked hist) !! k = Some q) ->
  (forall q d k, T q d k -> exists k0, k = (length sent + k0)%nat /\ in_transit n q d k0) ->
  exists new, explained F0 (MkWorld n' (map Sent sent ++ l)) (new ++ hist) /\ joined (files n') (carried new) (files n).
Proof.
  intros (new & Hj & Hl & Hp & Ht) [Hs Hln Hca Hpe Htr Hh] HP HT. exists ((Carried <$> new) ++ (Asked <$> sent)).
  assert (Ea : asked ((Carried <$> new) ++ (Asked <$> sent)) = sent).
  { rewrite asked_app, asked_carried. simpl. clear. induction sent as [|q sent IH]; [done|]. simpl. by f_equal. }
  assert (Ec : carried ((Carried <$> new) ++ (Asked <$> sent)) = new).
  { rewrite carried_app, carried_carried. assert (carried (Asked <$> sent) = []) as -> by (clear; by induction sent). by rewrite app_nil_r. }
  assert (Es : sends (map Sent sent) = sent) by (clear; induction sent as [|q sent IH]; [done|]; simpl; by f_equal).
  rewrite Ec. split; [|done]. remember ((Carried <$> new) ++ (Asked <$> sent)) as nw eqn:Enw.
  constructor; simpl in *; rewrite ?asked_app, ?carried_app, ?Ea, ?Ec.
  - by rewrite sends_app, Es, Hs.
  - by eapply joined_app.
  - intros e [He|He]%elem_of_app; [|apply elem_of_app; right; by apply Hca].
    destruct (Hl e He) as [k Hk]. eapply list_elem_of_lookup_2, HP, Hk.
  - intros q k Hq. by apply HP, Hp.
  - intros q d k Hq. destruct (Ht _ _ _ Hq) as [HTq|(HPq & e & He & Hen & Ha)].
    + destruct (HT _ _ _ HTq) as (k0 & -> & Hq0). rewrite <-Ea. by apply replied_more, Htr.
    + split; [rewrite asked_app, Ea; by apply HP|]. apply list_elem_of_split in He as (l1 & l2 & ->).
      exists (Carried <$> l1), e, ((Carried <$> l2) ++ (Asked <$> sent) ++ hist). rewrite Enw, fmap_app, fmap_cons, <-!app_assoc.
      split; [done|]. rewrite asked_carried. simpl. split; [lia|done].
  - intros l1 d l2 Hlog. apply app_eq_inv in Hlog as [(k & E1 & E2)|(k & -> & E2)].
    + destruct k as [|h k]; simpl in E2; [|injection E2 as <- _].
      * rewrite app_nil_r in E1. subst l1. destruct (Hh [] d l2 (eq_sym E2)) as (q & k & Hk & Hx & Hr). exists q, k. split; [done|].
        split; [done|]. rewrite Es, <-Ea. by apply (replied_more _ _ _ _ k).
      * exfalso. assert (Hin : Heard d ∈ map Sent sent) by (rewrite E1; set_solver). clear -Hin. apply list_elem_of_In, in_map_iff in Hin as (? & [=] & _).
    + destruct (Hh k d l2 E2) as (q & i & Hi & Hx & Hr). exists q, i. split; [done|]. split; [done|].
      rewrite sends_app, Es, length_app. rewrite <-Ea at 1. rewrite <-Nat.add_assoc. by apply replied_more.
Qed.

Lemma explained_time F0 n n' l hist : passes (pending n) (in_transit n) n n' -> explained F0 (MkWorld n l) hist ->
  exists new, explained F0 (MkWorld n' l) (new ++ hist) /\ joined (files n') (carried new) (files n).
Proof.
  intros Hp He. eapply (explained_passes _ _ _ _ _ _ _ []) in Hp; [exact Hp|done|apply He|]. intros q d k Hq. by exists k.
Qed.
Lemma explained_hear F0 n d l hist : (exists q k, in_transit n q d k) -> explained F0 (MkWorld n l) hist ->
  explained F0 (MkWorld n (Heard d :: l)) hist.
Proof.
  intros (q & k & Hd) He. destruct He as [Hs Hl Hc Hp Hx Hh]. constructor; try done. simpl in *. intros l1 d' l2 Hlog.
  destruct l1 as [|ev l1]; simpl in Hlog.
  - injection Hlog as <- _. destruct (transit_law _ _ _ _ Hd) as [Hk Hxid]. exists q, k. split; [done|]. split; [done|]. by apply Hx.
  - injection Hlog as <- Hlog. by apply (Hh l1 d' l2).
Qed.
Lemma explained_send F0 n n' p r l hist : net_sendto p n = (r, n') -> explained F0 (MkWorld n l) hist ->
  exists new, explained F0 (MkWorld n' (Sent p :: l)) (new ++ hist) /\ joined (files n') (carried new) (files n).
Proof.
  intros Hsend He. pose proof (sendto_law _ _ _ _ Hsend) as Hp. eapply (explained_passes _ _ _ _ _ _ _ [p]) in Hp; [exact Hp|done| |].
  - intros q k [[-> ->]|(k0 & -> & Hk)]; [done|]. by apply (ex_pending _ _ _ He).
  - intros q d k (k0 & -> & Hk). by exists k0.
Qed.

Lemma explained_steps F0 sz w w' hist : UDPMSGSIZE <= sz -> wsteps sz w w' -> explained F0 w hist ->
  exists new, explained F0 w' (new ++ hist) /\ joined (files (w_net w')) (carried new) (files (w_net w)).
Proof.
  intros Hsz Hw. revert hist. induction Hw as [w|w w1 w' Hstep _ IH]; intros hist He; [by exists []|].
  assert (Hex1 : exists new, explained F0 w1 (new ++ hist) /\ joined (files (w_net w1)) (carried new) (files (w_net w))).
  { destruct Hstep as [t n r n' l Hr|n e n' l Hr|n d n' l Hr|p n r n' l Hr|n m n' l Hr|n b n' l Hr|n a n' l Hr].
    - eapply explained_time; [by eapply select_passes|done].
    - eapply explained_time; [by eapply (recv_law sz)|done].
    - destruct (recv_law sz n _ n' Hr Hsz) as [Hp Hd]. apply (explained_hear _ _ d) in He; [|by apply Hd].
      by eapply (explained_time _ _ _ (Heard d :: l)) in Hp.
    - by eapply explained_send.
    - eapply explained_time; [by eapply mem_passes|done].
    - eapply explained_time; [by eapply cb_passes|done].
    - eapply explained_time; [by eapply ask_passes|done]. }
  destruct Hex1 as (new1 & Hex1 & Hj1). destruct (IH _ Hex1) as (new2 & Hex2 & Hj2). exists (new2 ++ new1). rewrite <-app_assoc, carried_app.
  split; [done|]. by eapply joined_app.
Qed.

(** The new part of the history is for the new part of the record. *)
Lemma explained_new F0 w w' hist new l : explained F0 w hist -> explained F0 w' (new ++ hist) -> w_log w' = l ++ w_log w ->
  asked new = sends l.
Proof.
  intros He He' Hl. pose proof (ex_sends _ _ _ He') as E. rewrite Hl, sends_app, asked_app, (ex_sends _ _ _ He) in E.
  by apply app_inv_tail in E.
Qed.
End History.
