(* ===== verification/UdpCalls.v ===== *)
(** * Calls, their ids and requests sent together

    What sending and waiting do to the packets in the slots in use, which are
    what is sent again, and to the record. *)
From S2P Require Import Prelude NfsSupp Xdr XdrSpec Udp UdpSpec UdpRun Stubs Wire NfsNet.

(** ** Calls and their ids

    The ids of the requests that were sent lately, and what a call does with
    them: a reply with the id of the request sent last is a reply to one of
    the requests of this call.  Calls that the user repeats come to an end
    when the user gives up. *)

(** ** Ages *)

(** How many ids ago a request was new that was sent [k] requests ago. *)
Definition aged (xid : Z) (l : list event) : Prop :=
  forall k q, sends l !! k = Some q -> Z.of_nat k < lifetime -> age xid (xid_of q) <= Z.of_nat k + 2 ^ 15.

Lemma aged_fresh xid l k q : aged xid l -> sends l !! k = Some q -> Z.of_nat k < lifetime -> xid_of q <> next_xid xid.
Proof. intros Ha Hk Hlt E. specialize (Ha k q Hk Hlt). symmetry in E. revert E. apply next_xid_fresh. unfold lifetime in Hlt. lia. Qed.

(** Requests with the next id are sent, at least one of them. *)
Lemma aged_send xid l new : aged xid l -> sends new <> [] -> Forall (fun q => xid_of q = next_xid xid) (sends new) ->
  aged (next_xid xid) (new ++ l).
Proof.
  intros Ha Hne Hall k q. rewrite sends_app. intros [Hk|[Hge Hk]]%lookup_app_Some Hlt.
  - rewrite (Forall_lookup_1 _ _ _ _ Hall Hk), age_refl. lia.
  - set (n := length (sends new)) in *. assert (0 < n)%nat by (unfold n; destruct (sends new); [done|simpl; lia]).
    assert (Hlt' : Z.of_nat (k - n) < lifetime) by lia. specialize (Ha _ _ Hk Hlt'). unfold lifetime in *. rewrite age_next; lia.
Qed.
(** Requests that are not too old are sent again. *)
Lemma aged_resend xid l new : aged xid l -> Forall (fun q => age xid (xid_of q) <= 2 ^ 15) (sends new) -> aged xid (new ++ l).
Proof.
  intros Ha Hall k q. rewrite sends_app. intros [Hk|[Hge Hk]]%lookup_app_Some Hlt.
  - pose proof (Forall_lookup_1 _ _ _ _ Hall Hk) as Hq. simpl in Hq. lia.
  - assert (Hlt' : Z.of_nat (k - length (sends new)) < lifetime) by lia. specialize (Ha _ _ Hk Hlt'). lia.
Qed.

(** ** Calls *)

Section Calls.
Context {AUTH N P result : Type} `{EqDecision P} `{LL : RpcLibLaws AUTH} `{Net N}.
Context (xdr_dec : P -> DEC result).
Abbreviation CLIENT := (CLIENT AUTH P).
Abbreviation World := (World N).
Implicit Types (cl : CLIENT) (w : World).

Lemma recv_turn_log mine (cu : mcu_data P) w t w' : recv_turn mine cu w = (t, w') ->
  exists new, w_log w' = new ++ w_log w /\ sends new = [] /\ (forall d, t = TGot d -> exists l, new = Heard d :: l /\ mine (xid_of d) = true).
Proof.
  unfold recv_turn. destruct (net_select _ _) as [s n1]. destruct s; [by intros [= <- <-]; exists []|by intros [= <- <-]; exists []|].
  destruct (net_recvfrom _ n1) as [[e|d] n2].
  - intros [= <- <-]. exists []. split; [done|]. split; [done|]. intros d. by case_match.
  - intros [= <- <-]. exists [Heard d]. split; [done|]. split; [done|]. intros d'. case_match; [done|].
    destruct (mine (xid_of d)) eqn:Em; [|done]. intros [= <-]. by exists [].
Qed.
Lemma send_again_log p timeout w st w' : send_again p timeout w = (st, w') ->
  w_log w' = Sent p :: w_log w /\ forall s, st = Some s -> s.1 <> RPC_SUCCESS.
Proof.
  unfold send_again, send_all, sendto. destruct (net_sendto p (w_net w)) as [[k e] n].
  destruct (k =? zlen p); [destruct (is_zero timeout)|]; intros [= <- <-]; (split; [done|]); by intros s [= <-].
Qed.

(** Giving up, or the datagram heard last. *)
Definition ends_with (p : list byte) (new : list event) (r : Z * option Z + list byte) : Prop :=
  match r with
  | inl st => st.1 <> RPC_SUCCESS
  | inr d => exists l, new = Heard d :: l /\ xid_of d = xid_of p
  end.
Lemma ends_with_app p new1 new2 r : ends_with p new2 r -> ends_with p (new2 ++ new1) r.
Proof. destruct r as [st|d]; [done|]. intros (l & -> & Hx). by exists (l ++ new1). Qed.

(** Waiting for the reply of [p]: all that is sent is [p]. *)
Lemma call_recv_log fuel p timeout (cu : mcu_data P) : forall waited w r wd w',
  call_recv fuel p timeout waited cu w = Some (r, wd, w') ->
  exists new, w_log w' = new ++ w_log w /\ Forall (eq p) (sends new) /\ ends_with p new r.
Proof.
  induction fuel as [|fuel IH]; intros waited w r wd w'; [done|]. cbn [call_recv].
  destruct (recv_turn _ cu w) as [t w1] eqn:Et. destruct (recv_turn_log _ _ _ _ _ Et) as (new & Hl & Hs & Hd).
  assert (Hnew : Forall (eq p) (sends new)) by (by rewrite Hs).
  assert (Hmore : forall w2 new2, w_log w2 = new2 ++ w_log w -> Forall (eq p) (sends new2) -> forall wd1, call_recv fuel p timeout wd1 cu w2 = Some (r, wd, w') ->
    exists new, w_log w' = new ++ w_log w /\ Forall (eq p) (sends new) /\ ends_with p new r).
  { intros w2 new2 Hl2 Hn2 wd1 (new3 & Hl3 & Hn3 & Hd3)%IH. exists (new3 ++ new2). rewrite sends_app. split; [by rewrite Hl3, Hl2, app_assoc|].
    split; [by apply Forall_app|by apply ends_with_app]. }
  destruct t as [|e| |d].
  - destruct (less_timeval _ _); [|by intros [= <- _ <-]; exists new].
    destruct (send_again p timeout w1) as [st w2] eqn:Es. destruct (send_again_log _ _ _ _ _ Es) as [Es2 Hst].
    assert (Hl2 : w_log w2 = (Sent p :: new) ++ w_log w) by (by rewrite Es2, Hl).
    assert (Hn2 : Forall (eq p) (sends (Sent p :: new))) by (by constructor).
    destruct st; [intros [= <- _ <-]; exists (Sent p :: new); split; [done|]; split; [done|]; by apply Hst|]. by apply (Hmore w2 _ Hl2 Hn2).
  - by intros [= <- _ <-]; exists new.
  - by apply (Hmore w1 _ Hl Hnew).
  - intros [= <- _ <-]. exists new. split; [done|]. split; [done|]. destruct (Hd d eq_refl) as (l & -> & Hx).
    exists l. split; [done|]. symmetry. by apply Z.eqb_eq.
Qed.

Lemma call_send_log fuel p timeout waited (cu : mcu_data P) w r wd w' : call_send fuel p timeout waited cu w = Some (r, wd, w') ->
  exists new, w_log w' = new ++ w_log w /\ Forall (eq p) (sends new) /\ sends new <> [] /\ ends_with p new r.
Proof.
  unfold call_send. destruct (send_again p timeout w) as [st w1] eqn:Es. apply send_again_log in Es as [Es Hst].
  destruct st as [st|]; [intros [= <- _ <-]; exists [Sent p]; split_and!; [done|by repeat constructor|done|by apply Hst]|].
  intros (new & Hl & Hn & Hd)%call_recv_log. exists (new ++ [Sent p]). rewrite sends_app. split; [by rewrite Hl, Es, <-app_assoc|].
  split; [apply Forall_app; split; [done|by repeat constructor]|]. split; [by destruct (sends new)|by apply ends_with_app].
Qed.

(** The arguments can be encoded, behind a header like [hdr]. *)
Definition fits (hdr : list byte) (sendsz proc : Z) (xargs : ENC) : Prop :=
  forall auth : AUTH, is_Some ((xdrmem_putlong proc >>> auth_marshall auth >>> xargs) (MkXDRE [] (sendsz - zlen hdr))).

(** What a call with a request like [hdr] adds to the record: its requests,
    and behind them a reply if it succeeds.  The id of the reply is that of no
    request sent before. *)
Definition call_log (hdr : list byte) (proc : Z) (xargs : ENC) (xres : P) cl w (r : Z * option result) cl' w' : Prop :=
  exists new, w_log w' = new ++ w_log w /\ Forall (is_call hdr (mcu_sendsz (cl_cu cl)) proc xargs) (sends new) /\
    aged (mcu_xid (cl_cu cl')) (w_log w') /\
    (r.1 = RPC_SUCCESS -> exists d l reply, new = Heard d :: l /\ decodes xdr_dec xres d reply /\ r.2 = ar_results reply /\ is_Some r.2 /\
       forall k q, sends (w_log w') !! k = Some q -> Z.of_nat k < lifetime -> xid_of q = xid_of d -> (k < length (sends new))%nat).

(** The same header with another id. *)
Definition like_hdr (hdr : list byte) cl : Prop :=
  exists s l, mcu_scu (cl_cu cl) = s :: l /\ zlen (scu_hdr s) = zlen hdr /\ drop 4 (scu_hdr s) = drop 4 hdr.

Lemma call_round_log hdr fuel proc xargs xres timeout waited cl w o :
  mcu_ok (cl_cu cl) -> like_hdr hdr cl -> fits hdr (mcu_sendsz (cl_cu cl)) proc xargs -> aged (mcu_xid (cl_cu cl)) (w_log w) ->
  call_round xdr_dec fuel proc xargs xres timeout waited cl w = Some o ->
  match o with
  | inl (r, cl', w') => call_log hdr proc xargs xres cl w r cl' w'
  | inr (_, cl', w') => exists new, w_log w' = new ++ w_log w /\ Forall (is_call hdr (mcu_sendsz (cl_cu cl)) proc xargs) (sends new) /\
      aged (mcu_xid (cl_cu cl')) (w_log w')
  end.
Proof.
  intros Ho (scu & l & Hl & Hz & Hd) Hfit Hag. unfold call_round. rewrite Hl. cbn [lookup list_lookup mbind option_bind].
  pose proof (mo_slots _ Ho) as Hsl. rewrite Hl in Hsl. apply Forall_cons in Hsl as [Hsok _].
  destruct (put_request_ok proc xargs scu cl Ho Hsok) as (hdr1 & a & Hp & Hx & Hz1 & Hd1 & Hc & Hxa).
  assert (Ha : is_Some a).
  { unfold put_request in Hp. injection Hp as _ E. rewrite <-E. simpl. destruct (Hfit (cl_auth cl)) as [xd Exd].
    assert (E2 : forall x, zlen (be32 x ++ drop 4 (scu_hdr scu)) = zlen hdr).
    { intros x. rewrite zlen_app. unfold zlen in *. rewrite length_drop. destruct Hsok as [Hh _]. unfold zlen in Hh. simpl length. lia. }
    unfold be32 in E2. simpl in E2. rewrite E2, Exd. by eexists. }
  rewrite Hp. cbn [scu_args set_packet scu_hdr]. destruct a as [args|]; [|by destruct Ha].
  specialize (Hc args eq_refl). apply (is_call_hdr hdr) in Hc; [|done|done]. specialize (Hxa args). rewrite Hx in Hxa.
  set (cl1 := store_scu 0 _ _). assert (Hx1 : mcu_xid (cl_cu cl1) = next_xid (mcu_xid (cl_cu cl))) by done. clearbody cl1.
  set (p := hdr1 ++ args) in *. destruct (call_send _ p _ _ _ w) as [[[r wd] w1]|] eqn:Er; [|done].
  destruct (call_send_log _ _ _ _ _ _ _ _ _ Er) as (new & Hlog & Hall & Hne & Hh). cbn [mbind option_bind].
  assert (Hcalls : Forall (is_call hdr (mcu_sendsz (cl_cu cl)) proc xargs) (sends new)) by (eapply Forall_impl; [exact Hall|by intros ? <-]).
  assert (Hag1 : aged (next_xid (mcu_xid (cl_cu cl))) (w_log w1)).
  { rewrite Hlog. apply aged_send; [done|done|]. eapply Forall_impl; [exact Hall|]. intros ? <-. done. }
  rewrite <-Hx1 in Hag1. destruct r as [st|d].
  { intros [= <-]. destruct st as [st [e|]]; (exists new; split; [done|]; split; [done|]; by split). }
  destruct Hh as (l' & -> & Hxd).
  destruct (decode_reply xdr_dec xres d cl1 w1) as [[reply cl2] w2] eqn:Ed.
  assert (H2 : w_log w2 = w_log w1 /\ mcu_xid (cl_cu cl2) = mcu_xid (cl_cu cl1) /\ (forall rep, reply = Some rep -> decodes xdr_dec xres d rep) /\
    (reply = None -> status cl2 <> RPC_SUCCESS) /\ (forall rep, reply = Some rep -> status cl2 = RPC_SUCCESS -> is_Some (ar_results rep))).
  { clear -LL Ed. unfold decode_reply in Ed. destruct (net_mem (w_net w1)) as [m n]. destruct (xdr_replymsg _ _) as [[rep x]|] eqn:Er;
      injection Ed as <- <- <-; (split; [done|]); (split; [done|]); (split; [|split; [done|]]); try done.
    - intros rep' [= <-]. by exists m, x.
    - intros rep' [= <-]. apply success_results. }
  destruct H2 as (Hl2 & Hx2 & Hdec & Hnone & Hres). rewrite <-Hl2 in Hlog, Hag1. rewrite <-Hx2 in Hag1.
  destruct reply as [reply|]; [|intros [= <-]; exists (Heard d :: l'); split; [done|]; split; [done|]; split; [done|]; intros E; by destruct (Hnone eq_refl)].
  destruct (Z.eqb_spec (status cl2) RPC_SUCCESS) as [E2|]; intros [= <-]; [|by exists (Heard d :: l')].
  assert (Hxv : mcu_xid (cl_cu (validate reply cl2)) = mcu_xid (cl_cu cl2)) by (unfold validate; by destruct (auth_validate _ _) as [[] auth]).
  rewrite <-Hxv in Hag1. exists (Heard d :: l'). split; [done|]. split; [done|]. split; [done|]. cbn [fst snd].
  intros E. rewrite E. exists d, l', reply. split; [done|]. split; [by apply Hdec|]. split; [done|]. split; [by apply Hres|].
  intros k q Hk Hlt Hq. rewrite Hlog, sends_app in Hk. apply lookup_app_Some in Hk as [Hk|[Hge Hk]]; [by eapply lookup_lt_Some|].
  exfalso. apply (aged_fresh _ _ _ _ Hag Hk); [lia|]. congruence.
Qed.

(** Logs of one part of a call behind another. *)
Lemma call_log_more hdr proc xargs xres cl cl1 w w1 r cl' w' new : w_log w1 = new ++ w_log w ->
  Forall (is_call hdr (mcu_sendsz (cl_cu cl)) proc xargs) (sends new) -> mcu_sendsz (cl_cu cl1) = mcu_sendsz (cl_cu cl) ->
  call_log hdr proc xargs xres cl1 w1 r cl' w' -> call_log hdr proc xargs xres cl w r cl' w'.
Proof.
  intros Hl Hn Hz (new2 & Hl2 & Hn2 & Hag & Hs). exists (new2 ++ new). rewrite sends_app. split; [by rewrite Hl2, Hl, app_assoc|].
  split; [apply Forall_app; split; [by rewrite Hz in Hn2|done]|]. split; [done|]. intros E.
  destruct (Hs E) as (d & l & reply & -> & Hdec & Hr & Hi & Hk). exists d, (l ++ new), reply. split; [done|]. split; [done|]. split; [done|]. split; [done|].
  intros k q Hk1 Hk2 Hk3. rewrite length_app. specialize (Hk k q Hk1 Hk2 Hk3). lia.
Qed.

Lemma call_again_log `{!NetFinite N} hdr n : forall fuel proc xargs xres timeout waited cl w scu l r cl' w',
  mcu_ok (cl_cu cl) -> mcu_scu (cl_cu cl) = scu :: l -> scu_inuse scu = false ->
  zlen (scu_hdr scu) = zlen hdr -> drop 4 (scu_hdr scu) = drop 4 hdr ->
  time_ok timeout -> time_ok waited -> time_ok (mcu_wait (cl_cu cl)) -> 0 < usecs (mcu_wait (cl_cu cl)) ->
  (effort (mcu_wait (cl_cu cl)) timeout waited w + replies * (n + 1) < fuel)%nat ->
  fits hdr (mcu_sendsz (cl_cu cl)) proc xargs -> aged (mcu_xid (cl_cu cl)) (w_log w) ->
  call_again xdr_dec n fuel proc xargs xres timeout waited cl w = Some (r, cl', w') -> call_log hdr proc xargs xres cl w r cl' w'.
Proof.
  induction n as [|n IH]; intros fuel proc xargs xres timeout waited cl w scu l r cl' w' Ho Hl Hu Hz Hd Ht Hwd Hw Hpos Hf Hfit Hag; cbn [call_again];
    (destruct (call_round_ok xdr_dec fuel proc xargs xres timeout waited cl w scu l Ho Hl Hu Ht Hwd Hw Hpos) as (o & Eo & Hr); [lia|]); rewrite Eo;
    cbn [mbind option_bind]; apply (call_round_log hdr) in Eo; try done; try (by exists scu, l);
    destruct o as [[[r1 cl1] w1]|[[wd cl1] w1]]; try (by intros [= <- <- <-]).
  - destruct Hr as (_ & Hst & _). intros [= <- <- <-]. destruct Eo as (new & Hlog & Hn & Hag1). by exists new.
  - destruct Hr as (Hcd & Hst & Hwd1 & Hus & Heff & _). destruct Eo as (new & Hlog & Hn & Hag1).
    destruct (auth_refresh (cl_auth cl1)) as [ok auth].
    destruct ok; [|intros [= <- <- <-]; by exists new].
    assert (Hcd' : called 1 (scu_hdr scu) cl (set_auth auth cl1)) by (by destruct Hcd).
    pose proof Hcd' as [Ho1 _ _ Hw1 _ Hz1 (s1 & l1 & Hl1 & Hu1 & Hzh & Hdh)]. intros Hrun.
    eapply call_log_more; [exact Hlog|exact Hn|exact Hz1|].
    eapply (IH _ _ _ _ _ wd _ _ s1 l1); try exact Hrun; try done; try congruence; try (by rewrite Hw1); [|by rewrite Hz1].
    rewrite Hw1. lia.
Qed.
End Calls.

(** ** Calls that the user repeats *)

(** The user gives up in the end: [patience] bounds how often the answer is to
    try again.  Asking brings no datagrams. *)
Class RequesterFinite (N : Type) `{NetFinite N} `{Requester N} := {
  patience : N -> nat;
  ask_patience n a n' : APrintReq2 n = (a, n') -> (patience n' <= patience n)%nat /\ (a = 0 -> (patience n' < patience n)%nat);
  select_patience t n : (patience (net_select t n).2 <= patience n)%nat;
  recv_patience sz n : (patience (net_recvfrom sz n).2 <= patience n)%nat;
  send_patience p n : (patience (net_sendto p n).2 <= patience n)%nat;
  mem_patience n : (patience (net_mem n).2 <= patience n)%nat;
  cb_patience n : (patience (timeout_cb n).2 <= patience n)%nat
}.

Section Repeated.
Context {AUTH N : Type} `{LL : RpcLibLaws AUTH} `{RF : RequesterFinite N}.
Abbreviation CLIENT := (CLIENT AUTH xdrproc).
Abbreviation World := (World N).
Implicit Types (cl : CLIENT) (w : World).

Lemma steps_patience sz w w' : wsteps sz w w' -> (patience (w_net w') <= patience (w_net w))%nat.
Proof.
  induction 1 as [w|w w1 w' Hs _ IH]; [done|]. etrans; [exact IH|]. destruct Hs as [t n r n' l Hr|n e n' l Hr|n d n' l Hr|p n r n' l Hr|n m n' l Hr|n b n' l Hr|n a n' l Hr]; simpl.
  - pose proof (select_patience t n) as Hp. by rewrite Hr in Hp.
  - pose proof (recv_patience sz n) as Hp. by rewrite Hr in Hp.
  - pose proof (recv_patience sz n) as Hp. by rewrite Hr in Hp.
  - pose proof (send_patience p n) as Hp. by rewrite Hr in Hp.
  - pose proof (mem_patience n) as Hp. by rewrite Hr in Hp.
  - pose proof (cb_patience n) as Hp. by rewrite Hr in Hp.
  - by eapply ask_patience.
Qed.

(** Fuel that is enough: the turns of a call and of waiting, and the user's
    answers. *)
Definition turns_call cl (timeout : timeval) w : nat := call_fuel cl (the_timeout cl timeout) w.
Definition turns_wait cl (timeout : timeval) w : nat := wait_fuel cl (the_timeout cl timeout) w.
Definition turns_user w : nat := S (patience (w_net w)).

(** A handle nothing is under way of, with the header [hdr] in the slot of
    calls. *)
Record ready (hdr : list byte) cl : Prop := {
  rd_ok : mcu_ok (cl_cu cl);
  rd_times : timeouts_ok cl;
  rd_total : time_ok (the_timeout cl TIMEOUT);
  rd_none : under_way (mcu_scu (cl_cu cl)) = [];
  rd_slot : exists s l, mcu_scu (cl_cu cl) = s :: l /\ scu_inuse s = false /\
              zlen (scu_hdr s) = zlen hdr /\ drop 4 (scu_hdr s) = drop 4 hdr
}.

Lemma ready_called n hdr hdr2 cl cl' : ready hdr cl -> called n hdr2 cl cl' -> conf (fun _ => True) cl cl' ->
  zlen hdr2 = zlen hdr -> drop 4 hdr2 = drop 4 hdr -> ready hdr cl'.
Proof.
  intros [Ho [Hw Hp Hc] Ht Hn _] [Ho2 Hr _ Hw2 Ht2 _ (s & l & Hs & Hu & Hz & Hd)] Hcf Hz2 Hd2. constructor; try done.
  - constructor; [by rewrite Hw2|by rewrite Hw2|by rewrite (cf_cb _ _ _ Hcf)].
  - unfold the_timeout. by rewrite Ht2.
  - by rewrite Hr.
  - exists s, l. split; [done|]. split; [done|]. split; congruence.
Qed.

Abbreviation ch_call := (ch_clnt_call_loop turns_call).
Lemma ch_clnt_call_loop_ok hdr proc xargs xres : forall fuel cl w,
  ready hdr cl -> fits hdr (mcu_sendsz (cl_cu cl)) proc xargs -> aged (mcu_xid (cl_cu cl)) (w_log w) ->
  (patience (w_net w) < fuel)%nat ->
  exists r cl' w', ch_call fuel cl proc xargs xres TIMEOUT w = Some (r, cl', w') /\
    ready hdr cl' /\ (forall hdr_ok, (forall h x, hdr_ok h -> hdr_ok (be32 x ++ drop 4 h)) -> conf hdr_ok cl cl') /\
    wsteps (mcu_recvsz (cl_cu cl)) w w' /\ call_log xdr_dec hdr proc xargs xres cl w r cl' w'.
Proof.
  induction fuel as [|fuel IH]; intros cl w Hrd Hfit Hag Hp; [lia|]. cbn [ch_clnt_call_loop].
  pose proof Hrd as [Ho [Hw Hpos Hcb] Ht Hn (s & l & Hs & Hu & Hz & Hd)].
  destruct (call_again_ok xdr_dec 2 (turns_call cl TIMEOUT w) proc xargs xres (the_timeout cl TIMEOUT) (TV 0 0) cl w s l Ho Hs Hu Ht) as (r & cl1 & w1 & Er & Hcd & _);
    try done. { unfold turns_call, call_fuel. lia. }
  assert (Hlog : call_log xdr_dec hdr proc xargs xres cl w r cl1 w1).
  { eapply (call_again_log xdr_dec hdr 2); try exact Er; try done. unfold turns_call, call_fuel. lia. }
  assert (Hcf : forall hdr_ok, (forall h x, hdr_ok h -> hdr_ok (be32 x ++ drop 4 h)) -> conf hdr_ok cl cl1)
    by (intros hdr_ok Hh; by eapply call_again_steps in Er as [? _]).
  assert (Hst : wsteps (mcu_recvsz (cl_cu cl)) w w1) by (by eapply (call_again_steps xdr_dec (fun _ => True)) in Er as [_ ?]).
  assert (Hrd1 : ready hdr cl1) by (eapply ready_called; try done; by apply Hcf).
  unfold clntaudp_call. rewrite Er. cbn [mbind option_bind]. destruct r as [val res].
  destruct (val =? RPC_SUCCESS); [by eexists _, _, _|]. destruct (negb _); [by eexists _, _, _|].
  destruct (RPCTimeoutReq w1) as [again w2] eqn:Ea. assert (Hw2 : wsteps (mcu_recvsz (cl_cu cl)) w1 w2) by (by eapply RPCTimeoutReq_steps).
  assert (Hl2 : w_log w2 = w_log w1 /\ (again = true -> (patience (w_net w2) < patience (w_net w1))%nat)).
  { unfold RPCTimeoutReq in Ea. destruct (use_timeout_req _); [|by injection Ea as <- <-].
    destruct (APrintReq2 (w_net w1)) as [a n] eqn:Eq. apply ask_patience in Eq as [_ Hlt]. injection Ea as <- <-. split; [done|].
    intros E%Z.eqb_eq. by apply Hlt. }
  destruct Hl2 as [Hl2 Hpat]. destruct Hlog as (new & Hl & Hcalls & Hag1 & Hsuc). rewrite <-Hl2 in Hl, Hag1, Hsuc.
  destruct again.
  - destruct (IH cl1 w2) as (r2 & cl2 & w3 & Er2 & Hrd2 & Hcf2 & Hst2 & Hlog2); try done.
    + assert (Hz1 : mcu_sendsz (cl_cu cl1) = mcu_sendsz (cl_cu cl)) by (by apply (cf_sendsz (fun _ => True)), Hcf). by rewrite Hz1.
    + pose proof (steps_patience _ _ _ Hst). specialize (Hpat eq_refl). lia.
    + exists r2, cl2, w3. split; [done|]. split; [done|]. split; [intros hk Hh; etrans; [by apply Hcf|by apply Hcf2]|].
      assert (Hr1 : mcu_recvsz (cl_cu cl1) = mcu_recvsz (cl_cu cl)) by (by apply (cf_recvsz (fun _ => True)), Hcf). rewrite Hr1 in Hst2.
      split; [etrans; [exact Hst|]; by etrans|]. eapply call_log_more; [exact Hl|done| |done]. by apply (cf_sendsz (fun _ => True)), Hcf.
  - eexists _, _, _. split; [done|]. split; [done|]. split; [done|]. split; [by etrans|]. by exists new.
Qed.
End Repeated.

Section Queue.
Context {AUTH N P result : Type} `{EqDecision P} `{LL : RpcLibLaws AUTH} `{Net N}.
Context (xdr_dec : P -> DEC result).
Abbreviation CLIENT := (CLIENT AUTH P).
Abbreviation World := (World N).
Implicit Types (cl : CLIENT) (w : World).

(** Every packet in a slot in use was in one before. *)
Definition packets_in (l : list scu_data) (q : list byte) : Prop :=
  exists s args, s ∈ l /\ scu_inuse s = true /\ scu_args s = Some args /\ q = scu_hdr s ++ args.
Definition fewer_packets (l l' : list scu_data) : Prop := forall q, packets_in l' q -> packets_in l q.
#[export] Instance fewer_packets_PreOrder : PreOrder fewer_packets.
Proof. split; [by intros l q|]. intros l1 l2 l3 H12 H23 q Hq. by apply H12, H23. Qed.

Lemma fewer_cons s s' l l' : (scu_inuse s' = true -> scu_inuse s = true /\ scu_hdr s' = scu_hdr s /\ scu_args s' = scu_args s) ->
  fewer_packets l l' -> fewer_packets (s :: l) (s' :: l').
Proof.
  intros Hs Hl q (x & args & [->|Hin]%elem_of_cons & Hu & Ha & ->).
  - destruct (Hs Hu) as (Hu' & -> & Ea). exists s, args. rewrite <-Ea. split; [left|done].
  - destruct (Hl _ (ex_intro _ x (ex_intro _ args (conj Hin (conj Hu (conj Ha eq_refl)))))) as (y & args' & Hy & Hrest).
    exists y, args'. split; [by right|done].
Qed.
Lemma fewer_insert l i s s' : l !! i = Some s ->
  (scu_inuse s' = true -> scu_inuse s = true /\ scu_hdr s' = scu_hdr s /\ scu_args s' = scu_args s) -> fewer_packets l (<[i:=s']> l).
Proof.
  revert i. induction l as [|x l IH]; intros [|i] Hi Hs; simpl in Hi; [done|done|simplify_eq; by apply fewer_cons|].
  apply fewer_cons; [done|]. by apply IH.
Qed.
(** A slot that is not in use gets something. *)
Lemma fewer_insert_unused l i s' : scu_inuse s' = false -> fewer_packets l (<[i:=s']> l).
Proof.
  intros Hs q (x & args & Hin & Hu & Ha & ->). apply list_elem_of_lookup in Hin as [j Hj].
  destruct (decide (i = j)) as [<-|Hne].
  - destruct (decide (i < length l)%nat) as [Hlt|Hge].
    + rewrite list_lookup_insert_eq in Hj by done. injection Hj as <-. by rewrite Hs in Hu.
    + rewrite list_insert_ge in Hj by lia. exists x, args. split; [by eapply list_elem_of_lookup_2|done].
  - rewrite list_lookup_insert_ne in Hj by done. exists x, args. split; [by eapply list_elem_of_lookup_2|done].
Qed.

(** ** Waiting *)

Lemma timed_out_fewer cb wait timeout l : forall w l' r w', timed_out (N := N) cb wait timeout l w = (l', r, w') -> fewer_packets l l'.
Proof.
  induction l as [|s l IH]; intros w l' r w'; cbn [timed_out]; [by intros [= <- _ _]|].
  destruct (scu_inuse s) eqn:Eu.
  2:{ destruct (timed_out cb wait timeout l w) as [[l1 r1] w1] eqn:E. intros [= <- _ _]. apply fewer_cons; [by rewrite Eu|by eapply IH]. }
  destruct (less_timeval _ _); [intros [= <- _ _]; by apply fewer_cons|].
  destruct (if cb then _ else _) as [again w1]. destruct again; [intros [= <- _ _]; by apply fewer_cons|].
  destruct (timed_out cb wait timeout l w1) as [[l1 r1] w2] eqn:E. intros [= <- _ _]. apply fewer_cons; [done|by eapply IH].
Qed.

(** Fewer packets, and the same routine for the results. *)
Definition keeps cl cl' : Prop :=
  fewer_packets (mcu_scu (cl_cu cl)) (mcu_scu (cl_cu cl')) /\ mcu_xresults (cl_cu cl') = mcu_xresults (cl_cu cl).
#[export] Instance keeps_PreOrder : PreOrder keeps.
Proof. split; [by intros cl|]. intros c1 c2 c3 [H1 E1] [H2 E2]. split; [by etrans|congruence]. Qed.

Lemma wait_recv_keeps fuel timeout : forall cl w r cl' w', wait_recv fuel timeout cl w = Some (r, cl', w') -> keeps cl cl' /\
  (forall i s d, r = inr (i, s, d) -> mcu_scu (cl_cu cl') !! i = Some s /\ scu_inuse s = true).
Proof.
  induction fuel as [|fuel IH]; intros cl w r cl' w'; [done|]. cbn [wait_recv].
  destruct (recv_turn _ (cl_cu cl) w) as [t w1]. destruct t as [|e| |d].
  - destruct (timed_out _ _ _ _ w1) as [[l1 r1] w2] eqn:Eo. apply timed_out_fewer in Eo.
    set (cl1 := set_cu (set_scus l1 (cl_cu cl)) cl). assert (Hk : keeps cl cl1) by done.
    destruct r1 as [s|]; [|by intros [= <- <- _]]. destruct (scu_args s) as [args|]; [|done]. cbn [mbind option_bind].
    destruct (send_all _ w2) as [f w3]. destruct f; [by intros [= <- <- _]|]. intros [Hk2 Hr]%IH. split; [by etrans|done].
  - by intros [= <- <- _].
  - by intros [Hk2 Hr]%IH.
  - destruct (find_slot _ _) as [[i s]|] eqn:Ef; [|done]. cbn [mbind option_bind]. intros [= <- <- _]. split; [done|].
    intros i' s' d' [= <- <- _]. apply find_slot_lookup in Ef as [? Hp]. split; [done|]. by apply andb_true_iff in Hp as [? _].
Qed.

Lemma clntaudp_wait_keeps fuel cl utimeout w r cl' w' : clntaudp_wait xdr_dec fuel cl utimeout w = Some (r, cl', w') -> keeps cl cl'.
Proof.
  unfold clntaudp_wait, take_reply. destruct (wait_recv _ _ cl w) as [[[r1 cl1] w1]|] eqn:Er; [|done].
  apply wait_recv_keeps in Er as [Hk Hi]. cbn [mbind option_bind]. destruct r1 as [st|[[i s] d]].
  { destruct st as [st [e|]]; intros [= _ <- _]; exact Hk. }
  destruct (Hi _ _ _ eq_refl) as [Hs Hu]. destruct (mcu_xresults _) as [xres|]; [|done]. cbn [mbind option_bind].
  assert (Hfree : forall c, cl_cu c = cl_cu cl1 \/ (exists e, cl_cu c = set_error e (cl_cu cl1)) -> keeps cl (free_slot i s c)).
  { intros c Hc. etrans; [exact Hk|]. assert (E : mcu_scu (cl_cu c) = mcu_scu (cl_cu cl1) /\ mcu_xresults (cl_cu c) = mcu_xresults (cl_cu cl1))
      by (destruct Hc as [->|[e ->]]; done). destruct E as [E1 E2].
    split; simpl; [rewrite E1; by apply fewer_insert_unused|done]. }
  unfold decode_reply. destruct (net_mem _) as [m n]. destruct (xdr_replymsg _ _) as [[reply x]|].
  2:{ intros [= _ <- _]. apply Hfree. right. by eexists. }
  destruct (_ =? _).
  { intros [= _ <- _]. apply Hfree. unfold validate. destruct (auth_validate _ _) as [[] auth]; right; by eexists. }
  destruct (scu_nrefreshes s) as [|nr]; [intros [= _ <- _]; apply Hfree; right; by eexists|].
  destruct (auth_refresh _) as [ok auth]. destruct ok; intros [= _ <- _]; [|apply Hfree; right; by eexists].
  etrans; [exact Hk|]. split; [|done]. simpl. eapply fewer_insert; [exact Hs|done].
Qed.

(** ** Sending *)

(** What sending a request of the procedure does: a request that is sent has
    the next id; packets of other slots stay; and the routine for results
    stays if anything is under way. *)
Lemma clntaudp_sendsb_log cl proc xargs xres resultsp userdata block w st res cl' w' :
  mcu_ok (cl_cu cl) -> (forall s, s ∈ mcu_scu (cl_cu cl) -> fits (AUTH := AUTH) (scu_hdr s) (mcu_sendsz (cl_cu cl)) proc xargs) ->
  clntaudp_sendsb (result := result) cl proc xargs xres resultsp userdata block w = (((st, res), cl'), w') ->
  (st = RPC_TIMEDOUT -> mcu_xresults (cl_cu cl') = Some xres) /\
  (under_way (mcu_scu (cl_cu cl)) <> [] -> mcu_xresults (cl_cu cl') = mcu_xresults (cl_cu cl)) /\
  (st <> RPC_TIMEDOUT -> fewer_packets (mcu_scu (cl_cu cl)) (mcu_scu (cl_cu cl'))) /\
  ((st <> RPC_TIMEDOUT /\ w' = w /\ mcu_xid (cl_cu cl') = mcu_xid (cl_cu cl)) \/
   exists s q, s ∈ mcu_scu (cl_cu cl) /\ is_call (scu_hdr s) (mcu_sendsz (cl_cu cl)) proc xargs q /\
     xid_of q = next_xid (mcu_xid (cl_cu cl)) /\ w_log w' = Sent (q ++ default [] block) :: w_log w /\
     mcu_xid (cl_cu cl') = next_xid (mcu_xid (cl_cu cl))).
Proof.
  intros Ho Hfit. unfold clntaudp_sendsb.
  assert (Hgive : forall s, s <> RPC_TIMEDOUT -> forall c, cl_cu c = cl_cu cl -> give (result := result) s c w = (((st, res), cl'), w') ->
    (st = RPC_TIMEDOUT -> mcu_xresults (cl_cu cl') = Some xres) /\ (under_way (mcu_scu (cl_cu cl)) <> [] -> mcu_xresults (cl_cu cl') = mcu_xresults (cl_cu cl)) /\
    (st <> RPC_TIMEDOUT -> fewer_packets (mcu_scu (cl_cu cl)) (mcu_scu (cl_cu cl'))) /\
    (st <> RPC_TIMEDOUT /\ w' = w /\ mcu_xid (cl_cu cl') = mcu_xid (cl_cu cl))).
  { intros s Hs c Hc [= <- _ <- <-]. simpl. rewrite Hc. done. }
  destruct (mcu_numfreescu (cl_cu cl) =? 0); [intros (? & ? & ? & ?)%Hgive; try done; split_and!; try done; by left|].
  destruct (find_slot _ _) as [[i s]|] eqn:Ef; [|intros (? & ? & ? & ?)%Hgive; try done; split_and!; try done; by left].
  apply find_slot_lookup in Ef as [Hi Hu]. apply negb_true_iff in Hu.
  set (cl0 := if mcu_numfreescu (cl_cu cl) =? mcu_numscu (cl_cu cl) then _ else cl).
  assert (Hx0 : under_way (mcu_scu (cl_cu cl)) <> [] -> cl0 = cl).
  { intros Hne. unfold cl0. destruct (Z.eqb_spec (mcu_numfreescu (cl_cu cl)) (mcu_numscu (cl_cu cl))) as [E|]; [|done].
    exfalso. pose proof (mo_free _ Ho) as Hf. rewrite E, (mo_num _ Ho) in Hf. apply Hne. apply zlen_0. lia. }
  assert (Hc0 : exists x, cl_cu cl0 = MkMcu (mcu_numscu (cl_cu cl)) (mcu_numfreescu (cl_cu cl)) (mcu_xid (cl_cu cl)) (mcu_scu (cl_cu cl)) (mcu_cb (cl_cu cl))
    (mcu_wait (cl_cu cl)) (mcu_total (cl_cu cl)) (mcu_error (cl_cu cl)) x (mcu_sendsz (cl_cu cl)) (mcu_recvsz (cl_cu cl)) (mcu_raddr (cl_cu cl)) /\
    cl_auth cl0 = cl_auth cl).
  { unfold cl0. destruct (_ =? _); [by eexists|]. exists (mcu_xresults (cl_cu cl)). by destruct (cl_cu cl). }
  destruct Hc0 as (x0 & Ec0 & Ea0). clearbody cl0.
  destruct (negb (bool_decide _)) eqn:Eb.
  { intros [= <- _ <- <-]. simpl. rewrite Ec0. simpl. split; [done|]. split; [intros Hne; rewrite <-(Hx0 Hne), Ec0; done|]. split; [done|]. by left. }
  apply negb_false_iff, bool_decide_eq_true in Eb.
  assert (Hxr : mcu_xresults (cl_cu cl0) = Some xres) by done. clear Eb.
  assert (Ho0 : mcu_ok (cl_cu cl0)) by (rewrite Ec0; rewrite Ec0 in Hxr; simpl in Hxr; destruct Ho; by constructor).
  assert (Hs : slot_ok (set_send resultsp userdata s)).
  { pose proof (Forall_lookup_1 _ _ _ _ (mo_slots _ Ho) Hi) as (Hh & _ & _). split; [done|]. split; [done|]. simpl. by rewrite Hu. }
  destruct (put_request_ok proc xargs (set_send resultsp userdata s) cl0 Ho0 Hs) as (hdr & a & Hp & Hx & Hz & Hd & Hc & Hxa).
  assert (Hin : s ∈ mcu_scu (cl_cu cl)) by (by eapply list_elem_of_lookup_2).
  assert (Ha : is_Some a).
  { unfold put_request in Hp. injection Hp as _ E. rewrite <-E. rewrite Ec0. simpl. destruct (Hfit s Hin (cl_auth cl0)) as [xd Exd].
    assert (E2 : forall x, zlen (be32 x ++ drop 4 (scu_hdr s)) = zlen (scu_hdr s)).
    { intros x. rewrite zlen_app. destruct Hs as [Hh _]. unfold zlen in *. rewrite length_drop. simpl in *. lia. }
    unfold be32 in E2. simpl in E2. rewrite E2, Exd. by eexists. }
  destruct Ha as [args ->]. rewrite Hp. cbn [scu_args set_packet scu_hdr]. specialize (Hc args eq_refl). specialize (Hxa args).
  rewrite Hx in Hxa. set (s1 := set_packet hdr (Some args) (set_send resultsp userdata s)).
  assert (Exid : mcu_xid (cl_cu cl0) = mcu_xid (cl_cu cl) /\ mcu_sendsz (cl_cu cl0) = mcu_sendsz (cl_cu cl) /\ mcu_scu (cl_cu cl0) = mcu_scu (cl_cu cl)) by (by rewrite Ec0).
  destruct Exid as (Exid & Esz & Escu). rewrite Exid, Esz in *.
  assert (Hkeep : under_way (mcu_scu (cl_cu cl)) <> [] -> mcu_xresults (cl_cu cl0) = mcu_xresults (cl_cu cl)) by (intros Hne; by rewrite (Hx0 Hne)).
  assert (Hcall : exists s q, s ∈ mcu_scu (cl_cu cl) /\ is_call (scu_hdr s) (mcu_sendsz (cl_cu cl)) proc xargs q /\
    xid_of q = next_xid (mcu_xid (cl_cu cl)) /\ q = hdr ++ args) by (exists s, (hdr ++ args); done).
  assert (Hfew : fewer_packets (mcu_scu (cl_cu cl)) (<[i:=s1]> (mcu_scu (cl_cu cl)))) by (by apply fewer_insert_unused).
  unfold send_all, sendto. rewrite app_assoc. destruct (net_sendto _ _) as [[k e] n]. destruct Hcall as (s' & q & Hs' & Hq & Hqx & ->).
  destruct (k =? _).
  - intros [= <- _ <- <-]. simpl. split; [done|]. split; [done|]. split; [done|]. right. by exists s', (hdr ++ args).
  - intros [= <- _ <- <-]. simpl. rewrite Escu. split; [done|]. split; [done|]. split; [done|]. right. by exists s', (hdr ++ args).
Qed.
End Queue.
