(* ===== verification/UdpServer.v ===== *)
(** * The stubs over the transport and the files of the server

    The state below the operations of nfs.c is the client handle and the network;
    beside them the requests to write are written down - those under way, all that
    were made, and those reported as done -, which no function reads.  The network
    may carry out any request at any later time and again ([NfsNetwork]): what is
    shown of the server's files is which bytes can be in them.  [NfsFileServer] is
    kept by what the client knows: the files that its writes make when each is
    carried out once, in the order they were made ([udp_sent]) or reported as done
    ([udp_done]); UdpFile.v draws the conclusions for the server's files. *)
From S2P Require Import Prelude NfsProt NfsSupp Nfs NfsServer Xdr XdrSpec NfsXdr NfsXdrSpec NfsXdrThm.
From S2P Require Import Udp UdpSpec UdpRun Stubs Wire NfsNet UdpCalls.

#[local] Arguments be32 z : simpl never.

(** The sizes of the parts of a call: a header of at most ten units, and
    credentials and a verifier of at most 416 bytes (credentials of the
    protocol have a body of at most 400 bytes, the verifier of a call has
    none). *)
Class RpcSizes (AUTH : Type) `{RpcLib AUTH} := {
  callhdr_size xid prog vers room xdrs : xdr_callhdr xid prog vers (MkXDRE [] room) = Some xdrs -> zlen (xe_out xdrs) <= 40;
  marshall_size auth : exists c, enc_ok (auth_marshall auth) c /\ zlen c <= 416
}.

Section Sizes.
Context {AUTH : Type} `{LL : RpcLibLaws AUTH} `{!RpcSizes AUTH}.

Lemma nfs_hdr_size hdr : nfs_hdr hdr -> 4 <= zlen hdr <= 40.
Proof.
  intros (xid & room & xd & Hx & -> & _). split; [|by eapply callhdr_size].
  destruct (callhdr_xid _ _ _ _ _ Hx) as [l ->]. rewrite zlen_app. pose proof (zlen_nonneg l). change (zlen (be32 xid)) with 4. lia.
Qed.
Lemma nfs_hdr_xid hdr xid : nfs_hdr hdr -> nfs_hdr (be32 xid ++ drop 4 hdr).
Proof.
  intros Hh. pose proof (nfs_hdr_size _ Hh) as Hs. destruct Hh as (x & room & xd & Hx & Hz & Hd). exists x, room, xd. split; [done|].
  split; [|by rewrite <-Hd]. rewrite zlen_app, <-Hz. unfold zlen in *. rewrite length_drop. simpl. lia.
Qed.
Lemma fits_size hdr proc xargs bs : nfs_hdr hdr -> enc_ok xargs bs -> zlen bs <= 8300 -> fits (AUTH := AUTH) hdr UDPMSGSIZE proc xargs.
Proof.
  intros Hh%nfs_hdr_size He Hs auth. destruct (marshall_size auth) as (c & Hc & Hcs).
  pose proof (enc_seq _ _ _ _ (enc_putlong proc) (enc_seq _ _ _ _ Hc He)) as Hall. rewrite Hall by (unfold UDPMSGSIZE; simpl; lia).
  cbn [xe_handy xe_out]. rewrite !zlen_app. change (zlen (be32 proc)) with 4. unfold UDPMSGSIZE. rewrite (proj2 (Z.leb_le _ _)) by lia. by eexists.
Qed.

Lemma zlen_fh f : fh_ok f -> zlen (w_opaque f) = 32.
Proof. unfold fh_ok, NFS_FHSIZE. intros Hf. unfold w_opaque. rewrite zlen_app, zlen_pad, Hf. done. Qed.
Lemma zlen_counted d : zlen (w_counted d) <= zlen d + 7.
Proof. unfold w_counted, w_opaque. rewrite !zlen_app, zlen_pad. pose proof (xdr_rndup_range (zlen d)). change (zlen (be32 (zlen d))) with 4. lia. Qed.

Lemma write_fits hdr a : nfs_hdr hdr -> writeargs_ok a -> fits (AUTH := AUTH) hdr UDPMSGSIZE NFSPROC_WRITE (xdr_writeargs_enc a).
Proof.
  intros Hh Ha. eapply (fits_size _ _ _ (w_writeargs a)); [done|by apply (cd_enc (Codec := writeargs_codec true))|]. unfold w_writeargs. destruct Ha as (Hf & _ & _ & _ & Hd).
  rewrite !zlen_app, zlen_fh by done. pose proof (zlen_counted (wa_data a)). unfold data_ok, NFS_MAXDATA in Hd.
  change (zlen (be32 _)) with 4. lia.
Qed.
Lemma writesb_fits hdr a : nfs_hdr hdr -> writeargs_ok a -> fits (AUTH := AUTH) hdr UDPMSGSIZE NFSPROC_WRITE (xdr_writeargssb_enc a).
Proof.
  intros Hh Ha. destruct (writeargssb_ok a Ha) as (bs & Hbs & Hw). eapply fits_size; [done|exact Hbs|].
  assert (Hz : zlen (w_writeargs a) <= 8300).
  { unfold w_writeargs. destruct Ha as (Hf & _ & _ & _ & Hd). rewrite !zlen_app, zlen_fh by done.
    pose proof (zlen_counted (wa_data a)). unfold data_ok, NFS_MAXDATA in Hd. change (zlen (be32 _)) with 4. lia. }
  rewrite Hw, !zlen_app in Hz. pose proof (zlen_nonneg (wa_data a)). pose proof (zlen_nonneg (pad (wa_data a))). lia.
Qed.
Lemma read_fits hdr a : nfs_hdr hdr -> readargs_ok a -> fits (AUTH := AUTH) hdr UDPMSGSIZE NFSPROC_READ (xdr_readargs_enc a).
Proof.
  intros Hh Ha. eapply (fits_size _ _ _ (w_readargs a)); [done|by apply (cd_enc (Codec := readargs_codec))|]. unfold w_readargs. destruct Ha as (Hf & _).
  rewrite !zlen_app, zlen_fh by done. change (zlen (be32 _)) with 4. lia.
Qed.

Lemma is_call_nfs hdr sendsz proc xargs q : nfs_hdr hdr -> is_call hdr sendsz proc xargs q -> nfs_call proc xargs q.
Proof. intros Hh Hq. by exists hdr, sendsz. Qed.
End Sizes.

(** ** What requests to write did *)

(** The request [a] writes the byte [b] at offset [o] of the file [f]. *)
Definition carries (a : writeargs) (f : nfs_fh) (o : Z) (b : byte) : Prop :=
  f = wa_file a /\ wa_offset a <= o /\ wa_data a !! Z.to_nat (o - wa_offset a) = Some b.
(** One of the requests does. *)
Definition late (l : list writeargs) (f : nfs_fh) (o : Z) (b : byte) : Prop := exists a, a ∈ l /\ carries a f o b.

Lemma carries_range a f o b : carries a f o b -> wrange a f o /\ forall F, write_to F a f o = b.
Proof.
  intros (-> & Ho & Hb). apply lookup_lt_Some in Hb as Hlt. split; [split; [done|unfold zlen; lia]|].
  intros F. unfold write_to. rewrite decide_True by done. by apply overlay_in.
Qed.
Lemma range_carries a f o F : wrange a f o -> carries a f o (write_to F a f o).
Proof.
  intros [-> Ho]. destruct (lookup_lt_is_Some_2 (wa_data a) (Z.to_nat (o - wa_offset a))) as [b Hb]; [unfold zlen in Ho; lia|].
  assert (Hc : carries a (wa_file a) o b) by (split; [done|]; split; [lia|done]). by destruct (carries_range _ _ _ _ Hc) as [_ ->].
Qed.
Lemma late_mono l l' f o b : (forall a, a ∈ l -> a ∈ l') -> late l f o b -> late l' f o b.
Proof. intros Hl (a & Ha & Hc). exists a. split; [by apply Hl|done]. Qed.
Lemma late_cons a l f o b : late (a :: l) f o b -> carries a f o b \/ late l f o b.
Proof. intros (a' & [->|Ha]%elem_of_cons & Hc); [by left|right]. by exists a'. Qed.

Section Joined.
Context {N AUTH : Type} `{RpcLib AUTH}.

(** Whenever the request is carried out, all it changes are bytes of these writes. *)
Definition harmless (l : list writeargs) (q : list byte) : Prop :=
  forall F F', effect q F F' -> forall f o, F' f o = F f o \/ late l f o (F' f o).

Lemma harmless_write l q a : a ∈ l -> writeargs_ok a -> write_request q a -> harmless l q.
Proof.
  intros Hin Ha Hq F F' He f o. destruct (ef_write _ _ _ He a Hq Ha f o) as [?|[Hr ->]]; [by left|right].
  exists a. split; [done|by apply range_carries].
Qed.
(** The arguments without the data change nothing, with or without data. *)
Lemma sb_effect q a F F' : nfs_call NFSPROC_WRITE (xdr_writeargssb_enc a) q -> writeargs_ok a -> effect q F F' -> forall f o, F' f o = F f o.
Proof.
  intros Hq Ha He f o. destruct (wa_data a) as [|b l] eqn:Ed; [|eapply ef_cut; [exact He| |exact Ha]; split; [done|by rewrite Ed]].
  assert (Hw : write_request q a) by (right; exists q; split; [done|]; by rewrite Ed, app_nil_r).
  destruct (ef_write _ _ _ He a Hw Ha f o) as [?|[[_ Hr] _]]; [done|]. rewrite Ed in Hr. change (zlen (@nil byte)) with 0 in Hr. lia.
Qed.
Lemma harmless_sb l q a : nfs_call NFSPROC_WRITE (xdr_writeargssb_enc a) q -> writeargs_ok a -> harmless l q.
Proof. intros Hq Ha F F' He f o. left. by eapply sb_effect. Qed.
Lemma harmless_mono l l' q : (forall a, a ∈ l -> a ∈ l') -> harmless l q -> harmless l' q.
Proof. intros Hl Hh F F' He f o. destruct (Hh F F' He f o); [by left|right]. by eapply late_mono. Qed.

(** Every byte is the old one or was written. *)
Lemma joined_late l F new F0 : joined F new F0 -> (forall e, e ∈ new -> harmless l (en_packet e)) ->
  forall f o, F f o = F0 f o \/ late l f o (F f o).
Proof.
  revert F. induction new as [|e new IH]; intros F; simpl; [intros HF _ f o; by left|].
  intros (He & Hef & Hj) Hn f o. rewrite He. destruct (Hn e ltac:(left) _ _ Hef f o) as [->|?]; [|by right].
  apply IH; [done|]. intros e' He'. apply Hn. by right.
Qed.
(** So it is before a request that was carried out ... *)
Lemma joined_before_late l F new F0 e : joined F new F0 -> (forall e, e ∈ new -> harmless l (en_packet e)) -> e ∈ new ->
  forall f o, en_before e f o = F0 f o \/ late l f o (en_before e f o).
Proof.
  revert F. induction new as [|e0 new IH]; intros F; simpl; [by intros _ _ ?%elem_of_nil|].
  intros (_ & _ & Hj) Hn [->|Hin]%elem_of_cons; (assert (Hn' : forall e, e ∈ new -> harmless l (en_packet e)) by (intros e' He'; apply Hn; by right)).
  - by apply (joined_late l _ new).
  - by apply (IH (en_before e0)).
Qed.
(** ... and since one. *)
Lemma joined_since_late l F new F0 e : joined F new F0 -> (forall e, e ∈ new -> harmless l (en_packet e)) -> e ∈ new ->
  forall f o, F f o = en_after e f o \/ late l f o (F f o).
Proof.
  revert F. induction new as [|e0 new IH]; intros F; simpl; [by intros _ _ ?%elem_of_nil|].
  intros (He & Hef & Hj) Hn [->|Hin]%elem_of_cons f o; [left; apply He|]. rewrite He.
  destruct (Hn e0 ltac:(left) _ _ Hef f o) as [->|?]; [|by right]. apply IH; [done| |done]. intros e' He'. apply Hn. by right.
Qed.
End Joined.

(** ** The state *)

(** The requests to write under way with their ids, all that were made and those
    reported as done, the last first, are what was asked for: the data are not in
    the slots. *)
Record Rpc (AUTH N : Type) := MkRpc {
  r_clnt : CLIENT AUTH xdrproc; r_world : World N;
  r_queue : list (Z * writeargs); r_sent : list writeargs; r_done : list writeargs
}.
Arguments MkRpc {AUTH N}.
Arguments r_clnt {AUTH N}.
Arguments r_world {AUTH N}.
Arguments r_queue {AUTH N}.
Arguments r_sent {AUTH N}.
Arguments r_done {AUTH N}.

Definition qmap (queue : list (Z * writeargs)) : gmap Z (Z * Z) := list_to_map ((fun e => (e.1, (clnt_res, 0))) <$> queue).

Section Server.
Context {AUTH N : Type} `{LL : RpcLibLaws AUTH} `{!RpcSizes AUTH} `{RF : RequesterFinite N} `{NN : !NfsNetwork N AUTH}.
Abbreviation CLIENT := (CLIENT AUTH xdrproc).
Abbreviation World := (World N).
Abbreviation Rpc := (Rpc AUTH N).
Implicit Types (cl : CLIENT) (w : World) (s : Rpc).

(** The files the history begins with. *)
Context (F0 : Files).

(** The requests with the id [x] that may be answered are those for [a], with its data
    or without. *)
Record queued (x : Z) (a : writeargs) (hist : list happening) : Prop := {
  qu_args : writeargs_ok a;
  qu_ids k q : asked hist !! k = Some q -> Z.of_nat k < lifetime -> xid_of q = x ->
    write_request q a \/ nfs_call NFSPROC_WRITE (xdr_writeargssb_enc a) q
}.

(** The write [a] was carried out in full at some time. *)
Definition was_done (a : writeargs) (hist : list happening) : Prop :=
  exists e, e ∈ carried hist /\ forall f o, wrange a f o -> en_after e f o = write_to (en_before e) a f o.

Record settings_ok cl : Prop := {
  st_times : timeouts_ok cl;
  st_total : time_ok (the_timeout cl TIMEOUT);
  st_sendsz : mcu_sendsz (cl_cu cl) = UDPMSGSIZE;
  st_recvsz : UDPMSGSIZE <= mcu_recvsz (cl_cu cl);
  st_num : 1 <= zlen (mcu_scu (cl_cu cl));
  st_hdrs : hdrs_ok nfs_hdr (mcu_scu (cl_cu cl))
}.

Record server_ok s (hist : list happening) : Prop := {
  so_mcu : mcu_ok (cl_cu (r_clnt s));
  so_settings : settings_ok (r_clnt s);
  so_aged : aged (mcu_xid (cl_cu (r_clnt s))) (w_log (r_world s));
  so_young : young (2 ^ 15) (cl_cu (r_clnt s));
  so_out : outstanding (cl_cu (r_clnt s)) = qmap (r_queue s);
  so_ids : NoDup (r_queue s).*1;
  so_results : r_queue s <> [] -> mcu_xresults (cl_cu (r_clnt s)) = Some xdr_attrstat;
  so_history : explained F0 (r_world s) hist;
  so_known q : q ∈ asked hist -> harmless (r_sent s) q;
  so_queued x a : (x, a) ∈ r_queue s -> queued x a hist /\ a ∈ r_sent s;
  so_done a : a ∈ r_done s -> a ∈ r_sent s /\ was_done a hist;
  so_packets q : packets_in (mcu_scu (cl_cu (r_clnt s))) q -> exists x a, (x, a) ∈ r_queue s /\
    nfs_call NFSPROC_WRITE (xdr_writeargssb_enc a) q /\ xid_of q = x
}.

Lemma settings_conf cl cl' : settings_ok cl -> conf nfs_hdr cl cl' -> settings_ok cl'.
Proof.
  intros [[Hw Hp Hc] Ht Hs Hr Hn Hh] [Cn Cl Cc Cw Ct Cs Cr Ch]. constructor.
  - constructor; [by rewrite Cw|by rewrite Cw|by rewrite Cc].
  - unfold the_timeout. by rewrite Ct.
  - by rewrite Cs.
  - by rewrite Cr.
  - by rewrite Cl.
  - by apply Ch.
Qed.

Lemma outstanding_empty {P} (cu : mcu_data P) : outstanding cu = ∅ -> under_way (mcu_scu cu) = [].
Proof. unfold outstanding. destruct (under_way (mcu_scu cu)) as [|[x v] l]; [done|]. simpl. intros E. by apply insert_non_empty in E. Qed.

Lemma qmap_lookup queue x : NoDup queue.*1 -> (qmap queue !! x = Some (clnt_res, 0) <-> exists a, (x, a) ∈ queue) /\
  (forall v, qmap queue !! x = Some v -> v = (clnt_res, 0)).
Proof.
  intros Hd. unfold qmap. set (l := _ <$> queue). assert (Hl : NoDup l.*1).
  { unfold l. rewrite <-list_fmap_compose. exact Hd. }
  assert (Hin : forall v, list_to_map (M := gmap Z (Z * Z)) l !! x = Some v <-> (x, v) ∈ l) by (intros v; symmetry; by apply elem_of_list_to_map).
  split.
  - rewrite Hin. unfold l. rewrite list_elem_of_fmap. split.
    + intros ([y a] & [= -> ] & Ha). by exists a.
    + intros [a Ha]. by exists (x, a).
  - intros v. rewrite Hin. unfold l. rewrite list_elem_of_fmap. by intros ([y a] & [= -> ->] & _).
Qed.

(** A handle nothing is under way of is ready for calls. *)
Lemma server_ready s hist : server_ok s hist -> r_queue s = [] -> exists hdr, nfs_hdr hdr /\ ready hdr (r_clnt s).
Proof.
  intros [Ho [Ht Htt _ _ Hn Hh] _ _ Hout _ _ _ _ _] Hq. rewrite Hq in Hout. apply outstanding_empty in Hout as Hun.
  destruct (mcu_scu (cl_cu (r_clnt s))) as [|scu l] eqn:El; [done|]. apply Forall_cons in Hh as [Hh _].
  exists (scu_hdr scu). split; [done|]. constructor; try done; [by rewrite El|]. exists scu, l. split; [done|]. split; [|done].
  rewrite under_way_cons in Hun. unfold request in Hun. by destruct (scu_inuse scu).
Qed.

Lemma known_more s hist more new w' : server_ok s hist -> explained F0 w' (new ++ hist) ->
  (forall q, q ∈ asked new -> harmless (more ++ r_sent s) q) ->
  (forall q, q ∈ asked (new ++ hist) -> harmless (more ++ r_sent s) q) /\
  (forall e, e ∈ carried (new ++ hist) -> harmless (more ++ r_sent s) (en_packet e)).
Proof.
  intros Hs He Hn. assert (Hall : forall q, q ∈ asked (new ++ hist) -> harmless (more ++ r_sent s) q).
  { intros q. rewrite asked_app. intros [Hq|Hq]%elem_of_app; [by apply Hn|]. eapply harmless_mono; [|by apply (so_known _ _ Hs)].
    intros a Ha. apply elem_of_app. by right. }
  split; [done|]. intros e Hin. by apply Hall, (ex_carried _ _ _ He).
Qed.
Lemma was_done_more a new hist : was_done a hist -> was_done a (new ++ hist).
Proof. intros (e & He & Hd). exists e. split; [|done]. rewrite carried_app. apply elem_of_app. by right. Qed.
Lemma done_more s hist more new a : server_ok s hist -> a ∈ r_done s -> a ∈ more ++ r_sent s /\ was_done a (new ++ hist).
Proof.
  intros Hs Ha. destruct (so_done _ _ Hs a Ha) as [Hin Hd]. split; [apply elem_of_app; by right|by apply was_done_more].
Qed.

(** After a call nothing is under way again; [more] are the writes it made, [ended]
    those it reported as done. *)
Lemma server_called s hist hdr cl' w' new more ended : server_ok s hist -> ready hdr cl' -> conf nfs_hdr (r_clnt s) cl' ->
  aged (mcu_xid (cl_cu cl')) (w_log w') -> explained F0 w' (new ++ hist) ->
  (forall q, q ∈ asked new -> harmless (more ++ r_sent s) q) -> (forall a, a ∈ ended -> a ∈ more /\ was_done a (new ++ hist)) ->
  server_ok (MkRpc cl' w' [] (more ++ r_sent s) (ended ++ r_done s)) (new ++ hist).
Proof.
  intros Hs Hrd Hcf Hag He Hn Hd. pose proof (rd_none _ _ Hrd) as Hno. constructor; simpl; try done.
  - apply Hrd.
  - eapply settings_conf; [apply Hs|done].
  - unfold young. rewrite Hno. constructor.
  - unfold outstanding. by rewrite Hno.
  - constructor.
  - by eapply known_more.
  - by intros x a ?%elem_of_nil.
  - intros a [Ha|Ha]%elem_of_app; [|by apply done_more]. destruct (Hd a Ha). split; [apply elem_of_app; by left|done].
  - intros q (scu & args & Hin & Hu & _). apply (under_way_in _ _ Hin) in Hu. rewrite Hno in Hu. by apply elem_of_nil in Hu.
Qed.

(** ** Calls *)

(** A call: all that was sent are its requests, and results are those of a reply to
    one of them, carried out while the call lasted. *)
Lemma server_call s hist proc xargs xres more : server_ok s hist -> r_queue s = [] ->
  (forall hdr, nfs_hdr hdr -> fits (AUTH := AUTH) hdr UDPMSGSIZE proc xargs) ->
  (forall q, nfs_call proc xargs q -> harmless (more ++ r_sent s) q) ->
  exists r cl' w' new, ch_clnt_call turns_user turns_call (r_clnt s) proc xargs xres TIMEOUT (r_world s) = Some (r, cl', w') /\
    (forall ended, (forall a, a ∈ ended -> a ∈ more /\ was_done a (new ++ hist)) ->
       server_ok (MkRpc cl' w' [] (more ++ r_sent s) (ended ++ r_done s)) (new ++ hist)) /\
    joined (files (w_net w')) (carried new) (files (w_net (r_world s))) /\
    (forall e, e ∈ carried new -> harmless (more ++ r_sent s) (en_packet e)) /\
    (r.1 = RPC_SUCCESS -> exists d x e, gives xres d x /\ r.2 = Some x /\ e ∈ carried new /\ nfs_call proc xargs (en_packet e) /\
       answer (en_packet e) d (en_before e) (en_after e)).
Proof.
  intros Hs Hq Hfit Hharm. destruct (server_ready s hist Hs Hq) as (hdr & Hh & Hrd). pose proof (so_settings _ _ Hs) as Hset.
  assert (Hfit' : fits (AUTH := AUTH) hdr (mcu_sendsz (cl_cu (r_clnt s))) proc xargs) by (rewrite (st_sendsz _ Hset); by apply Hfit).
  destruct (ch_clnt_call_loop_ok hdr proc xargs xres (turns_user (r_world s)) (r_clnt s) (r_world s) Hrd Hfit' (so_aged _ _ Hs))
    as (r & cl' & w' & Hrun & Hrd' & Hcf & Hst & log & Hlog & Hcalls & Hag & Hsuc); [unfold turns_user; lia|].
  destruct (explained_steps F0 _ _ _ hist (st_recvsz _ Hset) Hst (so_history _ _ Hs)) as (new & He & Hj).
  pose proof (explained_new _ _ _ _ _ _ (so_history _ _ Hs) He Hlog) as Hnew.
  assert (Hcall : forall q, q ∈ asked new -> nfs_call proc xargs q).
  { intros q Hin. eapply is_call_nfs; [exact Hh|]. rewrite Forall_forall in Hcalls. apply Hcalls. by rewrite <-Hnew. }
  assert (Hn : forall q, q ∈ asked new -> harmless (more ++ r_sent s) q) by (intros q Hin; by apply Hharm, Hcall).
  exists r, cl', w', new. split; [exact Hrun|]. split; [intros ended Hd; eapply server_called; try done; apply Hcf, nfs_hdr_xid|]. split; [done|].
  split; [intros e Hin; eapply known_more; [done..|]; rewrite carried_app; apply elem_of_app; by left|].
  intros E. destruct (Hsuc E) as (d & l & reply & -> & Hdec & Hr & [x Hx] & Hid).
  destruct (ex_heard _ _ _ He [] d (l ++ w_log (r_world s)) Hlog) as (q & k & Hlt & Hxid & Hrep). simpl in Hrep.
  assert (Hk' : sends (w_log w') !! k = Some q) by (rewrite <-(ex_sends _ _ _ He); apply Hrep).
  specialize (Hid k _ Hk' Hlt (eq_sym Hxid)). rewrite <-Hnew in Hid.
  destruct (replied_late _ _ _ _ _ Hrep Hid) as (Hin & e & Hein & <- & Hans).
  exists d, x, e. split; [exists reply; split; [done|congruence]|]. split; [done|]. split; [done|]. split; [by apply Hcall|done].
Qed.

Lemma gives_attrstat d x : gives xdr_attrstat d x -> exists r, x = Attrstat r.
Proof.
  intros (reply & (mem & y & Hr) & Hx). eapply (results_decoded _ (fun x => exists r, x = Attrstat r)); [|exact Hr|exact Hx].
  intros b a b'. simpl. unfold dbind. destruct (xdr_attrstat_dec b) as [[r s']|]; [|done]. intros [= <- _]. by eexists.
Qed.
Lemma gives_readres d x : gives xdr_readres d x -> exists r, x = Readres r.
Proof.
  intros (reply & (mem & y & Hr) & Hx). eapply (results_decoded _ (fun x => exists r, x = Readres r)); [|exact Hr|exact Hx].
  intros b a b'. simpl. unfold dbind. destruct (xdr_readres_dec false b) as [[r s']|]; [|done]. intros [= <- _]. by eexists.
Qed.

(** The writes [a] reports as done. *)
Definition reported (r : option attrstat) (a : writeargs) : list writeargs :=
  match r with Some (NfsOk _) => [a] | _ => [] end.

Lemma server_write s hist a : server_ok s hist -> r_queue s = [] -> writeargs_ok a ->
  exists r cl' w' new, nfsproc_write_2 turns_user turns_call a (r_clnt s) (r_world s) = Some (r, cl', w') /\
    server_ok (MkRpc cl' w' [] (a :: r_sent s) (reported r a ++ r_done s)) (new ++ hist) /\
    (forall f o, files (w_net w') f o = files (w_net (r_world s)) f o \/ late (a :: r_sent s) f o (files (w_net w') f o)) /\
    (forall attr, r = Some (NfsOk attr) -> forall f o, wrange a f o -> late (a :: r_sent s) f o (files (w_net w') f o)).
Proof.
  intros Hs Hq Ha. unfold nfsproc_write_2.
  destruct (server_call s hist NFSPROC_WRITE (xdr_writeargs_enc a) xdr_attrstat [a] Hs Hq) as (r & cl' & w' & new & -> & Hs' & Hj & Hharm & Hsuc).
  { intros hdr Hh. by apply write_fits. }
  { intros q Hc. eapply harmless_write; [left|done|by left]. }
  pose proof (joined_late _ _ _ _ Hj Hharm) as Hl. destruct r as [st res]. unfold call_res. cbn [mbind option_bind].
  assert (Hno : server_ok (MkRpc cl' w' [] (a :: r_sent s) ([] ++ r_done s)) (new ++ hist)) by (apply Hs'; by intros b ?%elem_of_nil).
  destruct (Z.eqb_spec st RPC_SUCCESS) as [->|Hne]; cbn [negb]; [|by exists None, cl', w', new].
  destruct (Hsuc eq_refl) as (d & x & e & Hg & E & Hin & Hc & Hans). simpl in E. subst res.
  destruct (gives_attrstat d x Hg) as [r ->]. cbn [mbind option_bind as_attrstat].
  exists (Some r), cl', w', new. split; [done|]. destruct r as [attr|st]; [|by split_and!].
  assert (Hd : forall f o, en_after e f o = write_to (en_before e) a f o) by (eapply an_write; [exact Hans|by left|done|exact Hg]).
  split; [|split; [done|]].
  - apply Hs'. intros b ->%list_elem_of_singleton. split; [left|]. exists e. split; [rewrite carried_app; apply elem_of_app; by left|done].
  - intros attr' _ f o Hr. destruct (joined_since_late _ _ _ _ e Hj Hharm Hin f o) as [->|?]; [|done].
    exists a. split; [left|]. rewrite Hd. by apply range_carries.
Qed.

Lemma server_read s hist a : server_ok s hist -> r_queue s = [] -> readargs_ok a ->
  exists r cl' w' new, nfsproc_read_buf turns_user turns_call a (r_clnt s) (r_world s) = Some (r, cl', w') /\
    server_ok (MkRpc cl' w' [] (r_sent s) (r_done s)) (new ++ hist) /\
    (forall f o, files (w_net w') f o = files (w_net (r_world s)) f o \/ late (r_sent s) f o (files (w_net w') f o)) /\
    (forall res, r = Some (NfsOk res) -> zlen (ro_data res) <= ra_count a /\
       forall i b, ro_data res !! i = Some b -> let o := ra_offset a + Z.of_nat i in
         b = files (w_net (r_world s)) (ra_file a) o \/ late (r_sent s) (ra_file a) o b).
Proof.
  intros Hs Hq Ha. unfold nfsproc_read_buf.
  destruct (server_call s hist NFSPROC_READ (xdr_readargs_enc a) xdr_readres [] Hs Hq) as (r & cl' & w' & new & -> & Hs' & Hj & Hharm & Hsuc).
  { intros hdr Hh. by apply read_fits. }
  { intros q Hc F F' He f o. left. by eapply ef_read. }
  specialize (Hs' [] ltac:(by intros b ?%elem_of_nil)). simpl in Hs', Hharm.
  pose proof (joined_late _ _ _ _ Hj Hharm) as Hl. destruct r as [st res]. unfold call_res. cbn [mbind option_bind].
  destruct (Z.eqb_spec st RPC_SUCCESS) as [->|Hne]; cbn [negb]; [|by exists None, cl', w', new].
  destruct (Hsuc eq_refl) as (d & x & e & Hg & E & Hin & Hc & Hans). simpl in E. subst res.
  destruct (gives_readres d x Hg) as [r ->]. cbn [mbind option_bind as_readres].
  exists (Some r), cl', w', new. split; [done|]. split; [done|]. split; [done|]. intros res [= ->].
  destruct (an_read _ _ _ _ Hans a res Hc Ha Hg) as [Hlen Hb]. split; [done|]. intros i b Hi. rewrite (Hb i b Hi).
  by apply (joined_before_late _ _ _ _ e Hj Hharm Hin).
Qed.

(** ** Requests to write under way *)

Lemma queued_more x a hist new : queued x a hist ->
  (forall q, q ∈ asked new -> xid_of q = x -> write_request q a \/ nfs_call NFSPROC_WRITE (xdr_writeargssb_enc a) q) ->
  queued x a (new ++ hist).
Proof.
  intros [Ha Hids] Hn. constructor; [done|]. intros k q. rewrite asked_app. intros [Hk|[Hge Hk]]%lookup_app_Some Hlt Hx.
  - apply Hn; [by eapply list_elem_of_lookup_2|done].
  - apply (Hids _ _ Hk); [lia|done].
Qed.

Lemma queue_age s hist x a : server_ok s hist -> (x, a) ∈ r_queue s -> age (mcu_xid (cl_cu (r_clnt s))) x < 2 ^ 15.
Proof.
  intros Hs Hin. assert (Hm : outstanding (cl_cu (r_clnt s)) !! x = Some (clnt_res, 0)).
  { rewrite (so_out _ _ Hs). apply qmap_lookup; [apply Hs|by eexists]. }
  unfold outstanding in Hm. apply elem_of_list_to_map_2 in Hm. pose proof (so_young _ _ Hs) as Hy. unfold young in Hy. rewrite Forall_forall in Hy.
  by apply (Hy _ Hm).
Qed.
Lemma queue_under_way s hist : server_ok s hist -> r_queue s <> [] -> under_way (mcu_scu (cl_cu (r_clnt s))) <> [].
Proof.
  intros Hs Hne Hun. destruct (r_queue s) as [|[x a] l] eqn:Eq; [done|].
  assert (Hm : outstanding (cl_cu (r_clnt s)) !! x = Some (clnt_res, 0)).
  { rewrite (so_out _ _ Hs). apply qmap_lookup; [apply Hs|]. exists a. rewrite Eq. left. }
  unfold outstanding in Hm. rewrite Hun in Hm. done.
Qed.

(** A client that sent nothing new, or lost what it sent, still has its queue. *)
Lemma server_kept s hist cl' w' new more : server_ok s hist -> settings_ok cl' -> mcu_ok (cl_cu cl') ->
  aged (mcu_xid (cl_cu cl')) (w_log w') -> young (2 ^ 15) (cl_cu cl') ->
  outstanding (cl_cu cl') = outstanding (cl_cu (r_clnt s)) ->
  (under_way (mcu_scu (cl_cu (r_clnt s))) <> [] -> mcu_xresults (cl_cu cl') = mcu_xresults (cl_cu (r_clnt s))) ->
  (forall q, packets_in (mcu_scu (cl_cu cl')) q -> packets_in (mcu_scu (cl_cu (r_clnt s))) q) ->
  explained F0 w' (new ++ hist) -> (forall q, q ∈ asked new -> harmless (more ++ r_sent s) q) ->
  (forall x b, (x, b) ∈ r_queue s -> queued x b (new ++ hist)) ->
  server_ok (MkRpc cl' w' (r_queue s) (more ++ r_sent s) (r_done s)) (new ++ hist).
Proof.
  intros Hs Hset Ho Hag Hy Hout Hxr Hfew He Hn Hq. constructor; simpl; try done.
  - rewrite Hout. apply Hs.
  - apply Hs.
  - intros Hne. rewrite Hxr; [by apply Hs|]. by eapply queue_under_way.
  - by eapply known_more.
  - intros x b Hxb. split; [by apply Hq|]. apply elem_of_app. right. by eapply so_queued.
  - intros a Ha. by apply done_more.
  - intros p Hp. by apply (so_packets _ _ Hs), Hfew.
Qed.

(** A new id is none of those in the queue. *)
Lemma queued_before_send s hist x b new : server_ok s hist -> (x, b) ∈ r_queue s ->
  (forall q, q ∈ asked new -> xid_of q = next_xid (mcu_xid (cl_cu (r_clnt s)))) -> queued x b (new ++ hist).
Proof.
  intros Hs Hxb Hn. apply queued_more; [by eapply so_queued|]. intros q Hq E. exfalso. rewrite (Hn q Hq) in E.
  pose proof (queue_age _ _ _ _ Hs Hxb) as Hage. eapply (next_xid_fresh (mcu_xid (cl_cu (r_clnt s))) x); [lia|done].
Qed.
(** The request that was just sent. *)
Lemma queued_sent s hist a new q : server_ok s hist -> writeargs_ok a -> write_request q a -> asked new = [q] ->
  queued (next_xid (mcu_xid (cl_cu (r_clnt s)))) a (new ++ hist).
Proof.
  intros Hs Ha Hwe Hnew. constructor; [done|]. intros k q'. rewrite asked_app, Hnew. destruct k as [|k]; simpl; [by intros [= <-]; left|].
  intros Hk Hlt Hx. exfalso. revert Hx. eapply aged_fresh; [apply Hs| |].
  - by rewrite <-(ex_sends _ _ _ (so_history _ _ Hs)).
  - lia.
Qed.

Lemma server_send s hist a : server_ok s hist -> writeargs_ok a -> young (2 ^ 15 - 1) (cl_cu (r_clnt s)) ->
  exists ok cl' w' new, nfsproc_send_writesb_2 a (r_clnt s) (r_world s) = (ok, cl', w') /\
    server_ok (MkRpc cl' w' (if ok then (mcu_xid (cl_cu cl'), a) :: r_queue s else r_queue s) (a :: r_sent s) (r_done s)) (new ++ hist).
Proof.
  intros Hs Ha Hy. unfold nfsproc_send_writesb_2.
  pose proof (so_settings _ _ Hs) as Hset. pose proof (so_mcu _ _ Hs) as Ho.
  assert (Hy' : young (2 ^ 16 - 1) (cl_cu (r_clnt s))) by (eapply Forall_impl; [exact Hy|]; simpl; lia).
  destruct (clntaudp_sendsb_ok (result := result) (r_clnt s) NFSPROC_WRITE (xdr_writeargssb_enc a) xdr_attrstat clnt_res 0 (Some (wa_data a)) (r_world s) Ho Hy')
    as (st & cl' & w' & E & Hheld & Hyn & Hcase).
  pose proof (clntaudp_sendsb_steps (result := result) nfs_hdr nfs_hdr_xid _ _ _ _ _ _ _ _ _ _ _ E) as [Hcf Hst].
  assert (Hfit : forall scu, scu ∈ mcu_scu (cl_cu (r_clnt s)) -> fits (AUTH := AUTH) (scu_hdr scu) (mcu_sendsz (cl_cu (r_clnt s))) NFSPROC_WRITE (xdr_writeargssb_enc a)).
  { intros scu Hin. rewrite (st_sendsz _ Hset). apply writesb_fits; [|done]. pose proof (st_hdrs _ Hset) as Hh. unfold hdrs_ok in Hh.
    rewrite Forall_forall in Hh. by apply Hh. }
  destruct (clntaudp_sendsb_log _ _ _ _ _ _ _ _ _ _ _ _ Ho Hfit E) as (Hxr & Hxr2 & Hfew & Hlog).
  destruct (explained_steps F0 _ _ _ hist (st_recvsz _ Hset) Hst (so_history _ _ Hs)) as (new & He & Hj).
  rewrite E. unfold sent_ok. exists (st =? RPC_TIMEDOUT), cl', w', new. split; [done|].
  assert (Hset' : settings_ok cl') by (by eapply settings_conf). assert (Ho' : mcu_ok (cl_cu cl')) by apply Hheld.
  assert (Hyc : young (2 ^ 15) (cl_cu cl')) by (apply (Hyn (2 ^ 15 - 1)); [done|lia]).
  destruct Hlog as [(Hst1 & -> & Hx)|(scu & q & Hin & Hq & Hqx & Hlog & Hx)].
  { (* nothing was sent *)
    destruct Hcase as [(? & _)|[_ Hout]]; [done|]. rewrite (proj2 (Z.eqb_neq _ _)) by done.
    pose proof (explained_new _ _ _ _ _ [] (so_history _ _ Hs) He eq_refl) as Hn.
    apply (server_kept s hist cl' (r_world s) new [a]); try done; [rewrite Hx; apply Hs|intros p Hp; by apply Hfew| |].
    - rewrite Hn. by intros p ?%elem_of_nil.
    - intros x b Hxb. apply queued_more; [by eapply so_queued|]. rewrite Hn. by intros p ?%elem_of_nil. }
  pose proof (explained_new _ _ _ _ _ [Sent (q ++ wa_data a)] (so_history _ _ Hs) He Hlog) as Hn. simpl in Hn.
  assert (Hqn : nfs_call NFSPROC_WRITE (xdr_writeargssb_enc a) q).
  { eapply is_call_nfs; [|exact Hq]. pose proof (st_hdrs _ Hset) as Hh. unfold hdrs_ok in Hh. rewrite Forall_forall in Hh. by apply Hh. }
  set (p := q ++ wa_data a) in *. assert (Hwe : write_request p a) by (right; by exists q).
  assert (Hex : xid_of p = mcu_xid (cl_cu cl')).
  { unfold p. rewrite Hx. destruct Hq as (x & auth & xd & Hxr0 & _ & ->). rewrite <-Hqx, <-!app_assoc. by rewrite !xid_of_be32. }
  assert (Hag' : aged (mcu_xid (cl_cu cl')) (w_log w')).
  { rewrite Hlog, Hx. apply (aged_send _ _ [_]); [apply Hs|done|]. constructor; [|constructor]. by rewrite <-Hx, <-Hex. }
  assert (Hharm : forall p', p' ∈ asked new -> harmless ([a] ++ r_sent s) p').
  { rewrite Hn. intros p' ->%list_elem_of_singleton. apply (harmless_write _ _ a); [left|done|done]. }
  assert (Hold : forall x b, (x, b) ∈ r_queue s -> queued x b (new ++ hist)).
  { intros x b Hxb. apply (queued_before_send s hist); [done..|]. rewrite Hn. intros p' ->%list_elem_of_singleton. congruence. }
  pose proof (queued_sent s hist a new p Hs Ha Hwe Hn) as Hnew. rewrite <-Hx in Hnew.
  destruct Hcase as [(-> & Hnone & Hout & scu2 & q2 & _ & _ & Hlog2 & _ & Hq2x & Hre)|[Hne Hout]].
  - cbn [Z.eqb]. change (RPC_TIMEDOUT =? RPC_TIMEDOUT) with true. cbv iota.
    assert (q2 = q) as ->. { rewrite Hlog in Hlog2. injection Hlog2 as E2. by apply app_inv_tail in E2. }
    constructor; simpl; try done.
    + rewrite Hout, (so_out _ _ Hs), Hx. done.
    + constructor; [|apply Hs]. rewrite list_elem_of_fmap. intros ([x b] & Ex & Hxb). simpl in Ex. subst x.
      rewrite (so_out _ _ Hs) in Hnone. rewrite <-Hx in Hnone.
      destruct (qmap_lookup (r_queue s) (mcu_xid (cl_cu cl')) (so_ids _ _ Hs)) as [[_ Hql] _]. rewrite Hql in Hnone; [done|by exists b].
    + intros _. by apply Hxr.
    + by apply (known_more s hist [a] new w').
    + intros x b [[= -> ->]|Hxb]%elem_of_cons; [split; [done|left]|split; [by apply Hold|right; by eapply so_queued]].
    + intros b Hb. by apply (done_more s hist [a]).
    + intros p' Hp. destruct (Hre p' Hp) as [Hp'| ->].
      * destruct (so_packets _ _ Hs p' Hp') as (x & b & Hxb & Hrest). exists x, b. split; [by right|done].
      * exists (mcu_xid (cl_cu cl')), a. split; [left|]. split; [done|]. by rewrite Hx.
  - rewrite (proj2 (Z.eqb_neq _ _)) by done. apply (server_kept s hist cl' w' new [a]); try done. intros p' Hp. by apply Hfew.
Qed.

Lemma packets_under_way {P} (cu : mcu_data P) q : mcu_ok cu -> packets_in (mcu_scu cu) q -> is_Some (outstanding cu !! xid_of q).
Proof.
  intros Ho (scu & args & Hin & Hu & _ & ->). assert (Ex : xid_of (scu_hdr scu ++ args) = xid_of (scu_hdr scu)).
  { pose proof (mo_slots _ Ho) as Hs. rewrite Forall_forall in Hs. destruct (Hs _ Hin) as [Hz _]. unfold zlen in Hz.
    destruct (scu_hdr scu) as [|a [|b [|c [|d l]]]]; simpl in Hz; try lia. done. }
  rewrite Ex. unfold outstanding. pose proof (under_way_in _ _ Hin Hu) as Hk. apply list_elem_of_fmap in Hk as ([x v] & -> & Hxv).
  exists v. by apply elem_of_list_to_map; [apply Ho|].
Qed.

(** The requests that are still under way. *)
Definition still {P} (cu : mcu_data P) (queue : list (Z * writeargs)) : list (Z * writeargs) :=
  filter (fun e => is_Some (outstanding cu !! e.1)) queue.

Lemma still_ok {P} (cu : mcu_data P) queue : NoDup queue.*1 ->
  outstanding cu = qmap queue \/ (exists x, outstanding cu = delete x (qmap queue)) ->
  outstanding cu = qmap (still cu queue) /\ NoDup (still cu queue).*1.
Proof.
  intros Hd Hout. assert (Hd' : NoDup (still cu queue).*1).
  { unfold still. eapply sublist_NoDup; [exact Hd|]. apply fmap_sublist, sublist_filter. }
  split; [|done]. apply map_eq. intros x.
  assert (Hsub : forall v, outstanding cu !! x = Some v -> qmap queue !! x = Some v).
  { intros v. destruct Hout as [->|[y ->]]; [done|]. by intros [_ ?]%lookup_delete_Some. }
  destruct (qmap_lookup (still cu queue) x Hd') as [Hin Hval]. destruct (qmap_lookup queue x Hd) as [Hin0 Hval0].
  destruct (outstanding cu !! x) as [v|] eqn:Ex.
  - specialize (Hsub _ eq_refl). pose proof (Hval0 _ Hsub). subst v. symmetry. apply Hin. destruct (proj1 Hin0 Hsub) as [a Ha]. exists a.
    unfold still. apply list_elem_of_filter. split; [simpl; by rewrite Ex|done].
  - symmetry. destruct (qmap (still cu queue) !! x) as [v|] eqn:Eq; [|done]. rewrite (Hval v eq_refl) in *.
    destruct (proj1 Hin eq_refl) as [a Ha]. unfold still in Ha. apply list_elem_of_filter in Ha as [Ha _]. simpl in Ha. rewrite Ex in Ha. by destruct Ha.
Qed.

Lemma key_unique {A} (l : list (Z * A)) x a b : NoDup l.*1 -> (x, a) ∈ l -> (x, b) ∈ l -> a = b.
Proof.
  intros Hd Ha Hb. apply (elem_of_list_to_map (M := gmap Z)) in Ha; [|done]. apply (elem_of_list_to_map (M := gmap Z)) in Hb; [|done].
  rewrite Ha in Hb. by injection Hb.
Qed.

(** What a successful reply to one of the queue takes off it. *)
Definition taken_off {P} (cu : mcu_data P) (queue : list (Z * writeargs)) : list (Z * writeargs) :=
  filter (fun e => ~ is_Some (outstanding cu !! e.1)) queue.
Definition ended (r : option attrstat) {P} (cu : mcu_data P) (queue : list (Z * writeargs)) : list writeargs :=
  match r with Some (NfsOk _) => (taken_off cu queue).*2 | _ => [] end.

Lemma taken_one {P} (cu : mcu_data P) queue x a b : NoDup queue.*1 -> (x, a) ∈ queue -> outstanding cu = delete x (qmap queue) ->
  b ∈ (taken_off cu queue).*2 -> b = a.
Proof.
  intros Hd Hxa Hout ([y c] & -> & Hin)%list_elem_of_fmap. apply list_elem_of_filter in Hin as [Hn Hin]. simpl in *.
  destruct (decide (y = x)) as [->|Hne]; [by eapply key_unique|]. exfalso. apply Hn. rewrite Hout, lookup_delete_ne by done.
  exists (clnt_res, 0). apply qmap_lookup; [done|]. by exists c.
Qed.

Lemma server_wait s hist : server_ok s hist ->
  exists r cl' w' new, nfsproc_wait_write_2 turns_wait (r_clnt s) (r_world s) = Some (r, cl', w') /\
    server_ok (MkRpc cl' w' (still (cl_cu cl') (r_queue s)) (r_sent s) (ended r (cl_cu cl') (r_queue s) ++ r_done s)) (new ++ hist) /\
    (forall f o, files (w_net w') f o = files (w_net (r_world s)) f o \/ late (r_sent s) f o (files (w_net w') f o)) /\
    (forall attr, r = Some (NfsOk attr) -> exists x a, (x, a) ∈ r_queue s /\ outstanding (cl_cu cl') = delete x (qmap (r_queue s)) /\
       forall f o, wrange a f o -> late (r_sent s) f o (files (w_net w') f o)).
Proof.
  intros Hs. unfold nfsproc_wait_write_2. pose proof (so_settings _ _ Hs) as Hset. pose proof (so_mcu _ _ Hs) as Ho.
  destruct (st_times _ Hset) as [Hwt Hpos Hcb].
  destruct (clntaudp_wait_ok xdr_dec (turns_wait (r_clnt s) TIMEOUT (r_world s)) (r_clnt s) TIMEOUT (r_world s) Ho Hcb (st_total _ Hset) Hwt Hpos)
    as (r & cl' & w' & E & Hheld & Hx & Hy & log & Hlog & Hall & _ & Hres); [unfold turns_wait, wait_fuel; lia|].
  pose proof (clntaudp_wait_steps xdr_dec nfs_hdr _ _ _ _ _ _ _ E) as [Hcf Hst].
  pose proof (clntaudp_wait_keeps xdr_dec _ _ _ _ _ _ _ E) as [Hfew Hxr].
  destruct (explained_steps F0 _ _ _ hist (st_recvsz _ Hset) Hst (so_history _ _ Hs)) as (new & He & Hj).
  pose proof (explained_new _ _ _ _ _ _ (so_history _ _ Hs) He Hlog) as Hnew.
  assert (Hsb : forall q, q ∈ asked new -> exists x a, (x, a) ∈ r_queue s /\ nfs_call NFSPROC_WRITE (xdr_writeargssb_enc a) q /\ xid_of q = x).
  { intros q Hin. apply (so_packets _ _ Hs). rewrite Forall_forall in Hall. apply Hall. by rewrite <-Hnew. }
  assert (Hn : forall q, q ∈ asked new -> harmless ([] ++ r_sent s) q).
  { intros q Hin. destruct (Hsb q Hin) as (x & a & Hxa & Hq & _). eapply harmless_sb; [exact Hq|]. by eapply qu_args, so_queued. }
  destruct (known_more s hist [] new w' Hs He Hn) as [Hknown Hcarr]. simpl in Hknown, Hcarr.
  assert (HF : forall f o, files (w_net w') f o = files (w_net (r_world s)) f o \/ late (r_sent s) f o (files (w_net w') f o)).
  { eapply joined_late; [exact Hj|]. intros e Hin. apply Hcarr. rewrite carried_app. apply elem_of_app. by left. }
  assert (Hq : forall x a, (x, a) ∈ r_queue s -> queued x a (new ++ hist)).
  { intros x a Hxa. apply queued_more; [by eapply so_queued|]. intros q Hin Ex.
    destruct (Hsb q Hin) as (x' & a' & Hxa' & Hcall & Ex'). rewrite Ex in Ex'. subst x'. right.
    by rewrite (key_unique (r_queue s) x a a' (so_ids _ _ Hs) Hxa Hxa'). }
  assert (Hok : forall done, outstanding (cl_cu cl') = outstanding (cl_cu (r_clnt s)) \/ (exists x, outstanding (cl_cu cl') = delete x (outstanding (cl_cu (r_clnt s)))) ->
    (forall a, a ∈ done -> a ∈ r_sent s /\ was_done a (new ++ hist)) ->
    server_ok (MkRpc cl' w' (still (cl_cu cl') (r_queue s)) (r_sent s) (done ++ r_done s)) (new ++ hist)).
  { intros done Hout Hdone. rewrite !(so_out _ _ Hs) in Hout. destruct (still_ok _ _ (so_ids _ _ Hs) Hout) as [Ho1 Hd1]. constructor; simpl; try done.
    - apply Hheld.
    - by eapply settings_conf.
    - rewrite Hlog, Hx. apply aged_resend; [apply Hs|]. rewrite <-Hnew, Forall_forall. intros q Hin.
      destruct (Hsb q Hin) as (x & a & Hxa & _ & ->). apply Z.lt_le_incl. by eapply queue_age.
    - apply Hy. apply Hs.
    - intros Hne. rewrite Hxr. apply Hs. intros Eq. apply Hne. unfold still. by rewrite Eq.
    - intros x a Hxa. apply list_elem_of_filter in Hxa as [_ Hxa]. split; [by apply Hq|by eapply so_queued].
    - intros a [Ha|Ha]%elem_of_app; [by apply Hdone|by apply (done_more s hist [])].
    - intros q Hp. destruct (so_packets _ _ Hs q (Hfew q Hp)) as (x & a & Hxa & Hcall & Hqx). exists x, a. split; [|done].
      unfold still. apply list_elem_of_filter. split; [|done]. simpl. rewrite <-Hqx. apply packets_under_way; [apply Hheld|done]. }
  assert (Hnil : forall a : writeargs, a ∈ [] -> a ∈ r_sent s /\ was_done a (new ++ hist)) by (by intros a ?%elem_of_nil).
  rewrite E. cbn [mbind option_bind]. destruct Hres as [st cl' Hst' Hout|d cl' Hd Hpt Hout|d st res cl' Hd Hpt Hout Hsuc Hfail].
  - exists None, cl', w', new. rewrite (proj2 (Z.eqb_neq _ _)) by (by destruct Hst' as [->|[->| ->]]). split; [done|].
    split; [apply Hok; [by left|done]|]. done.
  - exists None, cl', w', new. split; [done|]. split; [apply Hok; [by left|done]|]. done.
  - destruct (Z.eqb_spec st RPC_SUCCESS) as [->|Hne]; cbn [negb].
    2:{ exists None, cl', w', new. split; [done|]. split; [apply Hok; [right; by eexists|done]|]. done. }
    destruct (Hsuc eq_refl) as (xres & reply & Hxres & Hdec & -> & [v Hv]).
    rewrite (so_out _ _ Hs) in Hpt. destruct (qmap_lookup (r_queue s) (xid_of d) (so_ids _ _ Hs)) as [Hin Hval].
    pose proof (Hval _ Hpt) as Hptr. injection Hptr as Hp1 Hp2. rewrite Hp1, Hp2 in Hpt. destruct (proj1 Hin Hpt) as [a Ha].
    assert (Hxe : xres = xdr_attrstat).
    { rewrite (so_results _ _ Hs) in Hxres; [by injection Hxres|]. intros Eq. rewrite Eq in Ha. by apply elem_of_nil in Ha. }
    subst xres. assert (Hg : gives xdr_attrstat d v) by (by exists reply). destruct (gives_attrstat d v Hg) as [res ->].
    rewrite Hv. unfold waited_res. rewrite Hp1. change (clnt_res =? clnt_res) with true. cbn [mbind option_bind as_attrstat].
    exists (Some res), cl', w', new. split; [done|].
    assert (Hdone : forall attr, res = NfsOk attr -> exists e, e ∈ carried (new ++ hist) /\ forall f o, wrange a f o -> en_after e f o = write_to (en_before e) a f o).
    { intros attr ->. destruct log as [|ev log]; [done|]. injection Hd as ->.
      destruct (ex_heard _ _ _ He [] d (log ++ w_log (r_world s)) Hlog) as (q & k & Hlife & Hxid & Hrep). simpl in Hrep.
      pose proof (proj1 Hrep) as Hk. destruct (replied_carried _ _ _ _ Hrep) as (e & Hein & <- & Hans). exists e. split; [done|].
      destruct (Hq _ _ Ha) as [Haok Hids]. intros f o Hr. destruct (Hids _ _ Hk Hlife (eq_sym Hxid)) as [Hw|Hcut]; [by eapply an_write|].
      destruct (wa_data a) as [|b l] eqn:Edat.
      - destruct Hr as [_ Hr]. rewrite Edat in Hr. change (zlen (@nil byte)) with 0 in Hr. lia.
      - exfalso. eapply (an_cut _ _ _ _ Hans a); [split; [exact Hcut|by rewrite Edat]|done|exact Hg]. }
    assert (Hdel : outstanding (cl_cu cl') = delete (xid_of d) (qmap (r_queue s))) by (by rewrite <-(so_out _ _ Hs)).
    split; [|split; [done|]].
    + apply Hok; [right; by eexists|]. destruct res as [attr|st]; [|done]. intros b Hb.
      rewrite (taken_one _ _ _ _ _ (so_ids _ _ Hs) Ha Hdel Hb). split; [by eapply so_queued|]. by eapply Hdone.
    + intros attr [= ->]. exists (xid_of d), a. split; [done|]. split; [done|]. intros f o Hr.
      destruct (Hdone attr eq_refl) as (e & Hein & Hde).
      destruct (joined_since_late _ _ _ _ e (ex_linked _ _ _ He) Hcarr Hein f o) as [->|?]; [|done].
      exists a. split; [by eapply so_queued|]. rewrite Hde by done. by apply range_carries.
Qed.

Lemma server_abort s hist : server_ok s hist -> server_ok (MkRpc (clntaudp_abort (r_clnt s)) (r_world s) [] (r_sent s) (r_done s)) hist.
Proof.
  intros Hs. destruct (clntaudp_abort_ok (r_clnt s) (so_mcu _ _ Hs)) as (Ho & Hout & _ & Hun).
  pose proof (clntaudp_abort_conf nfs_hdr (r_clnt s)) as Hcf.
  assert (Hx : mcu_xid (cl_cu (clntaudp_abort (r_clnt s))) = mcu_xid (cl_cu (r_clnt s))).
  { unfold clntaudp_abort. by destruct (abort_slots _ _). }
  constructor; simpl; try done.
  - eapply settings_conf; [apply Hs|done].
  - rewrite Hx. apply Hs.
  - unfold young. rewrite Hun. constructor.
  - constructor.
  - apply Hs.
  - apply Hs.
  - by intros x a ?%elem_of_nil.
  - apply Hs.
  - intros q (scu & args & Hin & Hu & _). apply (under_way_in _ _ Hin) in Hu. rewrite Hun in Hu. by apply elem_of_nil in Hu.
Qed.

(** ** What can be in the files *)

(** A byte of the server's files is there from the beginning or was written; where a
    write was reported as done it was written. *)
Lemma server_bytes s hist f o : server_ok s hist -> files (w_net (r_world s)) f o = F0 f o \/ late (r_sent s) f o (files (w_net (r_world s)) f o).
Proof.
  intros Hs. pose proof (so_history _ _ Hs) as He. eapply joined_late; [apply He|]. intros e Hin. by apply (so_known _ _ Hs), (ex_carried _ _ _ He).
Qed.
Lemma server_done s hist a f o : server_ok s hist -> a ∈ r_done s -> wrange a f o -> late (r_sent s) f o (files (w_net (r_world s)) f o).
Proof.
  intros Hs Ha Hr. pose proof (so_history _ _ Hs) as He. destruct (so_done _ _ Hs a Ha) as [Hsent (e & Hin & Hd)].
  destruct (joined_since_late (r_sent s) _ _ _ e (ex_linked _ _ _ He)) with (f := f) (o := o) as [->|?]; [|done| |done].
  - intros e' Hin'. by apply (so_known _ _ Hs), (ex_carried _ _ _ He).
  - exists a. split; [done|]. rewrite Hd by done. by apply range_carries.
Qed.
End Server.

(** ** The interfaces *)

#[export] Instance writeargs_ok_dec a : Decision (writeargs_ok a).
Proof. unfold writeargs_ok, fh_ok, u32_ok, data_ok. apply _. Defined.
#[export] Instance readargs_ok_dec a : Decision (readargs_ok a).
Proof. unfold readargs_ok, fh_ok, u32_ok. apply _. Defined.
#[export] Instance young_dec {P} k (cu : mcu_data P) : Decision (young k cu).
Proof. unfold young. apply _. Defined.

(** What a field of a structure contains that is not set. *)
Class Stack := { stack_junk : Z }.

Section Instances.
Context {AUTH N : Type} `{LL : RpcLibLaws AUTH} `{!RpcSizes AUTH} `{RF : RequesterFinite N} `{NN : !NfsNetwork N AUTH} `{Stack}.
Abbreviation Rpc := (Rpc AUTH N).

(** NULL is the status that clnt_geterr tells.  [more]: the writes the stub makes,
    [ended]: those it reports as done. *)
Definition stub_res {A} (s : Rpc) (more : list writeargs) (ended : option A -> CLIENT AUTH xdrproc -> list writeargs)
    (out : option (option A * CLIENT AUTH xdrproc * World N)) : rpc A * Rpc :=
  match out with
  | Some (r, cl, w) =>
      (match r with Some a => inr a | None => inl (re_status (clntaudp_geterr cl)) end,
       MkRpc cl w (still (cl_cu cl) (r_queue s)) (more ++ r_sent s) (ended r cl ++ r_done s))
  | None => (inl RPC_CANTRECV, s)
  end.
Definition other_res {A} (s : Rpc) : option (option A * CLIENT AUTH xdrproc * World N) -> rpc A * Rpc := stub_res s [] (fun _ _ => []).

(** clnt_control for a time: the time then. *)
Definition control (request : Z) (tv : timeval) (s : Rpc) : timeval * Rpc :=
  match clntaudp_control (r_clnt s) request (InfoTime tv) with
  | Some (_, InfoTime tv, cl) => (tv, MkRpc cl (r_world s) (r_queue s) (r_sent s) (r_done s))
  | _ => (tv, s)
  end.

(** Arguments outside the types of C cannot be; here they are refused.  So is
    a request after 2^15 others while one has been under way all the time: no
    bound on that keeps the ids apart. *)
#[export] Instance udp_rpc : NfsRpc Rpc := {
  Nfs.nfsproc_getattr_2 a s := other_res s (nfsproc_getattr_2 turns_user turns_call a (r_clnt s) (r_world s));
  Nfs.nfsproc_setattr_2 a s := other_res s (nfsproc_setattr_2 turns_user turns_call a (r_clnt s) (r_world s));
  Nfs.nfsproc_lookup_2 a s := other_res s (nfsproc_lookup_2 turns_user turns_call a (r_clnt s) (r_world s));
  Nfs.nfsproc_readlink_2 a s := other_res s (nfsproc_readlink_2 turns_user turns_call a (r_clnt s) (r_world s));
  Nfs.nfsproc_read_buf a s :=
    if decide (readargs_ok a) then other_res s (nfsproc_read_buf turns_user turns_call a (r_clnt s) (r_world s))
    else (inl RPC_CANTENCODEARGS, s);
  Nfs.nfsproc_write_2 a s :=
    if decide (writeargs_ok a) then
      stub_res s [a] (fun r _ => reported r a) (nfsproc_write_2 turns_user turns_call a (r_clnt s) (r_world s))
    else (inl RPC_CANTENCODEARGS, s);
  Nfs.nfsproc_create_2 a s := other_res s (nfsproc_create_2 turns_user turns_call a (r_clnt s) (r_world s));
  Nfs.nfsproc_remove_2 a s := other_res s (nfsproc_remove_2 turns_user turns_call a (r_clnt s) (r_world s));
  Nfs.nfsproc_rename_2 a s := other_res s (nfsproc_rename_2 turns_user turns_call a (r_clnt s) (r_world s));
  Nfs.nfsproc_link_2 a s := other_res s (nfsproc_link_2 turns_user turns_call a (r_clnt s) (r_world s));
  Nfs.nfsproc_symlink_2 a s := other_res s (nfsproc_symlink_2 turns_user turns_call a (r_clnt s) (r_world s));
  Nfs.nfsproc_mkdir_2 a s := other_res s (nfsproc_mkdir_2 turns_user turns_call a (r_clnt s) (r_world s));
  Nfs.nfsproc_rmdir_2 a s := other_res s (nfsproc_rmdir_2 turns_user turns_call a (r_clnt s) (r_world s));
  Nfs.nfsproc_readdir_2 a s := other_res s (nfsproc_readdir_2 turns_user turns_call a (r_clnt s) (r_world s));
  Nfs.nfsproc_statfs_2 a s := other_res s (nfsproc_statfs_2 turns_user turns_call a (r_clnt s) (r_world s));
  Nfs.nfsproc_send_writesb_2 a s :=
    if decide (writeargs_ok a /\ young (2 ^ 15 - 1) (cl_cu (r_clnt s))) then
      let '(ok, cl, w) := nfsproc_send_writesb_2 a (r_clnt s) (r_world s) in
      if ok then (None, MkRpc cl w ((mcu_xid (cl_cu cl), a) :: r_queue s) (a :: r_sent s) (r_done s))
      else (Some (re_status (clntaudp_geterr cl)), MkRpc cl w (r_queue s) (a :: r_sent s) (r_done s))
    else (Some RPC_CANTENCODEARGS, s);
  Nfs.nfsproc_wait_write_2 s :=
    stub_res s [] (fun r cl => ended r (cl_cu cl) (r_queue s)) (nfsproc_wait_write_2 turns_wait (r_clnt s) (r_world s));
  clnt_abort s := MkRpc (clntaudp_abort (r_clnt s)) (r_world s) [] (r_sent s) (r_done s);
  clnt_set_timeout secs s := (control CLSET_TIMEOUT (TV secs 0) s).2;
  clnt_get_timeout s := tv_sec (control CLGET_TIMEOUT (TV 0 0) s).1;
  clnt_set_retry_timeout secs s := (control CLSET_RETRY_TIMEOUT (TV secs 0) s).2;
  junk_u_int := stack_junk
}.

Context (F0 : Files).
Definition explains (s : Rpc) : Prop := exists hist, server_ok F0 s hist.
Definition succeeded (r : rpc attrstat) : bool := match r with inr (NfsOk _) => true | _ => false end.

Lemma udp_write a (s : Rpc) r s' : Nfs.nfsproc_write_2 a s = (r, s') -> explains s -> r_queue s = [] ->
  explains s' /\ r_queue s' = [] /\
  ((s' = s /\ succeeded r = false) \/
   (r_sent s' = a :: r_sent s /\ r_done s' = (if succeeded r then [a] else []) ++ r_done s)).
Proof.
  intros Hw [hist Hs] Hq. simpl in Hw. case_decide as Ha.
  - destruct (server_write F0 s hist a Hs Hq Ha) as (res & cl' & w' & new & E & Hs' & _). rewrite E in Hw. unfold stub_res in Hw.
    rewrite Hq in Hw. injection Hw as <- <-. split; [by exists (new ++ hist)|]. split; [done|]. right. split; [done|].
    by destruct res as [[attr|]|].
  - injection Hw as <- <-. split; [by exists hist|]. split; [done|]. by left.
Qed.
Lemma udp_send a (s : Rpc) r s' : Nfs.nfsproc_send_writesb_2 a s = (r, s') -> explains s ->
  explains s' /\ (forall b, b ∈ r_queue s' -> b.2 = a \/ b ∈ r_queue s) /\
  (r_queue s').*2 = (match r with None => [a] | Some _ => [] end) ++ (r_queue s).*2 /\
  r_done s' = r_done s /\ ((s' = s /\ r <> None) \/ r_sent s' = a :: r_sent s).
Proof.
  intros Hw [hist Hs]. simpl in Hw. case_decide as Ha.
  - destruct Ha as [Ha Hy]. destruct (server_send F0 s hist a Hs Ha Hy) as (ok & cl' & w' & new & E & Hs').
    rewrite E in Hw. destruct ok; injection Hw as <- <-; (split; [by exists (new ++ hist)|]); simpl; split_and!; try done; try (by right).
    intros b [->|Hb]%elem_of_cons; [by left|by right].
  - injection Hw as <- <-. split; [by exists hist|]. split_and!; try done; [by right|by left].
Qed.

Lemma filter_same {A} (P : A -> Prop) `{!forall x, Decision (P x)} (l : list A) : (forall x, x ∈ l -> P x) -> filter P l = l.
Proof.
  induction l as [|x l IH]; intros Hl; [done|]. rewrite filter_cons_True by (apply Hl; left). f_equal. apply IH. intros y Hy. apply Hl. by right.
Qed.
Lemma queue_split (queue : list (Z * writeargs)) x a (m : gmap Z (Z * Z)) : NoDup queue.*1 -> (x, a) ∈ queue ->
  m = delete x (qmap queue) ->
  exists l1 l2, queue = l1 ++ (x, a) :: l2 /\ filter (fun e => is_Some (m !! e.1)) queue = l1 ++ l2 /\
    filter (fun e => ~ is_Some (m !! e.1)) queue = [(x, a)].
Proof.
  intros Hd Hin ->. apply list_elem_of_split in Hin as (l1 & l2 & ->). exists l1, l2. split; [done|].
  set (m := delete x _). assert (Hx : ~ is_Some (m !! x)) by (unfold m; rewrite lookup_delete_eq; by intros []).
  assert (Hk : forall e, e ∈ l1 ++ l2 -> is_Some (m !! e.1)).
  { intros [y b] He. assert (Hne : y <> x).
    { rewrite fmap_app, fmap_cons in Hd. apply NoDup_app in Hd as (_ & Hd1 & Hd2). apply NoDup_cons in Hd2 as [Hd2 _]. intros ->.
      apply elem_of_app in He as [He|He]; [apply (Hd1 x); [by apply (list_elem_of_fmap_2 fst _ (x, b))|left]|].
      by apply Hd2, (list_elem_of_fmap_2 fst _ (x, b)). }
    unfold m. simpl. rewrite lookup_delete_ne by done. exists (clnt_res, 0). apply qmap_lookup; [done|]. exists b. set_solver. }
  rewrite !filter_app, filter_cons_False, filter_cons_True by done.
  assert (Hn : forall l, (forall e, e ∈ l -> is_Some (m !! e.1)) -> filter (fun e : Z * writeargs => ~ is_Some (m !! e.1)) l = []).
  { induction l as [|e l IH]; intros Hl; [done|]. rewrite filter_cons_False; [apply IH; intros e' He'; apply Hl; by right|].
    intros Hne. apply Hne, Hl. left. }
  rewrite !Hn by (intros e He; apply Hk, elem_of_app; auto). split; [|done].
  f_equal; apply filter_same; intros e He; apply Hk, elem_of_app; auto.
Qed.

Lemma udp_wait (s : Rpc) r s' : Nfs.nfsproc_wait_write_2 s = (r, s') -> explains s ->
  explains s' /\ r_sent s' = r_sent s /\ (forall b, b ∈ r_queue s' -> b ∈ r_queue s) /\
  (succeeded r = false /\ r_done s' = r_done s \/
   exists l1 x a l2, succeeded r = true /\ r_queue s = l1 ++ (x, a) :: l2 /\ r_queue s' = l1 ++ l2 /\ r_done s' = a :: r_done s).
Proof.
  intros Hw [hist Hs]. simpl in Hw. destruct (server_wait F0 s hist Hs) as (res & cl' & w' & new & E & Hs' & HF & Hok).
  rewrite E in Hw. unfold stub_res in Hw. injection Hw as <- <-. split; [by exists (new ++ hist)|]. simpl. split; [done|].
  split; [intros b Hb; by apply list_elem_of_filter in Hb as [_ Hb]|].
  destruct res as [[attr|st]|]; [right|by left|by left].
  destruct (Hok attr eq_refl) as (x & a & Hxa & Hout & _).
  destruct (queue_split (r_queue s) x a _ (so_ids _ _ _ Hs) Hxa Hout) as (l1 & l2 & Eq & Est & Eoff).
  exists l1, x, a, l2. split; [done|]. split; [done|]. unfold still, ended, taken_off. rewrite Est, Eoff. done.
Qed.
Lemma udp_abort (s : Rpc) : explains s -> explains (clnt_abort s).
Proof. intros [hist Hs]. exists hist. by apply server_abort. Qed.

(** ** What the client knows *)

(** The files that the writes [l], the last first, make of the files [G]. *)
Definition replay (G : Files) (l : list writeargs) : Files := foldr (fun a F => write_to F a) G l.

Lemma replay_late G l f o : replay G l f o = G f o \/ late l f o (replay G l f o).
Proof.
  induction l as [|a l IH]; simpl; [by left|]. destruct (decide (f = wa_file a /\ wa_offset a <= o < wa_offset a + zlen (wa_data a))) as [Hr|Hr].
  - right. exists a. split; [left|by apply range_carries].
  - rewrite !write_to_out by done. destruct IH as [?|?]; [by left|right]. eapply late_mono; [|done]. intros b. by right.
Qed.
(** What is written is not what was there before. *)
Lemma replay_any G G' l f o a : a ∈ l -> wrange a f o -> replay G l f o = replay G' l f o.
Proof.
  induction l as [|a' l IH]; simpl; [by intros ?%elem_of_nil|]. intros Hin Hr.
  destruct (decide (f = wa_file a' /\ wa_offset a' <= o < wa_offset a' + zlen (wa_data a'))) as [Hr'|Hr']; [by apply write_to_in|].
  apply elem_of_cons in Hin as [->|Hin]; [done|]. rewrite !write_to_out by done. by apply IH.
Qed.
Lemma replay_none G l f o : (forall a, a ∈ l -> ~ wrange a f o) -> replay G l f o = G f o.
Proof.
  induction l as [|a l IH]; simpl; intros Hn; [done|]. rewrite write_to_out by (apply Hn; left). apply IH. intros b Hb. apply Hn. by right.
Qed.
Lemma replay_covered G l f o a : a ∈ l -> wrange a f o -> late l f o (replay G l f o).
Proof.
  induction l as [|b l IH]; simpl; [by intros ?%elem_of_nil|]. intros Hin Hr.
  destruct (decide (f = wa_file b /\ wa_offset b <= o < wa_offset b + zlen (wa_data b))) as [Hr'|Hr'].
  - exists b. split; [left|by apply range_carries].
  - rewrite write_to_out by done. apply elem_of_cons in Hin as [->|Hin]; [done|]. eapply late_mono; [|by apply IH]. intros b'. by right.
Qed.
(** A place that keeps whatever was there is not written. *)
Lemma replay_kept l f o : (forall G, replay G l f o = G f o) -> forall a, a ∈ l -> ~ wrange a f o.
Proof.
  intros Hk a Ha Hr. pose proof (replay_any (fun _ _ => x00) (fun _ _ => x01) l f o a Ha Hr) as E. by rewrite !Hk in E.
Qed.
(** A place that does not is. *)
Lemma replay_changed l f o : (forall G G', replay G l f o = replay G' l f o) -> exists a, a ∈ l /\ wrange a f o.
Proof.
  intros Hc. destruct (decide (Exists (fun a => f = wa_file a /\ wa_offset a <= o < wa_offset a + zlen (wa_data a)) l)) as [(a & Ha & Hr)%Exists_exists|Hn];
    [by exists a|exfalso]. pose proof (Hc (fun _ _ => x00) (fun _ _ => x01)) as E.
  rewrite !replay_none in E; [done|..]; intros a Ha Hr; apply Hn, Exists_exists; by exists a.
Qed.

Context (G : Files).

(** Each write of the queue is still to be seen. *)
Definition queue_seen (s : Rpc) : Prop :=
  forall b f o, b ∈ (r_queue s).*2 -> wrange b f o -> replay G (r_sent s) f o = write_to (replay G (r_sent s)) b f o.

Lemma queue_empty (s : Rpc) : reverse (r_queue s).*2 = [] -> r_queue s = [].
Proof. intros Hi. apply (f_equal reverse) in Hi. rewrite reverse_involutive in Hi. by apply fmap_nil_inv in Hi. Qed.

(** Every write carried out once, in the order they are made ... *)
Program Definition udp_sent : NfsFileServer Rpc := {|
  contents s := replay G (r_sent s);
  inflight s := reverse (r_queue s).*2;
  fs_ok s := explains s /\ queue_seen s
|}.
Next Obligation.
  intros a s r s' Hw [Hs Hv] Hi%queue_empty. destruct (udp_write a s r s' Hw Hs Hi) as (Hs' & Hq' & Hcase).
  assert (Hv' : queue_seen s') by (intros b f o; rewrite Hq'; by intros ?%elem_of_nil). rewrite Hq'.
  destruct Hcase as [[-> Hno]|[Hsent _]]; (split; [done|]); (split; [done|]).
  - split; [done|]. by intros attr ->.
  - rewrite Hsent. simpl. split; [intros f o Hn; by apply write_to_out|done].
Qed.
Next Obligation.
  intros a s r s' Hw [Hs Hv] Hdis. destruct (udp_send a s r s' Hw Hs) as (Hs' & _ & Hq & _ & Hcase). rewrite Hq.
  assert (Hv' : queue_seen s').
  { destruct Hcase as [[-> _]|Hsent]; [done|]. intros b f o. rewrite Hq, Hsent. simpl. intros [Hb|Hb]%elem_of_app Hr.
    - assert (b = a) as -> by (destruct r; [by apply elem_of_nil in Hb|by apply list_elem_of_singleton in Hb]). by apply write_to_in.
    - assert (Hra : ~ wrange a f o) by (apply (Hdis b f o); [by apply elem_of_reverse|done]).
      rewrite write_to_out by done. rewrite (Hv b f o Hb Hr) at 1. by apply write_to_in. }
  split; [done|]. split; [destruct r; [done|]; simpl; by rewrite reverse_cons|].
  intros f o Hn _. destruct Hcase as [[-> _]|Hsent]; [done|]. rewrite Hsent. simpl. by apply write_to_out.
Qed.
Next Obligation.
  intros s r s' Hw [Hs Hv]. destruct (udp_wait s r s' Hw Hs) as (Hs' & Hsent & Hsub & Hcase).
  assert (Hv' : queue_seen s').
  { intros b f o (e & -> & He)%list_elem_of_fmap Hr. rewrite Hsent. apply Hv; [|done]. by apply (list_elem_of_fmap_2 snd), Hsub. }
  split; [done|]. rewrite Hsent. split; [done|]. split.
  - intros b. rewrite !elem_of_reverse. intros (e & -> & He)%list_elem_of_fmap. by apply (list_elem_of_fmap_2 snd), Hsub.
  - intros attr ->. destruct Hcase as [[? _]|(l1 & x & a & l2 & _ & Eq & Eq' & _)]; [done|].
    exists (reverse l2.*2), a, (reverse l1.*2). rewrite Eq', Eq, !fmap_app, fmap_cons, !reverse_app, reverse_cons, <-app_assoc.
    split; [done|]. split; [done|]. intros f o Hr _. apply Hv; [|done]. rewrite Eq, fmap_app. set_solver.
Qed.
Next Obligation. intros s [Hs Hv]. split; [split; [by apply udp_abort|by intros b f o ?%elem_of_nil]|done]. Qed.

(** ... and every write that was reported as done. *)
Program Definition udp_done : NfsFileServer Rpc := {|
  contents s := replay G (r_done s);
  inflight s := reverse (r_queue s).*2;
  fs_ok s := explains s
|}.
Next Obligation.
  intros a s r s' Hw Hs Hi%queue_empty. destruct (udp_write a s r s' Hw Hs Hi) as (Hs' & Hq' & Hcase). rewrite Hq'.
  destruct Hcase as [[-> Hno]|[_ Hdone]]; (split; [done|]); (split; [done|]).
  - split; [done|]. by intros attr ->.
  - rewrite Hdone. split; [intros f o Hn; destruct (succeeded r); [by apply write_to_out|done]|]. by intros attr ->.
Qed.
Next Obligation.
  intros a s r s' Hw Hs _. destruct (udp_send a s r s' Hw Hs) as (Hs' & _ & Hq & Hdone & _). rewrite Hq, Hdone.
  split; [done|]. split; [destruct r; [done|]; simpl; by rewrite reverse_cons|done].
Qed.
Next Obligation.
  intros s r s' Hw Hs. destruct (udp_wait s r s' Hw Hs) as (Hs' & _ & Hsub & Hcase). split; [done|]. split; [|split].
  - intros f o Hn. destruct Hcase as [[_ ->]|(l1 & x & a & l2 & _ & Eq & _ & ->)]; [done|]. simpl. apply write_to_out, Hn.
    apply elem_of_reverse. rewrite Eq, fmap_app. set_solver.
  - intros b. rewrite !elem_of_reverse. intros (e & -> & He)%list_elem_of_fmap. by apply (list_elem_of_fmap_2 snd), Hsub.
  - intros attr ->. destruct Hcase as [[? _]|(l1 & x & a & l2 & _ & Eq & Eq' & Hdone)]; [done|].
    exists (reverse l2.*2), a, (reverse l1.*2). rewrite Eq', Eq, Hdone, !fmap_app, fmap_cons, !reverse_app, reverse_cons, <-app_assoc. done.
Qed.
Next Obligation. intros s Hs. split; [by apply udp_abort|done]. Qed.
End Instances.
