(* ===== verification/SimNet.v ===== *)
(** * A simulated network with a file server

    An instance of the interfaces of the transport: the network loses and delays
    requests, doubles them and lets later ones overtake them; it loses, doubles,
    delays and reorders replies as it is told.  The server decodes the requests and
    keeps the files in memory. *)
From S2P Require Import Prelude NfsProt NfsSupp Nfs NfsServer Xdr XdrSpec NfsXdr NfsXdrSpec NfsXdrThm.
From S2P Require Import Udp UdpSpec UdpRun UdpThm Stubs Wire NfsNet UdpCalls UdpServer.

#[local] Arguments be32 z : simpl never.

(** ** Decoders look at what they read only *)

Definition dec_local {A} (d : DEC A) : Prop :=
  forall b m x s, d (MkXDRD b m) = Some (x, s) -> forall t, d (MkXDRD (b ++ t) m) = Some (x, MkXDRD (xd_buf s ++ t) (xd_mem s)).

Lemma local_ret {A} (x : A) : dec_local (dret x).
Proof. by intros b m y s [= <- <-] t. Qed.
Lemma local_fail {A} : dec_local (@dfail A).
Proof. done. Qed.
Lemma local_bind {A B} (d : DEC A) (k : A -> DEC B) : dec_local d -> (forall x, dec_local (k x)) -> dec_local (dbind d k).
Proof.
  intros Hd Hk b m y s. unfold dbind. destruct (d (MkXDRD b m)) as [[x s1]|] eqn:E; [|done]. cbn [mbind option_bind].
  intros Hs t. rewrite (Hd _ _ _ _ E t). cbn [mbind option_bind]. destruct s1 as [b1 m1]. by apply Hk.
Qed.
Lemma local_getlong : dec_local xdrmem_getlong.
Proof.
  intros b m x s. unfold xdrmem_getlong. cbn [xd_buf xd_mem]. destruct b as [|b1 [|b2 [|b3 [|b4 b]]]]; try done. by intros [= <- <-] t.
Qed.
Lemma local_getbytes len : dec_local (xdrmem_getbytes len).
Proof.
  intros b m x s. unfold xdrmem_getbytes. cbn [xd_buf xd_mem]. destruct (Z.ltb_spec (zlen b - len) 0) as [|Hlt]; [done|].
  intros [= <- <-] t. pose proof (zlen_nonneg t). rewrite (proj2 (Z.ltb_ge _ _)) by (rewrite zlen_app; lia). cbn [xd_buf xd_mem].
  rewrite take_app_le, drop_app_le by (unfold zlen in *; lia). done.
Qed.
Lemma local_alloc : dec_local mem_alloc.
Proof. intros b m x s. unfold mem_alloc. cbn [xd_buf xd_mem]. destruct m; [done|]. by intros [= <- <-] t. Qed.
Lemma local_if {A} (c : bool) (d1 d2 : DEC A) : dec_local d1 -> dec_local d2 -> dec_local (if c then d1 else d2).
Proof. by destruct c. Qed.

Ltac local_step := first [apply local_ret | apply local_fail | apply local_getlong | apply local_getbytes | apply local_alloc
  | apply local_if | apply local_bind; [|intros ?]].
Lemma local_writeargs : dec_local (xdr_writeargs_dec false).
Proof.
  unfold xdr_writeargs_dec, xdr_nfs_fh_dec, xdr_u_int_dec, xdr_u_long_dec, xdr_bytes_dec, xdr_u_int_dec, xdr_u_long_dec, xdr_opaque_dec.
  repeat local_step.
Qed.

(** ** The network *)

(** What becomes of a request: it may be carried out at once, and the reply be sent
    so many times, and it may be kept to be carried out so many times later. *)
Inductive fate := Fate (at_once : option nat) (kept : nat).
Definition Lost : fate := Fate None 0.
Definition Unanswered : fate := Fate (Some 0%nat) 0.
Definition Answered (copies : nat) : fate := Fate (Some copies) 0.
Definition Delayed : fate := Fate None 1.
(** What select finds: nothing yet, nothing while a request that was kept is carried
    out, or one of the replies. *)
Inductive arrival := Late | Happen (i : nat) | Next (i : nat).

(** A request, the reply, and how many requests were sent since; a request that is
    kept. *)
Record simnet := SimNet {
  sn_files : Files;
  sn_size : Z;
  sn_transit : list (list byte * list byte * nat);
  sn_kept : list (list byte * nat);
  sn_fates : list fate;
  sn_arrivals : list arrival;
  sn_user : list Z
}.

Inductive call := Read (a : readargs) | Write (a : writeargs) | Attr (f : nfs_fh).

Definition dec_call : DEC call :=
  xid <~ xdrmem_getlong; prog <~ xdrmem_getlong; vers <~ xdrmem_getlong; proc <~ xdrmem_getlong;
  if negb ((prog =? NFS_PROGRAM) && (vers =? NFS_VERSION)) then dfail
  else if proc =? NFSPROC_READ then a <~ xdr_readargs_dec; dret (Read a)
  else if proc =? NFSPROC_WRITE then a <~ xdr_writeargs_dec false; dret (Write a)
  else if proc =? NFSPROC_GETATTR then f <~ xdr_nfs_fh_dec; dret (Attr f)
  else dfail.

Definition sim_read (a : readargs) (F : Files) (size : Z) : list byte :=
  (fun i => F (ra_file a) (ra_offset a + Z.of_nat i)) <$>
  seq 0 (Z.to_nat (Z.min (Z.min (ra_count a) NFS_MAXDATA) (size - ra_offset a))).

(** A reply: the id, success, and the results. *)
Definition sim_reply (q : list byte) (results : ENC) : list byte :=
  default [] (xdrs ← (xdrmem_putlong (xid_of q) >>> xdrmem_putlong RPC_SUCCESS >>> results) (MkXDRE [] UDPMSGSIZE); Some (xe_out xdrs)).

(** The files after a request, their size and the reply; what is no request
    is ignored. *)
Definition serve (q : list byte) (F : Files) (size : Z) : option (Files * Z * list byte) :=
  '(c, _) ← dec_call (MkXDRD q 0);
  Some match c with
       | Read a => (F, size, sim_reply q (xdr_readres_enc (NfsOk (ReadOkRes (mem_attr (u32 size)) (sim_read a F size)))))
       | Write a =>
           let size := Z.max size (wa_offset a + zlen (wa_data a)) in
           (write_to F a, size, sim_reply q (xdr_attrstat_enc (NfsOk (mem_attr (u32 size)))))
       | Attr f => (F, size, sim_reply q (xdr_attrstat_enc (NfsOk (mem_attr (u32 size)))))
       end.

Definition older {A} (l : list (A * nat)) : list (A * nat) := (fun e => (e.1, S e.2)) <$> l.

Definition sim_sendto (q : list byte) (n : simnet) : simnet :=
  let n0 := SimNet (sn_files n) (sn_size n) (older (sn_transit n)) (older (sn_kept n)) (tail (sn_fates n)) (sn_arrivals n) (sn_user n) in
  match serve q (sn_files n) (sn_size n) with
  | None => n0
  | Some (F, size, d) =>
      let 'Fate at_once kept := default (Answered 1) (head (sn_fates n)) in
      let copies := match at_once with Some c => Nat.min c 2 | None => 0%nat end in
      SimNet (if at_once is Some _ then F else sn_files n) (if at_once is Some _ then size else sn_size n)
        (replicate copies (q, d, 0%nat) ++ sn_transit n0)
        (replicate (Nat.min kept (2 - copies)) (q, 0%nat) ++ sn_kept n0) (sn_fates n0) (sn_arrivals n) (sn_user n)
  end.

Definition set_arrivals l (n : simnet) : simnet :=
  SimNet (sn_files n) (sn_size n) (sn_transit n) (sn_kept n) (sn_fates n) l (sn_user n).

(** One of the kept requests is carried out. *)
Definition sim_carry (i : nat) (n : simnet) : simnet :=
  let i := (i mod length (sn_kept n))%nat in
  match sn_kept n !! i with
  | Some (q, k) =>
      match serve q (sn_files n) (sn_size n) with
      | Some (F, size, d) => SimNet F size ((q, d, k) :: sn_transit n) (delete i (sn_kept n)) (sn_fates n) (sn_arrivals n) (sn_user n)
      | None => n
      end
  | None => n
  end.

(** A reply that is too old is dropped. *)
#[export] Instance sim_net : Net simnet := {
  net_select t n :=
    match sn_arrivals n with
    | Happen i :: l => (SelTimeout, set_arrivals l (sim_carry i n))
    | _ =>
        match sn_transit n, sn_arrivals n with
        | [], _ => (SelTimeout, n)
        | _, Late :: l => (SelTimeout, set_arrivals l n)
        | _, _ => (SelReady, n)
        end
    end;
  net_recvfrom sz n :=
    let i := (match sn_arrivals n with Next i :: _ => i | _ => 0 end mod length (sn_transit n))%nat in
    match sn_transit n !! i with
    | Some (q, d, k) =>
        (if (Z.of_nat k <? lifetime) && (xid_of d =? xid_of q) then inr d else inl 35,
         SimNet (sn_files n) (sn_size n) (delete i (sn_transit n)) (sn_kept n) (sn_fates n) (tail (sn_arrivals n)) (sn_user n))
    | None => (inl 35, n)
    end;
  net_sendto q n := ((zlen q, 0), sim_sendto q n);
  net_mem n := (0%nat, n);
  timeout_cb n := (false, n);
  EWOULDBLOCK := 35
}.

#[export] Instance sim_user : Requester simnet := {
  use_timeout_req n := true;
  APrintReq2 n :=
    match sn_user n with
    | [] => (1, n)
    | a :: l => (a, SimNet (sn_files n) (sn_size n) (sn_transit n) (sn_kept n) (sn_fates n) (sn_arrivals n) l)
    end
}.

Lemma older_length {A} (l : list (A * nat)) : length (older l) = length l.
Proof. unfold older. by rewrite length_fmap. Qed.

Definition sim_arrivals (n : simnet) : nat := length (sn_transit n) + length (sn_kept n).

Lemma carry_less i n : (sim_arrivals (sim_carry i n) <= sim_arrivals n)%nat /\ sn_user (sim_carry i n) = sn_user n.
Proof.
  unfold sim_carry, sim_arrivals. set (j := (_ mod _)%nat). destruct (sn_kept n !! j) as [[q k]|] eqn:E; [|done].
  destruct (serve _ _ _) as [[[F size] d]|]; [|done]. simpl. split; [|done]. apply lookup_lt_Some in E as Hlt.
  assert (Hd := length_delete (sn_kept n) j ltac:(by eexists)). lia.
Qed.
Lemma sendto_more q n : (sim_arrivals (sim_sendto q n) <= sim_arrivals n + 2)%nat /\ sn_user (sim_sendto q n) = sn_user n.
Proof.
  unfold sim_sendto, sim_arrivals. destruct (serve _ _ _) as [[[F size] d]|]; simpl; [|rewrite !older_length; split; [lia|done]].
  destruct (default _ _) as [c kept]. simpl. rewrite !length_app, !length_replicate, !older_length. destruct c; split; (lia || done).
Qed.
Lemma select_ready t n n' : net_select t n = (SelReady, n') -> n' = n /\ sn_transit n <> [].
Proof. simpl. destruct (sn_arrivals n) as [|[] l], (sn_transit n); intros [= <-]; done. Qed.
Lemma select_less t n r n' : net_select t n = (r, n') -> (sim_arrivals n' <= sim_arrivals n)%nat /\ sn_user n' = sn_user n.
Proof.
  simpl. destruct (sn_arrivals n) as [|[|i|] l]; [| |intros [= <- <-]; apply (carry_less i n)|];
    destruct (sn_transit n) eqn:E; intros [= <- <-]; done.
Qed.

#[export] Program Instance sim_finite : NetFinite simnet := {
  arrivals := sim_arrivals;
  replies := 2
}.
Next Obligation.
  intros t n n' [-> Hne]%select_ready sz. simpl.
  set (i := (_ mod _)%nat). assert (Hi : (i < length (sn_transit n))%nat) by (apply Nat.mod_upper_bound; by destruct (sn_transit n)).
  destruct (lookup_lt_is_Some_2 (sn_transit n) i Hi) as [[[q d] k] E]. rewrite E. unfold sim_arrivals. simpl.
  rewrite length_delete by done. lia.
Qed.
Next Obligation. intros t n r n' Hs _. by apply (select_less t n r n'). Qed.
Next Obligation. intros p n. apply sendto_more. Qed.
Next Obligation. simpl. lia. Qed.

#[export] Program Instance sim_requester : RequesterFinite simnet := { patience n := length (sn_user n) }.
Next Obligation.
  intros n a n'. simpl. destruct (sn_user n) as [|x l] eqn:E; intros [= <- <-]; simpl; [by rewrite E|lia].
Qed.
Next Obligation.
  intros t n. destruct (net_select t n) as [r n'] eqn:E. simpl. apply select_less in E as [_ ->]. lia.
Qed.
Next Obligation. intros sz n. simpl. by destruct (_ !! _) as [[[q d] k]|]. Qed.
Next Obligation. intros p n. simpl. destruct (sendto_more p n) as [_ ->]. lia. Qed.
Next Obligation. simpl. lia. Qed.
Next Obligation. simpl. lia. Qed.

(** What a sequence wrote fitted. *)
Lemma putlong_out z e e' : xdrmem_putlong z e = Some e' -> xe_out e' = xe_out e ++ be32 z.
Proof. unfold xdrmem_putlong. destruct (_ <? 0); [done|]. by intros [= <-]. Qed.
Lemma callhdr_out {A : Type} xid prog vers room xdrs : xdr_callhdr (AUTH := A) xid prog vers (MkXDRE [] room) = Some xdrs ->
  xe_out xdrs = be32 xid ++ be32 prog ++ be32 vers.
Proof.
  simpl. unfold eseq. intros (e1 & E1%putlong_out & (e2 & E2%putlong_out & E3%putlong_out)%bind_Some)%bind_Some.
  rewrite E3, E2, E1. by rewrite <-app_assoc.
Qed.

#[export] Instance sim_sizes {A : Type} : RpcSizes A.
Proof.
  constructor.
  - intros xid prog vers room xdrs Hx%callhdr_out. by rewrite Hx.
  - intros a. exists []. split; [apply enc_nop|done].
Qed.

(** ** Requests as the server sees them *)

Section Server.
Context {A : Type}.

Lemma local_readargs : dec_local xdr_readargs_dec.
Proof. unfold xdr_readargs_dec, xdr_nfs_fh_dec, xdr_u_int_dec, xdr_u_long_dec, xdr_opaque_dec. repeat local_step. Qed.
Lemma local_call : dec_local dec_call.
Proof. unfold dec_call. repeat local_step. Qed.

Definition call_bytes (xid proc : Z) (bs : list byte) : list byte :=
  be32 xid ++ be32 NFS_PROGRAM ++ be32 NFS_VERSION ++ be32 proc ++ bs.

Lemma nfs_call_bytes proc xargs bs q : enc_ok xargs bs -> nfs_call (AUTH := A) proc xargs q -> exists xid, q = call_bytes xid proc bs.
Proof.
  intros He (hdr & sendsz & (xid0 & room & xd0 & Hx0 & Hz & Hd) & xid & auth & xd & _ & Hx & ->). exists xid. unfold call_bytes.
  assert (E0 : drop 4 (xe_out xd0) = be32 NFS_PROGRAM ++ be32 NFS_VERSION).
  { apply callhdr_out in Hx0. rewrite Hx0. done. }
  rewrite Hd, E0, <-!app_assoc. do 3 f_equal.
  assert (Hpos : 0 <= sendsz - zlen hdr).
  { unfold eseq, xdrmem_putlong in Hx. simpl in Hx. unfold BYTES_PER_XDR_UNIT in Hx. destruct (Z.ltb_spec (sendsz - zlen hdr - 4) 0); [done|lia]. }
  pose proof (enc_seq _ _ _ _ (enc_putlong proc) (enc_seq _ _ _ _ enc_nop He)) as Hall. simpl in Hx. rewrite Hall in Hx by done.
  destruct (_ <=? _); [|done]. injection Hx as <-. done.
Qed.

Lemma dec_call_head xid proc bs m : 0 <= proc < 2 ^ 31 -> dec_call (MkXDRD (call_bytes xid proc bs) m) =
  (if proc =? NFSPROC_READ then a <~ xdr_readargs_dec; dret (Read a)
   else if proc =? NFSPROC_WRITE then a <~ xdr_writeargs_dec false; dret (Write a)
   else if proc =? NFSPROC_GETATTR then f <~ xdr_nfs_fh_dec; dret (Attr f) else dfail) (MkXDRD bs m).
Proof.
  intros Hp. unfold dec_call, call_bytes, dbind at 1. pose proof (dec_getlong xid) as H1. unfold dec_ok in H1. rewrite (H1 _ m). cbn [mbind option_bind].
  unfold dbind at 1. rewrite (dec_getlong NFS_PROGRAM _ m). cbn [mbind option_bind].
  unfold dbind at 1. rewrite (dec_getlong NFS_VERSION _ m). cbn [mbind option_bind].
  unfold dbind at 1. rewrite (dec_getlong proc _ m). cbn [mbind option_bind].
  rewrite (s32_id proc) by lia. done.
Qed.
Lemma dec_write_call xid a rest : writeargs_ok a ->
  dec_call (MkXDRD (call_bytes xid NFSPROC_WRITE (w_writeargs a ++ rest)) 0) = Some (Write a, MkXDRD rest 0).
Proof.
  intros Ha. rewrite dec_call_head by done. simpl. unfold dbind. pose proof (cd_dec (Codec := writeargs_codec false) a Ha rest 0%nat) as Hd. simpl in Hd.
  by rewrite Hd.
Qed.
Lemma dec_read_call xid a : readargs_ok a -> dec_call (MkXDRD (call_bytes xid NFSPROC_READ (w_readargs a)) 0) = Some (Read a, MkXDRD [] 0).
Proof.
  intros Ha. rewrite dec_call_head by done. simpl. unfold dbind. pose proof (cd_dec (Codec := readargs_codec) a Ha [] 0%nat) as Hd. rewrite app_nil_r in Hd. simpl in Hd.
  by rewrite Hd.
Qed.

(** A request to write is one, or malformed; cut off it is malformed. *)
Lemma write_request_call q a : write_request (AUTH := A) q a -> writeargs_ok a ->
  dec_call (MkXDRD q 0) = None \/ exists s, dec_call (MkXDRD q 0) = Some (Write a, s).
Proof.
  intros [Hq|(q0 & Hq & ->)] Ha.
  - apply (nfs_call_bytes _ _ (w_writeargs a)) in Hq as [xid ->]; [|by apply (cd_enc (Codec := writeargs_codec false))].
    right. rewrite <-(app_nil_r (w_writeargs a)). eexists. by apply dec_write_call.
  - destruct (writeargssb_ok a Ha) as (bs & Hbs & Hw). apply (nfs_call_bytes _ _ bs) in Hq as [xid ->]; [|done].
    destruct (dec_call _) as [[c s]|] eqn:E; [|by left]. right. exists s. apply (local_call _ _ _ _) with (t := pad (wa_data a)) in E.
    unfold call_bytes in E. rewrite <-!app_assoc in E. rewrite <-Hw in E. fold (call_bytes xid NFSPROC_WRITE (w_writeargs a)) in E.
    rewrite <-(app_nil_r (w_writeargs a)), dec_write_call in E by done. by injection E as <-.
Qed.
Lemma cut_request_call q a : cut_request (AUTH := A) q a -> writeargs_ok a -> dec_call (MkXDRD q 0) = None.
Proof.
  intros [Hq Hne] Ha. destruct (writeargssb_ok a Ha) as (bs & Hbs & Hw). apply (nfs_call_bytes _ _ bs) in Hq as [xid ->]; [|done].
  destruct (dec_call _) as [[c s]|] eqn:E; [|done]. exfalso. apply (local_call _ _ _ _) with (t := wa_data a ++ pad (wa_data a)) in E.
  unfold call_bytes in E. rewrite <-!app_assoc in E. rewrite <-Hw in E. fold (call_bytes xid NFSPROC_WRITE (w_writeargs a)) in E.
  rewrite <-(app_nil_r (w_writeargs a)), dec_write_call in E by done. injection E as _ E. symmetry in E. apply app_nil in E as [_ E]. by apply app_nil in E as [E _].
Qed.
Lemma read_request_call q a : read_request (AUTH := A) q a -> readargs_ok a -> exists s, dec_call (MkXDRD q 0) = Some (Read a, s).
Proof.
  intros Hq Ha. apply (nfs_call_bytes _ _ (w_readargs a)) in Hq as [xid ->]; [|by apply (cd_enc (Codec := readargs_codec))].
  eexists. by apply dec_read_call.
Qed.

Lemma attr_request_call q f0 : nfs_call (AUTH := A) NFSPROC_GETATTR (xdr_nfs_fh_enc f0) q -> fh_ok f0 -> exists s, dec_call (MkXDRD q 0) = Some (Attr f0, s).
Proof.
  intros Hq Hf. apply (nfs_call_bytes _ _ (w_opaque f0)) in Hq as [xid ->]; [|by apply (cd_enc (Codec := nfs_fh_codec))].
  rewrite dec_call_head by done. simpl. unfold dbind. pose proof (cd_dec (Codec := nfs_fh_codec) f0 Hf [] 0%nat) as Hd. rewrite app_nil_r in Hd. simpl in Hd.
  rewrite Hd. by eexists.
Qed.

(** ** Replies *)

Lemma gives_decoded (xres : xdrproc) q bs enc d x r :
  enc_ok enc bs -> (forall rest m, xdr_dec xres (MkXDRD (bs ++ rest) m) = Some (x, MkXDRD rest m)) ->
  d = sim_reply q enc -> gives (AUTH := A) xres d r -> r = x.
Proof.
  intros He Hd -> (reply & (mem & y & Hr) & Hres). unfold sim_reply in Hr.
  pose proof (enc_seq _ _ _ _ (enc_putlong (xid_of q)) (enc_seq _ _ _ _ (enc_putlong RPC_SUCCESS) He)) as Hall.
  rewrite Hall in Hr by done. destruct (_ <=? _); cbn [mbind option_bind from_option default xe_out id] in Hr; [|done].
  cbn [xdr_replymsg simple_rpc] in Hr. unfold dbind at 1 in Hr. rewrite ?app_nil_l in Hr.
  rewrite (dec_getlong (xid_of q) _ mem) in Hr. cbn [mbind option_bind] in Hr. unfold dbind at 1 in Hr.
  rewrite (dec_getlong RPC_SUCCESS _ mem) in Hr. cbn [mbind option_bind] in Hr. rewrite s32_id in Hr by done.
  change (RPC_SUCCESS =? RPC_SUCCESS) with true in Hr. cbn iota in Hr. unfold dbind at 1 in Hr. rewrite <-(app_nil_r bs), Hd in Hr. cbn [mbind option_bind] in Hr.
  injection Hr as <- _. by injection Hres.
Qed.

Lemma gives_write q size d attr : d = sim_reply q (xdr_attrstat_enc (NfsOk (mem_attr (u32 size)))) ->
  gives (AUTH := A) xdr_attrstat d (Attrstat (NfsOk attr)) -> attr = mem_attr (u32 size).
Proof.
  intros Hd Hg. assert (Hok : fattr_ok (mem_attr (u32 size))) by (repeat split; try done; apply u32_range).
  eapply (gives_decoded _ _ _ _ _ (Attrstat (NfsOk (mem_attr (u32 size))))) in Hg; [by injection Hg as ->|exact (cd_enc (Codec := attrstat_codec) (NfsOk (mem_attr (u32 size))) Hok)| |exact Hd].
  intros rest m. simpl. unfold dbind. pose proof (cd_dec (Codec := attrstat_codec) (NfsOk (mem_attr (u32 size))) Hok rest m) as E.
  simpl in E. by rewrite E.
Qed.
Lemma sim_read_size a F size : zlen (sim_read a F size) <= NFS_MAXDATA /\ (0 <= ra_count a -> zlen (sim_read a F size) <= ra_count a).
Proof. unfold sim_read, zlen. rewrite length_fmap, length_seq. unfold NFS_MAXDATA. lia. Qed.
Lemma gives_read q a F size d res : d = sim_reply q (xdr_readres_enc (NfsOk (ReadOkRes (mem_attr (u32 size)) (sim_read a F size)))) ->
  gives (AUTH := A) xdr_readres d (Readres (NfsOk res)) -> ro_data res = sim_read a F size.
Proof.
  intros Hd Hg. assert (Hok : fattr_ok (mem_attr (u32 size))) by (repeat split; try done; apply u32_range).
  pose proof (sim_read_size a F size) as [Hs _]. set (x := NfsOk (ReadOkRes (mem_attr (u32 size)) (sim_read a F size))) in *.
  eapply (gives_decoded _ _ _ _ _ (Readres x)) in Hg; [|exact (cd_enc (Codec := readres_codec false) x (conj Hok Hs))| |exact Hd].
  - unfold x in Hg. by injection Hg as ->.
  - intros rest m. simpl. unfold dbind. pose proof (cd_dec (Codec := readres_codec false) x (conj Hok Hs) rest m) as E.
    simpl in E. by rewrite E.
Qed.

(** ** The laws *)

Lemma serve_effect q F size F' size' d : serve q F size = Some (F', size', d) -> effect (AUTH := A) q F F'.
Proof.
  unfold serve. intros ([c s] & Hc & E)%bind_Some. constructor.
  - intros a Hq Ha f o. destruct (write_request_call q a Hq Ha) as [Hn|[s' Hs]]; [by rewrite Hc in Hn|]. rewrite Hc in Hs. injection Hs as -> ->.
    injection E as <- _ _. destruct (decide (f = wa_file a /\ wa_offset a <= o < wa_offset a + zlen (wa_data a))) as [Hr|Hr]; [by right|].
    left. by rewrite write_to_out.
  - intros a Hq Ha. by rewrite (cut_request_call q a Hq Ha) in Hc.
  - intros a Hq Ha f o. destruct (read_request_call q a Hq Ha) as [s' Hs]. rewrite Hc in Hs. injection Hs as -> ->. by injection E as <- _ _.
  - intros f0 Hq Hf f o. destruct (attr_request_call q f0 Hq Hf) as [s' Hs]. rewrite Hc in Hs. injection Hs as -> ->. by injection E as <- _ _.
Qed.
Lemma serve_answer q F size F' size' d : serve q F size = Some (F', size', d) -> answer (AUTH := A) q d F F'.
Proof.
  unfold serve. intros ([c s] & Hc & E)%bind_Some. constructor.
  - intros a attr Hq Ha Hg f o. destruct (write_request_call q a Hq Ha) as [Hn|[s' Hs]]; [by rewrite Hc in Hn|]. rewrite Hc in Hs.
    injection Hs as -> ->. by injection E as <- _ _.
  - intros a attr Hq Ha. by rewrite (cut_request_call q a Hq Ha) in Hc.
  - intros a res Hq Ha Hg. destruct (read_request_call q a Hq Ha) as [s' Hs]. rewrite Hc in Hs. injection Hs as -> ->.
    injection E as _ _ Hd. symmetry in Hd. rewrite (gives_read _ _ _ _ _ _ Hd Hg). split; [apply sim_read_size, Ha|].
    intros i b. unfold sim_read. rewrite list_lookup_fmap. intros (j & Hj & ->)%fmap_Some. by apply lookup_seq in Hj as [-> _].
Qed.

Definition in_way (l : list (list byte * list byte * nat)) (q d : list byte) (k : nat) : Prop :=
  (q, d, k) ∈ l /\ Z.of_nat k < lifetime /\ xid_of d = xid_of q.

Lemma older_in {B} (l : list (B * nat)) x k : (x, k) ∈ older l -> exists k0, k = S k0 /\ (x, k0) ∈ l.
Proof. unfold older. intros ([x' k0] & [= -> ->] & Hin)%list_elem_of_fmap. by exists k0. Qed.
Lemma older_way l q d k : in_way (older l) q d k -> exists k0, k = S k0 /\ in_way l q d k0.
Proof. intros ((k0 & -> & Hin)%older_in & Hk & Hx). exists k0. split; [done|]. split; [done|]. split; [lia|done]. Qed.
End Server.

Definition sim_pending (n : simnet) (q : list byte) (k : nat) : Prop := (q, k) ∈ sn_kept n.
Definition sim_transit (n : simnet) : list byte -> list byte -> nat -> Prop := in_way (sn_transit n).

(** Time passes and a request is carried out, or none. *)
Definition sim_passes {A : Type} (P : list byte -> nat -> Prop) (T : list byte -> list byte -> nat -> Prop) (n n' : simnet) : Prop :=
  exists new, joined (AUTH := A) (sn_files n') new (sn_files n) /\ (forall e, e ∈ new -> exists k, P (en_packet e) k) /\
    (forall q k, sim_pending n' q k -> P q k) /\
    (forall q d k, sim_transit n' q d k -> T q d k \/
       (P q k /\ exists e, e ∈ new /\ en_packet e = q /\ answer (AUTH := A) q d (en_before e) (en_after e))).

Lemma sim_idle {A : Type} (P : list byte -> nat -> Prop) T n n' : sn_files n' = sn_files n ->
  (forall q k, sim_pending n' q k -> P q k) -> (forall q d k, sim_transit n' q d k -> T q d k) -> sim_passes (A := A) P T n n'.
Proof.
  intros HF HP HT. exists []. split; [intros f o; by rewrite HF|]. split; [by intros e ?%elem_of_nil|]. split; [done|].
  intros q d k Hq. left. by apply HT.
Qed.

Lemma sim_carried {A : Type} (P : list byte -> nat -> Prop) T n n' q F size d k : P q k -> serve q (sn_files n) (sn_size n) = Some (F, size, d) ->
  sn_files n' = F -> (forall q k, sim_pending n' q k -> P q k) ->
  (forall q' d' k', sim_transit n' q' d' k' -> T q' d' k' \/ (P q' k' /\ q' = q /\ d' = d)) -> sim_passes (A := A) P T n n'.
Proof.
  intros Hk Hs HF HP HT. exists [MkEntry q (sn_files n) F]. split.
  { simpl. split; [by rewrite HF|]. split; [by eapply serve_effect|done]. }
  split; [intros e ->%list_elem_of_singleton; by exists k|]. split; [done|].
  intros q' d' k' [?|(Hp & -> & ->)]%HT; [by left|right]. split; [done|]. eexists. split; [left|]. split; [done|]. by eapply serve_answer.
Qed.

Lemma select_sim {A : Type} t n r n' : net_select t n = (r, n') -> sim_passes (A := A) (sim_pending n) (sim_transit n) n n'.
Proof.
  assert (Hsame : forall n', sn_files n' = sn_files n -> sn_kept n' = sn_kept n -> sn_transit n' = sn_transit n ->
    sim_passes (A := A) (sim_pending n) (sim_transit n) n n').
  { intros n1 HF HK HT. unfold sim_pending, sim_transit. apply sim_idle; [done| |]; rewrite ?HK, ?HT; [unfold sim_pending; by rewrite HK|unfold sim_transit; by rewrite HT]. }
  simpl. destruct (sn_arrivals n) as [|[|i|j] l]; try (destruct (sn_transit n) eqn:E; intros [= <- <-]; by apply Hsame).
  intros [= <- <-]. unfold sim_carry. set (j := (_ mod _)%nat). destruct (sn_kept n !! j) as [[q k]|] eqn:Ek; [|by apply Hsame].
  destruct (serve q _ _) as [[[F size] d]|] eqn:Es; [|by apply Hsame].
  eapply (sim_carried _ _ _ _ q F size d k); [by eapply list_elem_of_lookup_2|done|done| |].
  - intros q' k' Hin. unfold sim_pending in *. simpl in Hin. by eapply elem_of_sublist; [|apply sublist_delete].
  - intros q' d' k' [Hin Hok]. simpl in Hin. apply elem_of_cons in Hin as [[= -> -> ->]|Hin]; [right|by left].
    split; [by eapply list_elem_of_lookup_2|done].
Qed.

Lemma sendto_sim {A : Type} p n : sim_passes (A := A) (fun q k => (k = 0%nat /\ q = p) \/ exists k0, k = S k0 /\ sim_pending n q k0)
  (fun q d k => exists k0, k = S k0 /\ sim_transit n q d k0) n (sim_sendto p n).
Proof.
  unfold sim_sendto. destruct (serve p _ _) as [[[F size] d]|] eqn:Es.
  2:{ apply sim_idle; [done| |].
      - intros q k (k0 & -> & Hin)%older_in. right. by exists k0.
      - intros q d k. apply older_way. }
  destruct (default _ _) as [c kept]. set (n' := SimNet _ _ _ _ _ _ _).
  assert (HP : forall q k, sim_pending n' q k -> (k = 0%nat /\ q = p) \/ exists k0, k = S k0 /\ sim_pending n q k0).
  { intros q k Hin. apply elem_of_app in Hin as [Hin|Hin]; [left; by apply elem_of_replicate in Hin as [[= -> ->] _]|right].
    apply older_in in Hin as (k0 & -> & Hin). by exists k0. }
  destruct c as [c|].
  - eapply (sim_carried _ _ _ _ p F size d 0%nat); [by left|done|done|exact HP|].
    intros q' d' k' [Hin Hok]. apply elem_of_app in Hin as [Hin|Hin]; [right|left; by apply older_way].
    apply elem_of_replicate in Hin as [[= -> -> ->] _]. split; [by left|done].
  - apply sim_idle; [done|exact HP|]. intros q d' k. apply older_way.
Qed.

#[export] Program Instance sim_network {A : Type} : NfsNetwork simnet A := {
  files := sn_files;
  pending := sim_pending;
  in_transit := sim_transit
}.
Next Obligation. by intros A n q d k (_ & Hk & Hx). Qed.
Next Obligation. intros A t n r n'. apply select_sim. Qed.
Next Obligation. intros A n r n' [= <- <-]. by apply sim_idle. Qed.
Next Obligation. intros A n r n' [= <- <-]. by apply sim_idle. Qed.
Next Obligation. intros A n r n'. simpl. by destruct (sn_user n); intros [= <- <-]; apply sim_idle. Qed.
Next Obligation.
  intros A sz n r n'. simpl. set (i := (_ mod _)%nat). destruct (sn_transit n !! i) as [[[q d] k]|] eqn:E; intros [= <- <-] _.
  - split.
    + apply sim_idle; [done|done|]. intros q' d' k' [Hin Hok]. split; [|done]. simpl in Hin. by eapply elem_of_sublist; [|apply sublist_delete].
    + intros d'. destruct (_ && _) eqn:Hk; [|done]. intros [= <-]. apply andb_true_iff in Hk as [Hk%Z.ltb_lt Hx%Z.eqb_eq]. exists q, k.
      split; [by apply list_elem_of_lookup_2 in E|done].
  - split; [by apply sim_idle|]. by intros d.
Qed.
Next Obligation. intros A p n r n'. simpl. intros [= <- <-]. apply sendto_sim. Qed.
