(* ===== verification/UdpFile.v ===== *)
(** * Files over a lossy network

    The composition of the write cache (WBuf.v), the operations of nfs.c, the
    stubs (Stubs.v), the data representation (NfsXdr.v) and the transport
    (Udp.v): what a session of writes leaves in the files of the server over a
    network that loses, delays, reorders and doubles requests and replies
    ([NfsNetwork]).  The witnesses run on the network of SimNet.v. *)
From S2P Require Import Prelude MBuf WBufInfo NfsProt NfsSupp Nfs NfsServer Global WBuf WBufRep WBufFlush WBufGet WBufSeek WBufSpec WBufThm.
From S2P Require Import Xdr XdrSpec NfsXdr NfsXdrSpec NfsXdrThm.
From S2P Require Import Udp UdpSpec UdpRun Stubs Wire NfsNet UdpCalls UdpServer SimNet UdpThm.

Section Create.
Context {AUTH N : Type} `{LL : RpcLibLaws AUTH} `{!RpcSizes AUTH} `{RF : RequesterFinite N} `{NN : !NfsNetwork N AUTH}.
Abbreviation CLIENT := (CLIENT AUTH xdrproc).
Implicit Types (cl : CLIENT).

(** A new handle for the program on a network nothing is under way in. *)
Lemma clnt_acreate_settings (sys : System AUTH) h numasync cl : 1 <= numasync ->
  clnt_acreate sys h NFS_PROGRAM NFS_VERSION numasync = Some (Some cl) ->
  mcu_ok (cl_cu cl) /\ under_way (mcu_scu (cl_cu cl)) = [] /\ settings_ok cl.
Proof.
  intros Hn. unfold clnt_acreate. destruct h as [[ty addr]|]; [|done]. destruct (negb _); [done|].
  destruct (clntaudp_create _ _ _ _ _ _ _) as [[cl0|]|] eqn:E; cbn [mbind option_bind]; [|done|done]. intros Hc.
  pose proof E as E0. apply clntaudp_bufcreate_ok in E0 as (Ho & Hun & Hto); [|lia|done|done].
  simpl in Hc. injection Hc as <-. unfold clntaudp_create, clntaudp_bufcreate in E. destruct (sys_mem sys) as [[m1 m2] m3].
  destruct (_ >? MAXASYNC); [done|]. destruct m1; [|done]. cbn [negb] in E. destruct (negb _); [done|]. destruct (_ =? 0); [done|].
  rewrite (proj2 (Z.eqb_neq numasync 0)) in E by lia. set (xid := u32 _) in E. destruct (xdr_callhdr _ _ _ _) as [xd|] eqn:Ex; [|done].
  destruct (_ && _); [done|]. injection E as <-. simpl in *. split; [by destruct Ho|]. split; [done|]. constructor; simpl; try done.
  - unfold zlen. rewrite length_replicate. lia.
  - apply Forall_replicate. simpl. by exists xid, UDPMSGSIZE, xd.
Qed.

Definition started cl (n : N) : Rpc AUTH N := MkRpc cl (MkWorld n []) [] [] [].

Lemma started_ok cl n : mcu_ok (cl_cu cl) -> under_way (mcu_scu (cl_cu cl)) = [] -> settings_ok cl ->
  silent n -> server_ok (files n) (started cl n) [].
Proof.
  intros Ho Hun Hset [Hp Ht]. constructor; simpl; try done.
  - unfold young. rewrite Hun. constructor.
  - unfold outstanding. by rewrite Hun.
  - constructor.
  - constructor; simpl; try done.
    + by intros e ?%elem_of_nil.
    + intros q k Hq. by destruct (Hp q k).
    + intros q d k Hq. by destruct (Ht q d k).
    + by intros [|] ? ?.
  - by intros q ?%elem_of_nil.
  - by intros x a ?%elem_of_nil.
  - by intros a ?%elem_of_nil.
  - intros q (scu & args & Hin & Hu & _). apply (under_way_in _ _ Hin) in Hu. rewrite Hun in Hu. by apply elem_of_nil in Hu.
Qed.
End Create.

(** ** Sessions *)

(** A place that a session writes, or that was written before and not flushed. *)
Definition touched (bs : list wblock) (l : list (Z * list byte)) (o : Z) : Prop :=
  dirty bs o \/ Exists (fun w => w.1 <= o < w.1 + zlen w.2) l.
#[export] Instance touched_dec bs l o : Decision (touched bs l o).
Proof. unfold touched, dirty. apply _. Defined.

(** The file after a session on the file [c], with the blocks [bs] not flushed before. *)
Definition session_file (bs : list wblock) (l : list (Z * list byte)) (c : Z -> byte) : Z -> byte := session_spec (fview bs c) l.

Lemma fview_dirty bs : forall c c' o, Forall (fun b => zlen (bk_bytes b) = MBUFSIZE /\ ranges_ok 0 MBUFSIZE (bk_frags b)) bs ->
  dirty bs o -> fview bs c o = fview bs c' o.
Proof.
  induction bs as [|b bs IH]; intros c c' o Hok; [by intros ?%Exists_nil|]. apply Forall_cons in Hok as [[Hz Hr] Hok].
  intros [Hc|Hd]%Exists_cons; simpl; [|by apply IH]. apply fview_ext. unfold bview, rview. rewrite !decide_True by done.
  apply covered_range in Hc as Hlt; [|done]. destruct (lookup_lt_is_Some_2 (bk_bytes b) (Z.to_nat (o - bk_off b))) as [x ->]; [|done].
  unfold zlen in Hz. lia.
Qed.
Lemma spec_kept l : forall c o, ~ Exists (fun w => w.1 <= o < w.1 + zlen w.2) l -> session_spec c l o = c o.
Proof.
  induction l as [|[pos Buf] l IH]; intros c o Hn; simpl; [done|]. rewrite Exists_cons in Hn. simpl in Hn. rewrite IH by tauto.
  apply overlay_out. tauto.
Qed.
Lemma spec_touched l : forall c c' o, c o = c' o \/ Exists (fun w => w.1 <= o < w.1 + zlen w.2) l -> session_spec c l o = session_spec c' l o.
Proof.
  induction l as [|[pos Buf] l IH]; intros c c' o Hc; simpl; [by destruct Hc as [?|?%Exists_nil]|].
  apply IH. rewrite Exists_cons in Hc. simpl in Hc. destruct (decide (pos <= o < pos + zlen Buf)) as [Ho|Ho].
  - left. destruct (lookup_lt_is_Some_2 Buf (Z.to_nat (o - pos))) as [x Hx]; [unfold zlen in Ho; lia|]. by rewrite !(overlay_in _ _ _ o x) by (lia || done).
  - destruct Hc as [Hc|[?|?]]; [left; by apply overlay_ext_at|done|by right].
Qed.
Lemma session_file_kept bs l c o : ~ touched bs l o -> session_file bs l c o = c o.
Proof. intros Hn. unfold session_file. rewrite spec_kept by (intros ?; apply Hn; by right). apply fview_clean. intros ?. apply Hn. by left. Qed.
Lemma session_file_touched bs l c c' o : blocks_from 0 bs -> touched bs l o -> session_file bs l c o = session_file bs l c' o.
Proof.
  intros Hb [Hd|Hl]; apply spec_touched; [left|by right]. apply fview_dirty; [|done]. apply Forall_forall. intros b Hin.
  destruct (blocks_from_in _ _ _ Hb Hin) as [_ Hok]. split; apply Hok.
Qed.

(** ** Theorems *)

Section Theorems.
Context {AUTH N : Type} `{LL : RpcLibLaws AUTH} `{!RpcSizes AUTH} `{RF : RequesterFinite N} `{NN : !NfsNetwork N AUTH} `{Stack}.
Abbreviation CLIENT := (CLIENT AUTH xdrproc).
Abbreviation World := (World N).
Implicit Types (cl : CLIENT) (s : Rpc AUTH N).

(** The files behind the network. *)
Definition server_files s : Files := files (w_net (r_world s)).

(** What a session on the file [fh] has done in the end, [F0] the files before it:
    - the requests sent, each carried out once in the order they were sent, make the
      session of any files, and so do those reported as done;
    - no request is for a place that is not touched, and it is as it was;
    - a touched place has a byte that one of the requests sent has there;
    - it has the byte of the session if all requests for it have the same. *)
Record session_served (F0 : Files) (fh : nfs_fh) (bs : list wblock) (l : list (Z * list byte)) s : Prop := {
  ss_sent G o : replay G (r_sent s) fh o = session_file bs l (G fh) o;
  ss_done G o : replay G (r_done s) fh o = session_file bs l (G fh) o;
  ss_kept f o : f <> fh \/ ~ touched bs l o -> server_files s f o = F0 f o /\ forall a, a ∈ r_sent s -> ~ wrange a f o;
  ss_touched o : touched bs l o -> late (r_sent s) fh o (server_files s fh o);
  ss_agree o : (forall b b', late (r_sent s) fh o b -> late (r_sent s) fh o b' -> b = b') ->
    server_files s fh o = session_file bs l (F0 fh) o
}.

(** What the client knows tells of the server. *)
Lemma served_ok F0 fh bs l s : blocks_from 0 bs -> explains F0 s ->
  (forall G f o, f <> fh -> replay G (r_sent s) f o = G f o) ->
  (forall G o, replay G (r_sent s) fh o = session_file bs l (G fh) o) ->
  (forall G o, replay G (r_done s) fh o = session_file bs l (G fh) o) -> session_served F0 fh bs l s.
Proof.
  intros Hb [hist Hs] Hoth Hsent Hdone.
  assert (Hno : forall f o, f <> fh \/ ~ touched bs l o -> forall a, a ∈ r_sent s -> ~ wrange a f o).
  { intros f o Hf. apply replay_kept. intros G. destruct (decide (f = fh)) as [->|Hne]; [|by apply Hoth].
    rewrite Hsent. apply session_file_kept. by destruct Hf. }
  assert (Hkept : forall f o, f <> fh \/ ~ touched bs l o -> server_files s f o = F0 f o).
  { intros f o Hf. destruct (server_bytes F0 s hist f o Hs) as [?|(a & Ha & Hc)]; [done|].
    exfalso. apply (Hno f o Hf a Ha). by apply carries_range in Hc as [Hc _]. }
  assert (Htouched : forall o, touched bs l o -> late (r_sent s) fh o (server_files s fh o)).
  { intros o Ht. destruct (replay_changed (r_done s) fh o) as (a & Ha & Hr).
    - intros G G'. rewrite !Hdone. by apply session_file_touched.
    - by eapply server_done. }
  constructor; try done; [by split; [apply Hkept|apply Hno]|].
  intros o Hag. destruct (decide (touched bs l o)) as [Ht|Ht]; [|rewrite session_file_kept by done; apply Hkept; by right].
  apply Hag; [by apply Htouched|]. rewrite <-Hsent. destruct (Htouched o Ht) as (a & Ha & [Hr _]%carries_range).
  by apply (replay_covered F0 _ _ _ a).
Qed.

(** The theorem about the write cache (WBufThm.v) for what the client knows. *)
Lemma session_over_udp F0 g efh w bs hf mf F l : explains F0 (g_NFSClnt g) -> r_queue (g_NFSClnt g) = [] ->
  r_sent (g_NFSClnt g) = [] -> r_done (g_NFSClnt g) = [] ->
  efh_WBuf efh = Some w -> cache g w bs hf mf F -> env_ok g -> session_ok l ->
  exists r, run_session g efh l = Some r /\
    (forall g' efh', r = Some (g', efh') -> session_served F0 (efh_NFSFh efh) bs l (g_NFSClnt g')).
Proof.
  intros Hx Hq Hsent Hdone Hw Hca He Hl.
  assert (HS : forall G, exists r, run_session g efh l = Some r /\ forall g' efh', r = Some (g', efh') ->
    (explains F0 (g_NFSClnt g') /\ forall f o, f <> efh_NFSFh efh -> replay G (r_sent (g_NFSClnt g')) f o = G f o) /\
    forall o, replay G (r_sent (g_NFSClnt g')) (efh_NFSFh efh) o = session_file bs l (G (efh_NFSFh efh)) o).
  { intros G. destruct (run_session_ok (HS := udp_sent F0 G) l g efh w bs hf mf F Hw Hca He) as (r & Hr & Hok); [|done|].
    { split; [split; [done|intros b f o; rewrite Hq; by intros ?%elem_of_nil]|]. simpl. by rewrite Hq. }
    exists r. split; [done|]. intros g' efh' E. destruct (Hok g' efh' E) as (_ & [[Hx' _] _] & Ho & Hv). unfold others_same, seen in Ho, Hv.
    simpl in Ho, Hv. rewrite Hsent in Ho, Hv. done. }
  assert (HD : forall G, exists r, run_session g efh l = Some r /\ forall g' efh', r = Some (g', efh') ->
    forall o, replay G (r_done (g_NFSClnt g')) (efh_NFSFh efh) o = session_file bs l (G (efh_NFSFh efh)) o).
  { intros G. destruct (run_session_ok (HS := udp_done F0 G) l g efh w bs hf mf F Hw Hca He) as (r & Hr & Hok); [|done|].
    { split; [done|]. simpl. by rewrite Hq. }
    exists r. split; [done|]. intros g' efh' E. destruct (Hok g' efh' E) as (_ & _ & _ & Hv). unfold seen in Hv.
    simpl in Hv. rewrite Hdone in Hv. done. }
  destruct (HS F0) as (r & Hr & Hok). exists r. split; [done|]. intros g' efh' ->. apply served_ok; [apply Hca|by apply (Hok g' efh')|..].
  - intros G. destruct (HS G) as (r' & Hr' & Hok'). rewrite Hr in Hr'. injection Hr' as <-. by apply (Hok' g' efh').
  - intros G. destruct (HS G) as (r' & Hr' & Hok'). rewrite Hr in Hr'. injection Hr' as <-. by apply (Hok' g' efh').
  - intros G. destruct (HD G) as (r' & Hr' & Hok'). rewrite Hr in Hr'. injection Hr' as <-. by apply (Hok' g' efh').
Qed.

(** C3: From the creation of the client to the files of the server: a session of
    buffered writes - each inside one block of the file ([session_ok]) - and a flush
    over a network nothing is under way in at first.  A request may be lost, and be
    carried out at any later time, any number of times and behind later ones; replies
    may be lost, late, out of order and doubled, but none is heard that is to one of
    the requests before the last 2^15 - 2.  The session always comes to an end.  When
    no failure was reported ([session_served]), the requests that were sent, carried
    out once each in their order, are the session on a plain file, and so are those
    reported as done; the server's files are as they were wherever the session did
    not write, and wherever it did they have the byte of one of the requests sent for
    that place - the last one written there, if the requests for it agree. *)
Theorem write_session_over_udp (sys : System AUTH) host numasync cl (n : N) g efh w bs hf mf F l :
  1 <= numasync -> clnt_acreate sys host NFS_PROGRAM NFS_VERSION numasync = Some (Some cl) ->
  silent n -> g_NFSClnt g = started cl n ->
  efh_WBuf efh = Some w -> cache g w bs hf mf F -> env_ok g -> session_ok l ->
  exists r, run_session g efh l = Some r /\
    (forall g' efh', r = Some (g', efh') -> session_served (files n) (efh_NFSFh efh) bs l (g_NFSClnt g')).
Proof.
  intros Hn Hc Ht Hg Hw Hca He Hl. destruct (clnt_acreate_settings sys host numasync cl Hn Hc) as (Ho & Hun & Hset).
  eapply session_over_udp; try done; rewrite Hg; try done. exists []. by apply started_ok.
Qed.

Lemma late_other l f o b a x : carries a f o b -> late l f o x -> x = b \/ exists a', a' ∈ l /\ a' <> a /\ carries a' f o x.
Proof.
  intros Hc (a' & Ha & Hc'). destruct (decide (x = b)) as [?|Hne]; [by left|right]. exists a'. split; [done|]. split; [|done].
  intros ->. destruct Hc as (_ & _ & Hb), Hc' as (_ & _ & Hb'). congruence.
Qed.

(** C15: A reply is taken for nothing but its own request to write, whatever was lost,
    repeated, delayed or overtaken: waiting comes to an end, and only requests sent
    before, carried out late, change files meanwhile.  When it reports success one of
    the requests under way is taken off, and each of its bytes is in place, unless
    another request that was sent has its own byte there. *)
Theorem nfsproc_wait_write_2_in_place F0 s hist : server_ok F0 s hist ->
  exists r cl' w', nfsproc_wait_write_2 turns_wait (r_clnt s) (r_world s) = Some (r, cl', w') /\
    (forall f o, files (w_net w') f o = server_files s f o \/ late (r_sent s) f o (files (w_net w') f o)) /\
    (forall attr, r = Some (NfsOk attr) -> exists x a, (x, a) ∈ r_queue s /\ outstanding (cl_cu cl') = delete x (qmap (r_queue s)) /\
       forall f o b, carries a f o b -> files (w_net w') f o = b \/
         exists a', a' ∈ r_sent s /\ a' <> a /\ carries a' f o (files (w_net w') f o)).
Proof.
  intros Hs. destruct (server_wait F0 s hist Hs) as (r & cl' & w' & new & E & _ & HF & Hok). exists r, cl', w'. split; [done|]. split; [done|].
  intros attr Ha. destruct (Hok attr Ha) as (x & a & Hxa & Hout & Hl). exists x, a. split; [done|]. split; [done|].
  intros f o b Hc. apply (late_other _ _ _ _ a); [done|]. apply Hl. by apply carries_range in Hc as [Hc _].
Qed.

(** C16: A read comes to an end, gives not more than was asked for, and each byte it
    gives was the file's when it was called, or a request to write that was sent
    before has put it there meanwhile; only such late requests change files. *)
Theorem nfsproc_read_buf_reads F0 s hist a : server_ok F0 s hist -> r_queue s = [] -> readargs_ok a ->
  exists r cl' w', nfsproc_read_buf turns_user turns_call a (r_clnt s) (r_world s) = Some (r, cl', w') /\
    (forall f o, files (w_net w') f o = server_files s f o \/ late (r_sent s) f o (files (w_net w') f o)) /\
    (forall res, r = Some (NfsOk res) -> zlen (ro_data res) <= ra_count a /\
       forall i b, ro_data res !! i = Some b -> let o := ra_offset a + Z.of_nat i in
         b = server_files s (ra_file a) o \/ late (r_sent s) (ra_file a) o b).
Proof. intros Hs Hq Ha. destruct (server_read F0 s hist a Hs Hq Ha) as (r & cl' & w' & new & E & _ & Hok). by exists r, cl', w'. Qed.

(** C17: A call to write comes to an end.  Whatever it reports, each byte of a file is
    as it was, or the call's own, or that of an earlier request carried out late; when
    it reports success each byte is in place, unless an earlier request that was
    carried out late has its own there. *)
Theorem nfsproc_write_2_in_place F0 s hist a : server_ok F0 s hist -> r_queue s = [] -> writeargs_ok a ->
  exists r cl' w', nfsproc_write_2 turns_user turns_call a (r_clnt s) (r_world s) = Some (r, cl', w') /\
    (forall f o, files (w_net w') f o = server_files s f o \/ carries a f o (files (w_net w') f o) \/
       late (r_sent s) f o (files (w_net w') f o)) /\
    (forall attr, r = Some (NfsOk attr) -> forall f o b, carries a f o b ->
       files (w_net w') f o = b \/ late (r_sent s) f o (files (w_net w') f o)).
Proof.
  intros Hs Hq Ha. destruct (server_write F0 s hist a Hs Hq Ha) as (r & cl' & w' & new & E & _ & HF & Hok). exists r, cl', w'. split; [done|]. split.
  - intros f o. destruct (HF f o) as [?|[?|?]%late_cons]; [by left|right; by left|right; by right].
  - intros attr E' f o b Hc. pose proof (carries_range _ _ _ _ Hc) as [Hr _].
    destruct (late_cons _ _ _ _ _ (Hok attr E' f o Hr)) as [(_ & _ & Hb)|?]; [left|by right].
    destruct Hc as (_ & _ & Hb'). congruence.
Qed.
End Theorems.

(** ** Concrete runs *)

#[local] Instance ex_stack : Stack := {| stack_junk := 0 |}.

Definition ex_acreate : option (option (CLIENT unit xdrproc)) :=
  clnt_acreate ex_sys (Some (AF_INET, 0x7f000001)) NFS_PROGRAM NFS_VERSION 3.
Definition ex_handle : CLIENT unit xdrproc :=
  match ex_acreate with
  | Some (Some cl) => cl
  | _ => MkCLIENT tt (MkMcu 0 0 0 [] false (TV 1 0) (TV 1 0) (MkErr 0 (0, 0)) None 0 0 (0, 0)) 0 0
  end.
Lemma ex_acreate_eq : ex_acreate = Some (Some ex_handle).
Proof. reflexivity. Qed.

(** The first request is not answered and is carried out again behind the second; later
    a reply is lost, and one comes twice and late. *)
Definition ex_simnet : simnet :=
  SimNet (fun _ _ => x00) 0 [] [] [Fate (Some 0%nat) 1; Answered 2; Unanswered; Answered 1] [Next 0; Happen 0; Next 1; Next 1; Next 1; Happen 0] [].
Lemma quiet_silent n : sn_transit n = [] -> sn_kept n = [] -> silent (AUTH := unit) n.
Proof.
  intros Ht Hk. split; [intros q k|intros q d k [Hin _]].
  - unfold pending. simpl. unfold sim_pending. rewrite Hk. by intros ?%elem_of_nil.
  - rewrite Ht in Hin. by apply elem_of_nil in Hin.
Qed.

Definition ex_udp_start : Global_T (Rpc unit simnet) :=
  Global mb16 0 0 None ∅ (NFSGlobal 1 1 8192 8192 8192) (2 * MBUFSIZE) (started ex_handle ex_simnet).
Definition ex_udp : Global_T (Rpc unit simnet) :=
  match wc_AllocWBufs rs_ok ex_udp_start 16 with Some (_, g) => g | None => ex_udp_start end.

Definition ex_fh : nfs_fh := replicate 32 x01.
Definition ex_efh : EFH := Efh 1 0 0 1005 ex_fh (Some wbc4) None 0.

Lemma ex_udp_ok : exists hf mf, cache ex_udp wbc4 [] hf mf no_frame.
Proof.
  destruct (mb_AllocMoreMBufs_ok rs_ok zero_buf no_mbufs [] 16 no_mbufs_ok rs_ok_fresh)
    as (mb & mf & Hmb & _ & Hmok & _); [reflexivity|lia|intros k _; by eexists|].
  assert (E1 : mb16 = mb).
  { unfold mb16, mb_AllocMBufs. change (MBPool 0 0 None (mb_mem no_mbufs)) with no_mbufs. by rewrite Hmb. }
  destruct (wc_AllocWBufs_ok rs_ok ex_udp_start (mf ++ []) 16)
    as (g & hf & Hg & Hl & Hh & _); [done| |apply rs_ok_fresh_hdrs|lia|intros k _; by eexists|].
  { unfold ex_udp_start. gsimpl. by rewrite E1. }
  exists hf, (mf ++ []). unfold ex_udp. rewrite Hg. constructor; [done| |done|done]. constructor; done.
Qed.

(** Six requests and five replies; the last write of byte 102 is on
    the server. *)
Lemma write_session_over_udp_witness :
  exists g' efh', run_session ex_udp ex_efh session3 = Some (Some (g', efh')) /\
    length (w_log (r_world (g_NFSClnt g'))) = 11%nat /\
    session_served (fun _ _ => x00) ex_fh [] session3 (g_NFSClnt g') /\
    server_files (g_NFSClnt g') ex_fh 102 = x02 /\ session_file [] session3 (fun _ => x00) 102 = x02.
Proof.
  destruct ex_udp_ok as (hf & mf & Hca).
  destruct (write_session_over_udp ex_sys (Some (AF_INET, 0x7f000001)) 3 ex_handle ex_simnet ex_udp ex_efh wbc4 [] hf mf no_frame session3)
    as (r & Hr & Hok).
  { lia. }
  { exact ex_acreate_eq. }
  { by apply quiet_silent. }
  { reflexivity. }
  { reflexivity. }
  { exact Hca. }
  { vm_compute. discriminate. }
  { repeat constructor; vm_compute; discriminate. }
  assert (E : match run_session ex_udp ex_efh session3 with
    Some (Some (g, _)) => Some (length (w_log (r_world (g_NFSClnt g))), server_files (g_NFSClnt g) ex_fh 102) | _ => None end
    = Some (11%nat, x02)) by (vm_compute; reflexivity).
  rewrite Hr in E. destruct r as [[g' efh']|]; [|discriminate]. injection E as E1 E2.
  exists g', efh'. split; [exact Hr|]. split; [exact E1|]. split; [apply (Hok g' efh' eq_refl)|]. split; [exact E2|reflexivity].
Defined.

Definition ex_s0 (n : simnet) : Rpc unit simnet := started ex_handle n.
Definition ex_write (o : Z) (data : list byte) : writeargs := WriteArgs ex_fh 0 o 0 data.
Lemma ex_s0_ok n : sn_transit n = [] -> sn_kept n = [] -> server_ok (sn_files n) (ex_s0 n) [].
Proof.
  intros Hn Hk. destruct (clnt_acreate_settings ex_sys (Some (AF_INET, 0x7f000001)) 3 ex_handle) as (Ho & Hun & Hset); [lia|exact ex_acreate_eq|].
  exact (started_ok ex_handle n Ho Hun Hset (quiet_silent n Hn Hk)).
Qed.

(** Of two writes to the same place the first is carried out again behind the second:
    it is there, although the second is reported as done. *)
Definition ex_latenet : simnet := SimNet (fun _ _ => x00) 0 [] [] [Fate (Some 1%nat) 1; Answered 1; Lost] [Next 0; Happen 0; Next 1] [].
Definition ex_w1 : Rpc unit simnet := (Nfs.nfsproc_write_2 (ex_write 100 [x05; x06]) (ex_s0 ex_latenet)).2.
Lemma ex_w1_ok : exists hist, server_ok (fun _ _ => x00) ex_w1 hist.
Proof.
  assert (Hs0 : explains (fun _ _ => x00) (ex_s0 ex_latenet)) by (exists []; by apply (ex_s0_ok ex_latenet)).
  unfold ex_w1. destruct (Nfs.nfsproc_write_2 _ _) as [r s] eqn:E. by apply (udp_write (fun _ _ => x00) _ _ _ _ E Hs0).
Qed.
Lemma nfsproc_write_2_in_place_witness : exists attr cl' w',
  nfsproc_write_2 turns_user turns_call (ex_write 101 [x07; x08]) (r_clnt ex_w1) (r_world ex_w1) = Some (Some (NfsOk attr), cl', w') /\
  (fun o => files (AUTH := unit) (w_net w') ex_fh o) <$> [100; 101; 102] = [x05; x06; x08] /\ late (r_sent ex_w1) ex_fh 101 x06.
Proof.
  destruct ex_w1_ok as [hist Hs].
  destruct (nfsproc_write_2_in_place (fun _ _ => x00) ex_w1 hist (ex_write 101 [x07; x08]) Hs) as (r & cl' & w' & Hr & _ & Hok).
  { vm_compute. reflexivity. }
  { repeat split; vm_compute; congruence. }
  assert (E : (fun x => (match x.1.1 with Some (NfsOk _) => true | _ => false end, (fun o => files (AUTH := unit) (w_net x.2) ex_fh o) <$> [100; 101; 102])) <$>
    nfsproc_write_2 turns_user turns_call (ex_write 101 [x07; x08]) (r_clnt ex_w1) (r_world ex_w1) = Some (true, [x05; x06; x08]))
    by (vm_compute; reflexivity).
  rewrite Hr in E. simpl in E. destruct r as [[attr|]|]; [|discriminate E|discriminate E].
  injection E as E1 E2 E3. exists attr, cl', w'. split; [exact Hr|]. split; [simpl; by rewrite E1, E2, E3|].
  destruct (Hok attr eq_refl ex_fh 101 x07) as [F|F]; [by split_and!|..]; change (files (w_net w')) with (sn_files (w_net w')) in F; rewrite E2 in F; [discriminate F|exact F].
Defined.

(** Reading what is there: the first reply is lost. *)
Definition ex_readnet : simnet :=
  SimNet (fun _ o => if o =? 1 then x07 else x00) 3 [] [] [Unanswered; Answered 2] [Late; Next 1] [].
Lemma nfsproc_read_buf_reads_witness : exists res cl' w',
  nfsproc_read_buf turns_user turns_call (ReadArgs ex_fh 0 5 0) (r_clnt (ex_s0 ex_readnet)) (r_world (ex_s0 ex_readnet)) = Some (Some (NfsOk res), cl', w') /\
  ro_data res = [x00; x07; x00] /\ zlen (ro_data res) <= 5.
Proof.
  destruct (nfsproc_read_buf_reads (sn_files ex_readnet) (ex_s0 ex_readnet) [] (ReadArgs ex_fh 0 5 0)) as (r & cl' & w' & Hr & _ & Hok).
  { by apply ex_s0_ok. }
  { reflexivity. }
  { repeat split; vm_compute; congruence. }
  assert (E : (fun x => match x.1.1 with Some (NfsOk res) => Some (ro_data res) | _ => None end) <$>
    nfsproc_read_buf turns_user turns_call (ReadArgs ex_fh 0 5 0) (r_clnt (ex_s0 ex_readnet)) (r_world (ex_s0 ex_readnet)) = Some (Some [x00; x07; x00]))
    by (vm_compute; reflexivity).
 rewrite Hr in E. simpl in E. destruct r as [[res|]|]; [|discriminate E|discriminate E].
  injection E as E. exists res, cl', w'. split; [exact Hr|]. split; [exact E|]. apply (Hok res eq_refl).
Defined.

(** Two requests to write are sent one behind the other; the second is carried out
    first, and the reply to it comes first and twice. *)
Definition ex_asyncnet : simnet := SimNet (fun _ _ => x00) 0 [] [] [Delayed; Answered 2] [Next 0; Happen 0] [].
Definition ex_s1 : Rpc unit simnet := (Nfs.nfsproc_send_writesb_2 (ex_write 100 (replicate 4 x05)) (ex_s0 ex_asyncnet)).2.
Definition ex_s2 : Rpc unit simnet := (Nfs.nfsproc_send_writesb_2 (ex_write 200 (replicate 4 x06)) ex_s1).2.
Lemma ex_s2_ok : exists hist, server_ok (fun _ _ => x00) ex_s2 hist.
Proof.
  assert (Hs0 : explains (fun _ _ => x00) (ex_s0 ex_asyncnet)) by (exists []; by apply (ex_s0_ok ex_asyncnet)).
  assert (Hs1 : explains (fun _ _ => x00) ex_s1).
  { unfold ex_s1. destruct (Nfs.nfsproc_send_writesb_2 _ _) as [r s] eqn:E. by apply (udp_send _ _ _ _ _ E Hs0). }
  unfold ex_s2. destruct (Nfs.nfsproc_send_writesb_2 (ex_write 200 _) ex_s1) as [r s] eqn:E. by apply (udp_send _ _ _ _ _ E Hs1).
Qed.
Lemma nfsproc_wait_write_2_in_place_witness : exists attr cl' w',
  nfsproc_wait_write_2 turns_wait (r_clnt ex_s2) (r_world ex_s2) = Some (Some (NfsOk attr), cl', w') /\
  outstanding (cl_cu cl') !! 0x11250 = Some (clnt_res, 0) /\ files (AUTH := unit) (w_net w') ex_fh 201 = x06.
Proof.
  destruct ex_s2_ok as [hist Hs]. destruct (nfsproc_wait_write_2_in_place _ ex_s2 hist Hs) as (r & cl' & w' & Hr & _ & Hok).
  assert (E : (fun x => (match x.1.1 with Some (NfsOk _) => true | _ => false end, outstanding (cl_cu x.1.2) !! 0x11250, files (AUTH := unit) (w_net x.2) ex_fh 201)) <$>
    nfsproc_wait_write_2 turns_wait (r_clnt ex_s2) (r_world ex_s2) = Some (true, Some (clnt_res, 0), x06)) by (vm_compute; reflexivity).
  rewrite Hr in E. simpl in E. destruct r as [[attr|]|]; [|discriminate E|discriminate E]. injection E as E1 E2.
  exists attr, cl', w'. split; [exact Hr|]. split; [exact E1|]. exact E2.
Defined.
