(* ===== verification/Start.v ===== *)
(** * Start-up and exit (nfs_handler.c, timer.c, simplerexx.c)

    main() without its loop: G_Init, G_Mount and what they call, and what
    takes everything down again, on every path.  The client of the protocol
    is the one of Udp.v. *)
From S2P Require Import Prelude MBuf WBufInfo NfsProt NfsSupp Nfs Global WBuf RBuf FileHandle Xdr NfsXdr FtHash DCache Fn.
From S2P Require Import NfsLookup Dirs HState Walk Cred Volume IoCtl Actions Udp UdpRun Stubs NfsNet UdpCalls UdpServer.

(** ** Start-up and exit: what is held (nfs_handler.c)

    The parts of main() before and after the loop get and give back memory,
    ports and other objects.  They are written in the monad [B], whose state
    is a [Ledger]: which requests have been answered, how many objects of
    every kind are held, and which of the pointers to them are set.  Giving
    back what is not held, or reading through such a pointer, is [None]. *)

(** What the handler gets for itself, by the variable that points to it; the
    last are held without one. *)
Inductive resource :=
  | R_Host | R_RootDir | R_VolumeName | R_DeviceName | R_UserName
  | R_Utility | R_Dev | R_Port | R_AttrCache | R_DirCache
  | R_TimerPkt | R_TimerReq | R_TimerDevice | R_TimerIO
  | R_ARexx | R_RexxLib | R_RexxPort
  | R_MntClnt | R_MntAuth | R_NFSClnt | R_UserAuth
  | R_Args | R_Mount | R_DosList | R_Volume.
#[export] Instance resource_eq : EqDecision resource.
Proof. solve_decision. Defined.

Record Ledger := MkLedger {
  l_asked : nat;
  l_held : resource -> nat;
  l_ptr : resource -> bool
}.
Definition no_resources : Ledger := MkLedger 0 (fun _ => 0%nat) (fun _ => false).

Definition upd {A} (f : resource -> A) (r : resource) (x : A) : resource -> A :=
  fun r' => if decide (r' = r) then x else f r'.

Definition B (A : Type) : Type := Ledger -> option (A * Ledger).
#[export] Instance B_ret : MRet B := fun A x l => Some (x, l).
#[export] Instance B_bind : MBind B := fun A C f m l => '(x, l) ← m l; f x l.

Section Ledger.
(** How the system answers the requests, one after the other. *)
Context (offers : nat -> bool).

(** A question to the system. *)
Definition ask : B bool := fun l => Some (offers (l_asked l), MkLedger (S (l_asked l)) (l_held l) (l_ptr l)).
Definition hold (r : resource) : B unit := fun l => Some (tt, MkLedger (l_asked l) (upd (l_held l) r (S (l_held l r))) (l_ptr l)).
Definition set_ptr (r : resource) (on : bool) : B unit := fun l => Some (tt, MkLedger (l_asked l) (l_held l) (upd (l_ptr l) r on)).
Definition ptr (r : resource) : B bool := fun l => Some (l_ptr l r, l).
(** An object that may or may not be had, and its pointer, or NULL. *)
Definition try (r : resource) : B bool := ok ← ask; _ ← (if (ok : bool) then hold r else mret tt); mret ok.
Definition get (r : resource) : B bool := ok ← try r; _ ← set_ptr r ok; mret ok.
Definition give_back (r : resource) : B unit := fun l =>
  match l_held l r with
  | O => None
  | S n => Some (tt, MkLedger (l_asked l) (upd (l_held l) r n) (l_ptr l))
  end.
(** An object in use: [None] if there is none. *)
Definition use (r : resource) : B unit := fun l => match l_held l r with O => None | S _ => Some (tt, l) end.
(** [if(p) free(p)] *)
Definition free_if (r : resource) : B unit := p ← ptr r; if (p : bool) then give_back r else mret tt.
(** ASSERT *)
Definition assert (b : bool) : B unit := fun l => if b then Some (tt, l) else None.
Definition of_opt {A} (o : option A) : B A := fun l => (x ← o; Some (x, l)).
End Ledger.

(** ** Arguments (nfs_handler.c: ParseArgs)

    What the command line makes of the settings of the handler.  [Args] is
    what ReadArgs stores; strings are without their NUL. *)

Definition NUMBUFFERS_DEFAULT : Z := 32.
Definition RPC_TIMEOUT_DEFAULT : Z := 25.
Definition MAX_AMIGAFILENAMELEN : Z := 30.
Definition underscore : byte := x5f.

(** struct Args; the numbers are ULONGs. *)
Record Args := MkArgs {
  RemoteDevice : list byte;
  LocalDevice : list byte;
  MntUser : option (list byte);
  User : option (list byte);
  UMask : option Z;
  MaxReadSize : option Z;
  MaxReadDirSize : option Z;
  MaxWriteSize : option Z;
  Buffers : option Z;
  AttrCacheTimeout : option Z;
  DirCacheTimeout : option Z;
  RPCTimeout : option Z;
  NoTimeoutReq : bool;
  SlowMedium : bool;
  ASyncRPC : bool;
  LongFileNames : bool
}.

(** The members of Global_T that are set. *)
Record Settings := MkSettings {
  s_Host : list byte;
  s_RootDir : list byte;
  s_VolumeName : list byte;
  s_DeviceName : list byte;
  s_Flags : Z;
  s_MaxFileNameLen : Z;
  s_NFSGlobal : NFSGlobal_T;
  s_WriteBufferLimit : Z;
  s_NumBuffers : Z;
  s_AttrCacheTimeout : Z;
  s_DirCacheTimeout : Z;
  s_RPCTimeout : Z;
  s_Creds : CRED;
  s_MntUID : Z;
  s_MntGID : Z
}.

(** The offset of the first [c]. *)
Fixpoint strchr (s : list byte) (c : byte) : option Z :=
  match s with
  | [] => None
  | b :: s => if bool_decide (b = c) then Some 0 else (Z.add 1) <$> strchr s c
  end.

(** A colon at the end is cut off, others are replaced. *)
Fixpoint no_colons (s : list byte) : list byte :=
  match s with
  | [] => []
  | b :: s =>
      if bool_decide (b = colon) then match s with [] => [] | _ => underscore :: no_colons s end
      else b :: no_colons s
  end.
Definition no_slashes (s : list byte) : list byte := (fun b => if bool_decide (b = slash) then underscore else b) <$> s.
Definition volume_name (s : list byte) : list byte :=
  let s := no_slashes (no_colons s) in if zlen s >? 250 then take 250 s else s.

(** The digits of the number are octal digits. *)
Definition umask_of (umask : Z) : Z :=
  Z.land (umask / 100 mod 10) 7 * 64 + Z.land (umask / 10 mod 10) 7 * 8 + Z.land (umask mod 10) 7.

Definition size_arg (i : option Z) : Z := match i with Some i => clamp 0x100 NFS_MAXDATA i | None => NFS_MAXDATA end.

(** A CRED that main() has cleared. *)
Definition no_cred : CRED := MkCRED 0 None 0 0 (replicate (Z.to_nat NGROUPS) 0) 0 0 None None None.

Section ParseArgs.
Context (offers : nat -> bool) (ug : UserGroup).

(** A copy of [l] bytes, and its pointer. *)
Definition dup (r : resource) (s : list byte) (l : Z) : B (option (list byte)) :=
  ok ← get offers r; of_opt (StrNDup ok s l).

(** The numbers, within their bounds, beside the names and the credentials. *)
Definition args_settings (a : Args) (Host RootDir VolumeName DeviceName : list byte) (Flags NumRPCs : Z)
  (cr : CRED) (uid gid : Z) : Settings :=
  MkSettings Host RootDir VolumeName DeviceName Flags
    (if LongFileNames a then MAX_LONGAMIGAFILENAMELEN else MAX_AMIGAFILENAMELEN)
    (NFSGlobal NumRPCs NumRPCs (size_arg (MaxReadSize a)) (size_arg (MaxReadDirSize a)) (size_arg (MaxWriteSize a)))
    (2 * 8192) (default NUMBUFFERS_DEFAULT (Buffers a))
    (match AttrCacheTimeout a with Some t => clamp ATTR_CACHE_TIMEOUT_MIN ATTR_CACHE_TIMEOUT_MAX t | None => ATTR_CACHE_TIMEOUT_DEFAULT end)
    (match DirCacheTimeout a with Some t => clamp DIR_CACHE_TIMEOUT_MIN DIR_CACHE_TIMEOUT_MAX t | None => DIR_CACHE_TIMEOUT_DEFAULT end)
    (match RPCTimeout a with Some t => clamp RPC_TIMEOUT_MIN RPC_TIMEOUT_MAX t | None => RPC_TIMEOUT_DEFAULT end)
    (match UMask a with Some m => cr_SetUMask cr (umask_of m) | None => cr end)
    (match MntUser a with Some _ => UID2nfsuid uid | None => 0 end)
    (match MntUser a with Some _ => GID2nfsgid gid | None => 0 end).

(** [args] is [None] if ReadArgs fails; [hostname_ok]: gethostname succeeds.
    [None] is the result 0. *)
Definition ParseArgs (args : option Args) (hostname_ok : bool) : B (option Settings) :=
  match args with
  | None => mret None
  | Some a =>
      _ ← hold R_Args;
      let stop : B (option Settings) := _ ← give_back R_Args; mret None in
      let Flags := if SlowMedium a then GF_SLOW_MEDIUM else 0 in
      let Flags := if NoTimeoutReq a then Flags else Z.lor Flags GF_USE_TIMEOUT_REQ in
      let NumRPCs := if ASyncRPC a then 2 else 1 in
      let Flags := if ASyncRPC a then Z.lor Flags GF_ASYNC_RPC else Flags in
      match strchr (RemoteDevice a) colon with
      | None => stop
      | Some s =>
          if (s =? 0) || (s + 1 =? zlen (RemoteDevice a)) then stop
          else
          Host ← dup R_Host (RemoteDevice a) s;
          let dir := drop (Z.to_nat (s + 1)) (RemoteDevice a) in
          RootDir ← dup R_RootDir dir (zlen dir);
          VolumeName ← dup R_VolumeName (LocalDevice a) (zlen (LocalDevice a));
          let l := default (zlen (LocalDevice a)) (strchr (LocalDevice a) colon) in
          DeviceName ← (if l =? 0 then mret None else dup R_DeviceName (LocalDevice a) l);
          let l := match DeviceName with
                   | Some d => if bool_decide (is_Some (strchr d slash)) then 0 else l
                   | None => l
                   end in
          '(Success, cr) ← (match User a with
                            | None => mret (true, no_cred)
                            | Some user =>
                                ok ← ask offers;
                                let '(r, cr) := cr_SetUser ug ok no_cred user in
                                _ ← (if (r : bool) then _ ← hold R_UserName; set_ptr R_UserName true else mret tt);
                                mret (r, cr)
                            end);
          if negb Success then stop
          else
          match Host, RootDir, VolumeName, DeviceName with
          | Some Host, Some RootDir, Some VolumeName, Some DeviceName =>
              if (l =? 0) || negb hostname_ok then stop
              else
              match match MntUser a with Some name => ug_passwd ug name | None => Some (0, 0) end with
              | None => stop
              | Some (uid, gid) =>
                  _ ← give_back R_Args;
                  mret (Some (args_settings a Host RootDir (volume_name VolumeName) DeviceName Flags NumRPCs cr uid gid))
              end
          | _, _, _, _ => stop
          end
      end
  end.
End ParseArgs.

(** timer.h *)
Definition STF_TIMER_USED : Z := 1.
Definition STF_DEVICE_OPEN : Z := 2.

(** What G_Init has made besides the objects of the ledger; [k_Flags] is
    st_Flags. *)
Record Kept := MkKept {
  k_Attr : option AttrCache;
  k_Dir : option DirCache;
  k_g : Global_T unit;
  k_Flags : Z
}.

Definition no_fattr : fattr := FAttr 0 0 0 0 0 0 0 0 0 0 0 (NfsTime 0 0) (NfsTime 0 0) (NfsTime 0 0).
(** Global_T as ParseArgs leaves it; [dev] is the address of the volume node. *)
Definition start_vol (s : Settings) (dev : addr) : Vol :=
  MkVol (MkMounted [] no_fattr (s_MaxFileNameLen s) 0 (s_Host s) (s_RootDir s) dev) (s_VolumeName s) [] (s_Flags s) 0
    (s_NumBuffers s) (s_AttrCacheTimeout s) 0 (s_DirCacheTimeout s) 0 (s_RPCTimeout s) (s_Creds s) false false.
Definition start_global (s : Settings) : Global_T unit :=
  Global (MBPool 0 0 None ∅) 0 0 None ∅ (s_NFSGlobal s) (s_WriteBufferLimit s) tt.

(** What the system and its libraries answer: the ports and nodes by
    [offers], memory for buffers by [rs_mbufs] and [rs_wbufs] (the contents
    are [junk]), the user database and the host of the server by name; [mnt]
    is the reply of the mount daemon, [task] the handler's own. *)
Record Machine := MkMachine {
  offers : nat -> bool;
  rs_mbufs : nat -> option addr;
  rs_wbufs : nat -> option addr;
  junk : list byte;
  dev_node : addr;
  ug : UserGroup;
  args : option Args;
  hostname_ok : bool;
  stacksize : Z;
  task : addr;
  rpc_sys : System AUTH;
  rpc_host : list byte -> option (Z * Z);
  mnt : list byte -> option (Z * nfs_fh)
}.

Section Start.
Context (m : Machine).
Abbreviation ask := (ask (offers m)).
Abbreviation try := (try (offers m)).
Abbreviation get := (get (offers m)).

(** ** timer.c *)

(** The request is on its way. *)
Definition ti_StartTimer (flags : Z) : B Z := _ ← hold R_TimerIO; mret (Z.lor flags STF_TIMER_USED).

(** An I/O request that is given back while it is on its way is [None]. *)
Definition not_pending : B unit := fun l => match l_held l R_TimerIO with O => Some (tt, l) | _ => None end.
Definition ti_Cleanup (flags : Z) : B Z :=
  Pkt ← ptr R_TimerPkt;
  Req ← ptr R_TimerReq;
  _ ← (if Pkt && Req
       then _ ← (if negb (Z.land flags STF_TIMER_USED =? 0) then give_back R_TimerIO else mret tt);
       (if negb (Z.land flags STF_DEVICE_OPEN =? 0) then give_back R_TimerDevice else mret tt)
       else mret tt);
  _ ← (if (Pkt : bool) then give_back R_TimerPkt else mret tt);
  _ ← (if (Req : bool) then _ ← not_pending; give_back R_TimerReq else mret tt);
  _ ← set_ptr R_TimerPkt false;
  _ ← set_ptr R_TimerReq false;
  mret 0.

Definition ti_Init : B (bool * Z) :=
  Pkt ← get R_TimerPkt;
  Req ← get R_TimerReq;
  Open ← (if Pkt && Req then try R_TimerDevice else mret false);
  if (Open : bool)
  then flags ← ti_StartTimer STF_DEVICE_OPEN; mret (true, flags)
  else flags ← ti_Cleanup 0; mret (false, flags).

(** ** simplerexx.c *)

(** The messages still at the port are replied to. *)
Definition free_context : B unit :=
  _ ← free_if R_RexxPort;
  _ ← free_if R_RexxLib;
  give_back R_ARexx.
Definition FreeARexx : B unit :=
  c ← ptr R_ARexx;
  if (c : bool) then free_context else mret tt.
Definition InitARexx : B bool :=
  c ← try R_ARexx;
  if (c : bool)
  then lib ← get R_RexxLib;
  port ← (if (lib : bool) then get R_RexxPort else mret false);
  if lib && port
  then _ ← set_ptr R_ARexx true; mret true
  else _ ← free_context; _ ← set_ptr R_RexxLib false; _ ← set_ptr R_ARexx false; mret false
  else _ ← set_ptr R_ARexx false; mret false.

(** ** G_Init *)

(** The volume with the numbers of entries of the caches, or NULL. *)
Definition G_Init (s : Settings) : B (option Vol * Kept) :=
  let v := start_vol s (dev_node m) in
  let k := MkKept None None (start_global s) 0 in
  '(MBufs, Attrs, Dirs) ← of_opt (DistributeBuffers v (s32 (s_NumBuffers s)));
  ok ← get R_Utility;
  if negb ok then mret (None, k) else
  ok ← get R_Dev;
  if negb ok then mret (None, k) else
  ok ← get R_Port;
  if negb ok then mret (None, k) else
  mem1 ← ask; mem2 ← ask;
  match attrs_Init mem1 mem2 Attrs (s_AttrCacheTimeout s) with
  | None => mret (None, k)
  | Some ca =>
      _ ← hold R_AttrCache; _ ← set_ptr R_AttrCache true;
      let k := MkKept (Some ca) None (k_g k) 0 in
      mem1 ← ask; mem2 ← ask;
      match dc_Init mem1 mem2 Dirs (s_DirCacheTimeout s) with
      | None => mret (None, k)
      | Some cd =>
          _ ← hold R_DirCache; _ ← set_ptr R_DirCache true;
          let k := MkKept (Some ca) (Some cd) (k_g k) 0 in
          '(ok, flags) ← ti_Init;
          let k := MkKept (Some ca) (Some cd) (k_g k) flags in
          if negb ok then mret (None, k) else
          ok ← InitARexx;
          if negb ok then mret (None, k) else
          '(_, mb) ← of_opt (mb_AllocMBufs (rs_mbufs m) (junk m) (g_MBufs (k_g k)) MBufs);
          let mt := v_Mnt v in
          let v := MkVol (MkMounted (m_MntFh mt) (m_MntAttr mt) (m_MaxFileNameLen mt) (4 * 8192) (m_Host mt) (m_RootDir mt) (m_Dev mt))
            (v_VolumeName v) (v_VolumeName v) (v_Flags v) (v_LockKey v) (v_NumBuffers v) (v_AttrCacheTimeout v) Attrs
            (v_DirCacheTimeout v) Dirs (v_RPCTimeout v) (v_Creds v) (v_Running v) (v_DoReply v) in
          '(_, g) ← of_opt (wc_AllocWBufs (rs_wbufs m) (set_MBufs mb (k_g k)) 16);
          mret (Some v, MkKept (Some ca) (Some cd) g flags)
      end
  end.

(** ** G_CleanUp *)

(** [FH] and [DH]: the open files and directory handles. *)
Definition clean_attrs (k : Kept) : B unit := c ← of_opt (k_Attr k); _ ← of_opt (attrs_Cleanup c); mret tt.
Definition clean_dirs (k : Kept) : B unit := c ← of_opt (k_Dir k); _ ← of_opt (dc_Cleanup c); mret tt.
Definition G_CleanUp (FH : list EFH) (DH : list (addr * EDH)) (k : Kept) : B unit :=
  _ ← assert (bool_decide (FH = []));
  let DH := dir_DeleteAll DH in
  _ ← assert (bool_decide (DH = []));
  _ ← of_opt (mb_FreeMBufs (g_MBufs (k_g k)));
  _ ← of_opt (wc_FreeWBufs (k_g k));
  _ ← FreeARexx;
  p ← ptr R_AttrCache;
  _ ← (if (p : bool) then _ ← clean_attrs k; give_back R_AttrCache else mret tt);
  p ← ptr R_DirCache;
  _ ← (if (p : bool) then _ ← clean_dirs k; give_back R_DirCache else mret tt);
  p ← ptr R_Port;
  _ ← (if (p : bool) then _ ← not_pending; give_back R_Port else mret tt);
  _ ← free_if R_Dev;
  _ ← free_if R_Host;
  _ ← free_if R_RootDir;
  _ ← free_if R_VolumeName;
  _ ← free_if R_DeviceName;
  _ ← free_if R_Utility;
  mret tt.

(** ** G_Mount *)

Section Mount.
Context {N : Type} `{RpcLib AUTH} `{Net N} `{Requester N} `{NfsRpc (Rpc AUTH N)}.
Abbreviation CLIENT := (CLIENT AUTH xdrproc).
Abbreviation Rpc := (Rpc AUTH N).

(** The timeouts for a number of seconds. *)
Definition set_client_timeouts (secs : Z) (cl : CLIENT) : option CLIENT :=
  '(_, _, cl) ← clntaudp_control cl CLSET_TIMEOUT (InfoTime (TV secs 0));
  '(_, _, cl) ← clntaudp_control cl CLSET_RETRY_TIMEOUT (InfoTime (TV (secs ÷ 5) 0));
  Some cl.

(** The volume with what belongs to the mount, and the client; [n] is the
    network then.  [None] in the result is 0. *)
Definition G_Mount (s : Settings) (v : Vol) (n : N) : B (option (Vol * Rpc)) :=
  ok ← try R_MntClnt;
  _ ← (if (ok : bool) then _ ← hold R_MntAuth; set_ptr R_MntAuth true else mret tt);
  _ ← set_ptr R_MntClnt ok;
  if negb ok then mret None else
  _ ← give_back R_MntAuth;
  ok ← get R_MntAuth;
  if negb ok then mret None else
  match mnt m (s_RootDir s) with
  | None => mret None
  | Some (fhs_status, fh) =>
      if negb (fhs_status =? 0) then mret None else
      _ ← hold R_Mount; _ ← set_ptr R_Mount true;
      cl ← of_opt (clnt_acreate (rpc_sys m) (rpc_host m (s_Host s)) NFS_PROGRAM NFS_VERSION 3);
      match cl with
      | None => mret None
      | Some cl =>
          _ ← hold R_NFSClnt; _ ← set_ptr R_NFSClnt true;
          auth_ok ← ask;
          '(ok, cr) ← of_opt (cr_UpdateAuth (ug m) auth_ok (v_Creds v) (task m));
          match cr_Auth cr with
          | Some auth =>
              _ ← hold R_UserAuth; _ ← set_ptr R_UserAuth true;
              if negb ok then mret None else
              cl ← of_opt (set_client_timeouts (s_RPCTimeout s) (set_auth auth cl));
              let '(r, c) := nfs_GetAttr fh (MkRpc cl (MkWorld n []) [] [] []) in
              match r with
              | inl _ => mret None
              | inr attr =>
                  let mt := v_Mnt v in
                  let mt := MkMounted fh attr (m_MaxFileNameLen mt) (m_BufSizePerFile mt) (m_Host mt) (m_RootDir mt) (m_Dev mt) in
                  let v := MkVol mt (v_VolumeName v) (v_DlName v) (Z.lor (v_Flags v) GF_IS_MOUNTED) (v_LockKey v) (v_NumBuffers v)
                    (v_AttrCacheTimeout v) (v_AttrCacheMaxEntries v) (v_DirCacheTimeout v) (v_DirCacheMaxEntries v)
                    (v_RPCTimeout v) cr (v_Running v) (v_DoReply v) in
                  mret (Some (v, c))
              end
          | None => mret None
          end
      end
  end.
End Mount.

(** The answer of the mount daemon is not looked at. *)
Definition G_UnMount : B unit :=
  p ← ptr R_MntClnt;
  _ ← (if (p : bool)
       then mounted ← ptr R_Mount;
       _ ← (if (mounted : bool) then ok ← ask; (if (ok : bool) then give_back R_Mount else mret tt) else mret tt);
       _ ← free_if R_MntAuth;
       _ ← give_back R_MntClnt;
       set_ptr R_MntClnt false
       else mret tt);
  p ← ptr R_NFSClnt;
  if (p : bool) then _ ← give_back R_NFSClnt; set_ptr R_NFSClnt false else mret tt.
End Start.
