(* ===== verification/Run.v ===== *)
(** * The handler from start to exit (nfs_handler.c: main, G_WaitPkt)

    Packets wait at the handler's port and commands at its ARexx port; the
    loop of main() takes them one after the other (Main.v) until the handler
    dies.  [main] is all of it, from the arguments to the exit. *)
From S2P Require Import Prelude MBuf WBufInfo NfsProt NfsSupp Nfs NfsLookup Global WBuf RBuf FtHash DCache.
From S2P Require Import FileHandle Dirs HState Fn Walk Find Fib Examine ExAll Object Cred Volume IoCtl Actions Main.
From S2P Require Import Xdr NfsXdr Udp UdpRun Stubs NfsNet UdpCalls UdpServer Start.

Definition ACTION_IOCONTROL : Z := 142.
Definition ACTION_TIMER : Z := 30.

(** ** The ports *)

(** A packet, or the command of an ARexx message, with its sender and what the
    libraries answer about credentials while it is served. *)
Record Message := MkMessage {
  msg_client : Client;
  msg_ug : UserGroup;
  msg_auth_ok : bool;
  msg_pkt : DOSPKT;
  msg_Res1 : Z;
  msg_Res2 : Z
}.
Record Ports := MkPorts { p_port : list Message; p_rexx : list Message }.
(** The signals a Wait ends with, and what has come to the ports till then. *)
Record Wakeup := MkWakeup { w_break : bool; w_rexx : bool; w_port : bool; w_pkts : list Message; w_cmds : list Message }.

(** What is taken: a packet, a command, or a control-C. *)
Inductive taken := Packet (msg : Message) | Command (msg : Message) | Break.

Definition GetMsg (q : Ports) : option (Message * Ports) :=
  match p_port q with [] => None | msg :: l => Some (msg, MkPorts l (p_rexx q)) end.
Definition GetARexxMsg (q : Ports) : option (Message * Ports) :=
  match p_rexx q with [] => None | msg :: l => Some (msg, MkPorts (p_port q) l) end.

(** [None]: nothing comes any more. *)
Fixpoint G_WaitPkt (q : Ports) (ws : list Wakeup) : option (taken * Ports * list Wakeup) :=
  match GetMsg q with
  | Some (msg, q) => Some (Packet msg, q, ws)
  | None =>
      match GetARexxMsg q with
      | Some (msg, q) => Some (Command msg, q, ws)
      | None =>
          match ws with
          | [] => None
          | w :: ws =>
              let q := MkPorts (w_pkts w) (w_cmds w) in
              if w_break w then Some (Break, q, ws)
              else if w_rexx w then match GetARexxMsg q with Some (msg, q) => Some (Command msg, q, ws) | None => G_WaitPkt q ws end
              else if w_port w then match GetMsg q with Some (msg, q) => Some (Packet msg, q, ws) | None => G_WaitPkt q ws end
              else G_WaitPkt q ws
          end
      end
  end.

Section Loop.
Context {S : Type} `{NfsRpc S} `{DosNames} `{External} (E : Env).
Context (rs : nat -> option addr) (junk : list byte) (d : Dispatch).

(** ** The loop *)

(** What was done for something that was taken: what was stored and sent, and the
    results of the packet if G_ReplyPkt sent it back. *)
Record Served := MkServed { sv_taken : taken; sv_out : list store; sv_reply : option (Z * Z) }.

(** The volume, the rest of Global_T, what waits and what will come, and what was
    done so far, the last first. *)
Record Run := MkRun {
  ru_vol : Vol;
  ru_st : HState S;
  ru_ports : Ports;
  ru_ws : list Wakeup;
  ru_log : list Served
}.

Definition set_results (r1 r2 : Z) (st : HState S) : HState S := set_h (SetRes (hs_h st) r1 r2) st.
Definition the_reply (v : Vol) (st : HState S) : option (Z * Z) :=
  if v_DoReply v then Some (h_Res1 (hs_h st), h_Res2 (hs_h st)) else None.

(** A packet or command; a command is an ACTION_IOCONTROL. *)
Definition serve (x : taken) (msg : Message) (pkt : DOSPKT) (st : HState S) (r : Run) : option Run :=
  match handle_packet E rs junk (msg_ug msg) (msg_auth_ok msg) (msg_client msg) d (ru_vol r) pkt st with
  | Some (inr (v, out), st) =>
      Some (MkRun v st (ru_ports r) (ru_ws r) (MkServed x out (the_reply v st) :: ru_log r))
  | _ => None
  end.

(** One turn; [Some None]: the handler waits for ever. *)
Definition turn (r : Run) : option (option Run) :=
  match G_WaitPkt (ru_ports r) (ru_ws r) with
  | None => Some None
  | Some (x, q, ws) =>
      let r := MkRun (ru_vol r) (ru_st r) q ws (ru_log r) in
      match x with
      | Packet msg => r ← serve x msg (msg_pkt msg) (set_results (msg_Res1 msg) (msg_Res2 msg) (ru_st r)) r; Some (Some r)
      | Command msg => r ← serve x msg (MkDOSPKT ACTION_IOCONTROL 0 0 0 0 0) (ru_st r) r; Some (Some r)
      | Break =>
          match handle_break (ru_vol r) (ru_st r) with
          | Some (inr v, st) => Some (Some (MkRun v st q ws (MkServed Break [] None :: ru_log r)))
          | _ => None
          end
      end
  end.

(** The turns while the handler is running: whether the loop has ended. *)
Fixpoint loop (fuel : nat) (r : Run) : option (bool * Run) :=
  if negb (v_Running (ru_vol r)) then Some (true, r)
  else match fuel with
       | O => Some (false, r)
       | Datatypes.S fuel => x ← turn r; match x with None => Some (false, r) | Some r => loop fuel r end
       end.
End Loop.

(** ** main *)

Section MainFn.
Context {N : Type} `{RpcLib AUTH} `{Net N} `{Requester N} `{NfsRpc (Rpc AUTH N)} `{DosNames} `{External} (E : Env).
Context (m : Machine).
Abbreviation Run := (@Run (Rpc AUTH N)).

(** The state of the packets at the beginning. *)
Definition first_state (k : Kept) (c : Rpc AUTH N) : option (HState (Rpc AUTH N)) :=
  a ← k_Attr k; d ← k_Dir k;
  let g := k_g k in
  Some (MkHState (MkHandler (Global (g_MBufs g) (g_NumWBufHdrs g) (g_NumFreeWBufHdrs g) (g_FreeWBufHdr g) (g_WBufHdrs g)
    (g_NFSGlobal g) (g_WriteBufferLimit g) c) [] 0 0 0) a d [] [] [] 0).
(** What is left of it at the end. *)
Definition last_kept (k : Kept) (st : HState (Rpc AUTH N)) : Kept :=
  let g := h_g (hs_h st) in
  MkKept (Some (hs_Attr st)) (Some (hs_Dir st)) (Global (g_MBufs g) (g_NumWBufHdrs g) (g_NumFreeWBufHdrs g) (g_FreeWBufHdr g)
    (g_WBufHdrs g) (g_NFSGlobal g) (g_WriteBufferLimit g) tt) (k_Flags k).

(** The dos list is locked and has no entry of the name. *)
Definition not_mounted : B bool :=
  ok ← try (offers m) R_DosList;
  if negb ok then mret false
  else found ← ask (offers m); _ ← give_back R_DosList; mret (negb found).

(** [exit:] *)
Definition do_exit (TimerUp : bool) (FH : list EFH) (DH : list (addr * EDH)) (k : Kept) : B unit :=
  flags ← (if TimerUp then ti_Cleanup (k_Flags k) else mret (k_Flags k));
  _ ← G_UnMount m;
  G_CleanUp FH DH (MkKept (k_Attr k) (k_Dir k) (k_g k) flags).

(** Up to the loop; [TimerUp] is what the variable contains that main() does
    not set at first.  [inl true] goes to the label exit, [inl false] to
    earlyexit. *)
Definition start_up (TimerUp : bool) (n : N) : B (sum bool (Vol * HState (Rpc AUTH N) * Dispatch) * bool * Kept) :=
  let k0 := MkKept None None (Global (MBPool 0 0 None ∅) 0 0 None ∅ (NFSGlobal 0 0 0 0 0) 0 tt) 0 in
  if stacksize m <? 29000 then mret (inl false, TimerUp, k0) else
  s ← ParseArgs (offers m) (ug m) (args m) (hostname_ok m);
  match s with
  | None => mret (inl false, TimerUp, k0)
  | Some s =>
      '(v, k) ← G_Init m s;
      match v with
      | None => mret (inl true, TimerUp, k)
      | Some v =>
          match init_dispatch with
          | None => mret (inl true, true, k)
          | Some d =>
              r ← G_Mount m s v n;
              match r with
              | None => mret (inl true, true, k)
              | Some (v, c) =>
                  ok ← not_mounted;
                  if negb ok then mret (inl true, true, k) else
                  ok ← not_mounted;
                  if negb ok then mret (inl true, true, k) else
                  ok ← get (offers m) R_Volume;
                  if negb ok then mret (inl true, true, k) else
                  st ← of_opt (first_state k c);
                  mret (inr (set_running true (v_DoReply v) v, st, d), true, k)
              end
          end
      end
  end.

(** Behind the loop: the packets that still come are refused. *)
Definition refused (msg : Message) : Served := MkServed (Packet msg) [] (Some (DOSFALSE, ERROR_ACTION_NOT_KNOWN)).
Definition after_loop (k : Kept) (r : Run) : B (list Served) :=
  flags ← ti_Cleanup (k_Flags k);
  _ ← give_back R_Volume; _ ← set_ptr R_Volume false;
  _ ← do_exit false (h_FH (hs_h (ru_st r))) (hs_DH (ru_st r)) (let k := last_kept k (ru_st r) in MkKept (k_Attr k) (k_Dir k) (k_g k) flags);
  mret ((refused <$> reverse (p_port (ru_ports r))) ++ ru_log r).

(** The result of main() and what was done, the last first; [None] in the result: the
    handler is still running after [fuel] turns, or waits for ever. *)
Definition main (fuel : nat) (TimerUp : bool) (n : N) (ws : list Wakeup) : B (option Z * list Served) :=
  '(x, TimerUp, k) ← start_up TimerUp n;
  match x with
  | inl false => mret (Some 10, [])
  | inl true => _ ← do_exit TimerUp [] [] k; mret (Some 10, [])
  | inr (v, st, d) =>
      '(ended, r) ← of_opt (loop E (rs_mbufs m) (junk m) d fuel (MkRun v st (MkPorts [] []) ws []));
      if negb ended then mret (None, ru_log r)
      else log ← after_loop k r; mret (Some 0, log)
  end.
End MainFn.
