(* ===== verification/StartSpec.v ===== *)
(** * What start-up holds, and taking it down

    The logic of the ledger and what G_Init and G_Mount hold come first.

    Whatever start-up has got is given back by G_UnMount and G_CleanUp, once. *)
From S2P Require Import Prelude MBuf WBufInfo NfsProt NfsSupp Nfs Global WBuf WBufRep WBufThm RBuf FileHandle Xdr NfsXdr.
From S2P Require Import FtHash FtHashSpec FtHashOps DCache DCacheThm Fn NfsLookup Dirs HState Walk Find Fib Examine.
From S2P Require Import ExAll Object Cred Volume IoCtl Actions Main Udp UdpRun Stubs NfsNet UdpCalls UdpServer Start.
From S2P Require Import Run.

(** ** Reasoning about what is held

    [ledger_is H P l]: of the resources of [H] one each is held, and the
    pointers of [P] are set.  [does] is the rule format: a program is run on a
    ledger, gives a result and leaves one for which the rest is shown.  The
    tactic [bstep] goes through a program. *)

Definition ledger_is (H P : resource -> bool) (l : Ledger) : Prop :=
  forall r, l_held l r = Nat.b2n (H r) /\ l_ptr l r = P r.
Definition does {A} (p : B A) (l : Ledger) (Q : A -> Ledger -> Prop) : Prop :=
  exists x l', p l = Some (x, l') /\ Q x l'.

Lemma does_ret {A} (x : A) l Q : Q x l -> does (mret x) l Q.
Proof. intros HQ. by exists x, l. Qed.
Lemma does_bind {A C} (p : B A) (f : A -> B C) l Q : does p l (fun x l' => does (f x) l' Q) -> does (p ≫= f) l Q.
Proof. intros (x & l' & E & y & l'' & E' & HQ). exists y, l''. split; [|done]. unfold mbind, B_bind. by rewrite E. Qed.
Lemma does_mono {A} (p : B A) l (Q Q' : A -> Ledger -> Prop) : does p l Q -> (forall x l', Q x l' -> Q' x l') -> does p l Q'.
Proof. intros (x & l' & E & HQ) Hm. exists x, l'. split; [done|by apply Hm]. Qed.
Lemma does_opt {A} (o : option A) x l Q : o = Some x -> Q x l -> does (of_opt o) l Q.
Proof. intros -> HQ. by exists x, l. Qed.

Section Rules.
Context (offers : nat -> bool).
Implicit Types (H P : resource -> bool) (l : Ledger) (r : resource).

Lemma upd_eq {A} (f : resource -> A) r x : upd f r x r = x.
Proof. unfold upd. by rewrite decide_True. Qed.
Lemma upd_ne {A} (f : resource -> A) r x r' : r' <> r -> upd f r x r' = f r'.
Proof. unfold upd. intros. by rewrite decide_False. Qed.

Lemma ledger_set H P l r (n : nat) (b : bool) a p : ledger_is H P l -> n = Nat.b2n b -> (forall r', p r' = P r') ->
  ledger_is (upd H r b) p (MkLedger a (upd (l_held l) r n) p).
Proof.
  intros Hl -> Hp r'. simpl. split; [|done]. unfold upd. destruct (decide (r' = r)); [done|]. apply Hl.
Qed.

Lemma does_ask H P l (Q : bool -> Ledger -> Prop) : ledger_is H P l -> (forall b l', ledger_is H P l' -> Q b l') -> does (ask offers) l Q.
Proof. intros Hl HQ. eexists _, _. split; [done|]. apply HQ. exact Hl. Qed.
Lemma does_ptr H P l r (Q : bool -> Ledger -> Prop) : ledger_is H P l -> Q (P r) l -> does (ptr r) l Q.
Proof. intros Hl HQ. eexists _, _. split; [done|]. by rewrite (proj2 (Hl r)). Qed.
Lemma does_hold H P l r (Q : unit -> Ledger -> Prop) : ledger_is H P l -> H r = false ->
  (forall l', ledger_is (upd H r true) P l' -> Q tt l') -> does (hold r) l Q.
Proof.
  intros Hl Hr HQ. eexists _, _. split; [done|]. apply HQ. intros r'. split; [|apply Hl]. simpl. unfold upd.
  destruct (decide (r' = r)) as [->|]; [|apply Hl]. by rewrite (proj1 (Hl r)), Hr.
Qed.
Lemma does_give_back H P l r (Q : unit -> Ledger -> Prop) : ledger_is H P l -> H r = true ->
  (forall l', ledger_is (upd H r false) P l' -> Q tt l') -> does (give_back r) l Q.
Proof.
  intros Hl Hr HQ. unfold does, give_back. rewrite (proj1 (Hl r)), Hr. simpl. eexists _, _. split; [done|]. apply HQ. intros r'. split; [|apply Hl].
  simpl. unfold upd. destruct (decide (r' = r)) as [->|]; [done|apply Hl].
Qed.
Lemma does_set_ptr H P l r b (Q : unit -> Ledger -> Prop) : ledger_is H P l ->
  (forall l', ledger_is H (upd P r b) l' -> Q tt l') -> does (set_ptr r b) l Q.
Proof.
  intros Hl HQ. eexists _, _. split; [done|]. apply HQ. intros r'. split; [apply Hl|]. simpl. unfold upd.
  destruct (decide (r' = r)) as [->|]; [done|apply Hl].
Qed.
Lemma does_try H P l r (Q : bool -> Ledger -> Prop) : ledger_is H P l -> H r = false ->
  (forall b l', ledger_is (upd H r b) P l' -> Q b l') -> does (try offers r) l Q.
Proof.
  intros Hl Hr HQ. unfold try. apply does_bind. eapply does_ask; [exact Hl|]. intros b l1 Hl1. apply does_bind. destruct b.
  - eapply does_hold; [exact Hl1|done|]. intros l2 Hl2. apply does_ret. by apply HQ.
  - apply does_ret, does_ret, HQ. intros r'. split; [|apply Hl1]. unfold upd. destruct (decide (r' = r)) as [->|]; [|apply Hl1].
    by rewrite (proj1 (Hl1 r)), Hr.
Qed.
Lemma does_get H P l r (Q : bool -> Ledger -> Prop) : ledger_is H P l -> H r = false ->
  (forall b l', ledger_is (upd H r b) (upd P r b) l' -> Q b l') -> does (get offers r) l Q.
Proof.
  intros Hl Hr HQ. unfold get. apply does_bind. eapply does_try; [exact Hl|done|]. intros b l1 Hl1. apply does_bind.
  eapply does_set_ptr; [exact Hl1|]. intros l2 Hl2. by apply does_ret, HQ.
Qed.
Lemma does_free_if H P l r (Q : unit -> Ledger -> Prop) : ledger_is H P l -> (P r = true -> H r = true) ->
  (forall l', ledger_is (upd H r (H r && negb (P r))) P l' -> Q tt l') -> does (free_if r) l Q.
Proof.
  intros Hl Hr HQ. unfold free_if. apply does_bind. eapply does_ptr; [exact Hl|]. destruct (P r) eqn:E.
  - eapply does_give_back; [exact Hl|by apply Hr|]. intros l' Hl'. apply HQ. rewrite andb_false_r. done.
  - apply does_ret, HQ. intros r'. split; [|apply Hl]. unfold upd. destruct (decide (r' = r)) as [->|]; [|apply Hl].
    rewrite andb_true_r. apply Hl.
Qed.
Lemma does_not_pending H P l (Q : unit -> Ledger -> Prop) : ledger_is H P l -> H R_TimerIO = false -> Q tt l -> does not_pending l Q.
Proof. intros Hl Hr HQ. unfold does, not_pending. rewrite (proj1 (Hl R_TimerIO)), Hr. simpl. by exists tt, l. Qed.
Lemma ledger_ext H P H' P' l : ledger_is H P l -> (forall r, H r = H' r) -> (forall r, P r = P' r) -> ledger_is H' P' l.
Proof. intros Hl Eh Ep r. rewrite <-Eh, <-Ep. apply Hl. Qed.
End Rules.

(** A pointer or what is held of a known kind. *)
Ltac known := cbn [upd decide resource_eq] in *; simpl; try done.
Ltac bstep :=
  cbv beta iota;
  lazymatch goal with
  | |- does (mret _) _ _ => apply does_ret
  | |- does (_ ≫= _) _ _ => apply does_bind
  | Hl : ledger_is _ _ ?l |- does (ask _) ?l _ => eapply does_ask; [exact Hl|clear Hl; intros ? ? Hl]
  | Hl : ledger_is _ _ ?l |- does (ptr _) ?l _ => eapply does_ptr; [exact Hl|]
  | Hl : ledger_is _ _ ?l |- does (hold _) ?l _ => eapply does_hold; [exact Hl|simpl|clear Hl; intros ? Hl]
  | Hl : ledger_is _ _ ?l |- does (give_back _) ?l _ => eapply does_give_back; [exact Hl|simpl|clear Hl; intros ? Hl]
  | Hl : ledger_is _ _ ?l |- does (set_ptr _ _) ?l _ => eapply does_set_ptr; [exact Hl|clear Hl; intros ? Hl]
  | Hl : ledger_is _ _ ?l |- does (try _ _) ?l _ => eapply does_try; [exact Hl|simpl|clear Hl; intros ? ? Hl]
  | Hl : ledger_is _ _ ?l |- does (get _ _) ?l _ => eapply does_get; [exact Hl|simpl|clear Hl; intros ? ? Hl]
  | Hl : ledger_is _ _ ?l |- does (free_if _) ?l _ => eapply does_free_if; [exact Hl|simpl|clear Hl; intros ? Hl]
  | Hl : ledger_is _ _ ?l |- does not_pending ?l _ => eapply does_not_pending; [exact Hl|simpl|]
  end.

(** What the pointers and the flags of the timer say is held. *)
Definition has (flags : Z) (P : resource -> bool) (r : resource) : bool :=
  match r with
  | R_TimerDevice => negb (Z.land flags STF_DEVICE_OPEN =? 0)
  | R_TimerIO => negb (Z.land flags STF_TIMER_USED =? 0)
  | R_Args | R_DosList => false
  | _ => P r
  end.
(** Everything that is held can be found. *)
Definition owns (flags : Z) (P : resource -> bool) (l : Ledger) : Prop := ledger_is (has flags P) P l.
Definition timer_ok (flags : Z) (P : resource -> bool) : Prop :=
  flags = 0 \/ (flags = 3 /\ P R_TimerPkt = true /\ P R_TimerReq = true).

Ltac owned := let r := fresh "r" in intros r; destruct r; cbn; try done.

Section Owns.
Context (m : Machine).
Implicit Types (P : resource -> bool) (l : Ledger).

Definition without (rs : list resource) (P : resource -> bool) (r : resource) : bool := negb (bool_decide (r ∈ rs)) && P r.

Lemma ti_Cleanup_owns flags P l : owns flags P l -> timer_ok flags P ->
  does (ti_Cleanup flags) l (fun x l' => x = 0 /\ owns 0 (without [R_TimerPkt; R_TimerReq] P) l').
Proof.
  intros Hl Ht. unfold owns in Hl. unfold ti_Cleanup. do 2 (bstep; bstep).
  destruct Ht as [->|(-> & Hp & Hr)].
  - destruct (P R_TimerPkt) eqn:Hp, (P R_TimerReq) eqn:Hr; simpl; repeat (bstep; try (by rewrite ?Hp, ?Hr)).
    all: split; [done|]; eapply ledger_ext; [exact Hl| |]; owned.
  - rewrite Hp, Hr. simpl. repeat (bstep; try (by rewrite ?Hp, ?Hr)). split; [done|]. eapply ledger_ext; [exact Hl| |]; owned.
Qed.

(** The pointers of [P'] are those of [P] but for [rs]. *)
Definition same_but (rs : list resource) (P P' : resource -> bool) : Prop := forall r, r ∉ rs -> P' r = P r.

Lemma member (r : resource) (rs : list resource) : bool_decide (r ∈ rs) = true -> r ∈ rs.
Proof. apply bool_decide_eq_true. Qed.
Lemma nonmember (r : resource) (rs : list resource) : bool_decide (r ∈ rs) = false -> r ∉ rs.
Proof. apply bool_decide_eq_false. Qed.
Lemma same_at rs P P' r : same_but rs P P' -> bool_decide (r ∈ rs) = false -> P' r = P r.
Proof. intros Hs Hr. apply Hs. by apply bool_decide_eq_false in Hr. Qed.

Definition timer_parts : list resource := [R_TimerPkt; R_TimerReq].
Definition rexx_parts : list resource := [R_ARexx; R_RexxLib; R_RexxPort].

Lemma ti_Init_owns P l : owns 0 P l -> P R_TimerPkt = false -> P R_TimerReq = false ->
  does (ti_Init m) l (fun x l' => exists P', owns x.2 P' l' /\ timer_ok x.2 P' /\ x.2 = (if x.1 then 3 else 0) /\ same_but timer_parts P P').
Proof.
  intros Hl Hp Hr. unfold owns in Hl. unfold ti_Init. do 4 (bstep; try done). rename b into bp, b0 into br.
  assert (Hfail : forall l', ledger_is (upd (upd (has 0 P) R_TimerPkt bp) R_TimerReq br) (upd (upd P R_TimerPkt bp) R_TimerReq br) l' ->
    does (flags ← ti_Cleanup 0; mret (false, flags)) l' (fun x l' => exists P', owns x.2 P' l' /\ timer_ok x.2 P' /\
      x.2 = (if x.1 then 3 else 0) /\ same_but timer_parts P P')).
  { intros lf Hl'. bstep. eapply does_mono; [apply (ti_Cleanup_owns 0 (upd (upd P R_TimerPkt bp) R_TimerReq br)); [|by left]|].
    - eapply ledger_ext; [exact Hl'| |]; owned.
    - simpl. intros x l2 [-> Hl2]. bstep. eexists. split; [exact Hl2|]. split; [by left|]. split; [done|].
      intros r Hn. unfold timer_parts in Hn. unfold without. rewrite bool_decide_eq_false_2, !upd_ne by set_solver. done. }
  bstep. destruct (bp && br) eqn:Eb; [|bstep; by apply Hfail]. apply andb_prop in Eb as [-> ->].
  bstep; [done|]. destruct b; [|apply Hfail; eapply ledger_ext; [exact Hl| |]; owned].
  unfold ti_StartTimer. bstep. bstep. bstep; [done|]. bstep. bstep.
  exists (upd (upd P R_TimerPkt true) R_TimerReq true). split; [|split; [by right|split; [done|]]].
  - eapply ledger_ext; [exact Hl| |]; owned.
  - intros r Hn. unfold timer_parts in Hn. rewrite !upd_ne by set_solver. done.
Qed.

Definition rexx_set (b : bool) P : Prop := P R_ARexx = b /\ P R_RexxLib = b /\ P R_RexxPort = b.
Lemma InitARexx_owns flags P l : owns flags P l -> rexx_set false P ->
  does (InitARexx m) l (fun x l' => exists P', owns flags P' l' /\ rexx_set x P' /\ same_but rexx_parts P P').
Proof.
  intros Hl (Ha & Hb & Hc). unfold owns in Hl. unfold InitARexx. bstep. bstep; [done|]. destruct b.
  2:{ bstep. bstep. bstep. exists P. split; [|split; [by repeat split|done]].
    eapply ledger_ext; [exact Hl| |]; intros r; unfold upd; destruct (decide (r = R_ARexx)) as [->|]; by rewrite ?Ha. }
  bstep. bstep; [done|]. bstep.
  assert (Hgo : forall l' bl bp, (bp = true -> bl = true) -> ledger_is (upd (upd (upd (has flags P) R_ARexx true) R_RexxLib bl) R_RexxPort bp)
      (upd (upd P R_RexxLib bl) R_RexxPort bp) l' ->
    does (if bl && bp then _ ← set_ptr R_ARexx true; mret true
          else _ ← free_context; _ ← set_ptr R_RexxLib false; _ ← set_ptr R_ARexx false; mret false) l'
      (fun x l' => exists P', owns flags P' l' /\ rexx_set x P' /\ same_but rexx_parts P P')).
  { intros lf bl bp Himp Hl'. clear Hl. unfold free_context. destruct (bl && bp) eqn:Eb.
    - apply andb_prop in Eb as [-> ->]. repeat bstep.
      exists (upd (upd (upd P R_RexxLib true) R_RexxPort true) R_ARexx true). split; [|split; [done|]].
      + eapply ledger_ext; [exact Hl'| |]; owned.
      + intros r Hn. unfold rexx_parts in Hn. rewrite !upd_ne by set_solver. done.
    - repeat (bstep; try done). exists P. split; [|split; [by repeat split|done]].
      eapply ledger_ext; [exact Hl'| |]; owned; rewrite ?Ha, ?Hb, ?Hc; destruct bl, bp; try done; by specialize (Himp eq_refl). }
  destruct b.
  - bstep; [done|]. by apply Hgo.
  - bstep. apply (Hgo _ false false); [done|]. eapply ledger_ext; [exact Hl| |]; owned.
Qed.
End Owns.

(** ** The buffers *)

(** All buffers and headers are free. *)
Record all_free {S} (g : Global_T S) (mf hf : list addr) : Prop := {
  af_heap : heap_ok g [] hf mf no_frame;
  af_num : g_NumMBufs (g_MBufs g) = zlen mf
}.

Lemma free_heads_all l : forall p mem, chain mbn_Next mem p l None -> NoDup l -> is_Some (free_heads (length l) p mem).
Proof.
  induction l as [|a l IH]; intros p mem Hc Hn; simpl; [by eexists|]. destruct Hc as (-> & n & Hm & Hc). simpl. rewrite Hm. simpl.
  apply NoDup_cons in Hn as [Hna Hn]. apply IH; [|done]. eapply chain_frame; [|exact Hc]. intros b Hb. apply lookup_delete_ne. by intros ->.
Qed.
Lemma all_free_mb {S} (g : Global_T S) mf hf : all_free g mf hf -> is_Some (mb_FreeMBufs (g_MBufs g)).
Proof.
  intros [[_ _ _ [Hc Hn Hd _] _ _ _ _ _] Hnum]. unfold mb_FreeMBufs. destruct (_ =? 0); [by eexists|]. unfold mb_FreeSomeMBufs. rewrite Hnum. unfold zlen.
  rewrite Nat2Z.id. destruct (free_heads_all _ _ _ Hc Hd) as [[p mem] ->]. by eexists.
Qed.
Lemma all_free_wb {S} (g : Global_T S) mf hf : all_free g mf hf -> is_Some (wc_FreeWBufs g).
Proof.
  intros [[Hc _ Hd _ _ _ _ _ _] _]. unfold wc_FreeWBufs.
  destruct (free_hdrs_chain hf (size (g_WBufHdrs g)) (g_FreeWBufHdr g) (g_WBufHdrs g) Hc Hd) as (h & -> & _); [by eapply chain_length_size|].
  by eexists.
Qed.
Lemma none_free {S} (g : Global_T S) mf : g_WBufHdrs g = ∅ -> g_FreeWBufHdr g = None -> g_NumFreeWBufHdrs g = 0 ->
  mb_ok (g_MBufs g) mf -> g_NumMBufs (g_MBufs g) = zlen mf -> all_free g mf [].
Proof.
  intros He Hf Hn Hm Hnum. constructor; [|done]. constructor; rewrite ?He, ?Hf, ?Hn; try done.
  - constructor.
  - apply Hm.
Qed.

Lemma first_failure (rs : nat -> option addr) n : (forall k, (k < n)%nat -> is_Some (rs k)) \/ (exists k, (k < n)%nat /\ rs k = None).
Proof.
  induction n as [|n [IH|(k & Hk & E)]]; [left; lia| |right; exists k; split; [lia|done]].
  destruct (rs n) eqn:E; [left|right; exists n; split; [lia|done]]. intros k Hk. destruct (decide (k = n)) as [->|]; [by rewrite E|]. apply IH. lia.
Qed.
Lemma mb_AllocMBufs_free rs junk NumBufs : fresh_allocs rs ∅ -> zlen junk = MBUFSIZE -> 0 <= NumBufs ->
  exists ok mb mf, mb_AllocMBufs rs junk (MBPool 0 0 None ∅) NumBufs = Some (ok, mb) /\ mb_ok mb mf /\ g_NumMBufs mb = zlen mf.
Proof.
  intros Hf Hj Hn. unfold mb_AllocMBufs. cbn [mb_mem]. destruct (first_failure rs (Z.to_nat NumBufs)) as [Hall|(k & Hk & E)].
  - destruct (mb_AllocMoreMBufs_ok rs junk (MBPool 0 0 None ∅) [] NumBufs) as (mb & new & E & Hz & Hok & Hnum & _); [|exact Hf|exact Hj|lia| |].
    { constructor; simpl; try done. constructor. }
    { intros k Hk. apply Hall. lia. }
    exists true, mb, (new ++ []). split; [done|]. split; [done|]. rewrite app_nil_r. simpl in Hnum. lia.
  - exists false, (MBPool 0 0 None ∅), []. split; [|split; [|done]].
    + eapply mb_AllocMoreMBufs_fails; [exact Hf| |exact E]. lia.
    + constructor; simpl; try done. constructor.
Qed.

Lemma wc_AllocWBufs_free {S} rs (g : Global_T S) mf NumBufs : mb_ok (g_MBufs g) mf -> g_NumMBufs (g_MBufs g) = zlen mf ->
  g_WBufHdrs g = ∅ -> fresh_hdrs rs ∅ -> 0 <= NumBufs ->
  exists ok g' hf, wc_AllocWBufs rs g NumBufs = Some (ok, g') /\ all_free g' mf hf /\ same_env g g' /\ g_MBufs g' = g_MBufs g.
Proof.
  intros Hm Hnum He Hfr HN. rewrite <-He in Hfr. destruct (first_failure rs (Z.to_nat NumBufs)) as [Hall|(k & Hk & E)].
  - destruct (wc_AllocWBufs_ok rs g mf NumBufs He Hm Hfr HN) as (g' & hf & Ea & _ & Hh & Hs & Emb); [intros k Hk; apply Hall; lia|].
    exists true, g', hf. split; [done|]. split; [|done]. constructor; [done|by rewrite Emb].
  - eexists false, _, []. split; [apply (wc_AllocWBufs_fails rs g NumBufs k Hfr); [lia|done]|]. split; [|done]. by apply none_free.
Qed.

(** ** The distribution of the memory *)

Lemma spread_rest_ok fuel : forall BufMem Attrs Dirs, BufMem < 2 ^ 31 -> 0 <= Attrs -> 0 <= Dirs ->
  BufMem < Z.of_nat fuel * (ATTRENTRYSIZE + DIRENTRYSIZE) ->
  exists A D, spread_rest fuel BufMem Attrs Dirs = Some (A, D) /\ Attrs <= A /\ Dirs <= D.
Proof.
  change (ATTRENTRYSIZE + DIRENTRYSIZE) with 238.
  induction fuel as [|fuel IH]; intros BufMem Attrs Dirs Hb Ha Hd Hf; simpl.
  - rewrite (proj2 (Z.leb_gt _ _)) by lia. by exists Attrs, Dirs.
  - change (ATTRENTRYSIZE + DIRENTRYSIZE) with 238. destruct (Z.leb_spec 0 BufMem) as [H0|]; [|by exists Attrs, Dirs].
    rewrite s32_id by lia. destruct (IH (BufMem - 238) (Attrs + 1) (Dirs + 1)) as (A & D & E & HA & HD); [lia..|].
    exists A, D. split; [done|]. lia.
Qed.
Lemma DistributeBuffers_ok v NumBufs : 0 <= NumBufs < 2 ^ 22 ->
  exists MBufs Attrs Dirs, DistributeBuffers v NumBufs = Some (MBufs, Attrs, Dirs) /\ 0 <= MBufs /\ 20 <= Attrs /\ 20 <= Dirs.
Proof.
  intros Hn. unfold DistributeBuffers. rewrite s32_id by lia. change MBUFSIZE with 8192. change ATTRENTRYSIZE with 128. change DIRENTRYSIZE with 110.
  set (B := NumBufs * 512). assert (HB : 0 <= B < 2 ^ 31) by (unfold B; lia). clearbody B. clear Hn.
  set (big := _ || _). assert (H24 : 0 <= B / 2 /\ 0 <= B / 4) by (split; apply Z.div_pos; lia).
  rewrite (Z.quot_div_nonneg B 2), (Z.quot_div_nonneg B 4), (Z.quot_div_nonneg (B / 2) 8192), (Z.quot_div_nonneg (B / 4) 128), (Z.quot_div_nonneg (B / 4) 110) by lia.
  assert (Hdd : forall j k, 0 < j -> 0 < k -> 0 <= B / j / k /\ B / j / k * k * j <= B).
  { intros j k Hj Hk. rewrite Z.div_div by lia. pose proof (Z.mul_div_le B (j * k)). pose proof (Z.div_pos B (j * k)). lia. }
  set (M0 := B / 2 / 8192). assert (HM0 : 0 <= M0 /\ M0 * 8192 * 2 <= B) by (apply (Hdd 2 8192); lia).
  set (A0 := B / 4 / 128). assert (HA0 : 0 <= A0 /\ A0 * 128 * 4 <= B) by (apply (Hdd 4 128); lia).
  set (D0 := B / 4 / 110). assert (HD0 : 0 <= D0 /\ D0 * 110 * 4 <= B) by (apply (Hdd 4 110); lia). clearbody M0 A0 D0.
  set (A1 := if negb big && (A0 >? 200) then 200 else A0). assert (HA1 : 0 <= A1 <= A0) by (unfold A1; destruct (Z.gtb_spec A0 200), big; simpl; lia).
  set (D1 := if negb big && (D0 >? 200) then 200 else D0). assert (HD1 : 0 <= D1 <= D0) by (unfold D1; destruct (Z.gtb_spec D0 200), big; simpl; lia).
  set (M1 := if v_flag v GF_SLOW_MEDIUM && _ then 50 else M0).
  assert (HM1 : 0 <= M1 <= M0).
  { unfold M1. rewrite Z.quot_div_nonneg by lia. rewrite Z.div_mul by lia. destruct (Z.gtb_spec M0 50), (v_flag v GF_SLOW_MEDIUM); simpl; lia. }
  clearbody A1 D1 M1.
  set (R := B - M1 * 8192 - A1 * 128 - D1 * 110). assert (HR : 0 <= R < 2 ^ 31) by (unfold R; lia). clearbody R.
  set (p := if negb big && negb (v_flag v GF_SLOW_MEDIUM) then _ else (M1, R)).
  assert (Hp : 0 <= p.1 /\ 0 <= p.2 < 2 ^ 31).
  { unfold p. rewrite Z.quot_div_nonneg by lia. destruct (_ && _); simpl; [|lia]. pose proof (Z.mul_div_le R 8192). pose proof (Z.div_pos R 8192). destruct (Z.eqb_spec (R / 8192) 0); simpl; lia. }
  destruct p as [M2 R2]. simpl in Hp.
  destruct (spread_rest_ok (Z.to_nat (R2 / (128 + 110) + 1)) R2 A1 D1) as (A & D & E & HA & HD); [lia..| |].
  { change (ATTRENTRYSIZE + DIRENTRYSIZE) with 238. change (128 + 110) with 238. pose proof (Z.div_mod R2 238). pose proof (Z.mod_pos_bound R2 238).
    pose proof (Z.div_pos R2 238). lia. }
  rewrite E. cbn [mbind option_bind]. eexists M2, _, _. split; [done|]. destruct (Z.ltb_spec A 20), (Z.ltb_spec D 20); lia.
Qed.

(** ** G_Init *)

(** Memory is fresh, and the number of buffers is not too large for the
    calculation of their sizes. *)
Record machine_ok (m : Machine) : Prop := {
  mk_mbufs : fresh_allocs (rs_mbufs m) ∅;
  mk_junk : zlen (junk m) = MBUFSIZE;
  mk_wbufs : fresh_hdrs (rs_wbufs m) ∅;
  mk_buffers a n : args m = Some a -> Buffers a = Some n -> 0 <= n < 2 ^ 22
}.

(** What is there can be taken down. *)
Record kept_ok (k : Kept) (P : resource -> bool) : Prop := {
  ko_timer : timer_ok (k_Flags k) P;
  ko_rexx : rexx_set (P R_ARexx) P;
  ko_attr : P R_AttrCache = true -> exists c, k_Attr k = Some c /\ is_Some (attrs_Cleanup c);
  ko_dir : P R_DirCache = true -> exists c, k_Dir k = Some c /\ is_Some (dc_Cleanup c);
  ko_mb : is_Some (mb_FreeMBufs (g_MBufs (k_g k)));
  ko_wb : is_Some (wc_FreeWBufs (k_g k))
}.

Definition init_parts : list resource :=
  [R_Utility; R_Dev; R_Port; R_AttrCache; R_DirCache] ++ timer_parts ++ rexx_parts.

(** What a successful G_Init has made of the settings. *)
Record made (s : Settings) (v : Vol) (k : Kept) : Prop := {
  md_creds : v_Creds v = s_Creds s;
  md_global : g_NFSGlobal (k_g k) = s_NFSGlobal s /\ g_WriteBufferLimit (k_g k) = s_WriteBufferLimit s;
  md_caches : exists ca cd, k_Attr k = Some ca /\ k_Dir k = Some cd /\ cache_ok ca ∅ /\ cache_ok cd ∅;
  md_free : exists mf hf, all_free (k_g k) mf hf
}.

Lemma fresh_cache {V} m1 m2 Max T (c : Cache V) : 0 <= Max -> ca_Init m1 m2 Max T = Some c -> cache_ok c ∅ /\ is_Some (ca_Cleanup c).
Proof.
  intros HM Hc. destruct (ca_Init_ok Max T c m1 m2 HM Hc) as (Hok & _). split; [done|]. unfold ca_Cleanup.
  destruct Hok as [Hft _]. destruct (fthash_Delete_ok _ _ _ Hft) as (h & -> & _). by eexists.
Qed.

Section Init.
Context (m : Machine) (Hm : machine_ok m).
Implicit Types (P : resource -> bool) (l : Ledger).

Lemma start_kept s P : timer_ok 0 P -> rexx_set (P R_ARexx) P -> P R_AttrCache = false -> P R_DirCache = false ->
  kept_ok (MkKept None None (start_global s) 0) P.
Proof. intros Ht Hr Ha Hd. constructor; [done|done|by rewrite Ha|by rewrite Hd|by eexists|]. by eexists. Qed.

(** The state of G_Init at a point: what it has made so far. *)
Record init_at (s : Settings) P0 (k : Kept) P l : Prop := {
  ia_owns : owns (k_Flags k) P l;
  ia_kept : kept_ok k P;
  ia_same : same_but init_parts P0 P;
  ia_g : k_g k = start_global s
}.

Lemma init_get s P0 k P l r (Q : bool -> Ledger -> Prop) : init_at s P0 k P l -> r ∈ [R_Utility; R_Dev; R_Port] -> P r = false ->
  (forall b l', init_at s P0 k (upd P r b) l' -> Q b l') -> does (get (offers m) r) l Q.
Proof.
  intros [Hl [Ht Hr Ha Hd Hmb Hwb] Hs Hg] Hin Hp HQ. unfold owns in Hl.
  assert (Hc : r = R_Utility \/ r = R_Dev \/ r = R_Port) by (rewrite !elem_of_cons, elem_of_nil in Hin; tauto).
  eapply does_get; [exact Hl|destruct Hc as [-> | [-> | ->]]; done|]. intros b l' Hl'. apply HQ. constructor; [| |intros r' Hr'|done].
  - eapply ledger_ext; [exact Hl'| |]; intros r'; destruct Hc as [-> | [-> | ->]]; by destruct r'.
  - destruct Hc as [-> | [-> | ->]]; by constructor.
  - rewrite upd_ne; [by apply Hs|]. intros ->. apply Hr'. destruct Hc as [-> | [-> | ->]]; by apply member.
Qed.

Definition init_done s P0 (x : option Vol * Kept) l : Prop :=
  exists P, owns (k_Flags x.2) P l /\ kept_ok x.2 P /\ same_but init_parts P0 P /\ (forall v, x.1 = Some v -> made s v x.2).
Lemma init_stop s P0 k P l : init_at s P0 k P l -> does (mret (None, k)) l (init_done s P0).
Proof. intros [Hl Hk Hs _]. apply does_ret. exists P. by split_and!. Qed.

(** Adding a cache. *)
Lemma init_hold {A} s P0 k k' P l r (rest : B A) Q : init_at s P0 k P l -> P r = false ->
  r = R_AttrCache \/ r = R_DirCache -> k_Flags k' = k_Flags k -> kept_ok k' (upd P r true) -> k_g k' = start_global s ->
  (forall l', init_at s P0 k' (upd P r true) l' -> does rest l' Q) -> does (_ ← hold r; _ ← set_ptr r true; rest) l Q.
Proof.
  intros [Hl _ Hs _] Hp Hr Hf Hk' Hg' HQ. unfold owns in Hl. bstep. bstep; [destruct Hr as [->| ->]; done|]. bstep. bstep.
  apply HQ. constructor; [|done| |done].
  - rewrite Hf. eapply ledger_ext; [exact Hl| |]; intros r'; destruct Hr as [->| ->]; by destruct r'.
  - intros r' Hn. rewrite upd_ne; [by apply Hs|]. intros ->. apply Hn. destruct Hr as [->| ->]; by apply member.
Qed.

Lemma init_ask {A} s P0 k P l (f : bool -> B A) Q : init_at s P0 k P l ->
  (forall b l', init_at s P0 k P l' -> does (f b) l' Q) -> does (b ← ask (offers m); f b) l Q.
Proof. intros [Hl Hk Hs Hg] HQ. bstep. eapply does_ask; [exact Hl|]. intros b l' Hl'. apply HQ. by constructor. Qed.

Lemma G_Init_owns s P0 l : owns 0 P0 l -> (forall r, r ∈ init_parts -> P0 r = false) -> 0 <= s32 (s_NumBuffers s) < 2 ^ 22 ->
  does (G_Init m s) l (init_done s P0).
Proof.
  intros Hl H0 Hn. unfold G_Init. destruct (DistributeBuffers_ok (start_vol s (dev_node m)) _ Hn) as (MBufs & Attrs & Dirs & Ed & HM & HA & HD).
  assert (Hz : forall r, bool_decide (r ∈ init_parts) = true -> P0 r = false) by (intros r Hr; apply H0; by apply bool_decide_eq_true in Hr). clear Hn H0.
  assert (Hi : init_at s P0 (MkKept None None (start_global s) 0) P0 l).
  { constructor; [done| |done|done]. apply start_kept; [by left| |by apply Hz..]. by rewrite (Hz R_ARexx); repeat split; apply Hz. }
  bstep. eapply does_opt; [exact Ed|]. clear Hl.
  bstep. eapply init_get; [exact Hi|by apply member|by apply Hz|]. clear l Hi. intros b1 l Hi. destruct b1; cbn [negb]; [|by eapply init_stop].
  bstep. eapply init_get; [exact Hi|by apply member|by apply Hz|]. clear l Hi. intros b1 l Hi. destruct b1; cbn [negb]; [|by eapply init_stop].
  bstep. eapply init_get; [exact Hi|by apply member|by apply Hz|]. clear l Hi. intros b1 l Hi. destruct b1; cbn [negb]; [|by eapply init_stop].
  eapply init_ask; [exact Hi|]. clear l Hi. intros m1 l Hi. eapply init_ask; [exact Hi|]. clear l Hi. intros m2 l Hi.
  destruct (attrs_Init m1 m2 Attrs (s_AttrCacheTimeout s)) as [ca|] eqn:Ea; [|by eapply init_stop].
  apply fresh_cache in Ea as [Hca Hfa]; [|lia].
  eapply (init_hold _ _ _ (MkKept (Some ca) None (start_global s) 0)); [exact Hi|by apply Hz|by left|done| |done|].
  { destruct (ia_kept _ _ _ _ _ Hi) as [Ht Hr _ Hd Hmb Hwb]. constructor; [done|done| |done|done|done]. intros _. by exists ca. }
  clear l Hi. intros l Hi. cbn [k_g].
  eapply init_ask; [exact Hi|]. clear l Hi. intros m3 l Hi. eapply init_ask; [exact Hi|]. clear l Hi. intros m4 l Hi.
  destruct (dc_Init m3 m4 Dirs (s_DirCacheTimeout s)) as [cd|] eqn:Ec; [|by eapply init_stop].
  apply fresh_cache in Ec as [Hcd Hfd]; [|lia].
  eapply (init_hold _ _ _ (MkKept (Some ca) (Some cd) (start_global s) 0)); [exact Hi|by apply Hz|by right|done| |done|].
  { destruct (ia_kept _ _ _ _ _ Hi) as [Ht Hr Ha _ Hmb Hwb]. constructor; [done|done| | |done|done]; intros _; [by exists ca|by exists cd]. }
  clear l Hi. intros l [Hl Hk Hs _].
  assert (Hpt : forall r, bool_decide (r ∈ timer_parts ++ rexx_parts) = true -> upd (upd (upd (upd (upd P0 R_Utility true) R_Dev true) R_Port true) R_AttrCache true) R_DirCache true r = false).
  { intros r Hr. destruct r; try done; by apply Hz. }
  set (P := upd _ R_DirCache true) in *. clearbody P. bstep. eapply does_mono; [apply ti_Init_owns; [exact Hl|by apply Hpt|by apply Hpt]|]. simpl.
  clear l Hl. intros [ok flags] l (P1 & Hl & Ht & Hfl & Hs1). simpl in Hl, Ht, Hfl. cbn [fst snd].
  assert (Hs2 : same_but init_parts P0 P1).
  { intros r Hr. rewrite Hs1, Hs; [done..|]. intros Hin. apply Hr. unfold init_parts. rewrite !elem_of_app. tauto. }
  assert (Hk1 : kept_ok (MkKept (Some ca) (Some cd) (start_global s) flags) P1).
  { destruct Hk as [_ Hr Ha Hd Hmb Hwb]. constructor; simpl; [done| |by eexists|by eexists|done|done].
    unfold rexx_set. rewrite !(same_at _ _ _ _ Hs1) by done. done. }
  destruct ok; cbn [negb].
  2:{ bstep. exists P1. by split_and!. }
  assert (Hpr : rexx_set false P1) by (unfold rexx_set; rewrite !(same_at _ _ _ _ Hs1) by done; repeat split; by apply Hpt).
  bstep. eapply does_mono; [apply InitARexx_owns; [exact Hl|exact Hpr]|]. simpl. clear l Hl. intros okr l (P2 & Hl & Hr2 & Hs3).
  assert (Hs4 : same_but init_parts P0 P2).
  { intros r Hr. rewrite Hs3, Hs2; [done..|]. intros Hin. apply Hr. unfold init_parts. rewrite !elem_of_app. tauto. }
  assert (Hk2 : forall g mf hf, all_free g mf hf -> kept_ok (MkKept (Some ca) (Some cd) g flags) P2).
  { intros g mf hf Hg. destruct Hk1 as [Ht1 _ _ _ _ _]. constructor; simpl; [|destruct Hr2 as (E1 & E2 & E3); unfold rexx_set; by rewrite E1, E2, E3|by eexists|by eexists|by eapply all_free_mb|by eapply all_free_wb].
    unfold timer_ok. rewrite !(same_at _ _ _ _ Hs3) by done. done. }
  destruct okr; cbn [negb].
  2:{ bstep. exists P2. split_and!; try done. apply (Hk2 _ [] []). apply none_free; try done. constructor; simpl; try done. constructor. }
  destruct (mb_AllocMBufs_free (rs_mbufs m) (junk m) MBufs) as (okm & mb & mf & Em & Hmb & Hnum); [apply Hm|apply Hm|done|].
  bstep. eapply does_opt; [exact Em|].
  destruct (wc_AllocWBufs_free (rs_wbufs m) (set_MBufs mb (start_global s)) mf 16 Hmb Hnum eq_refl (mk_wbufs _ Hm)) as (okw & g & hf & Ew & Hg & (Eg & Ewl & _) & _); [done|].
  bstep. eapply does_opt; [exact Ew|]. bstep. exists P2. split; [done|]. split; [by eapply Hk2|]. split; [done|].
  intros v [= <-]. constructor; simpl; [done|by rewrite Eg, Ewl|by exists ca, cd|by exists mf, hf].
Qed.
End Init.

(** What is not given back: the name of the user and the credentials in CRED,
    and the mount, if the mount daemon was not reached. *)
Definition left_over : list resource := [R_UserName; R_UserAuth; R_Mount].
Definition gone (l : Ledger) : Prop := forall r, r ∉ left_over -> l_held l r = 0%nat.

Record mount_ok (P : resource -> bool) : Prop := {
  mo_auth : P R_MntAuth = true -> P R_MntClnt = true;
  mo_mount : P R_Mount = true -> P R_MntClnt = true
}.

Section Exit.
Context (m : Machine).
Implicit Types (P H : resource -> bool) (l : Ledger).

(** Without the connection to the server. *)
Definition mount_parts : list resource := [R_MntClnt; R_MntAuth; R_Mount; R_NFSClnt].
Definition unmounted P H : Prop := forall r, H r = (if bool_decide (r ∈ mount_parts) then bool_decide (r = R_Mount) && H r else has 0 P r).

Lemma G_UnMount_ok P l : owns 0 P l -> mount_ok P ->
  does (G_UnMount m) l (fun _ l' => exists H P', ledger_is H P' l' /\ unmounted P H /\ same_but mount_parts P P').
Proof.
  intros Hl [Ha Hmt]. unfold owns in Hl. unfold G_UnMount. bstep. bstep. bstep.
  assert (Hlast : forall H1 P1 l1, ledger_is H1 P1 l1 -> (forall r, r ∉ mount_parts -> H1 r = has 0 P r) -> H1 R_MntClnt = false -> H1 R_MntAuth = false ->
    H1 R_NFSClnt = P R_NFSClnt -> P1 R_NFSClnt = P R_NFSClnt -> same_but mount_parts P P1 ->
    does (p ← ptr R_NFSClnt; if (p : bool) then _ ← give_back R_NFSClnt; set_ptr R_NFSClnt false else mret tt) l1
      (fun _ l' => exists H P', ledger_is H P' l' /\ unmounted P H /\ same_but mount_parts P P')).
  { intros H1 P1 l1 Hl1 Hout H2 H3 H4 H5 Hs. bstep. bstep. rewrite H5. destruct (P R_NFSClnt) eqn:En.
    - bstep. bstep; [done|]. bstep. eexists _, _. split; [exact Hl1|]. split.
      + intros r. unfold upd. destruct (bool_decide_reflect (r ∈ mount_parts)) as [Hin|Hin].
        * destruct r; try done; (contradict Hin; by apply nonmember).
        * destruct (decide (r = R_NFSClnt)) as [->|]; [exfalso; apply Hin; by apply member|by apply Hout].
      + intros r Hr. rewrite upd_ne; [by apply Hs|]. intros ->. apply Hr. by apply member.
    - bstep. exists H1, P1. split; [done|]. split; [|done]. intros r. destruct (bool_decide_reflect (r ∈ mount_parts)) as [Hin|Hin]; [|by apply Hout].
      destruct r; simpl; try done; (contradict Hin; by apply nonmember). }
  destruct (P R_MntClnt) eqn:Ec.
  - bstep. bstep. bstep.
    assert (Hrest : forall hm l1, ledger_is (upd (has 0 P) R_Mount hm) P l1 ->
      does (_ ← free_if R_MntAuth; _ ← give_back R_MntClnt; set_ptr R_MntClnt false) l1
        (fun _ l' => does (p ← ptr R_NFSClnt; if (p : bool) then _ ← give_back R_NFSClnt; set_ptr R_NFSClnt false else mret tt) l'
           (fun _ l' => exists H P', ledger_is H P' l' /\ unmounted P H /\ same_but mount_parts P P'))).
    { intros hm l1 Hl1. clear Hl. bstep. bstep; [done|]. bstep. bstep; [done|]. bstep. eapply Hlast; [exact Hl1| |done| |done|done|].
      - intros r Hr. rewrite !upd_ne; [done|intros ->; apply Hr; by apply member..].
      - change (P R_MntAuth && negb (P R_MntAuth) = false). apply andb_negb_r.
      - intros r Hr. rewrite upd_ne; [done|intros ->; apply Hr; by apply member]. }
    destruct (P R_Mount) eqn:Em.
    + bstep. bstep. destruct b.
      * bstep; [done|]. by apply (Hrest false).
      * bstep. apply (Hrest true). eapply ledger_ext; [exact Hl| |done]. intros r. by destruct r.
    + bstep. apply (Hrest false). eapply ledger_ext; [exact Hl| |done]. intros r. by destruct r.
  - bstep. eapply Hlast; [exact Hl|done|done| |done|done|done]. simpl. destruct (P R_MntAuth); [by specialize (Ha eq_refl)|done].
Qed.

(** Of [H], the resources in [S] have been freed; the pointers stay. *)
Definition freed H P (S : list resource) l : Prop := ledger_is (fun r => negb (bool_decide (r ∈ S)) && H r) P l.

Lemma freed_give H P S l r (Q : unit -> Ledger -> Prop) : freed H P S l -> bool_decide (r ∈ S) = false -> H r = true ->
  (forall l', freed H P (r :: S) l' -> Q tt l') -> does (give_back r) l Q.
Proof.
  intros Hl Hr Hh HQ. eapply does_give_back; [exact Hl|cbn beta; by rewrite Hr, Hh|]. intros l' Hl'. apply HQ.
  eapply ledger_ext; [exact Hl'| |done]. intros r'. unfold upd. destruct (decide (r' = r)) as [->|Hne].
  - rewrite bool_decide_eq_true_2; [done|left].
  - f_equal. f_equal. apply bool_decide_ext. rewrite elem_of_cons. tauto.
Qed.
Lemma freed_skip H P S l r : freed H P S l -> H r = false -> freed H P (r :: S) l.
Proof.
  intros Hl Hh. eapply ledger_ext; [exact Hl| |done]. intros r'. destruct (decide (r' = r)) as [->|Hne]; [by rewrite Hh, !andb_false_r|].
  f_equal. f_equal. apply bool_decide_ext. rewrite elem_of_cons. tauto.
Qed.
(** [if(p) { ...; free(p); }] *)
Lemma freed_next {A} H P S l r (pre : B unit) (rest : B A) Q : freed H P S l -> bool_decide (r ∈ S) = false -> P r = H r ->
  (H r = true -> pre l = Some (tt, l)) ->
  (forall l', freed H P (r :: S) l' -> does rest l' Q) ->
  does (p ← ptr r; _ ← (if (p : bool) then _ ← pre; give_back r else mret tt); rest) l Q.
Proof.
  intros Hl Hr Hp Hpre HQ. bstep. eapply does_ptr; [exact Hl|]. rewrite Hp. destruct (H r) eqn:Hh.
  - bstep. bstep. exists tt, l. split; [by apply Hpre|]. by eapply freed_give.
  - bstep. bstep. apply HQ. by apply freed_skip.
Qed.
Lemma freed_free {A} H P S l r (rest : B A) Q : freed H P S l -> bool_decide (r ∈ S) = false -> P r = H r ->
  (forall l', freed H P (r :: S) l' -> does rest l' Q) -> does (_ ← free_if r; rest) l Q.
Proof.
  intros Hl Hr Hp HQ. destruct (freed_next H P S l r (mret tt) rest Q Hl Hr Hp) as (x & l' & E & Hx); [done|done|].
  exists x, l'. split; [|done]. unfold free_if. unfold mbind, B_bind, ptr, mret, B_ret in *. destruct (l_ptr l r); exact E.
Qed.

Lemma dir_DeleteAll_all DH : dir_DeleteAll DH = [].
Proof. by induction DH as [|[a e] DH IH]. Qed.

(** What is left after G_UnMount is freed but for [left_over]. *)
Lemma G_CleanUp_ok DH k P H P' l : ledger_is H P' l -> unmounted P H -> same_but mount_parts P P' -> kept_ok k P -> P R_Volume = false ->
  P R_TimerPkt = false -> P R_TimerReq = false ->
  does (G_CleanUp [] DH k) l (fun _ l' => gone l').
Proof.
  intros Hl Hu Hs [Ht (_ & Hr2 & Hr3) Ha Hd [mb Hmb] [g Hwb]] Hv Htp Htr.
  assert (HH : forall r, bool_decide (r ∈ mount_parts) = false -> H r = has 0 P r) by (intros r Hr; by rewrite Hu, Hr).
  assert (HM : forall r, bool_decide (r ∈ mount_parts) = true -> r <> R_Mount -> H r = false) by (intros r Hr Hne; by rewrite Hu, Hr, bool_decide_eq_false_2).
  assert (HP : forall r, bool_decide (r ∈ mount_parts) = false -> has 0 P r = P r -> P' r = H r).
  { intros r Hr Hhr. rewrite HH, Hhr by done. by apply (same_at _ _ _ _ Hs). }
  assert (Hf : freed H P' [] l) by (eapply ledger_ext; [exact Hl|done|done]). clear Hl.
  unfold G_CleanUp. cbv zeta. rewrite dir_DeleteAll_all. bstep. exists tt, l. split; [done|]. bstep. exists tt, l. split; [done|].
  bstep. eapply does_opt; [exact Hmb|]. bstep. eapply does_opt; [exact Hwb|].
  assert (Hlast : forall l, freed H P' [R_ARexx; R_RexxLib; R_RexxPort] l ->
    does (p ← ptr R_AttrCache;
      _ ← (if (p : bool) then _ ← clean_attrs k; give_back R_AttrCache else mret tt);
      p ← ptr R_DirCache;
      _ ← (if (p : bool) then _ ← clean_dirs k; give_back R_DirCache else mret tt);
      p ← ptr R_Port;
      _ ← (if (p : bool) then _ ← not_pending; give_back R_Port else mret tt);
      _ ← free_if R_Dev; _ ← free_if R_Host; _ ← free_if R_RootDir; _ ← free_if R_VolumeName; _ ← free_if R_DeviceName;
      _ ← free_if R_Utility; mret tt) l (fun _ l' => gone l')).
  { clear l Hf. intros l Hf.
    eapply freed_next; [exact Hf|done|by apply HP| |].
    { rewrite HH by done. intros Hc. destruct (Ha Hc) as (c & Ec & h & Eh). unfold clean_attrs, mbind, B_bind, of_opt. rewrite Ec. simpl. by rewrite Eh. }
    clear l Hf. intros l Hf. eapply freed_next; [exact Hf|done|by apply HP| |].
    { rewrite HH by done. intros Hc. destruct (Hd Hc) as (c & Ec & h & Eh). unfold clean_dirs, mbind, B_bind, of_opt. rewrite Ec. simpl. by rewrite Eh. }
    clear l Hf. intros l Hf. eapply freed_next; [exact Hf|done|by apply HP| |].
    { intros _. unfold not_pending. rewrite (proj1 (Hf R_TimerIO)), HH by done. done. }
    clear l Hf. intros l Hf.
    do 6 (eapply freed_free; [exact Hf|done|by apply HP|clear l Hf; intros l Hf]).
    bstep. intros r Hr. rewrite (proj1 (Hf r)). unfold left_over in Hr.
    destruct r; simpl; try done; try (by rewrite HM); try (by rewrite HH by done; simpl; rewrite ?Htp, ?Htr, ?Hv).
    all: exfalso; apply Hr; by apply member. }
  bstep. unfold FreeARexx. bstep. eapply does_ptr; [apply Hf|]. rewrite (HP R_ARexx), HH by done. simpl. destruct (P R_ARexx) eqn:Er.
  - unfold free_context. eapply freed_free; [exact Hf|done|by apply HP|]. clear l Hf. intros l Hf.
    eapply freed_free; [exact Hf|done|by apply HP|]. clear l Hf. intros l Hf.
    eapply freed_give; [exact Hf|done|by rewrite HH|]. clear l Hf. intros l Hf. by apply Hlast.
  - bstep. apply Hlast. apply freed_skip; [|by rewrite HH]. apply freed_skip; [|rewrite HH by done; simpl; congruence].
    apply freed_skip; [done|rewrite HH by done; simpl; congruence].
Qed.

(** From the label exit on. *)
Lemma do_exit_ok (TimerUp : bool) DH k P l : owns (k_Flags k) P l -> kept_ok k P -> mount_ok P -> P R_Volume = false ->
  (TimerUp = false -> k_Flags k = 0 /\ P R_TimerPkt = false /\ P R_TimerReq = false) ->
  does (do_exit m TimerUp [] DH k) l (fun _ l' => gone l').
Proof.
  intros Hl Hk Hmt Hv Ht. unfold do_exit. bstep.
  assert (Hgo : forall P1 l1, owns 0 P1 l1 -> (forall r, r ∉ timer_parts -> P1 r = P r) -> P1 R_TimerPkt = false -> P1 R_TimerReq = false ->
    does (_ ← G_UnMount m; G_CleanUp [] DH (MkKept (k_Attr k) (k_Dir k) (k_g k) 0)) l1 (fun _ l' => gone l')).
  { intros P1 l1 Hl1 Hs Hp Hr. assert (He : forall r, bool_decide (r ∈ timer_parts) = false -> P1 r = P r) by (intros r Hn; by apply Hs, nonmember).
    bstep. eapply does_mono; [apply (G_UnMount_ok P1); [exact Hl1|]|].
    - destruct Hmt as [Ha Hm]. constructor; by rewrite !He.
    - simpl. intros [] l2 (H & P' & Hl2 & Hu & Hsm). eapply G_CleanUp_ok; [exact Hl2|exact Hu|exact Hsm| |by rewrite He|done|done].
      destruct Hk as [_ Hrx Ha Hd Hmb Hwb]. constructor; simpl; rewrite ?He by done; try done; [by left|].
      unfold rexx_set. by rewrite !He. }
  destruct TimerUp.
  - eapply does_mono; [by apply ti_Cleanup_owns; [exact Hl|apply Hk]|]. simpl. intros f l1 [-> Hl1]. eapply Hgo; [exact Hl1| |done|done].
    intros r Hr. unfold without. by rewrite bool_decide_eq_false_2.
  - destruct (Ht eq_refl) as (Hf & Hp & Hr). bstep. rewrite Hf in Hl |- *. eapply Hgo; [exact Hl|done|done|done].
Qed.
End Exit.
