(* ===== verification/StartThm.v ===== *)
(** * Theorems about start-up and exit

    What the arguments are made of; nothing is leaked or given back twice on
    any path through main(); what is ready when the loop begins. *)
From S2P Require Import Prelude MBuf WBufInfo NfsProt NfsSupp Nfs NfsServer NfsLookup Global WBuf RBuf FtHash DCache.
From S2P Require Import FileHandle Dirs HState Fn Walk Find Fib Examine ExAll Object Cred Volume IoCtl Actions Main.
From S2P Require Import WBufRep WBufThm FtHashSpec FtHashOps DCacheThm CredThm.
From S2P Require Import Xdr NfsXdr Udp UdpRun Stubs NfsNet UdpCalls UdpServer Start Run StartSpec.

(** ** ParseArgs *)

Lemma strchr_range s c i : strchr s c = Some i -> 0 <= i < zlen s.
Proof.
  revert i. induction s as [|b s IH]; simpl; intros i; [done|]. rewrite zlen_cons. case_bool_decide; [intros [= <-]; pose proof (zlen_nonneg s); lia|].
  intros (j & Hj & ->)%fmap_Some. specialize (IH j Hj). lia.
Qed.
Lemma strchr_None s c : strchr s c = None -> c ∉ s.
Proof.
  induction s as [|b s IH]; simpl; [by intros _ ?%elem_of_nil|]. case_bool_decide as Hb; [done|]. destruct (strchr s c); [done|].
  intros _ [->|Hin]%elem_of_cons; [done|]. by apply IH.
Qed.
Lemma strchr_before s c i : strchr s c = Some i -> c ∉ take (Z.to_nat i) s.
Proof.
  revert i. induction s as [|b s IH]; simpl; intros i; [done|]. case_bool_decide as Hb; [intros [= <-]; by intros ?%elem_of_nil|].
  intros (j & Hj & ->)%fmap_Some. pose proof (strchr_range _ _ _ Hj). replace (Z.to_nat (1 + j)) with (S (Z.to_nat j)) by lia. simpl.
  intros [->|Hin]%elem_of_cons; [done|]. by eapply IH.
Qed.
Lemma strchr_at s c i : strchr s c = Some i -> s = take (Z.to_nat i) s ++ c :: drop (Z.to_nat (i + 1)) s.
Proof.
  revert i. induction s as [|b s IH]; simpl; intros i; [done|]. case_bool_decide as Hb; [intros [= <-]; by subst b|].
  intros (j & Hj & ->)%fmap_Some. pose proof (strchr_range _ _ _ Hj). replace (Z.to_nat (1 + j)) with (S (Z.to_nat j)) by lia.
  replace (Z.to_nat (1 + j + 1)) with (S (Z.to_nat (j + 1))) by lia. simpl. f_equal. by apply IH.
Qed.

Lemma no_colons_colon s : colon ∉ no_colons s.
Proof.
  induction s as [|b s IH]; simpl; [by intros ?%elem_of_nil|]. case_bool_decide as Hb.
  - destruct s; [by intros ?%elem_of_nil|]. by intros [?|?]%elem_of_cons.
  - intros [E|?]%elem_of_cons; [by apply Hb|done].
Qed.
Lemma no_slashes_slash s : slash ∉ no_slashes s /\ (colon ∉ s -> colon ∉ no_slashes s).
Proof.
  unfold no_slashes. split.
  - intros (b & Hb & _)%list_elem_of_fmap. revert Hb. case_bool_decide; [done|]. congruence.
  - intros Hc (b & Hb & Hin)%list_elem_of_fmap. revert Hb. case_bool_decide; [done|]. congruence.
Qed.
Lemma volume_name_ok s : colon ∉ volume_name s /\ slash ∉ volume_name s /\ zlen (volume_name s) <= 250.
Proof.
  unfold volume_name. destruct (no_slashes_slash (no_colons s)) as [Hs Hc]. specialize (Hc (no_colons_colon s)).
  set (l := no_slashes (no_colons s)) in *. destruct (Z.gtb_spec (zlen l) 250) as [Hl|Hl]; [|by split_and!].
  split_and!; [intros Hin; apply Hc; by eapply subseteq_take|intros Hin; apply Hs; by eapply subseteq_take|].
  unfold zlen. rewrite length_take. lia.
Qed.

(** The digits are read as octal ones, the last three of them. *)
Lemma umask_of_digits a b c : 0 <= a < 8 -> 0 <= b < 8 -> 0 <= c < 8 -> forall n, umask_of (1000 * Z.abs n + 100 * a + 10 * b + c) = 64 * a + 8 * b + c.
Proof.
  intros Ha Hb Hc n. unfold umask_of.
  replace ((1000 * Z.abs n + 100 * a + 10 * b + c) / 100) with (10 * Z.abs n + a) by (Z.div_mod_to_equations; lia).
  replace ((1000 * Z.abs n + 100 * a + 10 * b + c) / 10) with (100 * Z.abs n + 10 * a + b) by (Z.div_mod_to_equations; lia).
  replace ((10 * Z.abs n + a) mod 10) with a by (Z.div_mod_to_equations; lia).
  replace ((100 * Z.abs n + 10 * a + b) mod 10) with b by (Z.div_mod_to_equations; lia).
  replace ((1000 * Z.abs n + 100 * a + 10 * b + c) mod 10) with c by (Z.div_mod_to_equations; lia).
  change 7 with (Z.ones 3). rewrite !Z.land_ones by lia. rewrite !Z.mod_small by lia. lia.
Qed.

(** What is known of settings. *)
Record settings_of (a : Args) (s : Settings) : Prop := {
  so_remote : RemoteDevice a = s_Host s ++ colon :: s_RootDir s /\ s_Host s <> [] /\ colon ∉ s_Host s /\ s_RootDir s <> [];
  so_volume : s_VolumeName s = volume_name (LocalDevice a);
  so_device : exists rest, LocalDevice a = s_DeviceName s ++ rest /\ s_DeviceName s <> [] /\ colon ∉ s_DeviceName s /\ slash ∉ s_DeviceName s;
  so_sizes : let ng := s_NFSGlobal s in
    256 <= ng_MaxReadSize ng <= NFS_MAXDATA /\ 256 <= ng_MaxReadDirSize ng <= NFS_MAXDATA /\ 256 <= ng_MaxWriteSize ng <= NFS_MAXDATA /\
    ng_NumRRPCs ng = (if ASyncRPC a then 2 else 1) /\ ng_NumWRPCs ng = ng_NumRRPCs ng;
  so_times : 0 <= s_AttrCacheTimeout s <= 3600 /\ 0 <= s_DirCacheTimeout s <= 3600 /\ 25 <= s_RPCTimeout s <= 600;
  so_buffers : s_NumBuffers s = default 32 (Buffers a);
  so_limit : s_WriteBufferLimit s = 16384;
  so_creds : zlen (cr_GIDS (s_Creds s)) = NGROUPS /\ (cr_flag (s_Creds s) CRF_USER = true -> is_Some (cr_UserName (s_Creds s))) /\ cr_Auth (s_Creds s) = None
}.

Section ParseArgs.
Context (offers : nat -> bool) (ug : UserGroup).
Implicit Types (P : resource -> bool) (l : Ledger).

Definition names : list resource := [R_Host; R_RootDir; R_VolumeName; R_DeviceName; R_UserName].
Definition nothing : resource -> bool := fun _ => false.

(** The names so far, and the arguments, which ReadArgs has made. *)
Record parsing P l : Prop := { pa_held : ledger_is (upd (has 0 P) R_Args true) P l; pa_names : same_but names nothing P }.
Definition parsed (a : option Args) (x : option Settings) l : Prop :=
  exists P, owns 0 P l /\ same_but names nothing P /\ forall s, x = Some s -> exists a', a = Some a' /\ settings_of a' s.

Lemma parsing_set P l r b l' : parsing P l -> bool_decide (r ∈ names) = true -> P r = false ->
  ledger_is (upd (upd (has 0 P) R_Args true) r b) (upd P r b) l' -> parsing (upd P r b) l'.
Proof.
  intros [Hl Hn] Hr Hp Hl'. constructor.
  - eapply ledger_ext; [exact Hl'| |done]. intros r'. destruct r; try done; by destruct r'.
  - intros r' Hr'. rewrite upd_ne; [by apply Hn|]. intros ->. apply Hr'. by apply member.
Qed.
Lemma dup_ok P l r s n (Q : option (list byte) -> Ledger -> Prop) : parsing P l -> bool_decide (r ∈ names) = true -> P r = false -> 0 <= n <= zlen s ->
  (forall b l', parsing (upd P r b) l' -> Q (if b then Some (take (Z.to_nat n) s) else None) l') ->
  does (dup offers r s n) l Q.
Proof.
  intros Hp Hr Hz Hn HQ. unfold dup. bstep. eapply does_get; [apply Hp|destruct r; try done; exact Hz|]. intros b l' Hl'.
  eapply does_opt; [unfold StrNDup; by rewrite (proj2 (Z.leb_le 0 n)), (proj2 (Z.leb_le n _)) by lia|]. apply HQ. by eapply parsing_set.
Qed.
Lemma parse_end P l a x : parsing P l -> (forall s, x = Some s -> exists a', a = Some a' /\ settings_of a' s) ->
  does (_ ← give_back R_Args; mret x) l (parsed a).
Proof.
  intros [Hl Hn] Hx. bstep. bstep; [done|]. bstep. exists P. split; [|by split]. eapply ledger_ext; [exact Hl| |done]. intros r. by destruct r.
Qed.
Lemma parse_stop P l a : parsing P l -> does (_ ← give_back R_Args; mret None) l (parsed a).
Proof. intros Hp. by eapply parse_end. Qed.

(** The user is set, or there is none. *)
Lemma parse_user P l user (Q : bool * CRED -> Ledger -> Prop) : parsing P l -> P R_UserName = false ->
  (forall r cr P' l', parsing P' l' -> zlen (cr_GIDS cr) = NGROUPS -> cr_Auth cr = None ->
     (is_Some user -> r = true -> is_Some (cr_UserName cr)) -> (user = None -> cr = no_cred) -> Q (r, cr) l') ->
  does (match user with
        | None => mret (true, no_cred)
        | Some user =>
            ok ← ask offers;
            let '(r, cr) := cr_SetUser ug ok no_cred user in
            _ ← (if (r : bool) then _ ← hold R_UserName; set_ptr R_UserName true else mret tt);
            mret (r, cr)
        end) l Q.
Proof.
  intros Hp Hz HQ. destruct user as [user|].
  - bstep. eapply does_ask; [apply Hp|]. intros ok l1 Hl1. destruct (cr_SetUser ug ok no_cred user) as [r cr] eqn:E.
    assert (Hcr : zlen (cr_GIDS cr) = NGROUPS /\ cr_Auth cr = None /\ (r = true -> is_Some (cr_UserName cr))).
    { unfold cr_SetUser in E. destruct ok; [|by injection E as <- <-]. destruct (ug_passwd ug user) as [[uid gid]|]; injection E as <- <-; [|done].
      split; [done|]. split; [done|]. intros _. by eexists. }
    destruct Hcr as (Hg & Ha & Hu). bstep. destruct r.
    + bstep. bstep; [exact Hz|]. bstep. bstep. apply (HQ true cr (upd P R_UserName true)); [|done|done|intros _; exact Hu|done].
      destruct Hp as [Hlp Hn]. by apply (parsing_set P l).
    + bstep. bstep. apply (HQ false cr P); [|done|done|done|done]. constructor; [done|apply Hp].
  - bstep. apply (HQ true no_cred P); [done|done|done|intros [? E]; discriminate E|done].
Qed.

Lemma clamp_ok lo hi i : lo <= hi -> lo <= clamp lo hi i <= hi.
Proof. unfold clamp. lia. Qed.
Lemma size_arg_ok i : 256 <= size_arg i <= NFS_MAXDATA.
Proof. unfold size_arg. destruct i; [by apply clamp_ok|done]. Qed.

(** The part before the first colon is the device. *)
Lemma device_name s : let l := default (zlen s) (strchr s colon) in
  0 <= l <= zlen s /\ colon ∉ take (Z.to_nat l) s.
Proof.
  simpl. destruct (strchr s colon) as [i|] eqn:E; simpl.
  - split; [pose proof (strchr_range _ _ _ E); lia|by eapply strchr_before].
  - split; [pose proof (zlen_nonneg s); lia|]. intros Hin. apply (strchr_None _ _ E). by eapply subseteq_take.
Qed.
Lemma no_strchr s c : ~ is_Some (strchr s c) -> c ∉ s.
Proof. intros Hn. apply strchr_None. by apply eq_None_not_Some. Qed.

Lemma take_some {A} n (l : list A) : 0 < n <= zlen l -> take (Z.to_nat n) l <> [].
Proof. intros Hn E. apply (f_equal length) in E. rewrite length_take in E. unfold zlen in Hn. simpl in E. lia. Qed.

Lemma ParseArgs_ok args hostname_ok l : ledger_is nothing nothing l -> does (ParseArgs offers ug args hostname_ok) l (parsed args).
Proof.
  intros Hl. unfold ParseArgs. destruct args as [a|].
  2:{ bstep. exists nothing. split; [|by split]. eapply ledger_ext; [exact Hl| |done]. intros r. by destruct r. }
  bstep. bstep; [done|]. cbv zeta. set (Flags := if ASyncRPC a then _ else _). clearbody Flags.
  assert (Hp : parsing nothing l') by (constructor; [eapply ledger_ext; [exact Hl| |done]; intros r; by destruct r|done]). clear Hl.
  revert Hp. generalize l'. clear l' l. intros l Hp.
  destruct (strchr (RemoteDevice a) colon) as [s|] eqn:Es; [|by eapply parse_stop].
  pose proof (strchr_range _ _ _ Es) as Hs.
  destruct (Z.eqb_spec s 0) as [|Hs0]; [by eapply parse_stop|]. destruct (Z.eqb_spec (s + 1) (zlen (RemoteDevice a))) as [|Hs1]; [by eapply parse_stop|].
  cbn [orb]. set (dir := drop _ (RemoteDevice a)). pose proof (zlen_nonneg dir). pose proof (zlen_nonneg (LocalDevice a)).
  bstep. eapply dup_ok; [exact Hp|done|done|lia|]. clear l Hp. intros bh l Hp.
  bstep. eapply dup_ok; [exact Hp|done|done|lia|]. clear l Hp. intros bd l Hp.
  bstep. eapply dup_ok; [exact Hp|done|done|lia|]. clear l Hp. intros bv l Hp.
  destruct (device_name (LocalDevice a)) as [Hn1 Hn2]. set (n := default _ (strchr (LocalDevice a) colon)) in *. clearbody n.
  set (P := upd _ R_VolumeName bv) in *. assert (Hz : P R_DeviceName = false /\ P R_UserName = false) by done. clearbody P. destruct Hz as [Hzd Hzu].
  bstep. eapply does_mono with (Q := fun d l => exists P, parsing P l /\ P R_UserName = false /\
    forall x, d = Some x -> n <> 0 /\ x = take (Z.to_nat n) (LocalDevice a)).
  { destruct (Z.eqb_spec n 0).
    - bstep. by exists P.
    - eapply dup_ok; [exact Hp|done|done|done|]. intros b l1 Hp1. exists (upd P R_DeviceName b). split; [done|]. split; [done|].
      destruct b; [by intros x [= <-]|done]. }
  clear l Hp P Hzd Hzu. intros Dev l (P & Hp & Hzu & Hdev).
  bstep. eapply parse_user; [exact Hp|exact Hzu|]. clear P l Hp Hzu. intros ok cr P l Hp Hg Ha Hu Hno.
  destruct ok; cbn [negb]; [|by eapply parse_stop].
  rewrite (take_ge dir), (take_ge (LocalDevice a) (Z.to_nat (zlen _))) by (unfold zlen; lia).
  destruct bh, bd, bv, Dev as [d|]; try by eapply parse_stop. destruct (Hdev d eq_refl) as [Hn0 ->]. clear Hdev.
  case_bool_decide as Hsl; [by eapply parse_stop|]. rewrite (proj2 (Z.eqb_neq n 0)) by done. destruct hostname_ok; [cbn [negb orb]|by eapply parse_stop].
  destruct (match MntUser a with Some name => ug_passwd ug name | None => Some (0, 0) end) as [[uid gid]|]; [|by eapply parse_stop].
  eapply parse_end; [exact Hp|]. intros st [= <-]. exists a. split; [done|].
  constructor; simpl; [| | | | | |done|].
  - pose proof (strchr_at _ _ _ Es) as E. split; [exact E|]. split; [apply take_some; lia|]. split; [by eapply strchr_before|].
    intros Ed. apply (f_equal length) in Ed. unfold dir in Ed. rewrite length_drop in Ed. unfold zlen in *. simpl in Ed. lia.
  - done.
  - exists (drop (Z.to_nat n) (LocalDevice a)). rewrite take_drop. split; [done|]. split; [apply take_some; lia|]. split; [done|by apply no_strchr].
  - pose proof (size_arg_ok (MaxReadSize a)). pose proof (size_arg_ok (MaxReadDirSize a)). pose proof (size_arg_ok (MaxWriteSize a)).
    split_and!; lia || done.
  - split; [|split].
    + destruct (AttrCacheTimeout a); [by apply clamp_ok|done].
    + destruct (DirCacheTimeout a); [by apply clamp_ok|done].
    + destruct (RPCTimeout a); [by apply clamp_ok|done].
  - done.
  - destruct (UMask a); simpl; (split; [done|]); (split; [|done]).
    + destruct (User a); [intros _; by apply Hu; [eexists|]|]. rewrite (Hno eq_refl). done.
    + destruct (User a); [intros _; by apply Hu; [eexists|]|]. rewrite (Hno eq_refl). done.
Qed.

Lemma names_only P l : owns 0 P l -> same_but names nothing P -> forall r, l_held l r <> 0%nat -> r ∈ names.
Proof.
  intros Hl Hs r. rewrite (proj1 (Hl r)). destruct (bool_decide_reflect (r ∈ names)) as [|Hn]; [done|].
  intros Hh. exfalso. apply Hh. pose proof (Hs r Hn) as Hp. unfold nothing in Hp. destruct r; simpl; try done; by rewrite Hp.
Qed.

(** C22: Whatever the command line is, the settings made of it are well-formed:
    host and directory are the parts of the first argument before and behind
    its first colon, neither empty; the device has no colon and no slash, the
    volume's name none and not more than 250 characters; sizes, timeouts and
    numbers of requests are within their bounds.  No more than the names made
    are held then, and nothing but names if the arguments are refused. *)
Theorem ParseArgs_settings args hostname_ok : exists x l,
  ParseArgs offers ug args hostname_ok no_resources = Some (x, l) /\
  (forall r, l_held l r <> 0%nat -> r ∈ names) /\
  forall s, x = Some s -> exists a, args = Some a /\ settings_of a s /\
    colon ∉ s_VolumeName s /\ slash ∉ s_VolumeName s /\ zlen (s_VolumeName s) <= 250.
Proof.
  destruct (ParseArgs_ok args hostname_ok no_resources) as (x & l & E & P & Hl & Hs & Hx); [done|]. exists x, l. split; [done|]. split.
  - by eapply names_only.
  - intros s Es. destruct (Hx s Es) as (a & Ea & Hset). exists a. split; [done|]. split; [done|].
    rewrite (so_volume _ _ Hset). apply volume_name_ok.
Qed.
End ParseArgs.

(** ** G_Mount *)

Section Mount.
Context {N : Type} `{RpcLib AUTH} `{Net N} `{Requester N} `{NfsRpc (Rpc AUTH N)} (m : Machine).
Abbreviation CLIENT := (CLIENT AUTH xdrproc).
Implicit Types (P : resource -> bool) (l : Ledger) (cl : CLIENT).

(** The memory of the handle can be had, and the task does not belong to more
    groups than a CRED has room for. *)
Record reachable : Prop := {
  rc_handle : (sys_mem (rpc_sys m)).1.1 = true;
  rc_groups creds : ug_creds (ug m) (task m) = Some creds -> zlen (cr_groups creds) <= NGROUPS
}.

Lemma clnt_acreate_total (sys : System AUTH) h prog vers : (sys_mem sys).1.1 = true ->
  exists r : option CLIENT, clnt_acreate sys h prog vers 3 = Some r.
Proof.
  intros Hs. unfold clnt_acreate. destruct h as [[ty a]|]; [|by eexists]. destruct (negb _); [by eexists|].
  unfold clntaudp_create, clntaudp_bufcreate. destruct (sys_mem sys) as [[b1 b2] b3]. simpl in Hs. subst b1.
  change (3 >? MAXASYNC) with false. change (3 =? 0) with false. cbn [negb].
  destruct (negb (b2 && b3)); [by eexists|]. destruct (_ =? 0); [by eexists|]. destruct (xdr_callhdr _ _ _ _); [|by eexists]. destruct (_ && _); by eexists.
Qed.
Lemma set_client_timeouts_ok secs cl :
  set_client_timeouts secs cl = Some (set_cu (set_mwait (TV (secs ÷ 5) 0) (set_total (TV secs 0) (cl_cu cl))) cl).
Proof. done. Qed.

(** What a mount is. *)
Record mounted (s : Settings) (v : Vol) (n : N) (v' : Vol) (c : Rpc AUTH N) : Prop := {
  mt_root : mnt m (s_RootDir s) = Some (0, m_MntFh (v_Mnt v'));
  mt_client : exists cl auth, clnt_acreate (rpc_sys m) (rpc_host m (s_Host s)) NFS_PROGRAM NFS_VERSION 3 = Some (Some cl) /\
    cr_Auth (v_Creds v') = Some auth /\
    nfs_GetAttr (m_MntFh (v_Mnt v')) (MkRpc (set_cu (set_mwait (TV (s_RPCTimeout s ÷ 5) 0) (set_total (TV (s_RPCTimeout s) 0) (cl_cu cl))) (set_auth auth cl)) (MkWorld n []) [] [] [])
      = (inr (m_MntAttr (v_Mnt v')), c);
  mt_creds : cred_ok (v_Creds v');
  mt_running : v_Running v' = v_Running v
}.

Definition mount_all : list resource := R_UserAuth :: mount_parts.
Record mounting flags P0 P l : Prop := {
  mi_owns : owns flags P l;
  mi_ok : mount_ok P;
  mi_same : same_but mount_all P0 P
}.
Definition mount_done flags P0 (s : Settings) v n (x : option (Vol * Rpc AUTH N)) l : Prop :=
  exists P, mounting flags P0 P l /\ forall v' c, x = Some (v', c) -> mounted s v n v' c.

Lemma mounting_stop flags P0 P l s v n : mounting flags P0 P l -> does (mret None) l (mount_done flags P0 s v n).
Proof. intros Hm. apply does_ret. by exists P. Qed.
Lemma mounting_hold {A} flags P0 P l r (rest : B A) Q : mounting flags P0 P l -> P r = false -> bool_decide (r ∈ [R_UserAuth; R_Mount; R_NFSClnt]) = true ->
  (r = R_Mount -> P R_MntClnt = true) ->
  (forall l', mounting flags P0 (upd P r true) l' -> does rest l' Q) -> does (_ ← hold r; _ ← set_ptr r true; rest) l Q.
Proof.
  intros [Hl [Ha Hmt] Hs] Hp Hr Hc HQ. unfold owns in Hl. bstep. bstep; [by destruct r|]. bstep. bstep. apply HQ. constructor.
  - eapply ledger_ext; [exact Hl| |done]. intros r'. destruct r; try done; by destruct r'.
  - constructor; destruct r; try done. intros _. by apply Hc.
  - intros r' Hr'. rewrite upd_ne; [by apply Hs|]. intros ->. apply Hr'. destruct r; try done; by apply member.
Qed.
Lemma mounting_ask {A} flags P0 P l (f : bool -> B A) Q : mounting flags P0 P l ->
  (forall b l', mounting flags P0 P l' -> does (f b) l' Q) -> does (b ← ask (offers m); f b) l Q.
Proof. intros [Hl Hok Hs] HQ. bstep. eapply does_ask; [exact Hl|]. intros b l' Hl'. apply HQ. by constructor. Qed.

Lemma G_Mount_ok flags P0 l s v n a : owns flags P0 l -> (forall r, bool_decide (r ∈ mount_all) = true -> P0 r = false) ->
  reachable -> settings_of a s -> v_Creds v = s_Creds s -> does (G_Mount m s v n) l (mount_done flags P0 s v n).
Proof.
  intros Hl Hz [Hh Hg] Hset Hcv. unfold owns in Hl. unfold G_Mount. bstep. bstep; [by apply Hz|]. rename b into ok.
  bstep. eapply does_mono with (Q := fun _ l' => ledger_is (upd (upd (has flags P0) R_MntClnt ok) R_MntAuth ok) (upd P0 R_MntAuth ok) l').
  { destruct ok.
    - bstep. bstep; [by apply Hz|]. by bstep.
    - bstep. eapply ledger_ext; [exact Hl| |]; intros r; destruct r; try done; by apply Hz. }
  clear l l' Hl. intros [] l Hl. bstep. bstep.
  destruct ok; cbn [negb].
  2:{ apply (mounting_stop _ _ P0). constructor; [|constructor; by rewrite Hz|done]. eapply ledger_ext; [exact Hl| |]; intros r; destruct r; try done; symmetry; by apply Hz. }
  bstep. bstep; [done|]. bstep. bstep; [done|]. rename b into ok. rename l'1 into l0.
  set (P := upd (upd P0 R_MntClnt true) R_MntAuth ok).
  assert (Hm : mounting flags P0 P l0).
  { constructor.
    - eapply ledger_ext; [exact Hl| |]; intros r; by destruct r.
    - constructor; [done|]. intros Hr. change (P0 R_Mount = true) in Hr. by rewrite Hz in Hr.
    - intros r Hr. unfold P. rewrite !upd_ne; [done|intros ->; apply Hr; by apply member..]. }
  assert (HzP : P R_Mount = false /\ P R_NFSClnt = false /\ P R_UserAuth = false /\ P R_MntClnt = true) by (repeat split; by apply Hz).
  clearbody P. destruct HzP as (Hz1 & Hz2 & Hz3 & Hmc). clear Hl. revert Hm. generalize l0. clear l l0. intros l Hm.
  destruct ok; cbn [negb]; [|by eapply mounting_stop].
  destruct (mnt m (s_RootDir s)) as [[st fh]|] eqn:Emnt; [|by eapply mounting_stop].
  destruct (Z.eqb_spec st 0) as [->|]; cbn [negb]; [|by eapply mounting_stop].
  eapply mounting_hold; [exact Hm|done|done|done|]. clear l Hm. intros l Hm.
  destruct (clnt_acreate_total (rpc_sys m) (rpc_host m (s_Host s)) NFS_PROGRAM NFS_VERSION Hh) as [[cl|] Ecl];
    bstep; (eapply does_opt; [exact Ecl|]); [|by eapply mounting_stop].
  eapply mounting_hold; [exact Hm|done|done|done|]. clear l Hm. intros l Hm.
  eapply mounting_ask; [exact Hm|]. clear l Hm. intros auth_ok l Hm. cbv beta.
  assert (Hcr : cred_ok (v_Creds v) /\ cr_Auth (v_Creds v) = None /\ (cr_flag (v_Creds v) CRF_USER = true -> is_Some (cr_UserName (v_Creds v)))).
  { rewrite Hcv. destruct (so_creds _ _ Hset) as (Hgi & Hu & Hau). split; [|done]. constructor; [done|]. rewrite Hau. done. }
  destruct Hcr as (Hcok & Hau & Hu). destruct (SetAuth_ok (ug m) auth_ok (v_Creds v) (task m) Hcok Hu Hg) as (ok & cr & Ecr & Hcr & _ & Haok).
  bstep. eapply does_opt; [unfold cr_UpdateAuth; rewrite Hau; exact Ecr|]. cbv beta iota.
  destruct (cr_Auth cr) as [auth|] eqn:Eauth; [|by eapply mounting_stop].
  eapply mounting_hold; [exact Hm|done|done|done|]. clear l Hm. intros l Hm.
  destruct ok; cbn [negb]; [|by eapply mounting_stop].
  bstep. eapply does_opt; [apply set_client_timeouts_ok|].
  destruct (nfs_GetAttr fh _) as [[e|attr] c] eqn:Eat; [by eapply mounting_stop|].
  apply does_ret. eexists. split; [exact Hm|]. intros v' c' [= <- <-]. constructor; simpl; [done| |done|done].
  exists cl, auth. by split_and!.
Qed.
End Mount.

(** ** main *)

Section MainFn.
Context {N : Type} `{RpcLib AUTH} `{Net N} `{Requester N} `{NfsRpc (Rpc AUTH N)} (m : Machine).
Implicit Types (P : resource -> bool) (l : Ledger).

(** Up to the loop; the settings, and what has been made and mounted. *)
Record ready (n : N) (v : Vol) (st : HState (Rpc AUTH N)) (d : Dispatch) (k : Kept) : Prop := {
  rd_dispatch : init_dispatch = Some d;
  rd_state : exists c a s v0 v1, first_state k c = Some st /\ args m = Some a /\ settings_of a s /\ made s v0 k /\ mounted m s v0 n v1 c /\
    v = set_running true (v_DoReply v1) v1
}.
Definition started_up (n : N) (TimerUp : bool) (x : sum bool (Vol * HState (Rpc AUTH N) * Dispatch) * bool * Kept) l : Prop :=
  match x with
  | (inl false, _, _) => exists P, owns 0 P l /\ same_but names nothing P
  | (inl true, up, k) => exists P, owns (k_Flags k) P l /\ kept_ok k P /\ mount_ok P /\ P R_Volume = false /\ (up = true \/ up = TimerUp)
  | (inr (v, st, d), _, k) => exists P, owns (k_Flags k) P l /\ kept_ok k P /\ mount_ok P /\ P R_Volume = true /\ ready n v st d k
  end.

Lemma not_mounted_ok flags P l : owns flags P l -> does (not_mounted m) l (fun _ l' => owns flags P l').
Proof.
  intros Hl. unfold owns in Hl. unfold not_mounted. bstep. bstep; [done|]. destruct b; cbn [negb].
  - bstep. bstep. bstep. bstep; [done|]. bstep. eapply ledger_ext; [exact Hl| |done]. intros r. by destruct r.
  - bstep. eapply ledger_ext; [exact Hl| |done]. intros r. by destruct r.
Qed.

Lemma start_up_ok TimerUp n l : machine_ok m -> reachable m -> ledger_is nothing nothing l ->
  does (start_up m TimerUp n) l (started_up n TimerUp).
Proof.
  intros Hm Hrc Hl. unfold start_up. cbv zeta. destruct (stacksize m <? 29000).
  { bstep. exists nothing. split; [|done]. eapply ledger_ext; [exact Hl| |done]. intros r. by destruct r. }
  bstep. eapply does_mono; [by apply ParseArgs_ok|]. clear l Hl. intros [s|] l (P0 & Hl & Hn & Hs).
  2:{ bstep. by exists P0. }
  destruct (Hs s eq_refl) as (a & Ea & Hset). clear Hs.
  assert (Hz : forall r, bool_decide (r ∈ names) = false -> P0 r = false) by (intros r Hr; by apply (same_at _ _ _ _ Hn)). clear Hn.
  bstep. eapply does_mono; [apply (G_Init_owns m Hm s P0)|].
  { exact Hl. }
  { intros r Hr. apply Hz. destruct r; try done; exfalso; revert Hr; by apply nonmember. }
  { rewrite (so_buffers _ _ Hset). destruct (Buffers a) as [nb|] eqn:Eb; simpl; [|done]. pose proof (mk_buffers _ Hm a nb Ea Eb). rewrite s32_id by lia. done. }
  clear l Hl. intros [v k] l (P & Hl & Hk & Hs & Hmade). simpl in Hl, Hk, Hmade.
  assert (Hmz : forall r, bool_decide (r ∈ mount_all) = true -> P r = false).
  { intros r Hr. rewrite (same_at _ _ _ _ Hs); [apply Hz|]; by destruct r. }
  assert (Hvz : P R_Volume = false) by (rewrite (same_at _ _ _ _ Hs); [by apply Hz|done]).
  assert (Hmo : mount_ok P) by (constructor; by rewrite !Hmz).
  destruct v as [v|]; [|bstep; exists P; by split_and!; try right].
  destruct init_dispatch as [d|] eqn:Ed; [|bstep; exists P; by split_and!; try left].
  bstep. eapply does_mono; [apply (G_Mount_ok m (k_Flags k) P l s v n a Hl Hmz Hrc Hset); by apply Hmade|].
  clear l Hl. intros r l (P1 & [Hl Hmo1 Hs1] & Hmt).
  assert (He : forall r, bool_decide (r ∈ mount_all) = false -> P1 r = P r) by (intros r' Hr; by apply (same_at _ _ _ _ Hs1)).
  assert (Hk1 : kept_ok k P1).
  { destruct Hk as [Ht Hr Ha Hd Hmb Hwb]. unfold timer_ok, rexx_set in *. constructor; unfold timer_ok, rexx_set; rewrite ?He by done; done. }
  assert (Hv1 : P1 R_Volume = false) by by rewrite He.
  assert (Hexit : forall l, owns (k_Flags k) P1 l -> does (mret (inl true, true, k)) l (started_up n TimerUp)).
  { intros l1 Hl1. bstep. exists P1. split_and!; try done. by left. }
  destruct r as [[v1 c]|]; [|by apply Hexit].
  bstep. eapply does_mono; [by apply not_mounted_ok|]. clear l Hl. intros ok l Hl. destruct ok; cbn [negb]; [|by apply Hexit].
  bstep. eapply does_mono; [by apply not_mounted_ok|]. clear l Hl. intros ok l Hl. destruct ok; cbn [negb]; [|by apply Hexit].
  bstep. unfold owns in Hl. bstep; [exact Hv1|].
  assert (Hlv : owns (k_Flags k) (upd P1 R_Volume b) l') by (eapply ledger_ext; [exact Hl| |done]; intros r; by destruct r).
  destruct b; cbn [negb].
  2:{ apply Hexit. eapply ledger_ext; [exact Hlv| |]; intros r; destruct r; done. }
  destruct (md_caches _ _ _ (Hmade v eq_refl)) as (ca & cd & Eca & Ecd & _).
  bstep. eapply does_opt; [unfold first_state; rewrite Eca, Ecd; reflexivity|]. bstep.
  exists (upd P1 R_Volume true). split; [exact Hlv|]. split; [|split; [by destruct Hmo1|split; [done|]]].
  { by destruct Hk1. }
  constructor; [done|]. exists c, a, s, v, v1. split; [unfold first_state; by rewrite Eca, Ecd|]. split_and!; try done; [by apply Hmade|by apply Hmt].
Qed.
End MainFn.
