(* ===== verification/LoopThm.v ===== *)
(** * Theorems about the loop of main()

    Packets and commands are served by handle_packet in the order they come in,
    and what the log has of each is what was stored and sent for it; none is lost.
    Only act_DIE ends the loop, and only when no lock and no open file is left. *)
From S2P Require Import Prelude MBuf WBufInfo NfsProt NfsSupp Nfs NfsServer NfsLookup Global WBuf RBuf FtHash DCache.
From S2P Require Import FileHandle Dirs HState Fn Walk Find Fib Examine ExAll Object Cred Volume IoCtl Actions Main.
From S2P Require Import Udp UdpRun Start Run TreeServer LockThm CredThm ActionsThm Keeps LockMgrThm.

Section Die.
Context {S : Type} `{NfsRpc S} `{DosNames} `{External} (E : Env).
Context (rs : nat -> option addr) (junk : list byte) (d : Dispatch).
Implicit Types (st : HState S) (v : Vol).

Definition same_run v v' : Prop := v_Running v' = v_Running v.
Definition same_reply v v' : Prop := v_DoReply v' = v_DoReply v.
Definition same_both v v' : Prop := same_run v v' /\ same_reply v v'.

Lemma ctl_set_both ug v code Buf : yields (S := S) (ctl_set E atoi strtol8 ug v code Buf) (same_both v).
Proof. unfold ctl_set. yields; done. Qed.
Lemma act_IOCONTROL_run ug v arg0 : yields (S := S) (act_IOCONTROL E stptok atoi strtol8 ug v arg0)
  (fun x => same_run v x.1 /\ match arg0 with None => same_reply v x.1 | Some _ => v_DoReply x.1 = false /\ is_Some x.2 end).
Proof.
  unfold act_IOCONTROL. destruct arg0 as [arg0|]; [|by yields]. cbv zeta. destruct (next_word stptok arg0) as [Buf s].
  eapply (yields_bind_of (fun r => match r with inr x => same_run v x.1 /\ v_DoReply x.1 = false | inl _ => True end)).
  - apply (yields_catch (fun x => same_run v x.1 /\ v_DoReply x.1 = false)). repeat (cbv beta zeta; lazymatch goal with
      | |- yields (match ?x with _ => _ end) _ => destruct x
      | |- yields (ctl_set _ _ _ _ _ _ _ ≫= _) _ => eapply yields_bind_of; [apply ctl_set_both|intros ? [??]]
      | |- yields (_ ≫= _) _ => apply yields_bind; intros ?
      | |- yields (mret _) _ => by apply yields_ret
      | |- yields (fail _) _ => apply yields_fail
      end).
  - intros r Hr. yields. destruct r as [|[v' r]]; simpl; [by split_and!|]. destruct Hr. by split_and!.
Qed.
Lemma act_MORE_CACHE_both Num v : yields (S := S) (act_MORE_CACHE E rs junk v Num) (same_both v).
Proof. unfold act_MORE_CACHE. yields; done. Qed.
Lemma act_RENAME_DISK_both v mem Arg1 : yields (S := S) (act_RENAME_DISK E v mem Arg1) (same_both v).
Proof.
  unfold act_RENAME_DISK. cbv zeta. eapply (yields_bind_of (same_both v)); [|intros v' Hv; by yields].
  yields; try done. by case_match; [case_match|].
Qed.
Lemma act_WRITE_PROTECT_both v Flag Key : yields (S := S) (act_WRITE_PROTECT v Flag Key) (same_both v).
Proof. unfold act_WRITE_PROTECT. yields; done. Qed.
Lemma act_TIMER_run v own : yields (S := S) (act_TIMER E v own)
  (fun x => same_run v x.1 /\ x.2 = own /\ v_DoReply x.1 = (if own then false else v_DoReply v)).
Proof. unfold act_TIMER. yields; done. Qed.

(** What a packet's function makes of the volume: no packet but DIE ends the loop, and
    no packet of a client goes without a reply; the command of an ARexx message is
    replied to there, and the timer's packet sent again. *)
Record call_kept (c : Client) v (F : ActionFunc) (x : Vol * list store) : Prop := {
  ck_run : F <> A_DIE -> same_run v x.1;
  ck_reply : cl_own c = false -> cl_arg0 c = None -> same_reply v x.1;
  ck_command : F = A_IOCONTROL -> is_Some (cl_arg0 c) -> v_DoReply x.1 = false /\ exists r, x.2 = [StReply r];
  ck_timer : F = A_TIMER -> cl_own c = true -> v_DoReply x.1 = false /\ x.2 = [StTimer]
}.
Lemma call_kept_same c v F v' out : same_both v v' -> F <> A_IOCONTROL -> F <> A_TIMER -> call_kept c v F (v', out).
Proof. by intros [??] ??. Qed.

Lemma act_DIE_reply v : yields (S := S) (act_DIE v) (fun x => same_reply v x.1).
Proof. unfold act_DIE. yields; done. Qed.

Lemma call_action_kept ug c v F pkt : yields (S := S) (call_action E rs junk ug c v F pkt) (call_kept c v F).
Proof.
  unfold call_action. cbv zeta. destruct F; try solve [yields; by apply call_kept_same].
  - eapply yields_bind_of; [apply act_DIE_reply|]. intros [v' died] Hv. by apply yields_ret.
  - eapply yields_bind_of; [apply act_RENAME_DISK_both|]. intros v' Hv. apply yields_ret. by apply call_kept_same.
  - eapply yields_bind_of; [apply act_MORE_CACHE_both|]. intros v' Hv. apply yields_ret. by apply call_kept_same.
  - eapply yields_bind_of; [apply act_TIMER_run|]. intros [v' again] (Hr & Hw & Hd); simpl in Hr, Hw, Hd; subst again. apply yields_ret. constructor; simpl in *; try done.
    + intros Ho. by rewrite Ho in Hd.
    + intros _ Ho. by rewrite Ho in Hd |- *.
  - eapply yields_bind_of; [apply act_IOCONTROL_run|]. intros [v' r] [Hr Hd]. apply yields_ret. constructor; simpl in *; try done.
    + intros _ Ha. by rewrite Ha in Hd.
    + intros _ [a Ha]. rewrite Ha in Hd. destruct Hd as [Hd [x ->]]. split; [done|]. by exists x.
  - eapply yields_bind_of; [apply act_WRITE_PROTECT_both|]. intros v' Hv. apply yields_ret. by apply call_kept_same.
Qed.

(** Nothing is in use. *)
Definition unused st : Prop := hs_Locks st = [] /\ h_FH (hs_h st) = [].
Lemma not_in_use st : IsInUse st = false -> unused st.
Proof.
  unfold IsInUse, unused. intros [Hl Hf]%orb_false_iff. apply negb_false_iff, bool_decide_eq_true in Hl, Hf. done.
Qed.
Lemma act_FLUSH_unused st r st' : unused st -> act_FLUSH st = Some (r, st') -> unused st'.
Proof.
  intros [Hl Hf]. unfold act_FLUSH. rewrite M_bind_eq. unfold on_handler, flush_all. rewrite Hf. cbn. intros [= <- <-]. by split.
Qed.
Lemma act_DIE_ends v st v' died st' : act_DIE v st = Some (inr (v', died), st') -> v_Running v = true -> v_Running v' = false -> unused st'.
Proof.
  unfold act_DIE. rewrite M_bind_eq. cbn [gets]. destruct (IsInUse st) eqn:Eu.
  - rewrite M_bind_eq. cbn. intros [= <- <- <-]. congruence.
  - rewrite M_bind_eq. destruct (act_FLUSH st) as [[[e|[]] st1]|] eqn:Ef; [done| |done]. intros [= <- <- <-] _ _.
    eapply act_FLUSH_unused; [by apply not_in_use|exact Ef].
Qed.

Lemma on_Attr_unused {A} (f : AttrCache -> option (A * AttrCache)) st r st' : unused st -> on_Attr f st = Some (r, st') -> unused st'.
Proof. intros Hu. unfold on_Attr. destruct (f _) as [[x c]|]; [|done]. by intros [= <- <-]. Qed.
Lemma on_Dir_unused {A} (f : DirCache -> option (A * DirCache)) st r st' : unused st -> on_Dir f st = Some (r, st') -> unused st'.
Proof. intros Hu. unfold on_Dir. destruct (f _) as [[x c]|]; [|done]. by intros [= <- <-]. Qed.
Lemma unlock_unused st r st' : unused st -> unlock_caches E st = Some (r, st') -> unused st'.
Proof.
  intros Hu. unfold unlock_caches. rewrite M_bind_eq. cbn [now]. rewrite M_bind_eq.
  destruct (on_Attr _ _) as [[[e|[]] st1]|] eqn:Ea; [|  |done]; apply on_Attr_unused in Ea; try done; [by intros [= <- <-]|].
  rewrite M_bind_eq. cbn [now]. by apply on_Dir_unused.
Qed.
Lemma update_auth_both ug auth_ok client v : yields (S := S) (update_auth ug auth_ok client v) (fun x => same_both v x.2).
Proof. unfold update_auth. yields; done. Qed.

(** The function that is called, and what it gives. *)
Lemma handle_packet_parts ug auth_ok c v pkt st v' out st' : handle_packet E rs junk ug auth_ok c d v pkt st = Some (inr (v', out), st') ->
  (same_both (set_running (v_Running v) true v) v' /\ out = [] /\
     (act_Prepare d (v_flag v GF_IS_WRITE_PROTECTED) pkt = Some None \/
      exists F pkt1, act_Prepare d (v_flag v GF_IS_WRITE_PROTECTED) pkt = Some (Some (F, false, pkt1)) /\ F <> A_IOCONTROL)) \/
  exists F Internal pkt1 v1 st1 st2, act_Prepare d (v_flag v GF_IS_WRITE_PROTECTED) pkt = Some (Some (F, Internal, pkt1)) /\
    same_both (set_running (v_Running v) true v) v1 /\
    call_action E rs junk ug c v1 F pkt1 st1 = Some (inr (v', out), st2) /\ (unused st2 -> unused st').
Proof.
  intros Hp. unfold handle_packet in Hp. cbv zeta in Hp. rewrite M_bind_eq in Hp. unfold of_option at 1 in Hp.
  change (v_flag (set_running (v_Running v) true v) GF_IS_WRITE_PROTECTED) with (v_flag v GF_IS_WRITE_PROTECTED) in Hp.
  destruct (act_Prepare _ _ _) as [prep|]; [|done]. cbn [mbind option_bind] in Hp. destruct prep as [[[F Internal] pkt1]|].
  2:{ rewrite M_bind_eq in Hp. cbn in Hp. injection Hp as <- <- <-. left. split_and!; [done|done|by left]. }
  rewrite M_bind_eq in Hp. set (auth := if _ && _ then _ else _) in Hp.
  assert (Ha : yields auth (fun x => same_both (set_running (v_Running v) true v) x.2 /\ (x.1 = true \/ (Internal = false /\ F <> A_IOCONTROL)))).
  { unfold auth. destruct (negb Internal && _) eqn:Ei; [|apply yields_ret; split; [done|by left]].
    apply andb_true_iff in Ei as [Ei%negb_true_iff EF%negb_true_iff%bool_decide_eq_false].
    intros s0 x s1 Hu. split; [|by right]. exact (update_auth_both ug auth_ok (cl_task c) (set_running (v_Running v) true v) _ _ _ Hu). }
  destruct (auth st) as [[[e|[ok v1]] st1]|] eqn:Ea; [done| |done]. destruct (Ha _ _ _ Ea) as [Hv1 Hok]. simpl in Hv1, Hok. destruct ok.
  2:{ injection Hp as <- <- <-. left. split_and!; [done|done|right]. destruct Hok as [?|[-> HF]]; [done|]. by exists F, pkt1. }
  rewrite M_bind_eq in Hp. destruct (call_action E rs junk ug c v1 F pkt1 st1) as [[[e|[v2 out2]] st2]|] eqn:Ec; [done| |done].
  rewrite M_bind_eq in Hp. destruct (action_result F st2) as [[[e|Res1] st3]|] eqn:Er; [done| |done].
  assert (st3 = st2) as -> by (unfold action_result in Er; rewrite M_bind_eq in Er; cbn in Er; by injection Er).
  rewrite M_bind_eq in Hp. destruct (unlock_caches E st2) as [[[e|[]] st4]|] eqn:Eu; [done| |done].
  assert (Hend : v' = v2 /\ out = out2 /\ (hs_Locks st' = hs_Locks st4 /\ h_FH (hs_h st') = h_FH (hs_h st4))).
  { rewrite M_bind_eq in Hp. destruct (Res1 =? DOSTRUE); cbn in Hp; injection Hp as <- <- <-; by repeat split. }
  destruct Hend as (-> & -> & El & Ef). right. exists F, Internal, pkt1, v1, st1, st2. split_and!; try done.
  intros Hu. unfold unused. rewrite El, Ef. by eapply unlock_unused.
Qed.

Lemma handle_packet_ends ug auth_ok c v pkt st v' out st' : handle_packet E rs junk ug auth_ok c d v pkt st = Some (inr (v', out), st') ->
  v_Running v = true -> v_Running v' = false -> unused st'.
Proof.
  intros Hp Hv Hv'. apply handle_packet_parts in Hp as [[[Hs _] _]|(F & Int & pkt1 & v1 & st1 & st2 & _ & [Hs _] & Hc & Hu)].
  { unfold same_run in Hs. simpl in Hs. congruence. }
  unfold same_run in Hs. simpl in Hs. destruct (decide (F = A_DIE)) as [->|HF].
  - apply Hu. unfold call_action in Hc. cbv zeta in Hc. rewrite M_bind_eq in Hc. destruct (act_DIE v1 st1) as [[[e|[v3 died]] st5]|] eqn:Ed; [done| |done].
    injection Hc as <- <- <-. eapply act_DIE_ends; [exact Ed|congruence|done].
  - pose proof (ck_run _ _ _ _ (call_action_kept _ _ _ _ _ _ _ _ Hc) HF) as Hv2. unfold same_run in Hv2. simpl in Hv2. congruence.
Qed.

(** Every packet of a client is replied to, whatever it is. *)
Lemma packet_replied ug auth_ok c v pkt st v' out st' : handle_packet E rs junk ug auth_ok c d v pkt st = Some (inr (v', out), st') ->
  cl_own c = false -> cl_arg0 c = None -> v_DoReply v' = true.
Proof.
  intros Hp Ho Ha. apply handle_packet_parts in Hp as [[[_ Hs] _]|(F & Int & pkt1 & v1 & st1 & st2 & _ & [_ Hs] & Hc & _)]; [done|].
  pose proof (ck_reply _ _ _ _ (call_action_kept _ _ _ _ _ _ _ _ Hc) Ho Ha) as Hr. unfold same_reply in *. simpl in *. congruence.
Qed.
(** A command is replied to once, as an ARexx message, and the timer's packet is sent
    again instead of a reply. *)
Lemma command_replied ug auth_ok c v st v' out st' A1 A2 A3 A4 A5 : init_dispatch = Some d ->
  handle_packet E rs junk ug auth_ok c d v (MkDOSPKT ACTION_IOCONTROL A1 A2 A3 A4 A5) st = Some (inr (v', out), st') ->
  is_Some (cl_arg0 c) -> v_DoReply v' = false /\ exists r, out = [StReply r].
Proof.
  intros Hd Hp Ha. apply handle_packet_parts in Hp as [(_ & _ & HP)|(F & Int & pkt1 & v1 & st1 & st2 & HP & _ & Hc & _)];
    rewrite (act_Prepare_ok d _ _ Hd) in HP; simpl in HP; rewrite andb_false_r in HP.
  - by destruct HP as [?|(F & pkt1 & [= <- <-] & ?)].
  - injection HP as <- <- _. by apply (ck_command _ _ _ _ (call_action_kept _ _ _ _ _ _ _ _ Hc)).
Qed.
Lemma timer_again ug auth_ok c v pkt st v' out st' : init_dispatch = Some d -> dp_Type pkt = ACTION_TIMER ->
  handle_packet E rs junk ug auth_ok c d v pkt st = Some (inr (v', out), st') ->
  cl_own c = true -> v_DoReply v' = false /\ out = [StTimer].
Proof.
  intros Hd Ht Hp Ha. apply handle_packet_parts in Hp as [(_ & _ & HP)|(F & Int & pkt1 & v1 & st1 & st2 & HP & _ & Hc & _)];
    rewrite (act_Prepare_ok d _ _ Hd), Ht in HP; simpl in HP; rewrite andb_false_r in HP.
  - by destruct HP as [?|(F & pkt1 & [=] & ?)].
  - injection HP as <- <- _. by apply (ck_timer _ _ _ _ (call_action_kept _ _ _ _ _ _ _ _ Hc)).
Qed.

Lemma handle_break_ends v st v' st' : handle_break v st = Some (inr v', st') -> v_Running v = true -> v_Running v' = false -> unused st'.
Proof.
  unfold handle_break. rewrite M_bind_eq. destruct (act_DIE v st) as [[[e|[v1 died]] st1]|] eqn:Ed; [done| |done]. intros [= <- <-] Hv Hv'.
  destruct died; [|by eapply act_DIE_ends]. eapply act_DIE_ends; [exact Ed|done|]. unfold act_DIE in Ed. rewrite M_bind_eq in Ed. cbn [gets] in Ed.
  destruct (IsInUse st); rewrite M_bind_eq in Ed; [by cbn in Ed|]. destruct (act_FLUSH st) as [[[e|[]] st2]|]; [done| |done]. by injection Ed as <- _.
Qed.

Lemma loop_unused fuel (r r' : Run) : v_Running (ru_vol r) = true -> loop E rs junk d fuel r = Some (true, r') -> unused (ru_st r').
Proof.
  intros Hv. assert (Hr : v_Running (ru_vol r) = false -> unused (ru_st r)) by congruence. clear Hv. revert r Hr.
  induction fuel as [|fuel IH]; intros r Hr; simpl; (destruct (v_Running (ru_vol r)) eqn:Hv; cbn [negb]; [|intros [= <-]; by apply Hr]); [done|].
  intros ([r1|] & Ht & Hl)%bind_Some; [|done]. eapply IH; [|exact Hl]. clear IH Hl Hr. unfold turn in Ht.
  destruct (G_WaitPkt _ _) as [[[[msg|msg|] q] ws]|]; [| | |done].
  - apply bind_Some in Ht as (r2 & Hs & [= <-]). unfold serve in Hs. cbn [ru_vol ru_st] in Hs.
    destruct (handle_packet _ _ _ _ _ _ _ _ _ _) as [[[e|[v out]] st]|] eqn:Eh; [done| |done]. injection Hs as <-. cbn [ru_vol ru_st].
    by apply (handle_packet_ends _ _ _ _ _ _ _ _ _ Eh).
  - apply bind_Some in Ht as (r2 & Hs & [= <-]). unfold serve in Hs. cbn [ru_vol ru_st] in Hs.
    destruct (handle_packet _ _ _ _ _ _ _ _ _ _) as [[[e|[v out]] st]|] eqn:Eh; [done| |done]. injection Hs as <-. cbn [ru_vol ru_st].
    by apply (handle_packet_ends _ _ _ _ _ _ _ _ _ Eh).
  - cbn [ru_vol ru_st] in Ht. destruct (handle_break _ _) as [[[e|v] st]|] eqn:Eh; [done| |done]. injection Ht as <-. cbn [ru_vol ru_st].
    by apply (handle_break_ends _ _ _ _ Eh).
Qed.

(** C9: The loop ends with a packet or a control-C that makes the handler die,
    and never while a client has a lock or an open file: both lists are empty
    then, as G_CleanUp assumes. *)
Theorem loop_ends_unused fuel (r r' : Run) : v_Running (ru_vol r) = true -> loop E rs junk d fuel r = Some (true, r') ->
  hs_Locks (ru_st r') = [] /\ h_FH (hs_h (ru_st r')) = [].
Proof. apply loop_unused. Qed.
End Die.

(** ** The ports *)

Definition packets (q : Ports) (ws : list Wakeup) : list Message := p_port q ++ concat (w_pkts <$> ws).
Definition commands (q : Ports) (ws : list Wakeup) : list Message := p_rexx q ++ concat (w_cmds <$> ws).

Definition packet_of (x : taken) : list Message := match x with Packet msg => [msg] | _ => [] end.
Definition command_of (x : taken) : list Message := match x with Command msg => [msg] | _ => [] end.
Definition message_of (x : taken) : list Message := match x with Packet msg | Command msg => [msg] | Break => [] end.

(** What is taken is the first of its kind; nothing is lost. *)
Lemma G_WaitPkt_first ws : forall q x q' ws', G_WaitPkt q ws = Some (x, q', ws') ->
  packets q ws = packet_of x ++ packets q' ws' /\ commands q ws = command_of x ++ commands q' ws'.
Proof.
  induction ws as [|w ws IH]; intros [port rexx] x q' ws'; unfold packets, commands; simpl; unfold GetMsg, GetARexxMsg; simpl.
  { destruct port as [|msg port]; [|by intros [= <- <- <-]]. destruct rexx as [|msg rexx]; [done|by intros [= <- <- <-]]. }
  destruct port as [|msg port]; [|by intros [= <- <- <-]]. destruct rexx as [|msg rexx]; [|by intros [= <- <- <-]]. simpl.
  specialize (IH (MkPorts (w_pkts w) (w_cmds w)) x q' ws'). unfold packets, commands in IH. simpl in IH.
  destruct (w_break w); [by intros [= <- <- <-]|]. destruct (w_rexx w); [destruct (w_cmds w) as [|msg l] eqn:El; [done|by intros [= <- <- <-]]|].
  destruct (w_port w); [destruct (w_pkts w) as [|msg l] eqn:El; [done|by intros [= <- <- <-]]|done].
Qed.
(** Nothing is taken when there is nothing. *)
Lemma G_WaitPkt_all ws : forall q, G_WaitPkt q ws = None -> packets q ws = [] /\ commands q ws = [].
Proof.
  induction ws as [|w ws IH]; intros [port rexx]; unfold packets, commands; simpl; unfold GetMsg, GetARexxMsg; simpl.
  { destruct port as [|msg port]; [|done]. by destruct rexx. }
  destruct port as [|msg port]; [|done]. destruct rexx as [|msg rexx]; [|done]. simpl.
  specialize (IH (MkPorts (w_pkts w) (w_cmds w))). unfold packets, commands in IH. simpl in IH.
  destruct (w_break w); [done|]. destruct (w_rexx w); [by destruct (w_cmds w)|]. destruct (w_port w); [by destruct (w_pkts w)|done].
Qed.

Section Loop.
Context {S : Type} `{NfsRpc S} `{DosNames} `{External} (E : Env).
Context (rs : nat -> option addr) (junk : list byte) (d : Dispatch).
Abbreviation Run := (@Run S).
Abbreviation turn := (turn E rs junk d).
Abbreviation loop := (loop E rs junk d).
Implicit Types (r : Run).

(** What the handler does for something that was taken, beside the ports: a call of
    handle_packet, or of act_DIE for a control-C. *)
Inductive served : Vol * HState S -> Served -> Vol * HState S -> Prop :=
| served_packet msg v st v' out st' :
    handle_packet E rs junk (msg_ug msg) (msg_auth_ok msg) (msg_client msg) d v (msg_pkt msg) (set_results (msg_Res1 msg) (msg_Res2 msg) st)
      = Some (inr (v', out), st') ->
    served (v, st) (MkServed (Packet msg) out (the_reply v' st')) (v', st')
| served_command msg v st v' out st' :
    handle_packet E rs junk (msg_ug msg) (msg_auth_ok msg) (msg_client msg) d v (MkDOSPKT ACTION_IOCONTROL 0 0 0 0 0) st
      = Some (inr (v', out), st') ->
    served (v, st) (MkServed (Command msg) out (the_reply v' st')) (v', st')
| served_break v st v' st' : handle_break v st = Some (inr v', st') -> served (v, st) (MkServed Break [] None) (v', st').

(** One after the other, while the handler is running. *)
Inductive all_served : Vol * HState S -> list Served -> Vol * HState S -> Prop :=
| all_nil s : all_served s [] s
| all_cons s x s1 log s2 : v_Running s.1 = true -> served s x s1 -> all_served s1 log s2 -> all_served s (x :: log) s2.

(** The answer: a packet of a client is sent back with its results; a command gets one
    ARexx reply; the timer's packet is sent again. *)
Definition answered (x : Served) : Prop :=
  match sv_taken x with
  | Packet msg => let c := msg_client msg in
      (cl_own c = false -> cl_arg0 c = None -> is_Some (sv_reply x)) /\
      (cl_own c = true -> dp_Type (msg_pkt msg) = ACTION_TIMER -> sv_reply x = None /\ sv_out x = [StTimer])
  | Command msg => is_Some (cl_arg0 (msg_client msg)) -> sv_reply x = None /\ exists y, sv_out x = [StReply y]
  | Break => sv_reply x = None /\ sv_out x = []
  end.

Lemma served_answered s x s' : init_dispatch = Some d -> served s x s' -> answered x.
Proof.
  intros Hd [msg v st v' out st' Hp|msg v st v' out st' Hp|v st v' st' Hp]; unfold answered; simpl; [split| |done]; unfold the_reply.
  - intros Ho Ha. rewrite (packet_replied _ _ _ _ _ _ _ _ _ _ _ _ _ Hp Ho Ha). by eexists.
  - intros Ho Ht. by destruct (timer_again _ _ _ _ _ _ _ _ _ _ _ _ _ Hd Ht Hp Ho) as [-> ->].
  - intros Ha. destruct (command_replied _ _ _ _ _ _ _ _ _ _ _ _ _ _ _ _ _ Hd Hp Ha) as [-> Hr]. done.
Qed.

(** A turn takes what waits first and serves it. *)
Lemma turn_takes r r' : turn r = Some (Some r') -> exists x, ru_log r' = x :: ru_log r /\
  packets (ru_ports r) (ru_ws r) = packet_of (sv_taken x) ++ packets (ru_ports r') (ru_ws r') /\
  commands (ru_ports r) (ru_ws r) = command_of (sv_taken x) ++ commands (ru_ports r') (ru_ws r') /\
  served (ru_vol r, ru_st r) x (ru_vol r', ru_st r').
Proof.
  unfold Run.turn. destruct (G_WaitPkt (ru_ports r) (ru_ws r)) as [[[x q] ws]|] eqn:Eg; [|done]. apply G_WaitPkt_first in Eg as [-> ->].
  unfold serve. cbn [ru_vol ru_st ru_ports ru_ws ru_log]. destruct x as [msg|msg|].
  - destruct (handle_packet _ _ _ _ _ _ _ _ _ _) as [[[e|[v out]] st]|] eqn:Eh; [done| |done]. intros [= <-]. eexists. split; [done|].
    split; [done|]. split; [done|]. by apply served_packet.
  - destruct (handle_packet _ _ _ _ _ _ _ _ _ _) as [[[e|[v out]] st]|] eqn:Eh; [done| |done]. intros [= <-]. eexists. split; [done|].
    split; [done|]. split; [done|]. by apply served_command.
  - destruct (handle_break (ru_vol r) (ru_st r)) as [[[e|v] st]|] eqn:Eh; [done| |done]. intros [= <-]. eexists. split; [done|].
    split; [done|]. split; [done|]. by apply served_break.
Qed.
Lemma turn_waits r : turn r = Some None -> packets (ru_ports r) (ru_ws r) = [] /\ commands (ru_ports r) (ru_ws r) = [].
Proof.
  unfold Run.turn. destruct (G_WaitPkt (ru_ports r) (ru_ws r)) as [[[x q] ws]|] eqn:Eg; [|intros _; by apply G_WaitPkt_all].
  destruct x; [by destruct (serve _ _ _ _ _ _ _ _ _)|by destruct (serve _ _ _ _ _ _ _ _ _)|by destruct (handle_break _ _) as [[[? |?] ?]|]].
Qed.

(** C10: The handler serves every packet and every command that it takes once, the
    packets in the order they come in and so the commands, and leaves the others at
    the ports: its state, and what it stored and replied, are those of the calls of
    handle_packet - and of act_DIE for a control-C - one after the other while it is
    running.  Each packet of a client is sent back with its results, each command gets
    one ARexx reply, and the timer's packet is sent again.  When the loop is over
    either the handler was told to die, or nothing is waiting, or it has made as many
    turns as it was given. *)
Theorem loop_serves_in_order fuel r ended r' : init_dispatch = Some d -> loop fuel r = Some (ended, r') -> exists log : list Served,
  ru_log r' = reverse log ++ ru_log r /\
  packets (ru_ports r) (ru_ws r) = concat (packet_of ∘ sv_taken <$> log) ++ packets (ru_ports r') (ru_ws r') /\
  commands (ru_ports r) (ru_ws r) = concat (command_of ∘ sv_taken <$> log) ++ commands (ru_ports r') (ru_ws r') /\
  all_served (ru_vol r, ru_st r) log (ru_vol r', ru_st r') /\ Forall answered log /\
  (if ended then v_Running (ru_vol r') = false
   else v_Running (ru_vol r') = true /\
     (length log = fuel \/ (packets (ru_ports r') (ru_ws r') = [] /\ commands (ru_ports r') (ru_ws r') = []))).
Proof.
  intros Hd. revert r. induction fuel as [|fuel IH]; intros r; simpl; (destruct (v_Running (ru_vol r)) eqn:Ev; cbn [negb];
    [|intros [= <- <-]; exists []; split_and!; try done; constructor]).
  - intros [= <- <-]. exists []. split_and!; try done; [constructor|by left].
  - destruct (turn r) as [[r1|]|] eqn:Et; [| |done]; cbn [mbind option_bind].
    + intros Hr. destruct (turn_takes r r1 Et) as (x & Hl & -> & -> & Hx). destruct (IH r1 Hr) as (log & Hl1 & -> & -> & Hall & Han & He).
      exists (x :: log). simpl. rewrite <-!app_assoc, reverse_cons, <-app_assoc. split; [by rewrite Hl1, Hl|]. split; [done|]. split; [done|].
      split; [by eapply all_cons|]. split; [constructor; [by eapply served_answered|done]|].
      destruct ended; [done|]. destruct He as [He [Hn|Hn]]; (split; [done|]); [left; by rewrite Hn|by right].
    + intros [= <- <-]. exists []. split_and!; try done; [constructor|]. right. by apply turn_waits.
Qed.
End Loop.

(** ** A concrete run *)

(** A lock is taken; the handler does not die while it is there; it is given
    back while a control-C comes, and a packet comes too late. *)
Definition ex_msg (pkt : DOSPKT) : Message := MkMessage ex_locate_client ex_ug true pkt 0 0.
Definition ex_die : DOSPKT := MkDOSPKT 5 0 0 0 0 0.
Definition ex_free : DOSPKT := MkDOSPKT 15 35 0 0 0 0.
Definition ex_wakeups : list Wakeup :=
  [MkWakeup false false true [ex_msg ex_locate; ex_msg ex_die] []; MkWakeup true false true [ex_msg ex_free; ex_msg ex_die; ex_msg ex_locate] []].
Definition ex_start : Run := MkRun (set_running true true ex_volume) ex_state (MkPorts [] []) ex_wakeups [].
Definition ex_loop := loop ex_env (fun _ => None) [] ex_dispatch 9 ex_start.

(** The packets that were replied to: type and results. *)
Definition replies_of (log : list Served) : list (Z * Z * Z) :=
  omap (fun x => match sv_taken x, sv_reply x with Packet msg, Some (r1, r2) => Some (dp_Type (msg_pkt msg), r1, r2) | _, _ => None end) log.
Definition run_view (r : option (bool * @Run treeserver)) : option (bool * list (Z * Z * Z) * nat) :=
  (r ← r; Some (r.1, replies_of (reverse (ru_log r.2)), length (p_port (ru_ports r.2)))).
Lemma ex_loop_run : run_view ex_loop = Some (true, [(8, 35, 0); (5, 0, ERROR_OBJECT_IN_USE); (15, -1, 0); (5, -1, 0)], 1%nat).
Proof. vm_compute. reflexivity. Qed.

Lemma loop_ends_unused_witness : exists r', ex_loop = Some (true, r') /\ hs_Locks (ru_st r') = [] /\ h_FH (hs_h (ru_st r')) = [].
Proof.
  pose proof ex_loop_run as E. destruct ex_loop as [[ended r']|] eqn:El; [|discriminate E].
  simpl in E. injection E as -> _ _. exists r'. split; [reflexivity|].
  exact (loop_ends_unused ex_env (fun _ => None) [] ex_dispatch 9 ex_start r' eq_refl El).
Defined.
Lemma loop_serves_in_order_witness : exists r', ex_loop = Some (true, r') /\
  dp_Type ∘ msg_pkt <$> packets (ru_ports r') (ru_ws r') = [8] /\ exists log : list Served,
  reverse (ru_log r') = log /\ replies_of log = [(8, 35, 0); (5, 0, ERROR_OBJECT_IN_USE); (15, -1, 0); (5, -1, 0)] /\
  all_served ex_env (fun _ => None) [] ex_dispatch (ru_vol ex_start, ex_state) log (ru_vol r', ru_st r').
Proof.
  assert (E : (fun x => (x.1, replies_of (reverse (ru_log x.2)), dp_Type ∘ msg_pkt <$> packets (ru_ports x.2) (ru_ws x.2))) <$> ex_loop
    = Some (true, [(8, 35, 0); (5, 0, ERROR_OBJECT_IN_USE); (15, -1, 0); (5, -1, 0)], [8])) by (vm_compute; reflexivity).
  destruct ex_loop as [[ended r']|] eqn:El; [|discriminate E]. simpl in E. injection E as -> E1 E2. exists r'. split; [reflexivity|].
  split; [exact E2|].
  destruct (loop_serves_in_order ex_env (fun _ => None) [] ex_dispatch 9 ex_start true r' ex_dispatch_ok El) as (log & Hl & _ & _ & Ha & _).
  exists log. simpl in Hl. rewrite app_nil_r in Hl. rewrite Hl, reverse_involutive in *. split; [reflexivity|]. split; [exact E1|exact Ha].
Defined.
