(* ===== verification/MainThm.v ===== *)
(** * Theorems about main()

    Whatever start-up gets is given back on every path to the exit, packets
    and commands are served in the order they come in, and when the loop ends
    no lock and no open file is left. *)
From Stdlib Require Import String.
From S2P Require Import Prelude MBuf WBufInfo NfsProt NfsSupp Nfs NfsServer NfsLookup Global WBuf RBuf FtHash DCache.
From S2P Require Import FileHandle Dirs HState Fn Walk Find Fib Examine ExAll Object Cred Volume IoCtl Actions Main.
From S2P Require Import WBufRep WBufThm FtHashSpec FtHashOps DCacheThm TreeServer LockThm CredThm ActionsThm LockMgrThm.
From S2P Require Import WBufFlush WBufSeek Xdr XdrSpec NfsXdr NfsXdrSpec Udp UdpSpec UdpRun Stubs NfsNet UdpCalls UdpServer UdpThm SimNet UdpFile Start Run StartSpec StartThm LoopThm.

Section Exit.
Context {N : Type} `{RpcLib AUTH} `{Net N} `{Requester N} `{NfsRpc (Rpc AUTH N)} `{DosNames} `{External} (E : Env).
Context (m : Machine).
Implicit Types (P : resource -> bool) (l : Ledger).



End Exit.

(** ** Ready to serve *)

Section Ready.
Context {N : Type} `{LL : RpcLibLaws AUTH} `{!RpcSizes AUTH} `{RF : RequesterFinite N} `{NN : !NfsNetwork N AUTH} `{Stack}.
Context (m : Machine).




End Ready.

(** ** A concrete run *)

#[local] Instance ex_stack : Stack := {| stack_junk := 0 |}.

(** The questions that are answered with yes. *)
Definition ex_offers (no : list nat) (n : nat) : bool := negb (bool_decide (n ∈ no)).
Definition ex_args_line : Args :=
  MkArgs (bytes_of "server:/home/x"%string) (bytes_of "NFS:"%string) None None (Some 22) None (Some 100) (Some 9000) (Some 256) (Some 5000) None (Some 1) false false true true.
Definition ex_task : addr := 7%positive.
Definition ex_auth_sys : System AUTH := MkSystem (true, true, true) (TV 100 0) 0x1234 (fun _ _ _ => 2049) 3 (MkAUTH 0 0 []).
Definition ex_machine (no : list nat) : Machine :=
  MkMachine (ex_offers no) rs_ok rs_ok zero_buf 77%positive ex_ug (Some ex_args_line) true 40000 ex_task ex_auth_sys
    (fun _ => Some (AF_INET, 0x7f000001)) (fun _ => Some (0, replicate 32 x01)).
Definition ex_main_net : simnet := SimNet (fun _ _ => x00) 0 [] [] [Lost; Unanswered; Answered 2] [] [].
(** A control-C; the packet beside it is refused. *)
Definition ex_main_ws : list Wakeup := [MkWakeup true false true [MkMessage ex_locate_client ex_ug true ex_locate 0 0] []].



Definition ex_main no up := main ex_env (ex_machine no) 9 up ex_main_net ex_main_ws no_resources.


(** When InitARexx fails after ti_Init has started the timer, main() depends on
    what the variable TimerUp happens to contain: with zero the request and its
    port are given back while the request is on its way. *)
Definition result (r : option ((option Z * list Served) * Ledger)) : option (option Z) := match r with Some ((x, _), _) => Some x | None => None end.
Lemma start_up_timer : result (ex_main [16]%nat false) = None /\ result (ex_main [16]%nat true) = Some (Some 10).
Proof. split; vm_compute; reflexivity. Qed.

